(* ===== verification/_CoqProject ===== *)
-Q . S2P
Prelude.v
Params.v
Mem.v
State.v
Spinlock.v
CString.v
Kalloc.v
Vm.v
PageTable.v
VmSpec.v
UvmSpec.v
UvmProps.v
UvmFree.v
CopySpec.v
VmDemo.v
Proc.v
ProcSpec.v
ProcVm.v
Sleeplock.v
ProcLife.v
WaitSpec.v
Uart.v
Printf.v
Console.v
Virtio.v
Bio.v
Dll.v
BioSpec.v
BioProps.v
VirtioSpec.v
Log.v
Block.v
LogSpec.v
LogProps.v
LogTxn.v
Fs.v
FsSpec.v
InodeSpec.v
BallocSpec.v
File.v
PipeSpec.v
Exec.v
ForkSpec.v
LifeSpec.v
Syscall.v
Trap.v
User.v
Ulib.v
UPrintf.v
Grep.v
Sh.v
ShSpec.v
ShPrint.v
ShRun.v
Utils.v
UtilsSpec.v
Net.v
Script.v
Primes.v
PrimesNet.v
PrimesSteps.v
PrimesLife.v
PrimesSpec.v
PrimesFiles.v
Umalloc.v
UmallocSpec.v
UmallocProps.v
Mkfs.v
MkfsDisk.v
MkfsFile.v
MkfsAppend.v
MkfsSpec.v
MkfsProps.v
Asm.v
Trampoline.v
TrapSpec.v
SwtchSpec.v
Start.v
TestProgs.v
