(* ===== verification/Prelude.v ===== *)
(** * xv6-riscv (6.1810 labs, 2024): a verification library

    The program is the teaching operating system xv6 with the solutions of the
    first lab: a kernel for RISC-V (src/kernel), the user programs and their
    library (src/user), and the host program that builds the file system image
    (src/mkfs). This library translates them into definitions of Rocq and proves
    theorems about the definitions. A definition has the name of the C function it
    translates; where a C function has a loop, the loop is a definition of its own.

    ** The parts of the system and how they interact

    A user program traps into the kernel through trampoline.S; trap.c calls
    syscall.c, which calls sysproc.c and sysfile.c. These use proc.c (processes),
    vm.c and kalloc.c (memory), exec.c, file.c and pipe.c (open files), and fs.c
    (inodes, directories, paths), which works in transactions of log.c on the
    buffer cache bio.c above the disk driver virtio_disk.c. The console and the
    UART are the other device. spinlock.c and sleeplock.c protect all of these,
    and swtch.S switches between processes. mkfs makes the disk that fs.c reads.

    ** Kernel code as computations

    A kernel function is a computation [M kstate A] (this file): from a state to
    an outcome. [Ret a s] is a return; [Panic msg] is a call of panic, or a
    fault that the kernel answers with panic; [Spin lk s] is waiting in state [s] for a
    lock that another hart holds; [Switch s k] is a context switch, with the
    state in which the process leaves the processor and the continuation that runs
    when it is back, in whatever state the others have made; and [OutOfFuel] is
    the bound of a loop. [kstate] (State.v) has the structures of the
    headers as records with one setter for each field, the registers of the hart,
    the locks that are held, and memory as a map from addresses to bytes (Mem.v).
    Integers are Z with the wrap-around written out ([u8] to [u64], [i16], [i32]);
    pointers into tables are indices, other pointers are addresses.

    ** Files

    - Prelude.v: outcomes, machine integers, little-endian words, the tactics and
      the hint database. Params.v: param.h, memlayout.h, riscv.h, the constants of
      fs.h, stat.h, fcntl.h; the addresses that the linker fixes are the class
      [KernelImage], what kernel.ld guarantees of them the class [KernelLayout].
      Mem.v: memory. State.v: proc.h, buf.h, file.h, sleeplock.h and the globals.
    - Spinlock.v: spinlock.c, and in [Module Harts] the loads and stores of the lock in
      acquire, holding and release by any number of harts in any interleaving. CString.v: string.c.
      Sleeplock.v: sleeplock.c.
    - Kalloc.v: kalloc.c. Vm.v: vm.c. PageTable.v: page tables as trees. VmSpec.v,
      UvmSpec.v, UvmProps.v, UvmFree.v, CopySpec.v: mappings, address spaces
      and copies. VmDemo.v: a concrete address space for the witnesses.
    - Proc.v and Exec.v: proc.c and exec.c, elf.h. ProcSpec.v: sleep, wakeup, the
      scheduler. ProcVm.v, ProcLife.v, ForkSpec.v, WaitSpec.v, LifeSpec.v: page
      tables of processes, fork, wait, and the three calls fork, exit, wait together.
    - Uart.v (uart.c, plic.c), Printf.v (printf.c), Console.v (console.c),
      Virtio.v (virtio_disk.c, virtio.h), VirtioSpec.v: a request from the driver
      through the device, the interrupt and the scheduler and back.
    - Bio.v, Dll.v, BioSpec.v, BioProps.v: bio.c. Log.v, Block.v, LogSpec.v,
      LogProps.v, LogTxn.v: log.c. Fs.v: fs.c and fs.h. FsSpec.v, InodeSpec.v: reading,
      lookup, inode references. BallocSpec.v: the bitmap.
      File.v, PipeSpec.v: file.c and pipe.c.
    - Syscall.v: syscall.c, sysproc.c, sysfile.c. Trap.v: trap.c and main.c.
    - Asm.v: the listings of entry.S, kernelvec.S, swtch.S and trampoline.S,
      instruction by instruction, and saving and restoring registers.
      Trampoline.v, TrapSpec.v, SwtchSpec.v: their theorems. Start.v: start.c.
    - User.v: user programs as interaction trees over the system calls of user.h.
      Ulib.v (ulib.c), UPrintf.v (printf.c), Umalloc.v, UmallocSpec.v and
      UmallocProps.v (umalloc.c), Grep.v (grep.c), Sh.v, ShSpec.v, ShPrint.v and
      ShRun.v (sh.c), Utils.v and UtilsSpec.v (the small programs), TestProgs.v
      (forktest.c, stressfs.c, grind.c).
    - Net.v: the system calls of several processes with pipes. Script.v: the
      calls of one process as a finite script.
      Primes.v, PrimesNet.v, PrimesSteps.v, PrimesLife.v,
      PrimesSpec.v: primes.c. PrimesFiles.v: an executable scheduler of
      the processes, and the run of primes.c it finds.
    - Mkfs.v: mkfs.c. MkfsDisk.v, MkfsFile.v, MkfsAppend.v, MkfsSpec.v,
      MkfsProps.v: sectors, files, appending, the whole image.

    ** Interfaces

    The buffer cache and all above it are proved against [BlockDev], a disk driver
    as one operation, and [DiskOk] (BioSpec.v), what it promises: a request
    completes with the block read or written, and the driver touches nothing else.
    The request is one operation: other processes do not run while it is under way.
    The witnesses give a driver that completes at once. VirtioSpec.v shows the same
    contract of virtio_disk.c itself for every block the device has, against
    [VirtioOk], which is what the VIRTIO standard says of the device; it is no instance
    of [DiskOk], which asks it of all block numbers, and the sector numbers of
    the driver wrap around at 32 bits. [DiskLocal] says that the invariant of the
    driver is about its own state and pages: it is used where user memory or the
    UART is written between two requests. [DmaLayout] has the addresses that the driver gives to
    the device, [StatPad] the padding bytes of struct stat. [Env] (Asm.v) has the
    address translation, the symbols and the called functions of assembly code;
    Trampoline.v instantiates it with the walk of the page table in satp.
    A user program is proved against a relation that says what a call may
    return: [file_step] (User.v) for files that deliver their bytes in pieces of any
    size, [call_step] (Net.v) for processes and pipes.

    ** What the theorems show

    - Memory: kalloc and kfree are a stack of pages, kinit frees each page once;
      mappages, uvmalloc, uvmdealloc and uvmcopy keep an address space a tree of
      distinct pages, lose no page on any branch, and fail only when memory is
      short; copyout, copyin and copyinstr succeed exactly on ranges the
      process may access.
    - Processes: fork makes a copy, and fails only for want of a process slot or of
      pages; wait reaps, sleeps, or reports that there is no child; a run of fork, of wait
      to its sleep, of exit in the child and of the rest of wait gives back every page,
      slot and reference and delivers the status; sleep loses no wakeup; the scheduler
      runs the first runnable process; spin locks exclude each other in every interleaving.
    - Traps: the registers of a process survive uservec, the kernel and userret;
      usertrapret, userret and uservec fit together; a context switch and back
      restores the context; an interrupt in the kernel is invisible; start enters
      main in supervisor mode.
    - File system: a transaction is atomic under a crash at any disk write,
      recovery is idempotent; the buffer cache keeps one buffer for each block; balloc
      finds the first free block or reports that there is none; readi delivers the
      bytes of a file to the kernel, or to user memory as far as that may be written;
      bfree, dirlookup and iget do what they say.
    - The disk: a request of virtio_disk_rw reaches the device, is served, found by the
      interrupt handler, and transfers exactly the block of the buffer; the driver is
      then as it was; virtio_disk_init makes the queue.
    - mkfs and the kernel: the image that mkfs writes decodes, by the kernel's own
      functions, to the files it was given.
    - User programs: the parser of the shell is total and inverts printing, runcmd
      starts the programs of a command with the right descriptors; grep
      decides its language and prints the matching lines; malloc and free
      keep blocks disjoint and adjacent free blocks joined; printf and atoi are inverse; primes prints the primes in
      every interleaving, without deadlock, when there are enough open files, and
      runs out of the NFILE files in some.
    - Where the code does not do what it means to, a theorem says what it does:
      begin_op admits more than log_write accepts, printint overruns its buffer,
      primes can run out of files.

    ** Bounds and fuel

    A loop that the C code bounds recurses on that bound. Loops over memory
    or lists take as fuel a number that the theorems show to be enough: the length
    of the data, the number of pages, of blocks or of entries. A loop that waits for
    another process or a device ([sleep] in a while loop, polling a register)
    takes [wait_fuel], a parameter: the theorems hold for every value above 0, since
    the states they are about do not wait, or show the [Switch] that ends the
    wait. Endless loops of user programs are [loop], without fuel. The parser
    of the shell and malloc have fuel with theorems that it suffices; freewalk has the
    depth of the tree. Proofs by evaluation are on concrete inputs, the witnesses.

    ** Not modelled

    - usertests.c: regression tests, most of which pass addresses outside of the
      process to system calls or fault on purpose; the events of User.v carry
      values, not addresses. xargstest.sh, the Makefile and the grading scripts.
    - kernel.ld, user.ld and usys.pl: inputs of the linker, and the generator of the
      system call stubs. defs.h has prototypes only.
    - The devices, the caches and the memory order of the hardware, and the
      instruction fetch of the trampoline. Kernel code runs on one hart
      between its context switches; several harts are in [Module Harts] alone.
    - For proc.c, console.c, virtio_disk.c, exec.c and the system calls, not every
      definition has a theorem of its own.
*)

From stdpp Require Export base tactics decidable gmap strings list.
From Stdlib Require Export ZArith Lia.

Open Scope Z_scope.

(** ** Kernel computations

    A kernel computation maps a state to an [outcome]:
    - [Ret a s]: it returned [a] in state [s];
    - [Panic msg]: it called [panic(msg)], which never returns;
    - [Spin lk s]: it spins in state [s] on a spinlock held by another hart;
    - [OutOfFuel]: the fuel of a loop that is not bounded by the data ran out;
    - [Switch s k]: it called [swtch] in state [s]; [k] is the rest of the
      computation, run from the state in which the thread is resumed. *)

Definition lockid : Type := (string * Z)%type.
Definition chan : Type := (string * Z)%type.

Inductive outcome (S A : Type) : Type :=
| Ret (a : A) (s : S)
| Panic (msg : string)
| Spin (lk : lockid) (s : S)
| OutOfFuel
| Switch (s : S) (k : S -> outcome S A).
Arguments Ret {S A} a s.
Arguments Panic {S A} msg.
Arguments Spin {S A} lk s.
Arguments OutOfFuel {S A}.
Arguments Switch {S A} s k.

Definition M (S A : Type) : Type := S -> outcome S A.

Fixpoint obind {S A B} (o : outcome S A) (f : A -> M S B) : outcome S B :=
  match o with
  | Ret a s => f a s
  | Panic msg => Panic msg
  | Spin lk s => Spin lk s
  | OutOfFuel => OutOfFuel
  | Switch s k => Switch s (fun s' => obind (k s') f)
  end.

Definition ret {S A} (a : A) : M S A := fun s => Ret a s.
Definition bind {S A B} (m : M S A) (f : A -> M S B) : M S B :=
  fun s => obind (m s) f.
Definition get {S A} (f : S -> A) : M S A := fun s => Ret (f s) s.
Definition modify {S} (f : S -> S) : M S unit := fun s => Ret tt (f s).
Definition panic {S A} (msg : string) : M S A := fun _ => Panic msg.
Definition swtch {S} : M S unit := fun s => Switch s (fun s' => Ret tt s').

Declare Scope kernel_scope.
Delimit Scope kernel_scope with K.
Notation "'let!' x ':=' m 'in' k" := (bind m (fun x => k))
  (at level 10, x pattern, m at level 100, k at level 200,
   format "'[v' 'let!'  x  ':='  m  'in' '/' k ']'") : kernel_scope.
Notation "m ;; k" := (bind m (fun _ => k))
  (at level 100, k at level 200, right associativity,
   format "'[v' m  ;; '/' k ']'") : kernel_scope.
Open Scope kernel_scope.

(** Run [m] when [b] holds. *)
Definition when {S} (b : bool) (m : M S unit) : M S unit :=
  if b then m else ret tt.

(** C [for] loops without early exit, over the values of the loop variable. *)
Fixpoint for_each {S A} (l : list A) (f : A -> M S unit) : M S unit :=
  match l with
  | [] => ret tt
  | x :: l' => f x ;; for_each l' f
  end.

(** ** Machine integers, as [Z] with explicit wrap-around *)

Definition u8 (x : Z) : Z := x mod 2 ^ 8.
Definition u16 (x : Z) : Z := x mod 2 ^ 16.
Definition u32 (x : Z) : Z := x mod 2 ^ 32.
Definition u64 (x : Z) : Z := x mod 2 ^ 64.
Definition signed (w x : Z) : Z :=
  let y := x mod 2 ^ w in if y <? 2 ^ (w - 1) then y else y - 2 ^ w.
Definition i8 (x : Z) : Z := signed 8 x.
Definition i16 (x : Z) : Z := signed 16 x.
Definition i32 (x : Z) : Z := signed 32 x.
Definition i64 (x : Z) : Z := signed 64 x.

(** [cbool x]: the truth value of a C integer. *)
Definition cbool (x : Z) : bool := negb (x =? 0).

(** [has x m]: the C test [x & m] used as a condition. *)
Definition has (x m : Z) : bool := cbool (Z.land x m).

(** ** Little-endian encoding *)

Fixpoint le_encode (n : nat) (v : Z) : list Z :=
  match n with
  | O => []
  | S n' => v mod 256 :: le_encode n' (v / 256)
  end.

Fixpoint le_decode (bs : list Z) : Z :=
  match bs with
  | [] => 0
  | b :: bs' => b mod 256 + 256 * le_decode bs'
  end.

(** The bytes of a string literal. *)
Definition str (s : string) : list Z :=
  map (fun a => Z.of_N (Ascii.N_of_ascii a)) (String.list_ascii_of_string s).

(** The C string at the start of an array. *)
Fixpoint until_nul (bs : list Z) : list Z :=
  match bs with
  | [] => []
  | b :: bs' => if b =? 0 then [] else b :: until_nul bs'
  end.

(** A range of consecutive integers [a, a+1, ..., a+n-1]. *)
Fixpoint zrange (a : Z) (n : nat) : list Z :=
  match n with
  | O => []
  | S n' => a :: zrange (a + 1) n'
  end.

(** ** Lemmas on computations *)

(** The state of a run that returns, for evaluating concrete runs. *)
Definition ret_state {S A} `{Inhabited S} (o : outcome S A) : S :=
  match o with Ret _ s => s | _ => inhabitant end.

Lemma bind_Ret {S A B} (m : M S A) (f : A -> M S B) s a s' :
  m s = Ret a s' -> bind m f s = f a s'.
Proof. intros H. unfold bind. by rewrite H. Qed.

Lemma bind_Panic {S A B} (m : M S A) (f : A -> M S B) s msg :
  m s = Panic msg -> bind m f s = Panic msg.
Proof. intros H. unfold bind. by rewrite H. Qed.

Lemma bind_inv_Ret {S A B} (m : M S A) (f : A -> M S B) s b s'' :
  bind m f s = Ret b s'' -> exists a s', m s = Ret a s' /\ f a s' = Ret b s''.
Proof.
  unfold bind. destruct (m s) as [a s'| | | |]; simpl; intros H; try discriminate.
  eauto.
Qed.

(** Total-correctness triples for computations that may switch: at a switch
    the state must satisfy the guarantee [G], and the thread is resumed in any
    state the rely [R] allows. *)
Fixpoint wp {S A} (R : S -> S -> Prop) (G : S -> Prop)
    (o : outcome S A) (Q : A -> S -> Prop) : Prop :=
  match o with
  | Ret a s => Q a s
  | Panic _ | Spin _ _ | OutOfFuel => False
  | Switch s k => G s /\ forall s', R s s' -> wp R G (k s') Q
  end.

Lemma wp_obind {S A B} R G (o : outcome S A) (f : A -> M S B) Q :
  wp R G o (fun a s => wp R G (f a s) Q) -> wp R G (obind o f) Q.
Proof.
  induction o as [| | | |s k IH]; simpl; try done.
  intros [HG Hk]. split; [done|]. intros s' HR. apply IH, Hk, HR.
Qed.

Lemma wp_bind {S A B} R G (m : M S A) (f : A -> M S B) s Q :
  wp R G (m s) (fun a s => wp R G (f a s) Q) -> wp R G (bind m f s) Q.
Proof. apply wp_obind. Qed.

Lemma wp_mono {S A} R G (o : outcome S A) (Q Q' : A -> S -> Prop) :
  (forall a s, Q a s -> Q' a s) -> wp R G o Q -> wp R G o Q'.
Proof.
  intros HQ. induction o as [| | | |s k IH]; simpl; try done; [by apply HQ|].
  intros [HG Hk]. split; [done|]. intros s' HR. apply IH, Hk, HR.
Qed.

Lemma wp_Ret {S A} R G (o : outcome S A) a s (Q : A -> S -> Prop) :
  o = Ret a s -> Q a s -> wp R G o Q.
Proof. by intros ->. Qed.

(** ** Tactics *)

(** Execute the first statement of a computation by the equation [H]. *)
Ltac mstep H := erewrite bind_Ret; [|solve [eapply H; eauto] || eapply H].

(** Case analysis on the boolean comparison of an [if] in the goal. *)
Ltac case_cmp :=
  match goal with
  | |- context [Z.ltb ?a ?b] => destruct (Z.ltb_spec a b)
  | |- context [Z.leb ?a ?b] => destruct (Z.leb_spec a b)
  | |- context [Z.eqb ?a ?b] => destruct (Z.eqb_spec a b)
  end.

Ltac case_cmp_in H :=
  match type of H with
  | context [Z.ltb ?a ?b] => destruct (Z.ltb_spec a b)
  | context [Z.leb ?a ?b] => destruct (Z.leb_spec a b)
  | context [Z.eqb ?a ?b] => destruct (Z.eqb_spec a b)
  end.

(** Decide a boolean comparison by linear arithmetic and rewrite it away. *)
Ltac zbool :=
  repeat match goal with
  | |- context [Z.ltb ?a ?b] =>
      first [ rewrite (proj2 (Z.ltb_lt a b)) by lia
            | rewrite (proj2 (Z.ltb_ge a b)) by lia ]
  | |- context [Z.leb ?a ?b] =>
      first [ rewrite (proj2 (Z.leb_le a b)) by lia
            | rewrite (proj2 (Z.leb_gt a b)) by lia ]
  | |- context [Z.eqb ?a ?b] =>
      first [ rewrite (proj2 (Z.eqb_eq a b)) by lia
            | rewrite (proj2 (Z.eqb_neq a b)) by lia ]
  end.

(** ** Generic lemmas *)

Create HintDb xv6.
Create Rewrite HintDb xv6.

Lemma length_le_encode n v : length (le_encode n v) = n.
Proof. revert v; induction n; simpl; auto. Qed.

Lemma le_decode_encode n v :
  le_decode (le_encode n v) = v mod 2 ^ (8 * Z.of_nat n).
Proof.
  revert v; induction n as [|n IH]; intros v; simpl le_encode; simpl le_decode.
  - by rewrite Z.mod_1_r.
  - rewrite IH, Z.mod_mod by lia.
    replace (8 * Z.of_nat (S n)) with (8 + 8 * Z.of_nat n) by lia.
    rewrite Z.pow_add_r by lia. change (2 ^ 8) with 256.
    rewrite Z.rem_mul_r by lia. done.
Qed.

Lemma le_decode_bound bs :
  0 <= le_decode bs < 2 ^ (8 * Z.of_nat (length bs)).
Proof.
  induction bs as [|b bs IH]; simpl le_decode; [simpl; lia|].
  cbn [length]. replace (8 * Z.of_nat (S (length bs))) with (8 + 8 * Z.of_nat (length bs)) by lia.
  rewrite Z.pow_add_r by lia. change (2 ^ 8) with 256.
  pose proof (Z.mod_pos_bound b 256). lia.
Qed.

Lemma le_encode_decode bs :
  Forall (fun b => 0 <= b < 256) bs -> le_encode (length bs) (le_decode bs) = bs.
Proof.
  induction 1 as [|b bs Hb _ IH]; [done|]. cbn [length le_encode le_decode].
  rewrite (Z.mod_small b) by lia. f_equal.
  - rewrite (Z.mul_comm 256), Z.mod_add, Z.mod_small; lia.
  - rewrite (Z.mul_comm 256), Z.div_add, Z.div_small, Z.add_0_l by lia. done.
Qed.

Lemma le_encode_range n v : Forall (fun b => 0 <= b < 256) (le_encode n v).
Proof.
  revert v; induction n; intros v; simpl; constructor; auto.
  apply Z.mod_pos_bound; lia.
Qed.

Lemma length_zrange a n : length (zrange a n) = n.
Proof. revert a; induction n; simpl; auto. Qed.

Lemma elem_of_zrange a n x : x ∈ zrange a n <-> a <= x < a + Z.of_nat n.
Proof.
  revert a; induction n as [|n IH]; intros a; simpl.
  - rewrite elem_of_nil. lia.
  - rewrite elem_of_cons, IH. lia.
Qed.

Lemma lookup_zrange a n i : (i < n)%nat -> zrange a n !! i = Some (a + Z.of_nat i).
Proof.
  revert a i; induction n as [|n IH]; intros a i Hi; [lia|].
  destruct i as [|i]; simpl; [f_equal; lia|].
  rewrite IH by lia. f_equal. lia.
Qed.

Lemma NoDup_zrange a n : NoDup (zrange a n).
Proof.
  revert a; induction n as [|n IH]; intros a; simpl; constructor; auto.
  rewrite elem_of_zrange. lia.
Qed.

Lemma zrange_snoc a n : zrange a (S n) = zrange a n ++ [a + Z.of_nat n].
Proof.
  revert a; induction n as [|n IH]; intros a.
  - simpl. f_equal. lia.
  - change (zrange a (S (S n))) with (a :: zrange (a + 1) (S n)).
    rewrite IH. simpl. do 3 f_equal. lia.
Qed.

Lemma for_each_Ret {S A} (l : list A) (f : A -> M S unit) (g : A -> S -> S) s :
  (forall x s, x ∈ l -> f x s = Ret tt (g x s)) ->
  for_each l f s = Ret tt (fold_left (fun s x => g x s) l s).
Proof.
  revert s; induction l as [|x l IH]; intros s H; [done|].
  simpl. erewrite bind_Ret by (apply H; set_solver).
  apply IH. intros y s' Hy. apply H. set_solver.
Qed.

Lemma land_ones_mod x n : 0 <= n -> Z.land x (2 ^ n - 1) = x mod 2 ^ n.
Proof.
  intros Hn. rewrite <- Z.land_ones by lia. f_equal. rewrite Z.ones_equiv. lia.
Qed.

(** ** Updates of one element of a list *)

Lemma alter_id_same {A} (f : A -> A) (l : list A) i :
  (forall x, l !! i = Some x -> f x = x) -> alter f i l = l.
Proof.
  intros H. apply list_eq. intros j. rewrite list_lookup_alter. case_decide as E; [|done].
  subst j. destruct (l !! i) as [x|] eqn:Ex; simpl; [|done]. by rewrite H.
Qed.

Lemma alter_agree {A} (f g : A -> A) (l : list A) i :
  (forall x, l !! i = Some x -> f x = g x) -> alter f i l = alter g i l.
Proof.
  intros H. apply list_eq. intros j. rewrite !list_lookup_alter. case_decide as E; [|done].
  subst j. destruct (l !! i) as [x|] eqn:Ex; simpl; [|done]. by rewrite H.
Qed.

Lemma alter_alter {A} (f g : A -> A) (l : list A) i :
  alter f i (alter g i l) = alter (fun x => f (g x)) i l.
Proof.
  apply list_eq. intros j. rewrite !list_lookup_alter. case_decide; [|done].
  rewrite decide_True by done. by destruct (l !! i).
Qed.
