(* ===== verification/Params.v ===== *)
(** * Kernel constants and address arithmetic

    [param.h], [memlayout.h], the page-table macros of [riscv.h] and the
    layout constants of [fs.h], [stat.h], [fcntl.h] and [file.h], as the
    build configures them ([conf/lab.mk]: [LAB=util], so [LAB_UTIL] is
    defined); and the symbols the linker script provides. *)

From S2P Require Import Prelude.

(** ** param.h *)
Definition NPROC : Z := 64.
Definition NCPU : Z := 8.
Definition NOFILE : Z := 16.
Definition NFILE : Z := 100.
Definition NINODE : Z := 50.
Definition NDEV : Z := 10.
Definition ROOTDEV : Z := 1.
Definition MAXARG : Z := 32.
Definition MAXOPBLOCKS : Z := 10.
Definition LOGSIZE : Z := MAXOPBLOCKS * 3.
Definition NBUF : Z := MAXOPBLOCKS * 3.
Definition FSSIZE : Z := 2000.
Definition MAXPATH : Z := 128.
Definition USERSTACK : Z := 2.

(** ** riscv.h: Sv39 page tables *)
Definition PGSIZE : Z := 4096.
Definition PGSHIFT : Z := 12.

Definition PGROUNDUP (sz : Z) : Z := Z.land (u64 (sz + PGSIZE - 1)) (Z.lnot (PGSIZE - 1)).
Definition PGROUNDDOWN (a : Z) : Z := Z.land a (Z.lnot (PGSIZE - 1)).

Definition PTE_V : Z := Z.shiftl 1 0.
Definition PTE_R : Z := Z.shiftl 1 1.
Definition PTE_W : Z := Z.shiftl 1 2.
Definition PTE_X : Z := Z.shiftl 1 3.
Definition PTE_U : Z := Z.shiftl 1 4.

Definition PA2PTE (pa : Z) : Z := u64 (Z.shiftl (Z.shiftr pa 12) 10).
Definition PTE2PA (pte : Z) : Z := u64 (Z.shiftl (Z.shiftr pte 10) 12).
Definition PTE_FLAGS (pte : Z) : Z := Z.land pte 1023.

Definition PXMASK : Z := 511.
Definition PXSHIFT (level : Z) : Z := PGSHIFT + 9 * level.
Definition PX (level va : Z) : Z := Z.land (Z.shiftr va (PXSHIFT level)) PXMASK.

Definition MAXVA : Z := Z.shiftl 1 (9 + 9 + 9 + 12 - 1).

Definition SATP_SV39 : Z := Z.shiftl 8 60.
Definition MAKE_SATP (pagetable : Z) : Z := Z.lor SATP_SV39 (Z.shiftr pagetable 12).

Definition SSTATUS_SPP : Z := Z.shiftl 1 8.
Definition SSTATUS_SPIE : Z := Z.shiftl 1 5.
Definition SSTATUS_SIE : Z := Z.shiftl 1 1.

(** ** memlayout.h *)
Definition UART0 : Z := 0x10000000.
Definition UART0_IRQ : Z := 10.
Definition VIRTIO0 : Z := 0x10001000.
Definition VIRTIO0_IRQ : Z := 1.
Definition PLIC : Z := 0x0c000000.
Definition KERNBASE : Z := 0x80000000.
Definition PHYSTOP : Z := KERNBASE + 128 * 1024 * 1024.
Definition TRAMPOLINE : Z := MAXVA - PGSIZE.
Definition KSTACK (p : Z) : Z := TRAMPOLINE - (p + 1) * 2 * PGSIZE.
Definition TRAPFRAME : Z := TRAMPOLINE - PGSIZE.

(** ** fs.h, stat.h, fcntl.h, file.h *)
Definition ROOTINO : Z := 1.
Definition BSIZE : Z := 1024.
Definition FSMAGIC : Z := 0x10203040.
Definition NDIRECT : Z := 12.
Definition NINDIRECT : Z := BSIZE / 4.
Definition MAXFILE : Z := NDIRECT + NINDIRECT.
Definition IPB : Z := BSIZE / 64.
Definition BPB : Z := BSIZE * 8.
Definition DIRSIZ : Z := 14.

Definition CONSOLE : Z := 1.
Definition T_DIR : Z := 1.
Definition T_FILE : Z := 2.
Definition T_DEVICE : Z := 3.

Definition O_RDONLY : Z := 0x000.
Definition O_WRONLY : Z := 0x001.
Definition O_RDWR : Z := 0x002.
Definition O_CREATE : Z := 0x200.
Definition O_TRUNC : Z := 0x400.

(** ** Linker symbols

    The addresses [kernel.ld] gives the symbols the C code takes the address
    of. The linker fixes them when it lays the image out, so they are
    arguments of the model; [KernelLayout] states what [kernel.ld]
    guarantees: the image starts at [KERNBASE], the trampoline is one page
    inside the page-aligned text section, and [end] lies below [PHYSTOP]. *)
Class KernelImage := {
  kend : Z;           (* end[] *)
  etext : Z;          (* etext[] *)
  trampoline : Z;     (* trampoline[] *)
  uservec : Z;        (* uservec[], in the trampoline page *)
  userret : Z;        (* userret[], in the trampoline page *)
  kernelvec : Z;      (* kernelvec() *)
  forkret_addr : Z;   (* the code address of forkret() *)
  usertrap_addr : Z;  (* the code address of usertrap() *)
}.

Class KernelLayout (I : KernelImage) : Prop := {
  tramp_aligned : trampoline mod PGSIZE = 0;
  tramp_range : KERNBASE <= trampoline /\ trampoline + PGSIZE <= etext;
  etext_aligned : etext mod PGSIZE = 0;
  kend_range : etext <= kend < PHYSTOP;
}.

(** ** Lemmas *)

Lemma PGROUNDDOWN_eq a : PGROUNDDOWN a = PGSIZE * (a / PGSIZE).
Proof.
  unfold PGROUNDDOWN, PGSIZE. change (Z.lnot (4096 - 1)) with (Z.lnot (Z.ones 12)).
  rewrite <- Z.ldiff_land, Z.ldiff_ones_r, Z.shiftr_div_pow2, Z.shiftl_mul_pow2 by lia.
  change (2 ^ 12) with 4096. lia.
Qed.

Lemma PGROUNDUP_eq sz :
  0 <= sz -> sz + PGSIZE <= 2 ^ 64 ->
  PGROUNDUP sz = PGSIZE * ((sz + PGSIZE - 1) / PGSIZE).
Proof.
  intros H0 H1. unfold PGROUNDUP, u64. unfold PGSIZE in H1.
  rewrite Z.mod_small by (unfold PGSIZE; lia).
  apply PGROUNDDOWN_eq.
Qed.

Lemma PGROUNDDOWN_le a : PGROUNDDOWN a <= a < PGROUNDDOWN a + PGSIZE.
Proof.
  rewrite PGROUNDDOWN_eq. unfold PGSIZE.
  pose proof (Z.div_mod a 4096). pose proof (Z.mod_pos_bound a 4096). lia.
Qed.

Lemma PGROUNDDOWN_aligned a : PGROUNDDOWN a mod PGSIZE = 0.
Proof. rewrite PGROUNDDOWN_eq, Z.mul_comm. apply Z.mod_mul. done. Qed.

Lemma PGROUNDDOWN_id a : a mod PGSIZE = 0 -> PGROUNDDOWN a = a.
Proof.
  rewrite PGROUNDDOWN_eq. unfold PGSIZE. intros H.
  pose proof (Z.div_mod a 4096). lia.
Qed.

Lemma PGROUNDUP_aligned sz : PGROUNDUP sz mod PGSIZE = 0.
Proof. unfold PGROUNDUP. apply PGROUNDDOWN_aligned. Qed.

Lemma PGROUNDUP_bounds sz :
  0 <= sz -> sz + PGSIZE <= 2 ^ 64 -> sz <= PGROUNDUP sz < sz + PGSIZE.
Proof.
  intros H0 H1. rewrite PGROUNDUP_eq by done. unfold PGSIZE in *.
  pose proof (Z.div_mod (sz + 4096 - 1) 4096).
  pose proof (Z.mod_pos_bound (sz + 4096 - 1) 4096). lia.
Qed.

Lemma PX_eq level va :
  0 <= level -> PX level va = (va / 2 ^ (12 + 9 * level)) mod 512.
Proof.
  intros H. unfold PX, PXSHIFT, PXMASK, PGSHIFT.
  rewrite Z.shiftr_div_pow2 by lia. change 511 with (2 ^ 9 - 1).
  rewrite land_ones_mod by lia. done.
Qed.

Lemma PX_range level va : 0 <= level -> 0 <= PX level va < 512.
Proof. intros H. rewrite PX_eq by done. apply Z.mod_pos_bound. lia. Qed.

(** A virtual address below [MAXVA] is determined by its three indices and its
    page offset. *)
Lemma PX_half va : 0 <= va < MAXVA -> PX 2 va < 256.
Proof.
  intros H. rewrite PX_eq by lia. change MAXVA with (2 ^ 38) in H.
  assert (va / 2 ^ 30 < 256) by (apply Z.div_lt_upper_bound; lia). pose proof (Z.div_pos va (2 ^ 30)).
  change (2 ^ (12 + 9 * 2)) with (2 ^ 30). rewrite Z.mod_small; lia.
Qed.

Lemma va_split va :
  0 <= va < MAXVA ->
  va = PX 2 va * 2 ^ 30 + PX 1 va * 2 ^ 21 + PX 0 va * 2 ^ 12 + va mod PGSIZE.
Proof.
  intros H. change MAXVA with (2 ^ 38) in H. rewrite !PX_eq by lia. unfold PGSIZE.
  change (2 ^ (12 + 9 * 2)) with (4096 * 512 * 512).
  change (2 ^ (12 + 9 * 1)) with (4096 * 512).
  change (2 ^ (12 + 9 * 0)) with 4096.
  rewrite <- !Z.div_div by lia.
  pose proof (Z.div_mod va 4096 ltac:(lia)).
  pose proof (Z.div_mod (va / 4096) 512 ltac:(lia)).
  pose proof (Z.div_mod (va / 4096 / 512) 512 ltac:(lia)).
  rewrite (Z.mod_small (va / 4096 / 512 / 512)); [lia|].
  split; [repeat (apply Z.div_pos; [|lia]); lia|].
  repeat (apply Z.div_lt_upper_bound; [lia|]). lia.
Qed.

(** The indices of [va] are those of the page containing it. *)
Lemma PX_page va1 va2 :
  va1 mod PGSIZE = 0 -> va2 mod PGSIZE = 0 ->
  0 <= va1 < MAXVA -> 0 <= va2 < MAXVA ->
  PX 2 va1 = PX 2 va2 -> PX 1 va1 = PX 1 va2 -> PX 0 va1 = PX 0 va2 -> va1 = va2.
Proof.
  intros A1 A2 B1 B2 E2 E1 E0.
  rewrite (va_split va1), (va_split va2) by done. congruence.
Qed.

Lemma land_low a b n : 0 <= n -> 0 <= b < 2 ^ n -> Z.land (a * 2 ^ n) b = 0.
Proof.
  intros Hn Hb. rewrite <- (Z.mod_small b (2 ^ n)), <- Z.land_ones by lia.
  rewrite Z.land_assoc, (Z.land_comm _ b), <- Z.land_assoc, (Z.land_ones _ n) by lia.
  rewrite Z.mod_mul by lia. apply Z.land_0_r.
Qed.

Lemma lor_low a b n : 0 <= n -> 0 <= b < 2 ^ n -> Z.lor (a * 2 ^ n) b = a * 2 ^ n + b.
Proof.
  intros Hn Hb. pose proof (land_low a b n Hn Hb).
  rewrite <- Z.lxor_lor, Z.add_nocarry_lxor by done. done.
Qed.

Lemma PA2PTE_eq pa :
  0 <= pa < 2 ^ 56 -> PA2PTE pa = (pa / PGSIZE) * 2 ^ 10.
Proof.
  intros H. unfold PA2PTE, u64, PGSIZE.
  rewrite Z.shiftr_div_pow2, Z.shiftl_mul_pow2 by lia. change (2 ^ 12) with 4096.
  apply Z.mod_small. split; [apply Z.mul_nonneg_nonneg; [apply Z.div_pos|]; lia|].
  assert (pa / 4096 < 2 ^ 44) by (apply Z.div_lt_upper_bound; lia). lia.
Qed.

(** Building a PTE and taking it apart again. *)
Lemma PTE_roundtrip pa flags :
  0 <= pa < 2 ^ 56 -> pa mod PGSIZE = 0 -> 0 <= flags < 1024 ->
  PTE2PA (Z.lor (PA2PTE pa) flags) = pa /\ PTE_FLAGS (Z.lor (PA2PTE pa) flags) = flags.
Proof.
  intros Hpa Hal Hf. rewrite PA2PTE_eq by done. rewrite lor_low by (simpl; lia).
  unfold PTE2PA, PTE_FLAGS, u64, PGSIZE in *. split.
  - rewrite Z.shiftr_div_pow2, Z.shiftl_mul_pow2 by lia.
    rewrite Z.div_add_l, (Z.div_small flags), Z.add_0_r by lia. change (2 ^ 12) with 4096.
    pose proof (Z.div_mod pa 4096). rewrite Z.mod_small by lia. lia.
  - change 1023 with (2 ^ 10 - 1). rewrite land_ones_mod, Z.add_comm, Z.mod_add by lia.
    apply Z.mod_small. lia.
Qed.

Lemma PTE_pte_range pa flags :
  0 <= pa < 2 ^ 56 -> 0 <= flags < 1024 -> 0 <= Z.lor (PA2PTE pa) flags < 2 ^ 64.
Proof.
  intros Hpa Hf. rewrite PA2PTE_eq by done. rewrite lor_low by (simpl; lia).
  unfold PGSIZE. assert (0 <= pa / 4096 < 2 ^ 44).
  { split; [apply Z.div_pos; lia|apply Z.div_lt_upper_bound; lia]. }
  lia.
Qed.

Lemma PTE2PA_aligned pte : PTE2PA pte mod PGSIZE = 0.
Proof.
  unfold PTE2PA, u64, PGSIZE. rewrite Z.shiftl_mul_pow2 by lia.
  change (2 ^ 64) with (2 ^ 12 * 2 ^ 52). change 4096 with (2 ^ 12).
  rewrite (Z.mul_comm _ (2 ^ 12)), Z.mul_mod_distr_l by lia.
  rewrite Z.mul_comm. apply Z.mod_mul. lia.
Qed.

(** A flag test on a PTE looks only at its low ten bits. *)
Lemma has_flags pte f :
  Z.land f 1023 = f -> has (PTE_FLAGS pte) f = has pte f.
Proof.
  intros Hf. unfold has, PTE_FLAGS.
  rewrite <- Z.land_assoc, (Z.land_comm 1023), Hf. done.
Qed.
