(* ===== verification/Mem.v ===== *)
(** * Physical memory

    RAM as a map from byte addresses to bytes. The kernel maps RAM at its
    physical addresses, so a kernel pointer is the key of the byte it points
    to; kernel stacks are mapped above [MAXVA]-side guard pages and use their
    own keys. A byte that was never written reads as zero. Multi-byte
    accesses are little-endian, as on RISC-V. *)

From S2P Require Import Prelude Params.

Abbreviation memory := (gmap Z Z).

Definition load8 (m : memory) (a : Z) : Z := default 0 (m !! a) mod 256.
Definition store8 (m : memory) (a v : Z) : memory := <[a := v mod 256]> m.

Definition load_bytes (m : memory) (a : Z) (n : nat) : list Z := map (load8 m) (zrange a n).

Fixpoint store_bytes (m : memory) (a : Z) (bs : list Z) : memory :=
  match bs with
  | [] => m
  | b :: bs' => store_bytes (store8 m a b) (a + 1) bs'
  end.

Definition load32 (m : memory) (a : Z) : Z := le_decode (load_bytes m a 4).
Definition store32 (m : memory) (a v : Z) : memory := store_bytes m a (le_encode 4 v).
Definition load64 (m : memory) (a : Z) : Z := le_decode (load_bytes m a 8).
Definition store64 (m : memory) (a v : Z) : memory := store_bytes m a (le_encode 8 v).

(** Two memories are equivalent when every byte reads the same. *)
Definition mem_equiv (m m' : memory) : Prop := forall x, load8 m x = load8 m' x.
Infix "≈" := mem_equiv (at level 70) : kernel_scope.

(** [m'] differs from [m] only at addresses in [P]. *)
Definition changed_in (P : Z -> Prop) (m m' : memory) : Prop :=
  forall x, ~ P x -> load8 m' x = load8 m x.

(** The bytes of the page at [pa]. *)
Definition in_page (pa x : Z) : Prop := pa <= x < pa + PGSIZE.

#[global] Instance mem_equiv_equivalence : Equivalence mem_equiv.
Proof.
  split; [by intros m x | by intros m m' H x; rewrite H |].
  intros m1 m2 m3 H1 H2 x. by rewrite H1.
Qed.

Lemma load8_range m a : 0 <= load8 m a < 256.
Proof. apply Z.mod_pos_bound. lia. Qed.

Lemma load8_store8 m a v x :
  load8 (store8 m a v) x = if decide (a = x) then v mod 256 else load8 m x.
Proof.
  unfold load8, store8. rewrite lookup_insert. case_decide; [|done].
  simpl. apply Z.mod_mod. lia.
Qed.

#[global] Instance load8_proper : Proper (mem_equiv ==> eq ==> eq) load8.
Proof. intros m m' H x y ->. apply H. Qed.

#[global] Instance store8_proper : Proper (mem_equiv ==> eq ==> eq ==> mem_equiv) store8.
Proof. intros m m' H a ? <- v ? <- x. rewrite !load8_store8. case_decide; [done|apply H]. Qed.

#[global] Instance load_bytes_proper : Proper (mem_equiv ==> eq ==> eq ==> eq) load_bytes.
Proof.
  intros m m' H a ? <- n ? <-. unfold load_bytes.
  apply map_ext. intros x. apply H.
Qed.

#[global] Instance store_bytes_proper : Proper (mem_equiv ==> eq ==> eq ==> mem_equiv) store_bytes.
Proof.
  intros m m' H a ? <- bs ? <-. revert m m' a H.
  induction bs as [|b bs IH]; intros m m' a H; simpl; [done|].
  apply IH. by rewrite H.
Qed.

#[global] Instance load64_proper : Proper (mem_equiv ==> eq ==> eq) load64.
Proof. intros m m' H a ? <-. unfold load64. by rewrite H. Qed.

#[global] Instance store64_proper : Proper (mem_equiv ==> eq ==> eq ==> mem_equiv) store64.
Proof. intros m m' H a ? <- v ? <-. unfold store64. by rewrite H. Qed.

Lemma length_load_bytes m a n : length (load_bytes m a n) = n.
Proof. unfold load_bytes. rewrite length_map. apply length_zrange. Qed.

Lemma load_bytes_range m a n : Forall (fun b => 0 <= b < 256) (load_bytes m a n).
Proof. apply Forall_forall. intros b (x & -> & _)%list_elem_of_fmap. apply load8_range. Qed.

Lemma lookup_load_bytes m a n i :
  (i < n)%nat -> load_bytes m a n !! i = Some (load8 m (a + Z.of_nat i)).
Proof.
  intros Hi. unfold load_bytes.
  change (map (load8 m)) with (fmap (M := list) (load8 m)).
  rewrite list_lookup_fmap, lookup_zrange by done. done.
Qed.

Lemma load_bytes_ext m m' a n :
  (forall x, a <= x < a + Z.of_nat n -> load8 m' x = load8 m x) ->
  load_bytes m' a n = load_bytes m a n.
Proof. intros H. apply map_ext_in. intros x Hx. apply H, elem_of_zrange, list_elem_of_In, Hx. Qed.

Lemma load_bytes_app m a n k :
  load_bytes m a (n + k) = load_bytes m a n ++ load_bytes m (a + Z.of_nat n) k.
Proof.
  revert a. induction n as [|n IH]; intros a; simpl.
  - f_equal. lia.
  - unfold load_bytes in *. simpl. rewrite IH.
    replace (a + 1 + Z.of_nat n) with (a + Z.of_nat (S n)) by lia. done.
Qed.

Lemma load8_store_bytes_out m a bs x :
  ~ (a <= x < a + Z.of_nat (length bs)) -> load8 (store_bytes m a bs) x = load8 m x.
Proof.
  revert m a. induction bs as [|b bs IH]; intros m a Hx; simpl; [done|].
  simpl in Hx. rewrite IH by lia. rewrite load8_store8, decide_False by lia. done.
Qed.

Lemma load8_store_bytes_in m a bs i b :
  bs !! i = Some b -> load8 (store_bytes m a bs) (a + Z.of_nat i) = b mod 256.
Proof.
  revert m a i. induction bs as [|c bs IH]; intros m a i Hi; [done|].
  destruct i as [|i]; simpl in *.
  - simplify_eq. rewrite Z.add_0_r, load8_store_bytes_out by lia.
    rewrite load8_store8, decide_True by lia. done.
  - rewrite <- (IH (store8 m a c) (a + 1) i Hi). f_equal. lia.
Qed.

Lemma load_bytes_store_bytes m a bs :
  Forall (fun b => 0 <= b < 256) bs ->
  load_bytes (store_bytes m a bs) a (length bs) = bs.
Proof.
  intros Hbs. apply list_eq. intros i.
  destruct (decide (i < length bs)%nat) as [Hi|Hi].
  - rewrite lookup_load_bytes by done.
    destruct (lookup_lt_is_Some_2 bs i Hi) as [b Hb]. rewrite Hb.
    rewrite (load8_store_bytes_in _ _ _ _ _ Hb). f_equal.
    apply Z.mod_small. rewrite Forall_lookup in Hbs. eauto.
  - rewrite !lookup_ge_None_2; [done|lia|rewrite length_load_bytes; lia].
Qed.

Lemma store_bytes_app m a bs bs' :
  store_bytes m a (bs ++ bs') = store_bytes (store_bytes m a bs) (a + Z.of_nat (length bs)) bs'.
Proof.
  revert m a. induction bs as [|b bs IH]; intros m a; simpl.
  - by rewrite Z.add_0_r.
  - rewrite IH. f_equal. lia.
Qed.

Lemma store_bytes_load_bytes m a n : store_bytes m a (load_bytes m a n) ≈ m.
Proof.
  intros x. destruct (decide (a <= x < a + Z.of_nat n)) as [Hx|Hx].
  - replace x with (a + Z.of_nat (Z.to_nat (x - a))) by lia.
    erewrite load8_store_bytes_in; [|apply lookup_load_bytes; lia].
    rewrite Z.mod_small by apply load8_range. done.
  - apply load8_store_bytes_out. rewrite length_load_bytes. done.
Qed.

Lemma load64_range m a : 0 <= load64 m a < 2 ^ 64.
Proof.
  unfold load64. pose proof (le_decode_bound (load_bytes m a 8)) as H.
  rewrite length_load_bytes in H. done.
Qed.

Lemma load64_ext m m' a :
  (forall x, a <= x < a + 8 -> load8 m' x = load8 m x) -> load64 m' a = load64 m a.
Proof. intros H. unfold load64. f_equal. apply load_bytes_ext. intros x Hx. apply H. lia. Qed.

Lemma load64_store64 m a v : load64 (store64 m a v) a = u64 v.
Proof.
  unfold load64, store64, u64.
  replace 8%nat with (length (le_encode 8 v)) at 1 by apply length_le_encode.
  rewrite load_bytes_store_bytes by apply le_encode_range.
  rewrite le_decode_encode. done.
Qed.

Lemma load8_store64_out m a v x : ~ (a <= x < a + 8) -> load8 (store64 m a v) x = load8 m x.
Proof. intros H. apply load8_store_bytes_out. rewrite length_le_encode. lia. Qed.

Lemma load64_store64_ne m a v b :
  a + 8 <= b \/ b + 8 <= a -> load64 (store64 m a v) b = load64 m b.
Proof. intros H. apply load64_ext. intros x Hx. apply load8_store64_out. lia. Qed.

Lemma load64_zero m a : (forall x, a <= x < a + 8 -> load8 m x = 0) -> load64 m a = 0.
Proof.
  intros H. unfold load64.
  assert (load_bytes m a 8 = replicate 8 0) as ->; [|done].
  apply list_eq. intros i. destruct (decide (i < 8)%nat) as [Hi|Hi].
  - rewrite lookup_load_bytes, lookup_replicate_2 by done. f_equal. apply H. lia.
  - rewrite !lookup_ge_None_2; [done|rewrite length_replicate; lia|rewrite length_load_bytes; lia].
Qed.

Lemma changed_in_refl P m : changed_in P m m.
Proof. by intros x _. Qed.

#[export] Instance changed_in_proper :
  Proper (pointwise_relation Z iff ==> eq ==> eq ==> iff) changed_in.
Proof.
  intros P Q HPQ m1 ? <- m2 ? <-. unfold changed_in. by setoid_rewrite HPQ.
Qed.

Lemma changed_in_trans P m1 m2 m3 :
  changed_in P m1 m2 -> changed_in P m2 m3 -> changed_in P m1 m3.
Proof. intros H1 H2 x Hx. rewrite H2, H1; done. Qed.

Lemma changed_in_mono (P Q : Z -> Prop) m m' :
  (forall x, P x -> Q x) -> changed_in P m m' -> changed_in Q m m'.
Proof. intros HPQ H x Hx. apply H. naive_solver. Qed.

Lemma changed_in_store64 m a v : changed_in (fun x => a <= x < a + 8) m (store64 m a v).
Proof. intros x Hx. by apply load8_store64_out. Qed.

#[export] Hint Resolve changed_in_refl changed_in_store64 : xv6.
