(* ===== verification/State.v ===== *)
(** * Kernel data structures

    The C structures of the kernel headers as records, with one setter per
    field, and the global state [kstate] the kernel code works on. A zeroed
    structure (the kernel's globals live in the BSS) is the record's
    [inhabitant]. Records use primitive projections, so that updates of
    different fields commute by computation. *)

From S2P Require Import Prelude Params Mem.

(** [enum procstate] (proc.h). *)
Inductive procstate := UNUSED | USED | SLEEPING | RUNNABLE | RUNNING | ZOMBIE.

(** The type tag of [struct file] (file.h). *)
Inductive filetype := FD_NONE | FD_PIPE | FD_INODE | FD_DEVICE.

(** The drivers whose functions [devsw] points to. *)
Inductive devfn := DEV_CONSOLE.

#[global] Instance procstate_eq_dec : EqDecision procstate.
Proof. solve_decision. Defined.
#[global] Instance filetype_eq_dec : EqDecision filetype.
Proof. solve_decision. Defined.

#[local] Set Primitive Projections.

(** [struct sleeplock] (sleeplock.h). Its inner spinlock is the lock the
    model names after the object the sleeplock protects. *)
Record sleeplock : Type := mksleeplock {
  sl_locked : bool;  (* is the lock held? *)
  sl_pid : Z;  (* process holding it *)
}.

#[global] Instance sleeplock_inhabited : Inhabited sleeplock :=
  populate (mksleeplock false 0).

Definition set_sl_locked (v : bool) (s : sleeplock) : sleeplock :=
  mksleeplock v (s.(sl_pid)).
Definition set_sl_pid (v : Z) (s : sleeplock) : sleeplock :=
  mksleeplock (s.(sl_locked)) v.

(** The current hart: its [struct cpu] (proc.h) and the CSRs the C code uses. *)
Record hart : Type := mkhart {
  hartid : Z;  (* tp *)
  c_proc : option nat;  (* the process running on this cpu *)
  c_noff : Z;  (* depth of push_off() nesting *)
  c_intena : bool;  (* were interrupts enabled before push_off()? *)
  sstatus : Z;
  stvec : Z;
  sepc : Z;
  scause : Z;
  stval : Z;
  satp : Z;
  time : Z;
  stimecmp : Z;
}.

#[global] Instance hart_inhabited : Inhabited hart :=
  populate (mkhart 0 None 0 false 0 0 0 0 0 0 0 0).

Definition set_hartid (v : Z) (s : hart) : hart :=
  mkhart v (s.(c_proc)) (s.(c_noff)) (s.(c_intena)) (s.(sstatus)) (s.(stvec)) (s.(sepc)) (s.(scause)) (s.(stval)) (s.(satp)) (s.(time)) (s.(stimecmp)).
Definition set_c_proc (v : option nat) (s : hart) : hart :=
  mkhart (s.(hartid)) v (s.(c_noff)) (s.(c_intena)) (s.(sstatus)) (s.(stvec)) (s.(sepc)) (s.(scause)) (s.(stval)) (s.(satp)) (s.(time)) (s.(stimecmp)).
Definition set_c_noff (v : Z) (s : hart) : hart :=
  mkhart (s.(hartid)) (s.(c_proc)) v (s.(c_intena)) (s.(sstatus)) (s.(stvec)) (s.(sepc)) (s.(scause)) (s.(stval)) (s.(satp)) (s.(time)) (s.(stimecmp)).
Definition set_c_intena (v : bool) (s : hart) : hart :=
  mkhart (s.(hartid)) (s.(c_proc)) (s.(c_noff)) v (s.(sstatus)) (s.(stvec)) (s.(sepc)) (s.(scause)) (s.(stval)) (s.(satp)) (s.(time)) (s.(stimecmp)).
Definition set_sstatus (v : Z) (s : hart) : hart :=
  mkhart (s.(hartid)) (s.(c_proc)) (s.(c_noff)) (s.(c_intena)) v (s.(stvec)) (s.(sepc)) (s.(scause)) (s.(stval)) (s.(satp)) (s.(time)) (s.(stimecmp)).
Definition set_stvec (v : Z) (s : hart) : hart :=
  mkhart (s.(hartid)) (s.(c_proc)) (s.(c_noff)) (s.(c_intena)) (s.(sstatus)) v (s.(sepc)) (s.(scause)) (s.(stval)) (s.(satp)) (s.(time)) (s.(stimecmp)).
Definition set_sepc (v : Z) (s : hart) : hart :=
  mkhart (s.(hartid)) (s.(c_proc)) (s.(c_noff)) (s.(c_intena)) (s.(sstatus)) (s.(stvec)) v (s.(scause)) (s.(stval)) (s.(satp)) (s.(time)) (s.(stimecmp)).
Definition set_scause (v : Z) (s : hart) : hart :=
  mkhart (s.(hartid)) (s.(c_proc)) (s.(c_noff)) (s.(c_intena)) (s.(sstatus)) (s.(stvec)) (s.(sepc)) v (s.(stval)) (s.(satp)) (s.(time)) (s.(stimecmp)).
Definition set_stval (v : Z) (s : hart) : hart :=
  mkhart (s.(hartid)) (s.(c_proc)) (s.(c_noff)) (s.(c_intena)) (s.(sstatus)) (s.(stvec)) (s.(sepc)) (s.(scause)) v (s.(satp)) (s.(time)) (s.(stimecmp)).
Definition set_satp (v : Z) (s : hart) : hart :=
  mkhart (s.(hartid)) (s.(c_proc)) (s.(c_noff)) (s.(c_intena)) (s.(sstatus)) (s.(stvec)) (s.(sepc)) (s.(scause)) (s.(stval)) v (s.(time)) (s.(stimecmp)).
Definition set_time (v : Z) (s : hart) : hart :=
  mkhart (s.(hartid)) (s.(c_proc)) (s.(c_noff)) (s.(c_intena)) (s.(sstatus)) (s.(stvec)) (s.(sepc)) (s.(scause)) (s.(stval)) (s.(satp)) v (s.(stimecmp)).
Definition set_stimecmp (v : Z) (s : hart) : hart :=
  mkhart (s.(hartid)) (s.(c_proc)) (s.(c_noff)) (s.(c_intena)) (s.(sstatus)) (s.(stvec)) (s.(sepc)) (s.(scause)) (s.(stval)) (s.(satp)) (s.(time)) v.

(** [struct context] (proc.h): callee-saved registers. *)
Record context : Type := mkcontext {
  cx_ra : Z;
  cx_sp : Z;
  cx_s : list Z;  (* s0..s11 *)
}.

#[global] Instance context_inhabited : Inhabited context :=
  populate (mkcontext 0 0 (replicate 12 0)).

Definition set_cx_ra (v : Z) (s : context) : context :=
  mkcontext v (s.(cx_sp)) (s.(cx_s)).
Definition set_cx_sp (v : Z) (s : context) : context :=
  mkcontext (s.(cx_ra)) v (s.(cx_s)).
Definition set_cx_s (v : list Z) (s : context) : context :=
  mkcontext (s.(cx_ra)) (s.(cx_sp)) v.

(** [struct proc] (proc.h); pointers into the process, file and inode tables
    are indices, null is [None]. [p_pagetable] and [p_trapframe] are physical
    addresses. The spinlock [p->lock] is the lock named [proc_lock i]. *)
Record proc : Type := mkproc {
  p_state : procstate;  (* process state *)
  p_chan : option chan;  (* if not null, sleeping on chan *)
  p_killed : Z;  (* if non-zero, have been killed *)
  p_xstate : Z;  (* exit status to be returned to parent's wait *)
  p_pid : Z;  (* process ID *)
  p_parent : option nat;  (* parent process *)
  p_kstack : Z;  (* virtual address of kernel stack *)
  p_sz : Z;  (* size of process memory (bytes) *)
  p_pagetable : Z;  (* user page table *)
  p_trapframe : Z;  (* data page for trampoline.S *)
  p_context : context;  (* swtch() here to run process *)
  p_ofile : list (option nat);  (* open files *)
  p_cwd : option nat;  (* current directory *)
  p_name : list Z;  (* process name (debugging) *)
}.

#[global] Instance proc_inhabited : Inhabited proc :=
  populate (mkproc UNUSED None 0 0 0 None 0 0 0 0 inhabitant (replicate 16 None) None (replicate 16 0)).

Definition set_p_state (v : procstate) (s : proc) : proc :=
  mkproc v (s.(p_chan)) (s.(p_killed)) (s.(p_xstate)) (s.(p_pid)) (s.(p_parent)) (s.(p_kstack)) (s.(p_sz)) (s.(p_pagetable)) (s.(p_trapframe)) (s.(p_context)) (s.(p_ofile)) (s.(p_cwd)) (s.(p_name)).
Definition set_p_chan (v : option chan) (s : proc) : proc :=
  mkproc (s.(p_state)) v (s.(p_killed)) (s.(p_xstate)) (s.(p_pid)) (s.(p_parent)) (s.(p_kstack)) (s.(p_sz)) (s.(p_pagetable)) (s.(p_trapframe)) (s.(p_context)) (s.(p_ofile)) (s.(p_cwd)) (s.(p_name)).
Definition set_p_killed (v : Z) (s : proc) : proc :=
  mkproc (s.(p_state)) (s.(p_chan)) v (s.(p_xstate)) (s.(p_pid)) (s.(p_parent)) (s.(p_kstack)) (s.(p_sz)) (s.(p_pagetable)) (s.(p_trapframe)) (s.(p_context)) (s.(p_ofile)) (s.(p_cwd)) (s.(p_name)).
Definition set_p_xstate (v : Z) (s : proc) : proc :=
  mkproc (s.(p_state)) (s.(p_chan)) (s.(p_killed)) v (s.(p_pid)) (s.(p_parent)) (s.(p_kstack)) (s.(p_sz)) (s.(p_pagetable)) (s.(p_trapframe)) (s.(p_context)) (s.(p_ofile)) (s.(p_cwd)) (s.(p_name)).
Definition set_p_pid (v : Z) (s : proc) : proc :=
  mkproc (s.(p_state)) (s.(p_chan)) (s.(p_killed)) (s.(p_xstate)) v (s.(p_parent)) (s.(p_kstack)) (s.(p_sz)) (s.(p_pagetable)) (s.(p_trapframe)) (s.(p_context)) (s.(p_ofile)) (s.(p_cwd)) (s.(p_name)).
Definition set_p_parent (v : option nat) (s : proc) : proc :=
  mkproc (s.(p_state)) (s.(p_chan)) (s.(p_killed)) (s.(p_xstate)) (s.(p_pid)) v (s.(p_kstack)) (s.(p_sz)) (s.(p_pagetable)) (s.(p_trapframe)) (s.(p_context)) (s.(p_ofile)) (s.(p_cwd)) (s.(p_name)).
Definition set_p_kstack (v : Z) (s : proc) : proc :=
  mkproc (s.(p_state)) (s.(p_chan)) (s.(p_killed)) (s.(p_xstate)) (s.(p_pid)) (s.(p_parent)) v (s.(p_sz)) (s.(p_pagetable)) (s.(p_trapframe)) (s.(p_context)) (s.(p_ofile)) (s.(p_cwd)) (s.(p_name)).
Definition set_p_sz (v : Z) (s : proc) : proc :=
  mkproc (s.(p_state)) (s.(p_chan)) (s.(p_killed)) (s.(p_xstate)) (s.(p_pid)) (s.(p_parent)) (s.(p_kstack)) v (s.(p_pagetable)) (s.(p_trapframe)) (s.(p_context)) (s.(p_ofile)) (s.(p_cwd)) (s.(p_name)).
Definition set_p_pagetable (v : Z) (s : proc) : proc :=
  mkproc (s.(p_state)) (s.(p_chan)) (s.(p_killed)) (s.(p_xstate)) (s.(p_pid)) (s.(p_parent)) (s.(p_kstack)) (s.(p_sz)) v (s.(p_trapframe)) (s.(p_context)) (s.(p_ofile)) (s.(p_cwd)) (s.(p_name)).
Definition set_p_trapframe (v : Z) (s : proc) : proc :=
  mkproc (s.(p_state)) (s.(p_chan)) (s.(p_killed)) (s.(p_xstate)) (s.(p_pid)) (s.(p_parent)) (s.(p_kstack)) (s.(p_sz)) (s.(p_pagetable)) v (s.(p_context)) (s.(p_ofile)) (s.(p_cwd)) (s.(p_name)).
Definition set_p_context (v : context) (s : proc) : proc :=
  mkproc (s.(p_state)) (s.(p_chan)) (s.(p_killed)) (s.(p_xstate)) (s.(p_pid)) (s.(p_parent)) (s.(p_kstack)) (s.(p_sz)) (s.(p_pagetable)) (s.(p_trapframe)) v (s.(p_ofile)) (s.(p_cwd)) (s.(p_name)).
Definition set_p_ofile (v : list (option nat)) (s : proc) : proc :=
  mkproc (s.(p_state)) (s.(p_chan)) (s.(p_killed)) (s.(p_xstate)) (s.(p_pid)) (s.(p_parent)) (s.(p_kstack)) (s.(p_sz)) (s.(p_pagetable)) (s.(p_trapframe)) (s.(p_context)) v (s.(p_cwd)) (s.(p_name)).
Definition set_p_cwd (v : option nat) (s : proc) : proc :=
  mkproc (s.(p_state)) (s.(p_chan)) (s.(p_killed)) (s.(p_xstate)) (s.(p_pid)) (s.(p_parent)) (s.(p_kstack)) (s.(p_sz)) (s.(p_pagetable)) (s.(p_trapframe)) (s.(p_context)) (s.(p_ofile)) v (s.(p_name)).
Definition set_p_name (v : list Z) (s : proc) : proc :=
  mkproc (s.(p_state)) (s.(p_chan)) (s.(p_killed)) (s.(p_xstate)) (s.(p_pid)) (s.(p_parent)) (s.(p_kstack)) (s.(p_sz)) (s.(p_pagetable)) (s.(p_trapframe)) (s.(p_context)) (s.(p_ofile)) (s.(p_cwd)) v.

(** [struct buf] (buf.h); [b_prev] and [b_next] are indices into the cache,
    the list head being the index [NBUF]. *)
Record buf : Type := mkbuf {
  b_valid : bool;  (* has data been read from disk? *)
  b_disk : bool;  (* does disk own buf? *)
  b_dev : Z;
  b_blockno : Z;
  b_lock : sleeplock;
  b_refcnt : Z;
  b_prev : nat;  (* LRU cache list *)
  b_next : nat;
  b_data : list Z;
}.

#[global] Instance buf_inhabited : Inhabited buf :=
  populate (mkbuf false false 0 0 inhabitant 0 0%nat 0%nat (replicate 1024 0)).

Definition set_b_valid (v : bool) (s : buf) : buf :=
  mkbuf v (s.(b_disk)) (s.(b_dev)) (s.(b_blockno)) (s.(b_lock)) (s.(b_refcnt)) (s.(b_prev)) (s.(b_next)) (s.(b_data)).
Definition set_b_disk (v : bool) (s : buf) : buf :=
  mkbuf (s.(b_valid)) v (s.(b_dev)) (s.(b_blockno)) (s.(b_lock)) (s.(b_refcnt)) (s.(b_prev)) (s.(b_next)) (s.(b_data)).
Definition set_b_dev (v : Z) (s : buf) : buf :=
  mkbuf (s.(b_valid)) (s.(b_disk)) v (s.(b_blockno)) (s.(b_lock)) (s.(b_refcnt)) (s.(b_prev)) (s.(b_next)) (s.(b_data)).
Definition set_b_blockno (v : Z) (s : buf) : buf :=
  mkbuf (s.(b_valid)) (s.(b_disk)) (s.(b_dev)) v (s.(b_lock)) (s.(b_refcnt)) (s.(b_prev)) (s.(b_next)) (s.(b_data)).
Definition set_b_lock (v : sleeplock) (s : buf) : buf :=
  mkbuf (s.(b_valid)) (s.(b_disk)) (s.(b_dev)) (s.(b_blockno)) v (s.(b_refcnt)) (s.(b_prev)) (s.(b_next)) (s.(b_data)).
Definition set_b_refcnt (v : Z) (s : buf) : buf :=
  mkbuf (s.(b_valid)) (s.(b_disk)) (s.(b_dev)) (s.(b_blockno)) (s.(b_lock)) v (s.(b_prev)) (s.(b_next)) (s.(b_data)).
Definition set_b_prev (v : nat) (s : buf) : buf :=
  mkbuf (s.(b_valid)) (s.(b_disk)) (s.(b_dev)) (s.(b_blockno)) (s.(b_lock)) (s.(b_refcnt)) v (s.(b_next)) (s.(b_data)).
Definition set_b_next (v : nat) (s : buf) : buf :=
  mkbuf (s.(b_valid)) (s.(b_disk)) (s.(b_dev)) (s.(b_blockno)) (s.(b_lock)) (s.(b_refcnt)) (s.(b_prev)) v (s.(b_data)).
Definition set_b_data (v : list Z) (s : buf) : buf :=
  mkbuf (s.(b_valid)) (s.(b_disk)) (s.(b_dev)) (s.(b_blockno)) (s.(b_lock)) (s.(b_refcnt)) (s.(b_prev)) (s.(b_next)) v.

(** [struct log] (log.c), with the in-memory [struct logheader]. *)
Record logst : Type := mklog {
  l_start : Z;
  l_size : Z;
  l_outstanding : Z;  (* how many FS sys calls are executing *)
  l_committing : bool;  (* in commit(), please wait *)
  l_dev : Z;
  lh_n : Z;
  lh_block : list Z;
}.

#[global] Instance logst_inhabited : Inhabited logst :=
  populate (mklog 0 0 0 false 0 0 (replicate 30 0)).

Definition set_l_start (v : Z) (s : logst) : logst :=
  mklog v (s.(l_size)) (s.(l_outstanding)) (s.(l_committing)) (s.(l_dev)) (s.(lh_n)) (s.(lh_block)).
Definition set_l_size (v : Z) (s : logst) : logst :=
  mklog (s.(l_start)) v (s.(l_outstanding)) (s.(l_committing)) (s.(l_dev)) (s.(lh_n)) (s.(lh_block)).
Definition set_l_outstanding (v : Z) (s : logst) : logst :=
  mklog (s.(l_start)) (s.(l_size)) v (s.(l_committing)) (s.(l_dev)) (s.(lh_n)) (s.(lh_block)).
Definition set_l_committing (v : bool) (s : logst) : logst :=
  mklog (s.(l_start)) (s.(l_size)) (s.(l_outstanding)) v (s.(l_dev)) (s.(lh_n)) (s.(lh_block)).
Definition set_l_dev (v : Z) (s : logst) : logst :=
  mklog (s.(l_start)) (s.(l_size)) (s.(l_outstanding)) (s.(l_committing)) v (s.(lh_n)) (s.(lh_block)).
Definition set_lh_n (v : Z) (s : logst) : logst :=
  mklog (s.(l_start)) (s.(l_size)) (s.(l_outstanding)) (s.(l_committing)) (s.(l_dev)) v (s.(lh_block)).
Definition set_lh_block (v : list Z) (s : logst) : logst :=
  mklog (s.(l_start)) (s.(l_size)) (s.(l_outstanding)) (s.(l_committing)) (s.(l_dev)) (s.(lh_n)) v.

(** [struct superblock] (fs.h). *)
Record superblock : Type := mksb {
  sb_magic : Z;
  sb_size : Z;  (* size of file system image (blocks) *)
  sb_nblocks : Z;  (* number of data blocks *)
  sb_ninodes : Z;  (* number of inodes *)
  sb_nlog : Z;  (* number of log blocks *)
  sb_logstart : Z;  (* first log block *)
  sb_inodestart : Z;  (* first inode block *)
  sb_bmapstart : Z;  (* first free map block *)
}.

#[global] Instance superblock_inhabited : Inhabited superblock :=
  populate (mksb 0 0 0 0 0 0 0 0).

Definition set_sb_magic (v : Z) (s : superblock) : superblock :=
  mksb v (s.(sb_size)) (s.(sb_nblocks)) (s.(sb_ninodes)) (s.(sb_nlog)) (s.(sb_logstart)) (s.(sb_inodestart)) (s.(sb_bmapstart)).
Definition set_sb_size (v : Z) (s : superblock) : superblock :=
  mksb (s.(sb_magic)) v (s.(sb_nblocks)) (s.(sb_ninodes)) (s.(sb_nlog)) (s.(sb_logstart)) (s.(sb_inodestart)) (s.(sb_bmapstart)).
Definition set_sb_nblocks (v : Z) (s : superblock) : superblock :=
  mksb (s.(sb_magic)) (s.(sb_size)) v (s.(sb_ninodes)) (s.(sb_nlog)) (s.(sb_logstart)) (s.(sb_inodestart)) (s.(sb_bmapstart)).
Definition set_sb_ninodes (v : Z) (s : superblock) : superblock :=
  mksb (s.(sb_magic)) (s.(sb_size)) (s.(sb_nblocks)) v (s.(sb_nlog)) (s.(sb_logstart)) (s.(sb_inodestart)) (s.(sb_bmapstart)).
Definition set_sb_nlog (v : Z) (s : superblock) : superblock :=
  mksb (s.(sb_magic)) (s.(sb_size)) (s.(sb_nblocks)) (s.(sb_ninodes)) v (s.(sb_logstart)) (s.(sb_inodestart)) (s.(sb_bmapstart)).
Definition set_sb_logstart (v : Z) (s : superblock) : superblock :=
  mksb (s.(sb_magic)) (s.(sb_size)) (s.(sb_nblocks)) (s.(sb_ninodes)) (s.(sb_nlog)) v (s.(sb_inodestart)) (s.(sb_bmapstart)).
Definition set_sb_inodestart (v : Z) (s : superblock) : superblock :=
  mksb (s.(sb_magic)) (s.(sb_size)) (s.(sb_nblocks)) (s.(sb_ninodes)) (s.(sb_nlog)) (s.(sb_logstart)) v (s.(sb_bmapstart)).
Definition set_sb_bmapstart (v : Z) (s : superblock) : superblock :=
  mksb (s.(sb_magic)) (s.(sb_size)) (s.(sb_nblocks)) (s.(sb_ninodes)) (s.(sb_nlog)) (s.(sb_logstart)) (s.(sb_inodestart)) v.

(** [struct inode] (file.h): in-memory copy of an inode. *)
Record inode : Type := mkinode {
  i_dev : Z;
  i_inum : Z;
  i_ref : Z;  (* reference count *)
  i_lock : sleeplock;  (* protects everything below *)
  i_valid : bool;  (* inode has been read from disk? *)
  i_type : Z;
  i_major : Z;
  i_minor : Z;
  i_nlink : Z;
  i_size : Z;
  i_addrs : list Z;
}.

#[global] Instance inode_inhabited : Inhabited inode :=
  populate (mkinode 0 0 0 inhabitant false 0 0 0 0 0 (replicate 13 0)).

Definition set_i_dev (v : Z) (s : inode) : inode :=
  mkinode v (s.(i_inum)) (s.(i_ref)) (s.(i_lock)) (s.(i_valid)) (s.(i_type)) (s.(i_major)) (s.(i_minor)) (s.(i_nlink)) (s.(i_size)) (s.(i_addrs)).
Definition set_i_inum (v : Z) (s : inode) : inode :=
  mkinode (s.(i_dev)) v (s.(i_ref)) (s.(i_lock)) (s.(i_valid)) (s.(i_type)) (s.(i_major)) (s.(i_minor)) (s.(i_nlink)) (s.(i_size)) (s.(i_addrs)).
Definition set_i_ref (v : Z) (s : inode) : inode :=
  mkinode (s.(i_dev)) (s.(i_inum)) v (s.(i_lock)) (s.(i_valid)) (s.(i_type)) (s.(i_major)) (s.(i_minor)) (s.(i_nlink)) (s.(i_size)) (s.(i_addrs)).
Definition set_i_lock (v : sleeplock) (s : inode) : inode :=
  mkinode (s.(i_dev)) (s.(i_inum)) (s.(i_ref)) v (s.(i_valid)) (s.(i_type)) (s.(i_major)) (s.(i_minor)) (s.(i_nlink)) (s.(i_size)) (s.(i_addrs)).
Definition set_i_valid (v : bool) (s : inode) : inode :=
  mkinode (s.(i_dev)) (s.(i_inum)) (s.(i_ref)) (s.(i_lock)) v (s.(i_type)) (s.(i_major)) (s.(i_minor)) (s.(i_nlink)) (s.(i_size)) (s.(i_addrs)).
Definition set_i_type (v : Z) (s : inode) : inode :=
  mkinode (s.(i_dev)) (s.(i_inum)) (s.(i_ref)) (s.(i_lock)) (s.(i_valid)) v (s.(i_major)) (s.(i_minor)) (s.(i_nlink)) (s.(i_size)) (s.(i_addrs)).
Definition set_i_major (v : Z) (s : inode) : inode :=
  mkinode (s.(i_dev)) (s.(i_inum)) (s.(i_ref)) (s.(i_lock)) (s.(i_valid)) (s.(i_type)) v (s.(i_minor)) (s.(i_nlink)) (s.(i_size)) (s.(i_addrs)).
Definition set_i_minor (v : Z) (s : inode) : inode :=
  mkinode (s.(i_dev)) (s.(i_inum)) (s.(i_ref)) (s.(i_lock)) (s.(i_valid)) (s.(i_type)) (s.(i_major)) v (s.(i_nlink)) (s.(i_size)) (s.(i_addrs)).
Definition set_i_nlink (v : Z) (s : inode) : inode :=
  mkinode (s.(i_dev)) (s.(i_inum)) (s.(i_ref)) (s.(i_lock)) (s.(i_valid)) (s.(i_type)) (s.(i_major)) (s.(i_minor)) v (s.(i_size)) (s.(i_addrs)).
Definition set_i_size (v : Z) (s : inode) : inode :=
  mkinode (s.(i_dev)) (s.(i_inum)) (s.(i_ref)) (s.(i_lock)) (s.(i_valid)) (s.(i_type)) (s.(i_major)) (s.(i_minor)) (s.(i_nlink)) v (s.(i_addrs)).
Definition set_i_addrs (v : list Z) (s : inode) : inode :=
  mkinode (s.(i_dev)) (s.(i_inum)) (s.(i_ref)) (s.(i_lock)) (s.(i_valid)) (s.(i_type)) (s.(i_major)) (s.(i_minor)) (s.(i_nlink)) (s.(i_size)) v.

(** [struct file] (file.h). *)
Record file : Type := mkfile {
  f_type : filetype;
  f_ref : Z;  (* reference count *)
  f_readable : bool;
  f_writable : bool;
  f_pipe : Z;  (* FD_PIPE *)
  f_ip : option nat;  (* FD_INODE and FD_DEVICE *)
  f_off : Z;  (* FD_INODE *)
  f_major : Z;  (* FD_DEVICE *)
}.

#[global] Instance file_inhabited : Inhabited file :=
  populate (mkfile FD_NONE 0 false false 0 None 0 0).

Definition set_f_type (v : filetype) (s : file) : file :=
  mkfile v (s.(f_ref)) (s.(f_readable)) (s.(f_writable)) (s.(f_pipe)) (s.(f_ip)) (s.(f_off)) (s.(f_major)).
Definition set_f_ref (v : Z) (s : file) : file :=
  mkfile (s.(f_type)) v (s.(f_readable)) (s.(f_writable)) (s.(f_pipe)) (s.(f_ip)) (s.(f_off)) (s.(f_major)).
Definition set_f_readable (v : bool) (s : file) : file :=
  mkfile (s.(f_type)) (s.(f_ref)) v (s.(f_writable)) (s.(f_pipe)) (s.(f_ip)) (s.(f_off)) (s.(f_major)).
Definition set_f_writable (v : bool) (s : file) : file :=
  mkfile (s.(f_type)) (s.(f_ref)) (s.(f_readable)) v (s.(f_pipe)) (s.(f_ip)) (s.(f_off)) (s.(f_major)).
Definition set_f_pipe (v : Z) (s : file) : file :=
  mkfile (s.(f_type)) (s.(f_ref)) (s.(f_readable)) (s.(f_writable)) v (s.(f_ip)) (s.(f_off)) (s.(f_major)).
Definition set_f_ip (v : option nat) (s : file) : file :=
  mkfile (s.(f_type)) (s.(f_ref)) (s.(f_readable)) (s.(f_writable)) (s.(f_pipe)) v (s.(f_off)) (s.(f_major)).
Definition set_f_off (v : Z) (s : file) : file :=
  mkfile (s.(f_type)) (s.(f_ref)) (s.(f_readable)) (s.(f_writable)) (s.(f_pipe)) (s.(f_ip)) v (s.(f_major)).
Definition set_f_major (v : Z) (s : file) : file :=
  mkfile (s.(f_type)) (s.(f_ref)) (s.(f_readable)) (s.(f_writable)) (s.(f_pipe)) (s.(f_ip)) (s.(f_off)) v.

(** [struct pipe] (pipe.c). *)
Record pipe : Type := mkpipe {
  pi_data : list Z;
  pi_nread : Z;  (* number of bytes read *)
  pi_nwrite : Z;  (* number of bytes written *)
  pi_readopen : bool;  (* read fd is still open *)
  pi_writeopen : bool;  (* write fd is still open *)
}.

#[global] Instance pipe_inhabited : Inhabited pipe :=
  populate (mkpipe (replicate 512 0) 0 0 false false).

Definition set_pi_data (v : list Z) (s : pipe) : pipe :=
  mkpipe v (s.(pi_nread)) (s.(pi_nwrite)) (s.(pi_readopen)) (s.(pi_writeopen)).
Definition set_pi_nread (v : Z) (s : pipe) : pipe :=
  mkpipe (s.(pi_data)) v (s.(pi_nwrite)) (s.(pi_readopen)) (s.(pi_writeopen)).
Definition set_pi_nwrite (v : Z) (s : pipe) : pipe :=
  mkpipe (s.(pi_data)) (s.(pi_nread)) v (s.(pi_readopen)) (s.(pi_writeopen)).
Definition set_pi_readopen (v : bool) (s : pipe) : pipe :=
  mkpipe (s.(pi_data)) (s.(pi_nread)) (s.(pi_nwrite)) v (s.(pi_writeopen)).
Definition set_pi_writeopen (v : bool) (s : pipe) : pipe :=
  mkpipe (s.(pi_data)) (s.(pi_nread)) (s.(pi_nwrite)) (s.(pi_readopen)) v.

(** The transmit buffer of uart.c. *)
Record uartst : Type := mkuart {
  uart_tx_buf : list Z;
  uart_tx_w : Z;  (* write next to uart_tx_buf[uart_tx_w % 32] *)
  uart_tx_r : Z;  (* read next from uart_tx_buf[uart_tx_r % 32] *)
}.

#[global] Instance uartst_inhabited : Inhabited uartst :=
  populate (mkuart (replicate 32 0) 0 0).

Definition set_uart_tx_buf (v : list Z) (s : uartst) : uartst :=
  mkuart v (s.(uart_tx_w)) (s.(uart_tx_r)).
Definition set_uart_tx_w (v : Z) (s : uartst) : uartst :=
  mkuart (s.(uart_tx_buf)) v (s.(uart_tx_r)).
Definition set_uart_tx_r (v : Z) (s : uartst) : uartst :=
  mkuart (s.(uart_tx_buf)) (s.(uart_tx_w)) v.

(** The input buffer of console.c. *)
Record consst : Type := mkcons {
  cons_buf : list Z;
  cons_r : Z;  (* Read index *)
  cons_w : Z;  (* Write index *)
  cons_e : Z;  (* Edit index *)
}.

#[global] Instance consst_inhabited : Inhabited consst :=
  populate (mkcons (replicate 128 0) 0 0 0).

Definition set_cons_buf (v : list Z) (s : consst) : consst :=
  mkcons v (s.(cons_r)) (s.(cons_w)) (s.(cons_e)).
Definition set_cons_r (v : Z) (s : consst) : consst :=
  mkcons (s.(cons_buf)) v (s.(cons_w)) (s.(cons_e)).
Definition set_cons_w (v : Z) (s : consst) : consst :=
  mkcons (s.(cons_buf)) (s.(cons_r)) v (s.(cons_e)).
Definition set_cons_e (v : Z) (s : consst) : consst :=
  mkcons (s.(cons_buf)) (s.(cons_r)) (s.(cons_w)) v.

(** [struct devsw] (file.h); a function pointer is named by the driver. *)
Record devsw : Type := mkdevsw {
  d_read : option devfn;
  d_write : option devfn;
}.

#[global] Instance devsw_inhabited : Inhabited devsw :=
  populate (mkdevsw None None).

Definition set_d_read (v : option devfn) (s : devsw) : devsw :=
  mkdevsw v (s.(d_write)).
Definition set_d_write (v : option devfn) (s : devsw) : devsw :=
  mkdevsw (s.(d_read)) v.

(** [struct virtio_blk_req] (virtio.h). *)
Record blkreq : Type := mkblkreq {
  rq_type : Z;
  rq_reserved : Z;
  rq_sector : Z;
}.

#[global] Instance blkreq_inhabited : Inhabited blkreq :=
  populate (mkblkreq 0 0 0).

Definition set_rq_type (v : Z) (s : blkreq) : blkreq :=
  mkblkreq v (s.(rq_reserved)) (s.(rq_sector)).
Definition set_rq_reserved (v : Z) (s : blkreq) : blkreq :=
  mkblkreq (s.(rq_type)) v (s.(rq_sector)).
Definition set_rq_sector (v : Z) (s : blkreq) : blkreq :=
  mkblkreq (s.(rq_type)) (s.(rq_reserved)) v.

(** [struct disk] (virtio_disk.c): the addresses of the three queue pages and
    the driver's book-keeping. *)
Record vdisk : Type := mkvdisk {
  vd_desc : Z;  (* DMA descriptors *)
  vd_avail : Z;  (* available ring *)
  vd_used : Z;  (* used ring *)
  vd_free : list bool;  (* is a descriptor free? *)
  vd_used_idx : Z;  (* we've looked this far in used *)
  vd_info_b : list (option nat);  (* info[].b *)
  vd_info_status : list Z;  (* info[].status *)
  vd_ops : list blkreq;  (* disk command headers *)
}.

#[global] Instance vdisk_inhabited : Inhabited vdisk :=
  populate (mkvdisk 0 0 0 (replicate 8 false) 0 (replicate 8 None) (replicate 8 0) (replicate 8 inhabitant)).

Definition set_vd_desc (v : Z) (s : vdisk) : vdisk :=
  mkvdisk v (s.(vd_avail)) (s.(vd_used)) (s.(vd_free)) (s.(vd_used_idx)) (s.(vd_info_b)) (s.(vd_info_status)) (s.(vd_ops)).
Definition set_vd_avail (v : Z) (s : vdisk) : vdisk :=
  mkvdisk (s.(vd_desc)) v (s.(vd_used)) (s.(vd_free)) (s.(vd_used_idx)) (s.(vd_info_b)) (s.(vd_info_status)) (s.(vd_ops)).
Definition set_vd_used (v : Z) (s : vdisk) : vdisk :=
  mkvdisk (s.(vd_desc)) (s.(vd_avail)) v (s.(vd_free)) (s.(vd_used_idx)) (s.(vd_info_b)) (s.(vd_info_status)) (s.(vd_ops)).
Definition set_vd_free (v : list bool) (s : vdisk) : vdisk :=
  mkvdisk (s.(vd_desc)) (s.(vd_avail)) (s.(vd_used)) v (s.(vd_used_idx)) (s.(vd_info_b)) (s.(vd_info_status)) (s.(vd_ops)).
Definition set_vd_used_idx (v : Z) (s : vdisk) : vdisk :=
  mkvdisk (s.(vd_desc)) (s.(vd_avail)) (s.(vd_used)) (s.(vd_free)) v (s.(vd_info_b)) (s.(vd_info_status)) (s.(vd_ops)).
Definition set_vd_info_b (v : list (option nat)) (s : vdisk) : vdisk :=
  mkvdisk (s.(vd_desc)) (s.(vd_avail)) (s.(vd_used)) (s.(vd_free)) (s.(vd_used_idx)) v (s.(vd_info_status)) (s.(vd_ops)).
Definition set_vd_info_status (v : list Z) (s : vdisk) : vdisk :=
  mkvdisk (s.(vd_desc)) (s.(vd_avail)) (s.(vd_used)) (s.(vd_free)) (s.(vd_used_idx)) (s.(vd_info_b)) v (s.(vd_ops)).
Definition set_vd_ops (v : list blkreq) (s : vdisk) : vdisk :=
  mkvdisk (s.(vd_desc)) (s.(vd_avail)) (s.(vd_used)) (s.(vd_free)) (s.(vd_used_idx)) (s.(vd_info_b)) (s.(vd_info_status)) v.

(** The kernel's global state, as seen from the hart that runs. *)
Record kstate : Type := mkkstate {
  k_hart : hart;  (* this hart *)
  k_locks : gmap lockid Z;  (* spinlocks that are held, with the hart holding them *)
  k_mem : memory;  (* RAM *)
  k_freelist : Z;  (* kmem.freelist *)
  k_pagetable : Z;  (* kernel_pagetable *)
  k_procs : list proc;  (* proc[NPROC] *)
  k_nextpid : Z;  (* nextpid *)
  k_initproc : option nat;  (* initproc *)
  k_ticks : Z;  (* ticks *)
  k_bufs : list buf;  (* bcache.buf[NBUF] *)
  k_bhead : nat * nat;  (* bcache.head.prev, bcache.head.next *)
  k_log : logst;  (* log *)
  k_sb : superblock;  (* sb *)
  k_itable : list inode;  (* itable.inode[NINODE] *)
  k_ftable : list file;  (* ftable.file[NFILE] *)
  k_pipes : gmap Z pipe;  (* the pipes, by the page they live in *)
  k_disk : gmap Z (list Z);  (* contents of the disk, by block number *)
  k_diskwrites : list (Z * list Z);  (* blocks written to the disk, newest first *)
  k_first : bool;  (* first, in forkret *)
  k_uart : uartst;  (* uart_tx_buf, uart_tx_w, uart_tx_r *)
  k_cons : consst;  (* cons *)
  k_devsw : list devsw;  (* devsw[NDEV] *)
  k_panicked : bool;  (* panicked *)
  k_pr_locking : bool;  (* pr.locking *)
  k_vdisk : vdisk;  (* disk *)
  k_started : bool;  (* started *)
  k_mmio_in : list Z;  (* what the next reads of device registers return *)
  k_mmio_out : list (Z * Z);  (* device registers written, newest first *)
}.

#[global] Instance kstate_inhabited : Inhabited kstate :=
  populate (mkkstate inhabitant ∅ ∅ 0 0 (replicate 64 inhabitant) 1 None 0 (replicate 30 inhabitant) (0%nat, 0%nat) inhabitant inhabitant (replicate 50 inhabitant) (replicate 100 inhabitant) ∅ ∅ [] true inhabitant inhabitant (replicate 10 inhabitant) false false inhabitant false [] []).

Definition set_hart (v : hart) (s : kstate) : kstate :=
  mkkstate v (s.(k_locks)) (s.(k_mem)) (s.(k_freelist)) (s.(k_pagetable)) (s.(k_procs)) (s.(k_nextpid)) (s.(k_initproc)) (s.(k_ticks)) (s.(k_bufs)) (s.(k_bhead)) (s.(k_log)) (s.(k_sb)) (s.(k_itable)) (s.(k_ftable)) (s.(k_pipes)) (s.(k_disk)) (s.(k_diskwrites)) (s.(k_first)) (s.(k_uart)) (s.(k_cons)) (s.(k_devsw)) (s.(k_panicked)) (s.(k_pr_locking)) (s.(k_vdisk)) (s.(k_started)) (s.(k_mmio_in)) (s.(k_mmio_out)).
Definition set_locks (v : gmap lockid Z) (s : kstate) : kstate :=
  mkkstate (s.(k_hart)) v (s.(k_mem)) (s.(k_freelist)) (s.(k_pagetable)) (s.(k_procs)) (s.(k_nextpid)) (s.(k_initproc)) (s.(k_ticks)) (s.(k_bufs)) (s.(k_bhead)) (s.(k_log)) (s.(k_sb)) (s.(k_itable)) (s.(k_ftable)) (s.(k_pipes)) (s.(k_disk)) (s.(k_diskwrites)) (s.(k_first)) (s.(k_uart)) (s.(k_cons)) (s.(k_devsw)) (s.(k_panicked)) (s.(k_pr_locking)) (s.(k_vdisk)) (s.(k_started)) (s.(k_mmio_in)) (s.(k_mmio_out)).
Definition set_mem (v : memory) (s : kstate) : kstate :=
  mkkstate (s.(k_hart)) (s.(k_locks)) v (s.(k_freelist)) (s.(k_pagetable)) (s.(k_procs)) (s.(k_nextpid)) (s.(k_initproc)) (s.(k_ticks)) (s.(k_bufs)) (s.(k_bhead)) (s.(k_log)) (s.(k_sb)) (s.(k_itable)) (s.(k_ftable)) (s.(k_pipes)) (s.(k_disk)) (s.(k_diskwrites)) (s.(k_first)) (s.(k_uart)) (s.(k_cons)) (s.(k_devsw)) (s.(k_panicked)) (s.(k_pr_locking)) (s.(k_vdisk)) (s.(k_started)) (s.(k_mmio_in)) (s.(k_mmio_out)).
Definition set_freelist (v : Z) (s : kstate) : kstate :=
  mkkstate (s.(k_hart)) (s.(k_locks)) (s.(k_mem)) v (s.(k_pagetable)) (s.(k_procs)) (s.(k_nextpid)) (s.(k_initproc)) (s.(k_ticks)) (s.(k_bufs)) (s.(k_bhead)) (s.(k_log)) (s.(k_sb)) (s.(k_itable)) (s.(k_ftable)) (s.(k_pipes)) (s.(k_disk)) (s.(k_diskwrites)) (s.(k_first)) (s.(k_uart)) (s.(k_cons)) (s.(k_devsw)) (s.(k_panicked)) (s.(k_pr_locking)) (s.(k_vdisk)) (s.(k_started)) (s.(k_mmio_in)) (s.(k_mmio_out)).
Definition set_pagetable (v : Z) (s : kstate) : kstate :=
  mkkstate (s.(k_hart)) (s.(k_locks)) (s.(k_mem)) (s.(k_freelist)) v (s.(k_procs)) (s.(k_nextpid)) (s.(k_initproc)) (s.(k_ticks)) (s.(k_bufs)) (s.(k_bhead)) (s.(k_log)) (s.(k_sb)) (s.(k_itable)) (s.(k_ftable)) (s.(k_pipes)) (s.(k_disk)) (s.(k_diskwrites)) (s.(k_first)) (s.(k_uart)) (s.(k_cons)) (s.(k_devsw)) (s.(k_panicked)) (s.(k_pr_locking)) (s.(k_vdisk)) (s.(k_started)) (s.(k_mmio_in)) (s.(k_mmio_out)).
Definition set_procs (v : list proc) (s : kstate) : kstate :=
  mkkstate (s.(k_hart)) (s.(k_locks)) (s.(k_mem)) (s.(k_freelist)) (s.(k_pagetable)) v (s.(k_nextpid)) (s.(k_initproc)) (s.(k_ticks)) (s.(k_bufs)) (s.(k_bhead)) (s.(k_log)) (s.(k_sb)) (s.(k_itable)) (s.(k_ftable)) (s.(k_pipes)) (s.(k_disk)) (s.(k_diskwrites)) (s.(k_first)) (s.(k_uart)) (s.(k_cons)) (s.(k_devsw)) (s.(k_panicked)) (s.(k_pr_locking)) (s.(k_vdisk)) (s.(k_started)) (s.(k_mmio_in)) (s.(k_mmio_out)).
Definition set_nextpid (v : Z) (s : kstate) : kstate :=
  mkkstate (s.(k_hart)) (s.(k_locks)) (s.(k_mem)) (s.(k_freelist)) (s.(k_pagetable)) (s.(k_procs)) v (s.(k_initproc)) (s.(k_ticks)) (s.(k_bufs)) (s.(k_bhead)) (s.(k_log)) (s.(k_sb)) (s.(k_itable)) (s.(k_ftable)) (s.(k_pipes)) (s.(k_disk)) (s.(k_diskwrites)) (s.(k_first)) (s.(k_uart)) (s.(k_cons)) (s.(k_devsw)) (s.(k_panicked)) (s.(k_pr_locking)) (s.(k_vdisk)) (s.(k_started)) (s.(k_mmio_in)) (s.(k_mmio_out)).
Definition set_initproc (v : option nat) (s : kstate) : kstate :=
  mkkstate (s.(k_hart)) (s.(k_locks)) (s.(k_mem)) (s.(k_freelist)) (s.(k_pagetable)) (s.(k_procs)) (s.(k_nextpid)) v (s.(k_ticks)) (s.(k_bufs)) (s.(k_bhead)) (s.(k_log)) (s.(k_sb)) (s.(k_itable)) (s.(k_ftable)) (s.(k_pipes)) (s.(k_disk)) (s.(k_diskwrites)) (s.(k_first)) (s.(k_uart)) (s.(k_cons)) (s.(k_devsw)) (s.(k_panicked)) (s.(k_pr_locking)) (s.(k_vdisk)) (s.(k_started)) (s.(k_mmio_in)) (s.(k_mmio_out)).
Definition set_ticks (v : Z) (s : kstate) : kstate :=
  mkkstate (s.(k_hart)) (s.(k_locks)) (s.(k_mem)) (s.(k_freelist)) (s.(k_pagetable)) (s.(k_procs)) (s.(k_nextpid)) (s.(k_initproc)) v (s.(k_bufs)) (s.(k_bhead)) (s.(k_log)) (s.(k_sb)) (s.(k_itable)) (s.(k_ftable)) (s.(k_pipes)) (s.(k_disk)) (s.(k_diskwrites)) (s.(k_first)) (s.(k_uart)) (s.(k_cons)) (s.(k_devsw)) (s.(k_panicked)) (s.(k_pr_locking)) (s.(k_vdisk)) (s.(k_started)) (s.(k_mmio_in)) (s.(k_mmio_out)).
Definition set_bufs (v : list buf) (s : kstate) : kstate :=
  mkkstate (s.(k_hart)) (s.(k_locks)) (s.(k_mem)) (s.(k_freelist)) (s.(k_pagetable)) (s.(k_procs)) (s.(k_nextpid)) (s.(k_initproc)) (s.(k_ticks)) v (s.(k_bhead)) (s.(k_log)) (s.(k_sb)) (s.(k_itable)) (s.(k_ftable)) (s.(k_pipes)) (s.(k_disk)) (s.(k_diskwrites)) (s.(k_first)) (s.(k_uart)) (s.(k_cons)) (s.(k_devsw)) (s.(k_panicked)) (s.(k_pr_locking)) (s.(k_vdisk)) (s.(k_started)) (s.(k_mmio_in)) (s.(k_mmio_out)).
Definition set_bhead (v : nat * nat) (s : kstate) : kstate :=
  mkkstate (s.(k_hart)) (s.(k_locks)) (s.(k_mem)) (s.(k_freelist)) (s.(k_pagetable)) (s.(k_procs)) (s.(k_nextpid)) (s.(k_initproc)) (s.(k_ticks)) (s.(k_bufs)) v (s.(k_log)) (s.(k_sb)) (s.(k_itable)) (s.(k_ftable)) (s.(k_pipes)) (s.(k_disk)) (s.(k_diskwrites)) (s.(k_first)) (s.(k_uart)) (s.(k_cons)) (s.(k_devsw)) (s.(k_panicked)) (s.(k_pr_locking)) (s.(k_vdisk)) (s.(k_started)) (s.(k_mmio_in)) (s.(k_mmio_out)).
Definition set_log (v : logst) (s : kstate) : kstate :=
  mkkstate (s.(k_hart)) (s.(k_locks)) (s.(k_mem)) (s.(k_freelist)) (s.(k_pagetable)) (s.(k_procs)) (s.(k_nextpid)) (s.(k_initproc)) (s.(k_ticks)) (s.(k_bufs)) (s.(k_bhead)) v (s.(k_sb)) (s.(k_itable)) (s.(k_ftable)) (s.(k_pipes)) (s.(k_disk)) (s.(k_diskwrites)) (s.(k_first)) (s.(k_uart)) (s.(k_cons)) (s.(k_devsw)) (s.(k_panicked)) (s.(k_pr_locking)) (s.(k_vdisk)) (s.(k_started)) (s.(k_mmio_in)) (s.(k_mmio_out)).
Definition set_sb (v : superblock) (s : kstate) : kstate :=
  mkkstate (s.(k_hart)) (s.(k_locks)) (s.(k_mem)) (s.(k_freelist)) (s.(k_pagetable)) (s.(k_procs)) (s.(k_nextpid)) (s.(k_initproc)) (s.(k_ticks)) (s.(k_bufs)) (s.(k_bhead)) (s.(k_log)) v (s.(k_itable)) (s.(k_ftable)) (s.(k_pipes)) (s.(k_disk)) (s.(k_diskwrites)) (s.(k_first)) (s.(k_uart)) (s.(k_cons)) (s.(k_devsw)) (s.(k_panicked)) (s.(k_pr_locking)) (s.(k_vdisk)) (s.(k_started)) (s.(k_mmio_in)) (s.(k_mmio_out)).
Definition set_itable (v : list inode) (s : kstate) : kstate :=
  mkkstate (s.(k_hart)) (s.(k_locks)) (s.(k_mem)) (s.(k_freelist)) (s.(k_pagetable)) (s.(k_procs)) (s.(k_nextpid)) (s.(k_initproc)) (s.(k_ticks)) (s.(k_bufs)) (s.(k_bhead)) (s.(k_log)) (s.(k_sb)) v (s.(k_ftable)) (s.(k_pipes)) (s.(k_disk)) (s.(k_diskwrites)) (s.(k_first)) (s.(k_uart)) (s.(k_cons)) (s.(k_devsw)) (s.(k_panicked)) (s.(k_pr_locking)) (s.(k_vdisk)) (s.(k_started)) (s.(k_mmio_in)) (s.(k_mmio_out)).
Definition set_ftable (v : list file) (s : kstate) : kstate :=
  mkkstate (s.(k_hart)) (s.(k_locks)) (s.(k_mem)) (s.(k_freelist)) (s.(k_pagetable)) (s.(k_procs)) (s.(k_nextpid)) (s.(k_initproc)) (s.(k_ticks)) (s.(k_bufs)) (s.(k_bhead)) (s.(k_log)) (s.(k_sb)) (s.(k_itable)) v (s.(k_pipes)) (s.(k_disk)) (s.(k_diskwrites)) (s.(k_first)) (s.(k_uart)) (s.(k_cons)) (s.(k_devsw)) (s.(k_panicked)) (s.(k_pr_locking)) (s.(k_vdisk)) (s.(k_started)) (s.(k_mmio_in)) (s.(k_mmio_out)).
Definition set_pipes (v : gmap Z pipe) (s : kstate) : kstate :=
  mkkstate (s.(k_hart)) (s.(k_locks)) (s.(k_mem)) (s.(k_freelist)) (s.(k_pagetable)) (s.(k_procs)) (s.(k_nextpid)) (s.(k_initproc)) (s.(k_ticks)) (s.(k_bufs)) (s.(k_bhead)) (s.(k_log)) (s.(k_sb)) (s.(k_itable)) (s.(k_ftable)) v (s.(k_disk)) (s.(k_diskwrites)) (s.(k_first)) (s.(k_uart)) (s.(k_cons)) (s.(k_devsw)) (s.(k_panicked)) (s.(k_pr_locking)) (s.(k_vdisk)) (s.(k_started)) (s.(k_mmio_in)) (s.(k_mmio_out)).
Definition set_disk (v : gmap Z (list Z)) (s : kstate) : kstate :=
  mkkstate (s.(k_hart)) (s.(k_locks)) (s.(k_mem)) (s.(k_freelist)) (s.(k_pagetable)) (s.(k_procs)) (s.(k_nextpid)) (s.(k_initproc)) (s.(k_ticks)) (s.(k_bufs)) (s.(k_bhead)) (s.(k_log)) (s.(k_sb)) (s.(k_itable)) (s.(k_ftable)) (s.(k_pipes)) v (s.(k_diskwrites)) (s.(k_first)) (s.(k_uart)) (s.(k_cons)) (s.(k_devsw)) (s.(k_panicked)) (s.(k_pr_locking)) (s.(k_vdisk)) (s.(k_started)) (s.(k_mmio_in)) (s.(k_mmio_out)).
Definition set_diskwrites (v : list (Z * list Z)) (s : kstate) : kstate :=
  mkkstate (s.(k_hart)) (s.(k_locks)) (s.(k_mem)) (s.(k_freelist)) (s.(k_pagetable)) (s.(k_procs)) (s.(k_nextpid)) (s.(k_initproc)) (s.(k_ticks)) (s.(k_bufs)) (s.(k_bhead)) (s.(k_log)) (s.(k_sb)) (s.(k_itable)) (s.(k_ftable)) (s.(k_pipes)) (s.(k_disk)) v (s.(k_first)) (s.(k_uart)) (s.(k_cons)) (s.(k_devsw)) (s.(k_panicked)) (s.(k_pr_locking)) (s.(k_vdisk)) (s.(k_started)) (s.(k_mmio_in)) (s.(k_mmio_out)).
Definition set_first (v : bool) (s : kstate) : kstate :=
  mkkstate (s.(k_hart)) (s.(k_locks)) (s.(k_mem)) (s.(k_freelist)) (s.(k_pagetable)) (s.(k_procs)) (s.(k_nextpid)) (s.(k_initproc)) (s.(k_ticks)) (s.(k_bufs)) (s.(k_bhead)) (s.(k_log)) (s.(k_sb)) (s.(k_itable)) (s.(k_ftable)) (s.(k_pipes)) (s.(k_disk)) (s.(k_diskwrites)) v (s.(k_uart)) (s.(k_cons)) (s.(k_devsw)) (s.(k_panicked)) (s.(k_pr_locking)) (s.(k_vdisk)) (s.(k_started)) (s.(k_mmio_in)) (s.(k_mmio_out)).
Definition set_uart (v : uartst) (s : kstate) : kstate :=
  mkkstate (s.(k_hart)) (s.(k_locks)) (s.(k_mem)) (s.(k_freelist)) (s.(k_pagetable)) (s.(k_procs)) (s.(k_nextpid)) (s.(k_initproc)) (s.(k_ticks)) (s.(k_bufs)) (s.(k_bhead)) (s.(k_log)) (s.(k_sb)) (s.(k_itable)) (s.(k_ftable)) (s.(k_pipes)) (s.(k_disk)) (s.(k_diskwrites)) (s.(k_first)) v (s.(k_cons)) (s.(k_devsw)) (s.(k_panicked)) (s.(k_pr_locking)) (s.(k_vdisk)) (s.(k_started)) (s.(k_mmio_in)) (s.(k_mmio_out)).
Definition set_cons (v : consst) (s : kstate) : kstate :=
  mkkstate (s.(k_hart)) (s.(k_locks)) (s.(k_mem)) (s.(k_freelist)) (s.(k_pagetable)) (s.(k_procs)) (s.(k_nextpid)) (s.(k_initproc)) (s.(k_ticks)) (s.(k_bufs)) (s.(k_bhead)) (s.(k_log)) (s.(k_sb)) (s.(k_itable)) (s.(k_ftable)) (s.(k_pipes)) (s.(k_disk)) (s.(k_diskwrites)) (s.(k_first)) (s.(k_uart)) v (s.(k_devsw)) (s.(k_panicked)) (s.(k_pr_locking)) (s.(k_vdisk)) (s.(k_started)) (s.(k_mmio_in)) (s.(k_mmio_out)).
Definition set_devsw (v : list devsw) (s : kstate) : kstate :=
  mkkstate (s.(k_hart)) (s.(k_locks)) (s.(k_mem)) (s.(k_freelist)) (s.(k_pagetable)) (s.(k_procs)) (s.(k_nextpid)) (s.(k_initproc)) (s.(k_ticks)) (s.(k_bufs)) (s.(k_bhead)) (s.(k_log)) (s.(k_sb)) (s.(k_itable)) (s.(k_ftable)) (s.(k_pipes)) (s.(k_disk)) (s.(k_diskwrites)) (s.(k_first)) (s.(k_uart)) (s.(k_cons)) v (s.(k_panicked)) (s.(k_pr_locking)) (s.(k_vdisk)) (s.(k_started)) (s.(k_mmio_in)) (s.(k_mmio_out)).
Definition set_panicked (v : bool) (s : kstate) : kstate :=
  mkkstate (s.(k_hart)) (s.(k_locks)) (s.(k_mem)) (s.(k_freelist)) (s.(k_pagetable)) (s.(k_procs)) (s.(k_nextpid)) (s.(k_initproc)) (s.(k_ticks)) (s.(k_bufs)) (s.(k_bhead)) (s.(k_log)) (s.(k_sb)) (s.(k_itable)) (s.(k_ftable)) (s.(k_pipes)) (s.(k_disk)) (s.(k_diskwrites)) (s.(k_first)) (s.(k_uart)) (s.(k_cons)) (s.(k_devsw)) v (s.(k_pr_locking)) (s.(k_vdisk)) (s.(k_started)) (s.(k_mmio_in)) (s.(k_mmio_out)).
Definition set_pr_locking (v : bool) (s : kstate) : kstate :=
  mkkstate (s.(k_hart)) (s.(k_locks)) (s.(k_mem)) (s.(k_freelist)) (s.(k_pagetable)) (s.(k_procs)) (s.(k_nextpid)) (s.(k_initproc)) (s.(k_ticks)) (s.(k_bufs)) (s.(k_bhead)) (s.(k_log)) (s.(k_sb)) (s.(k_itable)) (s.(k_ftable)) (s.(k_pipes)) (s.(k_disk)) (s.(k_diskwrites)) (s.(k_first)) (s.(k_uart)) (s.(k_cons)) (s.(k_devsw)) (s.(k_panicked)) v (s.(k_vdisk)) (s.(k_started)) (s.(k_mmio_in)) (s.(k_mmio_out)).
Definition set_vdisk (v : vdisk) (s : kstate) : kstate :=
  mkkstate (s.(k_hart)) (s.(k_locks)) (s.(k_mem)) (s.(k_freelist)) (s.(k_pagetable)) (s.(k_procs)) (s.(k_nextpid)) (s.(k_initproc)) (s.(k_ticks)) (s.(k_bufs)) (s.(k_bhead)) (s.(k_log)) (s.(k_sb)) (s.(k_itable)) (s.(k_ftable)) (s.(k_pipes)) (s.(k_disk)) (s.(k_diskwrites)) (s.(k_first)) (s.(k_uart)) (s.(k_cons)) (s.(k_devsw)) (s.(k_panicked)) (s.(k_pr_locking)) v (s.(k_started)) (s.(k_mmio_in)) (s.(k_mmio_out)).
Definition set_started (v : bool) (s : kstate) : kstate :=
  mkkstate (s.(k_hart)) (s.(k_locks)) (s.(k_mem)) (s.(k_freelist)) (s.(k_pagetable)) (s.(k_procs)) (s.(k_nextpid)) (s.(k_initproc)) (s.(k_ticks)) (s.(k_bufs)) (s.(k_bhead)) (s.(k_log)) (s.(k_sb)) (s.(k_itable)) (s.(k_ftable)) (s.(k_pipes)) (s.(k_disk)) (s.(k_diskwrites)) (s.(k_first)) (s.(k_uart)) (s.(k_cons)) (s.(k_devsw)) (s.(k_panicked)) (s.(k_pr_locking)) (s.(k_vdisk)) v (s.(k_mmio_in)) (s.(k_mmio_out)).
Definition set_mmio_in (v : list Z) (s : kstate) : kstate :=
  mkkstate (s.(k_hart)) (s.(k_locks)) (s.(k_mem)) (s.(k_freelist)) (s.(k_pagetable)) (s.(k_procs)) (s.(k_nextpid)) (s.(k_initproc)) (s.(k_ticks)) (s.(k_bufs)) (s.(k_bhead)) (s.(k_log)) (s.(k_sb)) (s.(k_itable)) (s.(k_ftable)) (s.(k_pipes)) (s.(k_disk)) (s.(k_diskwrites)) (s.(k_first)) (s.(k_uart)) (s.(k_cons)) (s.(k_devsw)) (s.(k_panicked)) (s.(k_pr_locking)) (s.(k_vdisk)) (s.(k_started)) v (s.(k_mmio_out)).
Definition set_mmio_out (v : list (Z * Z)) (s : kstate) : kstate :=
  mkkstate (s.(k_hart)) (s.(k_locks)) (s.(k_mem)) (s.(k_freelist)) (s.(k_pagetable)) (s.(k_procs)) (s.(k_nextpid)) (s.(k_initproc)) (s.(k_ticks)) (s.(k_bufs)) (s.(k_bhead)) (s.(k_log)) (s.(k_sb)) (s.(k_itable)) (s.(k_ftable)) (s.(k_pipes)) (s.(k_disk)) (s.(k_diskwrites)) (s.(k_first)) (s.(k_uart)) (s.(k_cons)) (s.(k_devsw)) (s.(k_panicked)) (s.(k_pr_locking)) (s.(k_vdisk)) (s.(k_started)) (s.(k_mmio_in)) v.

(** Kernel computations. *)
Definition K (A : Type) : Type := M kstate A.

(** ** Table accesses *)

Definition proc_at (s : kstate) (i : nat) : proc := s.(k_procs) !!! i.
Definition inode_at (s : kstate) (i : nat) : inode := s.(k_itable) !!! i.
Definition file_at (s : kstate) (i : nat) : file := s.(k_ftable) !!! i.
Definition buf_at (s : kstate) (i : nat) : buf := s.(k_bufs) !!! i.

Definition upd_proc (i : nat) (f : proc -> proc) (s : kstate) : kstate :=
  set_procs (alter f i s.(k_procs)) s.
Definition upd_inode (i : nat) (f : inode -> inode) (s : kstate) : kstate :=
  set_itable (alter f i s.(k_itable)) s.
Definition upd_file (i : nat) (f : file -> file) (s : kstate) : kstate :=
  set_ftable (alter f i s.(k_ftable)) s.
Definition upd_buf (i : nat) (f : buf -> buf) (s : kstate) : kstate :=
  set_bufs (alter f i s.(k_bufs)) s.
Definition upd_hart (f : hart -> hart) (s : kstate) : kstate := set_hart (f s.(k_hart)) s.
Definition upd_log (f : logst -> logst) (s : kstate) : kstate := set_log (f s.(k_log)) s.
Definition upd_pipe (pi : Z) (f : pipe -> pipe) (s : kstate) : kstate :=
  set_pipes (<[pi := f (s.(k_pipes) !!! pi)]> s.(k_pipes)) s.
Definition upd_uart (f : uartst -> uartst) (s : kstate) : kstate := set_uart (f s.(k_uart)) s.
Definition upd_cons (f : consst -> consst) (s : kstate) : kstate := set_cons (f s.(k_cons)) s.
Definition upd_vdisk (f : vdisk -> vdisk) (s : kstate) : kstate := set_vdisk (f s.(k_vdisk)) s.

(** The spinlocks, by the name [initlock] gives them and the object they
    belong to. *)
Definition kmem_lock : lockid := ("kmem", 0).
Definition pid_lock : lockid := ("nextpid", 0).
Definition wait_lock : lockid := ("wait_lock", 0).
Definition proc_lock (i : nat) : lockid := ("proc", Z.of_nat i).
Definition bcache_lock : lockid := ("bcache", 0).
Definition buf_sleep_lock (i : nat) : lockid := ("sleep lock: buffer", Z.of_nat i).
Definition inode_sleep_lock (i : nat) : lockid := ("sleep lock: inode", Z.of_nat i).
Definition log_lock : lockid := ("log", 0).
Definition itable_lock : lockid := ("itable", 0).
Definition ftable_lock : lockid := ("ftable", 0).
Definition pipe_lock (pi : Z) : lockid := ("pipe", pi).
Definition tickslock : lockid := ("time", 0).
Definition uart_tx_lock : lockid := ("uart", 0).
Definition cons_lock : lockid := ("cons", 0).
Definition pr_lock : lockid := ("pr", 0).
Definition vdisk_lock : lockid := ("virtio_disk", 0).

(** The channels processes sleep on, by the object whose address is used. *)
Definition proc_chan (i : nat) : chan := ("proc", Z.of_nat i).
Definition buf_sleep_chan (i : nat) : chan := ("sleep lock: buffer", Z.of_nat i).
Definition inode_sleep_chan (i : nat) : chan := ("sleep lock: inode", Z.of_nat i).
Definition log_chan : chan := ("log", 0).
Definition ticks_chan : chan := ("ticks", 0).
Definition uart_tx_r_chan : chan := ("uart_tx_r", 0).
Definition cons_r_chan : chan := ("cons.r", 0).
Definition vdisk_free_chan : chan := ("disk.free", 0).
Definition buf_chan (i : nat) : chan := ("buf", Z.of_nat i).
Definition pipe_nread_chan (pi : Z) : chan := ("pipe.nread", pi).
Definition pipe_nwrite_chan (pi : Z) : chan := ("pipe.nwrite", pi).

(** ** Lemmas *)

Lemma lookup_total_alter_eq `{Inhabited A} (f : A -> A) (l : list A) i :
  (i < length l)%nat -> alter f i l !!! i = f (l !!! i).
Proof.
  intros Hi. destruct (lookup_lt_is_Some_2 l i Hi) as [x Hx].
  rewrite (list_lookup_total_correct l i x Hx).
  apply list_lookup_total_correct. rewrite list_lookup_alter, Hx. by rewrite decide_True.
Qed.

Lemma lookup_total_alter_ne `{Inhabited A} (f : A -> A) (l : list A) i j :
  i <> j -> alter f i l !!! j = l !!! j.
Proof.
  intros Hij. rewrite !list_lookup_total_alt, list_lookup_alter.
  by rewrite decide_False.
Qed.

Lemma proc_at_upd_eq s i f :
  (i < length s.(k_procs))%nat -> proc_at (upd_proc i f s) i = f (proc_at s i).
Proof. apply lookup_total_alter_eq. Qed.

Lemma proc_at_upd_ne s i j f : i <> j -> proc_at (upd_proc i f s) j = proc_at s j.
Proof. apply lookup_total_alter_ne. Qed.

Lemma length_upd_proc s i f : length (upd_proc i f s).(k_procs) = length s.(k_procs).
Proof. apply length_alter. Qed.

#[export] Hint Rewrite @length_alter length_upd_proc : xv6.

(** Two states with the same components are equal. *)
Lemma kstate_ext s t :
  s.(k_hart) = t.(k_hart) ->
  s.(k_locks) = t.(k_locks) ->
  s.(k_mem) = t.(k_mem) ->
  s.(k_freelist) = t.(k_freelist) ->
  s.(k_pagetable) = t.(k_pagetable) ->
  s.(k_procs) = t.(k_procs) ->
  s.(k_nextpid) = t.(k_nextpid) ->
  s.(k_initproc) = t.(k_initproc) ->
  s.(k_ticks) = t.(k_ticks) ->
  s.(k_bufs) = t.(k_bufs) ->
  s.(k_bhead) = t.(k_bhead) ->
  s.(k_log) = t.(k_log) ->
  s.(k_sb) = t.(k_sb) ->
  s.(k_itable) = t.(k_itable) ->
  s.(k_ftable) = t.(k_ftable) ->
  s.(k_pipes) = t.(k_pipes) ->
  s.(k_disk) = t.(k_disk) ->
  s.(k_diskwrites) = t.(k_diskwrites) ->
  s.(k_first) = t.(k_first) ->
  s.(k_uart) = t.(k_uart) ->
  s.(k_cons) = t.(k_cons) ->
  s.(k_devsw) = t.(k_devsw) ->
  s.(k_panicked) = t.(k_panicked) ->
  s.(k_pr_locking) = t.(k_pr_locking) ->
  s.(k_vdisk) = t.(k_vdisk) ->
  s.(k_started) = t.(k_started) ->
  s.(k_mmio_in) = t.(k_mmio_in) ->
  s.(k_mmio_out) = t.(k_mmio_out) ->
  s = t.
Proof.
  intros H0 H1 H2 H3 H4 H5 H6 H7 H8 H9 H10 H11 H12 H13 H14 H15 H16 H17 H18 H19 H20 H21 H22 H23 H24 H25 H26 H27.
  transitivity (mkkstate s.(k_hart) s.(k_locks) s.(k_mem) s.(k_freelist) s.(k_pagetable) s.(k_procs) s.(k_nextpid) s.(k_initproc) s.(k_ticks) s.(k_bufs) s.(k_bhead) s.(k_log) s.(k_sb) s.(k_itable) s.(k_ftable) s.(k_pipes) s.(k_disk) s.(k_diskwrites) s.(k_first) s.(k_uart) s.(k_cons) s.(k_devsw) s.(k_panicked) s.(k_pr_locking) s.(k_vdisk) s.(k_started) s.(k_mmio_in) s.(k_mmio_out));
    [reflexivity|].
  rewrite H0, H1, H2, H3, H4, H5, H6, H7, H8, H9, H10, H11, H12, H13, H14, H15, H16, H17, H18, H19, H20, H21, H22, H23, H24, H25, H26, H27. reflexivity.
Qed.

(** Reduce an equality of states to the components that differ. *)
Ltac kext := apply kstate_ext; try reflexivity.

(** Evaluate the monad, projections and updates, and nothing else. *)
Ltac ksimpl :=
  cbv beta delta [bind get modify ret when panic
    upd_proc upd_inode upd_file upd_buf upd_hart upd_log upd_pipe upd_uart upd_cons
    upd_vdisk];
  cbn [obind negb andb orb fst snd
    sl_locked sl_pid hartid c_proc c_noff c_intena sstatus stvec sepc scause stval satp
    time stimecmp cx_ra cx_sp cx_s p_state p_chan p_killed p_xstate p_pid p_parent
    p_kstack p_sz p_pagetable p_trapframe p_context p_ofile p_cwd p_name b_valid b_disk
    b_dev b_blockno b_lock b_refcnt b_prev b_next b_data l_start l_size l_outstanding
    l_committing l_dev lh_n lh_block sb_magic sb_size sb_nblocks sb_ninodes sb_nlog
    sb_logstart sb_inodestart sb_bmapstart i_dev i_inum i_ref i_lock i_valid i_type
    i_major i_minor i_nlink i_size i_addrs f_type f_ref f_readable f_writable f_pipe f_ip
    f_off f_major pi_data pi_nread pi_nwrite pi_readopen pi_writeopen uart_tx_buf
    uart_tx_w uart_tx_r cons_buf cons_r cons_w cons_e d_read d_write rq_type rq_reserved
    rq_sector vd_desc vd_avail vd_used vd_free vd_used_idx vd_info_b vd_info_status vd_ops
    k_hart k_locks k_mem k_freelist k_pagetable k_procs k_nextpid k_initproc k_ticks
    k_bufs k_bhead k_log k_sb k_itable k_ftable k_pipes k_disk k_diskwrites k_first k_uart
    k_cons k_devsw k_panicked k_pr_locking k_vdisk k_started k_mmio_in k_mmio_out
    set_sl_locked set_sl_pid set_hartid set_c_proc set_c_noff set_c_intena set_sstatus
    set_stvec set_sepc set_scause set_stval set_satp set_time set_stimecmp set_cx_ra
    set_cx_sp set_cx_s set_p_state set_p_chan set_p_killed set_p_xstate set_p_pid
    set_p_parent set_p_kstack set_p_sz set_p_pagetable set_p_trapframe set_p_context
    set_p_ofile set_p_cwd set_p_name set_b_valid set_b_disk set_b_dev set_b_blockno
    set_b_lock set_b_refcnt set_b_prev set_b_next set_b_data set_l_start set_l_size
    set_l_outstanding set_l_committing set_l_dev set_lh_n set_lh_block set_sb_magic
    set_sb_size set_sb_nblocks set_sb_ninodes set_sb_nlog set_sb_logstart
    set_sb_inodestart set_sb_bmapstart set_i_dev set_i_inum set_i_ref set_i_lock
    set_i_valid set_i_type set_i_major set_i_minor set_i_nlink set_i_size set_i_addrs
    set_f_type set_f_ref set_f_readable set_f_writable set_f_pipe set_f_ip set_f_off
    set_f_major set_pi_data set_pi_nread set_pi_nwrite set_pi_readopen set_pi_writeopen
    set_uart_tx_buf set_uart_tx_w set_uart_tx_r set_cons_buf set_cons_r set_cons_w
    set_cons_e set_d_read set_d_write set_rq_type set_rq_reserved set_rq_sector
    set_vd_desc set_vd_avail set_vd_used set_vd_free set_vd_used_idx set_vd_info_b
    set_vd_info_status set_vd_ops set_hart set_locks set_mem set_freelist set_pagetable
    set_procs set_nextpid set_initproc set_ticks set_bufs set_bhead set_log set_sb
    set_itable set_ftable set_pipes set_disk set_diskwrites set_first set_uart set_cons
    set_devsw set_panicked set_pr_locking set_vdisk set_started set_mmio_in set_mmio_out].

Ltac ksimpl_in H :=
  cbv beta delta [bind get modify ret when panic
    upd_proc upd_inode upd_file upd_buf upd_hart upd_log upd_pipe upd_uart upd_cons
    upd_vdisk] in H;
  cbn [obind negb andb orb fst snd
    sl_locked sl_pid hartid c_proc c_noff c_intena sstatus stvec sepc scause stval satp
    time stimecmp cx_ra cx_sp cx_s p_state p_chan p_killed p_xstate p_pid p_parent
    p_kstack p_sz p_pagetable p_trapframe p_context p_ofile p_cwd p_name b_valid b_disk
    b_dev b_blockno b_lock b_refcnt b_prev b_next b_data l_start l_size l_outstanding
    l_committing l_dev lh_n lh_block sb_magic sb_size sb_nblocks sb_ninodes sb_nlog
    sb_logstart sb_inodestart sb_bmapstart i_dev i_inum i_ref i_lock i_valid i_type
    i_major i_minor i_nlink i_size i_addrs f_type f_ref f_readable f_writable f_pipe f_ip
    f_off f_major pi_data pi_nread pi_nwrite pi_readopen pi_writeopen uart_tx_buf
    uart_tx_w uart_tx_r cons_buf cons_r cons_w cons_e d_read d_write rq_type rq_reserved
    rq_sector vd_desc vd_avail vd_used vd_free vd_used_idx vd_info_b vd_info_status vd_ops
    k_hart k_locks k_mem k_freelist k_pagetable k_procs k_nextpid k_initproc k_ticks
    k_bufs k_bhead k_log k_sb k_itable k_ftable k_pipes k_disk k_diskwrites k_first k_uart
    k_cons k_devsw k_panicked k_pr_locking k_vdisk k_started k_mmio_in k_mmio_out
    set_sl_locked set_sl_pid set_hartid set_c_proc set_c_noff set_c_intena set_sstatus
    set_stvec set_sepc set_scause set_stval set_satp set_time set_stimecmp set_cx_ra
    set_cx_sp set_cx_s set_p_state set_p_chan set_p_killed set_p_xstate set_p_pid
    set_p_parent set_p_kstack set_p_sz set_p_pagetable set_p_trapframe set_p_context
    set_p_ofile set_p_cwd set_p_name set_b_valid set_b_disk set_b_dev set_b_blockno
    set_b_lock set_b_refcnt set_b_prev set_b_next set_b_data set_l_start set_l_size
    set_l_outstanding set_l_committing set_l_dev set_lh_n set_lh_block set_sb_magic
    set_sb_size set_sb_nblocks set_sb_ninodes set_sb_nlog set_sb_logstart
    set_sb_inodestart set_sb_bmapstart set_i_dev set_i_inum set_i_ref set_i_lock
    set_i_valid set_i_type set_i_major set_i_minor set_i_nlink set_i_size set_i_addrs
    set_f_type set_f_ref set_f_readable set_f_writable set_f_pipe set_f_ip set_f_off
    set_f_major set_pi_data set_pi_nread set_pi_nwrite set_pi_readopen set_pi_writeopen
    set_uart_tx_buf set_uart_tx_w set_uart_tx_r set_cons_buf set_cons_r set_cons_w
    set_cons_e set_d_read set_d_write set_rq_type set_rq_reserved set_rq_sector
    set_vd_desc set_vd_avail set_vd_used set_vd_free set_vd_used_idx set_vd_info_b
    set_vd_info_status set_vd_ops set_hart set_locks set_mem set_freelist set_pagetable
    set_procs set_nextpid set_initproc set_ticks set_bufs set_bhead set_log set_sb
    set_itable set_ftable set_pipes set_disk set_diskwrites set_first set_uart set_cons
    set_devsw set_panicked set_pr_locking set_vdisk set_started set_mmio_in set_mmio_out] in H.
