(* ===== verification/Spinlock.v ===== *)
(** * Spinlocks and interrupt nesting (spinlock.c, riscv.h)

    [Module Spinlock] translates spinlock.c on the state of the hart that
    runs. [Module Harts] runs the instructions of [acquire] and [release] of
    several harts on one lock in an arbitrary interleaving. *)

From S2P Require Import Prelude Params Mem State.

(** ** Interrupt control (riscv.h) and spinlock.c *)

Definition cpuid : K Z := get (fun s => s.(k_hart).(hartid)).

Definition intr_get : K bool := get (fun s => has s.(k_hart).(sstatus) SSTATUS_SIE).

Definition w_sstatus (x : Z) : K unit := modify (upd_hart (set_sstatus x)).

Definition intr_on : K unit :=
  let! x := get (fun s => s.(k_hart).(sstatus)) in
  w_sstatus (Z.lor x SSTATUS_SIE).

Definition intr_off : K unit :=
  let! x := get (fun s => s.(k_hart).(sstatus)) in
  w_sstatus (Z.land x (Z.lnot SSTATUS_SIE)).

Definition push_off : K unit :=
  let! old := intr_get in
  intr_off ;;
  let! noff := get (fun s => s.(k_hart).(c_noff)) in
  when (noff =? 0) (modify (upd_hart (set_c_intena old))) ;;
  modify (upd_hart (fun h => set_c_noff (h.(c_noff) + 1) h)).

Definition pop_off : K unit :=
  let! on := intr_get in
  if (on : bool) then panic "pop_off - interruptible" else
  let! noff := get (fun s => s.(k_hart).(c_noff)) in
  if noff <? 1 then panic "pop_off" else
  modify (upd_hart (set_c_noff (noff - 1))) ;;
  let! c := get k_hart in
  when ((c.(c_noff) =? 0) && c.(c_intena)) intr_on.

Definition initlock (lk : lockid) : K unit :=
  modify (fun s => set_locks (delete lk s.(k_locks)) s).

Definition holding (lk : lockid) : K bool :=
  get (fun s => bool_decide (s.(k_locks) !! lk = Some s.(k_hart).(hartid))).

(** [acquire]: the test-and-set loop leaves when the lock is free; it spins
    while another hart holds it. *)
Definition acquire (lk : lockid) : K unit :=
  push_off ;;
  let! h := holding lk in
  if (h : bool) then panic "acquire" else
  fun s => match s.(k_locks) !! lk with
           | Some _ => Spin lk s
           | None => Ret tt (set_locks (<[lk := s.(k_hart).(hartid)]> s.(k_locks)) s)
           end.

Definition release (lk : lockid) : K unit :=
  let! h := holding lk in
  if negb h then panic "release" else
  modify (fun s => set_locks (delete lk s.(k_locks)) s) ;;
  pop_off.

(** ** Interleavings of several harts *)

Module Harts.

(** Where a hart is in the code that uses the lock. [Cpu_set] is the critical
    section: between the return of [acquire] and the call of [release]. *)
Inductive pc :=
| Idle          (* outside *)
| Acq_cpu       (* in acquire's holding(), lk->locked was not 0; about to load lk->cpu *)
| Swap          (* at the amoswap of the test-and-set loop *)
| Won           (* the amoswap returned 0; about to set lk->cpu *)
| Cpu_set       (* acquire() returned *)
| Rel_cpu       (* in release's holding(), lk->locked was not 0; about to load lk->cpu *)
| Rel_ok        (* holding() returned 1; about to store lk->cpu = 0 *)
| Cpu_cleared   (* about to store locked = 0 *)
| Panicked.     (* in panic() *)

(** The lock in memory ([locked], [cpu]), and the program counter of each hart. *)
Record config := mkconfig { locked : Z; lkcpu : option nat; pcs : nat -> pc }.

Definition goto (c : config) (h : nat) (p : pc) : nat -> pc :=
  fun h' => if decide (h = h') then p else c.(pcs) h'.

(** [holding] as hart [h] evaluates it when nothing interferes. *)
Definition holding_by (c : config) (h : nat) : bool :=
  negb (c.(locked) =? 0) && bool_decide (c.(lkcpu) = Some h).

(** One access to the lock by one hart. *)
Inductive step : config -> config -> Prop :=
| step_enter c h :
    c.(pcs) h = Idle ->
    step c (mkconfig c.(locked) c.(lkcpu) (goto c h (if c.(locked) =? 0 then Swap else Acq_cpu)))
| step_acq_cpu c h :
    c.(pcs) h = Acq_cpu ->
    step c (mkconfig c.(locked) c.(lkcpu)
              (goto c h (if decide (c.(lkcpu) = Some h) then Panicked else Swap)))
| step_swap c h :
    c.(pcs) h = Swap ->
    step c (mkconfig 1 c.(lkcpu) (goto c h (if c.(locked) =? 0 then Won else Swap)))
| step_set_cpu c h :
    c.(pcs) h = Won ->
    step c (mkconfig c.(locked) (Some h) (goto c h Cpu_set))
| step_release c h :
    c.(pcs) h = Cpu_set ->
    step c (mkconfig c.(locked) c.(lkcpu) (goto c h (if c.(locked) =? 0 then Panicked else Rel_cpu)))
| step_rel_cpu c h :
    c.(pcs) h = Rel_cpu ->
    step c (mkconfig c.(locked) c.(lkcpu)
              (goto c h (if decide (c.(lkcpu) = Some h) then Rel_ok else Panicked)))
| step_clear_cpu c h :
    c.(pcs) h = Rel_ok ->
    step c (mkconfig c.(locked) None (goto c h Cpu_cleared))
| step_unlock c h :
    c.(pcs) h = Cpu_cleared ->
    step c (mkconfig 0 c.(lkcpu) (goto c h Idle)).

Definition init : config := mkconfig 0 None (fun _ => Idle).

Inductive reachable : config -> Prop :=
| reach_init : reachable init
| reach_step c c' : reachable c -> step c c' -> reachable c'.

(** From the store to lk->cpu in [acquire] to the one in [release]. *)
Definition recorded (p : pc) : bool :=
  match p with Cpu_set | Rel_cpu | Rel_ok => true | _ => false end.

(** The hart owns the lock: its amoswap won and it has not stored 0 yet. *)
Definition owns (p : pc) : bool :=
  match p with Won | Cpu_cleared => true | _ => recorded p end.

(** [o] is the hart that owns the lock, if any. *)
Definition inv_with (o : option nat) (c : config) : Prop :=
  (forall h, owns (c.(pcs) h) = true <-> o = Some h) /\
  c.(locked) = (if o then 1 else 0) /\
  (forall h, c.(lkcpu) = Some h <-> recorded (c.(pcs) h) = true) /\
  (forall h, c.(pcs) h <> Panicked).

Definition inv (c : config) : Prop := exists o, inv_with o c.

End Harts.

(** ** Lemmas *)

(** The hart after [push_off], and after a balanced [push_off]/[pop_off] pair. *)
Definition hart_push (h : hart) : hart :=
  set_c_noff (h.(c_noff) + 1)
    (set_c_intena (if h.(c_noff) =? 0 then has h.(sstatus) SSTATUS_SIE else h.(c_intena))
      (set_sstatus (Z.land h.(sstatus) (Z.lnot SSTATUS_SIE)) h)).

Definition hart_norm (h : hart) : hart :=
  set_c_intena (if h.(c_noff) =? 0 then has h.(sstatus) SSTATUS_SIE else h.(c_intena)) h.

(** Interrupt nesting is consistent: inside a [push_off] interrupts are off. *)
Definition hart_ok (h : hart) : Prop :=
  0 <= h.(c_noff) /\ (0 < h.(c_noff) -> has h.(sstatus) SSTATUS_SIE = false).

Definition acquired (lk : lockid) (s : kstate) : kstate :=
  set_locks (<[lk := s.(k_hart).(hartid)]> s.(k_locks)) (upd_hart hart_push s).

(** The state after a critical section that changed nothing else. *)
Definition touch (s : kstate) : kstate := upd_hart hart_norm s.

Lemma has_clear x : has (Z.land x (Z.lnot SSTATUS_SIE)) SSTATUS_SIE = false.
Proof.
  unfold has. rewrite <- Z.land_assoc, (Z.land_comm (Z.lnot _)), Z.land_lnot_diag, Z.land_0_r.
  done.
Qed.

Lemma has_set x : has (Z.lor x SSTATUS_SIE) SSTATUS_SIE = true.
Proof. unfold has. rewrite Z.land_lor_distr_l, Z.land_diag. unfold cbool.
  rewrite (proj2 (Z.eqb_neq _ _)); [done|].
  rewrite Z.lor_eq_0_iff. intros [_ H]. done.
Qed.

Lemma testbit_SIE x : has x SSTATUS_SIE = Z.testbit x 1.
Proof.
  unfold has, cbool. change SSTATUS_SIE with (2 ^ 1).
  destruct (Z.testbit x 1) eqn:E.
  - apply negb_true_iff, Z.eqb_neq. intros H.
    apply (f_equal (fun z => Z.testbit z 1)) in H. rewrite Z.land_spec, E in H. done.
  - apply negb_false_iff, Z.eqb_eq. apply Z.bits_inj'. intros n Hn.
    rewrite Z.land_spec, Z.bits_0, Z.pow2_bits_eqb by lia.
    destruct (Z.eqb_spec 1 n) as [<-|]; [by rewrite E|by rewrite andb_false_r].
Qed.

Lemma sie_restore x :
  has x SSTATUS_SIE = true -> Z.lor (Z.land x (Z.lnot SSTATUS_SIE)) SSTATUS_SIE = x.
Proof.
  rewrite testbit_SIE. change SSTATUS_SIE with (2 ^ 1). intros E.
  apply Z.bits_inj'. intros n Hn.
  rewrite Z.lor_spec, Z.land_spec, Z.lnot_spec, Z.pow2_bits_eqb by lia.
  destruct (Z.eqb_spec 1 n) as [<-|]; [by rewrite E, orb_true_r|].
  by rewrite andb_true_r, orb_false_r.
Qed.

Lemma sie_clear_id x :
  has x SSTATUS_SIE = false -> Z.land x (Z.lnot SSTATUS_SIE) = x.
Proof.
  rewrite testbit_SIE. change SSTATUS_SIE with (2 ^ 1). intros E.
  apply Z.bits_inj'. intros n Hn.
  rewrite Z.land_spec, Z.lnot_spec, Z.pow2_bits_eqb by lia.
  destruct (Z.eqb_spec 1 n) as [<-|]; [by rewrite E|]. by rewrite andb_true_r.
Qed.

Lemma push_off_eq s : push_off s = Ret tt (upd_hart hart_push s).
Proof.
  unfold push_off, intr_get, intr_off, w_sstatus. ksimpl.
  unfold hart_push. destruct (c_noff (k_hart s) =? 0) eqn:E; ksimpl; done.
Qed.

(** [pop_off] after [push_off]: the hart is as before, up to [intena] when the
    nesting depth is zero, where it is unused. *)
Lemma pop_off_push s h :
  hart_ok h -> s.(k_hart) = hart_push h -> pop_off s = Ret tt (set_hart (hart_norm h) s).
Proof.
  intros [Hn Hoff] Hs.
  unfold pop_off, intr_get, intr_on, w_sstatus. ksimpl. rewrite Hs. unfold hart_push.
  ksimpl. rewrite has_clear. ksimpl. rewrite Hs. unfold hart_push. ksimpl. zbool. ksimpl. rewrite Hs. unfold hart_push. ksimpl.
  replace (c_noff h + 1 - 1) with (c_noff h) by lia. unfold hart_norm.
  destruct (Z.eqb_spec (c_noff h) 0) as [E|E]; ksimpl.
  - destruct (has (sstatus h) SSTATUS_SIE) eqn:Ei; ksimpl.
    + rewrite (sie_restore _ Ei). done.
    + rewrite (sie_clear_id _ Ei). done.
  - rewrite sie_clear_id by (apply Hoff; lia). done.
Qed.

Lemma acquire_free s lk : s.(k_locks) !! lk = None -> acquire lk s = Ret tt (acquired lk s).
Proof.
  intros H. unfold acquire, holding. erewrite bind_Ret by apply push_off_eq.
  ksimpl. rewrite H. rewrite bool_decide_false by done. ksimpl. rewrite H. done.
Qed.

Lemma acquire_other s lk h :
  s.(k_locks) !! lk = Some h -> h <> s.(k_hart).(hartid) ->
  acquire lk s = Spin lk (upd_hart hart_push s).
Proof.
  intros H Hne. unfold acquire, holding. erewrite bind_Ret by apply push_off_eq.
  ksimpl. rewrite H. rewrite bool_decide_false; [|by intros [= E]]. ksimpl. by rewrite H.
Qed.

Lemma acquire_held s lk :
  s.(k_locks) !! lk = Some s.(k_hart).(hartid) -> acquire lk s = Panic "acquire".
Proof.
  intros H. unfold acquire, holding. erewrite bind_Ret by apply push_off_eq.
  ksimpl. rewrite H. unfold hart_push. rewrite bool_decide_true by done. done.
Qed.

(** [release] after [acquire]: [t] is the state the critical section that
    started in [s] has reached. *)
Lemma release_acquired s t lk :
  s.(k_locks) !! lk = None -> hart_ok s.(k_hart) ->
  t.(k_hart) = hart_push s.(k_hart) ->
  t.(k_locks) = <[lk := s.(k_hart).(hartid)]> s.(k_locks) ->
  release lk t = Ret tt (set_locks s.(k_locks) (set_hart (hart_norm s.(k_hart)) t)).
Proof.
  intros Hfree Hok Hh Hl. unfold release, holding. ksimpl.
  rewrite Hl, Hh, lookup_insert_eq. rewrite bool_decide_true by done. ksimpl.
  rewrite (pop_off_push _ (k_hart s)) by done. ksimpl.
  rewrite Hl. rewrite delete_insert_id by done. done.
Qed.

Lemma hart_norm_ok h : hart_ok h -> hart_ok (hart_norm h).
Proof. done. Qed.

Lemma hart_norm_idem h : hart_norm (hart_norm h) = hart_norm h.
Proof. unfold hart_norm. ksimpl. destruct (c_noff h =? 0); done. Qed.

Lemma touch_idem s : touch (touch s) = touch s.
Proof. unfold touch. ksimpl. by rewrite hart_norm_idem. Qed.

Lemma hart_push_ok h : hart_ok h -> hart_ok (hart_push h).
Proof. intros [H1 H2]. unfold hart_push. split; ksimpl; [lia|]. intros _. apply has_clear. Qed.

#[export] Hint Resolve hart_norm_ok hart_push_ok : xv6.

Lemma harts_inv_init : Harts.inv Harts.init.
Proof. exists None. split_and!; done. Qed.

(** Moving one hart [h] to [p'] keeps the ownership map when both or neither own the lock. *)
Lemma goto_owns c o h p' :
  (forall h, Harts.owns (c.(Harts.pcs) h) = true <-> o = Some h) ->
  Harts.owns (c.(Harts.pcs) h) = Harts.owns p' ->
  forall h', Harts.owns (Harts.goto c h p' h') = true <-> o = Some h'.
Proof. intros HO Hp h'. unfold Harts.goto. case_decide as E; [subst h'; rewrite <- Hp|]; apply HO. Qed.

Lemma goto_recorded c h p' :
  (forall h, c.(Harts.lkcpu) = Some h <-> Harts.recorded (c.(Harts.pcs) h) = true) ->
  Harts.recorded (c.(Harts.pcs) h) = Harts.recorded p' ->
  forall h', c.(Harts.lkcpu) = Some h' <-> Harts.recorded (Harts.goto c h p' h') = true.
Proof. intros HC Hp h'. unfold Harts.goto. case_decide as E; [subst h'; rewrite <- Hp|]; apply HC. Qed.

Lemma goto_no_panic c h p' :
  (forall h, c.(Harts.pcs) h <> Harts.Panicked) -> p' <> Harts.Panicked ->
  forall h', Harts.goto c h p' h' <> Harts.Panicked.
Proof. intros HP Hp h'. unfold Harts.goto. by case_decide. Qed.

(** A load of the lock that does not end in a panic. *)
Lemma harts_inv_move o c h p' :
  Harts.inv_with o c -> Harts.owns (c.(Harts.pcs) h) = Harts.owns p' ->
  Harts.recorded (c.(Harts.pcs) h) = Harts.recorded p' -> p' <> Harts.Panicked ->
  Harts.inv (Harts.mkconfig c.(Harts.locked) c.(Harts.lkcpu) (Harts.goto c h p')).
Proof.
  intros (HO & HL & HC & HP) H1 H2 H3. exists o.
  split_and!; [by apply goto_owns|done|exact (goto_recorded c h p' HC H2)|by apply goto_no_panic].
Qed.

(** The owner of the lock changes what it records in lk->cpu. *)
Lemma harts_inv_record o c h p' :
  Harts.inv_with o c -> Harts.owns (c.(Harts.pcs) h) = true -> Harts.owns p' = true ->
  Harts.inv (Harts.mkconfig c.(Harts.locked) (if Harts.recorded p' then Some h else None) (Harts.goto c h p')).
Proof.
  intros (HO & HL & HC & HP) Hh Hp'. exists o. assert (o = Some h) as -> by (by apply HO).
  split_and!; [apply (goto_owns c); [done|by rewrite Hp']|done| |apply goto_no_panic; [done|by intros ->]].
  intros h'. cbn. unfold Harts.goto. case_decide as E; [subst h'; by destruct (Harts.recorded p')|].
  split; [destruct (Harts.recorded p'); congruence|]. intros Hr.
  assert (Harts.owns (Harts.pcs c h') = true) as Ho%HO by (by destruct (Harts.pcs c h')). congruence.
Qed.

Lemma harts_inv_step c c' : Harts.inv c -> Harts.step c c' -> Harts.inv c'.
Proof.
  intros [o Hi] Hs. pose proof Hi as (HO & HL & HC & HP).
  destruct Hs as [c h Hp|c h Hp|c h Hp|c h Hp|c h Hp|c h Hp|c h Hp|c h Hp];
    pose proof (HO h) as HOh; pose proof (HC h) as HCh; rewrite Hp in HOh, HCh; cbn in HOh, HCh.
  - by destruct (_ =? _); apply (harts_inv_move o); rewrite ?Hp.
  - rewrite decide_False by (by rewrite HCh). by apply (harts_inv_move o); rewrite ?Hp.
  - destruct (Z.eqb_spec (Harts.locked c) 0) as [E|E].
    + exists (Some h). destruct o; [lia|].
      split_and!; [|done|apply (goto_recorded c); [done|by rewrite Hp]|by apply goto_no_panic].
      intros h'. cbn. unfold Harts.goto. case_decide as E'; [by subst|]. rewrite HO. split; congruence.
    + destruct o as [o|]; [|lia]. rewrite <- HL. by apply (harts_inv_move (Some o)); rewrite ?Hp.
  - apply (harts_inv_record o c h Harts.Cpu_set); [done|by rewrite Hp|done].
  - assert (o = Some h) as -> by (by apply HOh). rewrite HL. cbn. rewrite <- HL.
    by apply (harts_inv_move (Some h)); rewrite ?Hp.
  - rewrite decide_True by (by apply HCh). by apply (harts_inv_move o); rewrite ?Hp.
  - apply (harts_inv_record o c h Harts.Cpu_cleared); [done|by rewrite Hp|done].
  - exists None. assert (o = Some h) by (by apply HOh).
    split_and!; [|done|apply (goto_recorded c); [done|by rewrite Hp]|by apply goto_no_panic].
    intros h'. cbn. unfold Harts.goto. case_decide as E; [by subst|]. rewrite HO. split; congruence.
Qed.

Lemma harts_inv c : Harts.reachable c -> Harts.inv c.
Proof. induction 1; eauto using harts_inv_init, harts_inv_step. Qed.

(** ** Properties *)

Fixpoint repeatM (n : nat) (m : K unit) : K unit :=
  match n with
  | O => ret tt
  | S n' => m ;; repeatM n' m
  end.

(** [C36] Mutual exclusion of spinlocks: however the harts' accesses to the lock in
    [acquire], [holding] and [release] interleave, at most one hart is in its critical
    section, no hart reaches a panic, [holding] would answer true for exactly the hart
    that has stored its identity in the lock, also while its two loads are under way,
    and while no hart owns the lock the next test-and-set wins. *)
Theorem spinlock_mutual_exclusion c :
  Harts.reachable c ->
  (forall h h', Harts.owns (c.(Harts.pcs) h) = true ->
                Harts.owns (c.(Harts.pcs) h') = true -> h = h') /\
  (forall h, Harts.holding_by c h = true <-> Harts.recorded (c.(Harts.pcs) h) = true) /\
  (forall h, c.(Harts.pcs) h <> Harts.Panicked) /\
  ((forall h, Harts.owns (c.(Harts.pcs) h) = false) -> c.(Harts.locked) = 0).
Proof.
  intros [o (HO & HL & HC & HP)]%harts_inv. split_and!.
  - intros h h' H%HO H'%HO. congruence.
  - intros h. unfold Harts.holding_by. rewrite andb_true_iff, bool_decide_eq_true, HC.
    split; [by intros [_ ?]|]. intros H. split; [|done].
    assert (Harts.owns (Harts.pcs c h) = true) as Ho%HO by (by destruct (Harts.pcs c h)). by rewrite HL, Ho.
  - exact HP.
  - intros Hno. destruct o as [h|]; [|done].
    specialize (Hno h). rewrite (proj2 (HO h) eq_refl) in Hno. done.
Qed.

Lemma repeatM_snoc n m s s1 s2 :
  repeatM n m s = Ret tt s1 -> m s1 = Ret tt s2 -> repeatM (S n) m s = Ret tt s2.
Proof.
  revert s; induction n as [|n IH]; intros s H1 H2.
  - simpl in H1. unfold ret in H1. simplify_eq. simpl. erewrite bind_Ret by done. done.
  - simpl in H1. apply bind_inv_Ret in H1 as ([] & s' & Hm & Hr).
    change (repeatM (S (S n)) m) with (m ;; repeatM (S n) m).
    erewrite bind_Ret by done. by apply IH.
Qed.

Lemma repeat_push n s : exists s1,
  repeatM n push_off s = Ret tt s1 /\
  s1.(k_hart).(c_noff) = s.(k_hart).(c_noff) + Z.of_nat n /\
  ((0 < n)%nat -> has s1.(k_hart).(sstatus) SSTATUS_SIE = false) /\
  (hart_ok s.(k_hart) ->
   repeatM n pop_off s1 = Ret tt (if decide (n = 0%nat) then s else touch s)).
Proof.
  revert s; induction n as [|n IH]; intros s.
  - exists s. split_and!; [done|lia|lia|done].
  - destruct (IH (upd_hart hart_push s)) as (s1 & Hr & Hn & Hi & Hp).
    exists s1. split_and!.
    + simpl. erewrite bind_Ret by apply push_off_eq. done.
    + rewrite Hn. unfold hart_push. ksimpl. lia.
    + intros _. destruct n as [|n]; [|apply Hi; lia].
      simpl in Hr. unfold ret in Hr. simplify_eq. apply has_clear.
    + intros Hok. rewrite decide_False by lia.
      specialize (Hp (hart_push_ok _ Hok)).
      assert (touch (upd_hart hart_push s) = upd_hart hart_push s) as Et.
      { unfold touch, hart_norm. ksimpl. unfold hart_push. ksimpl.
        destruct Hok. by rewrite (proj2 (Z.eqb_neq (c_noff (k_hart s) + 1) 0)) by lia. }
      rewrite Et in Hp. replace (if decide (n = 0%nat) then _ else _)
        with (upd_hart hart_push s) in Hp by (by case_decide).
      eapply repeatM_snoc; [exact Hp|]. rewrite (pop_off_push _ (k_hart s)) by done. done.
Qed.

(** Interrupt nesting: after any number [n] of [push_off] calls
    interrupts are off, and [n] calls of [pop_off] do not panic and bring
    [sstatus] and the nesting depth back to what they were. *)
Theorem push_pop_nesting n s :
  hart_ok s.(k_hart) ->
  exists s1 s2, repeatM n push_off s = Ret tt s1 /\ repeatM n pop_off s1 = Ret tt s2 /\
    ((0 < n)%nat -> has s1.(k_hart).(sstatus) SSTATUS_SIE = false) /\
    s2.(k_hart).(sstatus) = s.(k_hart).(sstatus) /\
    s2.(k_hart).(c_noff) = s.(k_hart).(c_noff).
Proof.
  intros Hok. destruct (repeat_push n s) as (s1 & Hr & _ & Hi & Hp).
  exists s1, (if decide (n = 0%nat) then s else touch s).
  split_and!; auto; case_decide; done.
Qed.

Lemma push_pop_nesting_witness :
  exists s1 s2, repeatM 3 push_off inhabitant = Ret tt s1 /\ repeatM 3 pop_off s1 = Ret tt s2 /\
    ((0 < 3)%nat -> has s1.(k_hart).(sstatus) SSTATUS_SIE = false) /\
    s2.(k_hart).(sstatus) = (inhabitant : kstate).(k_hart).(sstatus) /\
    s2.(k_hart).(c_noff) = (inhabitant : kstate).(k_hart).(c_noff).
Proof. apply (push_pop_nesting 3 inhabitant). split; vm_compute; [discriminate|done]. Defined.

Lemma spinlock_mutual_exclusion_witness :
  exists c, Harts.reachable c /\ c.(Harts.pcs) 1%nat = Harts.Cpu_set /\
    forall h, Harts.owns (c.(Harts.pcs) h) = true -> h = 1%nat.
Proof.
  set (c1 := Harts.mkconfig 0 None (Harts.goto Harts.init 1 Harts.Swap)).
  set (c2 := Harts.mkconfig 1 None (Harts.goto c1 1 Harts.Won)).
  set (c3 := Harts.mkconfig 1 (Some 1%nat) (Harts.goto c2 1 Harts.Cpu_set)).
  assert (Harts.reachable c3) as Hr.
  { eapply Harts.reach_step; [eapply Harts.reach_step; [eapply Harts.reach_step;
      [apply Harts.reach_init|]|]|].
    - by apply (Harts.step_enter Harts.init 1).
    - by apply (Harts.step_swap c1 1).
    - by apply (Harts.step_set_cpu c2 1). }
  exists c3. split_and!; [done|done|]. intros h Hh.
  by apply (proj1 (spinlock_mutual_exclusion c3 Hr)).
Defined.
