(* ===== verification/CString.v ===== *)
(** * The kernel's string functions (string.c)

    Pure functions on memory. A [char*] argument is an address; loops bounded
    by a length recurse on it, [strlen] takes fuel. *)

From S2P Require Import Prelude Params Mem.

Fixpoint memset_loop (n : nat) (cdst c : Z) (m : memory) : memory :=
  match n with
  | O => m
  | S n' => memset_loop n' (cdst + 1) c (store8 m cdst c)
  end.

Definition memset (m : memory) (dst c n : Z) : memory := memset_loop (Z.to_nat n) dst c m.

Fixpoint memcmp_loop (n : nat) (m : memory) (s1 s2 : Z) : Z :=
  match n with
  | O => 0
  | S n' =>
      if negb (load8 m s1 =? load8 m s2) then load8 m s1 - load8 m s2
      else memcmp_loop n' m (s1 + 1) (s2 + 1)
  end.

Definition memcmp (m : memory) (v1 v2 n : Z) : Z := memcmp_loop (Z.to_nat n) m v1 v2.

(** [while(n-- > 0) *--d = *--s;] *)
Fixpoint copy_down (n : nat) (m : memory) (d s : Z) : memory :=
  match n with
  | O => m
  | S n' => copy_down n' (store8 m (d - 1) (load8 m (s - 1))) (d - 1) (s - 1)
  end.

(** [while(n-- > 0) *d++ = *s++;] *)
Fixpoint copy_up (n : nat) (m : memory) (d s : Z) : memory :=
  match n with
  | O => m
  | S n' => copy_up n' (store8 m d (load8 m s)) (d + 1) (s + 1)
  end.

Definition memmove (m : memory) (dst src n : Z) : memory :=
  if n =? 0 then m
  else if (src <? dst) && (src + n >? dst)
       then copy_down (Z.to_nat n) m (dst + n) (src + n)
       else copy_up (Z.to_nat n) m dst src.

Definition memcpy (m : memory) (dst src n : Z) : memory := memmove m dst src n.

Fixpoint strncmp_loop (n : nat) (m : memory) (p q : Z) : Z :=
  match n with
  | O => 0
  | S n' =>
      if cbool (load8 m p) && (load8 m p =? load8 m q)
      then strncmp_loop n' m (p + 1) (q + 1)
      else load8 m p - load8 m q
  end.

Definition strncmp (m : memory) (p q n : Z) : Z := strncmp_loop (Z.to_nat n) m p q.

(** [while(n-- > 0) *s++ = 0;] *)
Fixpoint strncpy_pad (n : nat) (m : memory) (s : Z) : memory :=
  match n with
  | O => m
  | S n' => strncpy_pad n' (store8 m s 0) (s + 1)
  end.

(** [while(n-- > 0 && ( *s++ = *t++ ) != 0);] followed by the padding loop. *)
Fixpoint strncpy_loop (n : nat) (m : memory) (s t : Z) : memory :=
  match n with
  | O => m
  | S n' =>
      let c := load8 m t in
      let m' := store8 m s c in
      if cbool c then strncpy_loop n' m' (s + 1) (t + 1)
      else strncpy_pad n' m' (s + 1)
  end.

Definition strncpy (m : memory) (s t n : Z) : memory := strncpy_loop (Z.to_nat n) m s t.

(** [while(--n > 0 && ( *s++ = *t++ ) != 0); *s = 0;] with [n > 0] on entry;
    the argument is [n - 1]. *)
Fixpoint safestrcpy_loop (n : nat) (m : memory) (s t : Z) : memory :=
  match n with
  | O => store8 m s 0
  | S n' =>
      let c := load8 m t in
      let m' := store8 m s c in
      if cbool c then safestrcpy_loop n' m' (s + 1) (t + 1) else store8 m' (s + 1) 0
  end.

Definition safestrcpy (m : memory) (s t n : Z) : memory :=
  if n <=? 0 then m else safestrcpy_loop (Z.to_nat (n - 1)) m s t.

(** [strlen], with fuel: [None] when no NUL is found among the first [fuel] bytes. *)
Fixpoint strlen_loop (fuel : nat) (m : memory) (s n : Z) : option Z :=
  match fuel with
  | O => None
  | S fuel' => if cbool (load8 m (s + n)) then strlen_loop fuel' m s (n + 1) else Some n
  end.

Definition strlen (fuel : nat) (m : memory) (s : Z) : option Z := strlen_loop fuel m s 0.

(** ** Lemmas *)

(** The C string [bs] is stored at [p]. *)
Definition cstr (m : memory) (p : Z) (bs : list Z) : Prop :=
  load_bytes m p (length bs + 1) = bs ++ [0] /\ Forall (fun b => b <> 0) bs.

Lemma memset_eq m dst c n :
  0 <= n -> memset m dst c n = store_bytes m dst (replicate (Z.to_nat n) c).
Proof.
  intros _. unfold memset. generalize (Z.to_nat n). intros k. revert m dst.
  induction k as [|k IH]; intros m dst; [done|]. simpl. apply IH.
Qed.

Lemma load8_memset m dst c n x :
  0 <= n ->
  load8 (memset m dst c n) x = if decide (dst <= x < dst + n) then c mod 256 else load8 m x.
Proof.
  intros Hn. rewrite memset_eq by done. case_decide as Hx.
  - replace x with (dst + Z.of_nat (Z.to_nat (x - dst))) by lia.
    apply load8_store_bytes_in. apply lookup_replicate_2. lia.
  - apply load8_store_bytes_out. rewrite length_replicate. lia.
Qed.

Lemma copy_down_eq n m d s :
  s <= d ->
  copy_down n m d s ≈ store_bytes m (d - Z.of_nat n) (load_bytes m (s - Z.of_nat n) n).
Proof.
  revert m d s. induction n as [|n IH]; intros m d s Hle x; [done|].
  simpl copy_down. rewrite IH by lia.
  replace (S n) with (n + 1)%nat by lia. rewrite load_bytes_app.
  replace (s - Z.of_nat (n + 1)) with (s - 1 - Z.of_nat n) by lia.
  replace (d - Z.of_nat (n + 1)) with (d - 1 - Z.of_nat n) by lia.
  rewrite store_bytes_app, length_load_bytes.
  rewrite (load_bytes_ext m).
  2:{ intros y Hy. rewrite load8_store8, decide_False by lia. done. }
  replace (d - 1 - Z.of_nat n + Z.of_nat n) with (d - 1) by lia.
  replace (s - 1 - Z.of_nat n + Z.of_nat n) with (s - 1) by lia.
  change (load_bytes m (s - 1) 1) with [load8 m (s - 1)]. cbn [store_bytes].
  rewrite load8_store8. case_decide as Hx.
  - subst x. rewrite load8_store_bytes_out by (rewrite length_load_bytes; lia).
    rewrite load8_store8, decide_True by done. done.
  - destruct (decide (d - 1 - Z.of_nat n <= x < d - 1)) as [Hi|Ho].
    + replace x with (d - 1 - Z.of_nat n + Z.of_nat (Z.to_nat (x - (d - 1 - Z.of_nat n)))) by lia.
      by erewrite !load8_store_bytes_in by (apply lookup_load_bytes; lia).
    + rewrite !load8_store_bytes_out by (rewrite length_load_bytes; lia).
      by rewrite load8_store8, decide_False.
Qed.

Lemma copy_up_eq n m d s :
  d <= s \/ s + Z.of_nat n <= d ->
  copy_up n m d s ≈ store_bytes m d (load_bytes m s n).
Proof.
  revert m d s. induction n as [|n IH]; intros m d s Hle x; [done|].
  simpl copy_up. rewrite IH by lia.
  change (load_bytes m s (S n)) with (load8 m s :: load_bytes m (s + 1) n). simpl store_bytes.
  destruct (decide (d + 1 <= x < d + 1 + Z.of_nat n)) as [Hi|Ho].
  - replace x with (d + 1 + Z.of_nat (Z.to_nat (x - (d + 1)))) by lia.
    erewrite !load8_store_bytes_in by (apply lookup_load_bytes; lia).
    rewrite load8_store8, decide_False by lia. done.
  - by rewrite !load8_store_bytes_out by (rewrite length_load_bytes; lia).
Qed.

Lemma memmove_eq m dst src n :
  0 <= n -> memmove m dst src n ≈ store_bytes m dst (load_bytes m src (Z.to_nat n)).
Proof.
  intros Hn. unfold memmove. destruct (Z.eqb_spec n 0) as [->|Hz]; [done|].
  destruct (Z.ltb_spec src dst), (Z.gtb_spec (src + n) dst); simpl.
  - rewrite copy_down_eq by lia. rewrite Z2Nat.id by lia.
    by replace (dst + n - n) with dst by lia; replace (src + n - n) with src by lia.
  - apply copy_up_eq. lia.
  - apply copy_up_eq. lia.
  - apply copy_up_eq. lia.
Qed.

Lemma load8_memmove m dst src n x :
  0 <= n -> load8 (memmove m dst src n) x =
  if decide (dst <= x < dst + n) then load8 m (src + (x - dst)) else load8 m x.
Proof.
  intros Hn. rewrite (memmove_eq m dst src n Hn x). case_decide.
  - replace x with (dst + Z.of_nat (Z.to_nat (x - dst))) at 1 by lia.
    erewrite load8_store_bytes_in; [|apply lookup_load_bytes; lia].
    rewrite Z2Nat.id by lia. apply Z.mod_small, load8_range.
  - apply load8_store_bytes_out. rewrite length_load_bytes. lia.
Qed.

Lemma cstr_nil m p bs : cstr m p bs -> bs = [] -> load8 m p = 0.
Proof. intros [H _] ->. simpl in H. by injection H. Qed.

Lemma cstr_cons m p b bs :
  cstr m p (b :: bs) <-> load8 m p = b /\ b <> 0 /\ cstr m (p + 1) bs.
Proof.
  unfold cstr. cbn [length Nat.add app].
  change (load_bytes m p (S (length bs + 1)))
    with (load8 m p :: load_bytes m (p + 1) (length bs + 1)).
  rewrite Forall_cons. split.
  - intros [H [? ?]]. injection H as ??. done.
  - intros (? & ? & ? & ?). split; [f_equal; done|done].
Qed.

Lemma cstr_empty m p : cstr m p [] <-> load8 m p = 0.
Proof.
  unfold cstr. change (load_bytes m p (length [] + 1)) with [load8 m p]. simpl app.
  split; [intros [H _]; congruence|]. intros ->. split; [done|constructor].
Qed.

Lemma cbool_true x : x <> 0 -> cbool x = true.
Proof. intros H. unfold cbool. by rewrite (proj2 (Z.eqb_neq _ _) H). Qed.

Lemma strlen_loop_cstr fuel m s k bs :
  cstr m (s + k) bs -> (length bs < fuel)%nat ->
  strlen_loop fuel m s k = Some (k + Z.of_nat (length bs)).
Proof.
  revert k fuel. induction bs as [|b bs IH]; intros k fuel Hc Hf; (destruct fuel; [simpl in Hf; lia|]).
  - apply cstr_empty in Hc. simpl. rewrite Hc. simpl. f_equal. lia.
  - apply cstr_cons in Hc as (Hb & Hnz & Hc). simpl. rewrite Hb, cbool_true by done.
    replace (s + k + 1) with (s + (k + 1)) in Hc by lia.
    rewrite IH; [|done|simpl in Hf; lia]. f_equal. simpl length. lia.
Qed.

(** Lexicographic comparison of the first [n] bytes of two strings without
    NULs, as the difference of the first bytes that differ. *)
Fixpoint str_diff (n : nat) (a b : list Z) : Z :=
  match n with
  | O => 0
  | S n' =>
      match a, b with
      | [], [] => 0
      | [], y :: _ => - y
      | x :: _, [] => x
      | x :: a', y :: b' => if x =? y then str_diff n' a' b' else x - y
      end
  end.

Lemma strncmp_loop_cstr n m p q a b :
  cstr m p a -> cstr m q b -> strncmp_loop n m p q = str_diff n a b.
Proof.
  revert p q a b. induction n as [|n IH]; intros p q a b Ha Hb; [done|].
  simpl. destruct a as [|x a], b as [|y b].
  - apply cstr_empty in Ha, Hb. rewrite Ha, Hb. done.
  - apply cstr_empty in Ha. apply cstr_cons in Hb as (Hb & _ & _). rewrite Ha, Hb. done.
  - apply cstr_empty in Hb. apply cstr_cons in Ha as (Ha & Hnz & _). rewrite Ha, Hb.
    rewrite cbool_true by done. rewrite (proj2 (Z.eqb_neq x 0) Hnz). simpl. lia.
  - apply cstr_cons in Ha as (Ha & Hnz & Ha'). apply cstr_cons in Hb as (Hb & _ & Hb').
    rewrite Ha, Hb, cbool_true by done. simpl. destruct (x =? y); [by apply IH|done].
Qed.

Lemma str_diff_eq n a b : Forall (fun x => x <> 0) a -> Forall (fun x => x <> 0) b ->
  str_diff n a b = 0 <-> take n a = take n b.
Proof.
  intros Ha Hb. revert a b Ha Hb. induction n as [|n IH]; intros a b Ha Hb; [done|].
  destruct Ha as [|x a Hx Ha], Hb as [|y b Hy Hb]; simpl.
  - done.
  - split; [lia|done].
  - split; [lia|done].
  - destruct (Z.eqb_spec x y) as [->|Hne].
    + rewrite IH by done. split; [by intros ->|by intros [=]].
    + split; [lia|]. intros [=]. done.
Qed.

Lemma strncpy_pad_eq n m s : strncpy_pad n m s = store_bytes m s (replicate n 0).
Proof. revert m s. induction n as [|n IH]; intros m s; [done|]. simpl. apply IH. Qed.

(** A string is not affected by writes that do not touch it. *)
Lemma cstr_ext m m' p bs :
  (forall x, p <= x <= p + Z.of_nat (length bs) -> load8 m' x = load8 m x) ->
  cstr m p bs -> cstr m' p bs.
Proof.
  intros H [Hl Hz]. split; [|done]. rewrite (load_bytes_ext m); [done|].
  intros x Hx. apply H. lia.
Qed.

Lemma cstr_store8 m p bs a v :
  ~ (p <= a <= p + Z.of_nat (length bs)) -> cstr m p bs -> cstr (store8 m a v) p bs.
Proof. intros Ha. apply cstr_ext. intros x Hx. rewrite load8_store8, decide_False by lia. done. Qed.

Lemma strncpy_loop_eq n m s t bs :
  cstr m t bs -> s + Z.of_nat n <= t \/ t + Z.of_nat (length bs) < s ->
  strncpy_loop n m s t = store_bytes m s (take n (bs ++ replicate n 0)).
Proof.
  revert m s t bs. induction n as [|n IH]; intros m s t bs Hc Hd; [done|].
  destruct bs as [|b bs].
  - apply cstr_empty in Hc. cbn -[replicate]. rewrite Hc. cbn -[replicate].
    rewrite strncpy_pad_eq. simpl.
    rewrite take_ge by (rewrite length_replicate; lia). done.
  - apply cstr_cons in Hc as (Hb & Hnz & Hc). cbn [strncpy_loop]. rewrite Hb, cbool_true by done.
    cbn [app take store_bytes].
    rewrite IH with (bs := bs).
    + f_equal. rewrite !take_app. f_equal.
      rewrite !take_replicate. f_equal. lia.
    + apply cstr_store8; [simpl in Hd; lia|done].
    + simpl in Hd. lia.
Qed.

Lemma safestrcpy_loop_eq n m s t bs :
  cstr m t bs -> s + Z.of_nat n < t \/ t + Z.of_nat (length bs) < s ->
  cstr (safestrcpy_loop n m s t) s (take n bs) /\
  changed_in (fun x => s <= x <= s + Z.of_nat n) m (safestrcpy_loop n m s t).
Proof.
  revert m s t bs. induction n as [|n IH]; intros m s t bs Hc Hd.
  - simpl. split.
    + apply cstr_empty. rewrite load8_store8, decide_True by done. done.
    + intros x Hx. rewrite load8_store8, decide_False by lia. done.
  - destruct bs as [|b bs].
    + apply cstr_empty in Hc. cbn [safestrcpy_loop]. rewrite Hc. cbn [cbool Z.eqb negb]. split.
      * apply cstr_empty. rewrite load8_store8, decide_False by lia.
        rewrite load8_store8, decide_True by done. done.
      * intros x Hx. rewrite !load8_store8, !decide_False by lia. done.
    + apply cstr_cons in Hc as (Hb & Hnz & Hc). cbn [safestrcpy_loop].
      rewrite Hb, cbool_true by done.
      destruct (IH (store8 m s b) (s + 1) (t + 1) bs) as [IH1 IH2].
      { apply cstr_store8; [simpl in Hd; lia|done]. }
      { simpl in Hd. lia. }
      split.
      * cbn [take]. apply cstr_cons. split_and!; [|done|done].
        rewrite IH2 by lia. rewrite load8_store8, decide_True by done.
        rewrite <- Hb at 1. rewrite Z.mod_small by apply load8_range. done.
      * intros x Hx. rewrite IH2 by lia. rewrite load8_store8, decide_False by lia. done.
Qed.

(** ** Properties *)

(** [memmove] copies [n] bytes and nothing else, also when source and
    destination overlap in either direction: the result reads as the old
    memory with the old source bytes written at the destination. *)
Theorem memmove_correct m dst src n :
  0 <= n -> memmove m dst src n ≈ store_bytes m dst (load_bytes m src (Z.to_nat n)).
Proof. apply memmove_eq. Qed.

Lemma memmove_correct_witness :
  memmove (store_bytes ∅ 100 [1; 2; 3; 4]) 101 100 3
    ≈ store_bytes (store_bytes ∅ 100 [1; 2; 3; 4]) 101 [1; 2; 3].
Proof.
  rewrite (memmove_correct (store_bytes ∅ 100 [1; 2; 3; 4]) 101 100 3) by lia.
  replace (load_bytes _ 100 _) with [1; 2; 3] by (vm_compute; reflexivity). reflexivity.
Defined.

(** [strncmp] compares the first [n] bytes of two C strings: it returns
    the difference of the first bytes that differ, and 0 exactly when the
    strings agree on their first [n] bytes. *)
Theorem strncmp_correct m p q a b n :
  cstr m p a -> cstr m q b ->
  strncmp m p q n = str_diff (Z.to_nat n) a b /\
  (strncmp m p q n = 0 <-> take (Z.to_nat n) a = take (Z.to_nat n) b).
Proof.
  intros Ha Hb. unfold strncmp. rewrite (strncmp_loop_cstr _ _ _ _ a b) by done.
  split; [done|]. apply str_diff_eq; [apply Ha|apply Hb].
Qed.

Lemma strncmp_correct_witness :
  let m := store_bytes ∅ 0 [97; 98; 0; 97; 99; 0] in
  strncmp m 0 3 2 = str_diff 2 [97; 98] [97; 99] /\
  (strncmp m 0 3 2 = 0 <-> take 2 [97; 98] = take 2 [97; 99]).
Proof. intros m. apply (strncmp_correct m 0 3 [97; 98] [97; 99] 2); by split; [|repeat constructor]. Defined.

(** [strncpy] of a C string into a disjoint buffer writes exactly [n]
    bytes: the string, truncated to [n] bytes, padded with NULs. *)
Theorem strncpy_correct m s t n bs :
  cstr m t bs -> 0 <= n -> s + n <= t \/ t + Z.of_nat (length bs) < s ->
  load_bytes (strncpy m s t n) s (Z.to_nat n)
    = take (Z.to_nat n) (bs ++ replicate (Z.to_nat n) 0) /\
  changed_in (fun x => s <= x < s + n) m (strncpy m s t n).
Proof.
  intros Hc Hn Hd. unfold strncpy. rewrite (strncpy_loop_eq _ _ _ _ bs) by (done || lia).
  set (l := take _ _).
  assert (length l = Z.to_nat n) as Hl.
  { subst l. rewrite length_take, length_app, length_replicate. lia. }
  split.
  - rewrite <- Hl. apply load_bytes_store_bytes.
    subst l. apply Forall_take, Forall_app. split.
    + destruct Hc as [Hc _]. pose proof (load_bytes_range m t (length bs + 1)) as Hr.
      rewrite Hc in Hr. by apply Forall_app in Hr as [? _].
    + apply Forall_replicate. lia.
  - intros x Hx. apply load8_store_bytes_out. lia.
Qed.

Lemma strncpy_correct_witness :
  let m := store_bytes ∅ 0 [97; 98; 0] in
  load_bytes (strncpy m 50 0 4) 50 4 = [97; 98; 0; 0] /\
  changed_in (fun x => 50 <= x < 50 + 4) m (strncpy m 50 0 4).
Proof.
  intros m. apply (strncpy_correct m 50 0 4 [97; 98]); [by split; [|repeat constructor]|lia|simpl; lia].
Defined.

(** [safestrcpy] with a positive size always leaves a NUL-terminated
    string in the buffer, the source truncated to [n - 1] bytes, and does not
    write outside the [n] bytes of the buffer. *)
Theorem safestrcpy_correct m s t n bs :
  cstr m t bs -> 0 < n -> s + n <= t \/ t + Z.of_nat (length bs) < s ->
  cstr (safestrcpy m s t n) s (take (Z.to_nat (n - 1)) bs) /\
  changed_in (fun x => s <= x < s + n) m (safestrcpy m s t n).
Proof.
  intros Hc Hn Hd. unfold safestrcpy. zbool.
  destruct (safestrcpy_loop_eq (Z.to_nat (n - 1)) m s t bs) as [H1 H2]; [done|lia|].
  split; [done|]. eapply changed_in_mono, H2. intros x Hx. cbv beta in *. lia.
Qed.

Lemma safestrcpy_correct_witness :
  let m := store_bytes ∅ 0 [97; 98; 99; 0] in
  cstr (safestrcpy m 50 0 3) 50 [97; 98] /\
  changed_in (fun x => 50 <= x < 50 + 3) m (safestrcpy m 50 0 3).
Proof.
  intros m. apply (safestrcpy_correct m 50 0 3 [97; 98; 99]); [by split; [|repeat constructor]|lia|simpl; lia].
Defined.
