(* ===== verification/Kalloc.v ===== *)
(** * The physical page allocator (kalloc.c)

    The free list is threaded through the free pages themselves: the first
    eight bytes of a free page hold the address of the next one. *)

From S2P Require Import Prelude Params Mem State Spinlock CString.

Section Kalloc.
Context {I : KernelImage}.

(** Stores through a pointer, as kernel computations. *)
Definition set_memory (f : memory -> memory) : K unit :=
  modify (fun s => set_mem (f s.(k_mem)) s).

Definition kfree (pa : Z) : K unit :=
  if negb (pa mod PGSIZE =? 0) || (pa <? kend) || (pa >=? PHYSTOP) then panic "kfree" else
  (* Fill with junk to catch dangling refs. *)
  set_memory (fun m => memset m pa 1 PGSIZE) ;;
  acquire kmem_lock ;;
  modify (fun s => set_mem (store64 s.(k_mem) pa s.(k_freelist)) s) ;;
  modify (set_freelist pa) ;;
  release kmem_lock.

(** The loop of [freerange]; each iteration needs one unit of fuel. *)
Fixpoint freerange_loop (fuel : nat) (p pa_end : Z) : K unit :=
  if p + PGSIZE <=? pa_end then
    match fuel with
    | O => fun _ => OutOfFuel
    | S fuel' => kfree p ;; freerange_loop fuel' (p + PGSIZE) pa_end
    end
  else ret tt.

Definition freerange (pa_start pa_end : Z) : K unit :=
  let p := PGROUNDUP pa_start in
  freerange_loop (Z.to_nat ((pa_end - p) / PGSIZE)) p pa_end.

Definition kinit : K unit :=
  initlock kmem_lock ;;
  freerange kend PHYSTOP.

Definition kalloc : K Z :=
  acquire kmem_lock ;;
  let! r := get k_freelist in
  when (cbool r) (modify (fun s => set_freelist (load64 s.(k_mem) r) s)) ;;
  release kmem_lock ;;
  when (cbool r) (set_memory (fun m => memset m r 5 PGSIZE)) ;;
  ret r.

(** ** The invariant of the free list *)

(** A page of RAM the allocator may hand out. *)
Definition page_ok (pa : Z) : Prop := pa mod PGSIZE = 0 /\ kend <= pa < PHYSTOP.

(** [l] is the list of pages reached from [h] through the [next] pointers. *)
Fixpoint flist (m : memory) (h : Z) (l : list Z) : Prop :=
  match l with
  | [] => h = 0
  | p :: l' => h = p /\ page_ok p /\ flist m (load64 m p) l'
  end.

(** [s] represents the free pages [l], and the allocator's lock is free. *)
Record kmem_rep (s : kstate) (l : list Z) : Prop := {
  rep_list : flist s.(k_mem) s.(k_freelist) l;
  rep_nodup : NoDup l;
  rep_lock : s.(k_locks) !! kmem_lock = None;
  rep_hart : hart_ok s.(k_hart);
}.

(** The states [kalloc] and [kfree] end in. *)
Definition kalloc_post (p : Z) (l : list Z) (s : kstate) : kstate :=
  set_freelist (hd 0 l) (set_mem (memset s.(k_mem) p 5 PGSIZE) (touch s)).
Definition kfree_post (p : Z) (s : kstate) : kstate :=
  set_freelist p
    (set_mem (store64 (memset s.(k_mem) p 1 PGSIZE) p s.(k_freelist)) (touch s)).

(** ** Lemmas *)
Context {L : KernelLayout I}.

Lemma kend_pos : 0x80000000 < kend < PHYSTOP.
Proof.
  pose proof tramp_range as H1. pose proof kend_range as H2.
  unfold KERNBASE, PGSIZE in *. lia.
Qed.

Lemma page_ok_pos p : page_ok p -> 0x80000000 < p /\ p + PGSIZE <= PHYSTOP.
Proof.
  intros [Ha Hr]. pose proof kend_pos. split; [lia|].
  change PHYSTOP with (34816 * PGSIZE * 16) in *. unfold PGSIZE in *.
  pose proof (Z.div_mod p 4096). lia.
Qed.

Lemma page_ok_nz p : page_ok p -> p <> 0.
Proof. intros H%page_ok_pos. lia. Qed.

(** Distinct pages do not overlap. *)
Lemma pages_disjoint p q x :
  p mod PGSIZE = 0 -> q mod PGSIZE = 0 -> p <> q -> in_page p x -> ~ in_page q x.
Proof.
  unfold in_page, PGSIZE. intros Hp Hq Hne Hx Hy.
  pose proof (Z.div_mod p 4096). pose proof (Z.div_mod q 4096). lia.
Qed.

Lemma flist_ext m m' h l :
  (forall p x, p ∈ l -> in_page p x -> load8 m' x = load8 m x) -> flist m h l -> flist m' h l.
Proof.
  revert h. induction l as [|p l IH]; intros h Hm; simpl; [done|].
  intros (-> & Hp & Hl). split_and!; [done|done|].
  rewrite (load64_ext m m').
  - apply IH; [|done]. intros q x Hq. apply Hm. set_solver.
  - intros x Hx. apply (Hm p); [set_solver|]. unfold in_page, PGSIZE. lia.
Qed.

Lemma flist_pages m h l p : flist m h l -> p ∈ l -> page_ok p.
Proof.
  revert h. induction l as [|q l IH]; intros h; simpl; [set_solver|].
  intros (_ & Hq & Hl) [->|Hp]%elem_of_cons; eauto.
Qed.

Lemma flist_head m h l : flist m h l -> h = hd 0 l.
Proof. destruct l; simpl; [done|]. by intros [-> _]. Qed.

Lemma flist_next m p l : flist m p (p :: l) -> load64 m p = hd 0 l.
Proof. intros (_ & _ & H). by apply flist_head in H. Qed.

(** Writes outside the free pages keep the free list. *)
Lemma flist_changed m m' h l P :
  changed_in P m m' -> (forall p x, p ∈ l -> in_page p x -> ~ P x) -> flist m h l -> flist m' h l.
Proof. intros Hc HP. apply flist_ext. intros p x Hp Hx. apply Hc. eauto. Qed.

Lemma memset_page_changed m p c : changed_in (in_page p) m (memset m p c PGSIZE).
Proof.
  intros x Hx. rewrite load8_memset by done. rewrite decide_False; [done|].
  unfold in_page in Hx. done.
Qed.

Lemma kmem_rep_touch s l : kmem_rep s l -> kmem_rep (touch s) l.
Proof. intros [? ? ? ?]. split; try done. Qed.

(** The allocator's representation is kept by updates elsewhere. *)
Lemma kmem_rep_changed s s' l P :
  kmem_rep s l -> changed_in P s.(k_mem) s'.(k_mem) ->
  (forall p x, p ∈ l -> in_page p x -> ~ P x) ->
  s'.(k_freelist) = s.(k_freelist) -> s'.(k_locks) = s.(k_locks) -> s'.(k_hart) = s.(k_hart) ->
  kmem_rep s' l.
Proof.
  intros [H1 H2 H3 H4] Hc HP Hf Hl Hh. split; [|done|by rewrite Hl|by rewrite Hh].
  rewrite Hf. by eapply flist_changed.
Qed.

Lemma kalloc_empty s : kmem_rep s [] -> kalloc s = Ret 0 (touch s).
Proof.
  intros [Hl _ Hk Hh]. simpl in Hl. unfold kalloc.
  erewrite bind_Ret by (by apply acquire_free). unfold acquired. ksimpl. rewrite Hl.
  change (cbool 0) with false. ksimpl. erewrite (release_acquired s) by done. done.
Qed.

Lemma kalloc_cons s p l : kmem_rep s (p :: l) -> kalloc s = Ret p (kalloc_post p l s).
Proof.
  intros [Hl _ Hk Hh]. pose proof Hl as Hl'. destruct Hl as (Hf & Hp & _). unfold kalloc.
  erewrite bind_Ret by (by apply acquire_free). unfold acquired. ksimpl. rewrite Hf in *.
  rewrite cbool_true by (by apply page_ok_nz). ksimpl. erewrite (release_acquired s) by done.
  unfold set_memory. ksimpl. rewrite (flist_next _ _ l) by done. done.
Qed.

Lemma kalloc_post_rep s p l : kmem_rep s (p :: l) -> kmem_rep (kalloc_post p l s) l.
Proof.
  intros [Hl Hnd Hk Hh]. pose proof Hl as Hall. destruct Hl as (Hf & Hp & Hl).
  apply NoDup_cons in Hnd as [Hnin Hnd].
  split; [|done|done|by apply hart_norm_ok].
  unfold kalloc_post. ksimpl. rewrite <- (flist_head _ _ _ Hl).
  eapply flist_changed; [apply memset_page_changed| |exact Hl].
  intros q x Hq Hx. apply (pages_disjoint q p x); try done.
  - eapply flist_pages; [exact Hl|done].
  - apply Hp.
  - intros ->. done.
Qed.

Lemma kfree_ok s pa l :
  kmem_rep s l -> page_ok pa -> kfree pa s = Ret tt (kfree_post pa s).
Proof.
  intros [Hl Hnd Hk Hh] [Ha Hr]. unfold kfree. rewrite Ha.
  rewrite (proj2 (Z.ltb_ge pa kend)) by lia.
  replace (pa >=? PHYSTOP) with false by (symmetry; rewrite Z.geb_leb; apply Z.leb_gt; lia).
  change (0 =? 0) with true. ksimpl. unfold set_memory. ksimpl.
  rewrite acquire_free by done. ksimpl. unfold acquired. ksimpl.
  erewrite (release_acquired s) by done. done.
Qed.

Lemma kfree_post_rep s pa l :
  kmem_rep s l -> page_ok pa -> pa ∉ l -> kmem_rep (kfree_post pa s) (pa :: l).
Proof.
  intros [Hl Hnd Hk Hh] Hp Hnin.
  split; [|by constructor|done|by apply hart_norm_ok].
  unfold kfree_post. ksimpl. split_and!; [done|done|].
  rewrite load64_store64. unfold u64.
  assert (flist (store64 (memset (k_mem s) pa 1 PGSIZE) pa (k_freelist s)) (k_freelist s) l) as Hl'.
  { eapply (flist_changed _ _ _ _ (in_page pa)); [|intros q x Hq Hx; apply (pages_disjoint q pa x)|exact Hl]; try done.
    - eapply changed_in_trans; [apply memset_page_changed|].
      eapply changed_in_mono; [|apply changed_in_store64]. unfold in_page, PGSIZE. intros x Hx. cbv beta in Hx. lia.
    - eapply flist_pages; [exact Hl|done].
    - apply Hp.
    - intros ->. done. }
  rewrite Z.mod_small; [done|]. rewrite (flist_head _ _ _ Hl).
  destruct l as [|q l]; simpl; [lia|].
  pose proof (page_ok_pos q) as Hq. destruct Hq as [? Hq]; [by eapply flist_pages; [exact Hl|set_solver]|].
  unfold PGSIZE in Hq. change PHYSTOP with 0x88000000 in Hq. lia.
Qed.

Lemma kalloc_post_changed p l s :
  changed_in (in_page p) s.(k_mem) (kalloc_post p l s).(k_mem).
Proof. apply memset_page_changed. Qed.

Lemma kfree_post_changed p s :
  changed_in (in_page p) s.(k_mem) (kfree_post p s).(k_mem).
Proof.
  unfold kfree_post. ksimpl. eapply changed_in_trans; [apply memset_page_changed|].
  eapply changed_in_mono; [|apply changed_in_store64]. unfold in_page, PGSIZE. intros x Hx. cbv beta in Hx. lia.
Qed.

Definition pages_from (p : Z) (n : nat) : list Z := (fun i => p + i * PGSIZE) <$> zrange 0 n.

Lemma elem_of_pages_from p n q :
  q ∈ pages_from p n <-> exists i, 0 <= i < Z.of_nat n /\ q = p + i * PGSIZE.
Proof.
  unfold pages_from. rewrite list_elem_of_fmap.
  setoid_rewrite elem_of_zrange. split; intros (i & ? & ?); exists i; split; try done; lia.
Qed.

Lemma pages_from_S p n : pages_from p (S n) = p :: pages_from (p + PGSIZE) n.
Proof.
  unfold pages_from. simpl. f_equal; [lia|].
  assert (forall a b, (fun i => p + i * PGSIZE) <$> zrange (a + 1) b
                      = (fun i => p + PGSIZE + i * PGSIZE) <$> zrange a b) as H; [|apply (H 0)].
  intros a b; revert a; induction b as [|b IH]; intros a; simpl; [done|].
  f_equal; [lia|apply IH].
Qed.

Lemma freerange_loop_ok n p pa_end s l :
  kmem_rep s l ->
  (forall q, q ∈ pages_from p n -> page_ok q /\ q ∉ l) ->
  p + Z.of_nat n * PGSIZE <= pa_end < p + (Z.of_nat n + 1) * PGSIZE ->
  exists s', freerange_loop n p pa_end s = Ret tt s' /\ kmem_rep s' (rev (pages_from p n) ++ l).
Proof.
  revert p s l. induction n as [|n IH]; intros p s l Hrep Hpg Hend.
  - simpl. unfold PGSIZE in *. rewrite (proj2 (Z.leb_gt _ _)) by lia. eexists. split; [done|]. done.
  - cbn [freerange_loop]. rewrite (proj2 (Z.leb_le _ _)) by (unfold PGSIZE in *; lia).
    rewrite pages_from_S in *. destruct (Hpg p ltac:(set_solver)) as [Hp Hnin].
    erewrite bind_Ret by (by eapply kfree_ok).
    destruct (IH (p + PGSIZE) (kfree_post p s) (p :: l)) as (s' & Hs' & Hrep').
    + by apply kfree_post_rep.
    + intros q Hq. destruct (Hpg q) as [? ?]; [set_solver|]. split; [done|].
      apply not_elem_of_cons. split; [|done]. intros ->.
      apply elem_of_pages_from in Hq as (i & Hi & Hq). unfold PGSIZE in Hq. lia.
    + unfold PGSIZE in *. lia.
    + exists s'. split; [done|]. cbn [rev]. rewrite <- app_assoc. done.
Qed.

(** ** Properties *)

(** [C37] The allocator is a stack of pages. In a state that represents the
    free pages [l], [kalloc] returns 0 exactly when [l] is empty and otherwise
    pops its head; [kfree] of a page of RAM that is not free pushes it. Both
    keep the free list well formed and duplicate-free, touch no byte outside
    the page they move, and leave the lock free. *)
Theorem kalloc_kfree_stack s l :
  kmem_rep s l ->
  (match l with
   | [] => kalloc s = Ret 0 (touch s) /\ kmem_rep (touch s) []
   | p :: l' => exists s', kalloc s = Ret p s' /\ kmem_rep s' l' /\ page_ok p /\ p ∉ l' /\
                  changed_in (in_page p) s.(k_mem) s'.(k_mem)
   end) /\
  (forall p, page_ok p -> p ∉ l ->
     exists s', kfree p s = Ret tt s' /\ kmem_rep s' (p :: l) /\
       changed_in (in_page p) s.(k_mem) s'.(k_mem)).
Proof.
  intros Hrep. split.
  - destruct l as [|p l].
    + split; [by apply kalloc_empty|by apply kmem_rep_touch].
    + exists (kalloc_post p l s). split_and!.
      * by apply kalloc_cons.
      * by apply kalloc_post_rep.
      * eapply flist_pages; [apply Hrep|set_solver].
      * pose proof (rep_nodup _ _ Hrep) as Hnd. by apply NoDup_cons in Hnd as [? _].
      * apply kalloc_post_changed.
  - intros p Hp Hnin. exists (kfree_post p s). split_and!.
    + by eapply kfree_ok.
    + by apply kfree_post_rep.
    + apply kfree_post_changed.
Qed.

(** [kfree] panics on an address that is not the start of a page between
    [end] and [PHYSTOP], whatever the state. *)
Theorem kfree_panics pa s : ~ page_ok pa -> kfree pa s = Panic "kfree".
Proof.
  intros Hn. unfold kfree.
  destruct (Z.eqb_spec (pa mod PGSIZE) 0); [|done].
  destruct (Z.ltb_spec pa kend); [done|].
  rewrite Z.geb_leb. destruct (Z.leb_spec PHYSTOP pa); [done|].
  exfalso. apply Hn. unfold page_ok. lia.
Qed.

(** [C38] [kinit] terminates without panicking and puts every page between
    [end] and [PHYSTOP] on the free list, each exactly once, and no other. *)
Theorem kinit_frees_all s :
  hart_ok s.(k_hart) -> s.(k_freelist) = 0 ->
  exists s' l, kinit s = Ret tt s' /\ kmem_rep s' l /\ (forall p, p ∈ l <-> page_ok p).
Proof.
  intros Hh Hf. pose proof kend_pos as Hk. change PHYSTOP with 0x88000000 in Hk.
  assert (kend <= PGROUNDUP kend < kend + PGSIZE) as Hup
    by (apply PGROUNDUP_bounds; unfold PGSIZE; lia).
  pose proof (PGROUNDUP_aligned kend) as Hal. unfold PGSIZE in Hup, Hal.
  unfold kinit, initlock. rewrite (bind_Ret _ _ s tt (set_locks (delete kmem_lock (k_locks s)) s)) by done.
  unfold freerange. set (p := PGROUNDUP kend) in *. clearbody p.
  set (n := Z.to_nat ((PHYSTOP - p) / PGSIZE)).
  assert (p + Z.of_nat n * 4096 = PHYSTOP) as Hn.
  { unfold n, PGSIZE. change PHYSTOP with (557056 * 4096) in *.
    pose proof (Z.div_mod p 4096 ltac:(lia)). rewrite Z2Nat.id.
    - replace (557056 * 4096 - p) with ((557056 - p / 4096) * 4096) by lia.
      rewrite Z.div_mul by lia. lia.
    - apply Z.div_pos; lia. }
  assert (forall q, q ∈ pages_from p n <-> page_ok q) as Hpg.
  { intros q. rewrite elem_of_pages_from. unfold page_ok, PGSIZE. split.
    - intros (i & Hi & ->). rewrite Z.mod_add by lia. lia.
    - intros [Hq Hr]. exists ((q - p) / 4096).
      pose proof (Z.div_mod (q - p) 4096). pose proof (Z.div_mod q 4096). pose proof (Z.div_mod p 4096).
      assert ((q - p) mod 4096 = 0) by (rewrite Zminus_mod, Hq, Hal; done).
      split; [split|]; lia. }
  destruct (freerange_loop_ok n p PHYSTOP (set_locks (delete kmem_lock (k_locks s)) s) [])
    as (s' & Hr & Hrep).
  - split; ksimpl; [by rewrite Hf|constructor|apply lookup_delete_eq|done].
  - intros q Hq. split; [by apply Hpg|apply not_elem_of_nil].
  - unfold PGSIZE. lia.
  - exists s', (rev (pages_from p n) ++ []). split_and!; [done|done|].
    intros q. rewrite app_nil_r, <- Hpg, !list_elem_of_In. symmetry. apply in_rev.
Qed.

End Kalloc.

(** A concrete image, for the witnesses. *)
Definition demo_image : KernelImage :=
  {| kend := PHYSTOP - 4 * 4096; etext := KERNBASE + 8 * 4096; trampoline := KERNBASE + 7 * 4096;
     uservec := KERNBASE + 7 * 4096; userret := KERNBASE + 7 * 4096 + 156;
     kernelvec := KERNBASE + 0x5000; forkret_addr := KERNBASE + 0x1000;
     usertrap_addr := KERNBASE + 0x2000 |}.

Lemma demo_layout : KernelLayout demo_image.
Proof. split; vm_compute; repeat split; discriminate. Qed.

Definition demo_pages : list Z := [PHYSTOP - 4096; PHYSTOP - 8192; PHYSTOP - 12288; PHYSTOP - 16384].

(** The state [kinit] leaves. *)
Definition demo_state : kstate :=
  match kinit (I := demo_image) inhabitant with Ret _ s => s | _ => inhabitant end.

Lemma demo_rep : kmem_rep (I := demo_image) demo_state demo_pages.
Proof.
  split.
  - vm_compute. repeat split; discriminate.
  - apply (bool_decide_unpack _). vm_compute. done.
  - vm_compute. done.
  - split; vm_compute; discriminate.
Qed.

Lemma kinit_frees_all_witness :
  exists s' l, kinit (I := demo_image) inhabitant = Ret tt s' /\ kmem_rep (I := demo_image) s' l /\
    (forall p, p ∈ l <-> page_ok (I := demo_image) p).
Proof.
  apply (kinit_frees_all (I := demo_image) (L := demo_layout) inhabitant).
  - split; vm_compute; discriminate.
  - reflexivity.
Defined.

Lemma kalloc_kfree_stack_witness :
  exists s', kalloc demo_state = Ret (PHYSTOP - 4096) s' /\
    kmem_rep (I := demo_image) s' [PHYSTOP - 8192; PHYSTOP - 12288; PHYSTOP - 16384].
Proof.
  destruct (proj1 (kalloc_kfree_stack (I := demo_image) (L := demo_layout) demo_state demo_pages demo_rep))
    as (s' & H1 & H2 & _).
  exists s'. split; [exact H1|exact H2].
Defined.

Lemma kfree_panics_witness : kfree (I := demo_image) (PHYSTOP - 5) demo_state = Panic "kfree".
Proof. apply kfree_panics. intros [H _]. vm_compute in H. discriminate. Defined.

#[export] Hint Resolve kalloc_post_changed kfree_post_changed : xv6.
