(* ===== verification/Vm.v ===== *)
(** * Virtual memory (vm.c): definitions

    Page tables live in physical memory: a page-table page is 512 PTEs of
    eight bytes. A pointer argument that is only read or written through is
    passed as bytes: [copyout] takes the source bytes, [copyin] and
    [copyinstr] return the bytes they stored at [dst] with their status. *)

From S2P Require Import Prelude Params Mem State Spinlock CString Kalloc.

Section Vm.
Context {I : KernelImage}.

Definition read64 (a : Z) : K Z := get (fun s => load64 s.(k_mem) a).
Definition write64 (a v : Z) : K unit := set_memory (fun m => store64 m a v).

(** [walk]: the loop over the levels 2 and 1, then the address of the level-0
    PTE. Returns 0 when a page-table page is missing and cannot be made. *)
Fixpoint walk_loop (level : nat) (pagetable va : Z) (alloc : bool) : K Z :=
  match level with
  | O => ret (pagetable + 8 * PX 0 va)
  | S level' =>
      let pte := pagetable + 8 * PX (Z.of_nat level) va in
      let! v := read64 pte in
      if has v PTE_V then walk_loop level' (PTE2PA v) va alloc
      else if negb alloc then ret 0
      else
        let! pg := kalloc in
        if pg =? 0 then ret 0 else
        set_memory (fun m => memset m pg 0 PGSIZE) ;;
        write64 pte (Z.lor (PA2PTE pg) PTE_V) ;;
        walk_loop level' pg va alloc
  end.

Definition walk (pagetable va : Z) (alloc : bool) : K Z :=
  if va >=? MAXVA then panic "walk" else walk_loop 2 pagetable va alloc.

Definition walkaddr (pagetable va : Z) : K Z :=
  if va >=? MAXVA then ret 0 else
  let! pte := walk pagetable va false in
  if pte =? 0 then ret 0 else
  let! v := read64 pte in
  if negb (has v PTE_V) then ret 0 else
  if negb (has v PTE_U) then ret 0 else
  ret (PTE2PA v).

Fixpoint mappages_loop (fuel : nat) (pagetable a last pa perm : Z) : K Z :=
  match fuel with
  | O => fun _ => OutOfFuel
  | S fuel' =>
      let! pte := walk pagetable a true in
      if pte =? 0 then ret (-1) else
      let! v := read64 pte in
      if has v PTE_V then panic "mappages: remap" else
      write64 pte (Z.lor (Z.lor (PA2PTE pa) perm) PTE_V) ;;
      if a =? last then ret 0
      else mappages_loop fuel' pagetable (u64 (a + PGSIZE)) last (u64 (pa + PGSIZE)) perm
  end.

Definition mappages (pagetable va size pa perm : Z) : K Z :=
  if negb (va mod PGSIZE =? 0) then panic "mappages: va not aligned" else
  if negb (size mod PGSIZE =? 0) then panic "mappages: size not aligned" else
  if size =? 0 then panic "mappages: size" else
  mappages_loop (Z.to_nat (size / PGSIZE)) pagetable va (u64 (va + size - PGSIZE)) pa perm.

Definition kvmmap (kpgtbl va pa sz perm : Z) : K unit :=
  let! r := mappages kpgtbl va sz pa perm in
  if negb (r =? 0) then panic "kvmmap" else ret tt.

Fixpoint uvmunmap_loop (fuel : nat) (pagetable a last : Z) (do_free : bool) : K unit :=
  if a <? last then
    match fuel with
    | O => fun _ => OutOfFuel
    | S fuel' =>
        let! pte := walk pagetable a false in
        if pte =? 0 then panic "uvmunmap: walk" else
        let! v := read64 pte in
        if negb (has v PTE_V) then panic "uvmunmap: not mapped" else
        if PTE_FLAGS v =? PTE_V then panic "uvmunmap: not a leaf" else
        when do_free (kfree (PTE2PA v)) ;;
        write64 pte 0 ;;
        uvmunmap_loop fuel' pagetable (u64 (a + PGSIZE)) last do_free
    end
  else ret tt.

Definition uvmunmap (pagetable va npages : Z) (do_free : bool) : K unit :=
  if negb (va mod PGSIZE =? 0) then panic "uvmunmap: not aligned" else
  uvmunmap_loop (Z.to_nat npages) pagetable va (u64 (va + npages * PGSIZE)) do_free.

Definition uvmcreate : K Z :=
  let! pagetable := kalloc in
  if pagetable =? 0 then ret 0 else
  set_memory (fun m => memset m pagetable 0 PGSIZE) ;;
  ret pagetable.

(** [src] holds the [sz] bytes of the initial program. *)
Definition uvmfirst (pagetable : Z) (src : list Z) (sz : Z) : K unit :=
  if sz >=? PGSIZE then panic "uvmfirst: more than a page" else
  let! mem := kalloc in
  set_memory (fun m => memset m mem 0 PGSIZE) ;;
  mappages pagetable 0 PGSIZE mem (Z.lor (Z.lor (Z.lor PTE_W PTE_R) PTE_X) PTE_U) ;;
  set_memory (fun m => store_bytes m mem (take (Z.to_nat sz) src)).

Definition uvmdealloc (pagetable oldsz newsz : Z) : K Z :=
  if newsz >=? oldsz then ret oldsz else
  when (PGROUNDUP newsz <? PGROUNDUP oldsz)
    (let npages := i32 ((PGROUNDUP oldsz - PGROUNDUP newsz) / PGSIZE) in
     uvmunmap pagetable (PGROUNDUP newsz) (u64 npages) true) ;;
  ret newsz.

Fixpoint uvmalloc_loop (fuel : nat) (pagetable oldsz a newsz xperm : Z) : K Z :=
  if a <? newsz then
    match fuel with
    | O => fun _ => OutOfFuel
    | S fuel' =>
        let! mem := kalloc in
        if mem =? 0 then uvmdealloc pagetable a oldsz ;; ret 0 else
        set_memory (fun m => memset m mem 0 PGSIZE) ;;
        let! r := mappages pagetable a PGSIZE mem (Z.lor (Z.lor PTE_R PTE_U) xperm) in
        if negb (r =? 0) then kfree mem ;; uvmdealloc pagetable a oldsz ;; ret 0 else
        uvmalloc_loop fuel' pagetable oldsz (u64 (a + PGSIZE)) newsz xperm
    end
  else ret newsz.

Definition uvmalloc (pagetable oldsz newsz xperm : Z) : K Z :=
  if newsz <? oldsz then ret oldsz else
  let oldsz := PGROUNDUP oldsz in
  uvmalloc_loop (Z.to_nat ((newsz - oldsz) / PGSIZE + 1)) pagetable oldsz oldsz newsz xperm.

(** [freewalk]; the first argument bounds the depth of the recursion, which
    is the number of levels of the table. *)
Fixpoint freewalk (depth : nat) (pagetable : Z) : K unit :=
  match depth with
  | O => fun _ => OutOfFuel
  | S depth' =>
      for_each (zrange 0 512) (fun i =>
        let! pte := read64 (pagetable + 8 * i) in
        if has pte PTE_V && negb (has pte (Z.lor (Z.lor PTE_R PTE_W) PTE_X)) then
          freewalk depth' (PTE2PA pte) ;;
          write64 (pagetable + 8 * i) 0
        else if has pte PTE_V then panic "freewalk: leaf"
        else ret tt) ;;
      kfree pagetable
  end.

Definition uvmfree (pagetable sz : Z) : K unit :=
  when (sz >? 0) (uvmunmap pagetable 0 (PGROUNDUP sz / PGSIZE) true) ;;
  freewalk 3 pagetable.

Fixpoint uvmcopy_loop (fuel : nat) (old new i sz : Z) : K Z :=
  if i <? sz then
    match fuel with
    | O => fun _ => OutOfFuel
    | S fuel' =>
        let! pte := walk old i false in
        if pte =? 0 then panic "uvmcopy: pte should exist" else
        let! v := read64 pte in
        if negb (has v PTE_V) then panic "uvmcopy: page not present" else
        let pa := PTE2PA v in
        let flags := PTE_FLAGS v in
        let! mem := kalloc in
        if mem =? 0 then uvmunmap new 0 (i / PGSIZE) true ;; ret (-1) else
        set_memory (fun m => memmove m mem pa PGSIZE) ;;
        let! r := mappages new i PGSIZE mem flags in
        if negb (r =? 0) then kfree mem ;; uvmunmap new 0 (i / PGSIZE) true ;; ret (-1) else
        uvmcopy_loop fuel' old new (u64 (i + PGSIZE)) sz
    end
  else ret 0.

Definition uvmcopy (old new sz : Z) : K Z :=
  uvmcopy_loop (Z.to_nat (sz / PGSIZE + 1)) old new 0 sz.

Definition uvmclear (pagetable va : Z) : K unit :=
  let! pte := walk pagetable va false in
  if pte =? 0 then panic "uvmclear" else
  let! v := read64 pte in
  write64 pte (Z.land v (Z.lnot PTE_U)).

(** [copyout]: the argument [src] holds the [len] bytes still to copy. *)
Fixpoint copyout_loop (fuel : nat) (pagetable dstva : Z) (src : list Z) : K Z :=
  if Z.of_nat (length src) >? 0 then
    match fuel with
    | O => fun _ => OutOfFuel
    | S fuel' =>
        let va0 := PGROUNDDOWN dstva in
        if va0 >=? MAXVA then ret (-1) else
        let! pte := walk pagetable va0 false in
        if pte =? 0 then ret (-1) else
        let! v := read64 pte in
        if negb (has v PTE_V) || negb (has v PTE_U) || negb (has v PTE_W) then ret (-1) else
        let pa0 := PTE2PA v in
        let n := Z.min (PGSIZE - (dstva - va0)) (Z.of_nat (length src)) in
        set_memory (fun m => store_bytes m (pa0 + (dstva - va0)) (take (Z.to_nat n) src)) ;;
        copyout_loop fuel' pagetable (u64 (va0 + PGSIZE)) (drop (Z.to_nat n) src)
    end
  else ret 0.

Definition copyout (pagetable dstva : Z) (src : list Z) : K Z :=
  copyout_loop (length src) pagetable dstva src.

(** [copyin]: the status and the bytes stored at [dst]. *)
Fixpoint copyin_loop (fuel : nat) (pagetable srcva len : Z) (dst : list Z) : K (Z * list Z) :=
  if len >? 0 then
    match fuel with
    | O => fun _ => OutOfFuel
    | S fuel' =>
        let va0 := PGROUNDDOWN srcva in
        let! pa0 := walkaddr pagetable va0 in
        if pa0 =? 0 then ret (-1, dst) else
        let n := Z.min (PGSIZE - (srcva - va0)) len in
        let! bs := get (fun s => load_bytes s.(k_mem) (pa0 + (srcva - va0)) (Z.to_nat n)) in
        copyin_loop fuel' pagetable (u64 (va0 + PGSIZE)) (len - n) (dst ++ bs)
    end
  else ret (0, dst).

Definition copyin (pagetable srcva len : Z) : K (Z * list Z) :=
  copyin_loop (Z.to_nat len) pagetable srcva len [].

(** The inner loop of [copyinstr]: the bytes stored, and whether a NUL was found. *)
Fixpoint copyinstr_page (n : nat) (m : memory) (p : Z) : list Z * bool :=
  match n with
  | O => ([], false)
  | S n' =>
      if load8 m p =? 0 then ([0], true)
      else let '(bs, got_null) := copyinstr_page n' m (p + 1) in (load8 m p :: bs, got_null)
  end.

Fixpoint copyinstr_loop (fuel : nat) (pagetable srcva max : Z) (dst : list Z) : K (Z * list Z) :=
  if max >? 0 then
    match fuel with
    | O => fun _ => OutOfFuel
    | S fuel' =>
        let va0 := PGROUNDDOWN srcva in
        let! pa0 := walkaddr pagetable va0 in
        if pa0 =? 0 then ret (-1, dst) else
        let n := Z.min (PGSIZE - (srcva - va0)) max in
        let! r := get (fun s => copyinstr_page (Z.to_nat n) s.(k_mem) (pa0 + (srcva - va0))) in
        if (snd r : bool) then ret (0, dst ++ fst r)
        else copyinstr_loop fuel' pagetable (u64 (va0 + PGSIZE)) (max - n) (dst ++ fst r)
    end
  else ret (-1, dst).

Definition copyinstr (pagetable srcva max : Z) : K (Z * list Z) :=
  copyinstr_loop (Z.to_nat max) pagetable srcva max [].

(** [proc_mapstacks] (proc.c), called by [kvmmake]. *)
Definition proc_mapstacks (kpgtbl : Z) : K unit :=
  for_each (zrange 0 (Z.to_nat NPROC)) (fun p =>
    let! pa := kalloc in
    if pa =? 0 then panic "kalloc" else
    kvmmap kpgtbl (KSTACK p) pa PGSIZE (Z.lor PTE_R PTE_W)).

Definition kvmmake : K Z :=
  let! kpgtbl := kalloc in
  set_memory (fun m => memset m kpgtbl 0 PGSIZE) ;;
  (* uart registers *)
  kvmmap kpgtbl UART0 UART0 PGSIZE (Z.lor PTE_R PTE_W) ;;
  (* virtio mmio disk interface *)
  kvmmap kpgtbl VIRTIO0 VIRTIO0 PGSIZE (Z.lor PTE_R PTE_W) ;;
  (* PLIC *)
  kvmmap kpgtbl PLIC PLIC 0x4000000 (Z.lor PTE_R PTE_W) ;;
  (* map kernel text executable and read-only. *)
  kvmmap kpgtbl KERNBASE KERNBASE (etext - KERNBASE) (Z.lor PTE_R PTE_X) ;;
  (* map kernel data and the physical RAM we'll make use of. *)
  kvmmap kpgtbl etext etext (PHYSTOP - etext) (Z.lor PTE_R PTE_W) ;;
  (* map the trampoline for trap entry/exit *)
  kvmmap kpgtbl TRAMPOLINE trampoline PGSIZE (Z.lor PTE_R PTE_X) ;;
  (* allocate and map a kernel stack for each process. *)
  proc_mapstacks kpgtbl ;;
  ret kpgtbl.

Definition kvminit : K unit :=
  let! pt := kvmmake in
  modify (set_pagetable pt).

(** [kvminithart]: the TLB flushes have no effect on the modelled state. *)
Definition kvminithart : K unit :=
  modify (fun s => upd_hart (set_satp (MAKE_SATP s.(k_pagetable))) s).

End Vm.
