(* ===== verification/PageTable.v ===== *)
(** * Page tables as trees

    The abstract view of a three-level page table in memory: the page-table
    page reached by a path of indices, the invariant that distinct paths
    reach distinct pages, and what updates of memory do to it. *)

From S2P Require Import Prelude Params Mem State Spinlock CString Kalloc Vm.

Section PageTable.
Context {I : KernelImage}.

(** The page-table page entry [i] of page [p] points to. *)
Definition child (m : memory) (p i : Z) : option Z :=
  let v := load64 m (p + 8 * i) in if has v PTE_V then Some (PTE2PA v) else None.

(** The page reached from [p] through the entries [path]. *)
Fixpoint table (m : memory) (p : Z) (path : list Z) : option Z :=
  match path with
  | [] => Some p
  | i :: path' => match child m p i with Some q => table m q path' | None => None end
  end.

(** Paths to page-table pages: at most two indices. *)
Definition path_ok (path : list Z) : Prop :=
  (length path <= 2)%nat /\ Forall (fun i => 0 <= i < 512) path.

(** The path to the level-0 page for [va], and the PTE of [va] (0 if there is
    no level-0 page). *)
Definition va_path (va : Z) : list Z := [PX 2 va; PX 1 va].
Definition slot (m : memory) (root va : Z) : option Z :=
  match table m root (va_path va) with Some p => Some (p + 8 * PX 0 va) | None => None end.
Definition pte (m : memory) (root va : Z) : Z :=
  match slot m root va with Some a => load64 m a | None => 0 end.

(** The flags of a leaf. *)
Definition PTE_RWX : Z := Z.lor (Z.lor PTE_R PTE_W) PTE_X.

(** A well-formed table: its pages are pages of RAM, and no two paths share
    one; entries that point to a table are not leaves; the entries for
    addresses from [MAXVA] up are not used. *)
Record pt_wf (m : memory) (root : Z) : Prop := {
  wf_page : forall path p, path_ok path -> table m root path = Some p -> page_ok p;
  wf_inj : forall path1 path2 p, path_ok path1 -> path_ok path2 ->
    table m root path1 = Some p -> table m root path2 = Some p -> path1 = path2;
  wf_inner : forall path p i, path_ok (path ++ [i]) -> table m root path = Some p ->
    has (load64 m (p + 8 * i)) PTE_V = true -> has (load64 m (p + 8 * i)) PTE_RWX = false;
  wf_half : forall i, 256 <= i < 512 -> child m root i = None;
}.

(** The address belongs to a page-table page. *)
Definition in_tables (m : memory) (root x : Z) : Prop :=
  exists path p, path_ok path /\ table m root path = Some p /\ in_page p x.

(** ** Lemmas *)

Lemma va_path_ok va : path_ok (va_path va).
Proof. split; [simpl; lia|]. repeat constructor; apply PX_range; lia. Qed.

Lemma path_ok_nil : path_ok [].
Proof. split; [simpl; lia|constructor]. Qed.

Lemma path_ok_snoc path i :
  path_ok (path ++ [i]) <-> path_ok path /\ (length path <= 1)%nat /\ 0 <= i < 512.
Proof.
  unfold path_ok. rewrite length_app, Forall_app, Forall_singleton. simpl.
  split; intros; destruct_and!; split_and!; try done; lia.
Qed.

Lemma table_snoc m p path i :
  table m p (path ++ [i]) = match table m p path with Some q => child m q i | None => None end.
Proof.
  revert p. induction path as [|j path IH]; intros p; simpl.
  - destruct (child m p i); done.
  - destruct (child m p j) as [q|]; [apply IH|done].
Qed.

Lemma table_prefix m p path1 path2 q :
  table m p (path1 ++ path2) = Some q -> exists r, table m p path1 = Some r /\ table m r path2 = Some q.
Proof.
  revert p. induction path1 as [|i path1 IH]; intros p; simpl; [eauto|].
  destruct (child m p i); [apply IH|done].
Qed.

(** The table at [path] depends only on the entries on the way to it. *)
Lemma table_same m m' root path :
  (forall path1 j path2 p, path = path1 ++ j :: path2 -> table m root path1 = Some p ->
     load64 m' (p + 8 * j) = load64 m (p + 8 * j)) ->
  table m' root path = table m root path.
Proof.
  induction path as [|j path IH] using rev_ind; intros H; [done|].
  rewrite !table_snoc. rewrite IH.
  - destruct (table m root path) as [p|] eqn:E; [|done].
    unfold child. by rewrite (H path j [] p).
  - intros path1 k path2 p -> Hp. apply (H path1 k (path2 ++ [j]) p); [|done].
    by rewrite <- app_assoc.
Qed.

(** The eight bytes of entry [i] of page [p]. *)
Definition in_entry (p i x : Z) : Prop := p + 8 * i <= x < p + 8 * i + 8.

Lemma in_entry_page p i x : 0 <= i < 512 -> in_entry p i x -> in_page p x.
Proof. unfold in_entry, in_page, PGSIZE. lia. Qed.

Lemma entries_disjoint p i j x : i <> j -> in_entry p i x -> ~ in_entry p j x.
Proof. unfold in_entry. lia. Qed.

Section Update.
Context (m m' : memory) (root : Z) (wf : pt_wf m root).

(** Frame: memory changes outside the page-table pages do not change the tree. *)
Lemma table_frame path :
  changed_in (fun x => ~ in_tables m root x) m m' ->
  path_ok path -> table m' root path = table m root path.
Proof.
  intros Hc Hok. apply table_same. intros path1 j path2 p -> Hp.
  destruct Hok as [Hlen Hall]. rewrite length_app in Hlen. simpl in Hlen.
  apply Forall_app in Hall as [Hall1 [Hj _]%Forall_cons].
  apply load64_ext. intros x Hx. apply Hc. intros Hn. apply Hn.
  exists path1, p. split_and!; [split; [lia|done]|done|].
  apply (in_entry_page p j x); [done|]. unfold in_entry. lia.
Qed.

Lemma slot_page va a : slot m root va = Some a -> exists p,
  table m root (va_path va) = Some p /\ page_ok p /\ a = p + 8 * PX 0 va /\ 0 <= PX 0 va < 512.
Proof.
  unfold slot. destruct (table m root (va_path va)) as [p|] eqn:E; [|done].
  intros [= <-]. exists p. split_and!; [done| |done|apply PX_range; lia|apply PX_range; lia].
  eapply wf_page; [done|apply va_path_ok|done].
Qed.

Lemma pte_frame va :
  changed_in (fun x => ~ in_tables m root x) m m' -> pte m' root va = pte m root va.
Proof.
  intros Hc. unfold pte, slot. rewrite (table_frame _ Hc (va_path_ok va)).
  destruct (table m root (va_path va)) as [p|] eqn:E; [|done].
  apply load64_ext. intros x Hx. apply Hc. intros Hn. apply Hn.
  exists (va_path va), p. split_and!; [apply va_path_ok|done|].
  eapply (in_entry_page p (PX 0 va)); [apply PX_range; lia|]. unfold in_entry. lia.
Qed.

Lemma entry_frame path p j :
  changed_in (fun x => ~ in_tables m root x) m m' ->
  path_ok path -> table m root path = Some p -> 0 <= j < 512 ->
  load64 m' (p + 8 * j) = load64 m (p + 8 * j).
Proof.
  intros Hc Hok Hp Hj. apply load64_ext. intros x Hx. apply Hc. intros Hn. apply Hn.
  exists path, p. split_and!; [done|done|]. apply (in_entry_page p j x); [done|]. unfold in_entry. lia.
Qed.

Lemma pt_wf_frame : changed_in (fun x => ~ in_tables m root x) m m' -> pt_wf m' root.
Proof.
  intros Hc. split.
  - intros path p Hok. rewrite (table_frame path Hc Hok). by apply wf_page.
  - intros path1 path2 p Hok1 Hok2. rewrite !(table_frame _ Hc) by done. by apply wf_inj.
  - intros path p i Hok. apply path_ok_snoc in Hok as Hok'. destruct Hok' as (Hok1 & _ & Hi).
    rewrite (table_frame _ Hc) by done. intros Ht. rewrite (entry_frame path) by done.
    by apply (wf_inner _ _ wf path).
  - intros i Hi. unfold child. rewrite (entry_frame []); try done; [by apply (wf_half _ _ wf)|apply path_ok_nil|lia].
Qed.

(** An update of entry [i] of the page at [path0], and of a page [q] that is
    not a page-table page, changes only the tables below that entry. *)
Context (path0 : list Z) (p0 i : Z).
Context (Hp0 : path_ok path0) (Ht0 : table m root path0 = Some p0) (Hi : 0 <= i < 512).
Context (q : Z) (Hq : forall path p x, path_ok path -> table m root path = Some p ->
                         in_page p x -> ~ in_page q x).
Context (Hc : changed_in (fun x => in_entry p0 i x \/ in_page q x) m m').

(** A page-table entry that is not the updated one reads as before. *)
Lemma entry_same path p j :
  path_ok path -> table m root path = Some p -> 0 <= j < 512 -> path <> path0 \/ j <> i ->
  load64 m' (p + 8 * j) = load64 m (p + 8 * j).
Proof using All.
  intros Hok Hp Hj Hne. apply load64_ext. intros x Hx. apply Hc.
  assert (in_entry p j x) as Hxj by done.
  pose proof (in_entry_page p j x Hj Hxj) as Hxp.
  intros [Hx0|Hxq]; [|by eapply Hq].
  destruct (decide (p = p0)) as [->|Hpp].
  - assert (path = path0) by (by eapply wf_inj). destruct Hne as [Hne|Hne]; [done|].
    by eapply entries_disjoint.
  - destruct (wf_page _ _ wf path p Hok Hp) as [Hal _].
    destruct (wf_page _ _ wf path0 p0 Hp0 Ht0) as [Hal0 _].
    apply (pages_disjoint p p0 x Hal Hal0 Hpp Hxp). by apply (in_entry_page p0 i).
Qed.

Lemma table_update path :
  path_ok path -> ~ (exists rest, path = path0 ++ i :: rest) -> table m' root path = table m root path.
Proof using All.
  intros [Hlen Hall] Hne. apply table_same. intros path1 j path2 p -> Hp.
  rewrite length_app in Hlen. simpl in Hlen.
  apply Forall_app in Hall as [Hall1 [Hj _]%Forall_cons].
  apply (entry_same path1); [split; [lia|done]|done|done|].
  destruct (decide (path1 = path0)) as [->|]; [right|by left].
  intros ->. apply Hne. by exists path2.
Qed.

(** The updated entry itself. *)
Lemma table_update_child :
  table m' root (path0 ++ [i]) = child m' p0 i.
Proof using All.
  rewrite table_snoc, table_update; [by rewrite Ht0|done|].
  intros [rest Heq]. apply (f_equal length) in Heq. rewrite length_app in Heq. simpl in Heq. lia.
Qed.

End Update.

(** ** Installing a page-table page *)

Section Grow.
Context {L : KernelLayout I}.
Context (m m' : memory) (root : Z) (wf : pt_wf m root).
Context (path0 : list Z) (p0 i : Z).
Context (Hok : path_ok (path0 ++ [i])) (Ht0 : table m root path0 = Some p0).
Context (Hnone : child m p0 i = None) (Hhalf : path0 = [] -> i < 256).
Context (q : Z) (Hqok : page_ok q).
Context (Hq : forall path, path_ok path -> table m root path <> Some q).
Context (Hc : changed_in (fun x => in_entry p0 i x \/ in_page q x) m m').
Context (Hent : load64 m' (p0 + 8 * i) = Z.lor (PA2PTE q) PTE_V).
Context (Hzero : forall x, in_page q x -> load8 m' x = 0).

Lemma fresh_page path p x :
  path_ok path -> table m root path = Some p -> in_page p x -> ~ in_page q x.
Proof using wf Hqok Hq.
  intros Hp Ht. apply pages_disjoint.
  - by eapply (wf_page _ _ wf).
  - apply Hqok.
  - intros ->. by eapply Hq.
Qed.

Lemma page_ok_pte p : page_ok p -> 0 <= p < 2 ^ 56 /\ p mod PGSIZE = 0.
Proof using L. intros Hp. pose proof (page_ok_pos p Hp) as [??]. destruct Hp as [? _].
  unfold PGSIZE in *. change PHYSTOP with 0x88000000 in *. lia. Qed.

Lemma child_new : child m' p0 i = Some q.
Proof using L Hent Hqok.
  unfold child. rewrite Hent. destruct (page_ok_pte q Hqok).
  destruct (PTE_roundtrip q PTE_V) as [E1 E2]; [done|done|done|].
  rewrite <- has_flags, E2, E1 by done. done.
Qed.

Lemma child_zero j : 0 <= j < 512 -> child m' q j = None.
Proof using Hzero.
  intros Hj. unfold child. rewrite load64_zero; [done|].
  intros x Hx. apply Hzero. unfold in_page, PGSIZE. lia.
Qed.

Lemma table_grow path p :
  path_ok path ->
  table m' root path = Some p <-> table m root path = Some p \/ (path = path0 ++ [i] /\ p = q).
Proof using All.
  intros Hp. apply path_ok_snoc in Hok as Hok'. destruct Hok' as (Hok0 & Hlen & Hi).
  pose proof (table_update m m' root wf path0 p0 i Hok0 Ht0 Hi q fresh_page Hc) as Hupd.
  pose proof (table_update_child m m' root wf path0 p0 i Hok0 Ht0 Hi q fresh_page Hc) as Hchild.
  rewrite child_new in Hchild.
  destruct (decide (take (length path0 + 1) path = path0 ++ [i])) as [Hpre|Hpre].
  - assert (exists rest, path = path0 ++ [i] ++ rest) as [rest ->].
    { exists (drop (length path0 + 1) path). rewrite app_assoc, <- Hpre. by rewrite take_drop. }
    assert (table m root (path0 ++ [i] ++ rest) = None) as ->.
    { destruct (table m root (path0 ++ [i] ++ rest)) as [r|] eqn:E; [|done].
      rewrite app_assoc in E. apply table_prefix in E as (r' & E & _).
      rewrite table_snoc, Ht0, Hnone in E. done. }
    destruct rest as [|j rest].
    + rewrite app_nil_r, Hchild. split; [intros [= ->]; by right|by intros [|[_ ->]]].
    + rewrite app_assoc. destruct Hp as [Hl Hall]. rewrite !length_app in Hl. simpl in Hl.
      assert (rest = []) as -> by (destruct rest; [done|simpl in Hl; lia]).
      rewrite !Forall_app, Forall_singleton in Hall. destruct Hall as (_ & _ & Hj%Forall_cons).
      rewrite table_snoc, Hchild, child_zero by apply Hj.
      split; [done|]. intros [|[Heq _]]; [done|].
      apply (f_equal length) in Heq. rewrite !length_app in Heq. simpl in Heq. lia.
  - rewrite Hupd; [|done|].
    + split; [by left|]. intros [|[-> _]]; [done|]. exfalso. apply Hpre.
      rewrite take_ge; [done|]. rewrite length_app. simpl. lia.
    + intros [rest ->]. apply Hpre.
      replace (path0 ++ i :: rest) with ((path0 ++ [i]) ++ rest) by (by rewrite <- app_assoc).
      rewrite take_app_le by (rewrite length_app; simpl; lia).
      apply take_ge. rewrite length_app. simpl. lia.
Qed.

Lemma entry_grow path p j :
  path_ok path -> table m root path = Some p -> 0 <= j < 512 ->
  load64 m' (p + 8 * j) = load64 m (p + 8 * j) \/ (path = path0 /\ p = p0 /\ j = i).
Proof using wf Hok Ht0 Hqok Hq Hc.
  intros Hp Ht Hj. apply path_ok_snoc in Hok as Hok'. destruct Hok' as (Hok0 & Hlen & Hi).
  destruct (decide (path = path0)) as [->|Hne].
  - destruct (decide (j = i)) as [->|Hne]; [right; split_and!; [done|congruence|done]|left].
    apply (entry_same m m' root wf path0 p0 i Hok0 Ht0 Hi q fresh_page Hc path0); auto.
  - left. apply (entry_same m m' root wf path0 p0 i Hok0 Ht0 Hi q fresh_page Hc path); auto.
Qed.

Lemma pt_wf_grow : pt_wf m' root.
Proof using All.
  split.
  3:{ intros path p j Hp. apply path_ok_snoc in Hp as Hp'. destruct Hp' as (Hp1 & _ & Hj).
      intros [Ht|[-> ->]]%table_grow; [| |done].
      - destruct (entry_grow path p j Hp1 Ht Hj) as [->|(-> & -> & ->)]; [by apply (wf_inner _ _ wf path)|].
        intros _. rewrite Hent. destruct (page_ok_pte q Hqok).
        destruct (PTE_roundtrip q PTE_V) as [_ E]; [done|done|done|]. rewrite <- has_flags, E by done. done.
      - pose proof (child_zero j Hj) as Hz. unfold child in Hz. intros HV. by rewrite HV in Hz. }
  3:{ intros j Hj. unfold child.
      destruct (entry_grow [] root j path_ok_nil eq_refl ltac:(lia)) as [->|(E & -> & ->)];
        [by apply (wf_half _ _ wf)|]. specialize (Hhalf (eq_sym E)). lia. }
  - intros path p Hp [H|[_ ->]]%table_grow; [by eapply (wf_page _ _ wf)|done|done].
  - intros path1 path2 p Hp1 Hp2 [H1|[-> E1]]%table_grow [H2|[-> E2]]%table_grow; try done.
    + by eapply (wf_inj _ _ wf).
    + exfalso. apply (Hq path1); congruence.
    + exfalso. apply (Hq path2); congruence.
Qed.

Lemma pte_grow va : pte m' root va = pte m root va.
Proof using All.
  apply path_ok_snoc in Hok as Hok'. destruct Hok' as (Hok0 & Hlen & Hi).
  pose proof (PX_range 0 va ltac:(lia)) as Hpx.
  unfold pte, slot. destruct (table m' root (va_path va)) as [p|] eqn:E.
  - apply table_grow in E as [E|[Epath ->]]; [| |apply va_path_ok].
    + rewrite E. eapply (entry_same m m' root wf path0 p0 i Hok0 Ht0 Hi q fresh_page Hc);
        [apply va_path_ok|done|done|]. left. intros <-. simpl in Hlen. lia.
    + destruct (table m root (va_path va)) as [p|] eqn:E'.
      { exfalso. assert (table m' root (va_path va) = Some p) as E2
          by (apply table_grow; [apply va_path_ok|by left]).
        rewrite Epath, table_snoc, Ht0, Hnone in E'. done. }
      apply load64_zero. intros x Hx. apply Hzero. unfold in_page, PGSIZE. lia.
  - destruct (table m root (va_path va)) as [p|] eqn:E'; [|done].
    assert (table m' root (va_path va) = Some p) by (apply table_grow; [apply va_path_ok|by left]).
    congruence.
Qed.

End Grow.

(** ** Updating a leaf PTE *)

(** The PTE of [va] is the one of [va0]. *)
Definition same_px (va va0 : Z) : Prop :=
  PX 2 va = PX 2 va0 /\ PX 1 va = PX 1 va0 /\ PX 0 va = PX 0 va0.

Section Leaf.
Context {L : KernelLayout I}.
Context (m m' : memory) (root : Z) (wf : pt_wf m root) (va0 a : Z).
Context (Ha : slot m root va0 = Some a).
Context (Hc : changed_in (fun x => a <= x < a + 8) m m').

Lemma leaf_path : exists p0, table m root (va_path va0) = Some p0 /\ page_ok p0 /\
  a = p0 + 8 * PX 0 va0 /\ 0 <= PX 0 va0 < 512 /\
  changed_in (fun x => in_entry p0 (PX 0 va0) x \/ in_page (- PGSIZE) x) m m'.
Proof using Ha Hc wf.
  destruct (slot_page m root wf va0 a Ha) as (p0 & Ht & Hp & -> & Hpx).
  exists p0. split_and!; try done; try lia. eapply changed_in_mono, Hc.
  intros x Hx. left. exact Hx.
Qed.

Lemma no_neg_page path p x :
  path_ok path -> table m root path = Some p -> in_page p x -> ~ in_page (- PGSIZE) x.
Proof using wf L.
  intros Hp Ht Hx. pose proof (page_ok_pos p (wf_page _ _ wf path p Hp Ht)) as [? _].
  unfold in_page, PGSIZE in *. lia.
Qed.

Lemma table_leaf path : path_ok path -> table m' root path = table m root path.
Proof using All.
  intros Hp. destruct leaf_path as (p0 & Ht & Hp0 & -> & Hpx & Hc').
  apply (table_update m m' root wf (va_path va0) p0 (PX 0 va0) (va_path_ok va0) Ht Hpx
           (- PGSIZE) no_neg_page Hc'); [done|].
  intros [rest ->]. destruct Hp as [Hl _]. rewrite length_app in Hl. simpl in Hl. lia.
Qed.

Lemma inner_leaf path p j :
  (length path <= 1)%nat -> path_ok path -> table m root path = Some p -> 0 <= j < 512 ->
  load64 m' (p + 8 * j) = load64 m (p + 8 * j).
Proof using All.
  intros Hlen Hp Ht Hj. destruct leaf_path as (p0 & Ht0 & Hp0 & -> & Hpx & Hc').
  apply (entry_same m m' root wf (va_path va0) p0 (PX 0 va0) (va_path_ok va0) Ht0 Hpx
           (- PGSIZE) no_neg_page Hc' path); try done.
  left. intros ->. simpl in Hlen. lia.
Qed.

Lemma pt_wf_leaf : pt_wf m' root.
Proof using All.
  split; intros *.
  - intros Hp. rewrite table_leaf by done. by apply wf_page.
  - intros Hp1 Hp2. rewrite !table_leaf by done. by apply wf_inj.
  - intros Hp. apply path_ok_snoc in Hp as Hp'. destruct Hp' as (Hp1 & Hlen & Hj).
    rewrite table_leaf by done. intros Ht. rewrite (inner_leaf path) by done. by apply (wf_inner _ _ wf path).
  - intros Hj. unfold child. rewrite (inner_leaf []); [by apply (wf_half _ _ wf)|simpl; lia|apply path_ok_nil|done|lia].
Qed.

Lemma slot_leaf va : slot m' root va = slot m root va.
Proof using All. unfold slot. by rewrite table_leaf by apply va_path_ok. Qed.

Lemma pte_leaf va : same_px va va0 -> pte m' root va = load64 m' a.
Proof using All.
  intros (E2 & E1 & E0). unfold pte. rewrite slot_leaf.
  unfold slot, va_path in *. rewrite E2, E1, E0. by rewrite Ha.
Qed.

Lemma pte_leaf_ne va : ~ same_px va va0 -> pte m' root va = pte m root va.
Proof using All.
  intros Hne. unfold pte. rewrite slot_leaf.
  unfold slot. destruct (table m root (va_path va)) as [p|] eqn:E; [|done].
  destruct leaf_path as (p0 & Ht & Hp0 & _ & Hpx & Hc').
  apply (entry_same m m' root wf (va_path va0) p0 (PX 0 va0) (va_path_ok va0) Ht Hpx
           (- PGSIZE) no_neg_page Hc' (va_path va)); [apply va_path_ok|done|apply PX_range; lia|].
  destruct (decide (va_path va = va_path va0)) as [Heq|]; [right|by left].
  intros E0. apply Hne. unfold va_path in Heq. injection Heq as ??. done.
Qed.

End Leaf.

Lemma same_px_aligned va va0 :
  va mod PGSIZE = 0 -> va0 mod PGSIZE = 0 -> 0 <= va < MAXVA -> 0 <= va0 < MAXVA ->
  same_px va va0 -> va = va0.
Proof. intros ???? (?&?&?). by apply PX_page. Qed.

End PageTable.
