(* ===== verification/VmSpec.v ===== *)
(** * Virtual memory (vm.c): correctness

    What [walk] and [mappages] do to a page table and to the free pages, the
    invariant of a user address space, and the theorems on the operations of
    vm.c. *)

From S2P Require Import Prelude Params Mem State Spinlock CString Kalloc Vm PageTable.

Section VmSpec.
Context {I : KernelImage} {L : KernelLayout I}.

(** [s'] differs from [s] in memory, in the free list, and in [c_intena]
    (which only matters while the hart is inside a [push_off]). *)
Definition frame (s s' : kstate) : Prop :=
  touch s' = set_mem s'.(k_mem) (set_freelist s'.(k_freelist) (touch s)).

(** The page is a page-table page of [root]. *)
Definition is_table (m : memory) (root p : Z) : Prop :=
  exists path, path_ok path /\ table m root path = Some p.

(** A page table next to the free pages [l]. *)
Record vm_rep (s : kstate) (root : Z) (l : list Z) : Prop := {
  vr_kmem : kmem_rep s l;
  vr_wf : pt_wf s.(k_mem) root;
  vr_free : forall p, is_table s.(k_mem) root p -> p ∉ l;
}.

(** A step in which the table at most grows, by pages taken from the front of
    the free list, and which changes no other page. *)
Record vm_step (root : Z) (s : kstate) (l : list Z) (s' : kstate) (l' : list Z) : Prop := {
  vg_rep : vm_rep s' root l';
  vg_frame : frame s s';
  vg_suffix : exists used, l = used ++ l' /\
    (forall p, is_table s'.(k_mem) root p <-> is_table s.(k_mem) root p \/ p ∈ used) /\
    changed_in (fun x => in_tables s.(k_mem) root x \/ exists p, p ∈ used /\ in_page p x)
      s.(k_mem) s'.(k_mem);
  vg_table : forall path p, path_ok path -> table s.(k_mem) root path = Some p ->
    table s'.(k_mem) root path = Some p;
}.

(** A step that changes no PTE. *)
Definition vm_grow (root : Z) (s : kstate) (l : list Z) (s' : kstate) (l' : list Z) : Prop :=
  vm_step root s l s' l' /\ forall va, pte s'.(k_mem) root va = pte s.(k_mem) root va.

(** ** Frames *)

Lemma frame_refl s : frame s s.
Proof. reflexivity. Qed.

Lemma frame_trans s1 s2 s3 : frame s1 s2 -> frame s2 s3 -> frame s1 s3.
Proof. unfold frame. intros H1 H2. rewrite H2, H1. reflexivity. Qed.

Lemma frame_touch s : frame s (touch s).
Proof. unfold frame. by rewrite touch_idem. Qed.

Lemma frame_set_mem m s : frame s (set_mem m s).
Proof. reflexivity. Qed.

Lemma frame_upd a m s : frame s (set_freelist a (set_mem m (touch s))).
Proof.
  unfold frame. change (touch (set_freelist a (set_mem m (touch s))))
    with (set_freelist a (set_mem m (touch (touch s)))). by rewrite touch_idem.
Qed.

Lemma frame_kalloc p l s : frame s (kalloc_post p l s).
Proof. apply frame_upd. Qed.

Lemma frame_kfree p s : frame s (kfree_post p s).
Proof. apply frame_upd. Qed.

Hint Resolve frame_refl frame_touch frame_set_mem frame_kalloc frame_kfree : xv6.

Lemma in_tables_page m root x :
  in_tables m root x <-> exists p, is_table m root p /\ in_page p x.
Proof.
  split.
  - intros (path & p & Hok & Ht & Hx). exists p. split; [|done]. by exists path.
  - intros (p & (path & Hok & Ht) & Hx). exists path, p. done.
Qed.

Lemma is_table_page m root p : pt_wf m root -> is_table m root p -> page_ok p.
Proof. intros wf (path & Hok & Ht). by eapply wf_page. Qed.

(** ** walk *)

Fixpoint lv_path (level : nat) (va : Z) : list Z :=
  match level with O => [] | S l => PX (Z.of_nat level) va :: lv_path l va end.

Lemma walk_loop_pure level p va s :
  walk_loop level p va false s =
  Ret (match table s.(k_mem) p (lv_path level va) with Some q => q + 8 * PX 0 va | None => 0 end) s.
Proof.
  revert p. induction level as [|level IH]; intros p; [done|].
  cbn [walk_loop lv_path table]. unfold read64, child. ksimpl.
  destruct (has _ PTE_V); [apply IH|done].
Qed.

(** [walk] without allocation reads the tree and changes nothing. *)
Lemma walk_lookup root va s :
  va < MAXVA ->
  walk root va false s = Ret (match slot s.(k_mem) root va with Some a => a | None => 0 end) s.
Proof.
  intros Hva. unfold walk. rewrite Z.geb_leb, (proj2 (Z.leb_gt _ _)) by done.
  rewrite walk_loop_pure. unfold slot, va_path. cbn [lv_path].
  change (Z.of_nat 2) with 2. change (Z.of_nat 1) with 1.
  by destruct (table _ _ _).
Qed.

(** [walk] needs no allocation when the page-table pages exist. *)
Lemma walk_loop_found level p va alloc s q :
  table s.(k_mem) p (lv_path level va) = Some q ->
  walk_loop level p va alloc s = Ret (q + 8 * PX 0 va) s.
Proof.
  revert p. induction level as [|level IH]; intros p; cbn [walk_loop lv_path table].
  - by intros [= ->].
  - unfold child, read64. ksimpl. destruct (has _ PTE_V); [apply IH|done].
Qed.

Lemma walk_found root va alloc s a :
  va < MAXVA -> slot s.(k_mem) root va = Some a -> walk root va alloc s = Ret a s.
Proof.
  intros Hva Hs. unfold walk. rewrite Z.geb_leb, (proj2 (Z.leb_gt _ _)) by done.
  unfold slot, va_path in Hs. destruct (table _ _ _) as [q|] eqn:E; [|done]. injection Hs as <-.
  by apply walk_loop_found.
Qed.

Lemma slot_nz m root va a : pt_wf m root -> slot m root va = Some a -> a <> 0.
Proof.
  intros wf Hs. destruct (slot_page m root wf va a Hs) as (p & _ & Hp & -> & Hpx).
  apply page_ok_pos in Hp as [? _]. lia.
Qed.

Lemma vm_step_refl root s l : vm_rep s root l -> vm_step root s l s l.
Proof.
  intros H. split; try done.
  exists []. split_and!; [done|set_solver|apply changed_in_refl].
Qed.

Lemma vm_step_trans root s1 l1 s2 l2 s3 l3 :
  vm_step root s1 l1 s2 l2 -> vm_step root s2 l2 s3 l3 -> vm_step root s1 l1 s3 l3.
Proof.
  intros [R1 F1 (u1 & E1 & T1 & C1) G1] [R2 F2 (u2 & E2 & T2 & C2) G2].
  split; [done|by eapply frame_trans| |auto].
  exists (u1 ++ u2). split_and!.
  - by rewrite <- app_assoc, <- E2.
  - intros p. rewrite T2, T1. set_solver.
  - eapply changed_in_trans; [eapply changed_in_mono, C1|eapply changed_in_mono, C2];
      intros x; cbv beta; rewrite !in_tables_page.
    + intros [?|(p & ? & ?)]; [by left|right; exists p; set_solver].
    + intros [(p & [Hp|Hp]%T1 & Hx)|(p & ? & ?)]; [left; eauto|right..]; exists p; set_solver.
Qed.

Lemma vm_grow_refl root s l : vm_rep s root l -> vm_grow root s l s l.
Proof. split; [by apply vm_step_refl|done]. Qed.

Lemma vm_grow_trans root s1 l1 s2 l2 s3 l3 :
  vm_grow root s1 l1 s2 l2 -> vm_grow root s2 l2 s3 l3 -> vm_grow root s1 l1 s3 l3.
Proof.
  intros [H1 P1] [H2 P2]. split; [by eapply vm_step_trans|]. intros va. by rewrite P2.
Qed.

(** The state after [walk] has made a page-table page of [p]. *)
Definition new_table_post (p : Z) (l : list Z) (a : Z) (s : kstate) : kstate :=
  let s1 := kalloc_post p l s in
  set_mem (store64 (memset s1.(k_mem) p 0 PGSIZE) a (Z.lor (PA2PTE p) PTE_V)) s1.

Section NewTable.
Context (root : Z) (s : kstate) (p : Z) (l : list Z) (Hrep : vm_rep s root (p :: l)).
Context (path0 : list Z) (p0 i : Z).
Context (Hok : path_ok (path0 ++ [i])) (Ht0 : table s.(k_mem) root path0 = Some p0).
Context (Hnone : child s.(k_mem) p0 i = None) (Hhalf : path0 = [] -> i < 256).

Let s' := new_table_post p l (p0 + 8 * i) s.

Lemma new_table_page : page_ok p /\ page_ok p0 /\ p <> p0 /\ 0 <= i < 512 /\ p ∉ l.
Proof using All.
  destruct Hrep as [Hk Hwf Hfree]. apply path_ok_snoc in Hok as (Hok0 & _ & Hi).
  assert (is_table (k_mem s) root p0) as Hp0 by (by exists path0).
  refine (conj _ (conj _ (conj _ (conj Hi _)))).
  - eapply flist_pages; [apply Hk|set_solver].
  - by eapply is_table_page.
  - intros ->. apply (Hfree _ Hp0). set_solver.
  - pose proof (rep_nodup _ _ Hk) as Hnd. by apply NoDup_cons in Hnd as [? _].
Qed.

Lemma new_table_changed :
  changed_in (fun x => in_entry p0 i x \/ in_page p x) s.(k_mem) s'.(k_mem).
Proof using All.
  unfold s', new_table_post. ksimpl. eapply changed_in_trans.
  - eapply changed_in_mono, (kalloc_post_changed p l s). auto.
  - eapply changed_in_trans.
    + eapply (changed_in_mono (in_page p)), memset_page_changed. auto.
    + eapply changed_in_mono, changed_in_store64. auto.
Qed.

Lemma new_table_entry : load64 s'.(k_mem) (p0 + 8 * i) = Z.lor (PA2PTE p) PTE_V.
Proof using All.
  unfold s', new_table_post. ksimpl. rewrite load64_store64. unfold u64. apply Z.mod_small.
  apply PTE_pte_range; [|done]. destruct new_table_page as (Hp & _). by apply page_ok_pte.
Qed.

Lemma new_table_zero x : in_page p x -> load8 s'.(k_mem) x = 0.
Proof using All.
  intros Hx. destruct new_table_page as (Hp & Hp0 & Hne & Hi & _).
  unfold s', new_table_post. ksimpl. rewrite load8_store64_out.
  - rewrite load8_memset by done. rewrite decide_True; [done|]. unfold in_page in Hx. done.
  - cut (~ in_entry p0 i x); [unfold in_entry; lia|]. intros Hy%in_entry_page; [|done].
    by apply (pages_disjoint p p0 x (proj1 Hp) (proj1 Hp0)).
Qed.

Lemma new_table_fresh path : path_ok path -> table s.(k_mem) root path <> Some p.
Proof using All.
  intros Hp Ht. apply (vr_free _ _ _ Hrep p); [by exists path|set_solver].
Qed.

Lemma table_new_table path q :
  path_ok path ->
  table s'.(k_mem) root path = Some q <->
  table s.(k_mem) root path = Some q \/ (path = path0 ++ [i] /\ q = p).
Proof using All.
  destruct new_table_page as (Hp & _).
  apply (table_grow _ _ root (vr_wf _ _ _ Hrep) path0 p0 i Hok Ht0 Hnone Hhalf p Hp new_table_fresh
           new_table_changed new_table_entry new_table_zero).
Qed.

Lemma is_table_new_table q : is_table s'.(k_mem) root q <-> is_table s.(k_mem) root q \/ q = p.
Proof using All.
  split.
  - intros (path & Hp & [H|[_ ->]]%table_new_table); [left; by exists path|by right|done].
  - intros [(path & Hp & H)| ->].
    + exists path. split; [done|]. apply table_new_table; auto.
    + exists (path0 ++ [i]). split; [done|]. apply table_new_table; auto.
Qed.

Lemma vm_grow_new_table :
  vm_grow root s (p :: l) s' l /\ table s'.(k_mem) root (path0 ++ [i]) = Some p.
Proof using All.
  destruct new_table_page as (Hp & Hp0 & Hne & Hi & Hnin). pose proof Hrep as [Hk Hwf Hfree].
  split; [split; [split|]|].
  - split.
    + eapply (kmem_rep_changed (kalloc_post p l s) _ _ (fun x => in_page p x \/ in_page p0 x));
        [by apply kalloc_post_rep| | |done..].
      * unfold s', new_table_post. ksimpl. eapply changed_in_trans.
        -- eapply (changed_in_mono (in_page p)), memset_page_changed. auto.
        -- eapply changed_in_mono, changed_in_store64. intros x Hx. right.
           by apply (in_entry_page p0 i x).
      * assert (flist (k_mem s) (k_freelist s) (p :: l)) as Hfl by apply Hk.
        assert (p0 ∉ p :: l) as Hp0' by (apply Hfree; exists path0; apply path_ok_snoc in Hok; tauto).
        intros q x Hq Hx. assert (page_ok q) as [Hqa _] by (eapply flist_pages; [exact Hfl|set_solver]).
        intros [Hx'|Hx']; [apply (pages_disjoint q p x)|apply (pages_disjoint q p0 x)];
          try done; try apply Hp; try apply Hp0; intros ->; set_solver.
    + apply (pt_wf_grow _ _ root Hwf path0 p0 i Hok Ht0 Hnone Hhalf p Hp new_table_fresh
               new_table_changed new_table_entry new_table_zero).
    + intros q [Hq| ->]%is_table_new_table; [|done]. apply Hfree in Hq. set_solver.
  - eapply frame_trans; [apply (frame_kalloc p l)|done].
  - exists [p]. split_and!; [done| |].
    + intros q. rewrite is_table_new_table. set_solver.
    + eapply changed_in_mono, new_table_changed. intros x [Hx|Hx].
      * left. exists path0, p0. apply path_ok_snoc in Hok as (? & _ & _).
        split_and!; [done|done|]. by apply (in_entry_page p0 i x).
      * right. exists p. set_solver.
  - intros path q Hpath Ht. apply table_new_table; auto.
  - apply (pte_grow _ _ root Hwf path0 p0 i Hok Ht0 Hnone Hhalf p Hp new_table_fresh
             new_table_changed new_table_entry new_table_zero).
  - apply table_new_table; auto.
Qed.

End NewTable.

Lemma PX_lv level va : 0 <= PX (Z.of_nat level) va < 512.
Proof. apply PX_range. lia. Qed.

(** [walk] with allocation from a page-table page [p] reached by [path]. *)
Lemma walk_loop_alloc root va level path p s l :
  0 <= va < MAXVA -> (path = [] -> level = 2%nat) -> vm_rep s root l -> path_ok (path ++ lv_path level va) -> table s.(k_mem) root path = Some p ->
  exists r s' l', walk_loop level p va true s = Ret r s' /\ vm_grow root s l s' l' /\
    (length l <= length l' + level)%nat /\
    ((r = 0 /\ l' = [] /\ (length l < level)%nat) \/
     exists q, table s'.(k_mem) root (path ++ lv_path level va) = Some q /\ r = q + 8 * PX 0 va).
Proof.
  intros Hva. revert path p s l. induction level as [|level IH]; intros path p s l Hroot Hrep Hok Ht.
  - exists (p + 8 * PX 0 va), s, l. refine (conj _ (conj (vm_grow_refl _ _ _ Hrep) (conj _ _))); [done|lia|].
    right. exists p. by rewrite app_nil_r.
  - cbn [lv_path] in *. set (i := PX (Z.of_nat (S level)) va) in *.
    replace (path ++ i :: lv_path level va) with ((path ++ [i]) ++ lv_path level va) in *
      by (by rewrite <- app_assoc).
    assert (path = [] -> i < 256) as Hhalf.
    { intros ->. specialize (Hroot eq_refl). injection Hroot as ->. unfold i. by apply PX_half. }
    assert (path ++ [i] = [] -> level = 2%nat) as Hroot' by (by destruct path).
    assert (path_ok (path ++ [i])) as Hok1.
    { destruct Hok as [Hlen Hall]. split.
      - rewrite length_app in Hlen. lia.
      - by apply Forall_app in Hall as [? _]. }
    cbn [walk_loop]. fold i. unfold read64. ksimpl.
    destruct (has (load64 (k_mem s) (p + 8 * i)) PTE_V) eqn:HV.
    + destruct (IH (path ++ [i]) (PTE2PA (load64 (k_mem s) (p + 8 * i))) s l Hroot' Hrep Hok)
        as (r & s' & l' & Hr & Hg & Hlen & Hpost).
      { rewrite table_snoc, Ht. unfold child. by rewrite HV. }
      exists r, s', l'. refine (conj Hr (conj Hg (conj _ _))); [lia|].
      destruct Hpost as [(? & ? & ?)|?]; [left|by right]. split_and!; [done|done|lia].
    + ksimpl. destruct l as [|pg l].
      * rewrite kalloc_empty by apply Hrep. ksimpl. change (0 =? 0) with true. cbv iota.
        exists 0, (touch s), []. refine (conj _ (conj _ (conj _ _)));
          [done| |simpl; lia|left; simpl; split_and!; [done|done|lia]].
        split; [|done]. split; try done; [|apply frame_touch|].
        -- destruct Hrep as [? ? ?]. split; try done. by apply kmem_rep_touch.
        -- exists []. split_and!; [done|set_solver|apply changed_in_refl].
      * rewrite (kalloc_cons s pg l) by apply Hrep. ksimpl.
        assert (child (k_mem s) p i = None) as Hc' by (unfold child; by rewrite HV).
        destruct (vm_grow_new_table root s pg l Hrep path p i Hok1 Ht Hc' Hhalf) as [Hg Ht'].
        destruct (new_table_page root s pg l Hrep path p i Hok1 Ht Hc' Hhalf) as (Hpg & _).
        rewrite (proj2 (Z.eqb_neq pg 0)) by (by apply page_ok_nz). unfold set_memory, write64. ksimpl.
        destruct (IH (path ++ [i]) pg _ l Hroot' (vg_rep _ _ _ _ _ (proj1 Hg)) Hok Ht') as (r & s' & l' & Hr & Hg' & Hlen & Hpost).
        exists r, s', l'. refine (conj Hr (conj _ (conj _ _))); [by eapply vm_grow_trans|simpl; lia|].
        destruct Hpost as [(? & ? & ?)|?]; [left|by right]. simpl. split_and!; [done|done|lia].
Qed.

(** [walk] with allocation returns the PTE's address, or 0 when the free pages
    ran out; either way every PTE is as it was. *)
Lemma walk_alloc root va s l :
  0 <= va < MAXVA -> vm_rep s root l ->
  exists r s' l', walk root va true s = Ret r s' /\ vm_grow root s l s' l' /\
    (length l <= length l' + 2)%nat /\
    ((r = 0 /\ l' = [] /\ (length l < 2)%nat) \/ (slot s'.(k_mem) root va = Some r /\ r <> 0)).
Proof.
  intros Hva Hrep. unfold walk. rewrite Z.geb_leb, (proj2 (Z.leb_gt _ _)) by lia.
  destruct (walk_loop_alloc root va 2 [] root s l Hva (fun _ => eq_refl) Hrep) as (r & s' & l' & Hr & Hg & Hlen & Hp);
    [apply va_path_ok|done|].
  exists r, s', l'. refine (conj Hr (conj Hg (conj Hlen _))).
  destruct Hp as [?|(q & Hq & ->)]; [by left|right].
  assert (slot (k_mem s') root va = Some (q + 8 * PX 0 va)) as Hs.
  { unfold slot. change (table (k_mem s') root (va_path va) = Some q) in Hq. by rewrite Hq. }
  split; [done|]. eapply slot_nz; [apply Hg|done].
Qed.

(** Writing the leaf PTE of [va]. *)
Lemma vm_step_leaf root s l va a v :
  vm_rep s root l -> slot s.(k_mem) root va = Some a -> 0 <= v < 2 ^ 64 ->
  let s' := set_mem (store64 s.(k_mem) a v) s in
  vm_step root s l s' l /\
  (forall va', pte s'.(k_mem) root va' =
     if bool_decide (PX 2 va' = PX 2 va /\ PX 1 va' = PX 1 va /\ PX 0 va' = PX 0 va)
     then v else pte s.(k_mem) root va').
Proof.
  intros [Hk Hwf Hfree] Ha Hv s'.
  assert (changed_in (fun x => a <= x < a + 8) s.(k_mem) s'.(k_mem)) as Hc
    by (apply changed_in_store64).
  pose proof (table_leaf _ _ root Hwf va a Ha Hc) as Htl.
  assert (forall p, is_table s'.(k_mem) root p <-> is_table s.(k_mem) root p) as Hist.
  { intros p. split; intros (path & Hp & Ht); exists path; (split; [done|]);
      [rewrite <- Htl|rewrite Htl]; done. }
  assert (changed_in (in_tables s.(k_mem) root) s.(k_mem) s'.(k_mem)) as Hct.
  { eapply changed_in_mono, Hc. intros x Hx.
    destruct (slot_page _ root Hwf va a Ha) as (p & Ht & Hp & -> & Hpx).
    exists (va_path va), p. split_and!; [apply va_path_ok|done|].
    apply (in_entry_page p (PX 0 va)); done. }
  split; [split|].
  - split.
    + eapply kmem_rep_changed; [exact Hk|exact Hct| |done..].
      intros q x Hq Hx (p & Hp & Hx')%in_tables_page.
      apply (pages_disjoint q p x); try done.
      * eapply flist_pages; [apply Hk|done].
      * by eapply is_table_page.
      * intros ->. by apply (Hfree p).
    + eapply pt_wf_leaf; [done|exact Ha|exact Hc].
    + intros p Hp%Hist. by apply Hfree.
  - done.
  - exists []. split_and!; [done| |].
    + intros p. rewrite Hist. set_solver.
    + eapply changed_in_mono, Hct. auto.
  - intros path p Hp Ht. by rewrite Htl.
  - intros va'. case_bool_decide as Hpx.
    + rewrite (pte_leaf _ _ root Hwf va a Ha Hc va' Hpx). unfold s'. ksimpl.
      rewrite load64_store64. unfold u64. by apply Z.mod_small.
    + apply (pte_leaf_ne _ _ root Hwf va a Ha Hc va' Hpx).
Qed.

(** The PTE of [va] after [k] pages from [a] have been mapped to [pa]. *)
Definition map_pte (m : memory) (root a pa perm k va : Z) : Z :=
  if bool_decide (a <= va < a + k * PGSIZE)
  then Z.lor (Z.lor (PA2PTE (pa + (va - a))) perm) PTE_V else pte m root va.

(** A page-aligned user address. *)
Definition is_page (va : Z) : Prop := va mod PGSIZE = 0 /\ 0 <= va < MAXVA.

Lemma perm_range perm : 0 <= perm < 1024 -> 0 <= Z.lor perm PTE_V < 1024.
Proof.
  intros H. change PTE_V with 1. split; [apply Z.lor_nonneg; lia|].
  destruct (Z.eq_dec perm 0) as [->|]; [done|].
  apply Z.log2_lt_cancel. rewrite Z.log2_lor by lia.
  change (Z.log2 1) with 0. change (Z.log2 1024) with 10.
  assert (Z.log2 perm < 10) by (apply Z.log2_lt_pow2; lia). lia.
Qed.

Lemma map_pte_range pa perm :
  0 <= pa < 2 ^ 56 -> 0 <= perm < 1024 ->
  0 <= Z.lor (Z.lor (PA2PTE pa) perm) PTE_V < 2 ^ 64.
Proof. intros ??. rewrite <- Z.lor_assoc. apply PTE_pte_range; [done|by apply perm_range]. Qed.

(** One iteration of the loop of [mappages]. *)
Lemma map_one root a pa perm s l :
  vm_rep s root l -> is_page a -> 0 <= pa < 2 ^ 56 -> 0 <= perm < 1024 ->
  has (pte s.(k_mem) root a) PTE_V = false ->
  exists r s1 l1, walk root a true s = Ret r s1 /\ (length l <= length l1 + 2)%nat /\
    ((r = 0 /\ l1 = [] /\ (length l < 2)%nat /\ vm_grow root s l s1 l1) \/
     (r <> 0 /\ has (load64 s1.(k_mem) r) PTE_V = false /\
      let s2 := set_mem (store64 s1.(k_mem) r (Z.lor (Z.lor (PA2PTE pa) perm) PTE_V)) s1 in
      vm_step root s l s2 l1 /\
      forall va, is_page va -> pte s2.(k_mem) root va = map_pte s.(k_mem) root a pa perm 1 va)).
Proof.
  intros Hrep [Ha HaM] Hpa Hperm Hnone.
  destruct (walk_alloc root a s l) as (r & s1 & l1 & Hw & Hg & Hlen & Hr); [lia|done|].
  exists r, s1, l1. split; [done|]. split; [done|].
  destruct Hr as [(-> & -> & ?)|[Hs Hr]]; [by left|right].
  destruct Hg as [Hst Hpte]. split; [done|]. split.
  { rewrite <- Hnone, <- Hpte. unfold pte. by rewrite Hs. }
  intros s2. destruct (vm_step_leaf root s1 l1 a r _ (vg_rep _ _ _ _ _ Hst) Hs
    (map_pte_range pa perm Hpa Hperm)) as [Hst2 Hpte2].
  split; [by eapply vm_step_trans|]. intros va Hva. unfold s2. rewrite Hpte2, Hpte. unfold map_pte.
  destruct Hva as [Hva HvaM]. unfold PGSIZE in *.
  case_bool_decide as H1; case_bool_decide as H2; try done.
  - assert (va = a) as -> by (destruct H1 as (?&?&?); by apply PX_page).
    by rewrite Z.sub_diag, Z.add_0_r.
  - assert (va = a) as -> by (destruct H1 as (?&?&?); by apply PX_page). lia.
  - exfalso. apply H1. assert (va = a) as ->; [|done].
    pose proof (Z.div_mod va 4096). pose proof (Z.div_mod a 4096). lia.
Qed.

Lemma mappages_loop_S n root a last pa perm :
  mappages_loop (S n) root a last pa perm =
  (let! pte := walk root a true in
   if pte =? 0 then ret (-1) else
   let! v := read64 pte in
   if has v PTE_V then panic "mappages: remap" else
   write64 pte (Z.lor (Z.lor (PA2PTE pa) perm) PTE_V) ;;
   if a =? last then ret 0
   else mappages_loop n root (u64 (a + PGSIZE)) last (u64 (pa + PGSIZE)) perm).
Proof. done. Qed.

Lemma mappages_loop_ok n root a pa perm s l :
  vm_rep s root l -> a mod PGSIZE = 0 ->
  0 <= a -> a + (Z.of_nat n + 1) * PGSIZE <= MAXVA ->
  0 <= pa -> pa + (Z.of_nat n + 1) * PGSIZE <= 2 ^ 56 -> 0 <= perm < 1024 ->
  (forall i, 0 <= i <= Z.of_nat n -> has (pte s.(k_mem) root (a + i * PGSIZE)) PTE_V = false) ->
  exists r s' l' k, mappages_loop (S n) root a (a + Z.of_nat n * PGSIZE) pa perm s = Ret r s' /\
    vm_step root s l s' l' /\
    (forall va, is_page va -> pte s'.(k_mem) root va = map_pte s.(k_mem) root a pa perm k va) /\
    (length l <= length l' + 2 * (n + 1))%nat /\
    ((r = 0 /\ k = Z.of_nat n + 1) \/
     (r = -1 /\ 0 <= k <= Z.of_nat n /\ l' = [] /\ (length l < 2 * (n + 1))%nat)).
Proof.
  revert a pa s l. induction n as [|n IH]; intros a pa s l Hrep Ha Ha0 HaM Hpa0 HpaM Hperm Hnone.
  all: destruct (map_one root a pa perm s l) as (r & s1 & l1 & Hw & Hlen & Hr);
    [done|unfold is_page, PGSIZE in *; lia|unfold PGSIZE in *; lia|done
    |replace a with (a + 0 * PGSIZE) by lia; apply Hnone; lia|].
  all: rewrite mappages_loop_S; erewrite bind_Ret by exact Hw.
  all: destruct Hr as [(-> & -> & Hlt & Hst & Hpte)|(Hnz & HV & Hst & Hpte)].
  1,3: exists (-1), s1, [], 0; refine (conj _ (conj Hst (conj _ (conj _ _))));
       [done| |simpl; lia|right; simpl; repeat split; lia]; intros va _; rewrite Hpte;
       unfold map_pte; by rewrite bool_decide_false by lia.
  all: rewrite (proj2 (Z.eqb_neq r 0)) by done; unfold read64, write64, set_memory; ksimpl;
    rewrite HV; cbv iota.
  - replace (a =? a + Z.of_nat 0 * PGSIZE) with true by (symmetry; apply Z.eqb_eq; lia).
    eexists 0, _, l1, 1. refine (conj eq_refl (conj Hst (conj Hpte (conj _ _)))); [lia|left; lia].
  - rewrite (proj2 (Z.eqb_neq a _)) by (unfold PGSIZE; lia).
    assert (MAXVA < 2 ^ 64) by done. unfold u64.
    rewrite !Z.mod_small by (unfold PGSIZE in *; lia).
    destruct (IH (a + PGSIZE) (pa + PGSIZE) _ l1 (vg_rep _ _ _ _ _ Hst))
      as (r' & s' & l' & k & Hl & Hst' & Hpte' & Hlen' & Hres); try (unfold PGSIZE in *; lia).
    + unfold PGSIZE in *. rewrite Z.add_mod, Ha by lia. done.
    + intros i Hi. rewrite Hpte.
      * unfold map_pte. rewrite bool_decide_false by (unfold PGSIZE; lia).
        replace (a + PGSIZE + i * PGSIZE) with (a + (i + 1) * PGSIZE) by lia. apply Hnone. lia.
      * split; [|unfold PGSIZE in *; lia]. unfold PGSIZE in *.
        replace (a + 4096 + i * 4096) with (a + (i + 1) * 4096) by lia. by rewrite Z.mod_add.
    + exists r', s', l', (k + 1). refine (conj _ (conj _ (conj _ (conj _ _)))).
      * replace (a + Z.of_nat (S n) * PGSIZE) with (a + PGSIZE + Z.of_nat n * PGSIZE) by lia.
        exact Hl.
      * by eapply vm_step_trans.
      * intros va Hva. rewrite Hpte' by done. unfold map_pte at 1. rewrite Hpte by done.
        unfold map_pte. unfold PGSIZE in *. destruct Hva as [Hva _].
        repeat case_bool_decide; try done; try lia; do 3 f_equal; try lia.
      * lia.
      * destruct Hres as [[-> ->]|(-> & ? & -> & ?)]; [left; lia|right; repeat split; lia].
Qed.

(** [mappages] on an aligned range of unmapped pages. *)
Lemma mappages_ok root va size pa perm s l :
  vm_rep s root l -> va mod PGSIZE = 0 -> size mod PGSIZE = 0 -> 0 < size ->
  0 <= va -> va + size <= MAXVA -> 0 <= pa -> pa + size <= 2 ^ 56 -> 0 <= perm < 1024 ->
  (forall a, is_page a -> va <= a < va + size -> has (pte s.(k_mem) root a) PTE_V = false) ->
  exists r s' l' k, mappages root va size pa perm s = Ret r s' /\
    vm_step root s l s' l' /\
    (forall a, is_page a -> pte s'.(k_mem) root a = map_pte s.(k_mem) root va pa perm k a) /\
    Z.of_nat (length l) <= Z.of_nat (length l') + 2 * (size / PGSIZE) /\
    ((r = 0 /\ k * PGSIZE = size) \/
     (r = -1 /\ 0 <= k * PGSIZE < size /\ l' = [] /\ Z.of_nat (length l) < 2 * (size / PGSIZE))).
Proof.
  intros Hrep Hva Hsz Hpos Hva0 HvaM Hpa HpaM Hperm Hnone.
  assert (exists n, size = (Z.of_nat n + 1) * PGSIZE) as [n ->].
  { exists (Z.to_nat (size / PGSIZE - 1)). unfold PGSIZE in *.
    pose proof (Z.div_mod size 4096). rewrite Z2Nat.id; lia. }
  destruct (mappages_loop_ok n root va pa perm s l) as (r & s' & l' & k & Hl & Hst & Hpte & Hlen & Hres);
    try done.
  { intros i Hi. apply Hnone; [|unfold PGSIZE; lia]. unfold is_page, PGSIZE in *.
    rewrite Z.mod_add by lia. split; [done|lia]. }
  exists r, s', l', k. rewrite Z.div_mul by done.
  refine (conj _ (conj Hst (conj Hpte (conj _ _)))); [|lia|].
  2:{ unfold PGSIZE. destruct Hres as [[-> ->]|(-> & ? & -> & ?)]; [by left|right; repeat split; lia]. }
  unfold mappages. rewrite Hva, Hsz. change (0 =? 0) with true. cbn [negb].
  rewrite (proj2 (Z.eqb_neq _ 0)) by lia. rewrite <- Hl.
  rewrite Z.div_mul by done. replace (Z.to_nat (Z.of_nat n + 1)) with (S n) by lia.
  unfold u64. assert (MAXVA < 2 ^ 64) by done.
  rewrite Z.mod_small by (unfold PGSIZE in *; lia). f_equal. f_equal. unfold PGSIZE; lia.
Qed.

(** [C35] [mappages] on an aligned range of unmapped pages never panics. It
    returns 0 with exactly the pages of the range mapped to consecutive
    physical pages with the permissions [perm|V]; or it returns -1 when the free
    pages ran out, with a prefix of the range mapped. Every other PTE keeps its
    value, the page table stays a tree of distinct pages of RAM, and it grows
    only by pages taken from the free list. *)
Theorem mappages_correct root va size pa perm s l :
  vm_rep s root l -> va mod PGSIZE = 0 -> size mod PGSIZE = 0 -> 0 < size ->
  0 <= va -> va + size <= MAXVA -> 0 <= pa -> pa + size <= 2 ^ 56 -> 0 <= perm < 1024 ->
  (forall a, is_page a -> va <= a < va + size -> has (pte s.(k_mem) root a) PTE_V = false) ->
  exists r s' l' k, mappages root va size pa perm s = Ret r s' /\
    vm_step root s l s' l' /\
    (forall a, is_page a -> pte s'.(k_mem) root a = map_pte s.(k_mem) root va pa perm k a) /\
    ((r = 0 /\ k * PGSIZE = size) \/
     (r = -1 /\ 0 <= k * PGSIZE < size /\ l' = [] /\ Z.of_nat (length l) < 2 * (size / PGSIZE))).
Proof.
  intros H1 H2 H3 H4 H5 H6 H7 H8 H9 H10.
  destruct (mappages_ok root va size pa perm s l H1 H2 H3 H4 H5 H6 H7 H8 H9 H10)
    as (r & s' & l' & k & Hr & Hst & Hp & _ & Hres).
  exists r, s', l', k. done.
Qed.

(** [mappages] refuses to remap: if the page table already maps the first
    page, it panics. *)
Theorem mappages_remap root va size pa perm s l :
  vm_rep s root l -> va mod PGSIZE = 0 -> size mod PGSIZE = 0 -> 0 < size ->
  0 <= va < MAXVA -> has (pte s.(k_mem) root va) PTE_V = true ->
  mappages root va size pa perm s = Panic "mappages: remap".
Proof.
  intros Hrep Hva Hsz Hpos HM HV. unfold mappages. rewrite Hva, Hsz. change (0 =? 0) with true. cbn [negb].
  rewrite (proj2 (Z.eqb_neq _ 0)) by lia.
  destruct (Z.to_nat (size / PGSIZE)) as [|n] eqn:En.
  { unfold PGSIZE in *. pose proof (Z.div_mod size 4096). lia. }
  rewrite mappages_loop_S. unfold pte in HV. destruct (slot (k_mem s) root va) as [a|] eqn:Hs; [|done].
  erewrite bind_Ret by (apply walk_found; [lia|exact Hs]).
  rewrite (proj2 (Z.eqb_neq _ _)) by (eapply slot_nz; [apply Hrep|exact Hs]).
  unfold read64. ksimpl. by rewrite HV.
Qed.

End VmSpec.
