(* ===== verification/UvmSpec.v ===== *)
(** * User address spaces (vm.c): correctness

    The invariant of a user address space next to the free pages, with the
    conservation of pages: every operation moves pages between the page
    table, the user pages and the free list, and loses none. *)

From S2P Require Import Prelude Params Mem State Spinlock CString Kalloc Vm PageTable VmSpec.

Section Uvm.
Context {I : KernelImage} {L : KernelLayout I}.

(** The page [va] is mapped to. *)
Definition upa (m : memory) (root va : Z) : Z := PTE2PA (pte m root va).

(** The pages the address space owns: page-table pages, and the pages mapped
    at the addresses [D]. *)
Definition owned (m : memory) (root : Z) (D : Z -> Prop) (p : Z) : Prop :=
  is_table m root p \/ exists va, is_page va /\ D va /\ upa m root va = p.

(** A user address space whose mapped page addresses below [TRAPFRAME] are [D]. *)
Record uvm (s : kstate) (root : Z) (D : Z -> Prop) (l : list Z) : Prop := {
  uv_rep : vm_rep s root l;
  uv_low : forall va, is_page va -> D va -> va < TRAPFRAME;
  uv_leaf : forall va, is_page va -> D va ->
    has (pte s.(k_mem) root va) PTE_V = true /\ PTE_FLAGS (pte s.(k_mem) root va) <> PTE_V;
  uv_page : forall va, is_page va -> D va ->
    page_ok (upa s.(k_mem) root va) /\ upa s.(k_mem) root va ∉ l /\
    ~ is_table s.(k_mem) root (upa s.(k_mem) root va);
  uv_inj : forall va va', is_page va -> is_page va' -> D va -> D va' ->
    upa s.(k_mem) root va = upa s.(k_mem) root va' -> va = va';
  uv_none : forall va, is_page va -> ~ D va -> va < TRAPFRAME ->
    has (pte s.(k_mem) root va) PTE_V = false;
}.

(** What an operation does to an address space: it stays one, no page is lost
    or duplicated, only its own pages and free pages are written, the mapping
    and the contents of the pages at [Kp] are kept, and so are the mappings
    from [TRAPFRAME] up. *)
Record uvm_op (Kp : Z -> Prop) (root : Z) (s : kstate) (D : Z -> Prop) (l : list Z)
    (s' : kstate) (D' : Z -> Prop) (l' : list Z) : Prop := {
  uo_uvm : uvm s' root D' l';
  uo_frame : frame s s';
  uo_pages : forall p, owned s'.(k_mem) root D' p \/ p ∈ l' <-> owned s.(k_mem) root D p \/ p ∈ l;
  uo_changed : changed_in (fun x => exists p, (owned s.(k_mem) root D p \/ p ∈ l) /\ in_page p x)
    s.(k_mem) s'.(k_mem);
  uo_keep : forall va, is_page va -> Kp va -> D va /\ D' va /\
    pte s'.(k_mem) root va = pte s.(k_mem) root va /\
    (forall x, in_page (upa s.(k_mem) root va) x -> load8 s'.(k_mem) x = load8 s.(k_mem) x);
  uo_high : forall va, is_page va -> TRAPFRAME <= va ->
    pte s'.(k_mem) root va = pte s.(k_mem) root va;
}.

Lemma owned_page s root D l p : uvm s root D l -> owned s.(k_mem) root D p -> page_ok p.
Proof.
  intros H [Ht|(va & Hva & HD & <-)]; [|by apply (uv_page _ _ _ _ H)].
  eapply is_table_page; [|exact Ht]. apply H.
Qed.

Lemma owned_not_free s root D l p : uvm s root D l -> owned s.(k_mem) root D p -> p ∉ l.
Proof.
  intros H [Ht|(va & Hva & HD & <-)]; [|by apply (uv_page _ _ _ _ H)].
  by apply (vr_free _ _ _ (uv_rep _ _ _ _ H)).
Qed.

Lemma free_page s root D l p : uvm s root D l -> p ∈ l -> page_ok p.
Proof. intros H Hp. eapply flist_pages; [apply (vr_kmem _ _ _ (uv_rep _ _ _ _ H))|done]. Qed.

Lemma owned_iff m root D D' p :
  (forall va, is_page va -> D va <-> D' va) -> owned m root D p <-> owned m root D' p.
Proof.
  intros HD. unfold owned. split; (intros [?|(va & ? & ? & ?)]; [by left|right]);
    exists va; (split; [done|]); (split; [by apply HD|done]).
Qed.

Lemma uvm_iff s root D D' l :
  (forall va, is_page va -> D va <-> D' va) -> uvm s root D l -> uvm s root D' l.
Proof.
  intros HD [H1 H2 H3 H4 H5 H6]. split; [done|intros..].
  - apply H2; [done|by apply HD].
  - apply H3; [done|by apply HD].
  - apply H4; [done|by apply HD].
  - apply H5; try done; by apply HD.
  - apply H6; [done|by rewrite HD|done].
Qed.

Lemma uvm_op_iff Kp root s D l s' D' D'' l' :
  (forall va, is_page va -> D' va <-> D'' va) ->
  uvm_op Kp root s D l s' D' l' -> uvm_op Kp root s D l s' D'' l'.
Proof.
  intros HD [H1 H2 H3 H4 H5 H6]. split; [by eapply uvm_iff|done| |done| |done].
  - intros p. rewrite <- (owned_iff _ _ D' D'') by done. apply H3.
  - intros va Hva HK. destruct (H5 va Hva HK) as (? & ? & ? & ?). rewrite <- HD by done. done.
Qed.

Lemma uvm_op_refl root s D l : uvm s root D l -> uvm_op D root s D l s D l.
Proof. intros H. split; try done. Qed.

Lemma uvm_op_trans Kp root s1 D1 l1 s2 D2 l2 s3 D3 l3 :
  uvm_op Kp root s1 D1 l1 s2 D2 l2 -> uvm_op Kp root s2 D2 l2 s3 D3 l3 ->
  uvm_op Kp root s1 D1 l1 s3 D3 l3.
Proof.
  intros [A1 A2 A3 A4 A5 A6] [B1 B2 B3 B4 B5 B6]. split.
  - done.
  - by eapply frame_trans.
  - intros p. rewrite B3. apply A3.
  - eapply changed_in_trans; [done|]. eapply changed_in_mono, B4.
    intros x (p & Hp & Hx). exists p. split; [by apply A3|done].
  - intros va Hva HK. destruct (A5 va Hva HK) as (? & ? & E1 & C1).
    destruct (B5 va Hva HK) as (? & ? & E2 & C2). split_and!; [done|done|congruence|].
    intros x Hx. rewrite C2, C1; [done|done|]. unfold upa in *. by rewrite E1.
  - intros va Hva Hhi. rewrite B6, A6; done.
Qed.

Lemma uvm_op_keep_mono (Kp Kp' : Z -> Prop) root s D l s' D' l' :
  (forall va, is_page va -> Kp' va -> Kp va) ->
  uvm_op Kp root s D l s' D' l' -> uvm_op Kp' root s D l s' D' l'.
Proof. intros HK [H1 H2 H3 H4 H5 H6]. split; try done. intros va Hva ?. apply H5; auto. Qed.

(** ** Writes outside the address space *)

Section Changed.
Context (s s' : kstate) (root : Z) (D : Z -> Prop) (l l' : list Z) (P : Z -> Prop).
Context (Hu : uvm s root D l) (Hc : changed_in P s.(k_mem) s'.(k_mem)).
Context (HP : forall p x, is_table s.(k_mem) root p -> in_page p x -> ~ P x).

Lemma changed_tables : changed_in (fun x => ~ in_tables s.(k_mem) root x) s.(k_mem) s'.(k_mem).
Proof using All.
  eapply changed_in_mono, Hc. intros x Hx (p & Hp & Hin)%in_tables_page.
  by apply (HP p x).
Qed.

Lemma is_table_changed p : is_table s'.(k_mem) root p <-> is_table s.(k_mem) root p.
Proof using All.
  pose proof (table_frame s.(k_mem) s'.(k_mem) root) as H.
  split; intros (path & Hok & Ht); exists path; (split; [done|]).
  - by rewrite <- (H path changed_tables Hok).
  - by rewrite (H path changed_tables Hok).
Qed.

Lemma pte_changed va : pte s'.(k_mem) root va = pte s.(k_mem) root va.
Proof using All. apply pte_frame, changed_tables. Qed.

Lemma owned_changed p : owned s'.(k_mem) root D p <-> owned s.(k_mem) root D p.
Proof using All.
  unfold owned. rewrite is_table_changed. unfold upa. by setoid_rewrite pte_changed.
Qed.

Lemma uvm_changed :
  kmem_rep s' l' -> (forall p, p ∈ l' -> ~ owned s.(k_mem) root D p) -> uvm s' root D l'.
Proof using All.
  intros Hk Hl. pose proof Hu as [H1 H2 H3 H4 H5 H6].
  split; [split|..]; try (intros va Hva HD; rewrite ?pte_changed; auto; fail).
  - done.
  - exact (pt_wf_frame _ _ root (vr_wf _ _ _ H1) changed_tables).
  - intros p Hp%is_table_changed Hin. apply (Hl p Hin). by left.
  - intros va Hva HD. unfold upa. rewrite pte_changed, is_table_changed.
    destruct (H4 va Hva HD) as (? & ? & ?). split_and!; [done..| |done].
    intros Hin. apply (Hl _ Hin). right. by exists va.
  - intros va va' ????. unfold upa. rewrite !pte_changed. by apply H5.
Qed.

Lemma uvm_op_changed :
  frame s s' -> kmem_rep s' l' -> (forall p, p ∈ l' <-> p ∈ l) ->
  (forall p x, owned s.(k_mem) root D p -> in_page p x -> ~ P x) ->
  (forall x, P x -> exists p, p ∈ l /\ in_page p x) ->
  uvm_op D root s D l s' D l'.
Proof using All.
  intros Hf Hk Hl HPo HPl. split.
  - apply uvm_changed; [done|]. intros p Hp%Hl Ho. by eapply owned_not_free.
  - done.
  - intros p. by rewrite owned_changed, Hl.
  - eapply changed_in_mono, Hc. intros x (p & ? & ?)%HPl. eauto.
  - intros va Hva HD. split_and!; [done|done|apply pte_changed|].
    intros x Hx. apply Hc. intros HPx. apply (HPo (upa (k_mem s) root va) x); [|done|done].
    right. by exists va.
  - intros va _ _. apply pte_changed.
Qed.

End Changed.

(** ** Mapping new pages *)

(** The PTE of [va] maps a page of the allocator as a leaf. *)
Definition leaf_ok (m : memory) (root va : Z) : Prop :=
  has (pte m root va) PTE_V = true /\ PTE_FLAGS (pte m root va) <> PTE_V /\
  page_ok (upa m root va).

Section Step.
Context (s s' : kstate) (root : Z) (D E : Z -> Prop) (l l' : list Z).
Context (Hu : uvm s root D l) (Hst : vm_step root s l s' l').
Context (Hpte : forall va, is_page va -> va < TRAPFRAME -> ~ E va ->
  pte s'.(k_mem) root va = pte s.(k_mem) root va).
Context (HED : forall va, is_page va -> E va -> ~ D va /\ va < TRAPFRAME).
Context (HE : forall va, is_page va -> E va -> leaf_ok s'.(k_mem) root va /\
  upa s'.(k_mem) root va ∉ l /\ ~ owned s.(k_mem) root D (upa s'.(k_mem) root va)).
Context (HEinj : forall va va', is_page va -> is_page va' -> E va -> E va' -> va = va').
Context (Edec : forall va, E va \/ ~ E va).

Lemma step_used : exists used, l = used ++ l' /\
  (forall p, is_table s'.(k_mem) root p <-> is_table s.(k_mem) root p \/ p ∈ used) /\
  (forall p, p ∈ l <-> p ∈ used \/ p ∈ l') /\
  changed_in (fun x => exists p, (is_table s.(k_mem) root p \/ p ∈ used) /\ in_page p x)
    s.(k_mem) s'.(k_mem).
Proof using All.
  destruct Hst as [_ _ (used & -> & Ht & Hc) _]. exists used. split_and!; [done|done| |].
  - intros p. apply elem_of_app.
  - eapply changed_in_mono, Hc. intros x [(p & ? & ?)%in_tables_page|(p & ? & ?)]; eauto.
Qed.

Lemma step_pte va : is_page va -> D va -> pte s'.(k_mem) root va = pte s.(k_mem) root va.
Proof using All.
  intros Hva HD. apply Hpte; [done|by apply (uv_low _ _ _ _ Hu)|]. intros [Hn _]%HED; done.
Qed.

Lemma step_owned p :
  owned s'.(k_mem) root (fun va => D va \/ E va) p \/ p ∈ l' <->
  owned s.(k_mem) root D p \/ p ∈ l \/ exists va, is_page va /\ E va /\ upa s'.(k_mem) root va = p.
Proof using All.
  destruct step_used as (used & _ & Ht & Hl & _). unfold owned. rewrite Ht, Hl. split.
  - intros [[[?|?]|(va & Hva & [HD|HE'] & <-)]|?]; try tauto.
    + left. right. exists va. unfold upa. by rewrite step_pte.
    + right. right. eauto.
  - intros [[?|(va & Hva & HD & <-)]|[[?|?]|(va & Hva & HE' & <-)]]; try tauto.
    + left. right. exists va. unfold upa. rewrite step_pte by done. auto.
    + left. right. exists va. auto.
Qed.

Lemma step_not_table va : is_page va -> D va \/ E va -> ~ is_table s'.(k_mem) root (upa s'.(k_mem) root va).
Proof using All.
  destruct step_used as (used & _ & Ht & Hl & _). rewrite Ht. intros Hva [HD|HE'].
  - unfold upa. rewrite step_pte by done. fold (upa (k_mem s) root va).
    destruct (uv_page _ _ _ _ Hu va Hva HD) as (_ & Hn & Hnt). rewrite Hl in Hn. tauto.
  - destruct (HE va Hva HE') as (_ & Hn & Hno). rewrite Hl in Hn. unfold owned in Hno. tauto.
Qed.

Lemma step_inj va va' : is_page va -> is_page va' -> D va -> E va' ->
  upa s'.(k_mem) root va <> upa s'.(k_mem) root va'.
Proof using All.
  intros Hva Hva' HD HE' Heq. destruct (HE va' Hva' HE') as (_ & _ & Hno). apply Hno. right.
  exists va. refine (conj Hva (conj HD _)). rewrite <- Heq. unfold upa. by rewrite step_pte.
Qed.

Lemma uvm_step : uvm s' root (fun va => D va \/ E va) l'.
Proof using All.
  destruct step_used as (used & _ & Ht & Hl & _). pose proof Hu as [H1 H2 H3 H4 H5 H6]. split.
  - apply Hst.
  - intros va Hva [HD|HE']; [by apply H2|by apply HED].
  - intros va Hva [HD|HE']; [rewrite step_pte by done; by apply H3|].
    destruct (HE va Hva HE') as ((? & ? & ?) & _). done.
  - intros va Hva HDE. pose proof (step_not_table va Hva HDE) as Hnt. destruct HDE as [HD|HE'].
    + unfold upa in *. rewrite step_pte in * by done. destruct (H4 va Hva HD) as (? & Hn & ?).
      rewrite Hl in Hn. unfold upa in *. tauto.
    + destruct (HE va Hva HE') as ((? & ? & ?) & Hn & _). rewrite Hl in Hn. tauto.
  - intros va va' Hva Hva' [HD|HE'] [HD'|HE''] Heq.
    + unfold upa in Heq. rewrite !step_pte in Heq by done. by apply H5.
    + exfalso. by apply (step_inj va va').
    + exfalso. by apply (step_inj va' va).
    + by apply HEinj.
  - intros va Hva Hn Hlow. rewrite Hpte by tauto. apply H6; tauto.
Qed.

Lemma step_keep va x : is_page va -> D va -> in_page (upa s.(k_mem) root va) x ->
  load8 s'.(k_mem) x = load8 s.(k_mem) x.
Proof using All.
  destruct step_used as (used & El & Ht & Hl & Hc). intros Hva HD Hx. apply Hc.
  destruct (uv_page _ _ _ _ Hu va Hva HD) as (Hok & Hn & Hnt).
  intros (p & Hp & Hxp). revert Hxp. apply (pages_disjoint _ p x (proj1 Hok)); [| |done].
  - destruct Hp as [Hp|Hp]; [eapply is_table_page; [apply Hu|done]|].
    eapply free_page; [exact Hu|]. apply Hl. auto.
  - intros Heq. rewrite Heq in *. rewrite Hl in Hn. tauto.
Qed.

End Step.

(** A step that changes no PTE below [TRAPFRAME]. *)
Lemma uvm_high s s' root D l l' :
  uvm s root D l -> vm_step root s l s' l' ->
  (forall va, is_page va -> va < TRAPFRAME -> pte s'.(k_mem) root va = pte s.(k_mem) root va) ->
  uvm s' root D l' /\ frame s s' /\
  (forall p, owned s'.(k_mem) root D p \/ p ∈ l' <-> owned s.(k_mem) root D p \/ p ∈ l) /\
  changed_in (fun x => exists p, (is_table s.(k_mem) root p \/ p ∈ l) /\ in_page p x) s.(k_mem) s'.(k_mem) /\
  (forall va x, is_page va -> D va -> in_page (upa s.(k_mem) root va) x ->
    load8 s'.(k_mem) x = load8 s.(k_mem) x).
Proof.
  intros Hu Hst Hpte. pose (E := fun _ : Z => False).
  assert (forall va, is_page va -> va < TRAPFRAME -> ~ E va ->
    pte s'.(k_mem) root va = pte s.(k_mem) root va) as H1 by auto.
  assert (forall va, is_page va -> E va -> ~ D va /\ va < TRAPFRAME) as H2 by (by unfold E).
  assert (forall va, is_page va -> E va -> leaf_ok s'.(k_mem) root va /\
    upa s'.(k_mem) root va ∉ l /\ ~ owned s.(k_mem) root D (upa s'.(k_mem) root va)) as H3 by (by unfold E).
  assert (forall va va', is_page va -> is_page va' -> E va -> E va' -> va = va') as H4 by (by unfold E).
  assert (forall va, E va \/ ~ E va) as H5 by (right; tauto).
  assert (forall va, is_page va -> (D va \/ E va) <-> D va) as H6 by (unfold E; tauto).
  destruct (step_used s s' root D E l l' Hu Hst H1 H2 H3 H4 H5) as (used & El & Ht & Hl & Hc).
  refine (conj _ (conj _ (conj _ (conj _ _)))).
  - eapply uvm_iff; [exact H6|]. by eapply uvm_step.
  - apply Hst.
  - intros p. pose proof (step_owned s s' root D E l l' Hu Hst H1 H2 H3 H4 H5 p) as Ho.
    rewrite (owned_iff _ _ _ D p H6) in Ho. rewrite Ho. unfold E. split; [|tauto].
    intros [?|[?|(? & _ & [] & _)]]; tauto.
  - eapply changed_in_mono, Hc. intros x (p & Hp & Hx). exists p. split; [|done].
    destruct Hp; [by left|right]. apply Hl. auto.
  - intros va x Hva HD Hx. eapply (step_keep s s' root D E l l'); eauto.
Qed.

(** A step that changes no PTE. *)
Lemma uvm_grow s s' root D l l' :
  uvm s root D l -> vm_step root s l s' l' ->
  (forall va, is_page va -> pte s'.(k_mem) root va = pte s.(k_mem) root va) ->
  uvm_op D root s D l s' D l'.
Proof.
  intros Hu Hst Hpte. destruct (uvm_high s s' root D l l' Hu Hst) as (H1 & H2 & H3 & H4 & H5); [auto|].
  split; [done|done|done| | |auto].
  - eapply changed_in_mono, H4. intros x (p & Hp & Hx). exists p. split; [|done].
    destruct Hp; [left; by left|by right].
  - intros va Hva HD. refine (conj HD (conj HD (conj (Hpte va Hva) _))). intros x. by apply H5.
Qed.

(** ** Unmapping a page *)

Lemma pte_slot m root va : has (pte m root va) PTE_V = true ->
  exists a, slot m root va = Some a /\ pte m root va = load64 m a.
Proof. unfold pte. destruct (slot m root va) as [a|]; [eauto|done]. Qed.

(** The state after one iteration of [uvmunmap] with [do_free]. *)
Definition unmap_post (m : memory) (root a : Z) (s : kstate) : kstate :=
  let s1 := kfree_post (upa m root a) s in
  set_mem (store64 s1.(k_mem) (default 0 (slot m root a)) 0) s1.

Section Unmap.
Context (s : kstate) (root : Z) (D : Z -> Prop) (l : list Z) (a : Z).
Context (Hu : uvm s root D l) (Ha : is_page a) (HDa : D a).
Context (pa : Z) (Epa : pa = upa s.(k_mem) root a).
Context (s1 s2 : kstate) (Es1 : s1 = kfree_post pa s) (Es2 : s2 = unmap_post s.(k_mem) root a s).

Lemma unmap_page : page_ok pa /\ pa ∉ l /\ ~ is_table s.(k_mem) root pa.
Proof using All. rewrite Epa. by apply (uv_page _ _ _ _ Hu). Qed.

Lemma unmap_free_changed :
  changed_in (fun x => ~ in_tables s.(k_mem) root x) s.(k_mem) s1.(k_mem).
Proof using All.
  destruct unmap_page as (Hpa & Hnl & Hnt). rewrite Es1.
  eapply changed_in_mono, (kfree_post_changed pa s). intros x Hx (p & Hp & Hxp)%in_tables_page.
  apply (pages_disjoint pa p x); try done; [apply Hpa| |by intros ->].
  eapply is_table_page; [apply Hu|done].
Qed.

Lemma unmap_free_rep : vm_rep s1 root (pa :: l).
Proof using All.
  destruct unmap_page as (Hpa & Hnl & Hnt). pose proof (uv_rep _ _ _ _ Hu) as [Hk Hwf Hfree].
  pose proof unmap_free_changed as Hc. split.
  - rewrite Es1. by apply kfree_post_rep.
  - by eapply pt_wf_frame.
  - intros p (path & Hok & Ht). rewrite (table_frame _ _ root path Hc Hok) in Ht.
    assert (is_table (k_mem s) root p) as Hp by (by exists path).
    apply not_elem_of_cons. split; [intros ->; done|by apply Hfree].
Qed.

(** PTEs and page-table pages after the unmap. *)
Lemma unmap_step :
  vm_rep s2 root (pa :: l) /\ frame s s2 /\
  (forall p, is_table s2.(k_mem) root p <-> is_table s.(k_mem) root p) /\
  changed_in (fun x => in_page pa x \/ in_tables s.(k_mem) root x) s.(k_mem) s2.(k_mem) /\
  (forall va, is_page va -> pte s2.(k_mem) root va =
     if bool_decide (va = a) then 0 else pte s.(k_mem) root va).
Proof using All.
  destruct (pte_slot s.(k_mem) root a) as (sl & Hsl & _); [by apply (uv_leaf _ _ _ _ Hu)|].
  pose proof unmap_free_changed as Hc.
  assert (slot s1.(k_mem) root a = Some sl) as Hsl1.
  { unfold slot in *. by rewrite (table_frame _ _ root _ Hc (va_path_ok a)). }
  destruct (vm_step_leaf root s1 (pa :: l) a sl 0 unmap_free_rep Hsl1) as [Hst Hpte]; [lia|].
  assert (s2 = set_mem (store64 (k_mem s1) sl 0) s1) as Es2'
    by (rewrite Es2, Es1, Epa; unfold unmap_post; rewrite Hsl; reflexivity).
  rewrite <- Es2' in Hst, Hpte.
  assert (forall p, is_table s1.(k_mem) root p <-> is_table s.(k_mem) root p) as Hist.
  { intros p. split; intros (path & Hok & Ht); exists path; (split; [done|]).
    - by rewrite <- (table_frame _ _ root path Hc Hok).
    - by rewrite (table_frame _ _ root path Hc Hok). }
  destruct Hst as [Hrep Hf (used & El & Ht & Hch) _].
  assert (used = []) as -> by (by apply (app_inv_tail (pa :: l) _ [])).
  refine (conj Hrep (conj _ (conj _ (conj _ _)))).
  - eapply frame_trans; [apply (frame_kfree pa)|]. by rewrite <- Es1.
  - intros p. rewrite Ht, Hist, elem_of_nil. tauto.
  - eapply changed_in_trans.
    + rewrite Es1. eapply changed_in_mono, (kfree_post_changed pa s). auto.
    + rewrite Es1 in Hch, Hist. eapply changed_in_mono, Hch. intros x [(p & Hp & Hx)%in_tables_page|(p & Hp & _)]; [|by apply elem_of_nil in Hp].
      right. apply in_tables_page. exists p. by rewrite <- Hist.
  - intros va Hva. rewrite Hpte, (pte_frame _ _ root va Hc).
    destruct Ha as [Ha1 Ha2], Hva as [Hva1 Hva2].
    case_bool_decide as H1; case_bool_decide as H2; try done.
    + exfalso. apply H2. destruct H1 as (?&?&?). by apply PX_page.
    + exfalso. apply H1. rewrite H2. auto.
Qed.

Lemma unmap_owned p :
  owned s2.(k_mem) root (fun va => D va /\ va <> a) p \/ p ∈ pa :: l <->
  owned s.(k_mem) root D p \/ p ∈ l.
Proof using All.
  destruct unmap_step as (_ & _ & Hist & _ & Hpte). unfold owned. rewrite Hist, elem_of_cons. split.
  - intros [[?|(va & Hva & [HD Hne] & <-)]|[->|?]]; try tauto.
    + left. right. exists va. unfold upa. by rewrite Hpte, bool_decide_false.
    + left. right. by exists a.
  - intros [[?|(va & Hva & HD & <-)]|?]; try tauto.
    destruct (decide (va = a)) as [->|Hne]; [rewrite Epa; tauto|].
    left. right. exists va. unfold upa. by rewrite Hpte, bool_decide_false.
Qed.

Lemma unmap_other va : is_page va -> D va /\ va <> a -> upa s.(k_mem) root va <> pa.
Proof using All. intros Hva [HD Hne] Heq. apply Hne, (uv_inj _ _ _ _ Hu); try done. by rewrite <- Epa. Qed.

Lemma uvm_unmap :
  uvm_op (fun va => D va /\ va <> a) root s D l s2 (fun va => D va /\ va <> a) (pa :: l).
Proof using All.
  destruct unmap_step as (Hrep & Hf & Hist & Hc & Hpte).
  pose proof Hu as [H1 H2 H3 H4 H5 H6]. destruct unmap_page as (Hpa & Hnl & Hnt).
  assert (forall va, is_page va -> D va /\ va <> a -> pte s2.(k_mem) root va = pte s.(k_mem) root va) as Hp.
  { intros va Hva [_ Hne]. by rewrite Hpte, bool_decide_false. }
  split.
  - split; [done|intros va Hva Hd..| |].
    + apply H2; tauto.
    + rewrite Hp by done. apply H3; tauto.
    + unfold upa. rewrite Hp, Hist by done. destruct (H4 va Hva (proj1 Hd)) as (? & ? & ?).
      refine (conj _ (conj _ _)); [done| |done]. apply not_elem_of_cons. split; [|done].
      by apply unmap_other.
    + intros va va' Hva Hva' Hd Hd'. unfold upa. rewrite !Hp by done. apply H5; tauto.
    + intros va Hva Hn Hlow. rewrite Hpte by done. case_bool_decide; [done|]. apply H6; tauto.
  - done.
  - apply unmap_owned.
  - eapply changed_in_mono, Hc. intros x [Hx|(p & Ht & Hx)%in_tables_page].
    + exists pa. split; [left; right; by exists a|done].
    + exists p. split; [left; by left|done].
  - intros va Hva Hd. refine (conj (proj1 Hd) (conj Hd (conj (Hp va Hva Hd) _))).
    destruct (H4 va Hva (proj1 Hd)) as (Hq & Hq1 & Hq2). intros x Hx. apply Hc.
    intros [Hx'|(p & Ht & Hx')%in_tables_page]; revert Hx'.
    + apply (pages_disjoint _ pa x (proj1 Hq) (proj1 Hpa)); [|done].
      by apply unmap_other.
    + apply (pages_disjoint _ p x (proj1 Hq)); [|by intros <-|done].
      eapply is_table_page; [apply H1|done].
  - intros va Hva Hhi. rewrite Hpte by done. rewrite bool_decide_false; [done|].
    intros ->. specialize (H2 a Ha HDa). lia.
Qed.

End Unmap.

Lemma uvmunmap_loop_S n root a last do_free : a < last ->
  uvmunmap_loop (S n) root a last do_free =
  (let! pte := walk root a false in
   if pte =? 0 then panic "uvmunmap: walk" else
   let! v := read64 pte in
   if negb (has v PTE_V) then panic "uvmunmap: not mapped" else
   if PTE_FLAGS v =? PTE_V then panic "uvmunmap: not a leaf" else
   when do_free (kfree (PTE2PA v)) ;;
   write64 pte 0 ;;
   uvmunmap_loop n root (u64 (a + PGSIZE)) last do_free).
Proof. intros H. simpl. by rewrite (proj2 (Z.ltb_lt _ _) H). Qed.

Lemma unmap_one n root a last s D l :
  uvm s root D l -> is_page a -> D a -> a < last ->
  uvmunmap_loop (S n) root a last true s =
  uvmunmap_loop n root (u64 (a + PGSIZE)) last true (unmap_post s.(k_mem) root a s).
Proof.
  intros Hu Ha HD Hlast. rewrite uvmunmap_loop_S by done.
  destruct (uv_leaf _ _ _ _ Hu a Ha HD) as [HV HF].
  destruct (pte_slot s.(k_mem) root a HV) as (sl & Hsl & Hv).
  erewrite bind_Ret by (apply walk_lookup; unfold is_page in Ha; lia). rewrite Hsl.
  rewrite (proj2 (Z.eqb_neq _ _)) by (eapply slot_nz; [apply Hu|exact Hsl]).
  unfold read64. ksimpl. rewrite <- Hv, HV. ksimpl. rewrite (proj2 (Z.eqb_neq _ _)) by done.
  fold (upa (k_mem s) root a).
  rewrite (kfree_ok s _ l (vr_kmem _ _ _ (uv_rep _ _ _ _ Hu)))
    by (by apply (uv_page _ _ _ _ Hu)).
  unfold write64, set_memory, unmap_post. rewrite Hsl. ksimpl. reflexivity.
Qed.

Lemma is_page_add a i : is_page a -> 0 <= i -> a + i * PGSIZE < MAXVA -> is_page (a + i * PGSIZE).
Proof. unfold is_page, PGSIZE. intros [H1 H2] H3 H4. rewrite Z.mod_add by lia. lia. Qed.

Lemma page_gap va a : is_page va -> is_page a -> va < a + PGSIZE -> a <= va -> va = a.
Proof. unfold is_page, PGSIZE. intros. pose proof (Z.div_mod va 4096). pose proof (Z.div_mod a 4096). lia. Qed.

Lemma uvmunmap_loop_ok n root a s D l :
  uvm s root D l -> is_page a -> a + Z.of_nat n * PGSIZE <= TRAPFRAME ->
  (forall va, is_page va -> a <= va < a + Z.of_nat n * PGSIZE -> D va) ->
  exists s' l', uvmunmap_loop n root a (a + Z.of_nat n * PGSIZE) true s = Ret tt s' /\
    uvm_op (fun va => D va /\ ~ (a <= va < a + Z.of_nat n * PGSIZE)) root s D l
      s' (fun va => D va /\ ~ (a <= va < a + Z.of_nat n * PGSIZE)) l'.
Proof.
  revert a s D l. induction n as [|n IH]; intros a s D l Hu Ha Hhi HD.
  - exists s, l. split.
    + simpl. by rewrite (proj2 (Z.ltb_ge _ _)) by lia.
    + eapply uvm_op_iff, uvm_op_keep_mono, uvm_op_refl; [|intros va _ [? _]; done|done].
      intros va _. simpl. split; [intros; split; [done|lia]|tauto].
  - assert (TRAPFRAME + PGSIZE < MAXVA) as HM by done. assert (MAXVA < 2 ^ 64) by done.
    assert (D a) as HDa by (apply HD; [done|unfold PGSIZE; lia]).
    rewrite (unmap_one n root a _ s D l) by (done || unfold PGSIZE; lia).
    unfold u64. rewrite Z.mod_small by (unfold is_page, PGSIZE in *; lia).
    pose proof (uvm_unmap s root D l a Hu Ha HDa _ eq_refl _ _ eq_refl eq_refl) as Hop.
    destruct (IH (a + PGSIZE) _ _ _ (uo_uvm _ _ _ _ _ _ _ _ Hop)) as (s' & l' & Hr & Hop').
    + rewrite <- (Z.mul_1_l PGSIZE). apply is_page_add; [done|lia|unfold PGSIZE in *; lia].
    + unfold PGSIZE in *. lia.
    + intros va Hva Hr. split; [apply HD; [done|unfold PGSIZE in *; lia]|unfold PGSIZE in *; lia].
    + exists s', l'. split.
      * rewrite <- Hr. f_equal. unfold PGSIZE. lia.
      * eapply uvm_op_iff, uvm_op_trans.
        2:{ eapply uvm_op_keep_mono, Hop. intros va Hva [HDva Hn]. split; [done|].
            intros ->. apply Hn. unfold PGSIZE. lia. }
        2:{ eapply uvm_op_keep_mono, Hop'. intros va Hva [HDva Hn]. unfold PGSIZE in *.
            split; [split; [done|]|lia]. intros ->. lia. }
        intros va Hva. cbv beta. split.
        -- intros [[HDva Hne] Hn]. split; [done|]. intros Hr'. apply Hne, page_gap; try done;
             unfold PGSIZE in *; lia.
        -- intros [HDva Hn]. unfold PGSIZE in *. split; [split; [done|]|lia]. intros ->. lia.
Qed.

(** The user pages of a process of size [sz]. *)
Definition below (sz va : Z) : Prop := va < PGROUNDUP sz.

Lemma TRAPFRAME_64 : TRAPFRAME + PGSIZE <= 2 ^ 64.
Proof. done. Qed.

Lemma PGROUNDUP_trapframe sz : 0 <= sz <= TRAPFRAME -> 0 <= PGROUNDUP sz <= TRAPFRAME.
Proof.
  intros H. pose proof TRAPFRAME_64. rewrite PGROUNDUP_eq by (unfold PGSIZE in *; lia).
  change TRAPFRAME with (67108862 * 4096) in *. unfold PGSIZE in *.
  pose proof (Z.div_mod (sz + 4096 - 1) 4096). pose proof (Z.mod_pos_bound (sz + 4096 - 1) 4096).
  lia.
Qed.

Lemma is_page_roundup sz : 0 <= sz <= TRAPFRAME -> is_page (PGROUNDUP sz).
Proof.
  intros H. pose proof (PGROUNDUP_trapframe sz H). assert (TRAPFRAME < MAXVA) by done.
  split; [apply PGROUNDUP_aligned|lia].
Qed.

Lemma uvmdealloc_ok root s oldsz newsz l :
  uvm s root (below oldsz) l -> 0 <= oldsz <= TRAPFRAME -> 0 <= newsz ->
  exists s' l', uvmdealloc root oldsz newsz s = Ret (Z.min newsz oldsz) s' /\
    uvm_op (below (Z.min newsz oldsz)) root s (below oldsz) l s' (below (Z.min newsz oldsz)) l'.
Proof.
  intros Hu Hold Hnew. unfold uvmdealloc. rewrite Z.geb_leb.
  destruct (Z.leb_spec oldsz newsz) as [Hle|Hlt].
  { exists s, l. rewrite Z.min_r by done. split; [done|by apply uvm_op_refl]. }
  rewrite Z.min_l by lia.
  pose proof (is_page_roundup oldsz ltac:(lia)) as Po. pose proof (is_page_roundup newsz ltac:(lia)) as Pn.
  pose proof (PGROUNDUP_trapframe oldsz ltac:(lia)). pose proof TRAPFRAME_64.
  assert (PGROUNDUP newsz <= PGROUNDUP oldsz) as Hmono.
  { rewrite !PGROUNDUP_eq by (unfold PGSIZE in *; lia). apply Z.mul_le_mono_nonneg_l; [done|].
    apply Z.div_le_mono; [done|lia]. }
  unfold below in *. set (o := PGROUNDUP oldsz) in *. set (n := PGROUNDUP newsz) in *. clearbody o n.
  destruct (Z.ltb_spec n o) as [Hno|Hno].
  2:{ ksimpl. exists s, l. assert (n = o) as -> by lia. split; [done|by apply uvm_op_refl]. }
  set (k := Z.to_nat ((o - n) / PGSIZE)).
  assert (o = n + Z.of_nat k * PGSIZE) as Eo.
  { unfold k, is_page, PGSIZE in *. pose proof (Z.div_mod o 4096). pose proof (Z.div_mod n 4096).
    replace (o - n) with ((o / 4096 - n / 4096) * 4096) by lia. rewrite Z.div_mul by lia.
    rewrite Z2Nat.id by lia. lia. }
  destruct (uvmunmap_loop_ok k root n s (fun va => va < o) l) as (s' & l' & Hr & Hop);
    [done|done|lia|intros va _ ?; lia|].
  exists s', l'. split.
  - unfold uvmunmap. rewrite (proj2 (Z.eqb_eq _ _)) by apply Pn. cbn [negb when].
    assert (Z.of_nat k < 2 ^ 31) by (change TRAPFRAME with (67108862 * 4096) in *; unfold is_page, PGSIZE in *; lia).
    replace (o - n) with (Z.of_nat k * PGSIZE) by lia. rewrite Z.div_mul by done.
    assert (i32 (Z.of_nat k) = Z.of_nat k) as ->.
    { unfold i32, signed. rewrite Z.mod_small by lia. by rewrite (proj2 (Z.ltb_lt _ _)) by lia. }
    unfold u64. rewrite !Z.mod_small by (unfold is_page, PGSIZE in *; lia).
    rewrite Nat2Z.id. erewrite bind_Ret by exact Hr. done.
  - eapply uvm_op_iff, uvm_op_keep_mono, Hop; intros va _; cbv beta; unfold PGSIZE in *; lia.
Qed.

(** ** Adding a page *)

(** The body of the loops of [uvmalloc] and [uvmcopy]: allocate a page, fill
    it, map it at [a], and continue with [ok] or [fail]. *)
Definition add_page {A} (root a perm : Z) (fill : Z -> memory -> memory) (fail ok : K A) : K A :=
  let! mem := kalloc in
  if mem =? 0 then fail else
  set_memory (fill mem) ;;
  let! r := mappages root a PGSIZE mem perm in
  if negb (r =? 0) then kfree mem ;; fail else ok.

(** Page [a] was added: mapped with [perm] to a page [p] taken from the free
    list and holding what [fill] stored in it. *)
Record page_added (root a perm : Z) (fill : Z -> memory -> memory)
    (s : kstate) (D : Z -> Prop) (l : list Z) (s' : kstate) (l' : list Z) : Prop := {
  pa_op : uvm_op D root s D l s' (fun va => D va \/ va = a) l';
  pa_pte : exists p m1, p ∈ l /\
    pte s'.(k_mem) root a = Z.lor (Z.lor (PA2PTE p) perm) PTE_V /\ upa s'.(k_mem) root a = p /\
    (forall x, ~ in_page p x -> load8 m1 x = load8 s.(k_mem) x) /\
    (forall x, in_page p x -> load8 s'.(k_mem) x = load8 (fill p m1) x);
}.

Section Extend.
Context (root a perm : Z) (fill : Z -> memory -> memory).
Context (Hfill : forall p m, changed_in (in_page p) m (fill p m)).
Context (Ha : is_page a) (Hlow : a < TRAPFRAME).
Context (Hperm : 0 <= perm < 1024) (Hleaf : Z.lor perm PTE_V <> PTE_V).

Lemma add_pte p : page_ok p ->
  let v := Z.lor (Z.lor (PA2PTE p) perm) PTE_V in
  has v PTE_V = true /\ PTE_FLAGS v <> PTE_V /\ PTE2PA v = p.
Proof using All.
  intros Hp v. unfold v. rewrite <- Z.lor_assoc.
  destruct (page_ok_pte p Hp) as [H1 H2].
  destruct (PTE_roundtrip p (Z.lor perm PTE_V) H1 H2 (perm_range perm Hperm)) as [E1 E2].
  split_and!; [|by rewrite E2|done].
  rewrite <- has_flags, E2 by done. unfold has, cbool.
  rewrite Z.land_lor_distr_l. change (Z.land PTE_V PTE_V) with 1. change PTE_V with 1.
  rewrite negb_true_iff. apply Z.eqb_neq. intros H.
  apply (f_equal (fun z => Z.testbit z 0)) in H. rewrite Z.lor_spec in H. simpl in H.
  by rewrite orb_true_r in H.
Qed.

(** The page [p] popped from the free list and filled. *)
Definition fill_post (p : Z) (l : list Z) (s : kstate) : kstate :=
  set_mem (fill p (kalloc_post p l s).(k_mem)) (kalloc_post p l s).

Lemma fill_post_changed p l s : changed_in (in_page p) s.(k_mem) (fill_post p l s).(k_mem).
Proof using All.
  apply (changed_in_trans _ _ (kalloc_post p l s).(k_mem)).
  - apply kalloc_post_changed.
  - apply Hfill.
Qed.

Lemma fill_post_rep p l s : kmem_rep s (p :: l) -> kmem_rep (fill_post p l s) l.
Proof using All.
  intros Hk. eapply (kmem_rep_changed (kalloc_post p l s) _ _ (in_page p)).
  - by apply kalloc_post_rep.
  - apply Hfill.
  - pose proof (rep_nodup _ _ Hk) as [Hn _]%NoDup_cons.
    assert (forall q, q ∈ p :: l -> page_ok q) as Hpg
      by (intros q Hq; eapply flist_pages; [apply Hk|done]).
    intros q x Hq. apply pages_disjoint; [apply Hpg; set_solver..|by intros ->].
  - reflexivity.
  - reflexivity.
  - reflexivity.
Qed.

Lemma fill_uvm s D p l s2 :
  uvm s root D (p :: l) -> s2 = fill_post p l s ->
  uvm s2 root D l /\ (forall va, pte s2.(k_mem) root va = pte s.(k_mem) root va) /\
  (forall q, owned s2.(k_mem) root D q <-> owned s.(k_mem) root D q) /\
  page_ok p /\ p ∉ l /\ ~ owned s.(k_mem) root D p.
Proof using All.
  intros Hu Es2. assert (kmem_rep s (p :: l)) as Hk by apply (vr_kmem _ _ _ (uv_rep _ _ _ _ Hu)).
  assert (changed_in (in_page p) s.(k_mem) s2.(k_mem)) as Hc by (rewrite Es2; apply fill_post_changed).
  assert (kmem_rep s2 l) as Hk2 by (rewrite Es2; by apply fill_post_rep).
  clear Es2. assert (page_ok p) as Hp by (eapply free_page; [exact Hu|set_solver]).
  assert (~ owned s.(k_mem) root D p) as Hno.
  { intros Ho. eapply owned_not_free; [exact Hu|exact Ho|set_solver]. }
  assert (p ∉ l) as Hnl by (by apply NoDup_cons, (rep_nodup _ _ Hk)).
  assert (forall q x, owned s.(k_mem) root D q -> in_page q x -> ~ in_page p x) as HP.
  { intros q x Hq. apply pages_disjoint; [by eapply (owned_page s)|apply Hp|]. by intros ->. }
  assert (forall q x, is_table s.(k_mem) root q -> in_page q x -> ~ in_page p x) as HPt
    by (intros q x Hq; apply HP; by left).
  refine (conj _ (conj _ (conj _ (conj Hp (conj Hnl Hno))))).
  - eapply (uvm_changed s s2 root D (p :: l)); try done.
    intros q Hq Ho. eapply owned_not_free; [exact Hu|exact Ho|set_solver].
  - intros va. by eapply (pte_changed s s2 root D (p :: l)).
  - intros q. by eapply (owned_changed s s2 root D (p :: l)).
Qed.

(** Mapping failed: the page goes back to the free list. *)
Lemma add_page_fail s D p l s3 :
  uvm s root D (p :: l) -> vm_step root (fill_post p l s) l s3 [] ->
  (forall va, is_page va -> pte s3.(k_mem) root va = pte (fill_post p l s).(k_mem) root va) ->
  kfree p s3 = Ret tt (kfree_post p s3) /\ uvm_op D root s D (p :: l) (kfree_post p s3) D [p].
Proof using All.
  intros Hu Hst Hpte. pose proof (fill_post_changed p l s) as Hc12.
  assert (frame s (fill_post p l s)) as Hf2
    by (apply (frame_trans _ (kalloc_post p l s)); [apply frame_kalloc|apply frame_set_mem]).
  destruct (fill_uvm s D p l _ Hu eq_refl) as (Hu2 & Hp2 & Ho2 & Hpok & Hpl & Hpo).
  set (s2 := fill_post p l s) in *. clearbody s2.
  pose proof (uvm_grow s2 s3 root D l [] Hu2 Hst Hpte) as [Hu3 Hf3 Ho3 Hc23 Hk23 Hh23].
  assert (kmem_rep s3 []) as Hk3 by apply (vr_kmem _ _ _ (uv_rep _ _ _ _ Hu3)).
  split; [by apply (kfree_ok s3 p [])|].
  pose proof (kfree_post_changed p s3) as Hc34. pose proof (frame_kfree p s3) as Hf4.
  assert (kmem_rep (kfree_post p s3) [p]) as Hk4 by (apply kfree_post_rep; [done|done|apply not_elem_of_nil]).
  set (s4 := kfree_post p s3) in *. clearbody s4.
  assert (forall q, owned s3.(k_mem) root D q <-> owned s.(k_mem) root D q \/ q ∈ l) as Ho3'.
  { intros q. rewrite <- Ho2, <- Ho3, elem_of_nil. tauto. }
  assert (~ owned s3.(k_mem) root D p) as Hpo3 by (rewrite Ho3'; tauto).
  assert (forall q x, owned s3.(k_mem) root D q -> in_page q x -> ~ in_page p x) as HP.
  { intros q x Hq. apply pages_disjoint; [by eapply (owned_page s3)|apply Hpok|]. by intros ->. }
  assert (forall q x, is_table s3.(k_mem) root q -> in_page q x -> ~ in_page p x) as HPt
    by (intros q x Hq; apply HP; by left).
  assert (forall va, pte s4.(k_mem) root va = pte s3.(k_mem) root va) as Hp4
    by (intros va; by eapply (pte_changed s3 s4 root D [])).
  split.
  - eapply (uvm_changed s3 s4 root D []); try done. intros q ->%list_elem_of_singleton. done.
  - eapply frame_trans, frame_trans; eauto.
  - intros q. rewrite (owned_changed s3 s4 root D [] [] (in_page p) Hu3 Hc34 HPt q), Ho3'.
    rewrite !elem_of_cons, elem_of_nil. tauto.
  - eapply changed_in_trans, changed_in_trans.
    + eapply changed_in_mono, Hc12. intros x Hx. exists p. rewrite elem_of_cons. auto.
    + eapply changed_in_mono, Hc23. intros x (q & Hq & Hx). exists q. rewrite <- Ho2, elem_of_cons. tauto.
    + eapply changed_in_mono, Hc34. intros x Hx. exists p. rewrite elem_of_cons. auto.
  - intros va Hva HD. destruct (Hk23 va Hva HD) as (_ & _ & E & Hk).
    refine (conj HD (conj HD (conj _ _))); [by rewrite Hp4, E, Hp2|].
    assert (owned s.(k_mem) root D (upa s.(k_mem) root va)) as Hown by (right; by exists va).
    assert (forall x, in_page (upa s.(k_mem) root va) x -> ~ in_page p x) as Hd
      by (intros x; apply HP, Ho3'; by left).
    intros x Hx. rewrite Hc34, Hk, Hc12; auto. unfold upa. by rewrite Hp2.
  - intros va Hva Hhi. by rewrite Hp4, Hh23, Hp2.
Qed.

(** Mapping succeeded. *)
Lemma add_page_succ s D p l s3 l3 :
  uvm s root D (p :: l) -> ~ D a -> vm_step root (fill_post p l s) l s3 l3 ->
  (forall va, is_page va ->
     pte s3.(k_mem) root va = map_pte (fill_post p l s).(k_mem) root a p perm 1 va) ->
  page_added root a perm fill s D (p :: l) s3 l3.
Proof using All.
  intros Hu HnD Hst Hpte. pose proof (fill_post_changed p l s) as Hc12.
  assert (frame s (fill_post p l s)) as Hf2
    by (apply (frame_trans _ (kalloc_post p l s)); [apply frame_kalloc|apply frame_set_mem]).
  destruct (fill_uvm s D p l _ Hu eq_refl) as (Hu2 & Hp2 & Ho2 & Hpok & Hpl & Hpo).
  assert (exists m1, (fill_post p l s).(k_mem) = fill p m1 /\ changed_in (in_page p) s.(k_mem) m1)
    as (m1 & Em2 & Hc1) by (eexists; split; [reflexivity|apply kalloc_post_changed]).
  set (s2 := fill_post p l s) in *. clearbody s2.
  assert (pte s3.(k_mem) root a = Z.lor (Z.lor (PA2PTE p) perm) PTE_V) as Hpa.
  { rewrite Hpte by done. unfold map_pte. rewrite bool_decide_true by (unfold PGSIZE; lia).
    by rewrite Z.sub_diag, Z.add_0_r. }
  destruct (add_pte p Hpok) as (HV & HF & HPA). rewrite <- Hpa in HV, HF, HPA.
  pose (E := fun va : Z => va = a).
  assert (forall va, is_page va -> ~ E va -> pte s3.(k_mem) root va = pte s2.(k_mem) root va) as H1.
  { intros va Hva Hne. rewrite Hpte by done. unfold map_pte. rewrite bool_decide_false; [done|].
    intros Hr. apply Hne, page_gap; try done; lia. }
  assert (forall va, is_page va -> E va -> ~ D va /\ va < TRAPFRAME) as H2 by (intros va _ ->; done).
  assert (forall va, is_page va -> E va -> leaf_ok s3.(k_mem) root va /\
    upa s3.(k_mem) root va ∉ l /\ ~ owned s2.(k_mem) root D (upa s3.(k_mem) root va)) as H3.
  { intros va _ ->. unfold leaf_ok, upa. rewrite HPA, Ho2. done. }
  assert (forall va va', is_page va -> is_page va' -> E va -> E va' -> va = va') as H4
    by (intros va va' _ _ -> ->; done).
  assert (forall va, E va \/ ~ E va) as H5 by (intros va; unfold E; lia).
  pose proof (fun va Hva (_ : va < TRAPFRAME) => H1 va Hva) as H1'.
  destruct (step_used s2 s3 root D E l l3 Hu2 Hst H1' H2 H3 H4 H5) as (used & El & Ht & Hl & Hc).
  split; [split|].
  - by eapply (uvm_step s2 s3 root D E l l3).
  - eapply frame_trans; [exact Hf2|apply Hst].
  - intros q. pose proof (step_owned s2 s3 root D E l l3 Hu2 Hst H1' H2 H3 H4 H5 q) as Ho3.
    unfold E in Ho3. rewrite Ho3, Ho2, elem_of_cons.
    split; [intros [?|[?|(va & _ & -> & <-)]]; [tauto..|]|].
    + unfold upa. rewrite HPA. auto.
    + intros [?|[->|?]]; try tauto. right. right. exists a. by unfold upa.
  - eapply changed_in_trans.
    + eapply changed_in_mono, Hc12. intros x Hx. exists p. rewrite elem_of_cons. auto.
    + eapply changed_in_mono, Hc. intros x (q & Hq & Hx). exists q. rewrite elem_of_cons, Hl, <- Ho2.
      split; [|done]. destruct Hq; [left; by left|tauto].
  - intros va Hva HD. refine (conj HD (conj (or_introl HD) (conj _ _))).
    { rewrite H1, Hp2; [done|done|]. by intros ->. }
    assert (owned s.(k_mem) root D (upa s.(k_mem) root va)) as Hown by (right; by exists va).
    intros x Hx. rewrite (step_keep s2 s3 root D E l l3 Hu2 Hst H1' H2 H3 H4 H5 va x Hva HD).
    + apply Hc12. revert Hx. apply pages_disjoint; [by eapply (owned_page s)|apply Hpok|].
      intros Heq. by rewrite Heq in Hown.
    + unfold upa. by rewrite Hp2.
  - intros va Hva Hhi. rewrite H1, Hp2; [done|done|]. intros ->. lia.
  - exists p, m1. refine (conj _ (conj Hpa (conj HPA (conj Hc1 _)))); [by left|].
    intros x Hx. rewrite <- Em2. apply Hc. intros (q & Hq & Hx'). revert Hx'.
    apply (pages_disjoint p q x (proj1 Hpok)); [| |done].
    + destruct Hq as [Hq|Hq]; [eapply is_table_page; [apply Hu2|done]|].
      eapply (free_page s2); [exact Hu2|]. apply Hl. auto.
    + intros <-. destruct Hq as [Hq|Hq]; [apply Hpo, Ho2; by left|]. apply Hpl, Hl. auto.
Qed.

Lemma add_page_ok {A} (fail ok : K A) s D l :
  uvm s root D l -> ~ D a ->
  (exists s' l', add_page root a perm fill fail ok s = fail s' /\ uvm_op D root s D l s' D l' /\
     (length l < 3)%nat) \/
  (exists s' l', add_page root a perm fill fail ok s = ok s' /\ page_added root a perm fill s D l s' l' /\
     (length l <= length l' + 3)%nat).
Proof using All.
  intros Hu HnD. assert (kmem_rep s l) as Hk by apply (vr_kmem _ _ _ (uv_rep _ _ _ _ Hu)).
  unfold add_page. destruct l as [|p l].
  - left. exists (touch s), []. refine (conj _ (conj _ _)); [| |simpl; lia].
    + erewrite bind_Ret by (by apply kalloc_empty). done.
    + apply (uvm_op_changed s (touch s) root D [] [] (fun _ => False) Hu);
        first [apply frame_touch|by apply kmem_rep_touch|apply changed_in_refl|intros; tauto].
  - erewrite bind_Ret by (by apply kalloc_cons).
    destruct (fill_uvm s D p l _ Hu eq_refl) as (Hu2 & Hp2 & _ & Hpok & _).
    rewrite (proj2 (Z.eqb_neq p 0)) by (by apply page_ok_nz).
    erewrite (bind_Ret _ _ _ tt (fill_post p l s)) by reflexivity.
    pose proof (page_ok_pos p Hpok) as Hp. change PHYSTOP with 0x88000000 in Hp.
    assert (TRAPFRAME + PGSIZE <= MAXVA) by done.
    destruct (mappages_ok root a PGSIZE p perm (fill_post p l s) l) as (r & s3 & l3 & k & Hm & Hst & Hpte & Hlen & Hr);
      [apply (uv_rep _ _ _ _ Hu2)|apply Ha|done|done|apply Ha
      |unfold is_page, PGSIZE in *; lia..|done| |].
    { intros va Hva Hr. assert (va = a) as -> by (apply page_gap; [done|done|lia|lia]).
      by apply (uv_none _ _ _ _ Hu2). }
    erewrite bind_Ret by exact Hm. change (2 * (PGSIZE / PGSIZE)) with 2 in *.
    destruct Hr as [[-> Ek]|(-> & Ek & -> & Hlt)].
    + right. exists s3, l3. refine (conj _ (conj _ _)); [done| |simpl; lia].
      apply add_page_succ; try done.
      by replace 1 with k by (unfold PGSIZE in *; lia).
    + left. assert (k = 0) as -> by (unfold PGSIZE in *; lia).
      destruct (add_page_fail s D p l s3 Hu Hst) as [Hf Hop].
      { intros va Hva. rewrite Hpte by done. unfold map_pte. by rewrite bool_decide_false by lia. }
      exists (kfree_post p s3), [p]. refine (conj _ (conj Hop _)); [|simpl; lia]. change (-1 =? 0) with false. cbn [negb].
      by erewrite bind_Ret by exact Hf.
Qed.

End Extend.

End Uvm.
