(* ===== verification/UvmProps.v ===== *)
(** * User memory operations (vm.c): theorems

    [uvmalloc], [uvmdealloc], [uvmcopy] and [uvmfree] on the invariant of
    user address spaces, and the copies between kernel and user memory. *)

From S2P Require Import Prelude Params Mem State Spinlock CString Kalloc Vm PageTable VmSpec UvmSpec.

Section UvmProps.
Context {I : KernelImage} {L : KernelLayout I}.

(** [va] is mapped with permissions [perm] to a page of zeros. *)
Definition zero_page (m : memory) (root perm va : Z) : Prop :=
  (exists p, pte m root va = Z.lor (Z.lor (PA2PTE p) perm) PTE_V /\ upa m root va = p) /\
  (forall x, in_page (upa m root va) x -> load8 m x = 0).

Lemma zero_page_keep Kp root s D l s' D' l' perm va :
  uvm_op Kp root s D l s' D' l' -> is_page va -> Kp va ->
  zero_page s.(k_mem) root perm va -> zero_page s'.(k_mem) root perm va.
Proof.
  intros Hop Hva HK [(p & Hp & Hpa) Hz].
  destruct (uo_keep _ _ _ _ _ _ _ _ Hop va Hva HK) as (_ & _ & Hpte & Hx).
  unfold zero_page, upa in *. rewrite Hpte. split; [eauto|].
  intros x Hxp. rewrite Hx by done. by apply Hz.
Qed.

Lemma page_added_zero root a perm s D l s' l' :
  page_added root a perm (fun p m => memset m p 0 PGSIZE) s D l s' l' ->
  zero_page s'.(k_mem) root perm a.
Proof.
  intros [Hop (p & m1 & Hp & Hpte & Hpa & _ & Hx)]. split; [eauto|].
  intros x Hxp. rewrite Hpa in Hxp. rewrite Hx, load8_memset by done.
  by rewrite decide_True.
Qed.

(** ** uvmalloc *)

(** What [uvmalloc] has done to [s0], with user pages below [old], on the way
    to the user pages below [a]. *)
Record alloc_inv (root old perm : Z) (s0 : kstate) (l0 : list Z) (a : Z) (s : kstate) (l : list Z) : Prop := {
  ai_op : uvm_op (fun va => va < old) root s0 (fun va => va < old) l0 s (fun va => va < a) l;
  ai_zero : forall va, is_page va -> old <= va < a -> zero_page s.(k_mem) root perm va;
  ai_free : Z.of_nat (length l0) <= Z.of_nat (length l) + 3 * ((a - old) / PGSIZE);
}.

Lemma uvmalloc_loop_S n root old a newsz xperm : a < newsz ->
  uvmalloc_loop (S n) root old a newsz xperm =
  add_page root a (Z.lor (Z.lor PTE_R PTE_U) xperm) (fun p m => memset m p 0 PGSIZE)
    (uvmdealloc root a old ;; ret 0)
    (uvmalloc_loop n root old (u64 (a + PGSIZE)) newsz xperm).
Proof. intros H. simpl. by rewrite (proj2 (Z.ltb_lt _ _) H). Qed.

Lemma alloc_perm xperm : 0 <= xperm < 1024 ->
  0 <= Z.lor (Z.lor PTE_R PTE_U) xperm < 1024 /\
  Z.lor (Z.lor (Z.lor PTE_R PTE_U) xperm) PTE_V <> PTE_V.
Proof.
  intros Hx. change (Z.lor PTE_R PTE_U) with 18. split; [split|].
  - apply Z.lor_nonneg. lia.
  - destruct (Z.eq_dec xperm 0) as [->|]; [done|]. apply Z.log2_lt_cancel. rewrite Z.log2_lor by lia.
    change (Z.log2 1024) with 10. change (Z.log2 18) with 4.
    assert (Z.log2 xperm < 10) by (apply Z.log2_lt_pow2; lia). lia.
  - intros H. apply (f_equal (fun z => Z.testbit z 1)) in H. rewrite !Z.lor_spec in H.
    change (Z.testbit 18 1) with true in H. by rewrite orb_true_l in H.
Qed.

Lemma roundup_id a : is_page a -> PGROUNDUP a = a.
Proof.
  intros [Ha Hr]. assert (MAXVA + PGSIZE <= 2 ^ 64) by done.
  pose proof (PGROUNDUP_bounds a ltac:(lia) ltac:(unfold PGSIZE in *; lia)).
  pose proof (PGROUNDUP_aligned a). unfold PGSIZE in *.
  pose proof (Z.div_mod a 4096). pose proof (Z.div_mod (PGROUNDUP a) 4096). lia.
Qed.

Lemma alloc_inv_add root old perm s0 l0 a s l s' l' :
  alloc_inv root old perm s0 l0 a s l -> is_page a -> old <= a -> old mod PGSIZE = 0 ->
  page_added root a perm (fun p m => memset m p 0 PGSIZE) s (fun va => va < a) l s' l' ->
  (length l <= length l' + 3)%nat ->
  alloc_inv root old perm s0 l0 (a + PGSIZE) s' l'.
Proof.
  intros [Hop Hz Hl] Ha Hle Hold Hadd Hlen. pose proof (pa_op _ _ _ _ _ _ _ _ _ Hadd) as Hop2. split.
  - eapply uvm_op_iff, uvm_op_trans; [|exact Hop|].
    2:{ eapply uvm_op_keep_mono, Hop2. intros; cbv beta in *. lia. }
    intros va Hva. cbv beta. split; [unfold PGSIZE in *; lia|]. intros Hlt.
    destruct (Z.lt_ge_cases va a); [by left|right]. apply page_gap; done.
  - intros va Hva Hr. destruct (Z.lt_ge_cases va a).
    + eapply zero_page_keep; [exact Hop2|done|done|]. apply Hz; [done|lia].
    + assert (va = a) as -> by (apply page_gap; try done; lia). by eapply page_added_zero.
  - unfold PGSIZE in *. replace (a + 4096 - old) with ((a - old) + 1 * 4096) by lia.
    rewrite Z.div_add by lia. lia.
Qed.

Lemma alloc_inv_undo root old perm s0 l0 a s l s1 l1 :
  alloc_inv root old perm s0 l0 a s l -> is_page a -> is_page old -> old <= a <= TRAPFRAME ->
  uvm_op (fun va => va < a) root s (fun va => va < a) l s1 (fun va => va < a) l1 ->
  exists s' l', uvmdealloc root a old s1 = Ret old s' /\
    uvm_op (fun va => va < old) root s0 (fun va => va < old) l0 s' (fun va => va < old) l'.
Proof.
  intros [Hop Hz Hl] Ha Hold Hle Hop2.
  pose proof (roundup_id a Ha) as Ea. pose proof (roundup_id old Hold) as Eo.
  destruct (uvmdealloc_ok root s1 a old l1) as (s' & l' & Hr & Hop3); unfold below in *.
  - rewrite Ea. apply (uo_uvm _ _ _ _ _ _ _ _ Hop2).
  - unfold is_page in Ha. lia.
  - unfold is_page in Hold. lia.
  - rewrite Z.min_l in Hr, Hop3 by lia. rewrite Ea, Eo in Hop3. exists s', l'. split; [done|].
    eapply uvm_op_trans, uvm_op_trans; [exact Hop| |exact Hop3].
    eapply uvm_op_keep_mono, Hop2. intros; cbv beta in *; lia.
Qed.

Lemma uvmalloc_loop_ok n root old a newsz xperm s0 l0 s l :
  let perm := Z.lor (Z.lor PTE_R PTE_U) xperm in
  alloc_inv root old perm s0 l0 a s l ->
  is_page old -> is_page a -> old <= a -> 0 <= newsz <= TRAPFRAME -> 0 <= xperm < 1024 ->
  a <= PGROUNDUP newsz <= a + Z.of_nat n * PGSIZE ->
  exists r s' l', uvmalloc_loop n root old a newsz xperm s = Ret r s' /\
    ((r = newsz /\ alloc_inv root old perm s0 l0 (PGROUNDUP newsz) s' l') \/
     (r = 0 /\ uvm_op (fun va => va < old) root s0 (fun va => va < old) l0 s' (fun va => va < old) l' /\
      Z.of_nat (length l0) < 3 * ((PGROUNDUP newsz - old) / PGSIZE))).
Proof.
  intros perm. revert a s l. induction n as [|n IH]; intros a s l Hinv Hold Ha Hle Hnew Hx Hn;
    pose proof TRAPFRAME_64; assert (TRAPFRAME + PGSIZE < MAXVA) by done; assert (MAXVA < 2 ^ 64) by done;
    pose proof (PGROUNDUP_bounds newsz ltac:(lia) ltac:(unfold PGSIZE in *; lia)) as Hb;
    pose proof (PGROUNDUP_trapframe newsz ltac:(lia)) as Ht;
    pose proof (is_page_roundup newsz ltac:(lia)) as Hp; set (t := PGROUNDUP newsz) in *; clearbody t.
  - assert (a = t) as -> by lia. exists newsz, s, l. split; [|by left].
    simpl. by rewrite (proj2 (Z.ltb_ge _ _)) by lia.
  - destruct (Z.lt_ge_cases a newsz) as [Hlt|Hge].
    2:{ assert (a = t) as -> by (symmetry; apply page_gap; try done; unfold PGSIZE in *; lia).
        exists newsz, s, l. split; [|by left]. simpl. by rewrite (proj2 (Z.ltb_ge _ _)) by lia. }
    assert (a + PGSIZE <= t) as Hat.
    { unfold is_page, PGSIZE in *. pose proof (Z.div_mod a 4096). pose proof (Z.div_mod t 4096). lia. }
    rewrite uvmalloc_loop_S by done. destruct (alloc_perm xperm Hx) as [Hp1 Hp2].
    destruct (add_page_ok root a perm (fun p m => memset m p 0 PGSIZE)
      (fun p m => memset_page_changed m p 0) Ha ltac:(unfold PGSIZE in *; lia) Hp1 Hp2
      (uvmdealloc root a old ;; ret 0) (uvmalloc_loop n root old (u64 (a + PGSIZE)) newsz xperm)
      s (fun va => va < a) l (uo_uvm _ _ _ _ _ _ _ _ (ai_op _ _ _ _ _ _ _ _ Hinv)))
      as [(s1 & l1 & Hr & Hop & Hlen)|(s1 & l1 & Hr & Hadd & Hlen)]; [lia| |]; fold perm; rewrite Hr.
    + destruct (alloc_inv_undo root old perm s0 l0 a s l s1 l1 Hinv Ha Hold) as (s' & l' & Hd & Hop');
        [unfold PGSIZE in *; lia|done|].
      exists 0, s', l'. split; [by erewrite bind_Ret by exact Hd|right]. refine (conj eq_refl (conj Hop' _)).
      pose proof (ai_free _ _ _ _ _ _ _ _ Hinv). unfold is_page, PGSIZE in *.
      assert ((a - old) / 4096 + 1 <= (t - old) / 4096); [|lia].
      rewrite <- Z.div_add by lia. apply Z.div_le_mono; lia.
    + unfold u64. rewrite Z.mod_small by (unfold is_page, PGSIZE in *; lia).
      apply (IH (a + PGSIZE) s1 l1); try done; try (unfold PGSIZE in *; lia).
      * eapply alloc_inv_add; try done. apply Hold.
      * rewrite <- (Z.mul_1_l PGSIZE). apply is_page_add; [done|lia|unfold PGSIZE in *; lia].
Qed.

(** [C13] [uvmalloc] on an address space of [oldsz] bytes either returns
    [newsz], with zeroed pages mapped [R|U|xperm] at every page from
    [PGROUNDUP(oldsz)] up to [newsz], or returns 0 and leaves the address space
    at [oldsz], with the partial allocation undone. In both cases no page is
    lost, nothing but pages of this address space and free pages is written,
    and the old mappings and contents are kept. It fails only when fewer than
    three free pages were left per page to add. *)
Theorem uvmalloc_correct root s oldsz newsz xperm l :
  uvm s root (below oldsz) l -> 0 <= oldsz <= newsz -> newsz <= TRAPFRAME -> 0 <= xperm < 1024 ->
  exists r s' l', uvmalloc root oldsz newsz xperm s = Ret r s' /\
    ((r = newsz /\ uvm_op (below oldsz) root s (below oldsz) l s' (below newsz) l' /\
      (forall va, is_page va -> PGROUNDUP oldsz <= va < newsz ->
         zero_page s'.(k_mem) root (Z.lor (Z.lor PTE_R PTE_U) xperm) va)) \/
     (r = 0 /\ uvm_op (below oldsz) root s (below oldsz) l s' (below oldsz) l' /\
      Z.of_nat (length l) < 3 * ((PGROUNDUP newsz - PGROUNDUP oldsz) / PGSIZE))).
Proof.
  intros Hu Hle Hhi Hx. pose proof TRAPFRAME_64.
  pose proof (is_page_roundup oldsz ltac:(lia)) as Hp. pose proof (is_page_roundup newsz ltac:(lia)) as Hp'.
  pose proof (PGROUNDUP_bounds newsz ltac:(lia) ltac:(unfold PGSIZE in *; lia)) as Hb.
  assert (PGROUNDUP oldsz <= PGROUNDUP newsz) as Hmono.
  { rewrite !PGROUNDUP_eq by (unfold PGSIZE in *; lia). apply Z.mul_le_mono_nonneg_l; [done|].
    apply Z.div_le_mono; [done|lia]. }
  unfold uvmalloc. rewrite (proj2 (Z.ltb_ge _ _)) by lia. unfold below in *.
  set (o := PGROUNDUP oldsz) in *. set (t := PGROUNDUP newsz) in *.
  destruct (uvmalloc_loop_ok (Z.to_nat ((newsz - o) / PGSIZE + 1)) root o o newsz xperm s l s l)
    as (r & s' & l' & Hr & Hres); try done; try lia.
  - split; [by apply uvm_op_refl|intros; lia|]. rewrite Z.sub_diag, Z.div_0_l by done. lia.
  - fold t. clearbody o t. unfold is_page, PGSIZE in *.
    pose proof (Z.div_mod (newsz - o) 4096). pose proof (Z.mod_pos_bound (newsz - o) 4096).
    destruct (Z.lt_ge_cases ((newsz - o) / 4096) 0).
    + assert (newsz < o) by lia. assert (t = o); [|lia].
      pose proof (Z.div_mod t 4096). pose proof (Z.div_mod o 4096). lia.
    + pose proof (Z.div_mod t 4096). pose proof (Z.div_mod o 4096). rewrite Z2Nat.id by lia. lia.
  - exists r, s', l'. split; [done|].
    destruct Hres as [[-> [Hop Hz _]]|(-> & Hop & Hlen)]; [left|right; done].
    refine (conj eq_refl (conj Hop _)). intros va Hva Hr'. apply Hz; [done|]. fold t. lia.
Qed.

(** [C14] [uvmdealloc] returns the smaller size and unmaps exactly the pages
    above it; the pages go back to the free list, the other mappings and their
    contents are kept. *)
Theorem uvmdealloc_correct root s oldsz newsz l :
  uvm s root (below oldsz) l -> 0 <= oldsz <= TRAPFRAME -> 0 <= newsz ->
  exists s' l', uvmdealloc root oldsz newsz s = Ret (Z.min newsz oldsz) s' /\
    uvm_op (below (Z.min newsz oldsz)) root s (below oldsz) l s' (below (Z.min newsz oldsz)) l'.
Proof. apply uvmdealloc_ok. Qed.

(** ** uvmcopy *)

(** An operation on one address space leaves any other one alone. *)
Lemma uvm_other Kp new s D l s' D' l' old Do :
  uvm s new D l -> uvm_op Kp new s D l s' D' l' -> uvm s old Do l ->
  (forall p, owned s.(k_mem) old Do p -> ~ owned s.(k_mem) new D p) ->
  uvm s' old Do l' /\ (forall va, pte s'.(k_mem) old va = pte s.(k_mem) old va) /\
  (forall p, owned s'.(k_mem) old Do p -> ~ owned s'.(k_mem) new D' p) /\
  (forall p x, owned s.(k_mem) old Do p -> in_page p x -> load8 s'.(k_mem) x = load8 s.(k_mem) x).
Proof.
  intros Hn [Hu Hf Hpg Hc _ _] Ho Hd.
  set (P := fun x => exists p, (owned s.(k_mem) new D p \/ p ∈ l) /\ in_page p x) in Hc.
  assert (forall p x, owned s.(k_mem) old Do p -> in_page p x -> ~ P x) as HP.
  { intros p x Hp Hx (q & Hq & Hxq).
    assert (page_ok p) as Hpk by (by apply (owned_page s old Do l)).
    assert (page_ok q) as Hqk
      by (destruct Hq; [by apply (owned_page s new D l)|by apply (free_page s new D l)]).
    apply (pages_disjoint p q x (proj1 Hpk) (proj1 Hqk)); try done.
    intros ->. destruct Hq as [Hq|Hq]; [by apply (Hd q)|]. by apply (owned_not_free s old Do l q). }
  assert (forall p x, is_table s.(k_mem) old p -> in_page p x -> ~ P x) as HPt
    by (intros p x Hp; apply HP; by left).
  assert (forall p, owned s'.(k_mem) old Do p <-> owned s.(k_mem) old Do p) as Hown
    by (intros p; by eapply (owned_changed s s' old Do l l' P)).
  assert (forall p, owned s'.(k_mem) new D' p \/ p ∈ l' -> ~ owned s.(k_mem) old Do p) as Hsep.
  { intros p Hp Hop. apply Hpg in Hp as [Hp|Hp]; [by apply (Hd p)|].
    by apply (owned_not_free s old Do l p). }
  refine (conj _ (conj _ (conj _ _))).
  - eapply (uvm_changed s s' old Do l l' P); try done.
    + apply (vr_kmem _ _ _ (uv_rep _ _ _ _ Hu)).
    + intros p Hp. apply Hsep. by right.
  - intros va. by eapply (pte_changed s s' old Do l l' P).
  - intros p Hp Hp'. apply (Hsep p); [by left|]. by apply Hown.
  - intros p x Hp Hx. apply Hc. by apply (HP p).
Qed.

(** Page [va] of [new] in [m] is a copy of page [va] of [old] in [m0]. *)
Definition page_copy (m0 : memory) (old : Z) (m : memory) (new va : Z) : Prop :=
  PTE_FLAGS (pte m new va) = PTE_FLAGS (pte m0 old va) /\
  forall o, 0 <= o < PGSIZE -> load8 m (upa m new va + o) = load8 m0 (upa m0 old va + o).

Record copy_inv (old new sz : Z) (s0 : kstate) (l0 : list Z) (i : Z) (s : kstate) (l : list Z) : Prop := {
  ci_op : uvm_op (fun _ => False) new s0 (fun _ => False) l0 s (fun va => va < i) l;
  ci_old : uvm s old (below sz) l;
  ci_disj : forall p, owned s.(k_mem) old (below sz) p -> ~ owned s.(k_mem) new (fun va => va < i) p;
  ci_pte : forall va, pte s.(k_mem) old va = pte s0.(k_mem) old va;
  ci_cont : forall va x, is_page va -> below sz va -> in_page (upa s0.(k_mem) old va) x ->
    load8 s.(k_mem) x = load8 s0.(k_mem) x;
  ci_copy : forall va, is_page va -> va < i -> page_copy s0.(k_mem) old s.(k_mem) new va;
  ci_free : Z.of_nat (length l0) <= Z.of_nat (length l) + 3 * (i / PGSIZE);
}.

Lemma flags_lor v : has v PTE_V = true -> Z.lor (PTE_FLAGS v) PTE_V = PTE_FLAGS v.
Proof.
  intros H. apply Z.bits_inj'. intros n Hn. rewrite Z.lor_spec.
  destruct (Z.testbit (PTE_FLAGS v) n) eqn:E; [done|]. change PTE_V with (2 ^ 0).
  rewrite Z.pow2_bits_eqb by lia. destruct (Z.eqb_spec 0 n) as [<-|]; [|done].
  exfalso. rewrite <- has_flags in H by done. unfold has, cbool in H.
  apply negb_true_iff, Z.eqb_neq in H. apply H. apply Z.bits_inj'. intros k Hk.
  rewrite Z.land_spec, Z.bits_0. change PTE_V with (2 ^ 0). rewrite Z.pow2_bits_eqb by lia.
  destruct (Z.eqb_spec 0 k) as [<-|]; [by rewrite E|by rewrite andb_false_r].
Qed.

Lemma flags_range v : 0 <= PTE_FLAGS v < 1024.
Proof.
  unfold PTE_FLAGS. change 1023 with (2 ^ 10 - 1). rewrite land_ones_mod by lia.
  apply Z.mod_pos_bound. lia.
Qed.

Lemma uvmcopy_loop_S n old new i sz s l a :
  i < sz -> uvm s old (below sz) l -> is_page i -> below sz i ->
  pte s.(k_mem) old i = a ->
  uvmcopy_loop (S n) old new i sz s =
  add_page new i (PTE_FLAGS a) (fun p m => memmove m p (PTE2PA a) PGSIZE)
    (uvmunmap new 0 (i / PGSIZE) true ;; ret (-1))
    (uvmcopy_loop n old new (u64 (i + PGSIZE)) sz) s.
Proof.
  intros Hlt Hu Hi Hb <-. simpl. rewrite (proj2 (Z.ltb_lt _ _) Hlt).
  destruct (uv_leaf _ _ _ _ Hu i Hi Hb) as [HV _].
  destruct (pte_slot s.(k_mem) old i HV) as (sl & Hsl & Hv).
  erewrite bind_Ret by (apply walk_lookup; unfold is_page in Hi; lia). rewrite Hsl.
  rewrite (proj2 (Z.eqb_neq _ _)) by (eapply slot_nz; [apply (vr_wf _ _ _ (uv_rep _ _ _ _ Hu))|exact Hsl]).
  unfold read64. erewrite bind_Ret by reflexivity. rewrite <- Hv, HV. reflexivity.
Qed.

(** The page added by an iteration is a copy. *)
Lemma page_added_copy old new i s D Do l s' l' :
  uvm s new D l -> uvm s old Do l -> is_page i -> Do i ->
  page_added new i (PTE_FLAGS (pte s.(k_mem) old i))
    (fun p m => memmove m p (upa s.(k_mem) old i) PGSIZE) s D l s' l' ->
  page_copy s.(k_mem) old s'.(k_mem) new i.
Proof.
  intros Hn Ho Hi HDo [Hop (p & m1 & Hp & Hpte & Hpa & Hm1 & Hx)].
  assert (page_ok p) as Hpk by (by apply (free_page s new D l)).
  destruct (uv_leaf _ _ _ _ Ho i Hi HDo) as [HV _].
  destruct (uv_page _ _ _ _ Ho i Hi HDo) as (Hok & Hnl & _). split.
  - rewrite Hpte, <- Z.lor_assoc, flags_lor by done.
    destruct (page_ok_pte p Hpk). by apply PTE_roundtrip; [..|apply flags_range].
  - intros o Hoff. rewrite Hpa, Hx by (unfold in_page; lia). rewrite load8_memmove by done.
    rewrite decide_True by lia. replace (p + o - p) with o by lia. apply Hm1.
    apply (pages_disjoint (upa (k_mem s) old i) p); [apply Hok|apply Hpk|by intros <-|].
    unfold in_page. lia.
Qed.

Lemma page_copy_keep m0 m1 old root D l s D' s' l' new va :
  uvm_op D new s D l s' D' l' -> is_page va -> D va ->
  page_copy m0 old s.(k_mem) new va -> m1 = s'.(k_mem) -> root = new -> page_copy m0 old m1 root va.
Proof.
  intros Hop Hva HD [H1 H2] -> ->. destruct (uo_keep _ _ _ _ _ _ _ _ Hop va Hva HD) as (_ & _ & E & Hx).
  unfold page_copy, upa in *. rewrite E. split; [done|]. intros o Ho.
  rewrite Hx by (unfold in_page; lia). by apply H2.
Qed.

Lemma copy_inv_add old new sz s0 l0 i s l s' l' :
  copy_inv old new sz s0 l0 i s l -> is_page i -> below sz i -> 0 <= sz <= TRAPFRAME ->
  page_added new i (PTE_FLAGS (pte s.(k_mem) old i))
    (fun p m => memmove m p (upa s.(k_mem) old i) PGSIZE) s (fun va => va < i) l s' l' ->
  (length l <= length l' + 3)%nat ->
  copy_inv old new sz s0 l0 (i + PGSIZE) s' l'.
Proof.
  intros [Hop Ho Hd Hpte Hcont Hcp Hl] Hi Hb Hsz Hadd Hlen.
  pose proof (uo_uvm _ _ _ _ _ _ _ _ Hop) as Hn. pose proof (pa_op _ _ _ _ _ _ _ _ _ Hadd) as Hop2.
  destruct (uvm_other _ new s _ l s' _ l' old (below sz) Hn Hop2 Ho Hd) as (Ho' & Hpte' & Hd' & Hc').
  assert (forall va, is_page va -> (va < i \/ va = i) <-> va < i + PGSIZE) as HD.
  { intros va Hva. split; [unfold PGSIZE; lia|]. intros Hlt.
    destruct (Z.lt_ge_cases va i); [by left|right]. apply page_gap; done. }
  split.
  - eapply uvm_op_iff, uvm_op_trans; [exact HD|exact Hop|]. eapply uvm_op_keep_mono, Hop2. done.
  - done.
  - intros p Hp Hq. apply (Hd' p Hp). rewrite owned_iff; [exact Hq|exact HD].
  - intros va. by rewrite Hpte'.
  - intros va x Hva Hbv Hx. rewrite (Hc' (upa (k_mem s) old va)).
    + by eapply Hcont.
    + right. eauto.
    + unfold upa. by rewrite Hpte.
  - intros va Hva Hlt. apply HD in Hlt as [Hlt| ->]; [|..|done].
    + eapply page_copy_keep; [exact Hop2|done|done|by apply Hcp|done|done].
    + pose proof (page_added_copy old new i s _ _ l s' l' Hn Ho Hi Hb Hadd) as [E1 E2].
      split; [by rewrite E1, Hpte|]. intros o Hoff. rewrite E2 by done. unfold upa. rewrite Hpte.
      apply (Hcont i); [done|done|]. unfold in_page, upa. lia.
  - unfold PGSIZE in *. replace (i + 4096) with (i + 1 * 4096) by lia. rewrite Z.div_add by lia. lia.
Qed.

(** Undoing a partial copy. *)
Lemma copy_inv_undo old new sz s0 l0 i s l s1 l1 :
  copy_inv old new sz s0 l0 i s l -> is_page i -> 0 <= sz <= TRAPFRAME -> i <= TRAPFRAME ->
  uvm_op (fun va => va < i) new s (fun va => va < i) l s1 (fun va => va < i) l1 ->
  exists s' l', uvmunmap new 0 (i / PGSIZE) true s1 = Ret tt s' /\
    uvm_op (fun _ => False) new s0 (fun _ => False) l0 s' (fun _ => False) l' /\
    uvm s' old (below sz) l'.
Proof.
  intros [Hop Ho Hd Hpte Hcont Hcp Hl] Hi Hsz Hhi Hop2.
  pose proof (uo_uvm _ _ _ _ _ _ _ _ Hop) as Hn. pose proof (uo_uvm _ _ _ _ _ _ _ _ Hop2) as Hn1.
  destruct (uvm_other _ new s _ l s1 _ l1 old (below sz) Hn Hop2 Ho Hd) as (Ho1 & _ & Hd1 & _).
  assert (i = Z.of_nat (Z.to_nat (i / PGSIZE)) * PGSIZE) as Ei.
  { unfold is_page, PGSIZE in *. pose proof (Z.div_mod i 4096). rewrite Z2Nat.id; lia. }
  set (n := Z.to_nat (i / PGSIZE)) in *.
  destruct (uvmunmap_loop_ok n new 0 s1 (fun va => va < i) l1) as (s' & l' & Hr & Hop3);
    [done|done|unfold PGSIZE in *; lia|unfold PGSIZE in *; intros; lia|].
  destruct (uvm_other _ new s1 _ l1 s' _ l' old (below sz) Hn1 Hop3 Ho1 Hd1) as (Ho' & _).
  exists s', l'. refine (conj _ (conj _ Ho')).
  - unfold uvmunmap. change (0 mod PGSIZE =? 0) with true. cbn [negb]. fold n.
    assert (TRAPFRAME < 2 ^ 64) by done.
    replace (i / PGSIZE) with (Z.of_nat n) by (unfold n; unfold is_page, PGSIZE in *; rewrite Z2Nat.id; [done|apply Z.div_pos; lia]).
    unfold u64. rewrite Z.mod_small by (unfold is_page, PGSIZE in *; lia). exact Hr.
  - eapply uvm_op_iff, uvm_op_trans, uvm_op_trans; [|exact Hop|eapply uvm_op_keep_mono, Hop2; done|
      eapply uvm_op_keep_mono, Hop3; done].
    intros va [_ Hva]. cbv beta. unfold PGSIZE in *. lia.
Qed.

Lemma uvmcopy_loop_ok n old new i sz s0 l0 s l :
  copy_inv old new sz s0 l0 i s l -> is_page i -> 0 <= sz <= TRAPFRAME ->
  i <= PGROUNDUP sz <= i + Z.of_nat n * PGSIZE ->
  exists r s' l', uvmcopy_loop n old new i sz s = Ret r s' /\
    ((r = 0 /\ copy_inv old new sz s0 l0 (PGROUNDUP sz) s' l') \/
     (r = -1 /\ uvm_op (fun _ => False) new s0 (fun _ => False) l0 s' (fun _ => False) l' /\
      uvm s' old (below sz) l' /\ Z.of_nat (length l0) < 3 * (PGROUNDUP sz / PGSIZE))).
Proof.
  revert i s l. induction n as [|n IH]; intros i s l Hinv Hi Hsz Hn;
    pose proof TRAPFRAME_64; assert (TRAPFRAME + PGSIZE < MAXVA) by done; assert (MAXVA < 2 ^ 64) by done;
    pose proof (PGROUNDUP_bounds sz ltac:(lia) ltac:(unfold PGSIZE in *; lia)) as Hb;
    pose proof (PGROUNDUP_trapframe sz ltac:(lia)) as Ht;
    pose proof (is_page_roundup sz ltac:(lia)) as Hp.
  - assert (i = PGROUNDUP sz) as -> by lia. exists 0, s, l. split; [|by left].
    simpl. by rewrite (proj2 (Z.ltb_ge _ _)) by lia.
  - destruct (Z.lt_ge_cases i sz) as [Hlt|Hge].
    2:{ assert (PGROUNDUP sz = i) as E by (apply page_gap; try done; unfold PGSIZE in *; lia).
        exists 0, s, l. rewrite E. split; [|by left]. simpl. by rewrite (proj2 (Z.ltb_ge _ _)) by lia. }
    assert (below sz i) as Hbi by (unfold below; lia).
    assert (i + PGSIZE <= PGROUNDUP sz) as Hat.
    { unfold below, is_page, PGSIZE in *. pose proof (Z.div_mod i 4096). pose proof (Z.div_mod (PGROUNDUP sz) 4096). lia. }
    pose proof (ci_old _ _ _ _ _ _ _ _ Hinv) as Ho. pose proof (uv_leaf _ _ _ _ Ho i Hi Hbi) as [HV HF].
    rewrite (uvmcopy_loop_S n old new i sz s l _ Hlt Ho Hi Hbi eq_refl).
    destruct (add_page_ok new i (PTE_FLAGS (pte s.(k_mem) old i))
      (fun p m => memmove m p (PTE2PA (pte s.(k_mem) old i)) PGSIZE)) with
      (fail := uvmunmap new 0 (i / PGSIZE) true ;; ret (-1))
      (ok := uvmcopy_loop n old new (u64 (i + PGSIZE)) sz) (s := s) (D := fun va => va < i) (l := l)
      as [(s1 & l1 & Hr & Hop & Hlen)|(s1 & l1 & Hr & Hadd & Hlen)].
    { intros p m x Hx. rewrite load8_memmove by done. by rewrite decide_False. }
    { done. } { unfold PGSIZE in *; lia. } { apply flags_range. } { by rewrite flags_lor. }
    { apply (uo_uvm _ _ _ _ _ _ _ _ (ci_op _ _ _ _ _ _ _ _ Hinv)). } { lia. }
    + rewrite Hr. destruct (copy_inv_undo old new sz s0 l0 i s l s1 l1 Hinv Hi Hsz) as (s' & l' & Hd & Hop' & Ho');
        [unfold PGSIZE in *; lia|done|].
      exists (-1), s', l'. split; [by erewrite bind_Ret by exact Hd|right].
      refine (conj eq_refl (conj Hop' (conj Ho' _))).
      pose proof (ci_free _ _ _ _ _ _ _ _ Hinv). unfold is_page, PGSIZE in *.
      assert (i / 4096 + 1 <= PGROUNDUP sz / 4096); [|lia].
      rewrite <- Z.div_add by lia. apply Z.div_le_mono; lia.
    + rewrite Hr. unfold u64. rewrite Z.mod_small by (unfold is_page, PGSIZE in *; lia).
      apply (IH (i + PGSIZE) s1 l1); [|..|done|].
      * eapply copy_inv_add; try done.
      * rewrite <- (Z.mul_1_l PGSIZE). apply is_page_add; [done|lia|unfold PGSIZE in *; lia].
      * unfold PGSIZE in *. lia.
Qed.

(** [uvmcopy], both outcomes. *)
Lemma uvmcopy_ok old new sz s l :
  uvm s old (below sz) l -> uvm s new (fun _ => False) l ->
  (forall p, owned s.(k_mem) old (below sz) p -> ~ owned s.(k_mem) new (fun _ => False) p) ->
  0 <= sz <= TRAPFRAME ->
  exists r s' l', uvmcopy old new sz s = Ret r s' /\ uvm s' old (below sz) l' /\
    (forall va, pte s'.(k_mem) old va = pte s.(k_mem) old va) /\
    (forall p x, owned s.(k_mem) old (below sz) p -> in_page p x ->
       load8 s'.(k_mem) x = load8 s.(k_mem) x) /\
    ((r = 0 /\ uvm_op (fun _ => False) new s (fun _ => False) l s' (below sz) l' /\
      (forall va, is_page va -> va < sz -> page_copy s.(k_mem) old s'.(k_mem) new va)) \/
     (r = -1 /\ uvm_op (fun _ => False) new s (fun _ => False) l s' (fun _ => False) l' /\
      Z.of_nat (length l) < 3 * (PGROUNDUP sz / PGSIZE))).
Proof.
  intros Ho Hn Hd Hsz. pose proof TRAPFRAME_64.
  pose proof (PGROUNDUP_bounds sz ltac:(lia) ltac:(unfold PGSIZE in *; lia)) as Hb.
  pose proof (is_page_roundup sz ltac:(lia)) as Hp.
  assert (forall va, is_page va -> False <-> va < 0) as Hz by (intros va [_ ?]; lia).
  destruct (uvmcopy_loop_ok (Z.to_nat (sz / PGSIZE + 1)) old new 0 sz s l s l) as (r & s' & l' & Hr & Hres).
  - split; try done.
    + eapply uvm_op_iff; [exact Hz|]. by apply uvm_op_refl.
    + intros p Hp' Hq. apply (Hd p Hp'). rewrite owned_iff; [exact Hq|exact Hz].
    + intros va [_ ?] ?. lia.
    + rewrite Z.div_0_l by done. lia.
  - done.
  - done.
  - unfold PGSIZE in *. pose proof (Z.div_mod sz 4096). pose proof (Z.mod_pos_bound sz 4096).
    rewrite Z2Nat.id by lia. unfold is_page, PGSIZE in *. pose proof (Z.div_mod (PGROUNDUP sz) 4096). lia.
  - exists r, s', l'. split; [done|].
    destruct Hres as [(-> & [H1 H2 H3 H4 H5 H6 H7])|(-> & Hop & Ho' & Hlen)].
    + destruct (uvm_other _ new s _ l s' _ l' old (below sz) Hn H1 Ho Hd) as (Ho' & Hpte & _ & Hc).
      refine (conj Ho' (conj Hpte (conj Hc (or_introl (conj eq_refl (conj H1 _)))))).
      intros va Hva Hlt. apply H6; [done|lia].
    + destruct (uvm_other _ new s _ l s' _ l' old (below sz) Hn Hop Ho Hd) as (_ & Hpte & _ & Hc).
      refine (conj Ho' (conj Hpte (conj Hc (or_intror (conj eq_refl (conj Hop Hlen)))))).
Qed.

(** [C3] [uvmcopy], the heart of [fork]: given the parent's address space of
    [sz] bytes and the child's empty one, it either returns 0 and the child
    has a copy of every user page of the parent, with the same flags and
    contents in a page of its own; or it returns -1, only when memory runs
    short, and the child is empty again, with no page lost. The parent's
    mappings and contents do not change. *)
Theorem uvmcopy_correct old new sz s l :
  uvm s old (below sz) l -> uvm s new (fun _ => False) l ->
  (forall p, owned s.(k_mem) old (below sz) p -> ~ owned s.(k_mem) new (fun _ => False) p) ->
  0 <= sz <= TRAPFRAME ->
  exists r s' l', uvmcopy old new sz s = Ret r s' /\ uvm s' old (below sz) l' /\
    (forall va, pte s'.(k_mem) old va = pte s.(k_mem) old va) /\
    (forall p x, owned s.(k_mem) old (below sz) p -> in_page p x ->
       load8 s'.(k_mem) x = load8 s.(k_mem) x) /\
    ((r = 0 /\ uvm_op (fun _ => False) new s (fun _ => False) l s' (below sz) l' /\
      (forall va, is_page va -> va < sz -> page_copy s.(k_mem) old s'.(k_mem) new va)) \/
     (r = -1 /\ uvm_op (fun _ => False) new s (fun _ => False) l s' (fun _ => False) l' /\
      Z.of_nat (length l) < 3 * (PGROUNDUP sz / PGSIZE))).
Proof. apply uvmcopy_ok. Qed.

End UvmProps.
