(* ===== verification/UvmFree.v ===== *)
(** * Making and freeing address spaces (vm.c, proc.c)

    [uvmcreate], [freewalk] and [uvmfree], and the page table of a process
    with its trampoline and trapframe pages: [proc_pagetable] and
    [proc_freepagetable]. Freeing gives back every page the table owns. *)

From S2P Require Import Prelude Params Mem State Spinlock CString Kalloc Vm PageTable VmSpec UvmSpec UvmProps.

Section UvmFree.
Context {I : KernelImage} {L : KernelLayout I}.

(** A page of zeros is an empty page table. *)
Lemma zero_table m p path q :
  (forall x, in_page p x -> load8 m x = 0) -> path_ok path ->
  table m p path = Some q <-> path = [] /\ q = p.
Proof.
  intros Hz [Hlen Hall]. destruct path as [|i path]; simpl.
  - split; [intros [= ->]; done|intros [_ ->]; done].
  - apply Forall_cons in Hall as [Hi _]. rewrite (child_zero m p Hz i Hi). split; [done|].
    by intros [? _].
Qed.

Lemma zero_table_wf m p : page_ok p -> (forall x, in_page p x -> load8 m x = 0) -> pt_wf m p.
Proof.
  intros Hp Hz. split.
  - intros path q Hok [_ ->]%(zero_table _ _ _ _ Hz Hok). done.
  - intros path1 path2 q Hok1 Hok2 [-> _]%(zero_table _ _ _ _ Hz Hok1) [-> _]%(zero_table _ _ _ _ Hz Hok2). done.
  - intros path q i Hok. apply path_ok_snoc in Hok as (Hok & _ & Hi).
    intros [-> ->]%(zero_table _ _ _ _ Hz Hok) HV.
    pose proof (child_zero _ _ Hz i Hi) as Hc0. unfold child in Hc0. by rewrite HV in Hc0.
  - intros i Hi. apply (child_zero _ _ Hz). lia.
Qed.

(** [uvmcreate] pops a page and makes it an empty address space. *)
Lemma uvmcreate_ok s p l :
  kmem_rep s (p :: l) ->
  exists s', uvmcreate s = Ret p s' /\ uvm s' p (fun _ => False) l /\
    (forall va, pte s'.(k_mem) p va = 0) /\ frame s s' /\
    changed_in (in_page p) s.(k_mem) s'.(k_mem) /\
    (forall q, owned s'.(k_mem) p (fun _ => False) q -> q = p).
Proof.
  intros Hk. pose proof (fill_post_changed) as Hfc.
  assert (page_ok p) as Hp by (eapply flist_pages; [apply Hk|by left]).
  set (s' := fill_post (fun p m => memset m p 0 PGSIZE) p l s).
  assert (forall p m, changed_in (in_page p) m (memset m p 0 PGSIZE)) as Hf
    by (intros q m; apply memset_page_changed).
  assert (kmem_rep s' l) as Hk' by (by apply fill_post_rep with (root := 0) (a := 0) (perm := PTE_R)).
  assert (forall x, in_page p x -> load8 s'.(k_mem) x = 0) as Hz.
  { intros x Hx. unfold s', fill_post. ksimpl. rewrite load8_memset by done. by rewrite decide_True. }
  assert (changed_in (in_page p) s.(k_mem) s'.(k_mem)) as Hc
    by (by apply fill_post_changed with (root := 0) (a := 0) (perm := PTE_R)).
  assert (frame s s') as Hfr
    by (apply (frame_trans _ (kalloc_post p l s)); [apply frame_kalloc|apply frame_set_mem]).
  exists s'. split.
  { unfold uvmcreate. erewrite bind_Ret by (by apply kalloc_cons).
    rewrite (proj2 (Z.eqb_neq p 0)) by (by apply page_ok_nz). reflexivity. }
  assert (p ∉ l) as Hnl by (by apply NoDup_cons, (rep_nodup _ _ Hk)).
  clearbody s'. assert (forall va, pte s'.(k_mem) p va = 0) as Hpte.
  { intros va. unfold pte, slot. destruct (table (k_mem s') p (va_path va)) as [q|] eqn:E; [|done].
    apply (zero_table _ _ _ _ Hz (va_path_ok va)) in E as [E _]. done. }
  refine (conj _ (conj Hpte (conj Hfr (conj Hc _)))).
  2:{ intros q [(path & Hok & [_ ->]%(zero_table _ _ _ _ Hz Hok))|(_ & _ & [] & _)]. done. }
  split; try done; [split; [done|by apply zero_table_wf|]|].
  - intros q (path & Hok & [_ ->]%(zero_table _ _ _ _ Hz Hok)). done.
  - intros va _ _ _. by rewrite Hpte.
Qed.

(** Making a second address space next to a first. *)
Lemma uvmcreate_next s root D q l :
  uvm s root D (q :: l) ->
  exists s', uvmcreate s = Ret q s' /\ uvm s' root D l /\ uvm s' q (fun _ => False) l /\
    (forall p, owned s'.(k_mem) root D p -> ~ owned s'.(k_mem) q (fun _ => False) p).
Proof.
  intros Hu. pose proof (vr_kmem _ _ _ (uv_rep _ _ _ _ Hu)) as Hk.
  destruct (uvmcreate_ok s q l Hk) as (s' & Hr & Hn & Hp & _ & Hc & Hroot).
  assert (~ owned s.(k_mem) root D q) as Hno.
  { intros Ho. eapply owned_not_free; [exact Hu|exact Ho|by left]. }
  assert (forall p x, is_table s.(k_mem) root p -> in_page p x -> ~ in_page q x) as HP.
  { intros p x Hp'. assert (page_ok p) as Hpk by (eapply owned_page; [exact Hu|by left]).
    assert (page_ok q) as Hck by (eapply free_page; [exact Hu|by left]).
    apply (pages_disjoint p q x (proj1 Hpk) (proj1 Hck)). intros ->. apply Hno. by left. }
  exists s'. refine (conj Hr (conj _ (conj Hn _))).
  - apply (uvm_changed s s' root D (q :: l) l (in_page q)); try assumption.
    + apply (vr_kmem _ _ _ (uv_rep _ _ _ _ Hn)).
    + intros p Hpl Ho. eapply owned_not_free; [exact Hu|exact Ho|by right].
  - intros p Ho ->%Hroot. apply Hno.
    by apply (owned_changed s s' root D (q :: l) l (in_page q) Hu Hc HP).
Qed.

(** ** Freeing the page-table pages *)

(** The pages of the table of depth [d] at [p], in the order [freewalk] frees them. *)
Fixpoint tree_pages (d : nat) (m : memory) (p : Z) : list Z :=
  match d with
  | O => []
  | S d' => (zrange 0 512 ≫= fun i => match child m p i with Some q => tree_pages d' m q | None => [] end) ++ [p]
  end.

Definition sub_pages (d : nat) (m : memory) (p i : Z) : list Z :=
  match child m p i with Some q => tree_pages d m q | None => [] end.

(** What [freewalk] requires: pages of RAM, and no leaf. *)
Fixpoint tree_ok (d : nat) (m : memory) (p : Z) : Prop :=
  match d with
  | O => False
  | S d' => page_ok p /\ forall i, 0 <= i < 512 -> has (load64 m (p + 8 * i)) PTE_V = true ->
      has (load64 m (p + 8 * i)) PTE_RWX = false /\ tree_ok d' m (PTE2PA (load64 m (p + 8 * i)))
  end.

(** The entry [i] of [p], as [freewalk] needs it. *)
Definition entry_ok (d : nat) (m : memory) (p i : Z) : Prop :=
  has (load64 m (p + 8 * i)) PTE_V = true ->
  has (load64 m (p + 8 * i)) PTE_RWX = false /\ tree_ok d m (PTE2PA (load64 m (p + 8 * i))).

Lemma tree_pages_S d m p : tree_pages (S d) m p = (zrange 0 512 ≫= sub_pages d m p) ++ [p].
Proof. done. Qed.

Lemma tree_ok_S d m p : tree_ok (S d) m p <-> page_ok p /\ forall i, 0 <= i < 512 -> entry_ok d m p i.
Proof. done. Qed.

Lemma elem_of_sub d m p i q :
  q ∈ sub_pages d m p i <-> exists c, child m p i = Some c /\ q ∈ tree_pages d m c.
Proof.
  unfold sub_pages. destruct (child m p i) as [c|].
  - split; [by exists c|]. by intros (? & [= ->] & ?).
  - split; [by intros ?%elem_of_nil|by intros (? & ? & _)].
Qed.

Lemma elem_of_tree d m p q :
  q ∈ tree_pages (S d) m p <-> q = p \/ exists i, 0 <= i < 512 /\ q ∈ sub_pages d m p i.
Proof.
  rewrite tree_pages_S, elem_of_app, list_elem_of_singleton, list_elem_of_bind. setoid_rewrite elem_of_zrange.
  change (Z.of_nat 512) with 512. naive_solver.
Qed.

Lemma bind_ext_in {A B} (f g : A -> list B) l :
  (forall x, x ∈ l -> f x = g x) -> l ≫= f = l ≫= g.
Proof.
  induction l as [|x l IH]; intros H; [done|]. cbn. rewrite (H x) by left. f_equal. apply IH.
  intros y Hy. apply H. by right.
Qed.

(** The tree depends on the memory of its pages. *)
Lemma tree_ext d : forall m m' p,
  (forall q x, q ∈ tree_pages d m p -> in_page q x -> load8 m' x = load8 m x) ->
  tree_pages d m' p = tree_pages d m p /\ (tree_ok d m p -> tree_ok d m' p).
Proof.
  induction d as [|d IH]; intros m m' p H; [done|].
  assert (forall i, 0 <= i < 512 -> load64 m' (p + 8 * i) = load64 m (p + 8 * i)) as He.
  { intros i Hi. apply load64_ext. intros x Hx. apply (H p); [apply elem_of_tree; by left|].
    apply (in_entry_page p i x Hi). exact Hx. }
  assert (forall i q x, 0 <= i < 512 -> q ∈ sub_pages d m p i -> in_page q x -> load8 m' x = load8 m x) as Hs.
  { intros i q x Hi Hq. apply (H q). apply elem_of_tree. right. by exists i. }
  split.
  - rewrite !tree_pages_S. f_equal. apply bind_ext_in. intros i Hi%elem_of_zrange.
    unfold sub_pages, child in *. rewrite He by lia.
    destruct (has (load64 m (p + 8 * i)) PTE_V) eqn:E; [|done].
    apply IH. intros q x Hq. apply (Hs i q x); [lia|]. by rewrite E.
  - rewrite !tree_ok_S. intros [Hp Hok]. split; [done|]. intros i Hi. unfold entry_ok. rewrite He by done.
    intros HV. destruct (Hok i Hi HV) as [H1 H2]. split; [done|]. apply (IH m); [|done].
    intros q x Hq. apply (Hs i q x Hi). unfold sub_pages, child. by rewrite HV.
Qed.

Lemma tree_pages_ok d : forall m p q, tree_ok d m p -> q ∈ tree_pages d m p -> page_ok q.
Proof.
  induction d as [|d IH]; intros m p q Hok Hq; [done|]. apply tree_ok_S in Hok as [Hp He].
  apply elem_of_tree in Hq as [->|(i & Hi & (c & Hc & Hq)%elem_of_sub)]; [done|].
  unfold child in Hc. destruct (has (load64 m (p + 8 * i)) PTE_V) eqn:HV; [|done]. injection Hc as <-.
  destruct (He i Hi HV) as [_ Hok]. by eapply IH.
Qed.

(** The body of the loop of [freewalk]. *)
Definition free_entry (d : nat) (p i : Z) : K unit :=
  let! pte := read64 (p + 8 * i) in
  if has pte PTE_V && negb (has pte PTE_RWX) then
    freewalk d (PTE2PA pte) ;;
    write64 (p + 8 * i) 0
  else if has pte PTE_V then panic "freewalk: leaf"
  else ret tt.

Lemma freewalk_S d p : freewalk (S d) p = (for_each (zrange 0 512) (free_entry d p) ;; kfree p).
Proof. done. Qed.

(** Pages are freed: [ps] joins the free list, and no other page is written. *)
Record freed (ps : list Z) (s : kstate) (l : list Z) (s' : kstate) : Prop := {
  fr_rep : kmem_rep s' (reverse ps ++ l);
  fr_frame : frame s s';
  fr_changed : changed_in (fun x => exists q, q ∈ ps /\ in_page q x) s.(k_mem) s'.(k_mem);
}.

Section Entries.
Context (d : nat) (p : Z) (Hp : page_ok p).
Context (Hwalk : forall c s l, kmem_rep s l -> tree_ok d s.(k_mem) c -> NoDup (tree_pages d s.(k_mem) c) ->
  (forall q, q ∈ tree_pages d s.(k_mem) c -> q ∉ l) ->
  exists s', freewalk d c s = Ret tt s' /\ freed (tree_pages d s.(k_mem) c) s l s').

(** One entry: its table is freed and the entry is cleared. *)
Lemma free_entry_ok i s l :
  kmem_rep s l -> p ∉ l -> 0 <= i < 512 -> entry_ok d s.(k_mem) p i ->
  NoDup (sub_pages d s.(k_mem) p i) ->
  (forall q, q ∈ sub_pages d s.(k_mem) p i -> page_ok q /\ q <> p /\ q ∉ l) ->
  exists s', free_entry d p i s = Ret tt s' /\ kmem_rep s' (reverse (sub_pages d s.(k_mem) p i) ++ l) /\ frame s s' /\
    changed_in (fun x => in_entry p i x \/ exists q, q ∈ sub_pages d s.(k_mem) p i /\ in_page q x)
      s.(k_mem) s'.(k_mem).
Proof using L Hp Hwalk.
  intros Hk Hpl Hi He Hnd Hpg. unfold free_entry, read64. ksimpl. unfold entry_ok, sub_pages, child in *.
  set (v := load64 (k_mem s) (p + 8 * i)) in *. destruct (has v PTE_V) eqn:HV; cbn [andb].
  2:{ exists s. split_and!; [done|done|apply frame_refl|apply changed_in_refl]. }
  destruct (He eq_refl) as [-> Hok]. cbn [negb].
  destruct (Hwalk (PTE2PA v) s l Hk Hok Hnd) as (s1 & Hr & [Hk1 Hf1 Hc1]); [intros q Hq; apply (Hpg q Hq)|].
  rewrite Hr. unfold write64, set_memory. ksimpl.
  eexists. split; [reflexivity|].
  assert (changed_in (in_entry p i) (k_mem s1) (store64 (k_mem s1) (p + 8 * i) 0)) as Hc2
    by (apply changed_in_store64).
  split_and!.
  - eapply (kmem_rep_changed s1); [exact Hk1|exact Hc2| |done..].
    intros q x Hq Hx Hx'%in_entry_page; [|done]. rewrite elem_of_app, elem_of_reverse in Hq.
    assert (page_ok q /\ q <> p) as [Hqp Hne].
    { destruct Hq as [Hq|Hq]; [destruct (Hpg q Hq) as (? & ? & _); done|].
      split; [eapply flist_pages; [apply Hk|done]|by intros ->]. }
    by apply (pages_disjoint q p x (proj1 Hqp) (proj1 Hp)).
  - eapply frame_trans; [exact Hf1|apply frame_set_mem].
  - eapply changed_in_trans; eapply changed_in_mono; [|exact Hc1| |exact Hc2]; intros x Hx; auto.
Qed.

(** Entries other than the freed one, and their tables, are as they were. *)
Lemma sub_pages_same es i m m' :
  i ∉ es -> (forall j, j ∈ es -> 0 <= j < 512 /\ entry_ok d m p j) -> 0 <= i < 512 ->
  (forall q, q ∈ es ≫= sub_pages d m p -> page_ok q /\ q <> p /\ q ∉ sub_pages d m p i) ->
  (forall q, q ∈ sub_pages d m p i -> page_ok q /\ q <> p) ->
  changed_in (fun x => in_entry p i x \/ exists q, q ∈ sub_pages d m p i /\ in_page q x) m m' ->
  es ≫= sub_pages d m' p = es ≫= sub_pages d m p /\ (forall j, j ∈ es -> entry_ok d m' p j).
Proof using L Hp.
  intros Hi He Hir Hpg Hpi Hc.
  assert (forall j, j ∈ es -> load64 m' (p + 8 * j) = load64 m (p + 8 * j)) as Hent.
  { intros j Hj. destruct (He j Hj) as [Hjr _]. apply load64_ext. intros x Hx. apply Hc.
    intros [Hx'|(q & Hq & Hx')]; [apply (entries_disjoint p j i x); [by intros ->|exact Hx|done]|].
    destruct (Hpi q Hq) as [Hqp Hne]. apply (pages_disjoint q p x (proj1 Hqp) (proj1 Hp) Hne Hx').
    by apply (in_entry_page p j x). }
  assert (forall j q x, j ∈ es -> q ∈ sub_pages d m p j -> in_page q x -> load8 m' x = load8 m x) as Hsub.
  { intros j q x Hj Hq Hx. destruct (Hpg q) as (Hqp & Hne & Hni); [apply list_elem_of_bind; by exists j|].
    apply Hc. intros [Hx'%in_entry_page|(q' & Hq' & Hx')]; [|done|].
    - by apply (pages_disjoint q p x (proj1 Hqp) (proj1 Hp)).
    - destruct (Hpi q' Hq') as [Hqp' _]. apply (pages_disjoint q q' x (proj1 Hqp) (proj1 Hqp')); [|done|done].
      by intros ->. }
  assert (forall j, j ∈ es -> child m' p j = child m p j) as Hch by (intros j Hj; unfold child; by rewrite Hent).
  split.
  - apply bind_ext_in. intros j Hj. unfold sub_pages at 1. rewrite Hch by done.
    unfold sub_pages. destruct (child m p j) as [c|] eqn:E; [|done].
    apply tree_ext. intros q x Hq. apply (Hsub j q x Hj). unfold sub_pages. by rewrite E.
  - intros j Hj. unfold entry_ok. rewrite Hent by done. destruct (He j Hj) as [_ He']. intros HV.
    destruct (He' HV) as [H1 H2]. split; [done|]. eapply tree_ext, H2.
    intros q x Hq. apply (Hsub j q x Hj). unfold sub_pages, child. by rewrite HV.
Qed.

Lemma freewalk_entries es : forall s l,
  kmem_rep s l -> p ∉ l -> NoDup es ->
  (forall i, i ∈ es -> 0 <= i < 512 /\ entry_ok d s.(k_mem) p i) ->
  NoDup (es ≫= sub_pages d s.(k_mem) p) ->
  (forall q, q ∈ es ≫= sub_pages d s.(k_mem) p -> page_ok q /\ q <> p /\ q ∉ l) ->
  exists s', for_each es (free_entry d p) s = Ret tt s' /\
    kmem_rep s' (reverse (es ≫= sub_pages d s.(k_mem) p) ++ l) /\ frame s s' /\
    changed_in (fun x => in_page p x \/ exists q, q ∈ es ≫= sub_pages d s.(k_mem) p /\ in_page q x)
      s.(k_mem) s'.(k_mem).
Proof using L Hp Hwalk.
  induction es as [|i es IH]; intros s l Hk Hpl Hnd Hent Hnp Hpg.
  { exists s. split_and!; [done|done|apply frame_refl|apply changed_in_refl]. }
  apply NoDup_cons in Hnd as [Hi Hnd]. cbn [for_each].
  change ((i :: es) ≫= sub_pages d (k_mem s) p) with (sub_pages d (k_mem s) p i ++ (es ≫= sub_pages d (k_mem s) p)) in *.
  apply NoDup_app in Hnp as (Hnh & Hdis & Hnr). setoid_rewrite elem_of_app in Hpg.
  destruct (Hent i ltac:(left)) as [Hir Hei].
  destruct (free_entry_ok i s l Hk Hpl Hir Hei Hnh) as (s1 & Hr & Hk1 & Hf1 & Hc1); [auto|].
  destruct (sub_pages_same es i (k_mem s) (k_mem s1)) as [Eb He1]; try done.
  { intros j Hj. apply Hent. by right. }
  { intros q Hq. destruct (Hpg q (or_intror Hq)) as (? & ? & _). split_and!; [done|done|].
    intros Hq'. by apply (Hdis q Hq'). }
  { intros q Hq. destruct (Hpg q (or_introl Hq)) as (? & ? & _). done. }
  destruct (IH s1 (reverse (sub_pages d (k_mem s) p i) ++ l) Hk1) as (s2 & Hr2 & Hk2 & Hf2 & Hc2).
  { rewrite elem_of_app, elem_of_reverse. intros [Hq|?]; [|done]. by destruct (Hpg p (or_introl Hq)) as (_ & ? & _). }
  { done. }
  { intros j Hj. split; [apply Hent; by right|by apply He1]. }
  { by rewrite Eb. }
  { rewrite Eb. intros q Hq. destruct (Hpg q (or_intror Hq)) as (? & ? & Hql). split_and!; [done|done|].
    rewrite elem_of_app, elem_of_reverse. intros [Hq'|?]; [by apply (Hdis q Hq')|done]. }
  exists s2. rewrite Eb in Hk2, Hc2. split_and!.
  - by erewrite bind_Ret by exact Hr.
  - rewrite reverse_app, <- app_assoc. exact Hk2.
  - by eapply frame_trans.
  - setoid_rewrite elem_of_app.
    eapply changed_in_trans; eapply changed_in_mono; [|exact Hc1| |exact Hc2]; intros x; cbv beta.
    + intros [Hx|(q & ? & ?)]; [left; by eapply in_entry_page|right; exists q; auto].
    + intros [?|(q & ? & ?)]; [by left|right; exists q; auto].
Qed.

End Entries.

(** [freewalk] frees exactly the pages of the table. *)
Lemma freewalk_ok d : forall p s l,
  kmem_rep s l -> tree_ok d s.(k_mem) p -> NoDup (tree_pages d s.(k_mem) p) ->
  (forall q, q ∈ tree_pages d s.(k_mem) p -> q ∉ l) ->
  exists s', freewalk d p s = Ret tt s' /\ freed (tree_pages d s.(k_mem) p) s l s'.
Proof.
  induction d as [|d IH]; intros p s l Hk Hok Hnd Hl; [done|].
  apply tree_ok_S in Hok as [Hp He]. rewrite freewalk_S. rewrite tree_pages_S in *.
  apply NoDup_app in Hnd as (Hnd & Hnp & _). setoid_rewrite elem_of_app in Hl.
  set (ps := zrange 0 512 ≫= sub_pages d (k_mem s) p) in *.
  assert (p ∉ l) as Hpl by (apply Hl; right; by apply list_elem_of_singleton).
  assert (forall q, q ∈ ps -> page_ok q /\ q <> p /\ q ∉ l) as Hps.
  { intros q Hq. split_and!; [|intros ->; by apply (Hnp p Hq), list_elem_of_singleton|apply Hl; by left].
    apply list_elem_of_bind in Hq as (i & Hq & Hi%elem_of_zrange). apply elem_of_sub in Hq as (c & Hc & Hq).
    unfold child in Hc. destruct (has (load64 (k_mem s) (p + 8 * i)) PTE_V) eqn:HV; [|done].
    injection Hc as <-. destruct (He i ltac:(lia) HV) as [_ Hok]. by eapply tree_pages_ok. }
  destruct (freewalk_entries d p Hp IH (zrange 0 512) s l Hk Hpl (NoDup_zrange _ _))
    as (s1 & Hr & Hk1 & Hf1 & Hc1); [|done|done|].
  { intros i Hi%elem_of_zrange. split; [lia|exact (He i ltac:(lia))]. }
  fold ps in Hk1, Hc1. assert (p ∉ reverse ps ++ l) as Hp1.
  { rewrite elem_of_app, elem_of_reverse. intros [Hq|?]; [|done]. by destruct (Hps p Hq) as (_ & ? & _). }
  exists (kfree_post p s1). split; [erewrite bind_Ret by exact Hr; by eapply kfree_ok|]. split.
  - rewrite reverse_app. by apply kfree_post_rep.
  - eapply frame_trans; [exact Hf1|apply frame_kfree].
  - assert (p ∈ ps ++ [p]) as Hpp by (apply elem_of_app; right; by apply list_elem_of_singleton).
    eapply changed_in_trans; eapply changed_in_mono; [|exact Hc1| |apply kfree_post_changed]; intros x; cbv beta.
    + intros [Hx|(q & ? & ?)]; [exists p; auto|exists q]. split; [apply elem_of_app; by left|done].
    + intros Hx. exists p. auto.
Qed.

(** ** The table of an address space *)

Lemma elem_of_tree_table d : forall m p q,
  q ∈ tree_pages d m p <->
  exists rest, (length rest < d)%nat /\ Forall (fun i => 0 <= i < 512) rest /\ table m p rest = Some q.
Proof.
  induction d as [|d IH]; intros m p q.
  { split; [by intros ?%elem_of_nil|intros (? & ? & _); lia]. }
  rewrite elem_of_tree. setoid_rewrite elem_of_sub. setoid_rewrite IH. split.
  - intros [->|(i & Hi & c & Hc & rest & Hl & Hr & Ht)]; [exists []; split_and!; [simpl; lia|constructor|done]|].
    exists (i :: rest). split_and!; [simpl; lia|by constructor|]. simpl. by rewrite Hc.
  - intros ([|i rest] & Hl & Hr & Ht); [left; simpl in Ht; congruence|right]. simpl in Ht.
    apply Forall_cons in Hr as [Hi Hr]. exists i. split; [done|].
    destruct (child m p i) as [c|]; [|done]. exists c. split; [done|]. exists rest. simpl in Hl. split_and!; [lia|done|done].
Qed.

Lemma elem_of_tree_root m root q : q ∈ tree_pages 3 m root <-> is_table m root q.
Proof.
  rewrite elem_of_tree_table. unfold is_table, path_ok. split; intros (rest & H); exists rest; intuition lia.
Qed.

Lemma NoDup_tree d : forall m p,
  (forall r1 r2 q, (length r1 < d)%nat -> (length r2 < d)%nat ->
    Forall (fun i => 0 <= i < 512) r1 -> Forall (fun i => 0 <= i < 512) r2 ->
    table m p r1 = Some q -> table m p r2 = Some q -> r1 = r2) ->
  NoDup (tree_pages d m p).
Proof.
  induction d as [|d IH]; intros m p H; [constructor|]. rewrite tree_pages_S.
  assert (forall i q, 0 <= i < 512 -> q ∈ sub_pages d m p i -> exists rest, (length (i :: rest) < S d)%nat /\
    Forall (fun i => 0 <= i < 512) (i :: rest) /\ table m p (i :: rest) = Some q) as Hsub.
  { intros i q Hi (c & Hc & (rest & Hl & Hr & Ht)%elem_of_tree_table)%elem_of_sub.
    exists rest. split_and!; [simpl; lia|by constructor|]. simpl. by rewrite Hc. }
  apply NoDup_app. split_and!; [| |apply NoDup_singleton].
  - apply NoDup_bind; [| |apply NoDup_zrange].
    + intros i j q Hi%elem_of_zrange Hj%elem_of_zrange Hqi Hqj.
      destruct (Hsub i q ltac:(lia) Hqi) as (r1 & ? & ? & ?). destruct (Hsub j q ltac:(lia) Hqj) as (r2 & ? & ? & ?).
      assert (i :: r1 = j :: r2) as E by (by eapply H). by injection E.
    + intros i Hi%elem_of_zrange. unfold sub_pages. destruct (child m p i) as [c|] eqn:Ec; [|constructor].
      apply IH. intros r1 r2 q Hl1 Hl2 Hr1 Hr2 Ht1 Ht2.
      assert (i :: r1 = i :: r2) as E; [|by injection E].
      apply (H _ _ q); [simpl; lia|simpl; lia|constructor; [lia|done]|constructor; [lia|done]| |];
        simpl; by rewrite Ec.
  - intros q (i & Hq & Hi%elem_of_zrange)%list_elem_of_bind ->%list_elem_of_singleton.
    destruct (Hsub i p ltac:(lia) Hq) as (r & Hl & Hr & Ht). by specialize (H [] (i :: r) p ltac:(simpl; lia) Hl ltac:(constructor) Hr eq_refl Ht).
Qed.

(** The address with the given indices. *)
Lemma va_of_indices a b c : 0 <= a < 256 -> 0 <= b < 512 -> 0 <= c < 512 ->
  let va := a * 2 ^ 30 + b * 2 ^ 21 + c * 2 ^ 12 in
  is_page va /\ PX 2 va = a /\ PX 1 va = b /\ PX 0 va = c.
Proof.
  intros Ha Hb Hc va. unfold is_page. rewrite !PX_eq by lia. change MAXVA with (2 ^ 38). unfold PGSIZE.
  change (2 ^ (12 + 9 * 2)) with (2 ^ 30). change (2 ^ (12 + 9 * 1)) with (2 ^ 21).
  change (2 ^ (12 + 9 * 0)) with (2 ^ 12). unfold va.
  Z.to_euclidean_division_equations. lia.
Qed.

Lemma tree_ok_tables m root :
  pt_wf m root -> (forall va, is_page va -> has (pte m root va) PTE_V = false) -> tree_ok 3 m root.
Proof.
  intros Hwf Hnone. cut (forall d path p, (S d + length path = 3)%nat -> path_ok path -> table m root path = Some p ->
    tree_ok (S d) m p); [intros H; by apply (H 2%nat []); [|apply path_ok_nil|]|].
  induction d as [|d IH]; intros path p Hl Hok Ht; apply tree_ok_S.
  - split; [by eapply wf_page|]. intros i Hi HV. exfalso.
    destruct path as [|a [|b [|]]]; try (simpl in Hl; lia).
    destruct Hok as [_ Hall]. apply Forall_cons in Hall as [Ha Hall]. apply Forall_cons in Hall as [Hb _].
    assert (a < 256).
    { destruct (Z.lt_ge_cases a 256) as [|Hge]; [done|]. simpl in Ht. by rewrite (wf_half _ _ Hwf a) in Ht by lia. }
    destruct (va_of_indices a b i ltac:(lia) Hb Hi) as (Hp & E2 & E1 & E0). specialize (Hnone _ Hp).
    unfold pte, slot, va_path in Hnone. rewrite E2, E1, E0, Ht in Hnone. congruence.
  - split; [by eapply wf_page|]. intros i Hi HV.
    assert (path_ok (path ++ [i])) as Hok'.
    { apply path_ok_snoc. split_and!; [done|simpl in Hl; lia|lia|lia]. }
    split; [by eapply (wf_inner _ _ Hwf)|]. apply (IH (path ++ [i])); [rewrite length_app; simpl; lia|done|].
    rewrite table_snoc, Ht. unfold child. by rewrite HV.
Qed.

(** [freewalk] on a page table that maps nothing. *)
Lemma freewalk_root root s l :
  vm_rep s root l -> (forall va, is_page va -> has (pte s.(k_mem) root va) PTE_V = false) ->
  exists s' l', freewalk 3 root s = Ret tt s' /\ kmem_rep s' l' /\ frame s s' /\
    (forall q, q ∈ l' <-> is_table s.(k_mem) root q \/ q ∈ l) /\
    changed_in (fun x => exists q, is_table s.(k_mem) root q /\ in_page q x) s.(k_mem) s'.(k_mem).
Proof.
  intros [Hk Hwf Hfree] Hnone.
  destruct (freewalk_ok 3 root s l Hk) as (s' & Hr & [Hk' Hf Hc]).
  - by apply tree_ok_tables.
  - apply NoDup_tree. intros r1 r2 q ? ? ? ?. apply (wf_inj _ _ Hwf); split; auto with lia.
  - intros q Hq%elem_of_tree_root. by apply Hfree.
  - eexists s', _. split_and!; [done|exact Hk'|done| |].
    + intros q. by rewrite elem_of_app, elem_of_reverse, elem_of_tree_root.
    + by setoid_rewrite elem_of_tree_root in Hc.
Qed.

(** ** Freeing an address space *)

(** The address space is gone: its pages have joined the free list. *)
Record uvm_gone (root : Z) (s : kstate) (D : Z -> Prop) (l : list Z) (s' : kstate) (l' : list Z) : Prop := {
  ug_rep : kmem_rep s' l';
  ug_frame : frame s s';
  ug_pages : forall q, q ∈ l' <-> owned s.(k_mem) root D q \/ q ∈ l;
  ug_changed : changed_in (fun x => exists q, (owned s.(k_mem) root D q \/ q ∈ l) /\ in_page q x)
    s.(k_mem) s'.(k_mem);
}.

Lemma unmap_user root sz s l :
  uvm s root (below sz) l -> 0 <= sz <= TRAPFRAME ->
  exists s' l', when (sz >? 0) (uvmunmap root 0 (PGROUNDUP sz / PGSIZE) true) s = Ret tt s' /\
    uvm_op (fun _ => False) root s (below sz) l s' (fun va => va < 0) l'.
Proof.
  intros Hu Hsz. pose proof (PGROUNDUP_trapframe sz Hsz) as Hr. pose proof (is_page_roundup sz Hsz) as Hpg.
  set (n := Z.to_nat (PGROUNDUP sz / PGSIZE)).
  assert (PGROUNDUP sz = 0 + Z.of_nat n * PGSIZE) as En.
  { unfold n. destruct Hpg as [Hm _]. unfold PGSIZE in *.
    rewrite Z2Nat.id by (apply Z.div_pos; lia). pose proof (Z.div_mod (PGROUNDUP sz) 4096 ltac:(lia)). lia. }
  destruct (uvmunmap_loop_ok n root 0 s (below sz) l Hu) as (s' & l' & Hr' & Hop).
  { split; [done|]. by compute. } { rewrite <- En. lia. } { intros va _ Hva. unfold below. lia. }
  rewrite <- En in *.
  assert (forall va, is_page va -> below sz va /\ ~ (0 <= va < PGROUNDUP sz) <-> va < 0) as Hiff
    by (unfold below, is_page; intros; lia).
  exists s', l'. split.
  - rewrite Z.gtb_ltb. destruct (Z.ltb_spec 0 sz) as [Hpos|Hle]; cbn [when].
    + unfold uvmunmap. change (0 mod PGSIZE =? 0) with true. cbn [negb]. fold n.
      rewrite <- Hr'. f_equal. unfold u64. destruct Hpg as [Hm _]. pose proof TRAPFRAME_64.
      replace (0 + PGROUNDUP sz / PGSIZE * PGSIZE) with (PGROUNDUP sz).
      * apply Z.mod_small. unfold PGSIZE in *. lia.
      * unfold PGSIZE in *. pose proof (Z.div_mod (PGROUNDUP sz) 4096 ltac:(lia)). lia.
    + assert (sz = 0) as -> by lia. change (PGROUNDUP 0) with 0 in *. unfold n in Hr'. exact Hr'.
  - eapply uvm_op_keep_mono, uvm_op_iff, Hop; [by intros|]. intros va Hva. cbv beta. by apply Hiff.
Qed.

Lemma uvmfree_ok root sz s l :
  uvm s root (below sz) l -> 0 <= sz <= TRAPFRAME ->
  (forall va, is_page va -> TRAPFRAME <= va -> has (pte s.(k_mem) root va) PTE_V = false) ->
  exists s' l', uvmfree root sz s = Ret tt s' /\ uvm_gone root s (below sz) l s' l'.
Proof.
  intros Hu Hsz Hhigh. destruct (unmap_user root sz s l Hu Hsz) as (s1 & l1 & Hr1 & [Hu1 Hf1 Hp1 Hc1 _ Hh1]).
  destruct (freewalk_root root s1 l1 (uv_rep _ _ _ _ Hu1)) as (s2 & l2 & Hr2 & Hk2 & Hf2 & Hp2 & Hc2).
  { intros va Hva. destruct (Z.lt_ge_cases va TRAPFRAME) as [Hlo|Hhi].
    - apply (uv_none _ _ _ _ Hu1); [done| |done]. destruct Hva as [_ Hva]. lia.
    - rewrite Hh1 by done. by apply Hhigh. }
  exists s2, l2. split; [unfold uvmfree; by erewrite bind_Ret by exact Hr1|].
  assert (forall q, is_table (k_mem s1) root q -> owned (k_mem s1) root (fun va => va < 0) q) as Ho by (by left).
  split; [done|by eapply frame_trans| |].
  - intros q. rewrite Hp2, <- Hp1. split; [intros [?|?]; auto|].
    intros [[?|(va & [_ ?] & ? & _)]|?]; [auto|lia|auto].
  - eapply changed_in_trans; [exact Hc1|]. eapply changed_in_mono, Hc2. intros x (q & Hq & Hx).
    exists q. split; [|done]. apply Hp1. auto.
Qed.

(** Unmapping a page without freeing it. *)
Lemma unmap_leaf root va s l :
  vm_rep s root l -> is_page va -> has (pte s.(k_mem) root va) PTE_V = true ->
  PTE_FLAGS (pte s.(k_mem) root va) <> PTE_V ->
  exists s', uvmunmap root va 1 false s = Ret tt s' /\ vm_step root s l s' l /\
    forall va', is_page va' -> pte s'.(k_mem) root va' = if decide (va' = va) then 0 else pte s.(k_mem) root va'.
Proof.
  intros Hrep Hva HV HF. destruct (pte_slot s.(k_mem) root va HV) as (sl & Hsl & Hv).
  destruct (vm_step_leaf root s l va sl 0 Hrep Hsl ltac:(lia)) as [Hst Hpte].
  eexists. split; [|split; [exact Hst|]].
  - unfold uvmunmap. rewrite (proj2 (Z.eqb_eq _ _)) by apply Hva. cbn [negb].
    change (Z.to_nat 1) with 1%nat. assert (MAXVA + PGSIZE < 2 ^ 64) by done. unfold is_page in Hva.
    assert (u64 (va + 1 * PGSIZE) = va + PGSIZE) as -> by (unfold u64; rewrite Z.mod_small; unfold PGSIZE in *; lia).
    rewrite uvmunmap_loop_S by (unfold PGSIZE; lia).
    erewrite bind_Ret by (apply walk_lookup; lia). rewrite Hsl.
    rewrite (proj2 (Z.eqb_neq _ _)) by (eapply slot_nz; [apply Hrep|exact Hsl]).
    unfold read64. ksimpl. rewrite <- Hv, HV. ksimpl. rewrite (proj2 (Z.eqb_neq _ _)) by done.
    unfold write64, set_memory. ksimpl. cbn [uvmunmap_loop].
    assert (u64 (va + PGSIZE) = va + PGSIZE) as -> by (unfold u64; rewrite Z.mod_small; unfold PGSIZE in *; lia).
    by rewrite Z.ltb_irrefl.
  - intros va' Hva'. rewrite Hpte. case_decide as E.
    + subst va'. by rewrite bool_decide_true.
    + rewrite bool_decide_false; [done|]. intros (E2 & E1 & E0). apply E.
      destruct Hva as [??], Hva' as [??]. by apply PX_page.
Qed.

End UvmFree.
