(* ===== verification/CopySpec.v ===== *)
(** * Copies between kernel and user memory (vm.c): theorems *)

From S2P Require Import Prelude Params Mem State Spinlock CString Kalloc Vm PageTable VmSpec UvmSpec.

Section CopySpec.
Context {I : KernelImage} {L : KernelLayout I}.

(** The physical address of a user virtual address. *)
Definition uaddr (m : memory) (root va : Z) : Z := upa m root (PGROUNDDOWN va) + va mod PGSIZE.

(** What the user program may read and write. *)
Definition readable (m : memory) (root va : Z) : Prop :=
  va < MAXVA /\ has (pte m root (PGROUNDDOWN va)) PTE_V = true /\
  has (pte m root (PGROUNDDOWN va)) PTE_U = true.
Definition writable (m : memory) (root va : Z) : Prop :=
  readable m root va /\ has (pte m root (PGROUNDDOWN va)) PTE_W = true.

(** A user address space of [sz] bytes; the trampoline and the trapframe are
    not user-accessible. *)
Record uspace (s : kstate) (root sz : Z) (l : list Z) : Prop := {
  us_uvm : uvm s root (below sz) l;
  us_sz : 0 <= sz <= TRAPFRAME;
  us_high : forall va, is_page va -> TRAPFRAME <= va -> has (pte s.(k_mem) root va) PTE_U = false;
}.

(** The address space depends on memory and the page allocator. *)
Lemma uspace_ext s t root sz l :
  uspace s root sz l -> t.(k_mem) = s.(k_mem) -> t.(k_freelist) = s.(k_freelist) ->
  t.(k_locks) !! kmem_lock = None -> hart_ok t.(k_hart) -> uspace t root sz l.
Proof.
  intros [[Hrep H1 H2 H3 H4 H5] H6 H7] Em Ef El Eh. destruct Hrep as [[K1 K2 K3 K4] W1 W2].
  constructor; [|done|by rewrite Em]. constructor; rewrite ?Em; try done.
  constructor; rewrite ?Em; try done. constructor; [by rewrite Em, Ef|done|done|done].
Qed.

Lemma rounddown_page va : 0 <= va < MAXVA -> is_page (PGROUNDDOWN va).
Proof.
  intros H. split; [apply PGROUNDDOWN_aligned|]. pose proof (PGROUNDDOWN_le va).
  rewrite PGROUNDDOWN_eq in *. unfold PGSIZE in *. pose proof (Z.div_pos va 4096). lia.
Qed.

Lemma rounddown_mod va : va = PGROUNDDOWN va + va mod PGSIZE /\ 0 <= va mod PGSIZE < PGSIZE.
Proof.
  rewrite PGROUNDDOWN_eq. pose proof (Z.div_mod va PGSIZE ltac:(done)).
  pose proof (Z.mod_pos_bound va PGSIZE ltac:(done)). lia.
Qed.

(** The bytes of a page. *)
Lemma rounddown_off va i :
  0 <= i -> va mod PGSIZE + i < PGSIZE ->
  PGROUNDDOWN (va + i) = PGROUNDDOWN va /\ (va + i) mod PGSIZE = va mod PGSIZE + i.
Proof.
  intros H1 H2. pose proof (rounddown_mod va) as [E H]. rewrite !PGROUNDDOWN_eq in *. unfold PGSIZE in *.
  set (r := va mod 4096) in *. set (q := va / 4096) in *. clearbody r q. subst va.
  replace (4096 * q + r + i) with ((r + i) + q * 4096) by lia.
  rewrite Z.div_add, Z.mod_add, Z.div_small, Z.mod_small by lia. lia.
Qed.

Section Space.
Context (s : kstate) (root sz : Z) (l : list Z) (Hs : uspace s root sz l).
Abbreviation m := s.(k_mem).

(** Readable addresses lie in user pages. *)
Lemma readable_page va : 0 <= va -> readable m root va ->
  is_page (PGROUNDDOWN va) /\ below sz (PGROUNDDOWN va) /\ page_ok (upa m root (PGROUNDDOWN va)).
Proof using Hs L.
  intros H0 (HM & HV & HU). pose proof (rounddown_page va ltac:(lia)) as Hp.
  destruct (Z.lt_ge_cases (PGROUNDDOWN va) TRAPFRAME) as [Hlow|Hhi].
  - destruct (Z.lt_ge_cases (PGROUNDDOWN va) (PGROUNDUP sz)) as [Hb|Hb].
    + split; [done|]. split; [done|]. by apply (uv_page _ _ _ _ (us_uvm _ _ _ _ Hs)).
    + rewrite (uv_none _ _ _ _ (us_uvm _ _ _ _ Hs)) in HV; [done|done| |done]. unfold below. lia.
  - by rewrite (us_high _ _ _ _ Hs) in HU.
Qed.

Lemma uaddr_in_page va : in_page (upa m root (PGROUNDDOWN va)) (uaddr m root va).
Proof using Type. unfold in_page, uaddr. pose proof (rounddown_mod va). lia. Qed.

Lemma uaddr_inj va va' : 0 <= va -> 0 <= va' -> readable m root va -> readable m root va' ->
  uaddr m root va = uaddr m root va' -> va = va'.
Proof using Hs L.
  intros H0 H0' Hr Hr' E. destruct (readable_page va H0 Hr) as (Hp & Hb & Ho).
  destruct (readable_page va' H0' Hr') as (Hp' & Hb' & Ho').
  destruct (Z.eq_dec (upa m root (PGROUNDDOWN va)) (upa m root (PGROUNDDOWN va'))) as [Eq|Hne].
  - pose proof (uv_inj _ _ _ _ (us_uvm _ _ _ _ Hs) _ _ Hp Hp' Hb Hb' Eq) as Er.
    unfold uaddr in E. pose proof (rounddown_mod va). pose proof (rounddown_mod va'). lia.
  - exfalso. apply (pages_disjoint _ _ (uaddr m root va) (proj1 Ho) (proj1 Ho') Hne).
    + apply uaddr_in_page.
    + rewrite E. apply uaddr_in_page.
Qed.

(** Writes to user pages keep the address space and its mappings. *)
Lemma uspace_write m' (P : Z -> Prop) :
  changed_in P m m' ->
  (forall x, P x -> exists va, 0 <= va /\ readable m root va /\ in_page (upa m root (PGROUNDDOWN va)) x) ->
  uspace (set_mem m' s) root sz l /\ (forall va, pte m' root va = pte m root va).
Proof using Hs L.
  intros Hc HP. pose proof (us_uvm _ _ _ _ Hs) as Hu.
  assert (forall va, 0 <= va -> readable m root va -> owned m root (below sz) (upa m root (PGROUNDDOWN va))) as Hown.
  { intros va H0 Hr. destruct (readable_page va H0 Hr) as (? & ? & ?). right. eauto. }
  assert (forall p x, is_table m root p -> in_page p x -> ~ P x) as HPt.
  { intros p x Hp Hx (va & H0 & Hr & Hx')%HP. destruct (readable_page va H0 Hr) as (Hpg & Hb & Ho).
    destruct (uv_page _ _ _ _ Hu _ Hpg Hb) as (_ & _ & Hnt).
    apply (pages_disjoint p (upa m root (PGROUNDDOWN va)) x); try done.
    - eapply is_table_page; [apply (vr_wf _ _ _ (uv_rep _ _ _ _ Hu))|done].
    - apply Ho.
    - intros ->. done. }
  assert (forall va, pte m' root va = pte m root va) as Hpte
    by (intros va; by eapply (pte_changed s (set_mem m' s) root (below sz) l l P)).
  split; [|done]. split; [|apply Hs|intros va; rewrite Hpte; apply (us_high _ _ _ _ Hs)].
  eapply (uvm_changed s (set_mem m' s) root (below sz) l l P); try done.
  - eapply kmem_rep_changed; [apply (vr_kmem _ _ _ (uv_rep _ _ _ _ Hu))|exact Hc| |done..].
    intros p x Hp Hx (va & H0 & Hr & Hx')%HP. destruct (readable_page va H0 Hr) as (Hpg & Hb & Ho).
    apply (pages_disjoint p (upa m root (PGROUNDDOWN va)) x); try done.
    + eapply free_page; [exact Hu|done].
    + apply Ho.
    + intros ->. eapply owned_not_free; [exact Hu|by apply Hown|done].
  - intros p Hp Ho. by eapply owned_not_free.
Qed.

End Space.

Lemma writable_dec m root va : writable m root va \/ ~ writable m root va.
Proof.
  unfold writable, readable. destruct (Z.lt_ge_cases va MAXVA); [|right; lia].
  destruct (has _ PTE_V), (has _ PTE_U), (has _ PTE_W); (by left) || (right; intros [(? & ? & ?) ?]; done).
Qed.

Lemma same_access m root va va' :
  PGROUNDDOWN va = PGROUNDDOWN va' -> va' < MAXVA -> readable m root va -> readable m root va'.
Proof. intros E H (? & ? & ?). unfold readable. by rewrite <- E. Qed.

Lemma maxva_page va : PGROUNDDOWN va < MAXVA <-> va < MAXVA.
Proof.
  pose proof (rounddown_mod va) as [E H]. rewrite PGROUNDDOWN_eq in *. unfold PGSIZE in *.
  change MAXVA with (67108864 * 4096). set (q := va / 4096) in *. set (r := va mod 4096) in *.
  clearbody q r. lia.
Qed.

(** The bytes one iteration of the loop of [copyout] copies. *)
Definition page_chunk (va len : Z) : Z := Z.min (PGSIZE - va mod PGSIZE) len.

Lemma page_chunk_spec va len : 0 < len -> 0 < page_chunk va len <= len /\
  va mod PGSIZE + page_chunk va len <= PGSIZE /\
  (page_chunk va len < len -> PGROUNDDOWN va + PGSIZE = va + page_chunk va len).
Proof. unfold page_chunk. pose proof (rounddown_mod va). lia. Qed.

Lemma copyout_step fuel root sz dstva src s l :
  uspace s root sz l -> 0 <= dstva -> src <> [] ->
  let n := Z.to_nat (page_chunk dstva (Z.of_nat (length src))) in
  (writable s.(k_mem) root dstva /\
   copyout_loop (S fuel) root dstva src s =
   copyout_loop fuel root (u64 (PGROUNDDOWN dstva + PGSIZE)) (drop n src)
     (set_mem (store_bytes s.(k_mem) (uaddr s.(k_mem) root dstva) (take n src)) s)) \/
  (~ writable s.(k_mem) root dstva /\ copyout_loop (S fuel) root dstva src s = Ret (-1) s).
Proof.
  intros Hs H0 Hne n. assert (0 < length src)%nat by (destruct src; [done|simpl; lia]).
  cbn [copyout_loop]. rewrite Z.gtb_ltb, (proj2 (Z.ltb_lt _ _)) by lia.
  rewrite Z.geb_leb. destruct (Z.leb_spec MAXVA (PGROUNDDOWN dstva)) as [HM|HM].
  { right. split; [|done]. intros [(HM' & _) _]. apply maxva_page in HM'. lia. }
  erewrite bind_Ret by (by apply walk_lookup).
  pose proof (us_uvm _ _ _ _ Hs) as Hu. pose proof (rounddown_mod dstva) as [E Hm].
  unfold writable, readable. pose proof (proj1 (maxva_page dstva) HM) as HM'.
  destruct (slot (k_mem s) root (PGROUNDDOWN dstva)) as [a|] eqn:Hsl.
  2:{ right. unfold pte. rewrite Hsl. split; [|done]. intros [(_ & ? & _) _]. done. }
  rewrite (proj2 (Z.eqb_neq _ _)) by (eapply slot_nz; [apply (vr_wf _ _ _ (uv_rep _ _ _ _ Hu))|exact Hsl]).
  assert (pte (k_mem s) root (PGROUNDDOWN dstva) = load64 (k_mem s) a) as Ea by (unfold pte; by rewrite Hsl).
  unfold read64. ksimpl. rewrite <- Ea.
  replace (dstva - PGROUNDDOWN dstva) with (dstva mod PGSIZE) by lia.
  destruct (has _ PTE_V) eqn:HV, (has _ PTE_U) eqn:HU, (has _ PTE_W) eqn:HW; cbn [negb orb];
    first [right; split; [intros [(_ & ? & ?) ?]; done|reflexivity]|left].
  split; [done|]. unfold set_memory. ksimpl. reflexivity.
Qed.

(** The address space after copying [src] to [dstva]. *)
Definition copied_to (m : memory) (root dstva : Z) (src : list Z) (m' : memory) : Prop :=
  changed_in (fun x => exists i, (i < length src)%nat /\ writable m root (dstva + Z.of_nat i) /\
    x = uaddr m root (dstva + Z.of_nat i)) m m'.

Lemma uaddr_pte m m' root va :
  (forall va, pte m' root va = pte m root va) -> uaddr m' root va = uaddr m root va.
Proof. intros H. unfold uaddr, upa. by rewrite H. Qed.

Lemma writable_pte m m' root va :
  (forall va, pte m' root va = pte m root va) -> writable m' root va <-> writable m root va.
Proof. intros H. unfold writable, readable. by rewrite H. Qed.

(** The bytes of a chunk are consecutive in physical memory. *)
Lemma uaddr_chunk m root va i :
  0 <= i -> va mod PGSIZE + i < PGSIZE ->
  uaddr m root (va + i) = uaddr m root va + i /\ (writable m root va -> writable m root (va + i)).
Proof.
  intros H1 H2. destruct (rounddown_off va i H1 H2) as [E1 E2]. split.
  - unfold uaddr. rewrite E1, E2. lia.
  - intros [(HM & HV & HU) HW]. unfold writable, readable. rewrite E1. split_and!; try done.
    apply maxva_page. rewrite E1. by apply maxva_page.
Qed.

Lemma copy_chunk_changed m root va bs :
  writable m root va -> va mod PGSIZE + Z.of_nat (length bs) <= PGSIZE ->
  copied_to m root va bs (store_bytes m (uaddr m root va) bs).
Proof.
  intros Hw Hn x Hx. apply load8_store_bytes_out.
  destruct (Z.lt_ge_cases x (uaddr m root va)); [lia|].
  destruct (Z.lt_ge_cases x (uaddr m root va + Z.of_nat (length bs))); [|lia].
  exfalso. apply Hx. set (i := x - uaddr m root va).
  destruct (uaddr_chunk m root va i) as [E Hwi]; [unfold i; lia|unfold i; lia|].
  exists (Z.to_nat i). rewrite Z2Nat.id by (unfold i; lia). split_and!; [unfold i; lia|auto|].
  rewrite E. unfold i. lia.
Qed.

Lemma copyout_loop_nil fuel root va s : copyout_loop fuel root va [] s = Ret 0 s.
Proof. by destruct fuel. Qed.

(** Copying a first chunk and then the rest. *)
Lemma copied_to_app m root va bs1 bs2 m1 m2 :
  (forall va, pte m1 root va = pte m root va) ->
  copied_to m root va bs1 m1 -> copied_to m1 root (va + Z.of_nat (length bs1)) bs2 m2 ->
  copied_to m root va (bs1 ++ bs2) m2.
Proof.
  intros Hpte H1 H2. eapply changed_in_trans; eapply changed_in_mono; [|exact H1| |exact H2];
    intros x (i & Hi & Hw & ->).
  - exists i. rewrite length_app. split_and!; [lia|apply Hw..|done].
  - exists (length bs1 + i)%nat. rewrite length_app, Nat2Z.inj_add.
    rewrite (uaddr_pte m m1 root _ Hpte). rewrite (writable_pte m m1 root _ Hpte) in Hw.
    rewrite <- Z.add_assoc in Hw |- *. split; [lia|]. done.
Qed.

(** The address space and the bytes after one chunk. *)
Lemma copy_chunk root sz s l va bs :
  uspace s root sz l -> 0 <= va -> writable s.(k_mem) root va -> bs <> [] ->
  va mod PGSIZE + Z.of_nat (length bs) <= PGSIZE -> Forall (fun b => 0 <= b < 256) bs ->
  let m1 := store_bytes s.(k_mem) (uaddr s.(k_mem) root va) bs in
  uspace (set_mem m1 s) root sz l /\ (forall va, pte m1 root va = pte s.(k_mem) root va) /\
  copied_to s.(k_mem) root va bs m1 /\
  (forall i b, bs !! i = Some b -> writable s.(k_mem) root (va + Z.of_nat i) /\
     load8 m1 (uaddr s.(k_mem) root (va + Z.of_nat i)) = b).
Proof.
  intros Hs H0 Hw Hne Hlen Hb m1.
  pose proof (copy_chunk_changed s.(k_mem) root va bs Hw Hlen) as Hc. fold m1 in Hc.
  destruct (uspace_write s root sz l Hs m1 _ Hc) as [Hs1 Hpte].
  { intros x (i & Hi & [Hr _] & ->). exists (va + Z.of_nat i). split; [lia|]. split; [done|].
    apply uaddr_in_page. }
  refine (conj Hs1 (conj Hpte (conj Hc _))). intros i b Hi.
  assert (i < length bs)%nat as Hil by (by eapply lookup_lt_Some).
  destruct (uaddr_chunk s.(k_mem) root va (Z.of_nat i)) as [E Hwi]; [lia|lia|].
  split; [auto|]. rewrite E. unfold m1. rewrite (load8_store_bytes_in _ _ _ i b Hi).
  apply Z.mod_small. rewrite Forall_lookup in Hb. eauto.
Qed.

Lemma copyout_loop_ok fuel root sz dstva src s l :
  uspace s root sz l -> 0 <= dstva -> dstva + Z.of_nat (length src) <= 2 ^ 64 - PGSIZE ->
  (length src <= fuel)%nat -> Forall (fun b => 0 <= b < 256) src ->
  exists r m', copyout_loop fuel root dstva src s = Ret r (set_mem m' s) /\
    uspace (set_mem m' s) root sz l /\ (forall va, pte m' root va = pte s.(k_mem) root va) /\
    copied_to s.(k_mem) root dstva src m' /\
    ((r = 0 /\ forall i b, src !! i = Some b ->
        writable s.(k_mem) root (dstva + Z.of_nat i) /\
        load8 m' (uaddr s.(k_mem) root (dstva + Z.of_nat i)) = b) \/
     (r = -1 /\ exists i, (i < length src)%nat /\ ~ writable s.(k_mem) root (dstva + Z.of_nat i))).
Proof.
  revert dstva src s. induction fuel as [|fuel IH]; intros dstva src s Hs H0 Hhi Hfuel Hb.
  all: destruct (decide (src = [])) as [->|Hne];
    [exists 0, s.(k_mem); rewrite copyout_loop_nil; refine (conj eq_refl (conj Hs (conj _ (conj _ _))));
     [done|apply changed_in_refl|by left]|].
  { destruct src; [done|simpl in Hfuel; lia]. }
  assert (0 < length src)%nat by (destruct src; [done|simpl; lia]).
  destruct (page_chunk_spec dstva (Z.of_nat (length src))) as (Hc1 & Hc2 & Hc3); [lia|].
  destruct (copyout_step fuel root sz dstva src s l Hs H0 Hne) as [[Hw Hr]|[Hw Hr]]; rewrite Hr; clear Hr.
  2:{ exists (-1), s.(k_mem). refine (conj eq_refl (conj Hs (conj _ (conj _ _))));
        [done|apply changed_in_refl|right]. split; [done|]. exists 0%nat. by rewrite Z.add_0_r. }
  set (n := Z.to_nat (page_chunk dstva (Z.of_nat (length src)))).
  assert (length (take n src) = n) as Hn by (apply length_take_le; lia).
  destruct (copy_chunk root sz s l dstva (take n src) Hs H0 Hw) as (Hs1 & Hp1 & Hcp1 & Hv1).
  { intros E. rewrite E in Hn. simpl in Hn. lia. }
  { lia. }
  { by apply Forall_take. }
  set (m1 := store_bytes _ _ _) in *. clearbody m1.
  assert (copyout_loop fuel root (u64 (PGROUNDDOWN dstva + PGSIZE)) (drop n src) (set_mem m1 s) =
          copyout_loop fuel root (dstva + Z.of_nat n) (drop n src) (set_mem m1 s)) as ->.
  { destruct (decide (n = length src)) as [->|]; [by rewrite drop_all, !copyout_loop_nil|].
    rewrite Hc3 by lia. unfold u64. rewrite Z.mod_small by (unfold PGSIZE in *; lia). do 2 f_equal. lia. }
  destruct (IH (dstva + Z.of_nat n) (drop n src) (set_mem m1 s) Hs1) as (r & m2 & Hr & Hs2 & Hp2 & Hcp2 & Hres).
  { lia. }
  { rewrite length_drop. lia. }
  { rewrite length_drop. lia. }
  { by apply Forall_drop. }
  change (k_mem (set_mem m1 s)) with m1 in *.
  assert (copied_to s.(k_mem) root dstva src m2) as Hcp.
  { rewrite <- (take_drop n src). eapply copied_to_app; [exact Hp1|exact Hcp1|]. by rewrite Hn. }
  exists r, m2. refine (conj Hr (conj Hs2 (conj _ (conj Hcp _)))).
  { intros va. by rewrite Hp2. }
  destruct Hres as [[-> Hv2]|[-> (i & Hi & Hnw)]]; [left|right]; (split; [done|]).
  - intros i b Hi. destruct (decide (i < n)%nat) as [Hlt|Hge].
    + assert (take n src !! i = Some b) as Hi' by (by rewrite lookup_take_lt).
      destruct (Hv1 i b Hi') as [Hwi <-]. split; [done|]. apply Hcp2.
      intros (j & Hj & Hwj & E). rewrite (uaddr_pte _ _ _ _ Hp1), (writable_pte _ _ _ _ Hp1) in *.
      apply (uaddr_inj s root sz l Hs) in E; [lia|lia|lia|apply Hwi|apply Hwj].
    + destruct (Hv2 (i - n)%nat b) as [Hwi Hb'].
      { rewrite lookup_drop, <- Hi. f_equal. lia. }
      rewrite (uaddr_pte _ _ _ _ Hp1) in Hb'. rewrite (writable_pte _ _ _ _ Hp1) in Hwi.
      replace (dstva + Z.of_nat n + Z.of_nat (i - n)) with (dstva + Z.of_nat i) in * by lia. done.
  - exists (n + i)%nat. rewrite length_drop in Hi. split; [lia|].
    rewrite (writable_pte _ _ _ _ Hp1) in Hnw. by rewrite Nat2Z.inj_add, Z.add_assoc.
Qed.

(** [C15] [copyout] confines the kernel to user-writable memory: whatever the
    destination, it writes only bytes of pages mapped [V|U|W] at addresses of
    the destination range, and changes nothing else of the state and no
    mapping. It returns 0 exactly when every byte of the range is
    user-writable, and then the range holds the source bytes; otherwise it
    returns -1. *)
Theorem copyout_correct root sz dstva src s l :
  uspace s root sz l -> 0 <= dstva -> dstva + Z.of_nat (length src) <= 2 ^ 64 - PGSIZE ->
  Forall (fun b => 0 <= b < 256) src ->
  exists r m', copyout root dstva src s = Ret r (set_mem m' s) /\
    uspace (set_mem m' s) root sz l /\ (forall va, pte m' root va = pte s.(k_mem) root va) /\
    copied_to s.(k_mem) root dstva src m' /\
    ((r = 0 /\ forall i b, src !! i = Some b ->
        writable s.(k_mem) root (dstva + Z.of_nat i) /\
        load8 m' (uaddr s.(k_mem) root (dstva + Z.of_nat i)) = b) \/
     (r = -1 /\ exists i, (i < length src)%nat /\ ~ writable s.(k_mem) root (dstva + Z.of_nat i))).
Proof. intros Hs H0 Hhi Hb. by apply copyout_loop_ok. Qed.

(** ** copyin and copyinstr *)

(** The byte the user program sees at [va]. *)
Definition ubyte (m : memory) (root va : Z) : Z := load8 m (uaddr m root va).

Definition ubytes (m : memory) (root va : Z) (n : nat) : list Z :=
  (fun i => ubyte m root (va + i)) <$> zrange 0 n.

Lemma ubytes_app m root va n k :
  ubytes m root va (n + k) = ubytes m root va n ++ ubytes m root (va + Z.of_nat n) k.
Proof.
  unfold ubytes. apply list_eq. intros i. rewrite lookup_app, !list_lookup_fmap.
  destruct (decide (i < n)%nat).
  - rewrite !lookup_zrange by lia. done.
  - rewrite (lookup_ge_None_2 (zrange 0 n)) by (rewrite length_zrange; lia).
    cbn [fmap option_fmap option_map]. rewrite length_fmap, length_zrange.
    destruct (decide (i < n + k)%nat).
    + rewrite !lookup_zrange by lia. simpl. do 2 f_equal. lia.
    + rewrite !lookup_ge_None_2 by (rewrite length_zrange; lia). done.
Qed.

(** The bytes of a chunk are read at consecutive physical addresses. *)
Lemma ubytes_chunk m root va n :
  va mod PGSIZE + Z.of_nat n <= PGSIZE -> ubytes m root va n = load_bytes m (uaddr m root va) n.
Proof.
  intros Hn. apply list_eq. intros i. unfold ubytes. rewrite list_lookup_fmap.
  destruct (decide (i < n)%nat).
  - rewrite lookup_zrange, lookup_load_bytes by lia. simpl. unfold ubyte.
    destruct (uaddr_chunk m root va (Z.of_nat i)) as [E _]; [lia|lia|]. rewrite Z.add_0_l, E. done.
  - rewrite (lookup_ge_None_2 (zrange _ _)) by (rewrite length_zrange; lia).
    rewrite lookup_ge_None_2; [done|]. rewrite length_load_bytes. lia.
Qed.

Lemma readable_chunk m root va i :
  0 <= i -> va mod PGSIZE + i < PGSIZE -> readable m root (va + i) <-> readable m root va.
Proof.
  intros H1 H2. destruct (rounddown_off va i H1 H2) as [E1 E2]. unfold readable. rewrite E1.
  rewrite <- (maxva_page (va + i)), E1, maxva_page. done.
Qed.

(** [walkaddr] on the page of [va]: its physical address if user-readable. *)
Lemma walkaddr_page root sz s l va :
  uspace s root sz l -> 0 <= va ->
  exists pa, walkaddr root (PGROUNDDOWN va) s = Ret pa s /\
    ((readable s.(k_mem) root va /\ pa = upa s.(k_mem) root (PGROUNDDOWN va) /\ pa <> 0) \/
     (~ readable s.(k_mem) root va /\ pa = 0)).
Proof.
  intros Hs H0. unfold walkaddr. rewrite Z.geb_leb.
  destruct (Z.leb_spec MAXVA (PGROUNDDOWN va)) as [HM|HM].
  { exists 0. split; [done|right]. split; [|done]. intros (HM' & _). apply maxva_page in HM'. lia. }
  erewrite bind_Ret by (by apply walk_lookup).
  pose proof (us_uvm _ _ _ _ Hs) as Hu. pose proof (proj1 (maxva_page va) HM) as HM'.
  destruct (slot (k_mem s) root (PGROUNDDOWN va)) as [a|] eqn:Hsl.
  2:{ exists 0. split; [done|right]. split; [|done]. intros (_ & HV & _). unfold pte in HV. by rewrite Hsl in HV. }
  rewrite (proj2 (Z.eqb_neq _ _)) by (eapply slot_nz; [apply (vr_wf _ _ _ (uv_rep _ _ _ _ Hu))|exact Hsl]).
  assert (pte (k_mem s) root (PGROUNDDOWN va) = load64 (k_mem s) a) as Ea by (unfold pte; by rewrite Hsl).
  unfold read64. ksimpl. rewrite <- Ea.
  destruct (has _ PTE_V) eqn:HV; [destruct (has _ PTE_U) eqn:HU|]; cbn [negb].
  - eexists. split; [done|]. left. assert (readable (k_mem s) root va) as Hr by done.
    split; [done|]. split; [done|]. apply page_ok_nz.
    apply (readable_page s root sz l Hs va H0 Hr).
  - exists 0. split; [done|]. right. split; [|done]. intros (_ & ? & ?). congruence.
  - exists 0. split; [done|]. right. split; [|done]. intros (_ & ? & ?). congruence.
Qed.

Lemma copyin_loop_ok fuel root sz srcva len dst s l :
  uspace s root sz l -> 0 <= srcva -> srcva + Z.of_nat len <= 2 ^ 64 - PGSIZE -> (len <= fuel)%nat ->
  exists r bs, copyin_loop fuel root srcva (Z.of_nat len) dst s = Ret (r, dst ++ bs) s /\
    ((r = 0 /\ bs = ubytes s.(k_mem) root srcva len /\
      (forall i, 0 <= i < Z.of_nat len -> readable s.(k_mem) root (srcva + i))) \/
     (r = -1 /\ exists i, 0 <= i < Z.of_nat len /\ ~ readable s.(k_mem) root (srcva + i))).
Proof.
  intros Hs. revert srcva len dst. induction fuel as [|fuel IH]; intros srcva len dst H0 Hhi Hfuel.
  all: destruct (decide (len = 0%nat)) as [->|Hne];
    [exists 0, []; rewrite app_nil_r; split; [done|left]; split_and!; [done|done|lia]|].
  { lia. }
  destruct (page_chunk_spec srcva (Z.of_nat len)) as (Hc1 & Hc2 & Hc3); [lia|].
  cbn [copyin_loop]. rewrite Z.gtb_ltb, (proj2 (Z.ltb_lt _ _)) by lia.
  destruct (walkaddr_page root sz s l srcva Hs H0) as (pa & Hw & [(Hr & -> & Hnz)|(Hr & ->)]);
    erewrite bind_Ret by exact Hw.
  2:{ exists (-1), []. rewrite app_nil_r. split; [done|right]. split; [done|]. exists 0. rewrite Z.add_0_r. split; [lia|done]. }
  rewrite (proj2 (Z.eqb_neq _ _)) by done. pose proof (rounddown_mod srcva) as [E Hm].
  replace (srcva - PGROUNDDOWN srcva) with (srcva mod PGSIZE) by lia. ksimpl.
  fold (page_chunk srcva (Z.of_nat len)). set (n := Z.to_nat (page_chunk srcva (Z.of_nat len))).
  replace (page_chunk srcva (Z.of_nat len)) with (Z.of_nat n) in * by lia.
  fold (uaddr (k_mem s) root srcva). rewrite <- ubytes_chunk by lia.
  replace (Z.of_nat len - Z.of_nat n) with (Z.of_nat (len - n)) by lia.
  assert (forall d, copyin_loop fuel root (u64 (PGROUNDDOWN srcva + PGSIZE)) (Z.of_nat (len - n)) d s =
                    copyin_loop fuel root (srcva + Z.of_nat n) (Z.of_nat (len - n)) d s) as ->.
  { intros d. destruct (decide (n = len)) as [->|]; [rewrite Nat.sub_diag; by destruct fuel|].
    rewrite Hc3 by lia. unfold u64. rewrite Z.mod_small by (unfold PGSIZE in *; lia). done. }
  destruct (IH (srcva + Z.of_nat n) (len - n)%nat (dst ++ ubytes (k_mem s) root srcva n))
    as (r & bs & Hl & Hres); [lia|lia|lia|].
  exists r, (ubytes (k_mem s) root srcva n ++ bs). rewrite app_assoc. split; [done|].
  destruct Hres as [(-> & -> & Hrd)|(-> & i & Hi & Hnr)]; [left|right].
  - split_and!; [done| |].
    + rewrite <- ubytes_app. f_equal. lia.
    + intros i Hi. destruct (Z.lt_ge_cases i (Z.of_nat n)).
      * apply readable_chunk; [lia|lia|done].
      * replace (srcva + i) with (srcva + Z.of_nat n + (i - Z.of_nat n)) by lia. apply Hrd. lia.
  - split; [done|]. exists (Z.of_nat n + i). rewrite Z.add_assoc. split; [lia|done].
Qed.

(** [copyin] returns 0 exactly when every byte of the source range is
    user-readable, and then delivers those bytes; otherwise it returns -1. It
    changes nothing. *)
Theorem copyin_correct root sz srcva len s l :
  uspace s root sz l -> 0 <= srcva -> srcva + Z.of_nat len <= 2 ^ 64 - PGSIZE ->
  exists r bs, copyin root srcva (Z.of_nat len) s = Ret (r, bs) s /\
    ((r = 0 /\ bs = ubytes s.(k_mem) root srcva len /\
      (forall i, 0 <= i < Z.of_nat len -> readable s.(k_mem) root (srcva + i))) \/
     (r = -1 /\ exists i, 0 <= i < Z.of_nat len /\ ~ readable s.(k_mem) root (srcva + i))).
Proof.
  intros Hs H0 Hhi. unfold copyin. rewrite Nat2Z.id.
  destruct (copyin_loop_ok len root sz srcva len [] s l Hs H0 Hhi) as (r & bs & H); [lia|].
  by exists r, bs.
Qed.

(** The user string at [va] has length [k]: its bytes and the terminating NUL
    are readable. *)
Definition ustr (m : memory) (root va : Z) (k : nat) : Prop :=
  (forall j, (j <= k)%nat -> readable m root (va + Z.of_nat j)) /\
  (forall j, (j < k)%nat -> ubyte m root (va + Z.of_nat j) <> 0) /\
  ubyte m root (va + Z.of_nat k) = 0.

Lemma copyinstr_page_spec n m p :
  (exists k, (k < n)%nat /\ (forall j, (j < k)%nat -> load8 m (p + Z.of_nat j) <> 0) /\
     load8 m (p + Z.of_nat k) = 0 /\ copyinstr_page n m p = (load_bytes m p (S k), true)) \/
  ((forall j, (j < n)%nat -> load8 m (p + Z.of_nat j) <> 0) /\
   copyinstr_page n m p = (load_bytes m p n, false)).
Proof.
  revert p. induction n as [|n IH]; intros p; [right; split; [lia|done]|].
  cbn [copyinstr_page]. destruct (Z.eqb_spec (load8 m p) 0) as [E|E].
  - left. exists 0%nat. rewrite Z.add_0_r. split_and!; [lia|lia|done|]. unfold load_bytes.
    cbn [zrange map]. by rewrite E.
  - destruct (IH (p + 1)) as [(k & Hk & Hnz & Hz & ->)|[Hnz ->]].
    + left. exists (S k). split_and!; [lia| |rewrite <- Hz; f_equal; lia|done].
      intros [|j] Hj; [by rewrite Z.add_0_r|].
      replace (p + Z.of_nat (S j)) with (p + 1 + Z.of_nat j) by lia. apply Hnz. lia.
    + right. split; [|done]. intros [|j] Hj; [by rewrite Z.add_0_r|].
      replace (p + Z.of_nat (S j)) with (p + 1 + Z.of_nat j) by lia. apply Hnz. lia.
Qed.

Lemma ubyte_chunk m root va j :
  va mod PGSIZE + Z.of_nat j < PGSIZE ->
  ubyte m root (va + Z.of_nat j) = load8 m (uaddr m root va + Z.of_nat j).
Proof. intros H. unfold ubyte. destruct (uaddr_chunk m root va (Z.of_nat j)) as [E _]; [lia|lia|by rewrite E]. Qed.

Lemma ustr_shift m root va n k :
  (forall j, (j < n)%nat -> readable m root (va + Z.of_nat j) /\ ubyte m root (va + Z.of_nat j) <> 0) ->
  ustr m root va (n + k) <-> ustr m root (va + Z.of_nat n) k.
Proof.
  intros Hn. assert (forall j, va + Z.of_nat n + Z.of_nat j = va + Z.of_nat (n + j)) as E by lia.
  unfold ustr. split; intros (H1 & H2 & H3).
  - split_and!; [intros j Hj; rewrite E; apply H1; lia|intros j Hj; rewrite E; apply H2; lia|by rewrite E].
  - split_and!; [intros j Hj|intros j Hj|by rewrite <- E].
    + destruct (decide (j < n)%nat); [by apply Hn|].
      specialize (H1 (j - n)%nat). rewrite E in H1. replace (n + (j - n))%nat with j in H1 by lia. apply H1. lia.
    + destruct (decide (j < n)%nat); [by apply Hn|].
      specialize (H2 (j - n)%nat). rewrite E in H2. replace (n + (j - n))%nat with j in H2 by lia. apply H2. lia.
Qed.

Lemma copyinstr_loop_ok fuel root sz srcva max dst s l :
  uspace s root sz l -> 0 <= srcva -> srcva + Z.of_nat max <= 2 ^ 64 - PGSIZE -> (max <= fuel)%nat ->
  exists r bs, copyinstr_loop fuel root srcva (Z.of_nat max) dst s = Ret (r, dst ++ bs) s /\
    ((r = 0 /\ exists k, (k < max)%nat /\ ustr s.(k_mem) root srcva k /\
        bs = ubytes s.(k_mem) root srcva (S k)) \/
     (r = -1 /\ forall k, (k < max)%nat -> ~ ustr s.(k_mem) root srcva k)).
Proof.
  intros Hs. revert srcva max dst. induction fuel as [|fuel IH]; intros srcva max dst H0 Hhi Hfuel.
  all: destruct (decide (max = 0%nat)) as [->|Hne];
    [exists (-1), []; rewrite app_nil_r; split; [done|right]; split; [done|lia]|].
  { lia. }
  destruct (page_chunk_spec srcva (Z.of_nat max)) as (Hc1 & Hc2 & Hc3); [lia|].
  cbn [copyinstr_loop]. rewrite Z.gtb_ltb, (proj2 (Z.ltb_lt _ _)) by lia.
  destruct (walkaddr_page root sz s l srcva Hs H0) as (pa & Hw & [(Hr & -> & Hnz)|(Hr & ->)]);
    erewrite bind_Ret by exact Hw.
  2:{ exists (-1), []. rewrite app_nil_r. split; [done|right]. split; [done|]. intros k Hk (H & _).
      apply Hr. specialize (H 0%nat ltac:(lia)). by rewrite Z.add_0_r in H. }
  rewrite (proj2 (Z.eqb_neq _ _)) by done. pose proof (rounddown_mod srcva) as [E Hm].
  replace (srcva - PGROUNDDOWN srcva) with (srcva mod PGSIZE) by lia. ksimpl.
  fold (page_chunk srcva (Z.of_nat max)). set (n := Z.to_nat (page_chunk srcva (Z.of_nat max))).
  replace (page_chunk srcva (Z.of_nat max)) with (Z.of_nat n) in * by lia.
  fold (uaddr (k_mem s) root srcva).
  assert (forall j, (j < n)%nat -> readable (k_mem s) root (srcva + Z.of_nat j)) as Hrd
    by (intros j Hj; apply readable_chunk; [lia|lia|done]).
  destruct (copyinstr_page_spec n (k_mem s) (uaddr (k_mem s) root srcva))
    as [(k & Hk & Hnzb & Hz & ->)|[Hnzb ->]]; cbn [fst snd].
  - exists 0, (load_bytes (k_mem s) (uaddr (k_mem s) root srcva) (S k)). split; [done|left].
    split; [done|]. exists k. split; [lia|]. rewrite ubytes_chunk by lia. split; [|done].
    split; [intros j Hj; apply Hrd; lia|]. split; [intros j Hj|]; rewrite ubyte_chunk by lia; [auto|done].
  - rewrite <- ubytes_chunk by lia. replace (Z.of_nat max - Z.of_nat n) with (Z.of_nat (max - n)) by lia.
    assert (forall d, copyinstr_loop fuel root (u64 (PGROUNDDOWN srcva + PGSIZE)) (Z.of_nat (max - n)) d s =
                      copyinstr_loop fuel root (srcva + Z.of_nat n) (Z.of_nat (max - n)) d s) as ->.
    { intros d. destruct (decide (n = max)) as [->|]; [rewrite Nat.sub_diag; by destruct fuel|].
      rewrite Hc3 by lia. unfold u64. rewrite Z.mod_small by (unfold PGSIZE in *; lia). done. }
    destruct (IH (srcva + Z.of_nat n) (max - n)%nat (dst ++ ubytes (k_mem s) root srcva n))
      as (r & bs & Hl & Hres); [lia|lia|lia|].
    exists r, (ubytes (k_mem s) root srcva n ++ bs). rewrite app_assoc. split; [done|].
    assert (forall k, ustr (k_mem s) root srcva (n + k) <-> ustr (k_mem s) root (srcva + Z.of_nat n) k) as Hsh.
    { intros k. apply ustr_shift. intros j Hj. split; [auto|]. rewrite ubyte_chunk by lia. auto. }
    destruct Hres as [(-> & k & Hk & Hu & ->)|(-> & Hno)]; [left|right]; (split; [done|]).
    + exists (n + k)%nat. split; [lia|]. split; [by apply Hsh|].
      rewrite <- ubytes_app. f_equal. lia.
    + intros k Hk Hu. destruct (decide (k < n)%nat).
      * destruct Hu as (_ & _ & Hz). rewrite ubyte_chunk in Hz by lia. by apply (Hnzb k).
      * apply (Hno (k - n)%nat); [lia|]. apply Hsh. by replace (n + (k - n))%nat with k by lia.
Qed.

(** [C16] [copyinstr] returns 0 exactly when the user memory at [srcva] holds a
    NUL-terminated string shorter than [max] that is readable up to its NUL,
    and then delivers the string with its NUL; otherwise it returns -1. It
    changes nothing. *)
Theorem copyinstr_correct root sz srcva max s l :
  uspace s root sz l -> 0 <= srcva -> srcva + Z.of_nat max <= 2 ^ 64 - PGSIZE ->
  exists r bs, copyinstr root srcva (Z.of_nat max) s = Ret (r, bs) s /\
    ((r = 0 /\ exists k, (k < max)%nat /\ ustr s.(k_mem) root srcva k /\
        bs = ubytes s.(k_mem) root srcva (S k)) \/
     (r = -1 /\ forall k, (k < max)%nat -> ~ ustr s.(k_mem) root srcva k)).
Proof.
  intros Hs H0 Hhi. unfold copyinstr. rewrite Nat2Z.id.
  destruct (copyinstr_loop_ok max root sz srcva max [] s l Hs H0 Hhi) as (r & bs & H); [lia|].
  by exists r, bs.
Qed.

End CopySpec.
