(* ===== verification/VmDemo.v ===== *)
(** * Witnesses for the theorems on user memory

    A page table made by [uvmcreate] on the memory [kinit] leaves, grown by
    [uvmalloc], as a concrete address space. *)

From S2P Require Import Prelude Params Mem State Spinlock CString Kalloc Vm PageTable VmSpec UvmSpec.
From S2P Require Import UvmProps UvmFree CopySpec.

(** ** A concrete address space *)

Definition demo_image16 : KernelImage :=
  {| kend := PHYSTOP - 16 * 4096; etext := KERNBASE + 8 * 4096; trampoline := KERNBASE + 7 * 4096;
     uservec := KERNBASE + 7 * 4096; userret := KERNBASE + 7 * 4096 + 156;
     kernelvec := KERNBASE + 0x5000; forkret_addr := KERNBASE + 0x1000;
     usertrap_addr := KERNBASE + 0x2000 |}.

#[local] Existing Instance demo_image16.

#[local] Instance demo_layout16 : KernelLayout demo_image16.
Proof. split; vm_compute; repeat split; discriminate. Qed.

(** Free pages, a new page table, and one user page in it. *)
Definition demo_free : kstate := ret_state (kinit (I := demo_image16) inhabitant).
Definition demo_root : Z := PHYSTOP - 4096.
Definition demo_empty : kstate := ret_state (uvmcreate demo_free).
Definition demo_user : kstate := ret_state (uvmalloc (I := demo_image16) demo_root 0 4096 PTE_W demo_empty).
Definition demo_child : Z := PHYSTOP - 5 * 4096.
Definition demo_fork : kstate := ret_state (uvmcreate demo_user).

Definition ret_value {S A} (o : outcome S A) : option A := match o with Ret a _ => Some a | _ => None end.

Lemma demo_free_rep : kmem_rep demo_free ((fun i => PHYSTOP - (i + 1) * 4096) <$> zrange 0 16).
Proof.
  split.
  - vm_compute. repeat split; discriminate.
  - apply (bool_decide_unpack _). vm_compute. done.
  - vm_compute. done.
  - split; vm_compute; discriminate.
Qed.

Lemma demo_empty_uvm : exists l, uvm demo_empty demo_root (below 0) l /\
  (forall va, pte demo_empty.(k_mem) demo_root va = 0).
Proof.
  destruct (uvmcreate_ok demo_free demo_root _ demo_free_rep) as (s & Hr & Hu & Hp & _).
  eexists. unfold demo_empty. rewrite Hr. split; [|done].
  eapply uvm_iff, Hu. intros va [_ ?]. unfold below. change (PGROUNDUP 0) with 0. lia.
Qed.

Lemma demo_user_ok : exists l, uspace demo_user demo_root 4096 l.
Proof.
  destruct demo_empty_uvm as (l & Hu & Hp).
  destruct (uvmalloc_loop_ok 1 demo_root 0 0 4096 PTE_W demo_empty l demo_empty l)
    as (r & s' & l' & Hr & Hres).
  { split; [|intros; lia|rewrite Z.div_0_l by done; lia].
    apply uvm_op_refl. exact Hu. }
  { by vm_compute. } { by vm_compute. } { lia. } { by vm_compute. } { by vm_compute. } { by vm_compute. }
  assert (ret_value (uvmalloc demo_root 0 4096 PTE_W demo_empty) = Some 4096) as Hv
    by (vm_compute; reflexivity).
  assert (uvmalloc demo_root 0 4096 PTE_W demo_empty = Ret r s') as Hr' by exact Hr.
  rewrite Hr' in Hv. injection Hv as ->. destruct Hres as [[_ Hinv]|[Hz _]]; [|discriminate Hz].
  exists l'. unfold demo_user. rewrite Hr'. cbn [ret_state].
  pose proof (ai_op _ _ _ _ _ _ _ _ Hinv) as Hop. split.
  - apply (uo_uvm _ _ _ _ _ _ _ _ Hop).
  - vm_compute. split; discriminate.
  - intros va Hva Hhi. rewrite (uo_high _ _ _ _ _ _ _ _ Hop va Hva Hhi), Hp. reflexivity.
Qed.

Lemma demo_user_writable va : 0 <= va < 4096 -> writable demo_user.(k_mem) demo_root va.
Proof.
  intros Hva. assert (PGROUNDDOWN va = 0) as E.
  { rewrite PGROUNDDOWN_eq. rewrite Z.div_small; [done|unfold PGSIZE; lia]. }
  unfold writable, readable. rewrite E. split; [split; [change MAXVA with (2 ^ 38); lia|]|]; vm_compute; [split|]; reflexivity.
Qed.

Lemma uvmalloc_correct_witness :
  exists r s' l', uvmalloc demo_root 0 4096 PTE_W demo_empty = Ret r s' /\
    (r = 4096 \/ r = 0) /\ uvm s' demo_root (below r) l'.
Proof.
  destruct demo_empty_uvm as (l & Hu & _).
  destruct (uvmalloc_correct demo_root demo_empty 0 4096 PTE_W l Hu) as (r & s' & l' & Hr & H);
    [lia|vm_compute; discriminate|vm_compute; intuition discriminate|].
  exists r, s', l'. split; [exact Hr|].
  destruct H as [(-> & Hop & _)|(-> & Hop & _)]; (split; [auto|]);
    apply (uo_uvm _ _ _ _ _ _ _ _ Hop).
Defined.

Lemma uvmdealloc_correct_witness :
  exists s' l', uvmdealloc demo_root 4096 0 demo_user = Ret 0 s' /\ uvm s' demo_root (below 0) l'.
Proof.
  destruct demo_user_ok as (l & Hu).
  destruct (uvmdealloc_correct demo_root demo_user 4096 0 l (us_uvm _ _ _ _ Hu)) as (s' & l' & Hr & Hop);
    [vm_compute; intuition discriminate|lia|].
  exists s', l'. split; [exact Hr|]. apply (uo_uvm _ _ _ _ _ _ _ _ Hop).
Defined.

Lemma copyout_correct_witness :
  exists m', copyout demo_root 4090 [1; 2; 3; 4; 5; 6] demo_user = Ret 0 (set_mem m' demo_user) /\
    load8 m' (uaddr demo_user.(k_mem) demo_root 4092) = 3.
Proof.
  destruct demo_user_ok as (l & Hu).
  destruct (copyout_correct demo_root 4096 4090 [1; 2; 3; 4; 5; 6] demo_user l Hu)
    as (r & m' & Hr & _ & _ & _ & H); [lia|vm_compute; discriminate|repeat constructor; lia|].
  assert (ret_value (copyout demo_root 4090 [1; 2; 3; 4; 5; 6] demo_user) = Some 0) as Hv
    by (vm_compute; reflexivity).
  rewrite Hr in Hv. injection Hv as ->. exists m'. split; [exact Hr|].
  destruct H as [[_ H]|[Hz _]]; [|discriminate Hz]. apply (H 2%nat 3). reflexivity.
Defined.

Lemma copyin_correct_witness :
  copyin demo_root 4090 6 demo_user = Ret (0, ubytes demo_user.(k_mem) demo_root 4090 6) demo_user.
Proof.
  destruct demo_user_ok as (l & Hu).
  destruct (copyin_correct demo_root 4096 4090 6 demo_user l Hu) as (r & bs & Hr & H);
    [lia|vm_compute; discriminate|].
  change (Z.of_nat 6) with 6 in Hr.
  assert (fst <$> ret_value (copyin demo_root 4090 6 demo_user) = Some 0) as Hv
    by (vm_compute; reflexivity).
  rewrite Hr in Hv. injection Hv as ->. rewrite Hr.
  destruct H as [(_ & -> & _)|[Hz _]]; [reflexivity|discriminate Hz].
Defined.

Lemma copyinstr_correct_witness :
  exists k, copyinstr demo_root 100 16 demo_user = Ret (0, ubytes demo_user.(k_mem) demo_root 100 (S k)) demo_user /\
    ustr demo_user.(k_mem) demo_root 100 k.
Proof.
  destruct demo_user_ok as (l & Hu).
  destruct (copyinstr_correct demo_root 4096 100 16 demo_user l Hu) as (r & bs & Hr & H);
    [lia|vm_compute; discriminate|].
  change (Z.of_nat 16) with 16 in Hr.
  assert (fst <$> ret_value (copyinstr demo_root 100 16 demo_user) = Some 0) as Hv
    by (vm_compute; reflexivity).
  rewrite Hr in Hv. injection Hv as ->. rewrite Hr.
  destruct H as [(_ & k & _ & Hk & ->)|[Hz _]]; [exists k; split; [reflexivity|exact Hk]|discriminate Hz].
Defined.

(** The child of a fork: a second, empty page table next to the first. *)
Lemma demo_fork_ok : exists l, uvm demo_fork demo_root (below 4096) l /\
  uvm demo_fork demo_child (fun _ => False) l /\
  (forall p, owned demo_fork.(k_mem) demo_root (below 4096) p ->
     ~ owned demo_fork.(k_mem) demo_child (fun _ => False) p).
Proof.
  assert (demo_user.(k_freelist) = demo_child) as Hfl by (vm_compute; reflexivity).
  destruct demo_user_ok as (l & Hu). pose proof (us_uvm _ _ _ _ Hu) as Huv.
  pose proof (vr_kmem _ _ _ (uv_rep _ _ _ _ Huv)) as Hk.
  pose proof (rep_list _ _ Hk) as Hl. rewrite Hfl in Hl. destruct l as [|q l]; [discriminate Hl|].
  destruct Hl as [<- _].
  destruct (uvmcreate_next demo_user demo_root (below 4096) demo_child l Huv) as (s & Hr & H).
  exists l. unfold demo_fork. rewrite Hr. exact H.
Qed.

Lemma uvmcopy_correct_witness :
  exists s' l', uvmcopy demo_root demo_child 4096 demo_fork = Ret 0 s' /\
    uvm s' demo_child (below 4096) l' /\ page_copy demo_fork.(k_mem) demo_root s'.(k_mem) demo_child 0.
Proof.
  assert (is_page 0 /\ 0 < 4096) as [H0 H1] by by vm_compute.
  destruct demo_fork_ok as (l & Ho & Hn & Hd).
  destruct (uvmcopy_correct demo_root demo_child 4096 demo_fork l Ho Hn Hd)
    as (r & s' & l' & Hr & _ & _ & _ & H); [vm_compute; split; discriminate|].
  assert (ret_value (uvmcopy demo_root demo_child 4096 demo_fork) = Some 0) as Hv
    by (vm_compute; reflexivity).
  rewrite Hr in Hv. injection Hv as ->. exists s', l'. split; [exact Hr|].
  destruct H as [(_ & Hop & Hcp)|[Hz _]]; [|discriminate Hz].
  split; [apply (uo_uvm _ _ _ _ _ _ _ _ Hop)|]. apply Hcp; [exact H0|exact H1].
Defined.

Lemma mappages_correct_witness :
  exists s' l' k, mappages demo_root TRAMPOLINE 4096 trampoline (Z.lor PTE_R PTE_X) demo_empty = Ret 0 s' /\
    vm_rep s' demo_root l' /\
    (forall a, is_page a -> pte s'.(k_mem) demo_root a =
       map_pte demo_empty.(k_mem) demo_root TRAMPOLINE trampoline (Z.lor PTE_R PTE_X) k a).
Proof.
  assert (TRAMPOLINE mod PGSIZE = 0 /\ 4096 mod PGSIZE = 0 /\ 0 < 4096 /\ 0 <= TRAMPOLINE /\
    TRAMPOLINE + 4096 <= MAXVA /\ 0 <= trampoline /\ trampoline + 4096 <= 2 ^ 56 /\
    0 <= Z.lor PTE_R PTE_X < 1024) as (H1 & H2 & H3 & H4 & H5 & H6 & H7 & H8)
    by (vm_compute; repeat split; discriminate).
  assert (ret_value (mappages demo_root TRAMPOLINE 4096 trampoline (Z.lor PTE_R PTE_X) demo_empty) = Some 0) as Hv
    by (vm_compute; reflexivity).
  destruct demo_empty_uvm as (l & Hu & Hp).
  destruct (mappages_correct demo_root TRAMPOLINE 4096 trampoline (Z.lor PTE_R PTE_X) demo_empty l
              (uv_rep _ _ _ _ Hu) H1 H2 H3 H4 H5 H6 H7 H8) as (r & s' & l' & k & Hr & Hst & Hpte & _).
  { intros a _ _. rewrite Hp. reflexivity. }
  rewrite Hr in Hv. injection Hv as ->. exists s', l', k. split; [exact Hr|].
  split; [apply (vg_rep _ _ _ _ _ Hst)|exact Hpte].
Defined.

Lemma mappages_remap_witness :
  mappages demo_root 0 4096 demo_child PTE_R demo_user = Panic "mappages: remap".
Proof.
  assert (has (pte demo_user.(k_mem) demo_root 0) PTE_V = true) as HV by (vm_compute; reflexivity).
  assert (0 mod PGSIZE = 0 /\ 4096 mod PGSIZE = 0 /\ 0 < 4096 /\ 0 <= 0 < MAXVA) as (H1 & H2 & H3 & HM)
    by (vm_compute; repeat split; discriminate).
  destruct demo_user_ok as (l & Hu).
  exact (mappages_remap demo_root 0 4096 demo_child PTE_R demo_user l
           (uv_rep _ _ _ _ (us_uvm _ _ _ _ Hu)) H1 H2 H3 HM HV).
Defined.
