(* ===== verification/Proc.v ===== *)
(** * Processes and scheduling (proc.c): definitions

    The process table, the life cycle operations that need no file system,
    and the scheduler. A [struct proc*] is an index into the table; a null
    pointer is [None], and dereferencing it is the page fault that
    [kerneltrap] answers with a panic. [swtch] suspends the computation: the
    rest of it runs in whatever state the thread is resumed.

    A kernel object that a copy writes is its bytes, and the destination a
    position in them: [either_copyout] returns the bytes after the copy.
    [either_copyin] takes the bytes of a kernel source. *)

From S2P Require Import Prelude Params Mem State Spinlock CString Kalloc Vm.

(** Number of times the condition of a sleep loop is evaluated before a run
    is cut off; nothing bounds how often a thread is woken up in vain. *)
Class WaitFuel := wait_fuel : nat.

(** Where a copy goes to, and where it comes from. A kernel address is a position
    [o] in the object that the caller gives. *)
Inductive dest := ToUser (va : Z) | ToKernel (o : Z).
Inductive source := FromUser (va : Z) | FromKernel (bs : list Z).

Definition dest_add (d : dest) (n : Z) : dest :=
  match d with ToUser va => ToUser (u64 (va + n)) | ToKernel o => ToKernel (o + n) end.
Definition source_add (src : source) (n : Z) : source :=
  match src with
  | FromUser va => FromUser (u64 (va + n))
  | FromKernel bs => FromKernel (drop (Z.to_nat n) bs)
  end.

(** [safestrcpy] into an array of [n > 0] bytes; [t] is a NUL-terminated
    string without its NUL. The bytes after the string keep their value,
    except the one after a copied NUL. *)
Definition safestrcpy_array (dst t : list Z) (n : nat) : list Z :=
  let c := take (n - 1) t in
  let w := if decide (length t < n - 1)%nat then c ++ [0; 0] else c ++ [0] in
  w ++ drop (length w) dst.

Definition proc_indices : list nat := seq 0 (Z.to_nat NPROC).

Definition getp {A} (i : nat) (f : proc -> A) : K A := get (fun s => f (proc_at s i)).
Definition setp (i : nat) (f : proc -> proc) : K unit := modify (upd_proc i f).

(** Offsets in [struct trapframe] (proc.h). *)
Definition TF_kernel_satp : Z := 0.
Definition TF_kernel_sp : Z := 8.
Definition TF_kernel_trap : Z := 16.
Definition TF_epc : Z := 24.
Definition TF_kernel_hartid : Z := 32.
Definition TF_sp : Z := 48.
Definition TF_a0 : Z := 112.
Definition TF_a1 : Z := 120.
Definition TF_a2 : Z := 128.
Definition TF_a3 : Z := 136.
Definition TF_a4 : Z := 144.
Definition TF_a5 : Z := 152.
Definition TF_a7 : Z := 168.
Definition TF_size : Z := 288.

Section Proc.
Context {I : KernelImage} {F : WaitFuel}.

Definition procinit : K unit :=
  initlock pid_lock ;;
  initlock wait_lock ;;
  for_each proc_indices (fun p =>
    initlock (proc_lock p) ;;
    setp p (set_p_state UNUSED) ;;
    setp p (set_p_kstack (KSTACK (Z.of_nat p)))).

(** [mycpu]: the [struct cpu] of this hart. *)
Definition mycpu : K hart := get k_hart.

Definition myproc : K (option nat) :=
  push_off ;;
  let! c := mycpu in
  let p := c.(c_proc) in
  pop_off ;;
  ret p.

(** [myproc()] in a place that goes on to dereference the result. *)
Definition curproc : K nat :=
  let! p := myproc in
  match p with Some i => ret i | None => panic "kerneltrap" end.

Definition allocpid : K Z :=
  acquire pid_lock ;;
  let! pid := get k_nextpid in
  modify (fun s => set_nextpid (i32 (s.(k_nextpid) + 1)) s) ;;
  release pid_lock ;;
  ret pid.

(** [proc_pagetable], given the trapframe page of [p]. *)
Definition proc_pagetable (p : nat) : K Z :=
  let! pagetable := uvmcreate in
  if pagetable =? 0 then ret 0 else
  let! r := mappages pagetable TRAMPOLINE PGSIZE trampoline (Z.lor PTE_R PTE_X) in
  if r <? 0 then uvmfree pagetable 0 ;; ret 0 else
  let! tf := getp p p_trapframe in
  let! r := mappages pagetable TRAPFRAME PGSIZE tf (Z.lor PTE_R PTE_W) in
  if r <? 0 then uvmunmap pagetable TRAMPOLINE 1 false ;; uvmfree pagetable 0 ;; ret 0 else
  ret pagetable.

Definition proc_freepagetable (pagetable sz : Z) : K unit :=
  uvmunmap pagetable TRAMPOLINE 1 false ;;
  uvmunmap pagetable TRAPFRAME 1 false ;;
  uvmfree pagetable sz.

Definition freeproc (p : nat) : K unit :=
  let! tf := getp p p_trapframe in
  when (cbool tf) (kfree tf) ;;
  setp p (set_p_trapframe 0) ;;
  let! pt := getp p p_pagetable in
  let! sz := getp p p_sz in
  when (cbool pt) (proc_freepagetable pt sz) ;;
  setp p (set_p_pagetable 0) ;;
  setp p (set_p_sz 0) ;;
  setp p (set_p_pid 0) ;;
  setp p (set_p_parent None) ;;
  setp p (fun q => set_p_name (<[0%nat := 0]> q.(p_name)) q) ;;
  setp p (set_p_chan None) ;;
  setp p (set_p_killed 0) ;;
  setp p (set_p_xstate 0) ;;
  setp p (set_p_state UNUSED).

(** The search of [allocproc]: the first unused slot, with its lock held. *)
Fixpoint allocproc_find (slots : list nat) : K (option nat) :=
  match slots with
  | [] => ret None
  | p :: slots' =>
      acquire (proc_lock p) ;;
      let! st := getp p p_state in
      if bool_decide (st = UNUSED) then ret (Some p)
      else release (proc_lock p) ;; allocproc_find slots'
  end.

Definition allocproc : K (option nat) :=
  let! found := allocproc_find proc_indices in
  match found with
  | None => ret None
  | Some p =>
      let! pid := allocpid in
      setp p (set_p_pid pid) ;;
      setp p (set_p_state USED) ;;
      (* Allocate a trapframe page. *)
      let! tf := kalloc in
      setp p (set_p_trapframe tf) ;;
      if tf =? 0 then freeproc p ;; release (proc_lock p) ;; ret None else
      (* An empty user page table. *)
      let! pt := proc_pagetable p in
      setp p (set_p_pagetable pt) ;;
      if pt =? 0 then freeproc p ;; release (proc_lock p) ;; ret None else
      (* Set up new context to start executing at forkret. *)
      setp p (set_p_context (mkcontext 0 0 (replicate 12 0))) ;;
      setp p (fun q => set_p_context (set_cx_ra forkret_addr q.(p_context)) q) ;;
      setp p (fun q => set_p_context (set_cx_sp (u64 (q.(p_kstack) + PGSIZE)) q.(p_context)) q) ;;
      ret (Some p)
  end.

(** A user program that calls exec("/init"). *)
Definition initcode : list Z :=
  [ 0x17; 0x05; 0x00; 0x00; 0x13; 0x05; 0x45; 0x02;
    0x97; 0x05; 0x00; 0x00; 0x93; 0x85; 0x35; 0x02;
    0x93; 0x08; 0x70; 0x00; 0x73; 0x00; 0x00; 0x00;
    0x93; 0x08; 0x20; 0x00; 0x73; 0x00; 0x00; 0x00;
    0xef; 0xf0; 0x9f; 0xff; 0x2f; 0x69; 0x6e; 0x69;
    0x74; 0x00; 0x00; 0x24; 0x00; 0x00; 0x00; 0x00;
    0x00; 0x00; 0x00; 0x00 ].

Definition growproc (n : Z) : K Z :=
  let! p := curproc in
  let! sz := getp p p_sz in
  let! pt := getp p p_pagetable in
  if n >? 0 then
    let! sz := uvmalloc pt sz (u64 (sz + n)) PTE_W in
    if sz =? 0 then ret (-1) else
    setp p (set_p_sz sz) ;; ret 0
  else if n <? 0 then
    let! sz := uvmdealloc pt sz (u64 (sz + n)) in
    setp p (set_p_sz sz) ;; ret 0
  else
    setp p (set_p_sz sz) ;; ret 0.

(** ** The scheduler *)

Definition sched : K unit :=
  let! p := curproc in
  let! h := holding (proc_lock p) in
  if negb h then panic "sched p->lock" else
  let! c := mycpu in
  if negb (c.(c_noff) =? 1) then panic "sched locks" else
  let! st := getp p p_state in
  if bool_decide (st = RUNNING) then panic "sched running" else
  let! on := intr_get in
  if (on : bool) then panic "sched interruptible" else
  let! c := mycpu in
  let intena := c.(c_intena) in
  swtch ;;
  modify (upd_hart (set_c_intena intena)).

Definition yield : K unit :=
  let! p := curproc in
  acquire (proc_lock p) ;;
  setp p (set_p_state RUNNABLE) ;;
  sched ;;
  release (proc_lock p).

Definition sleep (ch : chan) (lk : lockid) : K unit :=
  let! p := curproc in
  acquire (proc_lock p) ;;
  release lk ;;
  (* Go to sleep. *)
  setp p (set_p_chan (Some ch)) ;;
  setp p (set_p_state SLEEPING) ;;
  sched ;;
  (* Tidy up. *)
  setp p (set_p_chan None) ;;
  (* Reacquire original lock. *)
  release (proc_lock p) ;;
  acquire lk.

(** [while(cond) sleep(ch, lk);] *)
Fixpoint sleep_while (fuel : nat) (cond : K bool) (ch : chan) (lk : lockid) : K unit :=
  match fuel with
  | O => fun _ => OutOfFuel
  | S fuel' =>
      let! c := cond in
      if (c : bool) then sleep ch lk ;; sleep_while fuel' cond ch lk else ret tt
  end.

Definition wakeup_one (ch : option chan) (p : nat) : K unit :=
  let! me := myproc in
  if bool_decide (me = Some p) then ret tt else
  acquire (proc_lock p) ;;
  let! q := getp p id in
  when (bool_decide (q.(p_state) = SLEEPING) && bool_decide (q.(p_chan) = ch))
    (setp p (set_p_state RUNNABLE)) ;;
  release (proc_lock p).

Definition wakeup (ch : option chan) : K unit := for_each proc_indices (wakeup_one ch).

Fixpoint kill_loop (slots : list nat) (pid : Z) : K Z :=
  match slots with
  | [] => ret (-1)
  | p :: slots' =>
      acquire (proc_lock p) ;;
      let! q := getp p id in
      if q.(p_pid) =? pid then
        setp p (set_p_killed 1) ;;
        when (bool_decide (q.(p_state) = SLEEPING)) (setp p (set_p_state RUNNABLE)) ;;
        release (proc_lock p) ;;
        ret 0
      else
        release (proc_lock p) ;;
        kill_loop slots' pid
  end.

Definition kill (pid : Z) : K Z := kill_loop proc_indices pid.

Definition setkilled (p : nat) : K unit :=
  acquire (proc_lock p) ;;
  setp p (set_p_killed 1) ;;
  release (proc_lock p).

Definition killed (p : nat) : K Z :=
  acquire (proc_lock p) ;;
  let! k := getp p p_killed in
  release (proc_lock p) ;;
  ret k.

(** Pass [p]'s abandoned children to init. *)
Definition reparent (p : nat) : K unit :=
  for_each proc_indices (fun pp =>
    let! par := getp pp p_parent in
    if bool_decide (par = Some p) then
      let! ip := get k_initproc in
      setp pp (set_p_parent ip) ;;
      wakeup (proc_chan <$> ip)
    else ret tt).

(** One scan of [wait] over the table: the value [wait] returns, or whether
    there are children. *)
Fixpoint wait_scan (slots : list nat) (p : nat) (addr : Z) (havekids : bool) : K (Z + bool) :=
  match slots with
  | [] => ret (inr havekids)
  | pp :: slots' =>
      let! par := getp pp p_parent in
      if bool_decide (par = Some p) then
        acquire (proc_lock pp) ;;
        let! q := getp pp id in
        if bool_decide (q.(p_state) = ZOMBIE) then
          let pid := q.(p_pid) in
          let! r := (if negb (addr =? 0)
                     then let! pt := getp p p_pagetable in
                          copyout pt addr (le_encode 4 q.(p_xstate))
                     else ret 0) in
          if r <? 0 then
            release (proc_lock pp) ;; release wait_lock ;; ret (inl (-1))
          else
            freeproc pp ;;
            release (proc_lock pp) ;;
            release wait_lock ;;
            ret (inl pid)
        else
          release (proc_lock pp) ;;
          wait_scan slots' p addr true
      else wait_scan slots' p addr havekids
  end.

Fixpoint wait_loop (fuel : nat) (p : nat) (addr : Z) : K Z :=
  match fuel with
  | O => fun _ => OutOfFuel
  | S fuel' =>
      let! r := wait_scan proc_indices p addr false in
      match r with
      | inl v => ret v
      | inr havekids =>
          (* No point waiting if we don't have any children. *)
          let! k := (if negb havekids then ret true
                     else let! k := killed p in ret (cbool k)) in
          if (k : bool) then release wait_lock ;; ret (-1) else
          sleep (proc_chan p) wait_lock ;;
          wait_loop fuel' p addr
      end
  end.

Definition wait (addr : Z) : K Z :=
  let! p := curproc in
  acquire wait_lock ;;
  wait_loop wait_fuel p addr.

(** One pass of the scheduler over the table; [swtch] runs the process. *)
Definition scheduler_try (p : nat) : K bool :=
  acquire (proc_lock p) ;;
  let! st := getp p p_state in
  if bool_decide (st = RUNNABLE) then
    setp p (set_p_state RUNNING) ;;
    modify (upd_hart (set_c_proc (Some p))) ;;
    swtch ;;
    modify (upd_hart (set_c_proc None)) ;;
    release (proc_lock p) ;;
    ret true
  else
    release (proc_lock p) ;;
    ret false.

Fixpoint scheduler_pass (slots : list nat) (found : bool) : K bool :=
  match slots with
  | [] => ret found
  | p :: slots' =>
      let! f := scheduler_try p in
      scheduler_pass slots' (f || found)
  end.

(** [scheduler] never returns; [rounds] of its loop. The [wfi] of an idle
    round only waits for an interrupt. *)
Fixpoint scheduler_loop (rounds : nat) : K unit :=
  match rounds with
  | O => fun _ => OutOfFuel
  | S rounds' =>
      intr_on ;;
      let! found := scheduler_pass proc_indices false in
      when (negb found) intr_on ;;
      scheduler_loop rounds'
  end.

Definition scheduler (rounds : nat) : K unit :=
  modify (upd_hart (set_c_proc None)) ;;
  scheduler_loop rounds.

(** ** Copies between kernel and either address space *)

(** The bytes [obj] of a kernel object after [memmove] of [bs] to position [o]. *)
Definition place (obj : list Z) (o : Z) (bs : list Z) : list Z :=
  take (Z.to_nat o) obj ++ bs ++ drop (Z.to_nat o + length bs) obj.

(** [obj] are the bytes of the kernel object so far. *)
Definition either_copyout (dst : dest) (obj : list Z) (src : list Z) : K (Z * list Z) :=
  let! p := myproc in
  match dst with
  | ToUser va =>
      match p with
      | None => panic "kerneltrap"
      | Some p =>
          let! pt := getp p p_pagetable in
          let! r := copyout pt va src in
          ret (r, obj)
      end
  | ToKernel o => ret (0, place obj o src)
  end.

Definition either_copyin (src : source) (len : Z) : K (Z * list Z) :=
  let! p := myproc in
  match src with
  | FromUser va =>
      match p with
      | None => panic "kerneltrap"
      | Some p =>
          let! pt := getp p p_pagetable in
          copyin pt va len
      end
  | FromKernel bs => ret (0, take (Z.to_nat len) bs)
  end.

End Proc.
