(* ===== verification/ProcSpec.v ===== *)
(** * Scheduling: sleep, wakeup, kill and sched (proc.c)

    What each operation does to the process table, on every branch, and the
    absence of lost wakeups. [procs_free] says that no process lock is held;
    a process that runs in the kernel without holding its own lock sees such
    a state when no other hart is in the middle of a process operation. *)

From S2P Require Import Prelude Params Mem State Spinlock CString Kalloc Vm Proc.

(** ** Definitions *)

(** No process lock is held, and the table has its [NPROC] entries. *)
Record procs_free (s : kstate) : Prop := {
  pf_locks : forall i, s.(k_locks) !! proc_lock i = None;
  pf_hart : hart_ok s.(k_hart);
  pf_len : length s.(k_procs) = Z.to_nat NPROC;
}.

(** What [wakeup] does to one process. *)
Definition wake (ch : option chan) (q : proc) : proc :=
  if bool_decide (q.(p_state) = SLEEPING) && bool_decide (q.(p_chan) = ch)
  then set_p_state RUNNABLE q else q.

(** What [wakeup], called by process [me], does to the table. *)
Definition wake_all (ch : option chan) (me : option nat) (ps : list proc) : list proc :=
  imap (fun i q => if bool_decide (me = Some i) then q else wake ch q) ps.

(** What [kill] does to its victim. *)
Definition kill_one (q : proc) : proc :=
  set_p_killed 1 (if bool_decide (q.(p_state) = SLEEPING) then set_p_state RUNNABLE q else q).

(** The first process with the given pid. *)
Fixpoint find_pid (ps : list proc) (pid : Z) : option nat :=
  match ps with
  | [] => None
  | q :: ps' => if q.(p_pid) =? pid then Some 0%nat else S <$> find_pid ps' pid
  end.

(** The state in which a process that called [sleep] gives up the cpu: [lk]
    is free, the process lock is held instead. *)
Definition asleep (p : nat) (ch : chan) (lk : lockid) (s : kstate) : kstate :=
  upd_proc p (fun q => set_p_state SLEEPING (set_p_chan (Some ch) q))
    (set_locks (<[proc_lock p := s.(k_hart).(hartid)]> (delete lk s.(k_locks))) s).

(** The state after the scheduler has resumed it. *)
Definition awake (p : nat) (lk : lockid) (intena : bool) (s : kstate) : kstate :=
  upd_proc p (set_p_chan None)
    (set_locks (<[lk := s.(k_hart).(hartid)]> (delete (proc_lock p) s.(k_locks)))
       (upd_hart (set_c_intena intena) s)).

(** A hart that holds exactly one spinlock. *)
Record one_lock (s : kstate) (lk : lockid) : Prop := {
  ol_held : s.(k_locks) !! lk = Some s.(k_hart).(hartid);
  ol_noff : s.(k_hart).(c_noff) = 1;
  ol_off : has s.(k_hart).(sstatus) SSTATUS_SIE = false;
}.

(** ** Lemmas *)

Definition hart_pop (h : hart) : hart :=
  let h' := set_c_noff (h.(c_noff) - 1) h in
  if (h.(c_noff) - 1 =? 0) && h.(c_intena)
  then set_sstatus (Z.lor h.(sstatus) SSTATUS_SIE) h' else h'.

Lemma hart_pop_id h : (hart_pop h).(hartid) = h.(hartid).
Proof. unfold hart_pop. by destruct (_ && _). Qed.

Lemma hart_pop_proc h : (hart_pop h).(c_proc) = h.(c_proc).
Proof. unfold hart_pop. by destruct (_ && _). Qed.

Lemma hart_pop_noff h : (hart_pop h).(c_noff) = h.(c_noff) - 1.
Proof. unfold hart_pop. by destruct (_ && _). Qed.

Lemma pop_off_eq s :
  1 <= s.(k_hart).(c_noff) -> has s.(k_hart).(sstatus) SSTATUS_SIE = false ->
  pop_off s = Ret tt (upd_hart hart_pop s).
Proof.
  intros Hn Hoff. unfold pop_off, intr_get, intr_on, w_sstatus, hart_pop. ksimpl.
  rewrite Hoff. ksimpl. zbool. ksimpl. destruct (_ && _); done.
Qed.

Lemma release_eq s lk :
  s.(k_locks) !! lk = Some s.(k_hart).(hartid) -> 1 <= s.(k_hart).(c_noff) ->
  has s.(k_hart).(sstatus) SSTATUS_SIE = false ->
  release lk s = Ret tt (set_locks (delete lk s.(k_locks)) (upd_hart hart_pop s)).
Proof.
  intros Hl Hn Hoff. unfold release, holding. ksimpl. rewrite Hl, bool_decide_true by done.
  ksimpl. rewrite pop_off_eq by done. done.
Qed.

(** Inside a [push_off], nesting one deeper and back is no change. *)
Lemma hart_pop_push h :
  hart_ok h -> hart_pop (hart_push h) = hart_norm h.
Proof.
  intros [Hn Hoff]. unfold hart_pop, hart_push, hart_norm. ksimpl.
  replace (c_noff h + 1 - 1) with (c_noff h) by lia.
  destruct (Z.eqb_spec (c_noff h) 0) as [E|E]; ksimpl.
  - destruct (has (sstatus h) SSTATUS_SIE) eqn:Ei; ksimpl.
    + by rewrite sie_restore.
    + by rewrite sie_clear_id.
  - by rewrite sie_clear_id by (apply Hoff; lia).
Qed.

Lemma hart_norm_inside h : 0 < h.(c_noff) -> hart_norm h = h.
Proof. intros H. unfold hart_norm. zbool. done. Qed.

Lemma hart_push_pop h :
  h.(c_noff) = 1 -> has h.(sstatus) SSTATUS_SIE = false -> hart_push (hart_pop h) = h.
Proof.
  destruct h as [id pr noff ie ss]. unfold hart_pop, hart_push. ksimpl. intros -> Hoff.
  change (1 - 1 =? 0) with true. ksimpl. destruct ie; ksimpl.
  - change (1 - 1 =? 0) with true. cbv iota.
    rewrite has_set, Z.land_lor_distr_l, Z.land_lnot_diag, Z.lor_0_r, sie_clear_id by done. done.
  - change (1 - 1 =? 0) with true. cbv iota. rewrite Hoff, sie_clear_id by done. done.
Qed.

Lemma myproc_eq s : hart_ok s.(k_hart) -> myproc s = Ret s.(k_hart).(c_proc) (touch s).
Proof.
  intros Hok. unfold myproc, mycpu. erewrite bind_Ret by apply push_off_eq. ksimpl.
  rewrite (pop_off_push _ (k_hart s)) by done. done.
Qed.

Lemma curproc_eq s p :
  hart_ok s.(k_hart) -> s.(k_hart).(c_proc) = Some p -> curproc s = Ret p (touch s).
Proof.
  intros Hok Hp. unfold curproc. erewrite bind_Ret by (by apply myproc_eq). by rewrite Hp.
Qed.

Lemma procs_free_touch s : procs_free s -> procs_free (touch s).
Proof. intros [? ? ?]. constructor; auto with xv6. Qed.

Lemma procs_free_upd s i f : procs_free s -> procs_free (upd_proc i f s).
Proof. intros [H1 H2 H3]. constructor; [done|done|]. ksimpl. by rewrite length_alter. Qed.

Lemma upd_proc_agree i f g s :
  f (proc_at s i) = g (proc_at s i) -> upd_proc i f s = upd_proc i g s.
Proof.
  intros H. unfold upd_proc. f_equal. apply alter_agree. intros x Hx.
  unfold proc_at in H. rewrite (list_lookup_total_correct _ _ _ Hx) in H. done.
Qed.

Lemma upd_proc_id i f s : f (proc_at s i) = proc_at s i -> upd_proc i f s = s.
Proof. intros H. rewrite (upd_proc_agree i f id) by done. unfold upd_proc.
  rewrite alter_id_same by done. done.
Qed.

(** The end of a critical section on process [p] entered in state [s]. *)
Lemma release_proc p s f :
  s.(k_locks) !! proc_lock p = None -> hart_ok s.(k_hart) ->
  release (proc_lock p) (upd_proc p f (acquired (proc_lock p) s)) =
  Ret tt (upd_proc p f (touch s)).
Proof. intros Hfree Hok. rewrite (release_acquired s) by done. done. Qed.

(** A step that only works on one process under its lock. *)
Lemma wakeup_one_eq ch p s :
  s.(k_locks) !! proc_lock p = None -> hart_ok s.(k_hart) ->
  wakeup_one ch p s =
    Ret tt (if bool_decide (s.(k_hart).(c_proc) = Some p) then touch s
            else upd_proc p (wake ch) (touch s)).
Proof.
  intros Hfree Hok. unfold wakeup_one. erewrite bind_Ret by (by apply myproc_eq).
  case_bool_decide as Eme; [done|].
  erewrite bind_Ret by (by apply acquire_free).
  unfold getp. erewrite bind_Ret by done. unfold id.
  set (q := proc_at _ p). set (t := acquired _ _).
  transitivity (release (proc_lock p) (upd_proc p (wake ch) t)).
  - unfold when, setp. unfold wake.
    destruct (bool_decide _ && bool_decide _) eqn:E.
    + erewrite bind_Ret by done. f_equal. apply upd_proc_agree. change (proc_at t p) with q. by rewrite E.
    + erewrite bind_Ret by done. f_equal. symmetry. apply upd_proc_id.
      change (proc_at t p) with q. by rewrite E.
  - unfold t. rewrite release_proc by auto with xv6. by rewrite touch_idem.
Qed.

(** [wakeup] on the entries [i .. i+n-1] of the table. *)
Definition wake_from (ch : option chan) (me : option nat) (i n : nat) (ps : list proc) : list proc :=
  imap (fun j q => if bool_decide (me = Some j) then q
                   else if decide (i <= j < i + n)%nat then wake ch q else q) ps.

Lemma wake_from_step ch me i n ps :
  wake_from ch me (S i) n (if bool_decide (me = Some i) then ps else alter (wake ch) i ps) =
  wake_from ch me i (S n) ps.
Proof.
  unfold wake_from. apply list_eq. intros j. rewrite !list_lookup_imap.
  destruct (decide (j = i)) as [->|Hj].
  - destruct (bool_decide (me = Some i)) eqn:E.
    + done.
    + rewrite list_lookup_alter, decide_True by done. destruct (ps !! i); simpl; [|done].
      rewrite decide_False, decide_True by lia. done.
  - assert ((if bool_decide (me = Some i) then ps else alter (wake ch) i ps) !! j = ps !! j) as ->.
    { destruct (bool_decide (me = Some i)); [done|]. rewrite list_lookup_alter.
      by rewrite decide_False by (by apply not_eq_sym). }
    destruct (ps !! j); simpl; [|done]. destruct (bool_decide (me = Some j)); [done|].
    f_equal. repeat case_decide; lia || done.
Qed.

Lemma wakeup_range ch n : forall i s,
  procs_free s ->
  for_each (seq i (S n)) (wakeup_one ch) s =
  Ret tt (set_procs (wake_from ch s.(k_hart).(c_proc) i (S n) s.(k_procs)) (touch s)).
Proof.
  induction n as [|n IH]; intros i s Hs.
  - simpl. erewrite bind_Ret by (apply wakeup_one_eq; apply Hs).
    unfold ret. f_equal. rewrite <- wake_from_step. unfold wake_from.
    rewrite imap_ext with (g := fun _ q => q); last first.
    { intros j x _. destruct (bool_decide _); [done|]. rewrite decide_False by lia. done. }
    assert (forall A (l : list A), imap (fun _ q => q) l = l) as Hid.
    { intros A l. apply list_eq. intros j. rewrite list_lookup_imap. by destruct (l !! j). }
    rewrite Hid. destruct (bool_decide _); done.
  - change (seq i (S (S n))) with (i :: seq (S i) (S n)). cbn [for_each].
    erewrite bind_Ret by (apply wakeup_one_eq; apply Hs).
    rewrite IH.
    2:{ destruct (bool_decide _); auto using procs_free_touch, procs_free_upd. }
    f_equal. rewrite <- (wake_from_step ch _ i).
    destruct (bool_decide (c_proc (k_hart s) = Some i)); unfold touch; ksimpl;
      rewrite hart_norm_idem; done.
Qed.

Lemma wakeup_eq ch s :
  procs_free s ->
  wakeup ch s = Ret tt (set_procs (wake_all ch s.(k_hart).(c_proc) s.(k_procs)) (touch s)).
Proof.
  intros Hs. unfold wakeup, proc_indices.
  change (seq 0 (Z.to_nat NPROC)) with (seq 0 (S 63)). rewrite wakeup_range by done.
  do 2 f_equal. unfold wake_from, wake_all. apply imap_ext. intros j x Hx.
  destruct (bool_decide _); [done|]. rewrite decide_True; [done|].
  apply lookup_lt_Some in Hx. rewrite (pf_len _ Hs) in Hx. change (Z.to_nat NPROC) with 64%nat in Hx. lia.
Qed.

Lemma proc_at_wake_all ch me ps i :
  (i < length ps)%nat ->
  wake_all ch me ps !!! i = if bool_decide (me = Some i) then ps !!! i else wake ch (ps !!! i).
Proof.
  intros Hi. destruct (lookup_lt_is_Some_2 ps i Hi) as [x Hx].
  rewrite (list_lookup_total_correct _ _ _ Hx). apply list_lookup_total_correct.
  unfold wake_all. rewrite list_lookup_imap, Hx. done.
Qed.

Lemma length_wake_all ch me ps : length (wake_all ch me ps) = length ps.
Proof. apply length_imap. Qed.

Lemma procs_free_wakeup ch me s :
  procs_free s -> procs_free (set_procs (wake_all ch me s.(k_procs)) (touch s)).
Proof.
  intros [H1 H2 H3]. constructor; [done|apply hart_norm_ok, H2|].
  ksimpl. by rewrite length_wake_all.
Qed.

(** [kill] on the entries from [i] on. *)
Lemma kill_range pid n : forall i s,
  procs_free s -> (i + n = length s.(k_procs))%nat ->
  kill_loop (seq i n) pid s =
  match find_pid (drop i s.(k_procs)) pid with
  | Some j => Ret 0 (upd_proc (i + j) kill_one (touch s))
  | None => Ret (-1) (if decide (n = 0%nat) then s else touch s)
  end.
Proof.
  induction n as [|n IH]; intros i s Hs Hlen.
  - rewrite drop_ge by lia. done.
  - assert (i < length s.(k_procs))%nat as Hi by lia.
    destruct (lookup_lt_is_Some_2 _ _ Hi) as [q Hq].
    rewrite (drop_S _ q i Hq). cbn [seq kill_loop find_pid].
    erewrite bind_Ret by (apply acquire_free, Hs).
    unfold getp. erewrite bind_Ret by done. unfold id.
    assert (proc_at (acquired (proc_lock i) s) i = q) as -> by (by apply list_lookup_total_correct).
    destruct (p_pid q =? pid).
    + rewrite Nat.add_0_r. unfold setp, when.
      erewrite bind_Ret by done.
      transitivity (bind (release (proc_lock i)) (fun _ => ret 0)
        (upd_proc i kill_one (acquired (proc_lock i) s))).
      * assert (forall t, proc_at t i = q -> upd_proc i kill_one t =
          upd_proc i (fun q' => if bool_decide (p_state q = SLEEPING)
            then set_p_state RUNNABLE (set_p_killed 1 q') else set_p_killed 1 q') t) as Hag.
        { intros t Ht. apply upd_proc_agree. rewrite Ht. unfold kill_one. by case_bool_decide. }
        rewrite Hag by (by apply list_lookup_total_correct).
        destruct (bool_decide (p_state q = SLEEPING)).
        -- erewrite bind_Ret by done. f_equal. unfold upd_proc. ksimpl.
           by rewrite alter_alter.
        -- erewrite bind_Ret by done. done.
      * erewrite bind_Ret by (apply release_proc; apply Hs). done.
    + erewrite bind_Ret.
      2:{ apply (release_acquired s); [apply Hs|apply Hs|done|done]. }
      rewrite IH.
      2:{ apply procs_free_touch in Hs. exact Hs. }
      2:{ change (i + S n = length (k_procs s))%nat in Hlen. simpl. lia. }
      change (drop (S i) (k_procs (set_locks _ _))) with (drop (S i) (k_procs s)).
      change (set_locks (k_locks s) _) with (touch s). rewrite touch_idem.
      destruct (find_pid (drop (S i) (k_procs s)) pid) as [j|]; simpl.
      * by rewrite Nat.add_succ_r.
      * by case_decide.
Qed.

Lemma one_lock_ok s lk : one_lock s lk -> hart_ok s.(k_hart).
Proof. intros [H1 H2 H3]. split; [lia|]. by intros _. Qed.

Lemma touch_inside s : 0 < s.(k_hart).(c_noff) -> touch s = s.
Proof. intros H. unfold touch, upd_hart. by rewrite hart_norm_inside. Qed.

(** [sched] switches when its guards hold, and restores [intena] afterwards. *)
Lemma sched_switch p s :
  s.(k_hart).(c_proc) = Some p -> one_lock s (proc_lock p) ->
  (proc_at s p).(p_state) <> RUNNING ->
  sched s = Switch s (fun s' => Ret tt (upd_hart (set_c_intena s.(k_hart).(c_intena)) s')).
Proof.
  intros Hp Hl Hst. unfold sched.
  erewrite bind_Ret by (apply curproc_eq; eauto using one_lock_ok).
  destruct Hl as [Hh Hn Hoff]. rewrite touch_inside by lia.
  unfold holding, mycpu, getp, intr_get. ksimpl.
  rewrite Hh, bool_decide_true by done. ksimpl.  zbool. ksimpl.
  rewrite bool_decide_false by done. rewrite Hoff. done.
Qed.

Lemma sched_locks p s :
  s.(k_hart).(c_proc) = Some p -> hart_ok s.(k_hart) -> 1 < s.(k_hart).(c_noff) ->
  s.(k_locks) !! proc_lock p = Some s.(k_hart).(hartid) -> sched s = Panic "sched locks".
Proof.
  intros Hp Hok Hn Hh. unfold sched. erewrite bind_Ret by (by apply curproc_eq).
  rewrite touch_inside by lia. unfold holding, mycpu. ksimpl.
  rewrite Hh, bool_decide_true by done. ksimpl. zbool. done.
Qed.

(** The hart after [acquire] of a second lock and [release] of the first. *)
Lemma hart_swap h :
  1 <= h.(c_noff) -> has h.(sstatus) SSTATUS_SIE = false -> hart_pop (hart_push h) = h.
Proof.
  intros Hn Hoff. rewrite hart_pop_push by (split; [lia|done]). apply hart_norm_inside. lia.
Qed.

(** [sleep] up to the call of [sched]. *)
Lemma sleep_enter p ch lk s :
  s.(k_hart).(c_proc) = Some p -> s.(k_locks) !! lk = Some s.(k_hart).(hartid) ->
  1 <= s.(k_hart).(c_noff) -> has s.(k_hart).(sstatus) SSTATUS_SIE = false ->
  s.(k_locks) !! proc_lock p = None ->
  sleep ch lk s =
  bind sched (fun _ => setp p (set_p_chan None) ;; release (proc_lock p) ;; acquire lk)
    (asleep p ch lk s).
Proof.
  intros Hp Hl Hn Hoff Hfree. unfold sleep.
  erewrite bind_Ret by (apply curproc_eq; [split; [lia|done]|done]).
  rewrite touch_inside by lia.
  erewrite bind_Ret by (by apply acquire_free).
  assert (lk <> proc_lock p) as Hne by congruence.
  erewrite bind_Ret.
  2:{ apply release_eq; unfold acquired, hart_push; ksimpl; [|lia|apply has_clear].
      by rewrite lookup_insert_ne. }
  unfold setp. ksimpl. f_equal. unfold asleep, acquired. ksimpl.
  rewrite hart_swap by done. f_equal. kext.
  - by rewrite delete_insert_ne by done.
  - by rewrite alter_alter.
Qed.

Lemma asleep_at p ch lk s :
  (p < length s.(k_procs))%nat ->
  proc_at (asleep p ch lk s) p = set_p_state SLEEPING (set_p_chan (Some ch) (proc_at s p)).
Proof. intros H. unfold asleep. by rewrite proc_at_upd_eq. Qed.

(** [sleep] as a whole. *)
Lemma sleep_switch p ch lk s :
  s.(k_hart).(c_proc) = Some p -> one_lock s lk -> s.(k_locks) !! proc_lock p = None ->
  (p < length s.(k_procs))%nat ->
  exists k, sleep ch lk s = Switch (asleep p ch lk s) k /\
    forall s', one_lock s' (proc_lock p) -> s'.(k_locks) !! lk = None ->
      k s' = Ret tt (awake p lk s.(k_hart).(c_intena) s').
Proof.
  intros Hp [Hl Hn Hoff] Hfree Hlen. rewrite (sleep_enter p) by (done || lia).
  unfold bind at 1. rewrite (sched_switch p).
  2: done.
  2:{ constructor; [|done|done]. unfold asleep. ksimpl. by rewrite lookup_insert_eq. }
  2:{ rewrite asleep_at by done. done. }
  eexists. split; [reflexivity|]. cbv beta. intros s' [Hl' Hn' Hoff'] Hlk. cbn [obind].
  unfold setp. erewrite bind_Ret by done.
  erewrite bind_Ret.
  2:{ apply release_eq; ksimpl; [done|lia|done]. }
  rewrite acquire_free.
  2:{ ksimpl. rewrite lookup_delete_ne; [done|]. intros E. rewrite <- E in Hlk. congruence. }
  f_equal. unfold acquired, awake. kext; ksimpl.
  - by apply hart_push_pop.
  - by rewrite hart_pop_id.
Qed.

(** ** The scheduler *)

Fixpoint find_runnable (ps : list proc) : option nat :=
  match ps with
  | [] => None
  | q :: ps' =>
      if bool_decide (q.(p_state) = RUNNABLE) then Some 0%nat else S <$> find_runnable ps'
  end.

(** The state in which the scheduler switches to process [p]. *)
Definition dispatched (p : nat) (s : kstate) : kstate :=
  upd_hart (set_c_proc (Some p))
    (upd_proc p (set_p_state RUNNING) (acquired (proc_lock p) s)).

(** The state after process [p] has switched back to it. *)
Definition retired (p : nat) (s : kstate) : kstate :=
  set_locks (delete (proc_lock p) s.(k_locks))
    (upd_hart (fun h => hart_pop (set_c_proc None h)) s).

Lemma scheduler_try_runnable p s :
  s.(k_locks) !! proc_lock p = None -> (proc_at s p).(p_state) = RUNNABLE ->
  exists k, scheduler_try p s = Switch (dispatched p s) k /\
    forall s', one_lock s' (proc_lock p) -> k s' = Ret true (retired p s').
Proof.
  intros Hfree Hst. unfold scheduler_try. erewrite bind_Ret by (by apply acquire_free).
  unfold getp. erewrite bind_Ret by done.
  change (proc_at (acquired (proc_lock p) s) p) with (proc_at s p).
  rewrite bool_decide_true by done. unfold setp. eexists. split; [reflexivity|].
  intros s' [Hl Hn Hoff]. cbn [obind]. erewrite bind_Ret by done.
  erewrite bind_Ret by (apply release_eq; ksimpl; [done|lia|done]). done.
Qed.

Lemma scheduler_try_other p s :
  s.(k_locks) !! proc_lock p = None -> hart_ok s.(k_hart) ->
  (proc_at s p).(p_state) <> RUNNABLE -> scheduler_try p s = Ret false (touch s).
Proof.
  intros Hfree Hok Hst. unfold scheduler_try. erewrite bind_Ret by (by apply acquire_free).
  unfold getp. erewrite bind_Ret by done.
  change (proc_at (acquired (proc_lock p) s) p) with (proc_at s p).
  rewrite bool_decide_false by done.
  erewrite bind_Ret by (by apply (release_acquired s)). done.
Qed.

Lemma scheduler_range n : forall i s,
  procs_free s -> (i + n = length s.(k_procs))%nat ->
  match find_runnable (drop i s.(k_procs)) with
  | Some j => exists k, scheduler_pass (seq i n) false s =
      Switch (dispatched (i + j) (if decide (j = 0%nat) then s else touch s)) k
  | None => scheduler_pass (seq i n) false s = Ret false (if decide (n = 0%nat) then s else touch s)
  end.
Proof.
  induction n as [|n IH]; intros i s Hs Hlen; [by rewrite drop_ge by lia|].
  assert (i < length s.(k_procs))%nat as Hi by lia.
  destruct (lookup_lt_is_Some_2 _ _ Hi) as [q Hq].
  rewrite (drop_S _ q i Hq). cbn [seq scheduler_pass find_runnable].
  assert (proc_at s i = q) as Hat by (by apply list_lookup_total_correct).
  case_bool_decide as E.
  - destruct (scheduler_try_runnable i s) as (k & Hk & _); [apply Hs|by rewrite Hat|].
    unfold bind. rewrite Hk. rewrite Nat.add_0_r. eexists. reflexivity.
  - erewrite bind_Ret by (apply scheduler_try_other; [apply Hs|apply Hs|by rewrite Hat]).
    cbn [orb]. specialize (IH (S i) (touch s) (procs_free_touch _ Hs)).
    change (k_procs (touch s)) with (k_procs s) in IH. rewrite touch_idem in IH.
    specialize (IH ltac:(lia)).
    destruct (find_runnable (drop (S i) (k_procs s))) as [j|]; simpl.
    + destruct IH as [k ->]. exists k. rewrite Nat.add_succ_r. by case_decide.
    + rewrite IH. by case_decide.
Qed.

(** ** Properties *)

(** [wakeup(chan)] makes exactly the processes that sleep on [chan]
    runnable, the calling one excepted: every other field of the table and of
    the state is as before, and all locks are free again. *)
Theorem wakeup_correct ch s :
  procs_free s ->
  exists s', wakeup ch s = Ret tt s' /\ procs_free s' /\
    s' = set_procs s'.(k_procs) (touch s) /\
    length s'.(k_procs) = length s.(k_procs) /\
    forall i, (i < length s.(k_procs))%nat ->
      proc_at s' i =
      if bool_decide (s.(k_hart).(c_proc) <> Some i) &&
         bool_decide ((proc_at s i).(p_state) = SLEEPING) &&
         bool_decide ((proc_at s i).(p_chan) = ch)
      then set_p_state RUNNABLE (proc_at s i) else proc_at s i.
Proof.
  intros Hs. eexists. split; [by apply wakeup_eq|]. split_and!.
  - by apply procs_free_wakeup.
  - done.
  - apply length_wake_all.
  - intros i Hi. unfold proc_at at 1. ksimpl. rewrite proc_at_wake_all by done.
    change (k_procs s !!! i) with (proc_at s i). unfold wake.
    destruct (decide (c_proc (k_hart s) = Some i)) as [E|E].
    + rewrite (bool_decide_true (_ = Some i)) by done.
      rewrite (bool_decide_false (_ <> Some i)) by (intros H; by apply H). done.
    + rewrite (bool_decide_false (_ = Some i)), (bool_decide_true (_ <> Some i)) by done. done.
Qed.

(** While another hart holds the lock of the process, [sleep] waits and keeps [lk]. *)
Lemma sleep_waits p ch lk h s :
  s.(k_hart).(c_proc) = Some p -> hart_ok s.(k_hart) -> 1 <= s.(k_hart).(c_noff) ->
  s.(k_locks) !! lk = Some s.(k_hart).(hartid) -> lk <> proc_lock p -> h <> s.(k_hart).(hartid) ->
  exists t, sleep ch lk (set_locks (<[proc_lock p := h]> s.(k_locks)) s) = Spin (proc_lock p) t /\
    t.(k_locks) !! lk = Some s.(k_hart).(hartid).
Proof.
  intros Hp Hok Hn Hl Hne Hh. unfold sleep. erewrite bind_Ret by (by apply curproc_eq).
  unfold bind at 1. rewrite (acquire_other _ _ h) by (done || apply lookup_insert_eq).
  cbn [obind]. eexists. split; [reflexivity|]. unfold touch. ksimpl. by rewrite lookup_insert_ne.
Qed.

(** The hart holds no lock of a process but, at most, another one holds that of [p]. *)
Record held_elsewhere (p : nat) (s : kstate) : Prop := {
  he_lock : exists h, s.(k_locks) !! proc_lock p = Some h /\ h <> s.(k_hart).(hartid);
  he_rest : forall i, i <> p -> s.(k_locks) !! proc_lock i = None;
  he_hart : hart_ok s.(k_hart);
  he_other : s.(k_hart).(c_proc) <> Some p;
}.

Lemma held_elsewhere_touch p s : held_elsewhere p s -> held_elsewhere p (touch s).
Proof. intros [? ? ? ?]. constructor; auto with xv6. Qed.

(** [wakeup] does not pass a process whose lock is held. *)
Lemma wakeup_blocked ch p n : forall i s,
  held_elsewhere p s -> (i <= p < i + n)%nat ->
  exists t, for_each (seq i n) (wakeup_one ch) s = Spin (proc_lock p) t /\ proc_at t p = proc_at s p.
Proof.
  induction n as [|n IH]; intros i s Hs Hi; [lia|]. cbn [seq for_each].
  destruct (decide (i = p)) as [->|Hne].
  - destruct Hs as [(h & Hl & Hh) _ Hok Hme]. unfold wakeup_one.
    unfold bind at 1. erewrite bind_Ret by (by apply myproc_eq).
    rewrite bool_decide_false by done. unfold bind at 1.
    rewrite (acquire_other _ _ h) by done. cbn [obind]. eexists. split; reflexivity.
  - erewrite bind_Ret by (apply wakeup_one_eq; [by apply Hs|apply Hs]).
    case_bool_decide as E.
    + destruct (IH (S i) (touch s)) as (t & Ht & Et); [by apply held_elsewhere_touch|lia|]. by exists t.
    + destruct (IH (S i) (upd_proc i (wake ch) (touch s))) as (t & Ht & Et).
      * by apply held_elsewhere_touch in Hs as [? ? ? ?].
      * lia.
      * exists t. split; [exact Ht|]. by rewrite Et, proc_at_upd_ne.
Qed.

(** [C12] No wakeup is lost. A process that calls [sleep(chan, lk)] has [lk] until it
    has its own lock: while another hart holds that lock it waits with [lk] still
    held. Holding only [lk] it gives up the cpu in a state where it is
    SLEEPING on [chan], [lk] is free, and its own lock is still held; as long as
    the lock is held, a [wakeup] on another hart waits for it before it looks at the
    process; and a [wakeup(chan)] after its release makes the process RUNNABLE. When
    it is resumed with its own lock it returns holding [lk] again, with its channel
    cleared. If it holds another spinlock as well, the kernel panics. *)
Theorem sleep_no_lost_wakeup p ch lk s :
  s.(k_hart).(c_proc) = Some p -> (p < length s.(k_procs))%nat ->
  hart_ok s.(k_hart) -> s.(k_locks) !! lk = Some s.(k_hart).(hartid) ->
  s.(k_locks) !! proc_lock p = None -> 1 <= s.(k_hart).(c_noff) ->
  (forall h, h <> s.(k_hart).(hartid) ->
     exists t, sleep ch lk (set_locks (<[proc_lock p := h]> s.(k_locks)) s) = Spin (proc_lock p) t /\
       t.(k_locks) !! lk = Some s.(k_hart).(hartid)) /\
  (s.(k_hart).(c_noff) <> 1 -> sleep ch lk s = Panic "sched locks") /\
  (s.(k_hart).(c_noff) = 1 ->
   exists s1 k, sleep ch lk s = Switch s1 k /\
     s1.(k_locks) !! lk = None /\
     s1.(k_locks) !! proc_lock p = Some s.(k_hart).(hartid) /\
     (proc_at s1 p).(p_state) = SLEEPING /\ (proc_at s1 p).(p_chan) = Some ch /\
     (forall i, i <> p -> proc_at s1 i = proc_at s i) /\
     (forall t ch', held_elsewhere p t -> length t.(k_procs) = length s.(k_procs) ->
        length s.(k_procs) = Z.to_nat NPROC ->
        exists t', wakeup ch' t = Spin (proc_lock p) t' /\ proc_at t' p = proc_at t p) /\
     (forall t, procs_free t -> t.(k_procs) = s1.(k_procs) -> t.(k_hart).(c_proc) <> Some p ->
        exists t', wakeup (Some ch) t = Ret tt t' /\ (proc_at t' p).(p_state) = RUNNABLE) /\
     (forall s2, one_lock s2 (proc_lock p) -> s2.(k_locks) !! lk = None ->
        (p < length s2.(k_procs))%nat ->
        exists s3, k s2 = Ret tt s3 /\ one_lock s3 lk /\
          s3.(k_locks) !! proc_lock p = None /\
          proc_at s3 p = set_p_chan None (proc_at s2 p))).
Proof.
  intros Hp Hlen Hok Hl Hfree Hn. assert (lk <> proc_lock p) as Hne by congruence. split_and!.
  - intros h Hh. by apply sleep_waits.
  - intros Hn1. destruct Hok as [Hn0 Hoff]. rewrite (sleep_enter p) by first [done|apply Hoff; lia].
    erewrite bind_Panic; [done|]. apply (sched_locks p); [done|exact (conj Hn0 Hoff)|unfold asleep; ksimpl; lia|].
    unfold asleep. ksimpl. by rewrite lookup_insert_eq.
  - intros Hn1. destruct Hok as [Hn0 Hoff].
    assert (one_lock s lk) as Hone by (constructor; [done|done|apply Hoff; lia]).
    destruct (sleep_switch p ch lk s Hp Hone Hfree Hlen) as (k & Hk & Hres).
    exists (asleep p ch lk s), k. split; [done|]. split_and!.
    + unfold asleep. ksimpl. rewrite lookup_insert_ne by done. apply lookup_delete_eq.
    + unfold asleep. ksimpl. apply lookup_insert_eq.
    + by rewrite asleep_at.
    + by rewrite asleep_at.
    + intros i Hi. unfold asleep. rewrite proc_at_upd_ne by done. done.
    + intros t ch' Ht Hl1 Hl2. apply wakeup_blocked; [done|lia].
    + intros t Ht Hat Hme. eexists. split; [by apply wakeup_eq|].
      unfold proc_at at 1. ksimpl. rewrite Hat, proc_at_wake_all.
      2:{ unfold asleep. ksimpl. by rewrite length_alter. }
      fold (proc_at (asleep p ch lk s) p). rewrite bool_decide_false by done.
      rewrite asleep_at by done. unfold wake. rewrite !bool_decide_true by done. done.
    + intros s2 Hs2 Hlk2 Hp2. exists (awake p lk (c_intena (k_hart s)) s2).
      split; [by apply Hres|]. split_and!.
      * destruct Hs2. constructor; [|done|done]. unfold awake. ksimpl. apply lookup_insert_eq.
      * unfold awake. ksimpl. rewrite lookup_insert_ne by done. apply lookup_delete_eq.
      * unfold awake. by rewrite proc_at_upd_eq.
Qed.

(** [kill(pid)] marks the first process with that pid as killed, and
    makes it runnable if it sleeps, so that it notices; it changes nothing
    else and returns 0. Without such a process it changes nothing and returns
    -1. *)
Theorem kill_correct pid s :
  procs_free s ->
  match find_pid s.(k_procs) pid with
  | Some i => exists s', kill pid s = Ret 0 s' /\ s' = set_procs s'.(k_procs) (touch s) /\
      (proc_at s i).(p_pid) = pid /\
      proc_at s' i = kill_one (proc_at s i) /\ (proc_at s' i).(p_killed) = 1 /\
      (proc_at s' i).(p_state) <> SLEEPING /\
      (forall j, j <> i -> proc_at s' j = proc_at s j)
  | None => kill pid s = Ret (-1) (touch s) /\
      (forall i q, s.(k_procs) !! i = Some q -> q.(p_pid) <> pid)
  end.
Proof.
  intros Hs. assert (kill pid s = match find_pid s.(k_procs) pid with
    | Some j => Ret 0 (upd_proc j kill_one (touch s)) | None => Ret (-1) (touch s) end) as Hk.
  { unfold kill, proc_indices. rewrite <- (pf_len _ Hs), kill_range by done.
    rewrite drop_0. destruct (find_pid _ _); [done|].
    by rewrite decide_False by (by rewrite (pf_len _ Hs)). }
  rewrite Hk. clear Hk.
  assert (forall ps, match find_pid ps pid with
    | Some j => exists q, ps !! j = Some q /\ q.(p_pid) = pid
    | None => forall i q, ps !! i = Some q -> q.(p_pid) <> pid end) as Hf.
  { induction ps as [|q ps IH]; simpl; [done|]. destruct (Z.eqb_spec (p_pid q) pid) as [E|E]; [by eauto|].
    destruct (find_pid ps pid) as [j|]; simpl; [done|].
    intros [|i] x; simpl; [by intros [= <-]|]. apply IH. }
  specialize (Hf s.(k_procs)). destruct (find_pid s.(k_procs) pid) as [i|]; [|by split].
  destruct Hf as (q & Hq & Hpid). assert (proc_at s i = q) as Hat by (by apply list_lookup_total_correct).
  assert (proc_at (upd_proc i kill_one (touch s)) i = kill_one (proc_at s i)) as Hi.
  { apply (proc_at_upd_eq (touch s)). by apply lookup_lt_Some in Hq. }
  eexists. split; [reflexivity|]. split; [done|]. rewrite Hi, Hat. split_and!; [done..| |].
  - unfold kill_one. case_bool_decide; done.
  - intros j Hj. by rewrite proc_at_upd_ne.
Qed.

(** [C33] A pass of the scheduler runs the first runnable process of the
    table: it switches to it holding that process's lock, with the process
    RUNNING and recorded in [c->proc], and no other process changed. When no
    process is runnable the pass changes nothing. *)
Theorem scheduler_pass_correct s :
  procs_free s ->
  match find_runnable s.(k_procs) with
  | Some p => exists s1 k, scheduler_pass proc_indices false s = Switch s1 k /\
      (proc_at s p).(p_state) = RUNNABLE /\
      (forall i q, (i < p)%nat -> s.(k_procs) !! i = Some q -> q.(p_state) <> RUNNABLE) /\
      s1.(k_hart).(c_proc) = Some p /\
      s1.(k_locks) = <[proc_lock p := s.(k_hart).(hartid)]> s.(k_locks) /\
      proc_at s1 p = set_p_state RUNNING (proc_at s p) /\
      (forall i, i <> p -> proc_at s1 i = proc_at s i)
  | None => scheduler_pass proc_indices false s = Ret false (touch s) /\
      (forall i q, s.(k_procs) !! i = Some q -> q.(p_state) <> RUNNABLE)
  end.
Proof.
  intros Hs. pose proof (scheduler_range (Z.to_nat NPROC) 0 s Hs) as Hr.
  rewrite drop_0 in Hr. specialize (Hr ltac:(by rewrite (pf_len _ Hs))).
  assert (forall ps, match find_runnable ps with
    | Some j => (exists q, ps !! j = Some q /\ q.(p_state) = RUNNABLE) /\
        forall i q, (i < j)%nat -> ps !! i = Some q -> q.(p_state) <> RUNNABLE
    | None => forall i q, ps !! i = Some q -> q.(p_state) <> RUNNABLE end) as Hf.
  { clear. induction ps as [|q ps IH]; simpl; [done|]. case_bool_decide as E.
    - split; [by eauto|]. intros; lia.
    - destruct (find_runnable ps) as [j|]; simpl.
      + destruct IH as [IH1 IH2]. split; [done|]. intros [|i] x Hx; simpl; [by intros [= <-]|].
        apply IH2. lia.
      + intros [|i] x; simpl; [by intros [= <-]|]. apply IH. }
  specialize (Hf s.(k_procs)). destruct (find_runnable s.(k_procs)) as [p|].
  - destruct Hf as [(q & Hq & Hst) Hbefore]. destruct Hr as [k Hk]. simpl in Hk.
    assert (p < length (k_procs s))%nat as Hp by (by apply lookup_lt_Some in Hq).
    eexists _, k. split; [exact Hk|].
    assert (proc_at s p = q) as Hat by (by apply list_lookup_total_correct).
    assert (forall t, k_procs t = k_procs s -> k_locks t = k_locks s ->
      hartid (k_hart t) = hartid (k_hart s) ->
      c_proc (k_hart (dispatched p t)) = Some p /\
      k_locks (dispatched p t) = <[proc_lock p := s.(k_hart).(hartid)]> s.(k_locks) /\
      proc_at (dispatched p t) p = set_p_state RUNNING (proc_at s p) /\
      (forall i, i <> p -> proc_at (dispatched p t) i = proc_at s i)) as Hd.
    { intros t Hps Hl Hh. unfold dispatched, acquired, proc_at. ksimpl. rewrite Hps, Hl, Hh.
      split_and!; [done..| |].
      - by rewrite lookup_total_alter_eq.
      - intros i Hi. by rewrite lookup_total_alter_ne. }
    split; [by rewrite Hat|]. split; [done|]. case_decide; apply Hd; done.
  - split; [|done]. unfold proc_indices. rewrite Hr. by rewrite decide_False by done.
Qed.

(** ** Witnesses *)

(** A table with a sleeping process 1 and a runnable process 2; process 0
    runs, holding the lock of the ticks. *)
Definition demo_procs : list proc :=
  [set_p_pid 1 (set_p_state RUNNING inhabitant);
   set_p_pid 2 (set_p_chan (Some ticks_chan) (set_p_state SLEEPING inhabitant));
   set_p_pid 3 (set_p_state RUNNABLE inhabitant)] ++ replicate 61 inhabitant.
Definition demo_sched : kstate :=
  set_procs demo_procs (set_hart (set_c_proc (Some 0%nat) inhabitant) inhabitant).
Definition demo_sleeper : kstate :=
  set_locks {[tickslock := 0]} (upd_hart (set_c_noff 1) demo_sched).

Lemma demo_sched_free : procs_free demo_sched.
Proof. constructor; [done|split; simpl; [lia|done]|done]. Qed.

Lemma wakeup_correct_witness :
  exists s', wakeup (Some ticks_chan) demo_sched = Ret tt s' /\
    (proc_at s' 1).(p_state) = RUNNABLE /\ (proc_at s' 2).(p_state) = RUNNABLE.
Proof.
  destruct (wakeup_correct (Some ticks_chan) demo_sched demo_sched_free)
    as (s' & H & _ & _ & _ & Hp).
  assert (2 < length demo_sched.(k_procs))%nat as Hl by (vm_compute; lia).
  exists s'. split; [exact H|]. rewrite (Hp 1%nat), (Hp 2%nat) by lia.
  split; vm_compute; reflexivity.
Defined.

Lemma sleep_no_lost_wakeup_witness :
  exists s1 k, sleep ticks_chan tickslock demo_sleeper = Switch s1 k /\
    (proc_at s1 0).(p_state) = SLEEPING.
Proof.
  destruct (sleep_no_lost_wakeup 0 ticks_chan tickslock demo_sleeper) as (_ & _ & H);
    [done|simpl; lia|split; simpl; [lia|done]|done|done|simpl; lia|].
  destruct (H eq_refl) as (s1 & k & Hs & _ & _ & Hst & _). exists s1, k. split; [exact Hs|exact Hst].
Defined.

Lemma kill_correct_witness :
  exists s', kill 2 demo_sched = Ret 0 s' /\ (proc_at s' 1).(p_killed) = 1 /\
    (proc_at s' 1).(p_state) = RUNNABLE.
Proof.
  destruct (kill_correct 2 demo_sched demo_sched_free) as (s' & H & _ & _ & Hk & Hd & _).
  exists s'. split; [exact H|]. split; [exact Hd|]. rewrite Hk. vm_compute. reflexivity.
Defined.

Lemma scheduler_pass_correct_witness :
  exists s1 k, scheduler_pass proc_indices false demo_sched = Switch s1 k /\
    s1.(k_hart).(c_proc) = Some 2%nat /\ (proc_at s1 2).(p_state) = RUNNING.
Proof.
  destruct (scheduler_pass_correct demo_sched demo_sched_free)
    as (s1 & k & H & _ & _ & Hc & _ & Hp & _).
  exists s1, k. split; [exact H|]. split; [exact Hc|]. rewrite Hp. vm_compute. reflexivity.
Defined.
