(* ===== verification/ProcVm.v ===== *)
(** * The address space of a process (proc.c)

    [proc_pagetable] and [proc_freepagetable]: the page table of a process,
    with the trampoline and the trapframe mapped above the user memory. *)

From S2P Require Import Prelude Params Mem State Spinlock CString Kalloc Vm PageTable VmSpec.
From S2P Require Import UvmSpec UvmProps UvmFree CopySpec Proc ProcSpec.

Section ProcVm.
Context {I : KernelImage} {L : KernelLayout I}.

Definition leaf_pte (pa perm : Z) : Z := Z.lor (Z.lor (PA2PTE pa) perm) PTE_V.
Definition TRAMP_PERM : Z := Z.lor PTE_R PTE_X.
Definition FRAME_PERM : Z := Z.lor PTE_R PTE_W.

(** The address space of a process of [sz] bytes with trapframe page [tf]. *)
Record proc_space (s : kstate) (root tf sz : Z) (l : list Z) : Prop := {
  ps_uvm : uvm s root (below sz) l;
  ps_sz : 0 <= sz <= TRAPFRAME;
  ps_tramp : pte s.(k_mem) root TRAMPOLINE = leaf_pte trampoline TRAMP_PERM;
  ps_frame : pte s.(k_mem) root TRAPFRAME = leaf_pte tf FRAME_PERM;
  ps_tf : page_ok tf;
}.

(** ** Lemmas *)

Lemma leaf_pte_facts pa perm f :
  0 <= pa < 2 ^ 56 -> pa mod PGSIZE = 0 -> 0 <= perm < 1024 -> Z.land f 1023 = f ->
  PTE2PA (leaf_pte pa perm) = pa /\ PTE_FLAGS (leaf_pte pa perm) = Z.lor perm PTE_V /\
  has (leaf_pte pa perm) f = has (Z.lor perm PTE_V) f.
Proof.
  intros Hpa Ha Hp Hf. unfold leaf_pte. rewrite <- Z.lor_assoc.
  destruct (PTE_roundtrip pa (Z.lor perm PTE_V)) as [E1 E2]; [done|done|by apply perm_range|].
  split_and!; [done|done|]. rewrite <- has_flags by done. by rewrite E2.
Qed.

Lemma trampoline_facts : 0 <= trampoline < 2 ^ 56 /\ trampoline mod PGSIZE = 0.
Proof.
  pose proof tramp_range. pose proof kend_range. pose proof tramp_aligned.
  change PHYSTOP with 0x88000000 in *. unfold KERNBASE, PGSIZE in *. lia.
Qed.

(** The page addresses from [TRAPFRAME] up. *)
Lemma high_pages va : is_page va -> TRAPFRAME <= va -> va = TRAPFRAME \/ va = TRAMPOLINE.
Proof.
  unfold is_page. change TRAPFRAME with (2 ^ 38 - 8192). change TRAMPOLINE with (2 ^ 38 - 4096).
  change MAXVA with (2 ^ 38). unfold PGSIZE. intros. Z.to_euclidean_division_equations. lia.
Qed.

Lemma is_page_tramp : is_page TRAMPOLINE.
Proof. by compute. Qed.
Lemma is_page_frame : is_page TRAPFRAME.
Proof. by compute. Qed.

Lemma proc_space_user s root tf sz l : proc_space s root tf sz l -> uspace s root sz l.
Proof.
  intros [Hu Hsz Ht Hf Htf]. constructor; [done|done|]. intros va Hva Hhi.
  destruct (high_pages va Hva Hhi) as [->| ->]; [rewrite Hf|rewrite Ht].
  - destruct (leaf_pte_facts tf FRAME_PERM PTE_U) as (_ & _ & ->); try done; by apply page_ok_pte.
  - destruct (leaf_pte_facts trampoline TRAMP_PERM PTE_U) as (_ & _ & ->); try done; apply trampoline_facts.
Qed.

(** Unmapping the trampoline or the trapframe page. *)
Lemma unmap_high root va s sz l :
  uvm s root (below sz) l -> is_page va -> TRAPFRAME <= va ->
  has (pte s.(k_mem) root va) PTE_V = true -> PTE_FLAGS (pte s.(k_mem) root va) <> PTE_V ->
  exists s', uvmunmap root va 1 false s = Ret tt s' /\ uvm s' root (below sz) l /\ frame s s' /\
    (forall q, owned s'.(k_mem) root (below sz) q \/ q ∈ l <-> owned s.(k_mem) root (below sz) q \/ q ∈ l) /\
    changed_in (fun x => exists q, (owned s.(k_mem) root (below sz) q \/ q ∈ l) /\ in_page q x) s.(k_mem) s'.(k_mem) /\
    forall va', is_page va' -> pte s'.(k_mem) root va' = if decide (va' = va) then 0 else pte s.(k_mem) root va'.
Proof.
  intros Hu Hva Hhi HV HF.
  destruct (unmap_leaf root va s l (uv_rep _ _ _ _ Hu) Hva HV HF) as (s' & Hr & Hst & Hpte).
  destruct (uvm_high s s' root (below sz) l l Hu Hst) as (Hu' & Hf & Hp & Hc & _).
  { intros va' Hva' Hlo. rewrite Hpte by done. rewrite decide_False; [done|lia]. }
  exists s'. split_and!; try done. eapply changed_in_mono, Hc. intros x (q & [Hq|Hq] & Hx); exists q; (split; [|done]).
  - left. by left.
  - by right.
Qed.

(** Several steps that keep the set of pages. *)
Lemma gone_after root D s1 s2 l s' l' (O : Z -> Prop) :
  frame s1 s2 -> (forall q, owned s2.(k_mem) root D q \/ q ∈ l <-> O q) ->
  changed_in (fun x => exists q, O q /\ in_page q x) s1.(k_mem) s2.(k_mem) ->
  uvm_gone root s2 D l s' l' ->
  kmem_rep s' l' /\ frame s1 s' /\ (forall q, q ∈ l' <-> O q) /\
  changed_in (fun x => exists q, O q /\ in_page q x) s1.(k_mem) s'.(k_mem).
Proof.
  intros Hf Hp Hc [Hk Hf' Hp' Hc']. refine (conj Hk (conj _ (conj _ _))).
  - by eapply frame_trans.
  - intros q. by rewrite Hp'.
  - eapply changed_in_trans; [exact Hc|]. eapply changed_in_mono, Hc'. intros x (q & Hq & Hx).
    exists q. split; [by apply Hp|done].
Qed.

Lemma tramp_leaf : has (leaf_pte trampoline TRAMP_PERM) PTE_V = true /\
  PTE_FLAGS (leaf_pte trampoline TRAMP_PERM) <> PTE_V.
Proof.
  destruct trampoline_facts. destruct (leaf_pte_facts trampoline TRAMP_PERM PTE_V) as (_ & -> & ->); done.
Qed.

Lemma frame_leaf tf : page_ok tf -> has (leaf_pte tf FRAME_PERM) PTE_V = true /\
  PTE_FLAGS (leaf_pte tf FRAME_PERM) <> PTE_V.
Proof.
  intros Htf. destruct (page_ok_pte tf Htf). destruct (leaf_pte_facts tf FRAME_PERM PTE_V) as (_ & -> & ->); done.
Qed.

(** [proc_freepagetable] gives back all pages of the address space. *)
Lemma proc_freepagetable_ok s root tf sz l :
  proc_space s root tf sz l ->
  exists s' l', proc_freepagetable root sz s = Ret tt s' /\ uvm_gone root s (below sz) l s' l'.
Proof.
  intros [Hu Hsz Ht Hf Htf]. destruct tramp_leaf as [Vt Ft]. destruct (frame_leaf tf Htf) as [Vf Ff].
  destruct (unmap_high root TRAMPOLINE s sz l Hu is_page_tramp) as (s1 & Hr1 & Hu1 & Hf1 & Hp1 & Hc1 & Hpte1);
    [done|by rewrite Ht|by rewrite Ht|].
  assert (pte (k_mem s1) root TRAPFRAME = leaf_pte tf FRAME_PERM) as Hf'
    by (rewrite Hpte1 by apply is_page_frame; by rewrite decide_False).
  destruct (unmap_high root TRAPFRAME s1 sz l Hu1 is_page_frame) as (s2 & Hr2 & Hu2 & Hf2 & Hp2 & Hc2 & Hpte2);
    [done|by rewrite Hf'|by rewrite Hf'|].
  destruct (uvmfree_ok root sz s2 l Hu2 Hsz) as (s3 & l3 & Hr3 & Hg).
  { intros va Hva Hhi. rewrite Hpte2 by done. case_decide as E; [done|]. rewrite Hpte1 by done.
    destruct (high_pages va Hva Hhi) as [->| ->]; [done|]. by rewrite decide_True. }
  exists s3, l3. split.
  { unfold proc_freepagetable. erewrite bind_Ret by exact Hr1. by erewrite bind_Ret by exact Hr2. }
  destruct (gone_after root (below sz) s s2 l s3 l3 (fun q => owned s.(k_mem) root (below sz) q \/ q ∈ l))
    as (? & ? & ? & ?); [by eapply frame_trans| | |done|by split].
  - intros q. by rewrite Hp2, Hp1.
  - eapply changed_in_trans; [exact Hc1|]. eapply changed_in_mono, Hc2. intros x (q & Hq & Hx).
    exists q. split; [by apply Hp1|done].
Qed.

(** Mapping the trampoline or the trapframe page in a table without user memory. *)
Lemma map_high root va pa perm s l :
  uvm s root (below 0) l -> is_page va -> TRAPFRAME <= va -> 0 <= pa -> pa + PGSIZE <= 2 ^ 56 -> 0 <= perm < 1024 ->
  has (pte s.(k_mem) root va) PTE_V = false ->
  exists r s' l', mappages root va PGSIZE pa perm s = Ret r s' /\ uvm s' root (below 0) l' /\ frame s s' /\
    (forall q, owned s'.(k_mem) root (below 0) q \/ q ∈ l' <-> owned s.(k_mem) root (below 0) q \/ q ∈ l) /\
    changed_in (fun x => exists q, (owned s.(k_mem) root (below 0) q \/ q ∈ l) /\ in_page q x) s.(k_mem) s'.(k_mem) /\
    ((r = 0 /\ (length l <= length l' + 2)%nat) \/ (r = -1 /\ (length l < 2)%nat)) /\
    forall va', is_page va' -> pte s'.(k_mem) root va' =
      if decide (va' = va /\ r = 0) then leaf_pte pa perm else pte s.(k_mem) root va'.
Proof.
  intros Hu Hva Hhi Hpa Hpa' Hperm HV. destruct Hva as [Ha Hr].
  destruct (mappages_ok root va PGSIZE pa perm s l) as (r & s' & l' & k & Hm & Hst & Hpte & Hlen & Hres); try done; try lia.
  { apply Hu. } { unfold is_page, PGSIZE in *. change MAXVA with (2 ^ 38) in *. Z.to_euclidean_division_equations. lia. }
  { intros a Ha' Hin. assert (a = va) as ->; [|done]. unfold is_page, PGSIZE in *. Z.to_euclidean_division_equations. lia. }
  assert (forall va', is_page va' -> pte s'.(k_mem) root va' =
    if decide (va' = va /\ r = 0) then leaf_pte pa perm else pte s.(k_mem) root va') as Hpte'.
  { intros va' Hva'. rewrite Hpte by done. unfold map_pte. unfold PGSIZE in *.
    destruct Hres as [[-> Hk]|(-> & Hk & _)].
    - assert (k = 1) as -> by lia. case_bool_decide as E; case_decide as E'; try done.
      + destruct E' as [-> _]. by rewrite Z.sub_diag, Z.add_0_r.
      + exfalso. apply E'. split; [|done]. unfold is_page, PGSIZE in *. Z.to_euclidean_division_equations. lia.
      + destruct E' as [-> _]. lia.
    - assert (k = 0) as -> by lia. rewrite bool_decide_false by lia. rewrite decide_False by (by intros [_ ?]). done. }
  destruct (uvm_high s s' root (below 0) l l' Hu Hst) as (Hu' & Hf & Hp & Hc & _).
  { intros va' Hva' Hlo. rewrite Hpte' by done. rewrite decide_False; [done|lia]. }
  exists r, s', l'. split_and!; try done.
  - eapply changed_in_mono, Hc. intros x (q & [Hq|Hq] & Hx); exists q; (split; [|done]); [left; by left|by right].
  - change (PGSIZE / PGSIZE) with 1 in *. destruct Hres as [[-> _]|(-> & _ & _ & ?)]; [left|right]; split; [done|lia|done|lia].
Qed.

Lemma below_0 va : is_page va -> below 0 va <-> False.
Proof. intros [_ Hr]. unfold below. change (PGROUNDUP 0) with 0. lia. Qed.

Lemma frame_procs s s' : frame s s' -> s'.(k_procs) = s.(k_procs).
Proof. intros H. exact (f_equal k_procs H). Qed.

(** What a fallible operation that takes free pages leaves: a result made of
    some of them, or all of them still free. *)
Definition from_free (s : kstate) (l : list Z) (s' : kstate) : Prop :=
  frame s s' /\ changed_in (fun x => exists q, q ∈ l /\ in_page q x) s.(k_mem) s'.(k_mem).

(** [uvmfree] of a table that has no user memory. *)
Lemma uvmfree_empty root s s0 l l0 :
  uvm s root (below 0) l -> from_free s0 l0 s ->
  (forall q, owned s.(k_mem) root (below 0) q \/ q ∈ l <-> q ∈ l0) ->
  (forall va, is_page va -> TRAPFRAME <= va -> has (pte s.(k_mem) root va) PTE_V = false) ->
  exists s' l', uvmfree root 0 s = Ret tt s' /\ from_free s0 l0 s' /\ kmem_rep s' l' /\ forall q, q ∈ l' <-> q ∈ l0.
Proof.
  intros Hu [Hf Hc] Hp Hn. destruct (uvmfree_ok root 0 s l Hu) as (s' & l' & Hr & Hg); [done|done|].
  destruct (gone_after root (below 0) s0 s l s' l' (fun q => q ∈ l0)) as (? & ? & ? & ?); try done.
  exists s', l'. done.
Qed.

Lemma uvmcreate_cases s l :
  kmem_rep s l ->
  exists root s' l', uvmcreate s = Ret root s' /\ from_free s l s' /\
    ((root = 0 /\ l = [] /\ kmem_rep s' l' /\ forall q, q ∈ l' <-> q ∈ l) \/
     (root <> 0 /\ length l = S (length l') /\ uvm s' root (below 0) l' /\ (forall va, pte s'.(k_mem) root va = 0) /\
      forall q, owned s'.(k_mem) root (below 0) q \/ q ∈ l' <-> q ∈ l)).
Proof.
  intros Hk. destruct l as [|p l].
  - exists 0, (touch s), []. split; [unfold uvmcreate; erewrite bind_Ret by (by apply kalloc_empty); done|].
    split; [split; [apply frame_touch|apply changed_in_refl]|]. left. split_and!; [done|done|by apply kmem_rep_touch|done].
  - destruct (uvmcreate_ok s p l Hk) as (s' & Hr & Hu & Hp & Hf & Hc & Ho). exists p, s', l. split; [done|].
    assert (page_ok p) as Hpk by (eapply flist_pages; [apply Hk|by left]).
    split; [split; [done|]|right; split; [by apply page_ok_nz|]; split; [done|]; split; [|split; [done|]]].
    + eapply changed_in_mono, Hc. intros x Hx. exists p. split; [by left|done].
    + eapply uvm_iff, Hu. intros va Hva. symmetry. by apply below_0.
    + intros q. rewrite (owned_iff _ _ _ (fun _ => False) q) by apply below_0. rewrite elem_of_cons. split.
      * intros [Hq|Hq]; [left; by apply Ho|by right].
      * intros [->|Hq]; [left; left; exists []; split; [apply path_ok_nil|done]|by right].
Qed.

Lemma from_free_step s l s1 s2 (O : Z -> Prop) :
  from_free s l s1 -> frame s1 s2 -> (forall q, O q -> q ∈ l) ->
  changed_in (fun x => exists q, O q /\ in_page q x) s1.(k_mem) s2.(k_mem) -> from_free s l s2.
Proof.
  intros [Hf1 Hc1] Hf Hin Hc. split; [by eapply frame_trans|]. eapply changed_in_trans; [exact Hc1|].
  eapply changed_in_mono, Hc. intros x (q & Hq & Hx). exists q. auto.
Qed.

(** The second half of [proc_pagetable]: the trapframe page. *)
Lemma map_frame_ok root tf s s0 l l0 :
  root <> 0 -> page_ok tf -> uvm s root (below 0) l -> from_free s0 l0 s ->
  (forall q, owned s.(k_mem) root (below 0) q \/ q ∈ l <-> q ∈ l0) ->
  pte s.(k_mem) root TRAMPOLINE = leaf_pte trampoline TRAMP_PERM -> pte s.(k_mem) root TRAPFRAME = 0 ->
  exists r s' l', (let! r := mappages root TRAPFRAME PGSIZE tf FRAME_PERM in
      if r <? 0 then uvmunmap root TRAMPOLINE 1 false ;; uvmfree root 0 ;; ret 0 else ret root) s = Ret r s' /\
    from_free s0 l0 s' /\
    ((r = 0 /\ (length l < 2)%nat /\ kmem_rep s' l' /\ forall q, q ∈ l' <-> q ∈ l0) \/
     (r <> 0 /\ (length l <= length l' + 2)%nat /\ proc_space s' r tf 0 l' /\
      forall q, owned s'.(k_mem) r (below 0) q \/ q ∈ l' <-> q ∈ l0)).
Proof.
  intros Hnz Htf Hu Hff Hp Ht Hz. destruct tramp_leaf as [Vt Ft]. pose proof (page_ok_pos tf Htf) as [Htp1 Htp2].
  destruct (map_high root TRAPFRAME tf FRAME_PERM s l Hu is_page_frame) as
    (r & s1 & l1 & Hr1 & Hu1 & Hf1 & Hp1 & Hc1 & Hrr1 & Hpte1);
    [done|lia|change PHYSTOP with 0x88000000 in *; lia|done|by rewrite Hz|].
  assert (from_free s0 l0 s1) as Hff1 by (eapply from_free_step; [exact Hff|exact Hf1|intros q; apply Hp|exact Hc1]).
  assert (pte (k_mem s1) root TRAMPOLINE = leaf_pte trampoline TRAMP_PERM) as Ht1.
  { rewrite Hpte1 by apply is_page_tramp. by rewrite decide_False by (by intros [? _]). }
  erewrite bind_Ret by exact Hr1. destruct Hrr1 as [[-> ?]|[-> ?]]; cbn [Z.ltb Z.compare].
  { exists root, s1, l1. split; [done|]. split; [done|]. right. split; [done|]. split; [done|]. split.
    - constructor; try done. rewrite Hpte1 by apply is_page_frame. by rewrite decide_True.
    - intros q. by rewrite Hp1, Hp. }
  destruct (unmap_high root TRAMPOLINE s1 0 l1 Hu1 is_page_tramp) as (s2 & Hr2 & Hu2 & Hf2 & Hp2 & Hc2 & Hpte2);
    [done|by rewrite Ht1|by rewrite Ht1|].
  assert (forall q, owned (k_mem s1) root (below 0) q \/ q ∈ l1 <-> q ∈ l0) as Hp1' by (intros q; by rewrite Hp1, Hp).
  destruct (uvmfree_empty root s2 s0 l1 l0 Hu2) as (s3 & l3 & Hr3 & Hff3 & Hk3 & Hp3).
  { eapply from_free_step; [exact Hff1|exact Hf2|intros q Hq; exact (proj1 (Hp1' q) Hq)|exact Hc2]. }
  { intros q. by rewrite Hp2, Hp1'. }
  { intros va Hva Hhi. rewrite Hpte2 by done. destruct (decide (va = TRAMPOLINE)) as [E|E]; [done|]. rewrite Hpte1 by done.
    rewrite decide_False by (by intros [_ ?]). destruct (high_pages va Hva Hhi) as [->| ->]; [by rewrite Hz|done]. }
  exists 0, s3, l3. erewrite bind_Ret by exact Hr2. erewrite bind_Ret by exact Hr3.
  split; [done|]. split; [done|]. by left.
Qed.

(** [proc_pagetable] makes an address space without user memory of at most five
    free pages, or returns 0 with every free page still free, fewer than five. *)
Lemma proc_pagetable_ok p s l tf :
  kmem_rep s l -> (proc_at s p).(p_trapframe) = tf -> page_ok tf ->
  exists root s' l', proc_pagetable p s = Ret root s' /\ from_free s l s' /\
    ((root = 0 /\ (length l < 5)%nat /\ kmem_rep s' l' /\ forall q, q ∈ l' <-> q ∈ l) \/
     (root <> 0 /\ (length l <= length l' + 5)%nat /\ proc_space s' root tf 0 l' /\
      forall q, owned s'.(k_mem) root (below 0) q \/ q ∈ l' <-> q ∈ l)).
Proof.
  intros Hk Htf Hok. destruct (uvmcreate_cases s l Hk) as (root & s1 & l1 & Hr1 & Hff1 & Hres).
  unfold proc_pagetable. erewrite bind_Ret by exact Hr1.
  destruct Hres as [(-> & -> & Hk1 & Hp1)|(Hnz & Hlen1 & Hu1 & Hz & Hp1)].
  { exists 0, s1, l1. split; [done|]. split; [done|]. left. split_and!; [done|simpl; lia|done|done]. }
  rewrite (proj2 (Z.eqb_neq root 0)) by done. destruct trampoline_facts as [Ht1 Ht2].
  assert (forall q, owned s1.(k_mem) root (below 0) q \/ q ∈ l1 -> q ∈ l) as Hin1 by (intros q; apply Hp1).
  destruct (map_high root TRAMPOLINE trampoline TRAMP_PERM s1 l1 Hu1 is_page_tramp) as
    (r2 & s2 & l2 & Hr2 & Hu2 & Hf2 & Hp2 & Hc2 & Hrr2 & Hpte2);
    [done|lia|pose proof tramp_range; pose proof kend_range; change PHYSTOP with 0x88000000 in *; lia|done|by rewrite Hz|].
  assert (from_free s l s2) as Hff2 by (eapply from_free_step; [exact Hff1|exact Hf2|exact Hin1|exact Hc2]).
  erewrite bind_Ret by exact Hr2. destruct Hrr2 as [[-> Hlen2]|[-> Hlen2]]; cbn [Z.ltb Z.compare].
  2:{ destruct (uvmfree_empty root s2 s l2 l Hu2 Hff2) as (s3 & l3 & Hr3 & Hff3 & Hk3 & Hp3).
      { intros q. by rewrite Hp2, Hp1. }
      { intros va Hva Hhi. rewrite Hpte2 by done. rewrite decide_False by (by intros [_ ?]). by rewrite Hz. }
      exists 0, s3, l3. erewrite bind_Ret by exact Hr3. split; [done|]. split; [done|]. left. split_and!; [done|lia|done|done]. }
  erewrite (bind_Ret (getp p p_trapframe) _ s2 tf s2).
  2:{ unfold getp, get, proc_at. rewrite (frame_procs s s2) by apply Hff2. by rewrite <- Htf. }
  destruct (map_frame_ok root tf s2 s l2 l) as (r & s3 & l3 & Hr3 & Hff3 & Hres); try done.
  - intros q. by rewrite Hp2, Hp1.
  - rewrite Hpte2 by apply is_page_tramp. by rewrite decide_True.
  - rewrite Hpte2 by apply is_page_frame. rewrite decide_False by (by intros [? _]). apply Hz.
  - exists r, s3, l3. split; [exact Hr3|]. split; [done|].
    destruct Hres as [(? & ? & ? & ?)|(? & ? & ? & ?)]; [left|right]; split_and!; try done; lia.
Qed.

End ProcVm.
