(* ===== verification/Sleeplock.v ===== *)
(** * Sleep locks (sleeplock.c)

    A sleep lock lives in a buffer or in an in-memory inode; a reference to
    one names the object. *)

From S2P Require Import Prelude Params Mem State Spinlock CString Kalloc Vm Proc.
From S2P Require Import ProcSpec.

Inductive slref := SlBuf (b : nat) | SlInode (ip : nat).

(** The inner spinlock, the wait channel and the contents of a sleep lock. *)
Definition sl_lk (r : slref) : lockid :=
  match r with SlBuf b => buf_sleep_lock b | SlInode ip => inode_sleep_lock ip end.
Definition sl_chan (r : slref) : chan :=
  match r with SlBuf b => buf_sleep_chan b | SlInode ip => inode_sleep_chan ip end.
Definition sl_at (s : kstate) (r : slref) : sleeplock :=
  match r with
  | SlBuf b => (buf_at s b).(b_lock)
  | SlInode ip => (inode_at s ip).(i_lock)
  end.
Definition upd_sl (r : slref) (f : sleeplock -> sleeplock) (s : kstate) : kstate :=
  match r with
  | SlBuf b => upd_buf b (fun x => set_b_lock (f x.(b_lock)) x) s
  | SlInode ip => upd_inode ip (fun x => set_i_lock (f x.(i_lock)) x) s
  end.

Section Sleeplock.
Context {I : KernelImage} {F : WaitFuel}.

Definition initsleeplock (r : slref) : K unit :=
  initlock (sl_lk r) ;;
  modify (upd_sl r (set_sl_locked false)) ;;
  modify (upd_sl r (set_sl_pid 0)).

Definition acquiresleep (r : slref) : K unit :=
  acquire (sl_lk r) ;;
  sleep_while wait_fuel (get (fun s => (sl_at s r).(sl_locked))) (sl_chan r) (sl_lk r) ;;
  modify (upd_sl r (set_sl_locked true)) ;;
  let! p := curproc in
  let! pid := getp p p_pid in
  modify (upd_sl r (set_sl_pid pid)) ;;
  release (sl_lk r).

Definition releasesleep (r : slref) : K unit :=
  acquire (sl_lk r) ;;
  modify (upd_sl r (set_sl_locked false)) ;;
  modify (upd_sl r (set_sl_pid 0)) ;;
  wakeup (Some (sl_chan r)) ;;
  release (sl_lk r).

Definition holdingsleep (r : slref) : K bool :=
  acquire (sl_lk r) ;;
  let! l := get (fun s => sl_at s r) in
  let! res := (if l.(sl_locked)
               then let! p := curproc in
                    let! pid := getp p p_pid in
                    ret (l.(sl_pid) =? pid)
               else ret false) in
  release (sl_lk r) ;;
  ret res.

End Sleeplock.

(** * Sleep locks (sleeplock.c): what the operations do

    [calm p s]: process [p] runs in the kernel, no interrupt nesting is
    pending that the code does not know of, and no process lock is held. The
    operations are given as equations on such states; a process that finds
    the lock taken goes to sleep. *)

(** [intena] is what [push_off] would store; it is unused at depth zero. *)
Record calm (p : nat) (s : kstate) : Prop := {
  calm_hart : hart_ok s.(k_hart);
  calm_norm : hart_norm s.(k_hart) = s.(k_hart);
  calm_cur : s.(k_hart).(c_proc) = Some p;
  calm_len : length s.(k_procs) = Z.to_nat NPROC;
  calm_p : (p < Z.to_nat NPROC)%nat;
  calm_plocks : forall i, s.(k_locks) !! proc_lock i = None;
}.

(** The pid of the running process. *)
Definition mypid (p : nat) (s : kstate) : Z := (proc_at s p).(p_pid).

(** [ps'] is [ps] with some sleeping processes, not [p], made runnable. *)
Record woken (p : nat) (ps ps' : list proc) : Prop := {
  wk_len : length ps' = length ps;
  wk_me : ps' !!! p = ps !!! p;
  wk_other : forall i, ps' !!! i = ps !!! i \/
    ((ps !!! i).(p_state) = SLEEPING /\ ps' !!! i = set_p_state RUNNABLE (ps !!! i));
}.

#[global] Instance woken_refl p : Reflexive (woken p).
Proof. intros ps. constructor; auto. Qed.

#[global] Instance woken_trans p : Transitive (woken p).
Proof.
  intros ps1 ps2 ps3 [L1 M1 O1] [L2 M2 O2]. constructor; [congruence|congruence|].
  intros i. destruct (O2 i) as [E2|[S2 E2]]; [by rewrite E2|].
  destruct (O1 i) as [E1|[S1 E1]].
  - right. by rewrite <- E1.
  - rewrite E1 in S2. done.
Qed.

Lemma woken_wake_all p ch ps :
  (p < length ps)%nat -> woken p ps (wake_all ch (Some p) ps).
Proof.
  intros Hp. constructor.
  - apply length_wake_all.
  - rewrite proc_at_wake_all by done. by rewrite bool_decide_true.
  - intros i. destruct (decide (i < length ps)%nat) as [Hi|Hi].
    + rewrite proc_at_wake_all by done. case_bool_decide; [by left|]. unfold wake.
      destruct (bool_decide (p_state _ = SLEEPING)) eqn:E; simpl; [|by left].
      apply bool_decide_eq_true in E. case_bool_decide; [by right|by left].
    + left. rewrite !list_lookup_total_alt. rewrite !lookup_ge_None_2; [done|lia|].
      rewrite length_wake_all. lia.
Qed.

(** ** Symbolic execution of critical sections *)

Lemma calm_touch p s : calm p s -> touch s = s.
Proof. intros H. unfold touch, upd_hart. by rewrite (calm_norm _ _ H). Qed.

Lemma calm_procs_free p s : calm p s -> procs_free s.
Proof. intros [? ? ? ? ? ?]. by constructor. Qed.

(** What the operations read of the state they run in. *)
Lemma calm_ext p s t :
  calm p s -> t.(k_hart) = s.(k_hart) -> t.(k_locks) = s.(k_locks) ->
  length t.(k_procs) = length s.(k_procs) -> calm p t.
Proof. intros [? ? ? ? ? ?] Hh Hl Hp. constructor; rewrite ?Hh, ?Hl, ?Hp; done. Qed.

Lemma hart_push_norm h : hart_ok h -> hart_norm (hart_push h) = hart_push h.
Proof.
  intros [Hn _]. apply hart_norm_inside. unfold hart_push. ksimpl. lia.
Qed.

(** Inside a critical section entered from a calm state. *)
Lemma calm_acquired p s lk :
  calm p s -> (forall i, lk <> proc_lock i) -> calm p (acquired lk s).
Proof.
  intros [? ? ? ? ? ?] Hlk. constructor; unfold acquired; ksimpl; auto with xv6.
  - by apply hart_push_norm.
  - intros i. by rewrite lookup_insert_ne.
Qed.

Lemma curproc_calm p s : calm p s -> curproc s = Ret p s.
Proof.
  intros H. rewrite (curproc_eq s p); [by rewrite (calm_touch p)|apply H|apply H].
Qed.

Lemma release_calm p s t lk :
  calm p s -> s.(k_locks) !! lk = None ->
  t.(k_hart) = hart_push s.(k_hart) ->
  t.(k_locks) = <[lk := s.(k_hart).(hartid)]> s.(k_locks) ->
  release lk t = Ret tt (set_locks s.(k_locks) (set_hart s.(k_hart) t)).
Proof.
  intros H Hfree Hh Hl. rewrite (release_acquired s) by (done || apply H).
  by rewrite (calm_norm _ _ H).
Qed.

Lemma release_inner p t lk :
  calm p t -> t.(k_locks) !! lk = None -> release lk (acquired lk t) = Ret tt t.
Proof.
  intros H Hf. rewrite (release_calm p t) by done. done.
Qed.

Lemma killed_calm p s i :
  calm p s -> killed i s = Ret (proc_at s i).(p_killed) s.
Proof.
  intros Hc. unfold killed. erewrite bind_Ret by (apply acquire_free, (calm_plocks _ _ Hc)).
  unfold getp. erewrite bind_Ret by done.
  erewrite bind_Ret by (apply (release_inner p s); [done|apply (calm_plocks _ _ Hc)]). done.
Qed.

Lemma wakeup_calm p s ch :
  calm p s -> wakeup ch s = Ret tt (set_procs (wake_all ch (Some p) s.(k_procs)) s).
Proof.
  intros H. rewrite wakeup_eq by (by eapply calm_procs_free).
  rewrite (calm_touch p) by done. by rewrite (calm_cur _ _ H).
Qed.

(** ** Sleep locks *)

Lemma sl_lk_proc r i : sl_lk r <> proc_lock i.
Proof. destruct r; done. Qed.

Definition taken (pid : Z) (_ : sleeplock) : sleeplock := mksleeplock true pid.
Definition untaken (_ : sleeplock) : sleeplock := mksleeplock false 0.

Section Sleep.
Context {I : KernelImage} {F : WaitFuel}.

Lemma sl_at_upd r f s :
  match r with
  | SlBuf b => (b < length s.(k_bufs))%nat
  | SlInode ip => (ip < length s.(k_itable))%nat
  end -> sl_at (upd_sl r f s) r = f (sl_at s r).
Proof.
  destruct r; intros H; unfold sl_at, upd_sl, buf_at, inode_at; ksimpl;
    by rewrite lookup_total_alter_eq.
Qed.

(** Consecutive updates of one sleep lock. *)
Lemma upd_sl_twice r f g s : upd_sl r f (upd_sl r g s) = upd_sl r (fun l => f (g l)) s.
Proof. destruct r; unfold upd_sl; ksimpl; by rewrite alter_alter. Qed.

Lemma acquiresleep_free p r s :
  calm p s -> s.(k_locks) !! sl_lk r = None -> (0 < wait_fuel)%nat ->
  (sl_at s r).(sl_locked) = false ->
  acquiresleep r s = Ret tt (upd_sl r (taken (mypid p s)) s).
Proof.
  intros Hc Hfree Hfuel Hl. unfold acquiresleep.
  erewrite bind_Ret by (by apply acquire_free).
  assert (calm p (acquired (sl_lk r) s)) as Hca by (apply calm_acquired; [done|apply sl_lk_proc]).
  set (t := acquired (sl_lk r) s) in *.
  assert (sleep_while wait_fuel (get (fun s => (sl_at s r).(sl_locked))) (sl_chan r) (sl_lk r) t
    = Ret tt t) as Hw.
  { destruct wait_fuel; [lia|]. cbn [sleep_while]. erewrite bind_Ret by done.
    assert (sl_at t r = sl_at s r) as -> by (by destruct r). by rewrite Hl. }
  erewrite bind_Ret by exact Hw. erewrite bind_Ret by done.
  assert (calm p (upd_sl r (set_sl_locked true) t)) as Hc2 by (by destruct r; eapply calm_ext).
  erewrite bind_Ret by (by apply curproc_calm).
  unfold getp. erewrite bind_Ret by done. erewrite bind_Ret by done.
  rewrite upd_sl_twice.
  rewrite (release_calm p s) by (done || by destruct r).
  f_equal. destruct r; reflexivity.
Qed.

Lemma holdingsleep_eq p r s :
  calm p s -> s.(k_locks) !! sl_lk r = None ->
  holdingsleep r s =
  Ret ((sl_at s r).(sl_locked) && ((sl_at s r).(sl_pid) =? mypid p s)) s.
Proof.
  intros Hc Hfree. unfold holdingsleep.
  erewrite bind_Ret by (by apply acquire_free).
  assert (calm p (acquired (sl_lk r) s)) as Hca by (apply calm_acquired; [done|apply sl_lk_proc]).
  erewrite bind_Ret by done.
  assert (sl_at (acquired (sl_lk r) s) r = sl_at s r) as -> by (by destruct r).
  assert (forall res : bool, bind (release (sl_lk r)) (fun _ => ret res) (acquired (sl_lk r) s) = Ret res s) as Hrel.
  { intros res. erewrite bind_Ret by (by apply (release_calm p s)). done. }
  destruct (sl_locked (sl_at s r)).
  - erewrite bind_Ret. 2:{ erewrite bind_Ret by (by apply curproc_calm). reflexivity. }
    apply Hrel.
  - erewrite bind_Ret by done. apply Hrel.
Qed.

Lemma releasesleep_eq p r s :
  calm p s -> s.(k_locks) !! sl_lk r = None ->
  releasesleep r s =
  Ret tt (upd_sl r untaken (set_procs (wake_all (Some (sl_chan r)) (Some p) s.(k_procs)) s)).
Proof.
  intros Hc Hfree. unfold releasesleep.
  erewrite bind_Ret by (by apply acquire_free).
  assert (calm p (acquired (sl_lk r) s)) as Hca by (apply calm_acquired; [done|apply sl_lk_proc]).
  erewrite bind_Ret by done. erewrite bind_Ret by done. rewrite upd_sl_twice.
  erewrite bind_Ret.
  2:{ apply wakeup_calm. by destruct r; eapply calm_ext. }
  rewrite (release_calm p s) by (done || by destruct r).
  f_equal. destruct r; reflexivity.
Qed.

End Sleep.

(** ** Properties *)

Section SleepProps.
Context {I : KernelImage} {F : WaitFuel}.

(** The object the lock lives in exists. *)
Definition sl_exists (r : slref) (s : kstate) : Prop :=
  match r with
  | SlBuf b => (b < length s.(k_bufs))%nat
  | SlInode ip => (ip < length s.(k_itable))%nat
  end.

(** A state in which the scheduler may resume process [p] in [acquiresleep]: it holds
    the lock of the process, and no one is inside the sleep lock's code. *)
Record resumable (p : nat) (r : slref) (s : kstate) : Prop := {
  ra_lock : one_lock s (proc_lock p);
  ra_inner : s.(k_locks) !! sl_lk r = None;
  ra_cur : s.(k_hart).(c_proc) = Some p;
  ra_len : (p < length s.(k_procs))%nat;
  ra_exists : sl_exists r s;
}.

(** [o] sleeps on the lock, and tests it again each time it is resumed: while it is
    taken it goes to sleep again, and as soon as it is free it takes it. [n] bounds how
    often the run is followed. *)
Fixpoint waits (n : nat) (p : nat) (r : slref) (l : sleeplock) (o : outcome kstate unit) : Prop :=
  match n with
  | O => True
  | S n' =>
      exists s1 k, o = Switch s1 k /\ sl_at s1 r = l /\ s1.(k_locks) !! sl_lk r = None /\
        (proc_at s1 p).(p_state) = SLEEPING /\ (proc_at s1 p).(p_chan) = Some (sl_chan r) /\
        forall s2, resumable p r s2 ->
          if (sl_at s2 r).(sl_locked) then waits n' p r (sl_at s2 r) (k s2)
          else exists s3, k s2 = Ret tt s3 /\ sl_at s3 r = mksleeplock true (mypid p s2) /\
                 s3.(k_locks) !! sl_lk r = None /\ s3.(k_locks) !! proc_lock p = None
  end.

(** The rest of [acquiresleep] after the loop. *)
Definition take_sl (r : slref) : K unit :=
  modify (upd_sl r (set_sl_locked true)) ;;
  let! p := curproc in
  let! pid := getp p p_pid in
  modify (upd_sl r (set_sl_pid pid)) ;;
  release (sl_lk r).

(** Inside the sleep lock's code. *)
Record inside (p : nat) (r : slref) (s : kstate) : Prop := {
  is_lock : one_lock s (sl_lk r);
  is_proc : s.(k_locks) !! proc_lock p = None;
  is_cur : s.(k_hart).(c_proc) = Some p;
  is_len : (p < length s.(k_procs))%nat;
  is_exists : sl_exists r s;
}.

Lemma sl_exists_at r f s : sl_exists r s -> sl_at (upd_sl r f s) r = f (sl_at s r).
Proof. intros H. apply sl_at_upd. by destruct r. Qed.

Lemma take_sl_ok p r s :
  inside p r s ->
  exists s', take_sl r s = Ret tt s' /\ sl_at s' r = mksleeplock true (mypid p s) /\
    s'.(k_locks) !! sl_lk r = None /\ s'.(k_locks) !! proc_lock p = None.
Proof.
  intros [Hone Hp Hcur Hlen Hex]. unfold take_sl. erewrite bind_Ret by done.
  set (t := upd_sl r (set_sl_locked true) s).
  assert (t.(k_hart) = s.(k_hart) /\ t.(k_locks) = s.(k_locks) /\ proc_at t p = proc_at s p) as (Eh & El & Ep)
    by (by destruct r).
  pose proof (one_lock_ok _ _ Hone) as Hok.
  erewrite bind_Ret by (apply curproc_eq; rewrite Eh; done).
  rewrite touch_inside by (rewrite Eh; destruct Hone; lia).
  unfold getp. erewrite bind_Ret by done. erewrite bind_Ret by done. unfold t. rewrite upd_sl_twice.
  set (u := upd_sl r _ s).
  assert (u.(k_hart) = s.(k_hart) /\ u.(k_locks) = s.(k_locks)) as (Eh' & El') by (by destruct r).
  destruct Hone as [Hl Hn Hoff]. rewrite release_eq by (rewrite ?Eh', ?El'; done || lia).
  eexists. split; [reflexivity|]. ksimpl. rewrite El'. split_and!.
  - transitivity (sl_at u r); [by destruct r|]. unfold u. rewrite sl_exists_at by done.
    fold t. by rewrite Ep.
  - apply lookup_delete_eq.
  - by rewrite lookup_delete_ne by apply sl_lk_proc.
Qed.

Lemma awake_inside p r i s :
  resumable p r s -> inside p r (awake p (sl_lk r) i s) /\
  sl_at (awake p (sl_lk r) i s) r = sl_at s r /\ mypid p (awake p (sl_lk r) i s) = mypid p s.
Proof.
  intros [[Hl Hn Hoff] Hin Hcur Hlen Hex]. split_and!.
  - constructor; unfold awake; ksimpl.
    + constructor; ksimpl; [apply lookup_insert_eq|done|done].
    + rewrite lookup_insert_ne by apply sl_lk_proc. apply lookup_delete_eq.
    + done.
    + by rewrite length_alter.
    + by destruct r.
  - by destruct r.
  - unfold mypid, awake. by rewrite proc_at_upd_eq.
Qed.

Lemma waits_ok p r n : forall s,
  inside p r s -> (sl_at s r).(sl_locked) = true ->
  waits n p r (sl_at s r)
    (bind (sleep_while (S n) (get (fun s => (sl_at s r).(sl_locked))) (sl_chan r) (sl_lk r))
       (fun _ => take_sl r) s).
Proof.
  induction n as [|n IH]; intros s Hs Hl; [done|]. cbn [waits].
  destruct (sleep_switch p (sl_chan r) (sl_lk r) s) as (k & Hk & Hr); [apply Hs..|].
  remember (S n) as n' eqn:En. cbn [sleep_while]. unfold bind at 1. unfold bind at 1. cbn [get obind].
  rewrite Hl. unfold bind at 1. rewrite Hk. cbn [obind]. eexists _, _. split; [reflexivity|].
  pose proof (is_len _ _ _ Hs) as Hlen. split_and!.
  - by destruct r.
  - unfold asleep. ksimpl. rewrite lookup_insert_ne by (apply not_eq_sym, sl_lk_proc). apply lookup_delete_eq.
  - by rewrite asleep_at.
  - by rewrite asleep_at.
  - intros s2 Hs2. cbv beta. rewrite Hr by apply Hs2. cbn [obind].
    set (t := awake _ _ _ s2). destruct (awake_inside p r (s.(k_hart).(c_intena)) s2 Hs2) as (Ht & Et & Em).
    fold t in Ht, Et, Em. destruct (sl_locked (sl_at s2 r)) eqn:E2; subst n'.
    + rewrite <- Et. apply (IH t Ht). by rewrite Et.
    + cbn [sleep_while]. unfold bind at 1. cbn [get obind]. rewrite Et, E2. cbn [ret obind].
      rewrite <- Em. by apply take_sl_ok.
Qed.

Lemma acquired_inside p r s :
  calm p s -> s.(k_hart).(c_noff) = 0 -> sl_exists r s -> inside p r (acquired (sl_lk r) s).
Proof.
  intros Hc Hn Hex. pose proof (calm_acquired p s (sl_lk r) Hc (sl_lk_proc r)) as Hca.
  constructor; [|apply Hca|apply Hca| |by destruct r].
  - constructor; unfold acquired, hart_push; ksimpl; [apply lookup_insert_eq|lia|apply has_clear].
  - rewrite (calm_len _ _ Hca). apply Hca.
Qed.

(** [C34] Sleep locks exclude each other. On a free lock [acquiresleep]
    succeeds and records the process as the holder, for which
    [holdingsleep] is true. On a taken lock it goes to sleep on the lock, leaving it
    unchanged, and each time it is resumed it looks again: it sleeps again while the
    lock is taken, and takes it when it is free. [releasesleep] frees the lock
    and makes exactly the processes that sleep on it runnable; every other process is
    as before. *)
Theorem sleeplock_correct p r s :
  calm p s -> s.(k_locks) = ∅ -> s.(k_hart).(c_noff) = 0 -> (0 < wait_fuel)%nat ->
  sl_exists r s ->
  ((sl_at s r).(sl_locked) = false ->
    exists s1, acquiresleep r s = Ret tt s1 /\
      sl_at s1 r = mksleeplock true (mypid p s) /\ holdingsleep r s1 = Ret true s1) /\
  ((sl_at s r).(sl_locked) = true ->
    waits (pred wait_fuel) p r (sl_at s r) (acquiresleep r s)) /\
  (exists s1, releasesleep r s = Ret tt s1 /\ sl_at s1 r = mksleeplock false 0 /\
    holdingsleep r s1 = Ret false s1 /\
    forall i, (i < Z.to_nat NPROC)%nat ->
      proc_at s1 i =
      if bool_decide (i <> p) && bool_decide ((proc_at s i).(p_state) = SLEEPING) &&
         bool_decide ((proc_at s i).(p_chan) = Some (sl_chan r))
      then set_p_state RUNNABLE (proc_at s i) else proc_at s i).
Proof.
  intros Hc Hno Hnoff Hfuel Hex.
  assert (s.(k_locks) !! sl_lk r = None) as Hfree by (by rewrite Hno). split_and!.
  - intros Hl. eexists. split; [apply (acquiresleep_free p); [done|by rewrite Hno|done..]|].
    assert (sl_at (upd_sl r (taken (mypid p s)) s) r = mksleeplock true (mypid p s)) as Ha
      by (by rewrite sl_exists_at).
    split; [exact Ha|]. rewrite (holdingsleep_eq p).
    + rewrite Ha. ksimpl. replace (mypid p (upd_sl _ _ _)) with (mypid p s) by (by destruct r).
      by rewrite Z.eqb_refl.
    + by destruct r; eapply calm_ext.
    + destruct r; exact Hfree.
  - intros Hl. unfold acquiresleep. erewrite bind_Ret by (by apply acquire_free).
    destruct wait_fuel as [|n]; [lia|]. cbn [pred].
    replace (sl_at s r) with (sl_at (acquired (sl_lk r) s) r) in * by (by destruct r).
    apply waits_ok; [|done]. by apply acquired_inside.
  - eexists. split; [apply (releasesleep_eq p); [done|by rewrite Hno]|].
    set (s1 := set_procs _ s).
    assert (sl_at (upd_sl r untaken s1) r = mksleeplock false 0) as Ha
      by (by rewrite sl_exists_at by (by destruct r)).
    split; [exact Ha|]. split.
    + rewrite (holdingsleep_eq p).
      * by rewrite Ha.
      * apply (calm_ext p s); [done|by destruct r..|].
        transitivity (length (k_procs s1)); [by destruct r|]. apply length_wake_all.
      * destruct r; exact Hfree.
    + intros i Hi.
      assert (proc_at (upd_sl r untaken s1) i = proc_at s1 i) as -> by (by destruct r).
      unfold s1, proc_at. ksimpl. rewrite proc_at_wake_all by (by rewrite (calm_len _ _ Hc)).
      unfold wake. destruct (decide (i = p)) as [->|Hne].
      * rewrite bool_decide_true, bool_decide_false by naive_solver. done.
      * rewrite bool_decide_false, (bool_decide_true (i <> p)) by congruence. done.
Qed.

End SleepProps.

(** Process 0 runs; process 1 sleeps on the lock of buffer 7, which process 3 has. *)
Definition demo_sleeplock : kstate :=
  upd_buf 7 (set_b_lock (mksleeplock true 3))
    (set_procs ([set_p_pid 1 (set_p_state RUNNING inhabitant);
                 set_p_pid 2 (set_p_chan (Some (buf_sleep_chan 7)) (set_p_state SLEEPING inhabitant))]
                ++ replicate 62 inhabitant)
       (set_hart (set_c_proc (Some 0%nat) inhabitant) inhabitant)).

Lemma sleeplock_correct_witness :
  let F : WaitFuel := 3%nat in
  waits 2 0 (SlBuf 7) (mksleeplock true 3) (acquiresleep (SlBuf 7) demo_sleeplock) /\
  exists s1, releasesleep (SlBuf 7) demo_sleeplock = Ret tt s1 /\
    (proc_at s1 1).(p_state) = RUNNABLE /\ (proc_at s1 2).(p_state) = UNUSED.
Proof.
  intros F. destruct (sleeplock_correct 0 (SlBuf 7) demo_sleeplock) as (_ & Ha & s1 & Hr & _ & _ & Hw).
  - constructor; [split; simpl; [lia|done]|done|done|done|vm_compute; lia|done].
  - done.
  - done.
  - unfold wait_fuel, F. lia.
  - vm_compute. lia.
  - split; [exact (Ha eq_refl)|]. exists s1. split; [exact Hr|].
    rewrite (Hw 1%nat), (Hw 2%nat) by (vm_compute; lia). split; reflexivity.
Defined.
