(* ===== verification/ProcLife.v ===== *)
(** * Process allocation and release (proc.c)

    [allocproc] and [freeproc]: a process slot, its trapframe page and its
    page table are made of free pages, and all of them are given back. *)

From S2P Require Import Prelude Params Mem State Spinlock CString Kalloc Vm PageTable VmSpec.
From S2P Require Import UvmSpec UvmProps UvmFree CopySpec Proc ProcSpec ProcVm Sleeplock.

(** ** Definitions *)

(** A slot that [freeproc] has cleared. *)
Definition clear_proc (q : proc) : proc :=
  set_p_state UNUSED (set_p_xstate 0 (set_p_killed 0 (set_p_chan None
    (set_p_name (<[0%nat := 0]> q.(p_name)) (set_p_parent None (set_p_pid 0 (set_p_sz 0
      (set_p_pagetable 0 q)))))))).
Definition free_proc (q : proc) : proc := clear_proc (set_p_trapframe 0 q).

(** A slot that [allocproc] has filled. *)
Definition new_context {I : KernelImage} (q : proc) : context :=
  set_cx_sp (u64 (q.(p_kstack) + PGSIZE)) (set_cx_ra forkret_addr (mkcontext 0 0 (replicate 12 0))).
Definition alloc_proc {I : KernelImage} (pid tf root : Z) (q : proc) : proc :=
  set_p_context (new_context q) (set_p_pagetable root (set_p_trapframe tf (set_p_state USED (set_p_pid pid q)))).

(** An unused slot owns nothing. *)
Definition slot_ok (q : proc) : Prop :=
  q.(p_state) = UNUSED -> q.(p_trapframe) = 0 /\ q.(p_pagetable) = 0 /\ q.(p_sz) = 0.

Definition with_mem (m : memory) (fl : Z) (s : kstate) : kstate := set_freelist fl (set_mem m s).

Section ProcLife.
Context {I : KernelImage} {L : KernelLayout I}.

(** ** Lemmas *)

(** While a spinlock is held, memory operations change only the memory. *)
Lemma frame_inside s s' :
  frame s s' -> 0 < s.(k_hart).(c_noff) -> s' = with_mem s'.(k_mem) s'.(k_freelist) s.
Proof.
  intros Hf Hn. assert (0 < s'.(k_hart).(c_noff)) as Hn'.
  { pose proof (f_equal (fun s => s.(k_hart).(c_noff)) Hf) as E. unfold touch, hart_norm in E. ksimpl_in E.
    by rewrite E. }
  rewrite <- (touch_inside s') at 1 by done. rewrite Hf. rewrite touch_inside by done. reflexivity.
Qed.

Lemma kmem_rep_with m fl s t l :
  kmem_rep (with_mem m fl s) l -> t.(k_mem) = m -> t.(k_freelist) = fl ->
  t.(k_locks) !! kmem_lock = None -> hart_ok t.(k_hart) -> kmem_rep t l.
Proof. intros [H1 H2 _ _] Em Ef Hl Hh. constructor; [by rewrite Em, Ef|done|done|done]. Qed.

(** The predicates on address spaces depend on the memory and the allocator. *)
Lemma uvm_state s t root D l :
  uvm s root D l -> t.(k_mem) = s.(k_mem) -> t.(k_freelist) = s.(k_freelist) ->
  t.(k_locks) !! kmem_lock = None -> hart_ok t.(k_hart) -> uvm t root D l.
Proof.
  intros [Hrep H1 H2 H3 H4 H5] Em Ef El Eh. destruct Hrep as [[K1 K2 K3 K4] W1 W2].
  constructor; rewrite ?Em; try done. constructor; rewrite ?Em; try done. constructor; [by rewrite Em, Ef|done|done|done].
Qed.

Lemma proc_space_state s t root tf sz l :
  proc_space s root tf sz l -> t.(k_mem) = s.(k_mem) -> t.(k_freelist) = s.(k_freelist) ->
  t.(k_locks) !! kmem_lock = None -> hart_ok t.(k_hart) -> proc_space t root tf sz l.
Proof.
  intros [H1 H2 H3 H4 H5] Em Ef El Eh. constructor; rewrite ?Em; try done. by apply (uvm_state s).
Qed.

(** An address space is not affected by changes of memory outside it. *)
Lemma proc_space_other s s' root tf sz l l' (P : Z -> Prop) :
  proc_space s root tf sz l -> kmem_rep s' l' ->
  (forall q, q ∈ l' -> ~ owned s.(k_mem) root (below sz) q) ->
  changed_in (fun x => exists q, P q /\ in_page q x) s.(k_mem) s'.(k_mem) ->
  (forall q, P q -> page_ok q /\ ~ owned s.(k_mem) root (below sz) q) ->
  proc_space s' root tf sz l' /\ (forall va, pte s'.(k_mem) root va = pte s.(k_mem) root va) /\
  (forall q, owned s'.(k_mem) root (below sz) q <-> owned s.(k_mem) root (below sz) q) /\
  (forall q x, owned s.(k_mem) root (below sz) q -> in_page q x -> load8 s'.(k_mem) x = load8 s.(k_mem) x).
Proof.
  intros [Hu Hsz Ht Hf Htf] Hk Hl Hc HP.
  assert (forall q x, owned s.(k_mem) root (below sz) q -> in_page q x -> ~ exists q, P q /\ in_page q x) as Hd.
  { intros q x Hq Hx (q' & Hq' & Hx'). destruct (HP q' Hq') as [Hqk Hno].
    assert (page_ok q) as Hqk' by (by eapply owned_page).
    apply (pages_disjoint q q' x (proj1 Hqk') (proj1 Hqk)); [|done|done]. by intros ->. }
  assert (forall q x, is_table s.(k_mem) root q -> in_page q x -> ~ exists q, P q /\ in_page q x) as Hdt
    by (intros q x Hq; apply Hd; by left).
  assert (forall va, pte s'.(k_mem) root va = pte s.(k_mem) root va) as Hpte
    by (intros va; by eapply (pte_changed s s' root (below sz) l l' _ Hu Hc Hdt)).
  refine (conj _ (conj Hpte (conj _ _))).
  - constructor; rewrite ?Hpte; try done. by eapply (uvm_changed s s' root (below sz) l l' _ Hu Hc Hdt).
  - intros q. by eapply (owned_changed s s' root (below sz) l l' _ Hu Hc Hdt).
  - intros q x Hq Hx. apply Hc. by apply (Hd q).
Qed.

(** ** freeproc *)

Lemma cbool_nz z : z <> 0 -> cbool z = true.
Proof. apply cbool_true. Qed.

(** The trapframe page, if there is one. *)
Lemma free_trapframe tf s l :
  kmem_rep s l -> (tf = 0 \/ page_ok tf /\ tf ∉ l) ->
  exists s' l', when (cbool tf) (kfree tf) s = Ret tt s' /\ frame s s' /\ kmem_rep s' l' /\
    (forall q, q ∈ l' <-> q ∈ l \/ tf <> 0 /\ q = tf) /\
    changed_in (fun x => exists q, (tf <> 0 /\ q = tf) /\ in_page q x) s.(k_mem) s'.(k_mem).
Proof.
  intros Hk [->|[Hp Hl]].
  - exists s, l. split_and!; [done|apply frame_refl|done|naive_solver|apply changed_in_refl].
  - pose proof (page_ok_nz tf Hp) as Hnz. exists (kfree_post tf s), (tf :: l).
    rewrite cbool_nz by done. cbn [when]. split_and!; [by eapply kfree_ok|apply frame_kfree|by apply kfree_post_rep| |].
    + intros q. rewrite elem_of_cons. naive_solver.
    + eapply changed_in_mono, kfree_post_changed. intros x Hx. exists tf. done.
Qed.

(** The page table, if there is one. *)
Lemma free_pagetable root tf sz s l :
  kmem_rep s l -> (root = 0 \/ proc_space s root tf sz l) ->
  exists s' l', when (cbool root) (proc_freepagetable root sz) s = Ret tt s' /\ frame s s' /\ kmem_rep s' l' /\
    (forall q, q ∈ l' <-> q ∈ l \/ root <> 0 /\ owned s.(k_mem) root (below sz) q) /\
    changed_in (fun x => exists q, (q ∈ l \/ root <> 0 /\ owned s.(k_mem) root (below sz) q) /\ in_page q x)
      s.(k_mem) s'.(k_mem).
Proof.
  intros Hk [->|Hs].
  - exists s, l. split_and!; [done|apply frame_refl|done|naive_solver|apply changed_in_refl].
  - assert (root <> 0) as Hnz.
    { apply page_ok_nz. apply (owned_page s root (below sz) l); [apply Hs|]. left. exists []. split; [apply path_ok_nil|done]. }
    destruct (proc_freepagetable_ok s root tf sz l Hs) as (s' & l' & Hr & [Hk' Hf Hp Hc]).
    exists s', l'. rewrite cbool_nz by done. cbn [when]. split_and!; [done|done|done| |].
    + intros q. rewrite Hp. tauto.
    + eapply changed_in_mono, Hc. intros x (q & Hq & Hx). exists q. split; [|done]. tauto.
Qed.

(** The pages a slot holds. *)
Definition slot_pages (s : kstate) (tf root sz q : Z) : Prop :=
  tf <> 0 /\ q = tf \/ root <> 0 /\ owned s.(k_mem) root (below sz) q.

Lemma upd_proc_upd p f g s : upd_proc p f (upd_proc p g s) = upd_proc p (fun x => f (g x)) s.
Proof. unfold upd_proc. ksimpl. by rewrite alter_alter. Qed.

Lemma clear_slot p s :
  (setp p (set_p_pagetable 0) ;; setp p (set_p_sz 0) ;; setp p (set_p_pid 0) ;; setp p (set_p_parent None) ;;
   setp p (fun q => set_p_name (<[0%nat := 0]> q.(p_name)) q) ;; setp p (set_p_chan None) ;;
   setp p (set_p_killed 0) ;; setp p (set_p_xstate 0) ;; setp p (set_p_state UNUSED)) s =
  Ret tt (upd_proc p clear_proc s).
Proof. unfold setp. ksimpl. by rewrite !alter_alter. Qed.

(** [freeproc] clears the slot and frees its pages. *)
Lemma freeproc_ok p s l tf root sz :
  (p < length s.(k_procs))%nat -> 0 < s.(k_hart).(c_noff) -> kmem_rep s l ->
  (proc_at s p).(p_trapframe) = tf -> (proc_at s p).(p_pagetable) = root -> (proc_at s p).(p_sz) = sz ->
  (tf = 0 \/ page_ok tf /\ tf ∉ l) ->
  (root = 0 \/ proc_space s root tf sz l /\ ~ owned s.(k_mem) root (below sz) tf) ->
  exists m fl l', freeproc p s = Ret tt (upd_proc p free_proc (with_mem m fl s)) /\
    kmem_rep (with_mem m fl s) l' /\
    (forall q, q ∈ l' <-> q ∈ l \/ slot_pages s tf root sz q) /\
    changed_in (fun x => exists q, (q ∈ l \/ slot_pages s tf root sz q) /\ in_page q x) s.(k_mem) m.
Proof.
  intros Hlen Hn Hk Etf Ert Esz Htf Hrt.
  destruct (free_trapframe tf s l Hk Htf) as (s1 & l1 & Hr1 & Hf1 & Hk1 & Hp1 & Hc1).
  assert (root = 0 \/ proc_space s1 root tf sz l1 /\
    forall q, owned s1.(k_mem) root (below sz) q <-> owned s.(k_mem) root (below sz) q) as Hrt1.
  { destruct Hrt as [->|[Hs Hno]]; [by left|right].
    destruct (proc_space_other s s1 root tf sz l l1 (fun q => tf <> 0 /\ q = tf) Hs Hk1) as (? & _ & ? & _); try done.
    - intros q [Hq|[_ ->]]%Hp1; [|done]. intros Ho. eapply owned_not_free; [apply Hs|exact Ho|done].
    - intros q [Hnz ->]. destruct Htf as [|[? _]]; done. }
  set (s1' := upd_proc p (set_p_trapframe 0) s1).
  assert (kmem_rep s1' l1) as Hk1' by (destruct Hk1; by constructor).
  destruct (free_pagetable root tf sz s1' l1 Hk1') as (s2 & l2 & Hr2 & Hf2 & Hk2 & Hp2 & Hc2).
  { destruct Hrt1 as [->|[Hs1 _]]; [by left|right]. apply (proc_space_state s1); try done; apply Hk1. }
  change (k_mem s1') with (k_mem s1) in *.
  pose proof (frame_inside s s1 Hf1 Hn) as E1.
  assert (s2 = with_mem s2.(k_mem) s2.(k_freelist) s1') as E2.
  { apply frame_inside; [done|]. unfold s1'. rewrite E1. done. }
  set (m2 := s2.(k_mem)) in *. set (fl2 := s2.(k_freelist)) in *. clearbody m2 fl2.
  exists m2, fl2, l2.
  assert (forall q, q ∈ l2 <-> q ∈ l \/ slot_pages s tf root sz q) as Hp.
  { intros q. rewrite Hp2, Hp1. unfold slot_pages. destruct Hrt1 as [->|[_ Ho]]; [tauto|]. rewrite Ho. tauto. }
  refine (conj _ (conj _ (conj Hp _))).
  - unfold freeproc. erewrite (bind_Ret (getp p p_trapframe) _ s tf s) by (unfold getp, get; by rewrite <- Etf).
    erewrite bind_Ret by exact Hr1. erewrite (bind_Ret (setp p _) _ s1 tt s1') by done.
    assert (proc_at s1' p = set_p_trapframe 0 (proc_at s p)) as Ep.
    { unfold s1'. rewrite proc_at_upd_eq by (by rewrite E1). by rewrite E1. }
    erewrite (bind_Ret (getp p p_pagetable) _ s1' root s1') by (unfold getp, get; rewrite Ep; by rewrite <- Ert).
    erewrite (bind_Ret (getp p p_sz) _ s1' sz s1') by (unfold getp, get; rewrite Ep; by rewrite <- Esz).
    erewrite bind_Ret by exact Hr2. rewrite clear_slot, E2. unfold s1'. rewrite E1.
    etransitivity; [|exact (f_equal (Ret tt) (upd_proc_upd p clear_proc (set_p_trapframe 0) (with_mem m2 fl2 s)))]. done.
  - destruct Hk2 as [K1 K2 _ _]. rewrite E2 in K1. destruct Hk. by constructor.
  - eapply changed_in_trans; eapply changed_in_mono; [|exact Hc1| |exact Hc2]; intros x (q & Hq & Hx);
      exists q; (split; [|done]).
    + right. by left.
    + apply Hp, Hp2. exact Hq.
Qed.

(** ** allocproc *)

Lemma release_inside lk s :
  0 < s.(k_hart).(c_noff) -> hart_ok s.(k_hart) -> s.(k_locks) !! lk = None ->
  release lk (acquired lk s) = Ret tt s.
Proof.
  intros Hn Hok Hf. rewrite (release_acquired s) by done. by rewrite hart_norm_inside.
Qed.

Lemma acquired_noff lk s : hart_ok s.(k_hart) -> 0 < (acquired lk s).(k_hart).(c_noff).
Proof. intros [H _]. unfold acquired, hart_push. ksimpl. lia. Qed.

Lemma acquired_hart lk s : hart_ok s.(k_hart) -> hart_ok (acquired lk s).(k_hart).
Proof. intros H. unfold acquired. ksimpl. by apply hart_push_ok. Qed.

(** The search returns the first unused slot, with its lock. *)
Lemma allocproc_find_ok p s n : forall i,
  calm p s ->
  (exists j, (i <= j < i + n)%nat /\ (proc_at s j).(p_state) = UNUSED /\
     (forall k, (i <= k < j)%nat -> (proc_at s k).(p_state) <> UNUSED) /\
     allocproc_find (seq i n) s = Ret (Some j) (acquired (proc_lock j) s)) \/
  ((forall k, (i <= k < i + n)%nat -> (proc_at s k).(p_state) <> UNUSED) /\
   allocproc_find (seq i n) s = Ret None s).
Proof.
  induction n as [|n IH]; intros i Hc; [right; split; [lia|done]|].
  cbn [seq allocproc_find]. pose proof (calm_plocks _ _ Hc i) as Hl.
  erewrite bind_Ret by (by apply acquire_free).
  erewrite (bind_Ret (getp i p_state) _ _ (proc_at s i).(p_state)) by done.
  case_bool_decide as E.
  - left. exists i. split_and!; [lia|lia|done|lia|done].
  - erewrite bind_Ret by (by apply (release_inner p s)).
    destruct (IH (S i) Hc) as [(j & Hj & Hu & Hb & Hr)|[Hb Hr]].
    + left. exists j. split_and!; [lia|lia|done| |done]. intros k Hk.
      destruct (decide (k = i)) as [->|]; [done|]. apply Hb. lia.
    + right. split; [|done]. intros k Hk. destruct (decide (k = i)) as [->|]; [done|]. apply Hb. lia.
Qed.

(** Process [p] sets up slot [np], whose lock it holds: the slot so far is
    [f] of what it was. *)
Section Setup.
Context (p np : nat) (s : kstate).
Context (Hcalm : calm p s) (Hnp : (np < Z.to_nat NPROC)%nat).
Context (Hkl : s.(k_locks) !! kmem_lock = None) (Hpl : s.(k_locks) !! pid_lock = None).

Definition setup (f : proc -> proc) (npid : Z) (m : memory) (fl : Z) : kstate :=
  acquired (proc_lock np) (upd_proc np f (set_nextpid npid (with_mem m fl s))).

Lemma setup_hart f npid m fl : hart_ok (setup f npid m fl).(k_hart) /\ 0 < (setup f npid m fl).(k_hart).(c_noff).
Proof using Hcalm.
  split; [apply acquired_hart|apply acquired_noff]; apply (calm_hart _ _ Hcalm).
Qed.

Lemma setup_setp f g npid m fl :
  setp np g (setup f npid m fl) = Ret tt (setup (fun q => g (f q)) npid m fl).
Proof using Type.
  unfold setp, modify, setup. f_equal. exact (f_equal (acquired (proc_lock np)) (upd_proc_upd np g f (set_nextpid npid (with_mem m fl s)))).
Qed.

Lemma setup_proc f npid m fl : proc_at (setup f npid m fl) np = f (proc_at s np).
Proof using Hcalm Hnp.
  assert (np < length s.(k_procs))%nat as Hlen by (by rewrite (calm_len _ _ Hcalm)).
  exact (proc_at_upd_eq (set_nextpid npid (with_mem m fl s)) np f Hlen).
Qed.

Lemma setup_frame f npid m fl s' :
  frame (setup f npid m fl) s' -> s' = setup f npid s'.(k_mem) s'.(k_freelist).
Proof using Hcalm.
  intros Hf. destruct (setup_hart f npid m fl) as [_ Hn]. exact (frame_inside _ _ Hf Hn).
Qed.

Lemma setup_rep f npid m fl l : kmem_rep (with_mem m fl s) l <-> kmem_rep (setup f npid m fl) l.
Proof using Hcalm Hkl.
  split; intros [H1 H2 H3 H4]; constructor; try done; [|apply (setup_hart f npid m fl)|apply (calm_hart _ _ Hcalm)].
  unfold setup, acquired. ksimpl. rewrite lookup_insert_ne by done. done.
Qed.

Lemma setup_space f npid m fl root tf sz l :
  proc_space (with_mem m fl s) root tf sz l <-> proc_space (setup f npid m fl) root tf sz l.
Proof using Hcalm Hkl.
  split; intros H.
  - apply (proc_space_state (with_mem m fl s)); try done; [|apply (setup_hart f npid m fl)].
    unfold setup, acquired. ksimpl. by rewrite lookup_insert_ne.
  - apply (proc_space_state (setup f npid m fl)); try done. apply (calm_hart _ _ Hcalm).
Qed.

(** Giving the slot up. *)
Lemma setup_fail f npid m fl l tf root sz :
  (f (proc_at s np)).(p_trapframe) = tf -> (f (proc_at s np)).(p_pagetable) = root -> (f (proc_at s np)).(p_sz) = sz ->
  kmem_rep (with_mem m fl s) l -> (tf = 0 \/ page_ok tf /\ tf ∉ l) ->
  (root = 0 \/ proc_space (with_mem m fl s) root tf sz l /\ ~ owned m root (below sz) tf) ->
  exists m' fl' l', forall A (r : A), (freeproc np ;; release (proc_lock np) ;; ret r) (setup f npid m fl) =
      Ret r (upd_proc np (fun q => free_proc (f q)) (set_nextpid npid (with_mem m' fl' s))) /\
    kmem_rep (with_mem m' fl' s) l' /\
    (forall q, q ∈ l' <-> q ∈ l \/ slot_pages (with_mem m fl s) tf root sz q) /\
    changed_in (fun x => exists q, (q ∈ l \/ slot_pages (with_mem m fl s) tf root sz q) /\ in_page q x) m m'.
Proof using All.
  intros Etf Ert Esz Hk Htf Hrt. destruct (setup_hart f npid m fl) as [_ Hn].
  destruct (freeproc_ok np (setup f npid m fl) l tf root sz) as (m' & fl' & l' & Hr & Hk' & Hp & Hc); try done.
  { change (length (alter f np s.(k_procs)) > np)%nat. rewrite length_alter, (calm_len _ _ Hcalm). lia. }
  { by apply setup_rep. }
  { by rewrite setup_proc. } { by rewrite setup_proc. } { by rewrite setup_proc. }
  { destruct Hrt as [->|[Hs Hno]]; [by left|right]. split; [by apply setup_space|done]. }
  exists m', fl', l'. intros A r. split_and!; try done.
  - erewrite bind_Ret by exact Hr.
    set (t := upd_proc np (fun q => free_proc (f q)) (set_nextpid npid (with_mem m' fl' s))).
    assert (upd_proc np free_proc (with_mem m' fl' (setup f npid m fl)) = acquired (proc_lock np) t) as ->.
    { exact (f_equal (acquired (proc_lock np)) (upd_proc_upd np free_proc f (set_nextpid npid (with_mem m' fl' s)))). }
    assert (calm p t) as Ht by (apply (calm_ext p s); try done; apply length_alter).
    erewrite bind_Ret; [done|]. apply (release_inner p t); [done|]. apply (calm_plocks _ _ Hcalm).
  - apply (setup_rep f npid). exact Hk'.
Qed.

End Setup.

Lemma allocpid_ok s :
  0 < s.(k_hart).(c_noff) -> hart_ok s.(k_hart) -> s.(k_locks) !! pid_lock = None ->
  allocpid s = Ret s.(k_nextpid) (set_nextpid (i32 (s.(k_nextpid) + 1)) s).
Proof.
  intros Hn Hok Hl. unfold allocpid. erewrite bind_Ret by (by apply acquire_free).
  erewrite (bind_Ret (get k_nextpid) _ _ s.(k_nextpid)) by done.
  erewrite (bind_Ret (modify _) _ _ tt) by done. erewrite bind_Ret; [done|].
  by apply (release_inside pid_lock (set_nextpid (i32 (k_nextpid s + 1)) s)).
Qed.

(** The result of [allocproc] for slot [np]: filled, with at most six pages (the
    trapframe, the root of the page table and two more tables for each of the two
    pages at the top), or cleared again with all pages still free, fewer than six. *)
Definition alloc_done (np : nat) (s : kstate) (l : list Z) (r : option nat) (s' : kstate) : Prop :=
  let npid := i32 (s.(k_nextpid) + 1) in
  exists m fl l', changed_in (fun x => exists q, q ∈ l /\ in_page q x) s.(k_mem) m /\
    ((r = None /\ (length l < 6)%nat /\ s' = upd_proc np free_proc (set_nextpid npid (with_mem m fl s)) /\
      kmem_rep (with_mem m fl s) l' /\ forall q, q ∈ l' <-> q ∈ l) \/
     (r = Some np /\ (length l <= length l' + 6)%nat /\ exists tf root, root <> 0 /\
      s' = acquired (proc_lock np) (upd_proc np (alloc_proc s.(k_nextpid) tf root) (set_nextpid npid (with_mem m fl s))) /\
      proc_space (with_mem m fl s) root tf 0 l' /\ tf ∉ l' /\ ~ owned m root (below 0) tf /\
      forall q, q = tf \/ owned m root (below 0) q \/ q ∈ l' <-> q ∈ l)).

(** The second half of [allocproc], after the trapframe page. *)
Lemma alloc_table p np s l0 m fl l tf :
  let npid := i32 (s.(k_nextpid) + 1) in
  let f := fun q => set_p_trapframe tf (set_p_state USED (set_p_pid s.(k_nextpid) q)) in
  calm p s -> (np < Z.to_nat NPROC)%nat -> s.(k_locks) !! kmem_lock = None -> s.(k_locks) !! pid_lock = None ->
  (proc_at s np).(p_sz) = 0 -> page_ok tf -> tf ∉ l ->
  kmem_rep (with_mem m fl s) l -> length l0 = S (length l) -> (forall q, q ∈ l0 <-> q = tf \/ q ∈ l) ->
  changed_in (fun x => exists q, q ∈ l0 /\ in_page q x) s.(k_mem) m ->
  exists r s', (let! pt := proc_pagetable np in
      setp np (set_p_pagetable pt) ;;
      if pt =? 0 then freeproc np ;; release (proc_lock np) ;; ret None else
      setp np (set_p_context (mkcontext 0 0 (replicate 12 0))) ;;
      setp np (fun q => set_p_context (set_cx_ra forkret_addr q.(p_context)) q) ;;
      setp np (fun q => set_p_context (set_cx_sp (u64 (q.(p_kstack) + PGSIZE)) q.(p_context)) q) ;;
      ret (Some np)) (setup np s f npid m fl) = Ret r s' /\ alloc_done np s l0 r s'.
Proof.
  intros npid f Hc Hnp Hkl Hpl Esz Htf Hntf Hk Hlen Hl0 Hch.
  destruct (proc_pagetable_ok np (setup np s f npid m fl) l tf) as (root & s1 & l1 & Hr & [Hf Hc1] & Hres).
  { by apply (setup_rep p np s Hc Hkl f). } { by rewrite (setup_proc p np s Hc Hnp). } { done. }
  pose proof (setup_frame p np s Hc f npid m fl s1 Hf) as E1.
  set (m1 := s1.(k_mem)) in *. set (fl1 := s1.(k_freelist)) in *. clearbody m1 fl1. subst s1.
  change (k_mem (setup np s f npid m fl)) with m in Hc1.
  assert (changed_in (fun x => exists q, q ∈ l0 /\ in_page q x) s.(k_mem) m1) as Hch1.
  { eapply changed_in_trans; [exact Hch|]. eapply changed_in_mono, Hc1. intros x (q & Hq & Hx). exists q.
    split; [apply Hl0; by right|done]. }
  erewrite bind_Ret by exact Hr. erewrite bind_Ret by apply setup_setp. cbv beta.
  destruct Hres as [(-> & Hlen1 & Hk1 & Hp1)|(Hnz & Hlen1 & Hs1 & Hp1)].
  - change (0 =? 0) with true. cbv iota. apply (setup_rep p np s Hc Hkl f npid) in Hk1.
    destruct (setup_fail p np s Hc Hnp Hkl Hpl (fun q => set_p_pagetable 0 (f q)) npid m1 fl1 l1 tf 0 0)
      as (m2 & fl2 & l2 & H); try done; [right; split; [done|by rewrite Hp1]|by left|].
    destruct (H (option nat) None) as (Hr2 & Hk2 & Hp2 & Hc2). eexists _, _. split; [exact Hr2|].
    assert (forall q, q ∈ l2 <-> q ∈ l0) as Hl2.
    { intros q. rewrite Hp2, Hp1, Hl0. unfold slot_pages. pose proof (page_ok_nz tf Htf). naive_solver. }
    exists m2, fl2, l2. split; [|left; split_and!; [done|lia|done|done|done]]. eapply changed_in_trans; [exact Hch1|].
    eapply changed_in_mono, Hc2. intros x (q & Hq & Hx). exists q. split; [|done]. by apply Hl2, Hp2.
  - rewrite (proj2 (Z.eqb_neq root 0)) by done.
    do 3 (erewrite bind_Ret by apply setup_setp; cbv beta). eexists _, _. split; [reflexivity|].
    exists m1, fl1, l1. split; [done|]. right. split; [done|]. split; [lia|]. exists tf, root. split; [done|]. split; [reflexivity|].
    apply (setup_space p np s Hc Hkl f npid) in Hs1. change (k_mem (setup np s f npid m1 fl1)) with m1 in Hp1.
    split; [done|]. split; [intros Hq; apply Hntf, Hp1; by right|].
    split; [intros Hq; apply Hntf, Hp1; by left|]. intros q. rewrite Hl0, <- Hp1. tauto.
Qed.

Lemma allocproc_ok p s l :
  calm p s -> kmem_rep s l -> s.(k_locks) !! pid_lock = None ->
  (forall i, (i < Z.to_nat NPROC)%nat -> slot_ok (proc_at s i)) ->
  ((forall i, (i < Z.to_nat NPROC)%nat -> (proc_at s i).(p_state) <> UNUSED) /\ allocproc s = Ret None s) \/
  (exists np r s', (np < Z.to_nat NPROC)%nat /\ (proc_at s np).(p_state) = UNUSED /\
     (forall i, (i < np)%nat -> (proc_at s i).(p_state) <> UNUSED) /\
     allocproc s = Ret r s' /\ alloc_done np s l r s').
Proof.
  intros Hc Hk Hpl Hslots. unfold allocproc.
  destruct (allocproc_find_ok p s (Z.to_nat NPROC) 0 Hc) as [(np & Hj & Hu & Hb & Hr)|[Hb Hr]];
    change proc_indices with (seq 0 (Z.to_nat NPROC)); erewrite bind_Ret by exact Hr.
  2:{ left. split; [intros i Hi; apply Hb; lia|done]. }
  right. assert (np < Z.to_nat NPROC)%nat as Hnp by lia. exists np.
  destruct (Hslots np Hnp Hu) as (Etf & Ept & Esz).
  set (pid := k_nextpid s). set (npid := i32 (pid + 1)).
  assert (hart_ok s.(k_hart)) as Hh by apply Hc. pose proof (rep_lock _ _ Hk) as Hkl.
  rewrite (bind_Ret allocpid _ _ pid (setup np s id npid s.(k_mem) s.(k_freelist))).
  2:{ rewrite allocpid_ok; [| |by apply acquired_hart|].
      - f_equal. unfold setup, id. unfold upd_proc. ksimpl. rewrite (list_alter_id (fun x => x)) by done. done.
      - by apply acquired_noff.
      - unfold acquired. ksimpl. by rewrite lookup_insert_ne. }
  erewrite bind_Ret by apply setup_setp. erewrite bind_Ret by apply setup_setp. cbv beta.
  set (f1 := fun q => set_p_state USED (set_p_pid pid (id q))).
  assert (kmem_rep (setup np s f1 npid s.(k_mem) s.(k_freelist)) l) as Hk1 by (by apply (setup_rep p)).
  destruct l as [|tf l].
  - erewrite bind_Ret by (by apply kalloc_empty). rewrite touch_inside by (by apply (setup_hart p)).
    erewrite bind_Ret by apply setup_setp. cbv beta. change (0 =? 0) with true. cbv iota.
    destruct (setup_fail p np s Hc Hnp Hkl Hpl (fun q => set_p_trapframe 0 (f1 q)) npid s.(k_mem) s.(k_freelist) [] 0 0 0)
      as (m2 & fl2 & l2 & H); try done; [by left|by left|].
    destruct (H (option nat) None) as (Hr2 & Hk2 & Hp2 & Hc2). eexists _, _. split_and!; [done|done|intros i Hi; apply Hb; lia|exact Hr2|].
    exists m2, fl2, l2. split; [|left; split_and!; [done|simpl; lia|done|done|]].
    + eapply changed_in_mono, Hc2. intros x (q & [Hq|[[? _]|[? _]]] & Hx); [by exists q|done|done].
    + intros q. rewrite Hp2. split; [intros [?|[[? _]|[? _]]]; done|by left].
  - erewrite bind_Ret by (by apply kalloc_cons).
    assert (page_ok tf) as Htf by (eapply flist_pages; [apply Hk|by left]).
    assert (tf ∉ l) as Hntf by (by apply NoDup_cons, (rep_nodup _ _ Hk)).
    set (t := setup np s f1 npid (k_mem s) (k_freelist s)) in *.
    pose proof (setup_frame p np s Hc f1 npid (k_mem s) (k_freelist s) _ (frame_kalloc tf l t)) as E1.
    pose proof (kalloc_post_rep t tf l Hk1) as Hk2. pose proof (kalloc_post_changed tf l t) as Hch.
    change (k_mem t) with (k_mem s) in Hch. rewrite E1 in Hk2. rewrite E1. set (m1 := k_mem (kalloc_post _ _ _)) in *. set (fl1 := k_freelist (kalloc_post _ _ _)) in *.
    clearbody m1 fl1. apply (setup_rep p np s Hc Hkl f1 npid) in Hk2.
    erewrite bind_Ret by apply setup_setp. cbv beta.
    rewrite (proj2 (Z.eqb_neq tf 0)) by (by apply page_ok_nz).
    destruct (alloc_table p np s (tf :: l) m1 fl1 l tf Hc Hnp Hkl Hpl Esz Htf Hntf Hk2) as (r & s' & Hr' & Hd).
    { done. } { intros q. by rewrite elem_of_cons. }
    { eapply changed_in_mono, Hch. intros x Hx. exists tf. split; [by left|done]. }
    exists r, s'. split_and!; [done|done|intros i Hi; apply Hb; lia|exact Hr'|exact Hd].
Qed.

End ProcLife.
