(* ===== verification/WaitSpec.v ===== *)
(** * wait (proc.c): correctness

    [wait] reaps the first zombie child of the caller: it delivers the exit
    status to user memory, clears the slot and frees all pages of the child. *)

From S2P Require Import Prelude Params Mem State Spinlock CString Kalloc Vm PageTable VmSpec UvmSpec UvmProps.
From S2P Require Import UvmFree CopySpec VmDemo Proc ProcSpec ProcVm Sleeplock ProcLife.

Section Wait.
Context {I : KernelImage} {L : KernelLayout I} {F : WaitFuel}.

(** ** Definitions *)

Definition child_of (s : kstate) (p i : nat) : Prop := (proc_at s i).(p_parent) = Some p.
Definition zombie_of (s : kstate) (p i : nat) : Prop := child_of s p i /\ (proc_at s i).(p_state) = ZOMBIE.

(** A process [p] and its zombie child [c], with their pages. *)
Record reaper (p c : nat) (s : kstate) (l : list Z) (root tf sz croot ctf csz : Z) : Prop := {
  rp_calm : calm p s;
  rp_wait : s.(k_locks) !! wait_lock = None;
  rp_slot : (c < Z.to_nat NPROC)%nat;
  rp_zombie : zombie_of s p c;
  rp_first : forall i, (i < c)%nat -> ~ zombie_of s p i;
  rp_space : proc_space s root tf sz l;
  rp_root : (proc_at s p).(p_pagetable) = root;
  rp_child : proc_space s croot ctf csz l;
  rp_croot : (proc_at s c).(p_pagetable) = croot;
  rp_ctf : (proc_at s c).(p_trapframe) = ctf;
  rp_csz : (proc_at s c).(p_sz) = csz;
  rp_apart : forall q, owned s.(k_mem) root (below sz) q -> ~ owned s.(k_mem) croot (below csz) q;
  rp_ctf_own : ctf ∉ l /\ ~ owned s.(k_mem) croot (below csz) ctf /\ ~ owned s.(k_mem) root (below sz) ctf;
}.

(** The pages of user memory. *)
Definition user_page (m : memory) (root sz q : Z) : Prop :=
  exists va, is_page va /\ below sz va /\ upa m root va = q.

(** ** The scan of the table *)

Lemma wait_scan_skip p a addr n : forall i hk,
  calm p a ->
  (exists c hk', (i <= c < i + n)%nat /\ zombie_of a p c /\ (forall k, (i <= k < c)%nat -> ~ zombie_of a p k) /\
     wait_scan (seq i n) p addr hk a = wait_scan (seq c (i + n - c)) p addr hk' a) \/
  (exists hk', (forall k, (i <= k < i + n)%nat -> ~ zombie_of a p k) /\
     (hk' = true <-> hk = true \/ exists k, (i <= k < i + n)%nat /\ child_of a p k) /\
     wait_scan (seq i n) p addr hk a = Ret (inr hk') a).
Proof.
  induction n as [|n IH]; intros i hk Hc.
  { right. exists hk. split_and!; [lia| |done]. split; [by left|]. intros [?|(k & ? & _)]; [done|lia]. }
  assert (zombie_of a p i \/ ~ zombie_of a p i) as [Hz|Hz].
  { destruct (decide ((proc_at a i).(p_parent) = Some p)), (decide ((proc_at a i).(p_state) = ZOMBIE));
      unfold zombie_of, child_of; tauto. }
  { left. exists i, hk. split_and!; [lia|lia|done|lia|]. by replace (i + S n - i)%nat with (S n) by lia. }
  cbn [seq wait_scan]. erewrite (bind_Ret (getp i p_parent) _ _ (proc_at a i).(p_parent)) by done.
  case_bool_decide as Epar.
  - erewrite bind_Ret by (apply acquire_free, (calm_plocks _ _ Hc)).
    erewrite (bind_Ret (getp i id) _ _ (proc_at a i)) by done. rewrite bool_decide_false by (intros ?; by apply Hz).
    erewrite bind_Ret by (apply (release_inner p a); [done|apply (calm_plocks _ _ Hc)]).
    destruct (IH (S i) true Hc) as [(c & hk' & Hr & Hzc & Hno & E)|(hk' & Hno & Hhk & E)].
    + left. exists c, hk'. split_and!; [lia|lia|done| |].
      * intros k Hk. destruct (decide (k = i)) as [->|]; [done|apply Hno; lia].
      * rewrite E. by replace (S i + n - c)%nat with (i + S n - c)%nat by lia.
    + right. exists hk'. split_and!; [| |done].
      * intros k Hk. destruct (decide (k = i)) as [->|]; [done|apply Hno; lia].
      * rewrite Hhk. split; [intros _; right; exists i; split; [lia|done]|by left].
  - destruct (IH (S i) hk Hc) as [(c & hk' & Hr & Hzc & Hno & E)|(hk' & Hno & Hhk & E)].
    + left. exists c, hk'. split_and!; [lia|lia|done| |].
      * intros k Hk. destruct (decide (k = i)) as [->|]; [done|apply Hno; lia].
      * rewrite E. by replace (S i + n - c)%nat with (i + S n - c)%nat by lia.
    + right. exists hk'. split_and!; [| |done].
      * intros k Hk. destruct (decide (k = i)) as [->|]; [done|apply Hno; lia].
      * rewrite Hhk. split; (intros [?|(k & Hk & Hch)]; [by left|right; exists k]); [split; [lia|done]|].
        destruct (decide (k = i)) as [->|]; [done|split; [lia|done]].
Qed.

(** ** Delivering the status *)

Lemma writable_page b root sz l va : uspace b root sz l -> 0 <= va -> writable b.(k_mem) root va ->
  exists q, user_page b.(k_mem) root sz q /\ in_page q (uaddr b.(k_mem) root va).
Proof.
  intros Hs H0 [Hw _]. exists (upa b.(k_mem) root (PGROUNDDOWN va)). split; [|apply uaddr_in_page].
  destruct (readable_page b root sz l Hs va H0 Hw) as (Hp & Hb & _). by exists (PGROUNDDOWN va).
Qed.

Lemma status_ok p b root sz l addr x :
  uspace b root sz l -> (proc_at b p).(p_pagetable) = root -> 0 <= addr -> addr + 4 <= 2 ^ 64 - PGSIZE ->
  exists r m, (if negb (addr =? 0)
     then let! pt := getp p p_pagetable in copyout pt addr (le_encode 4 x)
     else ret 0) b = Ret r (set_mem m b) /\
    uspace (set_mem m b) root sz l /\ (forall va, pte m root va = pte b.(k_mem) root va) /\
    changed_in (fun y => exists q, user_page b.(k_mem) root sz q /\ in_page q y) b.(k_mem) m /\
    ((r = 0 /\ (addr <> 0 -> forall i v, le_encode 4 x !! i = Some v ->
        writable b.(k_mem) root (addr + Z.of_nat i) /\ load8 m (uaddr b.(k_mem) root (addr + Z.of_nat i)) = v)) \/
     (r = -1 /\ addr <> 0 /\ exists i, (i < 4)%nat /\ ~ writable b.(k_mem) root (addr + Z.of_nat i))).
Proof.
  intros Hs Ept Ha Hhi. destruct (Z.eqb_spec addr 0) as [->|Hne]; cbn [negb].
  { exists 0, b.(k_mem). split; [done|]. split; [done|]. split; [done|]. split; [apply changed_in_refl|]. by left. }
  erewrite (bind_Ret (getp p p_pagetable) _ b root) by (unfold getp, get; by rewrite <- Ept).
  destruct (copyout_loop_ok 4 root sz addr (le_encode 4 x) b l Hs Ha) as (r & m & Hr & Hs' & Hpte & Hcp & Hres).
  { by rewrite length_le_encode. } { by rewrite length_le_encode. } { apply le_encode_range. }
  exists r, m. split.
  { unfold copyout. rewrite length_le_encode. exact Hr. }
  split; [done|]. split; [done|]. split.
  - eapply changed_in_mono, Hcp. intros y (i & Hi & Hw & ->). apply (writable_page b root sz l); [done|lia|done].
  - destruct Hres as [[-> Hv]|[-> (i & Hi & Hw)]]; [left|right]; (split; [done|]).
    + intros _ i v Hi. by apply Hv.
    + split; [done|]. exists i. rewrite length_le_encode in Hi. done.
Qed.

(** ** Reaping *)

(** The child after the status has been delivered. *)
Lemma child_kept s root tf sz croot ctf csz l m :
  proc_space s root tf sz l -> proc_space s croot ctf csz l ->
  (forall q, owned s.(k_mem) root (below sz) q -> ~ owned s.(k_mem) croot (below csz) q) ->
  changed_in (fun y => exists q, user_page s.(k_mem) root sz q /\ in_page q y) s.(k_mem) m ->
  kmem_rep (set_mem m s) l ->
  proc_space (set_mem m s) croot ctf csz l /\
  forall q, owned m croot (below csz) q <-> owned s.(k_mem) croot (below csz) q.
Proof.
  intros Hs Hc Hap Hch Hk.
  destruct (proc_space_other s (set_mem m s) croot ctf csz l l (user_page (k_mem s) root sz) Hc Hk) as (H1 & _ & H2 & _);
    [|exact Hch| |by split].
  - intros q Hq Ho. eapply owned_not_free; [apply Hc|exact Ho|exact Hq].
  - intros q Hq. split; [eapply owned_page; [apply Hs|by right]|apply Hap; by right].
Qed.

(** Writing to user memory does not change what the space owns. *)
Lemma owned_write s root sz l m q :
  uvm s root (below sz) l ->
  changed_in (fun y => exists q, user_page s.(k_mem) root sz q /\ in_page q y) s.(k_mem) m ->
  owned m root (below sz) q <-> owned s.(k_mem) root (below sz) q.
Proof.
  intros Hu Hch. apply (owned_changed s (set_mem m s) root (below sz) l l _ Hu Hch).
  intros p x Hp Hx (q' & (va & Hva & Hb & <-) & Hx'). destruct (uv_page _ _ _ _ Hu va Hva Hb) as (Hpk & _ & Hnt).
  assert (page_ok p) as Hpp by (eapply owned_page; [exact Hu|by left]).
  apply (pages_disjoint p _ x (proj1 Hpp) (proj1 Hpk)) in Hx; [done|]. by intros ->.
Qed.

(** What [wait] leaves of a reaped child. *)
Record reaped (c : nat) (s : kstate) (l : list Z) (root tf sz croot ctf csz addr : Z) (s' : kstate) : Prop := {
  rd_state : exists m fl, s' = upd_proc c free_proc (with_mem m fl s);
  rd_parent : exists l', proc_space s' root tf sz l' /\
    forall q, q ∈ l' <-> q ∈ l \/ q = ctf \/ owned s.(k_mem) croot (below csz) q;
  rd_status : addr <> 0 -> forall i v, le_encode 4 (proc_at s c).(p_xstate) !! i = Some v ->
    load8 s'.(k_mem) (uaddr s.(k_mem) root (addr + Z.of_nat i)) = v;
}.

(** The child [c] is freed in state [set_mem m b], [b] with both locks. *)
Lemma reap_ok p c s l root tf sz croot ctf csz m :
  reaper p c s l root tf sz croot ctf csz ->
  changed_in (fun y => exists q, user_page s.(k_mem) root sz q /\ in_page q y) s.(k_mem) m ->
  uspace (set_mem m s) root sz l -> (forall va, pte m root va = pte s.(k_mem) root va) ->
  let b := acquired (proc_lock c) (acquired wait_lock s) in
  exists m' fl' l', (forall A (r : A), (freeproc c ;; release (proc_lock c) ;; release wait_lock ;; ret r) (set_mem m b) =
      Ret r (upd_proc c free_proc (with_mem m' fl' s))) /\
    proc_space (with_mem m' fl' s) root tf sz l' /\
    (forall q, q ∈ l' <-> q ∈ l \/ q = ctf \/ owned s.(k_mem) croot (below csz) q) /\
    (forall q x, owned s.(k_mem) root (below sz) q -> in_page q x -> load8 m' x = load8 m x).
Proof.
  intros [Hc Hw Hslot Hz Hfirst Hs Hrt Hcs Hcrt Hctf Hcsz Hap (Ht1 & Ht2 & Ht3)] Hch Hus Hpte b.
  assert (calm p (acquired wait_lock s)) as Hca by (by apply calm_acquired).
  assert (hart_ok b.(k_hart) /\ 0 < b.(k_hart).(c_noff)) as [Hbh Hbn]
    by (split; [apply acquired_hart|apply acquired_noff]; apply Hca).
  assert (kmem_rep (set_mem m s) l) as Hk by apply (vr_kmem _ root), (uv_rep _ _ (below sz)), Hus.
  assert (b.(k_locks) !! kmem_lock = None) as Hbl.
  { unfold b, acquired. ksimpl. rewrite !lookup_insert_ne by done. apply (rep_lock _ _ Hk). }
  destruct (child_kept s root tf sz croot ctf csz l m Hs Hcs Hap Hch Hk) as [Hcs1 Hco].
  assert (page_ok ctf) as Hpc by apply Hcs.
  assert (croot <> 0) as Hnz.
  { apply page_ok_nz. eapply owned_page; [apply Hcs|]. left. exists []. split; [apply path_ok_nil|done]. }
  destruct (freeproc_ok c (set_mem m b) l ctf croot csz) as (m' & fl' & l' & Hr & Hk' & Hp & Hc'); try done.
  { change (length s.(k_procs) > c)%nat. rewrite (calm_len _ _ Hc). lia. }
  { destruct Hk; by constructor. }
  { by right. }
  { right. split; [by apply (proc_space_state (set_mem m s))|by rewrite Hco]. }
  assert (forall q, slot_pages (set_mem m b) ctf croot csz q <-> q = ctf \/ owned s.(k_mem) croot (below csz) q) as Hsp.
  { intros q. unfold slot_pages. change (k_mem (set_mem m b)) with m. rewrite Hco.
    pose proof (page_ok_nz ctf Hpc). tauto. }
  assert (kmem_rep (with_mem m' fl' s) l') as Hk2 by (destruct Hk', Hk; constructor; try done; apply Hc).
  set (t := upd_proc c free_proc (with_mem m' fl' s)).
  assert (calm p t) as Ht by (apply (calm_ext p s); try done; apply length_alter).
  assert (proc_space (set_mem m s) root tf sz l) as Hs1.
  { destruct Hs. constructor; [apply Hus|done| | |done]; change (k_mem (set_mem m s)) with m; by rewrite Hpte. }
  pose proof (fun q => owned_write s root sz l m q (ps_uvm _ _ _ _ _ Hs) Hch) as Hpo.
  assert (forall q, q ∈ l \/ slot_pages (set_mem m b) ctf croot csz q ->
    page_ok q /\ ~ owned m root (below sz) q) as Hout.
  { intros q Hq. rewrite Hpo. rewrite Hsp in Hq. split.
    - destruct Hq as [Hq|[->|Hq]]; [eapply free_page; [apply Hs|done]|done|eapply owned_page; [apply Hcs|done]].
    - intros Ho. destruct Hq as [Hq|[->|Hq]]; [|done|by apply (Hap q)].
      eapply owned_not_free; [apply Hs|exact Ho|exact Hq]. }
  destruct (proc_space_other (set_mem m s) (with_mem m' fl' s) root tf sz l l'
    (fun q => q ∈ l \/ slot_pages (set_mem m b) ctf croot csz q) Hs1 Hk2) as (Hs2 & _ & _ & Hld); [|exact Hc'|exact Hout|].
  { intros q Hq. by apply Hout, Hp. }
  exists m', fl', l'. refine (conj _ (conj Hs2 (conj _ _))).
  - intros A r. erewrite bind_Ret by exact Hr.
    change (upd_proc c free_proc (with_mem m' fl' (set_mem m b))) with (acquired (proc_lock c) (acquired wait_lock t)).
    erewrite bind_Ret by (apply (release_inner p (acquired wait_lock t)); [by apply calm_acquired|apply (calm_plocks _ _ Hca)]).
    erewrite bind_Ret by (by apply (release_inner p t)). done.
  - intros q. rewrite Hp, Hsp. done.
  - intros q x Hq. apply Hld. by apply Hpo.
Qed.

(** A scan that finds no zombie. *)
Lemma wait_scan_none p s addr n :
  calm p s -> s.(k_locks) !! wait_lock = None -> (forall i, (i < Z.to_nat NPROC)%nat -> ~ zombie_of s p i) ->
  exists hk, (hk = true <-> exists i, (i < Z.to_nat NPROC)%nat /\ child_of s p i) /\
    wait (F := S n) addr s =
    (let! k := (if negb hk then ret true else let! k := killed p in ret (cbool k)) in
     if (k : bool) then release wait_lock ;; ret (-1) else
     sleep (proc_chan p) wait_lock ;; wait_loop n p addr) (acquired wait_lock s).
Proof.
  intros Hc Hw Hno. unfold wait. erewrite bind_Ret by (by apply curproc_calm).
  erewrite bind_Ret by (by apply acquire_free). set (a := acquired wait_lock s).
  assert (calm p a) as Hca by (by apply calm_acquired). unfold wait_fuel. cbn [wait_loop].
  destruct (wait_scan_skip p a addr (Z.to_nat NPROC) 0 false Hca) as [(c & _ & Hr & Hz & _)|(hk & _ & Hhk & E)].
  { exfalso. apply (Hno c); [lia|exact Hz]. }
  exists hk. split.
  - rewrite Hhk. split; [intros [?|(k & Hk & Hch)]; [done|]|intros (k & Hk & Hch); right]; exists k; (split; [lia|exact Hch]).
  - change proc_indices with (seq 0 (Z.to_nat NPROC)). by erewrite bind_Ret by exact E.
Qed.

(** [wait] gives up, because there are no children or the process is killed. *)
Lemma wait_gives_up p s :
  calm p s -> s.(k_locks) !! wait_lock = None ->
  (release wait_lock ;; ret (-1)) (acquired wait_lock s) = Ret (-1) s.
Proof. intros Hc Hw. by erewrite bind_Ret by (by apply (release_inner p s)). Qed.

(** The state in which a process that slept goes on. *)
Definition roused (p : nat) (intena : bool) (s : kstate) : kstate :=
  upd_proc p (set_p_chan None) (set_locks (delete (proc_lock p) s.(k_locks))
    (upd_hart (fun h => hart_pop (set_c_intena intena h)) s)).

Lemma awake_roused p lk i s :
  one_lock s (proc_lock p) -> awake p lk i s = acquired lk (roused p i s).
Proof.
  intros [Hl Hn Hoff]. unfold awake, acquired, roused. kext; ksimpl.
  - symmetry. by apply hart_push_pop.
  - by rewrite hart_pop_id.
Qed.

Lemma acquired_touch lk s : acquired lk (touch s) = acquired lk s.
Proof.
  unfold acquired, touch, hart_norm, hart_push. ksimpl. kext. ksimpl.
  by destruct (c_noff (k_hart s) =? 0).
Qed.

(** A process with children none of which has ended sleeps, and when it is resumed
    starts over. *)
Lemma wait_sleeps p s n addr :
  calm p s -> s.(k_locks) !! wait_lock = None -> s.(k_hart).(c_noff) = 0 ->
  exists k, bind (sleep (proc_chan p) wait_lock) (fun _ => wait_loop n p addr) (acquired wait_lock s) =
      Switch (asleep p (proc_chan p) wait_lock (acquired wait_lock s)) k /\
    forall s2, one_lock s2 (proc_lock p) -> s2.(k_locks) !! wait_lock = None ->
      s2.(k_hart).(c_proc) = Some p ->
      k s2 = wait (F := n) addr (roused p (hart_push s.(k_hart)).(c_intena) s2).
Proof.
  intros Hc Hw Hn. assert (calm p (acquired wait_lock s)) as Hca by (by apply calm_acquired).
  destruct (sleep_switch p (proc_chan p) wait_lock (acquired wait_lock s)) as (k & Hk & Hr).
  - apply Hc.
  - constructor; unfold acquired, hart_push; ksimpl; [apply lookup_insert_eq|lia|apply has_clear].
  - apply Hca.
  - rewrite (calm_len _ _ Hca). apply Hc.
  - unfold bind at 1. rewrite Hk. cbn [obind]. eexists. split; [reflexivity|].
    intros s2 H1 H2 H3. cbv beta. rewrite Hr by done. cbn [obind]. rewrite awake_roused by done.
    unfold wait. erewrite bind_Ret.
    2:{ apply curproc_eq; unfold roused; ksimpl; [|by rewrite hart_pop_proc].
        destruct H1 as [_ Hn1 Hoff1]. split; rewrite hart_pop_noff; ksimpl; lia. }
    erewrite bind_Ret; [|apply acquire_free; unfold roused, touch; ksimpl; by rewrite lookup_delete_ne].
    by rewrite acquired_touch.
Qed.

Lemma wait_ok p c s l root tf sz croot ctf csz addr :
  (0 < wait_fuel)%nat -> reaper p c s l root tf sz croot ctf csz ->
  0 <= addr -> addr + 4 <= 2 ^ 64 - PGSIZE ->
  (exists s', wait addr s = Ret (proc_at s c).(p_pid) s' /\
     reaped c s l root tf sz croot ctf csz addr s') \/
  (exists m i, wait addr s = Ret (-1) (set_mem m s) /\ addr <> 0 /\ (i < 4)%nat /\
     ~ writable s.(k_mem) root (addr + Z.of_nat i) /\ uspace (set_mem m s) root sz l).
Proof.
  intros Hfuel Hrp Ha Hhi. pose proof Hrp as [Hc Hw Hslot [Hch Hst] Hfirst Hs Hrt Hcs Hcrt Hctf Hcsz Hap Htf].
  unfold wait. erewrite bind_Ret by (by apply curproc_calm). erewrite bind_Ret by (by apply acquire_free).
  set (a := acquired wait_lock s). assert (calm p a) as Hca by (by apply calm_acquired).
  destruct wait_fuel as [|fuel]; [lia|]. cbn [wait_loop].
  destruct (wait_scan_skip p a addr (Z.to_nat NPROC) 0 false Hca) as [(c' & hk & Hr & Hz' & Hno & E)|(hk & Hno & _)].
  2:{ exfalso. apply (Hno c); [lia|by split]. }
  assert (c' = c) as ->.
  { destruct (Nat.lt_trichotomy c' c) as [Hlt|[?|Hlt]]; [|done|].
    - exfalso. by apply (Hfirst c' Hlt).
    - exfalso. apply (Hno c); [lia|by split]. }
  pose proof (proc_space_user s root tf sz l Hs) as Hus.
  set (b := acquired (proc_lock c) a).
  assert (uspace b root sz l) as Hub.
  { apply proc_space_user with tf. apply (proc_space_state s); try done.
    - unfold b, a, acquired. ksimpl. rewrite !lookup_insert_ne by done.
      apply (rep_lock _ _ (vr_kmem _ _ _ (uv_rep _ _ _ _ (us_uvm _ _ _ _ Hus)))).
    - apply acquired_hart, Hca. }
  destruct (status_ok p b root sz l addr (proc_at s c).(p_xstate) Hub Hrt Ha Hhi) as (r & m & Hr' & Hub' & Hpte & Hcg & Hres).
  assert (uspace (set_mem m s) root sz l) as Hus'.
  { destruct Hub' as [Hu1 Hu2 Hu3]. constructor; try done. apply (uvm_state (set_mem m b)); try done; [|apply Hc].
    apply (rep_lock _ _ (vr_kmem _ _ _ (uv_rep _ _ _ _ (us_uvm _ _ _ _ Hus)))). }
  change proc_indices with (seq 0 (Z.to_nat NPROC)).
  replace (0 + Z.to_nat NPROC - c)%nat with (S (Z.to_nat NPROC - c - 1))%nat in E by lia.
  cbn [seq wait_scan] in E.
  erewrite (bind_Ret (getp c p_parent) _ _ (Some p)) in E by (unfold getp, get; by rewrite <- Hch).
  rewrite bool_decide_true in E by done.
  erewrite (bind_Ret (acquire _)) in E by (apply acquire_free, (calm_plocks _ _ Hca)).
  erewrite (bind_Ret (getp c id) _ _ (proc_at s c)) in E by done. rewrite bool_decide_true in E by exact Hst.
  erewrite bind_Ret in E by exact Hr'.
  destruct Hres as [[-> Hv]|[-> (Hnz & i & Hi & Hwr)]].
  - destruct (reap_ok p c s l root tf sz croot ctf csz m Hrp Hcg Hus' Hpte) as (m' & fl' & l' & Hfp & Hs' & Hl' & Hld).
    left. eexists. split.
    + etransitivity; [eapply bind_Ret, eq_trans, (Hfp (Z + bool)%type (inl (proc_at s c).(p_pid))); exact E|done].
    + constructor; [by exists m', fl'|exists l'; split; [|exact Hl']|].
      { apply (proc_space_state (with_mem m' fl' s)); try done; [|apply Hc].
        apply (rep_lock _ _ (vr_kmem _ _ _ (uv_rep _ _ _ _ (us_uvm _ _ _ _ Hus)))). }
      intros Hnz i v Hi. destruct (Hv Hnz i v Hi) as [Hwr <-].
      destruct (writable_page s root sz l (addr + Z.of_nat i) Hus ltac:(lia) Hwr) as (q & Hq & Hin). apply (Hld q); [by right|done].
  - right. exists m, i. split_and!; try done.
    + etransitivity; [eapply bind_Ret; etransitivity; [exact E|]|by instantiate (1 := set_mem m s); instantiate (1 := inl (-1))].
      change ((release (proc_lock c) ;; release wait_lock ;; ret (inl (-1) : Z + bool))
        (acquired (proc_lock c) (acquired wait_lock (set_mem m s))) = Ret (inl (-1)) (set_mem m s)).
      assert (calm p (set_mem m s)) as Hcm by (by apply (calm_ext p s)).
      erewrite bind_Ret by (apply (release_inner p (acquired wait_lock (set_mem m s))); [by apply calm_acquired|apply (calm_plocks _ _ Hca)]).
      by erewrite bind_Ret by (by apply (release_inner p (set_mem m s))).
Qed.

(** With children of which none has ended, [wait] gives up if the process has been
    killed, and sleeps otherwise. *)
Lemma wait_alive p s addr n :
  wait_fuel = S n -> calm p s -> s.(k_locks) !! wait_lock = None ->
  (forall i, (i < Z.to_nat NPROC)%nat -> ~ zombie_of s p i) ->
  (exists i, (i < Z.to_nat NPROC)%nat /\ child_of s p i) ->
  ((proc_at s p).(p_killed) <> 0 -> wait addr s = Ret (-1) s) /\
  ((proc_at s p).(p_killed) = 0 -> s.(k_hart).(c_noff) = 0 ->
   exists k, wait addr s = Switch (asleep p (proc_chan p) wait_lock (acquired wait_lock s)) k /\
     forall s2, one_lock s2 (proc_lock p) -> s2.(k_locks) !! wait_lock = None ->
       s2.(k_hart).(c_proc) = Some p ->
       k s2 = wait (F := n) addr (roused p (hart_push s.(k_hart)).(c_intena) s2)).
Proof.
  intros HF Hc Hw Hno Hex. assert (wait addr s = wait (F := S n) addr s) as -> by (unfold wait; by rewrite HF).
  destruct (wait_scan_none p s addr n) as (hk & Hhk & E); [done..|].
  rewrite E, (proj2 Hhk Hex). cbn [negb].
  assert (calm p (acquired wait_lock s)) as Hca by (by apply calm_acquired).
  assert (forall A (f : bool -> K A), bind (let! k := killed p in ret (cbool k)) f (acquired wait_lock s) =
    f (cbool (proc_at s p).(p_killed)) (acquired wait_lock s)) as Ek.
  { intros A f. erewrite bind_Ret; [done|]. by erewrite bind_Ret by (by apply (killed_calm p)). }
  rewrite Ek. split.
  - intros Hk. rewrite cbool_true by done. by apply (wait_gives_up p).
  - intros Hk Hn. rewrite Hk. change (cbool 0) with false. cbv iota. by apply wait_sleeps.
Qed.

(** [C6] [wait] of a process with a zombie child reaps the first one in the table: it returns the
    child's pid after storing the exit status at the user address, if one is given, clears the
    slot, and adds the child's trapframe page, page-table pages and user pages to the free pages, leaving the
    caller's address space intact; or, when the address is not writable, it returns -1 and the
    child stays as it is. Without children it returns -1 at once and changes nothing. With
    children of which none has ended it returns -1 if the caller has been killed; otherwise it
    sleeps on the caller's own channel with [wait_lock] free, and when it is resumed it goes on
    as a call of [wait] does. *)
Theorem wait_correct p s addr n :
  wait_fuel = S n -> calm p s -> s.(k_locks) !! wait_lock = None ->
  (forall c l root tf sz croot ctf csz,
     reaper p c s l root tf sz croot ctf csz -> 0 <= addr -> addr + 4 <= 2 ^ 64 - PGSIZE ->
     (exists s', wait addr s = Ret (proc_at s c).(p_pid) s' /\
        reaped c s l root tf sz croot ctf csz addr s') \/
     (exists m i, wait addr s = Ret (-1) (set_mem m s) /\ addr <> 0 /\ (i < 4)%nat /\
        ~ writable s.(k_mem) root (addr + Z.of_nat i) /\ uspace (set_mem m s) root sz l)) /\
  ((forall i, (i < Z.to_nat NPROC)%nat -> ~ child_of s p i) -> wait addr s = Ret (-1) s) /\
  ((forall i, (i < Z.to_nat NPROC)%nat -> ~ zombie_of s p i) ->
   (exists i, (i < Z.to_nat NPROC)%nat /\ child_of s p i) ->
   ((proc_at s p).(p_killed) <> 0 -> wait addr s = Ret (-1) s) /\
   ((proc_at s p).(p_killed) = 0 -> s.(k_hart).(c_noff) = 0 ->
    exists s1 k, wait addr s = Switch s1 k /\ s1.(k_locks) !! wait_lock = None /\
      (proc_at s1 p).(p_state) = SLEEPING /\ (proc_at s1 p).(p_chan) = Some (proc_chan p) /\
      (forall i, i <> p -> proc_at s1 i = proc_at s i) /\
      forall s2, one_lock s2 (proc_lock p) -> s2.(k_locks) !! wait_lock = None ->
        s2.(k_hart).(c_proc) = Some p ->
        k s2 = wait (F := n) addr (roused p (hart_push s.(k_hart)).(c_intena) s2))).
Proof.
  intros HF Hc Hw. assert (forall x, wait x s = wait (F := S n) x s) as EF by (intros x; unfold wait; by rewrite HF).
  split_and!.
  - intros c l root tf sz croot ctf csz Hrp. apply (wait_ok p); [lia|done].
  - intros Hno. destruct (wait_scan_none p s addr n) as (hk & Hhk & E); [done|done| |].
    { intros i Hi [Hch _]. by apply (Hno i). }
    rewrite EF, E. destruct hk; [|by apply (wait_gives_up p)].
    destruct (proj1 Hhk eq_refl) as (i & Hi & Hch). by destruct (Hno i).
  - intros Hno Hex. destruct (wait_alive p s addr n HF Hc Hw Hno Hex) as [Hk Hs]. split; [exact Hk|].
    intros H0 Hn. destruct (Hs H0 Hn) as (k & Hk' & Hr).
    assert (p < length s.(k_procs))%nat as Hlen by (rewrite (calm_len _ _ Hc); apply Hc).
    eexists _, k. split; [exact Hk'|]. split_and!; [|by rewrite asleep_at|by rewrite asleep_at| |exact Hr].
    + unfold asleep, acquired. ksimpl. rewrite lookup_insert_ne by done. apply lookup_delete_eq.
    + intros i Hi. unfold asleep. by rewrite proc_at_upd_ne.
Qed.

End Wait.
