(* ===== verification/Uart.v ===== *)
(** * The UART driver (uart.c) and the PLIC (plic.c)

    Device registers are not memory: what a read returns is taken from the
    list [k_mmio_in], which stands for the device's behaviour, and every
    write is recorded in [k_mmio_out]. A loop that polls a register runs
    until the list is used up; polling on is then a loop that never ends. *)

From S2P Require Import Prelude Params Mem State Spinlock CString Kalloc Vm Proc.

(** Read and write a device register of [w] bits at address [a]. *)
Definition mmio_read (w a : Z) : K Z :=
  fun s => Ret (hd 0 s.(k_mmio_in) mod 2 ^ w) (set_mmio_in (tl s.(k_mmio_in)) s).
Definition mmio_write (w a v : Z) : K unit :=
  modify (fun s => set_mmio_out ((a, v mod 2 ^ w) :: s.(k_mmio_out)) s).

(** More polls than this see only the value a drained list gives. *)
Definition mmio_fuel : K nat := get (fun s => S (length s.(k_mmio_in))).

(** ** uart.c *)
Definition RHR : Z := 0.
Definition THR : Z := 0.
Definition IER : Z := 1.
Definition IER_RX_ENABLE : Z := Z.shiftl 1 0.
Definition IER_TX_ENABLE : Z := Z.shiftl 1 1.
Definition FCR : Z := 2.
Definition FCR_FIFO_ENABLE : Z := Z.shiftl 1 0.
Definition FCR_FIFO_CLEAR : Z := Z.shiftl 3 1.
Definition ISR : Z := 2.
Definition LCR : Z := 3.
Definition LCR_EIGHT_BITS : Z := Z.shiftl 3 0.
Definition LCR_BAUD_LATCH : Z := Z.shiftl 1 7.
Definition LSR : Z := 5.
Definition LSR_RX_READY : Z := Z.shiftl 1 0.
Definition LSR_TX_IDLE : Z := Z.shiftl 1 5.
Definition UART_TX_BUF_SIZE : Z := 32.

Definition Reg (reg : Z) : Z := UART0 + reg.
Definition ReadReg (reg : Z) : K Z := mmio_read 8 (Reg reg).
Definition WriteReg (reg v : Z) : K unit := mmio_write 8 (Reg reg) v.

Section Uart.
Context {I : KernelImage} {F : WaitFuel}.

Definition uartinit : K unit :=
  (* disable interrupts. *)
  WriteReg IER 0x00 ;;
  (* special mode to set baud rate. *)
  WriteReg LCR LCR_BAUD_LATCH ;;
  (* LSB for baud rate of 38.4K. *)
  WriteReg 0 0x03 ;;
  (* MSB for baud rate of 38.4K. *)
  WriteReg 1 0x00 ;;
  (* leave set-baud mode, and set word length to 8 bits, no parity. *)
  WriteReg LCR LCR_EIGHT_BITS ;;
  (* reset and enable FIFOs. *)
  WriteReg FCR (Z.lor FCR_FIFO_ENABLE FCR_FIFO_CLEAR) ;;
  (* enable transmit and receive interrupts. *)
  WriteReg IER (Z.lor IER_TX_ENABLE IER_RX_ENABLE) ;;
  initlock uart_tx_lock.

(** [uartstart]; every iteration but the last takes a byte out of the buffer. *)
Fixpoint uartstart_loop (fuel : nat) : K unit :=
  match fuel with
  | O => fun _ => OutOfFuel
  | S fuel' =>
      let! u := get k_uart in
      if u.(uart_tx_w) =? u.(uart_tx_r) then
        (* transmit buffer is empty. *)
        ReadReg ISR ;; ret tt
      else
        let! lsr := ReadReg LSR in
        if Z.land lsr LSR_TX_IDLE =? 0 then
          (* the UART transmit holding register is full. *)
          ret tt
        else
          let c := u.(uart_tx_buf) !!! Z.to_nat (u.(uart_tx_r) mod UART_TX_BUF_SIZE) in
          modify (upd_uart (fun u => set_uart_tx_r (u64 (u.(uart_tx_r) + 1)) u)) ;;
          (* maybe uartputc() is waiting for space in the buffer. *)
          wakeup (Some uart_tx_r_chan) ;;
          WriteReg THR c ;;
          uartstart_loop fuel'
  end.

Definition uartstart : K unit :=
  let! u := get k_uart in
  uartstart_loop (S (Z.to_nat (u64 (u.(uart_tx_w) - u.(uart_tx_r))))).

(** A hart that finds [panicked] set loops forever. *)
Definition check_panicked : K unit :=
  let! pk := get k_panicked in
  if (pk : bool) then fun _ => OutOfFuel else ret tt.

Definition uart_full (u : uartst) : bool :=
  u.(uart_tx_w) =? u64 (u.(uart_tx_r) + UART_TX_BUF_SIZE).

Definition uartputc (c : Z) : K unit :=
  acquire uart_tx_lock ;;
  check_panicked ;;
  sleep_while wait_fuel (get (fun s => uart_full s.(k_uart))) uart_tx_r_chan uart_tx_lock ;;
  modify (upd_uart (fun u =>
    set_uart_tx_buf
      (<[Z.to_nat (u.(uart_tx_w) mod UART_TX_BUF_SIZE) := u8 c]> u.(uart_tx_buf)) u)) ;;
  modify (upd_uart (fun u => set_uart_tx_w (u64 (u.(uart_tx_w) + 1)) u)) ;;
  uartstart ;;
  release uart_tx_lock.

(** [while((ReadReg(LSR) & LSR_TX_IDLE) == 0) ;] *)
Fixpoint wait_tx_idle (fuel : nat) : K unit :=
  match fuel with
  | O => fun _ => OutOfFuel
  | S fuel' =>
      let! lsr := ReadReg LSR in
      if Z.land lsr LSR_TX_IDLE =? 0 then wait_tx_idle fuel' else ret tt
  end.

Definition uartputc_sync (c : Z) : K unit :=
  push_off ;;
  check_panicked ;;
  let! fuel := mmio_fuel in
  wait_tx_idle fuel ;;
  WriteReg THR c ;;
  pop_off.

Definition uartgetc : K Z :=
  let! lsr := ReadReg LSR in
  if has lsr 0x01 then ReadReg RHR else ret (-1).

End Uart.

(** ** plic.c *)
Definition PLIC_SENABLE (hart : Z) : Z := PLIC + 0x2080 + hart * 0x100.
Definition PLIC_SPRIORITY (hart : Z) : Z := PLIC + 0x201000 + hart * 0x2000.
Definition PLIC_SCLAIM (hart : Z) : Z := PLIC + 0x201004 + hart * 0x2000.

Definition plicinit : K unit :=
  mmio_write 32 (PLIC + UART0_IRQ * 4) 1 ;;
  mmio_write 32 (PLIC + VIRTIO0_IRQ * 4) 1.

Definition plicinithart : K unit :=
  let! hart := cpuid in
  (* set enable bits for this hart's S-mode for the uart and virtio disk. *)
  mmio_write 32 (PLIC_SENABLE hart) (Z.lor (Z.shiftl 1 UART0_IRQ) (Z.shiftl 1 VIRTIO0_IRQ)) ;;
  (* set this hart's S-mode priority threshold to 0. *)
  mmio_write 32 (PLIC_SPRIORITY hart) 0.

Definition plic_claim : K Z :=
  let! hart := cpuid in
  let! irq := mmio_read 32 (PLIC_SCLAIM hart) in
  ret (i32 irq).

Definition plic_complete (irq : Z) : K unit :=
  let! hart := cpuid in
  mmio_write 32 (PLIC_SCLAIM hart) irq.
