(* ===== verification/Printf.v ===== *)
(** * Formatted console output (printf.c) and procdump (proc.c)

    A format string is its bytes without the NUL. The arguments of a variadic
    call are a list; reading one that was not passed, or one of another kind,
    is undefined behaviour, as is a store outside a local array. *)

From S2P Require Import Prelude Params Mem State Spinlock CString Kalloc Vm Proc.
From S2P Require Import Uart.

Inductive vararg := VInt (v : Z) | VStr (s : option (list Z)).

(** A run into undefined behaviour. *)
Definition undefined {A} : K A := panic "undefined behaviour".

Definition va_int {A} (ap : list vararg) (k : Z -> list vararg -> K A) : K A :=
  match ap with VInt v :: ap' => k (i32 v) ap' | _ => undefined end.
Definition va_uint64 {A} (ap : list vararg) (k : Z -> list vararg -> K A) : K A :=
  match ap with VInt v :: ap' => k (u64 v) ap' | _ => undefined end.
Definition va_str {A} (ap : list vararg) (k : option (list Z) -> list vararg -> K A) : K A :=
  match ap with VStr s :: ap' => k s ap' | _ => undefined end.

(** [digits[]] *)
Definition digits : list Z := str "0123456789abcdef".
Definition digit (d : Z) : Z := digits !!! Z.to_nat d.

(** The do-while loop of [printint]: the digits of [x], least significant
    first. A 64-bit number has at most 64 digits. *)
Fixpoint printint_digits (fuel : nat) (x base : Z) : list Z :=
  match fuel with
  | O => []
  | S fuel' =>
      digit (x mod base) ::
      (if negb (x / base =? 0) then printint_digits fuel' (x / base) base else [])
  end.

(** The contents of [buf] when the digits are done; [None] when a store was
    outside of its 16 bytes. *)
Definition printint_buf (xx base : Z) (sign : bool) : option (list Z) :=
  let neg := sign && (xx <? 0) in
  let x := if neg then u64 (- xx) else u64 xx in
  let buf := printint_digits 64 x base ++ (if neg then [45] else []) in
  if Z.of_nat (length buf) <=? 16 then Some buf else None.

Section Printf.
Context {I : KernelImage} {F : WaitFuel}.

Definition BACKSPACE : Z := 0x100.

(** [consputc] (console.c) *)
Definition consputc (c : Z) : K unit :=
  if c =? BACKSPACE then
    (* if the user typed backspace, overwrite with a space. *)
    uartputc_sync 8 ;; uartputc_sync 32 ;; uartputc_sync 8
  else uartputc_sync c.

Definition printint (xx base : Z) (sign : bool) : K unit :=
  match printint_buf xx base sign with
  | None => undefined
  | Some buf => for_each (rev buf) consputc
  end.

Fixpoint printptr_loop (n : nat) (x : Z) : K unit :=
  match n with
  | O => ret tt
  | S n' =>
      consputc (digit (Z.shiftr x (8 * 8 - 4))) ;;
      printptr_loop n' (u64 (Z.shiftl x 4))
  end.

Definition printptr (x : Z) : K unit :=
  consputc 48 ;;
  consputc 120 ;;
  printptr_loop 16 x.

(** The loop of [printf] over the bytes of the format not yet printed. *)
Fixpoint printf_loop (fmt : list Z) (ap : list vararg) : K unit :=
  match fmt with
  | [] => ret tt
  | cx :: rest =>
      if negb (cx =? 37) then consputc cx ;; printf_loop rest ap else
      match rest with
      | [] => ret tt
      | c0 :: r0 =>
          let c1 := hd 0 r0 in
          let r1 := match r0 with [] => r0 | _ :: r => r end in
          let c2 := hd 0 r1 in
          let r2 := match r1 with [] => r1 | _ :: r => r end in
          if c0 =? 100 then
            va_int ap (fun v ap => printint v 10 true ;; printf_loop r0 ap)
          else if (c0 =? 108) && (c1 =? 100) then
            va_uint64 ap (fun v ap => printint (i64 v) 10 true ;; printf_loop r1 ap)
          else if (c0 =? 108) && (c1 =? 108) && (c2 =? 100) then
            va_uint64 ap (fun v ap => printint (i64 v) 10 true ;; printf_loop r2 ap)
          else if c0 =? 117 then
            va_int ap (fun v ap => printint v 10 false ;; printf_loop r0 ap)
          else if (c0 =? 108) && (c1 =? 117) then
            va_uint64 ap (fun v ap => printint (i64 v) 10 false ;; printf_loop r1 ap)
          else if (c0 =? 108) && (c1 =? 108) && (c2 =? 117) then
            va_uint64 ap (fun v ap => printint (i64 v) 10 false ;; printf_loop r2 ap)
          else if c0 =? 120 then
            va_int ap (fun v ap => printint v 16 false ;; printf_loop r0 ap)
          else if (c0 =? 108) && (c1 =? 120) then
            va_uint64 ap (fun v ap => printint (i64 v) 16 false ;; printf_loop r1 ap)
          else if (c0 =? 108) && (c1 =? 108) && (c2 =? 120) then
            va_uint64 ap (fun v ap => printint (i64 v) 16 false ;; printf_loop r2 ap)
          else if c0 =? 112 then
            va_uint64 ap (fun v ap => printptr v ;; printf_loop r0 ap)
          else if c0 =? 115 then
            va_str ap (fun s ap =>
              for_each (match s with Some bs => bs | None => str "(null)" end) consputc ;;
              printf_loop r0 ap)
          else if c0 =? 37 then consputc 37 ;; printf_loop r0 ap
          else
            (* Print unknown % sequence to draw attention. *)
            consputc 37 ;; consputc c0 ;; printf_loop r0 ap
      end
  end.

Definition printf (fmt : list Z) (ap : list vararg) : K Z :=
  let! locking := get k_pr_locking in
  when locking (acquire pr_lock) ;;
  printf_loop fmt ap ;;
  when locking (release pr_lock) ;;
  ret 0.

(** [panic] as printf.c has it; elsewhere a call of it is the outcome [Panic]. *)
Definition panic_body {A} (msg : string) : K A :=
  modify (set_pr_locking false) ;;
  printf (str "panic: ") [] ;;
  printf (str "%s" ++ [10]) [VStr (Some (str msg))] ;;
  modify (set_panicked true) ;;
  panic msg.

Definition printfinit : K unit :=
  initlock pr_lock ;;
  modify (set_pr_locking true).

(** ** procdump (proc.c) *)

Definition states (st : procstate) : list Z :=
  match st with
  | UNUSED => str "unused"
  | USED => str "used"
  | SLEEPING => str "sleep "
  | RUNNABLE => str "runble"
  | RUNNING => str "run   "
  | ZOMBIE => str "zombie"
  end.

Definition procdump : K unit :=
  printf [10] [] ;;
  for_each proc_indices (fun p =>
    let! q := getp p id in
    if bool_decide (q.(p_state) = UNUSED) then ret tt else
    printf (str "%d %s %s")
      [VInt q.(p_pid); VStr (Some (states q.(p_state))); VStr (Some (until_nul q.(p_name)))] ;;
    printf [10] [] ;;
    ret tt).

End Printf.

(** * Formatted output (printf.c): the digits of a number, and the characters that go out *)

(** The value of digits, least significant first. *)
Definition value (base : Z) (ds : list Z) : Z := fold_right (fun d v => d + base * v) 0 ds.

(** A numeral without leading zeros. *)
Definition numeral (base : Z) (ds : list Z) : Prop :=
  Forall (fun d => 0 <= d < base) ds /\ ds <> [] /\ (last ds = Some 0 -> ds = [0]).

Lemma value_bound base ds :
  2 <= base -> Forall (fun d => 0 <= d < base) ds -> 0 <= value base ds < base ^ Z.of_nat (length ds).
Proof.
  intros Hb. induction 1 as [|d ds Hd Hds IH]; [simpl; lia|].
  simpl length. rewrite Nat2Z.inj_succ, Z.pow_succ_r by lia. simpl. nia.
Qed.

Lemma value_zero_last base ds :
  2 <= base -> Forall (fun d => 0 <= d < base) ds -> ds <> [] -> value base ds = 0 -> last ds = Some 0.
Proof.
  intros Hb. induction ds as [|x ds IH]; intros Hds Hne Ez; [done|]. apply Forall_cons in Hds as [Hx Hds].
  destruct ds as [|y ds]; [simpl in *; f_equal; lia|]. change (last (x :: y :: ds)) with (last (y :: ds)).
  apply IH; [done|done|]. pose proof (value_bound base _ Hb Hds) as Hv.
  change (value base (x :: y :: ds)) with (x + base * value base (y :: ds)) in Ez.
  assert (base * value base (y :: ds) = 0) as E0 by nia. apply Z.mul_eq_0 in E0. lia.
Qed.

(** A numeral of [k + 1] digits is at least [base ^ k]. *)
Lemma numeral_least base ds :
  2 <= base -> numeral base ds -> value base ds <> 0 -> base ^ (Z.of_nat (length ds) - 1) <= value base ds.
Proof.
  intros Hb (Hds & Hne & Hlast). induction ds as [|d ds IH]; [done|].
  apply Forall_cons in Hds as [Hd Hds]. intros Hv. destruct ds as [|d' ds].
  { simpl in *. change (base ^ 0 <= d + base * 0). lia. }
  assert (last (d' :: ds) <> Some 0) as Hl.
  { intros E. specialize (Hlast E). discriminate. }
  destruct (decide (value base (d' :: ds) = 0)) as [Ez|Ez].
  { exfalso. by apply Hl, (value_zero_last base). }
  specialize (IH Hds ltac:(done) ltac:(intros E; by destruct Hl) Ez).
  change (value base (d :: d' :: ds)) with (d + base * value base (d' :: ds)).
  simpl length in *. rewrite !Nat2Z.inj_succ in *. 
  replace (Z.succ (Z.succ (Z.of_nat (length ds))) - 1) with (Z.succ (Z.of_nat (length ds))) by lia.
  replace (Z.succ (Z.of_nat (length ds)) - 1) with (Z.of_nat (length ds)) in IH by lia.
  rewrite Z.pow_succ_r by lia. nia.
Qed.

(** The loop computes the numeral; it needs one round per digit. *)
Lemma printint_digits_ok base fuel : forall x,
  2 <= base -> 0 <= x < base ^ Z.of_nat fuel -> (0 < fuel)%nat ->
  exists ds, printint_digits fuel x base = map digit ds /\ numeral base ds /\ value base ds = x.
Proof.
  induction fuel as [|fuel IH]; intros x Hb Hx Hf; [lia|]. cbn [printint_digits].
  pose proof (Z.mod_pos_bound x base ltac:(lia)) as Hm. pose proof (Z.div_mod x base ltac:(lia)) as Hdm.
  rewrite Nat2Z.inj_succ, Z.pow_succ_r in Hx by lia.
  destruct (Z.eqb_spec (x / base) 0) as [E|E]; cbn [negb].
  - exists [x mod base]. split; [done|]. split; [|simpl; lia].
    split; [by apply Forall_singleton|]. split; [done|]. simpl. intros [= ->]. done.
  - assert (0 <= x / base < base ^ Z.of_nat fuel) as Hq.
    { split; [apply Z.div_pos; lia|]. apply Z.div_lt_upper_bound; lia. }
    destruct fuel as [|fuel]; [simpl in Hq; lia|].
    destruct (IH (x / base) Hb Hq ltac:(lia)) as (ds & -> & (Hds & Hne & Hl) & Hv).
    exists (x mod base :: ds). split; [done|]. split; [|simpl; lia].
    split; [by constructor|]. split; [done|]. destruct ds as [|d ds]; [done|].
    change (last (x mod base :: d :: ds)) with (last (d :: ds)). intros E'. specialize (Hl E').
    injection Hl as -> ->. simpl in Hv. lia.
Qed.

Lemma numeral_length base ds (m : nat) :
  2 <= base -> (0 < m)%nat -> numeral base ds ->
  (length ds <= m)%nat <-> value base ds < base ^ Z.of_nat m.
Proof.
  intros Hb Hm Hn. pose proof Hn as (Hds & Hne & _). pose proof (value_bound base ds Hb Hds) as Hv. split.
  - intros Hl. eapply Z.lt_le_trans; [apply Hv|]. apply Z.pow_le_mono_r; lia.
  - intros Hlt. destruct (decide (value base ds = 0)) as [Ez|Ez].
    + destruct Hn as (_ & _ & Hl). assert (last ds = Some 0) as E0 by (by apply (value_zero_last base)).
      rewrite (Hl E0). simpl. lia.
    + pose proof (numeral_least base ds Hb Hn Ez) as Hle.
      destruct (decide (length ds <= m)%nat) as [|Hgt]; [done|]. exfalso.
      assert (base ^ Z.of_nat m <= base ^ (Z.of_nat (length ds) - 1)) by (apply Z.pow_le_mono_r; lia). lia.
Qed.

(** The number that [printint] converts, and the room its sign takes. *)
Definition magnitude (xx : Z) (sign : bool) : Z := if sign && (xx <? 0) then - xx else u64 xx.
Definition minus (xx : Z) (sign : bool) : list Z := if sign && (xx <? 0) then [45] else [].

(** The digits of the number, and when they fit into the buffer of 16 bytes. *)
Lemma printint_buf_ok xx base sign :
  2 <= base <= 16 -> - 2 ^ 63 <= xx < 2 ^ 63 ->
  let room := 16 - Z.of_nat (length (minus xx sign)) in
  if magnitude xx sign <? base ^ room then
    exists ds, printint_buf xx base sign = Some (map digit ds ++ minus xx sign) /\
      numeral base ds /\ value base ds = magnitude xx sign
  else printint_buf xx base sign = None.
Proof.
  intros Hb Hxx room. unfold printint_buf. fold (minus xx sign).
  assert ((if sign && (xx <? 0) then u64 (- xx) else u64 xx) = magnitude xx sign) as ->.
  { unfold magnitude. destruct (sign && (xx <? 0)) eqn:E; [|done]. apply andb_true_iff in E as [_ E].
    apply Z.ltb_lt in E. unfold u64. apply Z.mod_small. lia. }
  assert (0 <= magnitude xx sign < 2 ^ 64) as Hm.
  { unfold magnitude. destruct (sign && (xx <? 0)) eqn:E; [|unfold u64; apply Z.mod_pos_bound; lia].
    apply andb_true_iff in E as [_ E]. apply Z.ltb_lt in E. lia. }
  destruct (printint_digits_ok base 64 (magnitude xx sign)) as (ds & -> & Hn & Hv); [lia| |lia|].
  { split; [lia|]. eapply Z.lt_le_trans; [apply Hm|]. apply Z.pow_le_mono_l. lia. }
  assert (length (minus xx sign) <= 1)%nat as Hs by (unfold minus; destruct (_ && _); simpl; lia).
  pose proof (numeral_length base ds (Z.to_nat room) ltac:(lia) ltac:(unfold room; lia) Hn) as Hl.
  rewrite Hv, Z2Nat.id in Hl by (unfold room; lia).
  rewrite length_app, length_map. destruct (Z.ltb_spec (magnitude xx sign) (base ^ room)) as [Hlt|Hge].
  - exists ds. split; [|done]. rewrite (proj2 (Z.leb_le _ _)); [done|]. apply Hl in Hlt. unfold room in Hlt. lia.
  - rewrite (proj2 (Z.leb_gt _ _)); [done|].
    destruct (decide (length ds <= Z.to_nat room)%nat) as [Hle|Hgt]; [apply Hl in Hle; lia|].
    unfold room in Hgt. lia.
Qed.

(** ** Output to the UART *)

(** The device answers a poll of its status with a value that says it is idle. *)
Definition tx_idle (v : Z) : bool := negb (Z.land (v mod 2 ^ 8) LSR_TX_IDLE =? 0).

(** The answers left after the device has been found idle [n] times. *)
Fixpoint until_idle (l : list Z) : option (list Z) :=
  match l with
  | [] => None
  | v :: l' => if tx_idle v then Some l' else until_idle l'
  end.
Fixpoint transmits (n : nat) (l : list Z) : option (list Z) :=
  match n with
  | O => Some l
  | S n' => match until_idle l with Some l' => transmits n' l' | None => None end
  end.

(** The state after the characters [cs] have gone out in order; the list of the writes has the
    last one first. *)
Definition sent (cs l : list Z) (s : kstate) : kstate :=
  set_mmio_in l (set_mmio_out (rev (map (fun c => (Reg THR, c)) cs) ++ s.(k_mmio_out)) s).

(** A hart that may print: nothing is lost by [push_off] and [pop_off], and the kernel has not
    panicked. *)
Record may_print (s : kstate) : Prop := {
  mp_hart : hart_ok s.(k_hart);
  mp_norm : hart_norm s.(k_hart) = s.(k_hart);
  mp_panicked : s.(k_panicked) = false;
}.

Lemma wait_tx_idle_ok s l' : forall l fuel, until_idle l = Some l' -> (length l < fuel)%nat ->
  wait_tx_idle fuel (set_mmio_in l s) = Ret tt (set_mmio_in l' s).
Proof.
  induction l as [|v l IH]; intros fuel Hl Hf; [done|]. destruct fuel as [|fuel]; [simpl in Hf; lia|].
  cbn [until_idle] in Hl. cbn [wait_tx_idle]. unfold ReadReg, mmio_read.
  erewrite (bind_Ret _ _ _ (v mod 2 ^ 8) (set_mmio_in l s)) by done. unfold tx_idle in Hl.
  destruct (Z.land (v mod 2 ^ 8) LSR_TX_IDLE =? 0); cbn [negb] in Hl.
  - apply IH; [done|simpl in Hf; lia].
  - by injection Hl as ->.
Qed.

Lemma uartputc_sync_ok c s l' :
  may_print s -> until_idle s.(k_mmio_in) = Some l' -> 0 <= c < 256 ->
  uartputc_sync c s = Ret tt (sent [c] l' s).
Proof.
  intros [Hh Hn Hp] Hl Hc. unfold uartputc_sync. erewrite bind_Ret by apply push_off_eq.
  set (t := upd_hart hart_push s).
  erewrite (bind_Ret check_panicked _ t tt t).
  2:{ unfold check_panicked. rewrite (bind_Ret (get k_panicked) _ t false t); [done|]. unfold get. f_equal. exact Hp. }
  erewrite (bind_Ret mmio_fuel _ t (S (length s.(k_mmio_in))) t) by done.
  erewrite (bind_Ret (wait_tx_idle _) _ t tt (set_mmio_in l' t)) by (apply (wait_tx_idle_ok t l' s.(k_mmio_in)); [done|apply le_n]).
  unfold WriteReg, mmio_write. erewrite (bind_Ret (modify _)) by done.
  rewrite (pop_off_push _ s.(k_hart)) by done. rewrite Hn, Z.mod_small by (change (2 ^ 8) with 256; lia). done.
Qed.

Lemma may_print_sent cs l s : may_print s -> may_print (sent cs l s).
Proof. by intros [? ? ?]. Qed.

Lemma sent_app cs cs' l l' s : sent cs' l' (sent cs l s) = sent (cs ++ cs') l' s.
Proof. unfold sent. kext. ksimpl. by rewrite map_app, rev_app_distr, app_assoc. Qed.

(** Characters go out in the order in which they are printed. *)
Lemma consputc_all_ok cs : forall s l',
  may_print s -> transmits (length cs) s.(k_mmio_in) = Some l' -> Forall (fun c => 0 <= c < 256) cs ->
  for_each cs consputc s = Ret tt (sent cs l' s).
Proof.
  induction cs as [|c cs IH]; intros s l' Hp Hl Hc; cbn [for_each length transmits] in *.
  - by injection Hl as <-.
  - apply Forall_cons in Hc as [Hc Hcs]. destruct (until_idle _) as [l1|] eqn:E1; [|done].
    erewrite bind_Ret.
    2:{ unfold consputc. rewrite (proj2 (Z.eqb_neq c BACKSPACE)) by (unfold BACKSPACE; lia). by apply uartputc_sync_ok. }
    rewrite (IH _ l'); [by rewrite sent_app|by apply may_print_sent|done|done].
Qed.

(** A format without conversions. *)
Lemma printf_loop_plain fmt : Forall (fun c => 0 <= c < 256 /\ c <> 37) fmt ->
  printf_loop fmt [] = for_each fmt consputc.
Proof.
  induction 1 as [|c fmt [_ Hc] _ IH]; [done|]. cbn [printf_loop for_each].
  rewrite (proj2 (Z.eqb_neq c 37)) by done. cbn [negb]. by rewrite IH.
Qed.

Lemma may_print_acquired lk s : may_print s -> may_print (acquired lk s).
Proof.
  intros [[Hn Ho] _ Hp]. split; [apply hart_push_ok; by split| |done].
  change (hart_norm (hart_push (k_hart s)) = hart_push (k_hart s)). unfold hart_norm.
  rewrite (proj2 (Z.eqb_neq (c_noff (hart_push (k_hart s))) 0)); [done|]. unfold hart_push. ksimpl. lia.
Qed.

Lemma printf_plain fmt s l' :
  may_print s -> (s.(k_pr_locking) = true -> s.(k_locks) !! pr_lock = None) ->
  Forall (fun c => 0 <= c < 256 /\ c <> 37) fmt -> transmits (length fmt) s.(k_mmio_in) = Some l' ->
  printf fmt [] s = Ret 0 (sent fmt l' s).
Proof.
  intros Hp Hl Hf Ht. assert (Forall (fun c => 0 <= c < 256) fmt) as Hc by (eapply Forall_impl; [exact Hf|]; by intros c [? _]).
  unfold printf. erewrite (bind_Ret (get _) _ s (k_pr_locking s) s) by done. rewrite printf_loop_plain by done.
  destruct (k_pr_locking s); cbn [when].
  - specialize (Hl eq_refl). erewrite bind_Ret by (by apply acquire_free).
    erewrite bind_Ret by (apply consputc_all_ok; [by apply may_print_acquired|exact Ht|exact Hc]).
    erewrite (bind_Ret (release _)).
    2:{ apply (release_acquired s); [done|apply Hp|done|done]. }
    unfold ret. f_equal. rewrite (mp_norm _ Hp). done.
  - erewrite (bind_Ret (ret tt)) by done. erewrite bind_Ret by (by apply consputc_all_ok). done.
Qed.

Lemma digit_char d : 0 <= d < 16 -> 0 <= digit d < 256.
Proof.
  intros H. assert (forallb (fun x => (0 <=? digit x) && (digit x <? 256)) (zrange 0 16) = true) as Hall by done.
  rewrite forallb_forall in Hall. specialize (Hall d). rewrite andb_true_iff, Z.leb_le, Z.ltb_lt in Hall. apply Hall.
  apply list_elem_of_In, elem_of_zrange. lia.
Qed.

(** [C40] [printint] prints a 64-bit number: the characters that go out to the UART are, in order, a
    minus sign for a negative signed number and the digits, the most significant one first, of
    the numeral without leading zeros in the base it is given. This is so exactly when the
    numeral with its sign has at most 16 characters, which is so for all numbers that are
    printed in base 16 without a sign; otherwise a store is outside the buffer, which is
    undefined behaviour. *)
Theorem printint_correct xx base sign s :
  2 <= base <= 16 -> - 2 ^ 63 <= xx < 2 ^ 63 -> may_print s ->
  let room := 16 - Z.of_nat (length (minus xx sign)) in
  (base = 16 -> sign = false -> magnitude xx sign < base ^ room) /\
  if magnitude xx sign <? base ^ room then
    exists ds, numeral base ds /\ value base ds = magnitude xx sign /\
      let cs := minus xx sign ++ map digit (rev ds) in
      forall l', transmits (length cs) s.(k_mmio_in) = Some l' ->
        printint xx base sign s = Ret tt (sent cs l' s)
  else printint xx base sign s = undefined s.
Proof.
  intros Hb Hxx Hp room. split.
  { intros -> ->. unfold room, magnitude, minus, u64. cbn [andb length]. change (16 ^ (16 - Z.of_nat 0)) with (2 ^ 64).
    apply Z.mod_pos_bound. lia. }
  pose proof (printint_buf_ok xx base sign Hb Hxx) as H. cbv zeta in H. fold room in H. unfold printint.
  destruct (magnitude xx sign <? base ^ room); [|by rewrite H].
  destruct H as (ds & -> & Hn & Hv). exists ds. split; [done|]. split; [done|]. intros l' Hl.
  set (cs := minus xx sign ++ map digit (rev ds)) in *.
  assert (rev (map digit ds ++ minus xx sign) = cs) as ->.
  { unfold cs. rewrite rev_app_distr, map_rev. f_equal. unfold minus. by destruct (_ && _). }
  apply consputc_all_ok; [done|done|]. unfold cs. apply Forall_app. split.
  - unfold minus. destruct (_ && _); [|done]. by apply Forall_singleton.
  - rewrite Forall_forall. intros c (d & -> & Hd)%list_elem_of_fmap. apply digit_char.
    destruct Hn as (Hds & _). rewrite Forall_forall in Hds. rewrite list_elem_of_In, <- in_rev, <- list_elem_of_In in Hd. specialize (Hds d Hd). cbn in Hds. lia.
Qed.

(** An idle UART. *)
Definition demo_idle (n : nat) : kstate := set_mmio_in (replicate n 32) inhabitant.

Lemma printint_correct_witness :
  (exists ds, value 16 ds = 255 /\ forall l',
    transmits (S (length ds)) (replicate 5 32) = Some l' ->
    printint (- 255) 16 true (demo_idle 5) = Ret tt (sent (45 :: map digit (rev ds)) l' (demo_idle 5))) /\
  printint (- 1) 10 false (demo_idle 5) = undefined (demo_idle 5).
Proof.
  assert (may_print (demo_idle 5)) as Hp by (split; [by split|reflexivity|reflexivity]).
  destruct (printint_correct (- 1) 10 false (demo_idle 5) ltac:(lia) ltac:(lia) Hp) as [_ H2].
  destruct (printint_correct (- 255) 16 true (demo_idle 5) ltac:(lia) ltac:(lia) Hp) as [_ H1].
  split; [|exact H2]. destruct H1 as (ds & _ & Hv & H1). exists ds. split; [exact Hv|]. intros l' Hl. apply H1.
  rewrite length_app, length_map, length_rev. exact Hl.
Defined.
