(* ===== verification/Console.v ===== *)
(** * The console (console.c) and the UART interrupt (uart.c)

    [cons.r], [cons.w] and [cons.e] are 32-bit counters; the byte with number
    [i] is kept in [cons.buf[i % 128]]. *)

From S2P Require Import Prelude Params Mem State Spinlock CString Kalloc Vm Proc Uart Printf.

Definition INPUT_BUF_SIZE : Z := 128.

(** [C('x')], Control-x. *)
Definition ctrl (x : Z) : Z := x - 64.

Definition cons_index (i : Z) : nat := Z.to_nat (i mod INPUT_BUF_SIZE).

Section Console.
Context {I : KernelImage} {F : WaitFuel}.

Fixpoint consolewrite_loop (n : nat) (i : Z) (src : source) : K Z :=
  match n with
  | O => ret i
  | S n' =>
      let! r := either_copyin (source_add src i) 1 in
      if fst r =? -1 then ret i else
      uartputc (hd 0 (snd r)) ;;
      consolewrite_loop n' (i + 1) src
  end.

Definition consolewrite (src : source) (n : Z) : K Z := consolewrite_loop (Z.to_nat n) 0 src.

(** The inner loop of [consoleread]: [false] when the process was killed. *)
Fixpoint consoleread_wait (fuel : nat) : K bool :=
  match fuel with
  | O => fun _ => OutOfFuel
  | S fuel' =>
      let! c := get k_cons in
      if c.(cons_r) =? c.(cons_w) then
        let! p := curproc in
        let! k := killed p in
        if cbool k then ret false
        else sleep cons_r_chan cons_lock ;; consoleread_wait fuel'
      else ret true
  end.

(** The outer loop; [out] collects the bytes moved to a kernel destination.
    Returns the value of [n] at its end, or [None] when the process was
    killed. *)
Fixpoint consoleread_loop (m : nat) (dst : dest) (target n : Z) (out : list Z) :
    K (option Z * list Z) :=
  match m with
  | O => ret (Some n, out)
  | S m' =>
      let! ok := consoleread_wait wait_fuel in
      if negb ok then release cons_lock ;; ret (None, out) else
      let! cs := get k_cons in
      let c := cs.(cons_buf) !!! cons_index cs.(cons_r) in
      modify (upd_cons (fun cs => set_cons_r (u32 (cs.(cons_r) + 1)) cs)) ;;
      if c =? ctrl 68 then
        (* end-of-file; save ^D for next time *)
        when (n <? target)
          (modify (upd_cons (fun cs => set_cons_r (u32 (cs.(cons_r) - 1)) cs))) ;;
        ret (Some n, out)
      else
        let! r := either_copyout dst out [c] in
        if fst r =? -1 then ret (Some n, out) else
        if c =? 10 then ret (Some (n - 1), snd r)
        else consoleread_loop m' (dest_add dst 1) target (n - 1) (snd r)
  end.

(** Returns the status and, for a kernel destination, the bytes. *)
Definition consoleread (dst : dest) (n : Z) : K (Z * list Z) :=
  let target := n in
  acquire cons_lock ;;
  let! r := consoleread_loop (Z.to_nat n) dst target n [] in
  match fst r with
  | None => ret (-1, snd r)
  | Some n => release cons_lock ;; ret (target - n, snd r)
  end.

(** [^U]: every iteration takes one byte out of the line being edited. *)
Fixpoint kill_line (fuel : nat) : K unit :=
  match fuel with
  | O => fun _ => OutOfFuel
  | S fuel' =>
      let! cs := get k_cons in
      if negb (cs.(cons_e) =? cs.(cons_w)) &&
         negb (cs.(cons_buf) !!! cons_index (u32 (cs.(cons_e) - 1)) =? 10) then
        modify (upd_cons (fun cs => set_cons_e (u32 (cs.(cons_e) - 1)) cs)) ;;
        consputc BACKSPACE ;;
        kill_line fuel'
      else ret tt
  end.

Definition consoleintr (c : Z) : K unit :=
  acquire cons_lock ;;
  (if c =? ctrl 80 then procdump
   else if c =? ctrl 85 then
     let! cs := get k_cons in
     kill_line (S (Z.to_nat (u32 (cs.(cons_e) - cs.(cons_w)))))
   else if (c =? ctrl 72) || (c =? 127) then
     let! cs := get k_cons in
     when (negb (cs.(cons_e) =? cs.(cons_w)))
       (modify (upd_cons (fun cs => set_cons_e (u32 (cs.(cons_e) - 1)) cs)) ;;
        consputc BACKSPACE)
   else
     let! cs := get k_cons in
     when (negb (c =? 0) && (u32 (cs.(cons_e) - cs.(cons_r)) <? INPUT_BUF_SIZE))
       (let c := if c =? 13 then 10 else c in
        (* echo back to the user. *)
        consputc c ;;
        (* store for consumption by consoleread(). *)
        modify (upd_cons (fun cs =>
          set_cons_buf (<[cons_index cs.(cons_e) := u8 c]> cs.(cons_buf)) cs)) ;;
        modify (upd_cons (fun cs => set_cons_e (u32 (cs.(cons_e) + 1)) cs)) ;;
        let! cs := get k_cons in
        when ((c =? 10) || (c =? ctrl 68) ||
              (u32 (cs.(cons_e) - cs.(cons_r)) =? INPUT_BUF_SIZE))
          (modify (upd_cons (fun cs => set_cons_w cs.(cons_e) cs)) ;;
           wakeup (Some cons_r_chan)))) ;;
  release cons_lock.

Definition consoleinit : K unit :=
  initlock cons_lock ;;
  uartinit ;;
  modify (fun s => set_devsw
    (alter (set_d_read (Some DEV_CONSOLE)) (Z.to_nat CONSOLE) s.(k_devsw)) s) ;;
  modify (fun s => set_devsw
    (alter (set_d_write (Some DEV_CONSOLE)) (Z.to_nat CONSOLE) s.(k_devsw)) s).

(** ** uartintr (uart.c) *)

Fixpoint uartintr_input (fuel : nat) : K unit :=
  match fuel with
  | O => fun _ => OutOfFuel
  | S fuel' =>
      let! c := uartgetc in
      if c =? -1 then ret tt else consoleintr c ;; uartintr_input fuel'
  end.

Definition uartintr : K unit :=
  (* read and process incoming characters. *)
  let! fuel := mmio_fuel in
  uartintr_input fuel ;;
  (* send buffered characters. *)
  acquire uart_tx_lock ;;
  uartstart ;;
  release uart_tx_lock.

End Console.
