(* ===== verification/Virtio.v ===== *)
(** * The virtio disk driver (virtio_disk.c, virtio.h)

    The descriptor table and the two rings are pages of RAM, laid out as
    virtio.h says; the device reads and writes them between the driver's
    steps. The addresses of [disk.ops], of a buffer's data and of a status
    byte, which the driver gives to the device, are fixed by the linker. *)

From S2P Require Import Prelude Params Mem State Spinlock CString Kalloc Vm Proc Uart Printf.

(** ** virtio.h *)
Definition VIRTIO_MMIO_MAGIC_VALUE : Z := 0x000.
Definition VIRTIO_MMIO_VERSION : Z := 0x004.
Definition VIRTIO_MMIO_DEVICE_ID : Z := 0x008.
Definition VIRTIO_MMIO_VENDOR_ID : Z := 0x00c.
Definition VIRTIO_MMIO_DEVICE_FEATURES : Z := 0x010.
Definition VIRTIO_MMIO_DRIVER_FEATURES : Z := 0x020.
Definition VIRTIO_MMIO_QUEUE_SEL : Z := 0x030.
Definition VIRTIO_MMIO_QUEUE_NUM_MAX : Z := 0x034.
Definition VIRTIO_MMIO_QUEUE_NUM : Z := 0x038.
Definition VIRTIO_MMIO_QUEUE_READY : Z := 0x044.
Definition VIRTIO_MMIO_QUEUE_NOTIFY : Z := 0x050.
Definition VIRTIO_MMIO_INTERRUPT_STATUS : Z := 0x060.
Definition VIRTIO_MMIO_INTERRUPT_ACK : Z := 0x064.
Definition VIRTIO_MMIO_STATUS : Z := 0x070.
Definition VIRTIO_MMIO_QUEUE_DESC_LOW : Z := 0x080.
Definition VIRTIO_MMIO_QUEUE_DESC_HIGH : Z := 0x084.
Definition VIRTIO_MMIO_DRIVER_DESC_LOW : Z := 0x090.
Definition VIRTIO_MMIO_DRIVER_DESC_HIGH : Z := 0x094.
Definition VIRTIO_MMIO_DEVICE_DESC_LOW : Z := 0x0a0.
Definition VIRTIO_MMIO_DEVICE_DESC_HIGH : Z := 0x0a4.
Definition VIRTIO_CONFIG_S_ACKNOWLEDGE : Z := 1.
Definition VIRTIO_CONFIG_S_DRIVER : Z := 2.
Definition VIRTIO_CONFIG_S_DRIVER_OK : Z := 4.
Definition VIRTIO_CONFIG_S_FEATURES_OK : Z := 8.
Definition VIRTIO_BLK_F_RO : Z := 5.
Definition VIRTIO_BLK_F_SCSI : Z := 7.
Definition VIRTIO_BLK_F_CONFIG_WCE : Z := 11.
Definition VIRTIO_BLK_F_MQ : Z := 12.
Definition VIRTIO_F_ANY_LAYOUT : Z := 27.
Definition VIRTIO_RING_F_INDIRECT_DESC : Z := 28.
Definition VIRTIO_RING_F_EVENT_IDX : Z := 29.
Definition NUM : Z := 8.
Definition VRING_DESC_F_NEXT : Z := 1.
Definition VRING_DESC_F_WRITE : Z := 2.
Definition VIRTIO_BLK_T_IN : Z := 0.
Definition VIRTIO_BLK_T_OUT : Z := 1.

Definition load16 (m : memory) (a : Z) : Z := le_decode (load_bytes m a 2).
Definition store16 (m : memory) (a v : Z) : memory := store_bytes m a (le_encode 2 v).
Definition read16 (a : Z) : K Z := get (fun s => load16 s.(k_mem) a).
Definition read32 (a : Z) : K Z := get (fun s => load32 s.(k_mem) a).

(** [struct virtq_desc]: the addresses of the fields of descriptor [i]. *)
Definition desc_addr (d : Z) (i : nat) : Z := d + 16 * Z.of_nat i.
Definition desc_len (d : Z) (i : nat) : Z := d + 16 * Z.of_nat i + 8.
Definition desc_flags (d : Z) (i : nat) : Z := d + 16 * Z.of_nat i + 12.
Definition desc_next (d : Z) (i : nat) : Z := d + 16 * Z.of_nat i + 14.

(** [struct virtq_avail] and [struct virtq_used]. *)
Definition avail_idx (a : Z) : Z := a + 2.
Definition avail_ring (a i : Z) : Z := a + 4 + 2 * i.
Definition used_idx (u : Z) : Z := u + 2.
Definition used_ring_id (u i : Z) : Z := u + 4 + 8 * i.

(** Where the linker puts the objects the driver tells the device about. *)
Class DmaLayout := {
  ops_addr : nat -> Z;     (* &disk.ops[i] *)
  data_addr : nat -> Z;    (* bcache.buf[b].data *)
  status_addr : nat -> Z;  (* &disk.info[i].status *)
}.

Definition R (r : Z) : Z := VIRTIO0 + r.
Definition rd (r : Z) : K Z := mmio_read 32 (R r).
Definition wr (r v : Z) : K unit := mmio_write 32 (R r) v.

Section Virtio.
Context {I : KernelImage} {F : WaitFuel} {D : DmaLayout}.

(** [a || b || ...], evaluating the reads from left to right. *)
Fixpoint any_differs (l : list (Z * Z)) : K bool :=
  match l with
  | [] => ret false
  | (r, v) :: l' =>
      let! x := rd r in
      if negb (x =? v) then ret true else any_differs l'
  end.

Definition clear_bit (features b : Z) : Z := Z.land features (Z.lnot (Z.shiftl 1 b)).

Definition virtio_disk_init : K unit :=
  initlock vdisk_lock ;;
  let! bad := any_differs
    [(VIRTIO_MMIO_MAGIC_VALUE, 0x74726976); (VIRTIO_MMIO_VERSION, 2);
     (VIRTIO_MMIO_DEVICE_ID, 2); (VIRTIO_MMIO_VENDOR_ID, 0x554d4551)] in
  if (bad : bool) then panic "could not find virtio disk" else
  (* reset device *)
  let status := 0 in
  wr VIRTIO_MMIO_STATUS status ;;
  (* set ACKNOWLEDGE status bit *)
  let status := Z.lor status VIRTIO_CONFIG_S_ACKNOWLEDGE in
  wr VIRTIO_MMIO_STATUS status ;;
  (* set DRIVER status bit *)
  let status := Z.lor status VIRTIO_CONFIG_S_DRIVER in
  wr VIRTIO_MMIO_STATUS status ;;
  (* negotiate features *)
  let! features := rd VIRTIO_MMIO_DEVICE_FEATURES in
  let features := clear_bit features VIRTIO_BLK_F_RO in
  let features := clear_bit features VIRTIO_BLK_F_SCSI in
  let features := clear_bit features VIRTIO_BLK_F_CONFIG_WCE in
  let features := clear_bit features VIRTIO_BLK_F_MQ in
  let features := clear_bit features VIRTIO_F_ANY_LAYOUT in
  let features := clear_bit features VIRTIO_RING_F_EVENT_IDX in
  let features := clear_bit features VIRTIO_RING_F_INDIRECT_DESC in
  wr VIRTIO_MMIO_DRIVER_FEATURES features ;;
  (* tell device that feature negotiation is complete. *)
  let status := Z.lor status VIRTIO_CONFIG_S_FEATURES_OK in
  wr VIRTIO_MMIO_STATUS status ;;
  (* re-read status to ensure FEATURES_OK is set. *)
  let! status := rd VIRTIO_MMIO_STATUS in
  if negb (has status VIRTIO_CONFIG_S_FEATURES_OK) then
    panic "virtio disk FEATURES_OK unset" else
  (* initialize queue 0. *)
  wr VIRTIO_MMIO_QUEUE_SEL 0 ;;
  (* ensure queue 0 is not in use. *)
  let! ready := rd VIRTIO_MMIO_QUEUE_READY in
  if cbool ready then panic "virtio disk should not be ready" else
  (* check maximum queue size. *)
  let! max := rd VIRTIO_MMIO_QUEUE_NUM_MAX in
  if max =? 0 then panic "virtio disk has no queue 0" else
  if max <? NUM then panic "virtio disk max queue too short" else
  (* allocate and zero queue memory. *)
  let! desc := kalloc in
  modify (upd_vdisk (set_vd_desc desc)) ;;
  let! avail := kalloc in
  modify (upd_vdisk (set_vd_avail avail)) ;;
  let! used := kalloc in
  modify (upd_vdisk (set_vd_used used)) ;;
  if (desc =? 0) || (avail =? 0) || (used =? 0) then panic "virtio disk kalloc" else
  set_memory (fun m => memset m desc 0 PGSIZE) ;;
  set_memory (fun m => memset m avail 0 PGSIZE) ;;
  set_memory (fun m => memset m used 0 PGSIZE) ;;
  (* set queue size. *)
  wr VIRTIO_MMIO_QUEUE_NUM NUM ;;
  (* write physical addresses. *)
  wr VIRTIO_MMIO_QUEUE_DESC_LOW desc ;;
  wr VIRTIO_MMIO_QUEUE_DESC_HIGH (Z.shiftr desc 32) ;;
  wr VIRTIO_MMIO_DRIVER_DESC_LOW avail ;;
  wr VIRTIO_MMIO_DRIVER_DESC_HIGH (Z.shiftr avail 32) ;;
  wr VIRTIO_MMIO_DEVICE_DESC_LOW used ;;
  wr VIRTIO_MMIO_DEVICE_DESC_HIGH (Z.shiftr used 32) ;;
  (* queue is ready. *)
  wr VIRTIO_MMIO_QUEUE_READY 0x1 ;;
  (* all NUM descriptors start out unused. *)
  modify (upd_vdisk (set_vd_free (replicate (Z.to_nat NUM) true))) ;;
  (* tell device we're completely ready. *)
  let status := Z.lor status VIRTIO_CONFIG_S_DRIVER_OK in
  wr VIRTIO_MMIO_STATUS status.

(** The search of [alloc_desc] through [disk.free[i..]]. *)
Fixpoint first_free (free : list bool) (i : nat) : option nat :=
  match free with
  | [] => None
  | b :: free' => if (b : bool) then Some i else first_free free' (S i)
  end.

Definition alloc_desc : K (option nat) :=
  let! free := get (fun s => s.(k_vdisk).(vd_free)) in
  match first_free free 0 with
  | None => ret None
  | Some i =>
      modify (upd_vdisk (fun d => set_vd_free (<[i := false]> d.(vd_free)) d)) ;;
      ret (Some i)
  end.

Definition free_desc (i : nat) : K unit :=
  if Z.of_nat i >=? NUM then panic "free_desc 1" else
  let! d := get k_vdisk in
  if (d.(vd_free) !!! i : bool) then panic "free_desc 2" else
  write64 (desc_addr d.(vd_desc) i) 0 ;;
  set_memory (fun m => store32 m (desc_len d.(vd_desc) i) 0) ;;
  set_memory (fun m => store16 m (desc_flags d.(vd_desc) i) 0) ;;
  set_memory (fun m => store16 m (desc_next d.(vd_desc) i) 0) ;;
  modify (upd_vdisk (fun d => set_vd_free (<[i := true]> d.(vd_free)) d)) ;;
  wakeup (Some vdisk_free_chan).

(** [free_chain]: a descriptor is freed once, so the loop runs at most [NUM]
    times before [free_desc] panics. *)
Fixpoint free_chain_loop (fuel : nat) (i : nat) : K unit :=
  match fuel with
  | O => fun _ => OutOfFuel
  | S fuel' =>
      let! d := get (fun s => s.(k_vdisk).(vd_desc)) in
      let! flag := read16 (desc_flags d i) in
      let! nxt := read16 (desc_next d i) in
      free_desc i ;;
      if has flag VRING_DESC_F_NEXT then free_chain_loop fuel' (Z.to_nat nxt) else ret tt
  end.

Definition free_chain (i : nat) : K unit := free_chain_loop (S (Z.to_nat NUM)) i.

(** [alloc3_desc]: the three indices, or [None] with nothing allocated. *)
Fixpoint alloc3_loop (n : nat) (idx : list nat) : K (option (list nat)) :=
  match n with
  | O => ret (Some idx)
  | S n' =>
      let! i := alloc_desc in
      match i with
      | None => for_each idx free_desc ;; ret None
      | Some i => alloc3_loop n' (idx ++ [i])
      end
  end.

Definition alloc3_desc : K (option (list nat)) := alloc3_loop 3 [].

Fixpoint alloc3_wait (fuel : nat) : K (list nat) :=
  match fuel with
  | O => fun _ => OutOfFuel
  | S fuel' =>
      let! r := alloc3_desc in
      match r with
      | Some idx => ret idx
      | None => sleep vdisk_free_chan vdisk_lock ;; alloc3_wait fuel'
      end
  end.

(** Fill in descriptor [i]. *)
Definition set_desc (i : nat) (addr len flags next : Z) : K unit :=
  let! d := get (fun s => s.(k_vdisk).(vd_desc)) in
  write64 (desc_addr d i) addr ;;
  set_memory (fun m => store32 m (desc_len d i) len) ;;
  set_memory (fun m => store16 m (desc_flags d i) flags) ;;
  set_memory (fun m => store16 m (desc_next d i) next).

Definition virtio_disk_rw (b : nat) (write : bool) : K unit :=
  let! blockno := get (fun s => (buf_at s b).(b_blockno)) in
  let sector := u32 (blockno * (BSIZE / 512)) in
  acquire vdisk_lock ;;
  (* allocate the three descriptors. *)
  let! idx := alloc3_wait wait_fuel in
  let idx0 := idx !!! 0%nat in
  let idx1 := idx !!! 1%nat in
  let idx2 := idx !!! 2%nat in
  (* format the three descriptors. *)
  modify (upd_vdisk (fun d => set_vd_ops
    (<[idx0 := mkblkreq (if write then VIRTIO_BLK_T_OUT else VIRTIO_BLK_T_IN) 0 sector]>
       d.(vd_ops)) d)) ;;
  set_desc idx0 (ops_addr idx0) 16 VRING_DESC_F_NEXT (Z.of_nat idx1) ;;
  set_desc idx1 (data_addr b) BSIZE
    (Z.lor (if write then 0 else VRING_DESC_F_WRITE) VRING_DESC_F_NEXT) (Z.of_nat idx2) ;;
  modify (upd_vdisk (fun d => set_vd_info_status (<[idx0 := 0xff]> d.(vd_info_status)) d)) ;;
  set_desc idx2 (status_addr idx0) 1 VRING_DESC_F_WRITE 0 ;;
  (* record struct buf for virtio_disk_intr(). *)
  modify (upd_buf b (set_b_disk true)) ;;
  modify (upd_vdisk (fun d => set_vd_info_b (<[idx0 := Some b]> d.(vd_info_b)) d)) ;;
  (* tell the device the first index in our chain of descriptors. *)
  let! av := get (fun s => s.(k_vdisk).(vd_avail)) in
  let! ai := read16 (avail_idx av) in
  set_memory (fun m => store16 m (avail_ring av (ai mod NUM)) (Z.of_nat idx0)) ;;
  (* tell the device another avail ring entry is available. *)
  set_memory (fun m => store16 m (avail_idx av) (ai + 1)) ;;
  wr VIRTIO_MMIO_QUEUE_NOTIFY 0 ;;
  (* Wait for virtio_disk_intr() to say request has finished. *)
  sleep_while wait_fuel (get (fun s => (buf_at s b).(b_disk))) (buf_chan b) vdisk_lock ;;
  modify (upd_vdisk (fun d => set_vd_info_b (<[idx0 := None]> d.(vd_info_b)) d)) ;;
  free_chain idx0 ;;
  release vdisk_lock.

(** The loop of [virtio_disk_intr] over the new entries of the used ring. *)
Fixpoint intr_loop (fuel : nat) : K unit :=
  match fuel with
  | O => fun _ => OutOfFuel
  | S fuel' =>
      let! d := get k_vdisk in
      let! ui := read16 (used_idx d.(vd_used)) in
      if d.(vd_used_idx) =? ui then ret tt else
      let! id := read32 (used_ring_id d.(vd_used) (d.(vd_used_idx) mod NUM)) in
      if id >=? NUM then undefined else
      if negb (d.(vd_info_status) !!! Z.to_nat id =? 0) then panic "virtio_disk_intr status" else
      match d.(vd_info_b) !!! Z.to_nat id with
      | None => panic "kerneltrap"
      | Some b =>
          (* disk is done with buf *)
          modify (upd_buf b (set_b_disk false)) ;;
          wakeup (Some (buf_chan b)) ;;
          modify (upd_vdisk (fun d => set_vd_used_idx (u16 (d.(vd_used_idx) + 1)) d)) ;;
          intr_loop fuel'
      end
  end.

Definition virtio_disk_intr : K unit :=
  acquire vdisk_lock ;;
  let! st := rd VIRTIO_MMIO_INTERRUPT_STATUS in
  wr VIRTIO_MMIO_INTERRUPT_ACK (Z.land st 0x3) ;;
  let! d := get k_vdisk in
  let! ui := read16 (used_idx d.(vd_used)) in
  intr_loop (S (Z.to_nat (u16 (ui - d.(vd_used_idx))))) ;;
  release vdisk_lock.

End Virtio.
