(* ===== verification/Bio.v ===== *)
(** * The buffer cache (bio.c): definitions

    A [struct buf*] is an index into [bcache.buf]; the list head has the index
    [NBUF]. The disk driver is an interface ([BlockDev]), so that the file
    system's theorems hold for every driver that keeps its promise. *)

From S2P Require Import Prelude Params Mem State Spinlock CString Kalloc Vm Proc Sleeplock.

(** [virtio_disk_rw], as the buffer cache calls it. *)
Class BlockDev := disk_rw : nat -> bool -> K unit.

(** The head of the LRU list, and the links of a node of it. *)
Definition bhead : nat := Z.to_nat NBUF.
Definition bnext (s : kstate) (b : nat) : nat :=
  if decide (b = bhead) then snd s.(k_bhead) else (buf_at s b).(b_next).
Definition bprev (s : kstate) (b : nat) : nat :=
  if decide (b = bhead) then fst s.(k_bhead) else (buf_at s b).(b_prev).
Definition set_bnext (b v : nat) (s : kstate) : kstate :=
  if decide (b = bhead) then set_bhead (fst s.(k_bhead), v) s else upd_buf b (set_b_next v) s.
Definition set_bprev (b v : nat) (s : kstate) : kstate :=
  if decide (b = bhead) then set_bhead (v, snd s.(k_bhead)) s else upd_buf b (set_b_prev v) s.

Definition getb {A} (b : nat) (f : buf -> A) : K A := get (fun s => f (buf_at s b)).
Definition setb (b : nat) (f : buf -> buf) : K unit := modify (upd_buf b f).

(** Little-endian 32-bit words inside a block. *)
Definition get32 (data : list Z) (off : Z) : Z :=
  le_decode (take 4 (drop (Z.to_nat off) data)).
Definition splice (data : list Z) (off : Z) (bs : list Z) : list Z :=
  take (Z.to_nat off) data ++ bs ++ drop (Z.to_nat off + length bs) data.
Definition set32 (data : list Z) (off v : Z) : list Z := splice data off (le_encode 4 v).

Section Bio.
Context {I : KernelImage} {F : WaitFuel} {Disk : BlockDev}.

(** Insert [b] at the front of the list. *)
Definition blink_front (b : nat) : K unit :=
  modify (fun s => set_bnext b (bnext s bhead) s) ;;
  modify (set_bprev b bhead).

Definition binit : K unit :=
  initlock bcache_lock ;;
  modify (set_bprev bhead bhead) ;;
  modify (set_bnext bhead bhead) ;;
  for_each (seq 0 bhead) (fun b =>
    blink_front b ;;
    initsleeplock (SlBuf b) ;;
    modify (fun s => set_bprev (bnext s bhead) b s) ;;
    modify (set_bnext bhead b)).

(** The two scans of [bget]; the list has [NBUF] buffers. *)
Fixpoint bget_cached (fuel : nat) (b : nat) (dev blockno : Z) : K (option nat) :=
  match fuel with
  | O => fun _ => OutOfFuel
  | S fuel' =>
      if decide (b = bhead) then ret None else
      let! x := getb b id in
      if (x.(b_dev) =? dev) && (x.(b_blockno) =? blockno) then ret (Some b)
      else let! n := get (fun s => bnext s b) in bget_cached fuel' n dev blockno
  end.

Fixpoint bget_recycle (fuel : nat) (b : nat) : K (option nat) :=
  match fuel with
  | O => fun _ => OutOfFuel
  | S fuel' =>
      if decide (b = bhead) then ret None else
      let! x := getb b id in
      if x.(b_refcnt) =? 0 then ret (Some b)
      else let! p := get (fun s => bprev s b) in bget_recycle fuel' p
  end.

Definition bget (dev blockno : Z) : K nat :=
  acquire bcache_lock ;;
  (* Is the block already cached? *)
  let! first := get (fun s => bnext s bhead) in
  let! hit := bget_cached (S bhead) first dev blockno in
  match hit with
  | Some b =>
      setb b (fun x => set_b_refcnt (u32 (x.(b_refcnt) + 1)) x) ;;
      release bcache_lock ;;
      acquiresleep (SlBuf b) ;;
      ret b
  | None =>
      (* Recycle the least recently used (LRU) unused buffer. *)
      let! last := get (fun s => bprev s bhead) in
      let! victim := bget_recycle (S bhead) last in
      match victim with
      | Some b =>
          setb b (set_b_dev dev) ;;
          setb b (set_b_blockno blockno) ;;
          setb b (set_b_valid false) ;;
          setb b (set_b_refcnt 1) ;;
          release bcache_lock ;;
          acquiresleep (SlBuf b) ;;
          ret b
      | None => panic "bget: no buffers"
      end
  end.

Definition bread (dev blockno : Z) : K nat :=
  let! b := bget dev blockno in
  let! valid := getb b b_valid in
  when (negb valid)
    (disk_rw b false ;;
     setb b (set_b_valid true)) ;;
  ret b.

Definition bwrite (b : nat) : K unit :=
  let! h := holdingsleep (SlBuf b) in
  if negb h then panic "bwrite" else
  disk_rw b true.

Definition brelse (b : nat) : K unit :=
  let! h := holdingsleep (SlBuf b) in
  if negb h then panic "brelse" else
  releasesleep (SlBuf b) ;;
  acquire bcache_lock ;;
  setb b (fun x => set_b_refcnt (u32 (x.(b_refcnt) - 1)) x) ;;
  let! rc := getb b b_refcnt in
  when (rc =? 0)
    (* no one is waiting for it. *)
    (modify (fun s => set_bprev (bnext s b) (bprev s b) s) ;;
     modify (fun s => set_bnext (bprev s b) (bnext s b) s) ;;
     blink_front b ;;
     modify (fun s => set_bprev (bnext s bhead) b s) ;;
     modify (set_bnext bhead b)) ;;
  release bcache_lock.

Definition bpin (b : nat) : K unit :=
  acquire bcache_lock ;;
  setb b (fun x => set_b_refcnt (u32 (x.(b_refcnt) + 1)) x) ;;
  release bcache_lock.

Definition bunpin (b : nat) : K unit :=
  acquire bcache_lock ;;
  setb b (fun x => set_b_refcnt (u32 (x.(b_refcnt) - 1)) x) ;;
  release bcache_lock.

End Bio.
