(* ===== verification/Dll.v ===== *)
(** * Circular doubly linked lists

    The links of a doubly linked list as two functions, and what the pointer
    updates of the buffer cache (bio.c) do to the sequence of nodes. *)

From S2P Require Import Prelude.

Definition fupd (f : nat -> nat) (x v : nat) : nat -> nat :=
  fun y => if decide (y = x) then v else f y.

(** From [a], the nodes [l] and then [e] follow each other, in both directions. *)
Fixpoint chain (N P : nat -> nat) (a : nat) (l : list nat) (e : nat) : Prop :=
  match l with
  | [] => N a = e /\ P e = a
  | x :: l' => N a = x /\ P x = a /\ chain N P x l' e
  end.

(** Unlink [b], and insert it after [h]. *)
Definition unlink_N (N P : nat -> nat) (b : nat) : nat -> nat := fupd N (P b) (N b).
Definition unlink_P (N P : nat -> nat) (b : nat) : nat -> nat := fupd P (N b) (P b).
Definition link_N (N : nat -> nat) (h b : nat) : nat -> nat := fupd (fupd N b (N h)) h b.
Definition link_P (N P : nat -> nat) (h b : nat) : nat -> nat := fupd (fupd P b h) (N h) b.

Lemma fupd_eq f x v : fupd f x v x = v.
Proof. unfold fupd. by rewrite decide_True. Qed.

Lemma fupd_ne f x v y : y <> x -> fupd f x v y = f y.
Proof. intros H. unfold fupd. by rewrite decide_False. Qed.

Lemma chain_ext N P N' P' a l e :
  (forall x, N' x = N x) -> (forall x, P' x = P x) -> chain N P a l e -> chain N' P' a l e.
Proof.
  intros HN HP. revert a. induction l as [|x l IH]; intros a; simpl; rewrite HN, HP; [done|].
  intros (? & ? & ?). auto.
Qed.

Lemma chain_app N P a l1 x l2 e :
  chain N P a (l1 ++ x :: l2) e <-> chain N P a l1 x /\ chain N P x l2 e.
Proof.
  revert a. induction l1 as [|y l1 IH]; intros a; simpl; [tauto|]. rewrite IH. tauto.
Qed.

(** Updates at nodes that the chain does not look at. *)
Lemma chain_fupd_N N P a l e x v : x ∉ a :: l -> chain N P a l e -> chain (fupd N x v) P a l e.
Proof.
  revert a. induction l as [|y l IH]; intros a Hx; simpl.
  - rewrite fupd_ne by set_solver. done.
  - rewrite fupd_ne by set_solver. intros (? & ? & ?). split_and!; auto. apply IH; set_solver.
Qed.

Lemma chain_fupd_P N P a l e x v :
  x ∉ l -> x <> e -> chain N P a l e -> chain N (fupd P x v) a l e.
Proof.
  revert a. induction l as [|y l IH]; intros a Hx He; simpl.
  - rewrite fupd_ne by done. done.
  - rewrite fupd_ne by set_solver. intros (? & ? & ?). split_and!; auto. apply IH; set_solver.
Qed.

(** The last node of [a :: l]. *)
Fixpoint lastn (a : nat) (l : list nat) : nat :=
  match l with [] => a | x :: l' => lastn x l' end.

Lemma lastn_in a l : lastn a l ∈ a :: l.
Proof.
  revert a. induction l as [|x l IH]; intros a; simpl; [set_solver|].
  specialize (IH x). set_solver.
Qed.

(** The last node before [e], and redirecting it. *)
Lemma chain_last N P a l e : chain N P a l e -> P e = lastn a l.
Proof.
  revert a. induction l as [|x l IH]; intros a; simpl; [by intros [_ ?]|].
  intros (_ & _ & H). apply (IH x H).
Qed.

Lemma chain_retarget N P a l e v :
  NoDup (a :: l) -> v ∉ l -> chain N P a l e ->
  chain (fupd N (lastn a l) v) (fupd P v (lastn a l)) a l v.
Proof.
  revert a. induction l as [|x l IH]; intros a Hnd Hv; simpl.
  - rewrite !fupd_eq. done.
  - intros (HN & HP & Hc).
    pose proof (lastn_in x l) as Hin.
    assert (a ∉ x :: l) by (by apply NoDup_cons in Hnd as [? _]).
    assert (a <> lastn x l) by (intros E; by rewrite <- E in Hin).
    assert (x <> v) by set_solver.
    rewrite (fupd_ne N), (fupd_ne P) by done.
    split_and!; [done|done|]. apply IH; [by apply NoDup_cons in Hnd as [_ ?]|set_solver|done].
Qed.

(** The first node after [a]. *)
Lemma chain_first N P a l e : chain N P a l e -> N a = hd e l.
Proof. destruct l; simpl; tauto. Qed.

(** Unlinking [b] from a ring through [h]. *)
Lemma chain_unlink N P h l1 b l2 :
  NoDup (h :: l1 ++ b :: l2) -> chain N P h (l1 ++ b :: l2) h ->
  chain (unlink_N N P b) (unlink_P N P b) h (l1 ++ l2) h.
Proof.
  intros Hnd Hc. apply chain_app in Hc as [H1 H2].
  pose proof (chain_last _ _ _ _ _ H1) as HPb. pose proof (chain_first _ _ _ _ _ H2) as HNb.
  unfold unlink_N, unlink_P. rewrite HPb, HNb.
  assert (NoDup (h :: l1)) as Hnd1.
  { rewrite app_comm_cons in Hnd. by apply NoDup_app in Hnd as [? _]. }
  assert (forall x, x ∈ h :: l1 -> x ∉ b :: l2) as Hdis.
  { rewrite app_comm_cons in Hnd. by apply NoDup_app in Hnd as (_ & ? & _). }
  assert (NoDup (b :: l2)) as Hnd2.
  { rewrite app_comm_cons in Hnd. by apply NoDup_app in Hnd as (_ & _ & ?). }
  pose proof (lastn_in h l1) as Hlast.
  destruct l2 as [|c l2]; simpl.
  - rewrite app_nil_r. apply chain_retarget with (e := b); [done| |done].
    apply NoDup_cons in Hnd1 as [? _]. done.
  - simpl in H2. destruct H2 as (_ & _ & H2). apply chain_app. split.
    + apply chain_retarget with (e := b); [done| |done]. intros Hin. by apply (Hdis c); set_solver.
    + apply chain_fupd_N.
      { intros Hin. apply (Hdis _ Hlast). set_solver. }
      apply chain_fupd_P; [|intros ->; apply (Hdis h); set_solver|done].
      apply NoDup_cons in Hnd2 as [_ Hnd2]. by apply NoDup_cons in Hnd2 as [? _].
Qed.

(** Linking [b] in at the front of a ring through [h]. *)
Lemma chain_link N P h l b :
  NoDup (h :: l) -> b ∉ h :: l -> chain N P h l h ->
  chain (link_N N h b) (link_P N P h b) h (b :: l) h.
Proof.
  intros Hnd Hb Hc. assert (b <> h) as Hbh by set_solver.
  pose proof (chain_first _ _ _ _ _ Hc) as HNh. unfold link_N, link_P. rewrite HNh.
  simpl. rewrite fupd_eq.
  destruct l as [|c l]; simpl.
  - simpl in Hc. rewrite (fupd_ne (fupd P b h)), fupd_eq by done.
    rewrite (fupd_ne (fupd N b h)), !fupd_eq by done. done.
  - simpl in Hc. destruct Hc as (_ & _ & Hc).
    assert (b <> c) by set_solver.
    rewrite (fupd_ne (fupd P b h)), fupd_eq by done.
    rewrite (fupd_ne (fupd N b c)), !fupd_eq by done.
    split_and!; [done..|].
    assert (h ∉ c :: l) by (by apply NoDup_cons in Hnd as [? _]).
    apply chain_fupd_N; [done|]. apply chain_fupd_N; [set_solver|].
    apply chain_fupd_P; [|set_solver|apply chain_fupd_P; [set_solver|done|done]].
    apply NoDup_cons in Hnd as [_ Hnd]. by apply NoDup_cons in Hnd as [? _].
Qed.
