(* ===== verification/BioSpec.v ===== *)
(** * The buffer cache (bio.c): invariant and specification

    [bc p s V R held]: the cache of state [s] represents the block contents
    [V] (what [bread] delivers), the reference counts [R] and the blocks
    [held], with their buffers, that process [p] has locked. The contents of a
    block may differ from the disk's only while the block is referenced, so
    recycling a buffer loses nothing.

    The disk driver is any implementation of the interface [DiskOk]. *)

From S2P Require Import Prelude Params Mem State Spinlock CString Kalloc Vm Proc ProcSpec Sleeplock.
From S2P Require Import Sleeplock Dll Bio.

(** ** What the cache expects of a disk driver *)

(** The process runs, and sleeps on nothing. *)
Definition running (p : nat) (s : kstate) : Prop :=
  (proc_at s p).(p_state) = RUNNING /\ (proc_at s p).(p_chan) = None.

(** The locks the cache and the driver take are free. *)
Record bio_free (L : gmap lockid Z) : Prop := {
  bf_bcache : L !! bcache_lock = None;
  bf_buf : forall b, L !! buf_sleep_lock b = None;
  bf_vdisk : L !! vdisk_lock = None;
}.

(** The pages the driver shares with the device. *)
Definition disk_mem (s : kstate) (x : Z) : Prop :=
  in_page s.(k_vdisk).(vd_desc) x \/ in_page s.(k_vdisk).(vd_avail) x \/
  in_page s.(k_vdisk).(vd_used) x.

Definition same_queue (s s' : kstate) : Prop :=
  s'.(k_vdisk).(vd_desc) = s.(k_vdisk).(vd_desc) /\
  s'.(k_vdisk).(vd_avail) = s.(k_vdisk).(vd_avail) /\
  s'.(k_vdisk).(vd_used) = s.(k_vdisk).(vd_used).

(** [s'] is [s] but for the driver's own state, and processes woken up. *)
Definition drv_frame (p : nat) (s s' : kstate) : Prop :=
  s' = set_procs s'.(k_procs) (set_mem s'.(k_mem) (set_vdisk s'.(k_vdisk)
         (set_mmio_in s'.(k_mmio_in) (set_mmio_out s'.(k_mmio_out) s)))) /\
  woken p s.(k_procs) s'.(k_procs) /\ changed_in (disk_mem s) s.(k_mem) s'.(k_mem) /\
  same_queue s s'.

Definition disk_at (s : kstate) (n : Z) : list Z := s.(k_disk) !!! n.

(** A driver whose requests complete: it reads and writes the block named by
    the buffer, and keeps an invariant of its own that nobody else touches. The
    request is one operation: the process is back from its sleep, and the others have
    done nothing but to be woken up. *)
Class DiskOk (Disk : BlockDev) : Type := {
  disk_inv : kstate -> Prop;
  disk_inv_ext : forall s t, disk_inv s -> t.(k_mem) = s.(k_mem) ->
    t.(k_vdisk) = s.(k_vdisk) -> t.(k_mmio_in) = s.(k_mmio_in) ->
    t.(k_mmio_out) = s.(k_mmio_out) -> disk_inv t;
  disk_read : forall p s b, calm p s -> running p s -> bio_free s.(k_locks) ->
    s.(k_hart).(c_noff) = 0 -> disk_inv s -> (b < length s.(k_bufs))%nat ->
    (buf_at s b).(b_disk) = false ->
    exists s', disk_rw b false s = Ret tt s' /\ disk_inv s' /\
      drv_frame p (upd_buf b (set_b_data (disk_at s (buf_at s b).(b_blockno))) s) s';
  disk_write : forall p s b, calm p s -> running p s -> bio_free s.(k_locks) ->
    s.(k_hart).(c_noff) = 0 -> disk_inv s -> (b < length s.(k_bufs))%nat ->
    (buf_at s b).(b_disk) = false ->
    exists s', disk_rw b true s = Ret tt s' /\ disk_inv s' /\
      drv_frame p
        (set_disk (<[(buf_at s b).(b_blockno) := (buf_at s b).(b_data)]> s.(k_disk))
          (set_diskwrites (((buf_at s b).(b_blockno), (buf_at s b).(b_data)) :: s.(k_diskwrites))
             s)) s';
}.

(** A driver whose invariant is about its own state and the pages it shares with the
    device: it survives writes to other memory and to other devices. *)
Class DiskLocal (Disk : BlockDev) {DO : DiskOk Disk} : Prop :=
  disk_inv_local : forall s t, disk_inv s ->
    (forall x, disk_mem s x -> load8 t.(k_mem) x = load8 s.(k_mem) x) ->
    t.(k_vdisk) = s.(k_vdisk) -> disk_inv t.

(** ** The invariant of the cache *)

(** A buffer without its links. *)
Definition core (x : buf) : buf := set_b_prev 0 (set_b_next 0 x).
Definition btable (s : kstate) (b : nat) : buf := core (buf_at s b).

(** Buffer [b] is for block [n]. *)
Definition isb (B : nat -> buf) (b : nat) (n : Z) : Prop :=
  (b < bhead)%nat /\ (B b).(b_dev) = ROOTDEV /\ (B b).(b_blockno) = n.

(** The buffers hold the contents [V] of the blocks, with [R] references,
    over a disk [D]. A buffer that was never used belongs to device 0. *)
Record btab (B : nat -> buf) (D V : Z -> list Z) (R : Z -> Z) (held : list (Z * nat)) (pid : Z) :
    Prop := {
  bt_dev : forall b, (b < bhead)%nat -> (B b).(b_dev) = ROOTDEV \/
    ((B b).(b_dev) = 0 /\ (B b).(b_refcnt) = 0);
  bt_uniq : forall b b' n, isb B b n -> isb B b' n -> b = b';
  bt_valid : forall b n, isb B b n -> (B b).(b_valid) = true /\ (B b).(b_data) = V n;
  bt_ref : forall b n, isb B b n -> (B b).(b_refcnt) = R n;
  bt_zero : forall n, (forall b, ~ isb B b n) -> R n = 0;
  bt_range : forall n, 0 <= R n < 2 ^ 31;
  bt_clean : forall n, V n = D n \/ 0 < R n;
  bt_held : forall n b, (n, b) ∈ held -> isb B b n /\ 0 < R n;
  bt_nodup : NoDup held.*1;
  bt_lock : forall b, (b < bhead)%nat ->
    if decide (b ∈ held.*2) then (B b).(b_lock) = mksleeplock true pid
    else (B b).(b_lock).(sl_locked) = false;
  bt_disk : forall b, (b < bhead)%nat -> (B b).(b_disk) = false;
}.

Definition ring (s : kstate) (bl : list nat) : Prop :=
  bl ≡ₚ seq 0 bhead /\ chain (bnext s) (bprev s) bhead bl bhead.

Record bc `{DiskOk} (p : nat) (s : kstate) (V : Z -> list Z) (R : Z -> Z)
    (held : list (Z * nat)) : Prop := {
  bc_len : length s.(k_bufs) = bhead;
  bc_ring : exists bl, ring s bl;
  bc_tab : btab (btable s) (disk_at s) V R held (mypid p s);
  bc_calm : calm p s;
  bc_running : running p s;
  bc_inv : disk_inv s;
}.

(** What an operation of the cache leaves alone. *)
Definition bio_frame (p : nat) (s s' : kstate) : Prop :=
  s' = set_bufs s'.(k_bufs) (set_bhead s'.(k_bhead) (set_disk s'.(k_disk)
         (set_diskwrites s'.(k_diskwrites) (set_procs s'.(k_procs) (set_mem s'.(k_mem)
           (set_vdisk s'.(k_vdisk) (set_mmio_in s'.(k_mmio_in)
             (set_mmio_out s'.(k_mmio_out) s)))))))) /\
  woken p s.(k_procs) s'.(k_procs) /\ changed_in (disk_mem s) s.(k_mem) s'.(k_mem) /\
  same_queue s s'.

Definition zupd {A} (f : Z -> A) (n : Z) (v : A) : Z -> A :=
  fun m => if decide (m = n) then v else f m.
Definition bupd (B : nat -> buf) (b : nat) (f : buf -> buf) : nat -> buf :=
  fun x => if decide (x = b) then f (B x) else B x.

(** ** Lemmas on the table *)

Lemma zupd_eq {A} (f : Z -> A) n v : zupd f n v n = v.
Proof. unfold zupd. by rewrite decide_True. Qed.
Lemma zupd_ne {A} (f : Z -> A) n v m : m <> n -> zupd f n v m = f m.
Proof. intros H. unfold zupd. by rewrite decide_False. Qed.
Lemma bupd_eq B b f : bupd B b f b = f (B b).
Proof. unfold bupd. by rewrite decide_True. Qed.
Lemma bupd_ne B b f x : x <> b -> bupd B b f x = B x.
Proof. intros H. unfold bupd. by rewrite decide_False. Qed.

(** An update that leaves the identity of the buffers alone. *)
Lemma isb_bupd B b f x n :
  (f (B b)).(b_dev) = (B b).(b_dev) -> (f (B b)).(b_blockno) = (B b).(b_blockno) ->
  isb (bupd B b f) x n <-> isb B x n.
Proof.
  intros H1 H2. unfold isb. destruct (decide (x = b)) as [->|Hx].
  - by rewrite bupd_eq, H1, H2.
  - by rewrite bupd_ne.
Qed.

Ltac btab_cases x b :=
  destruct (decide (x = b)) as [->|?]; [rewrite ?bupd_eq in *|rewrite ?bupd_ne in * by done].

Lemma held_ref B D V R held pid b n :
  btab B D V R held pid -> (n, b) ∈ held -> (B b).(b_refcnt) = R n /\ 0 < R n.
Proof. intros H Hin. destruct (bt_held _ _ _ _ _ _ H _ _ Hin) as [Hb ?]. split; [|done]. by eapply bt_ref. Qed.

Lemma held_snd B D V R held pid b n :
  btab B D V R held pid -> isb B b n -> b ∈ held.*2 -> (n, b) ∈ held.
Proof.
  intros H Hb Hin. apply list_elem_of_fmap in Hin as ([m b'] & -> & Hin). simpl in *.
  destruct (bt_held _ _ _ _ _ _ H _ _ Hin) as [(_ & _ & Hm) _].
  destruct Hb as (_ & _ & <-). by rewrite Hm.
Qed.

Lemma btab_miss B D V R held pid b n :
  btab B D V R held pid -> (forall x, ~ isb B x n) -> (b < bhead)%nat -> (B b).(b_refcnt) = 0 ->
  btab (bupd B b (fun x => set_b_valid true (set_b_data (D n)
         (set_b_lock (mksleeplock true pid) (set_b_refcnt 1 (set_b_valid false
           (set_b_blockno n (set_b_dev ROOTDEV x))))))))
    D V (zupd R n 1) ((n, b) :: held) pid.
Proof.
  intros H Hno Hb Href. set (f := fun x : buf => _).
  assert (forall m, ~ (m, b) ∈ held) as Hnh.
  { intros m Hin. destruct (held_ref _ _ _ _ _ _ _ _ H Hin). lia. }
  assert (isb (bupd B b f) b n) as Hbn by (unfold isb; by rewrite bupd_eq).
  assert (forall x m, x <> b -> isb (bupd B b f) x m <-> isb B x m) as Hisb.
  { intros x m Hx. unfold isb. by rewrite bupd_ne. }
  assert (R n = 0) as HRn by (by apply (bt_zero _ _ _ _ _ _ H)).
  assert (V n = D n) as HVn by (destruct (bt_clean _ _ _ _ _ _ H n); [done|lia]).
  assert (forall x m, isb (bupd B b f) x m -> x = b /\ m = n \/ x <> b /\ isb B x m) as Hcase.
  { intros x m Hx. destruct (decide (x = b)) as [->|Hne]; [left|right; by rewrite <- Hisb].
    split; [done|]. destruct Hx as (_ & _ & <-). by rewrite bupd_eq. }
  assert (forall x m, x <> b -> isb B x m -> m <> n) as Hmn.
  { intros x m _ Hx ->. by apply (Hno x). }
  constructor.
  - intros x Hx. btab_cases x b; [by left|by apply H].
  - intros x y m Hx%Hcase Hy%Hcase.
    destruct Hx as [[-> ->]|[Hx1 Hx2]], Hy as [[-> Ey]|[Hy1 Hy2]].
    + done.
    + by destruct (Hno y).
    + subst m. by destruct (Hno x).
    + by eapply H.
  - intros x m [[-> ->]|[Hx1 Hx2]]%Hcase.
    + rewrite bupd_eq. by rewrite HVn.
    + rewrite bupd_ne by done. by apply H.
  - intros x m [[-> ->]|[Hx1 Hx2]]%Hcase.
    + rewrite bupd_eq. by rewrite zupd_eq.
    + rewrite bupd_ne by done. rewrite zupd_ne by (by eapply Hmn). by apply H.
  - intros m Hm. rewrite zupd_ne by (intros ->; by apply (Hm b)).
    destruct (decide ((B b).(b_dev) = ROOTDEV /\ (B b).(b_blockno) = m)) as [[E1 E2]|E].
    + rewrite <- (bt_ref _ _ _ _ _ _ H b m) by done. done.
    + apply H. intros x Hx. destruct (decide (x = b)) as [->|Hne]; [apply E; by destruct Hx|].
      apply (Hm x). by rewrite Hisb.
  - intros m. unfold zupd. case_decide; [lia|apply H].
  - intros m. unfold zupd. case_decide; [right; lia|]. apply H.
  - intros m x. rewrite elem_of_cons. intros [[= -> ->]|Hin].
    + split; [done|]. by rewrite zupd_eq.
    + destruct (bt_held _ _ _ _ _ _ H _ _ Hin) as [Hx Hr].
      assert (x <> b) by (intros ->; by apply (Hnh m)).
      split; [by rewrite Hisb|]. rewrite zupd_ne by (by eapply Hmn). done.
  - cbn. constructor; [|apply H]. intros Hin. apply list_elem_of_fmap in Hin as ([m x] & -> & Hin).
    destruct (bt_held _ _ _ _ _ _ H _ _ Hin) as [Hx _]. by apply (Hno x).
  - intros x Hx. cbn. btab_cases x b.
    + rewrite decide_True by set_solver. done.
    + pose proof (bt_lock _ _ _ _ _ _ H x Hx) as Hl. repeat case_decide; set_solver.
  - intros x Hx. btab_cases x b; by apply H.
Qed.

Lemma btab_data B D V R held pid b n d :
  btab B D V R held pid -> (n, b) ∈ held ->
  btab (bupd B b (set_b_data d)) D (zupd V n d) R held pid.
Proof.
  intros H Hin. destruct (bt_held _ _ _ _ _ _ H _ _ Hin) as [Hb Hr].
  assert (forall x m, isb (bupd B b (set_b_data d)) x m <-> isb B x m) as Hisb
    by (intros; by apply isb_bupd).
  constructor.
  - intros x Hx. btab_cases x b; by apply H.
  - intros x y m. rewrite !Hisb. apply H.
  - intros x m. rewrite Hisb. intros Hx. btab_cases x b.
    + assert (m = n) as -> by (destruct Hx as (_ & _ & <-); apply Hb).
      rewrite zupd_eq. split; [|done]. by apply (bt_valid _ _ _ _ _ _ H _ _ Hb).
    + rewrite zupd_ne; [by apply H|]. intros ->. by pose proof (bt_uniq _ _ _ _ _ _ H _ _ _ Hx Hb).
  - intros x m. rewrite Hisb. intros Hx. btab_cases x b; by apply H.
  - intros m Hm. apply H. intros x. rewrite <- Hisb. apply Hm.
  - apply H.
  - intros m. destruct (decide (m = n)) as [->|]; [by right|]. rewrite zupd_ne by done. apply H.
  - intros m x Hx. rewrite Hisb. by apply H.
  - apply H.
  - intros x Hx. pose proof (bt_lock _ _ _ _ _ _ H x Hx). btab_cases x b; done.
  - intros x Hx. btab_cases x b; by apply H.
Qed.

(** Writing a block to the disk. *)
Lemma btab_write B D D' V R held pid n :
  btab B D V R held pid -> (forall m, D' m = if decide (m = n) then V n else D m) ->
  btab B D' V R held pid.
Proof.
  intros H HD. destruct H. constructor; try done. intros m. rewrite HD.
  case_decide; [left; by subst|]. auto.
Qed.

(** A change of a reference count to [r], of the lock of the buffer, and of
    whether the buffer is held. *)
Lemma btab_ref B D V R held held' pid b n r l :
  btab B D V R held pid -> isb B b n -> 0 <= r < 2 ^ 31 -> (r = 0 -> V n = D n) ->
  ((n, b) ∈ held' -> 0 < r) ->
  (forall x m, x <> b -> (m, x) ∈ held' <-> (m, x) ∈ held) ->
  (forall m, (m, b) ∈ held' -> m = n) -> NoDup held'.*1 ->
  (if decide (b ∈ held'.*2) then l = mksleeplock true pid else l.(sl_locked) = false) ->
  btab (bupd B b (fun x => set_b_lock l (set_b_refcnt r x))) D V (zupd R n r) held' pid.
Proof.
  intros H Hb Hr Hcl Hh Hsame Hone Hnd Hl. set (f := fun x : buf => _).
  assert (forall x m, isb (bupd B b f) x m <-> isb B x m) as Hisb by (intros; by apply isb_bupd).
  constructor.
  - intros x Hx. btab_cases x b; [left; apply Hb|by apply H].
  - intros x y m. rewrite !Hisb. apply H.
  - intros x m. rewrite Hisb. intros Hx. btab_cases x b; by apply H.
  - intros x m. rewrite Hisb. intros Hx. btab_cases x b.
    + assert (m = n) as -> by (destruct Hx as (_ & _ & <-); apply Hb). by rewrite zupd_eq.
    + rewrite zupd_ne; [by apply H|]. intros ->. by pose proof (bt_uniq _ _ _ _ _ _ H _ _ _ Hx Hb).
  - intros m Hm. rewrite zupd_ne.
    + apply H. intros x. rewrite <- Hisb. apply Hm.
    + intros ->. apply (Hm b). by rewrite Hisb.
  - intros m. unfold zupd. destruct (decide (m = n)); [lia|apply H].
  - intros m. unfold zupd. destruct (decide (m = n)) as [->|]; [|apply H].
    destruct (decide (r = 0)); [left; auto|right; lia].
  - intros m x Hin. rewrite Hisb. destruct (decide (x = b)) as [->|Hx].
    + assert (m = n) as -> by auto. rewrite zupd_eq. auto.
    + apply Hsame in Hin; [|done]. destruct (bt_held _ _ _ _ _ _ H _ _ Hin) as [Hxm Hr0].
      split; [done|]. rewrite zupd_ne; [done|]. intros ->.
      by rewrite (bt_uniq _ _ _ _ _ _ H _ _ _ Hb Hxm) in Hx.
  - done.
  - intros x Hx. btab_cases x b; [done|].
    pose proof (bt_lock _ _ _ _ _ _ H x Hx) as Hlx.
    destruct (decide (x ∈ held'.*2)) as [E|E], (decide (x ∈ held.*2)) as [E'|E']; try done.
    + destruct E'. apply list_elem_of_fmap in E as ([m y] & -> & Hy). apply list_elem_of_fmap.
      exists (m, y). split; [done|]. by apply Hsame.
    + destruct E. apply list_elem_of_fmap in E' as ([m y] & -> & Hy). apply list_elem_of_fmap.
      exists (m, y). split; [done|]. by apply Hsame.
  - intros x Hx. btab_cases x b; by apply H.
Qed.

Lemma btab_ext B B' D D' V V' R R' held pid :
  (forall x, (x < bhead)%nat -> B' x = B x) -> (forall n, D' n = D n) -> (forall n, V' n = V n) ->
  (forall n, R' n = R n) -> btab B D V R held pid -> btab B' D' V' R' held pid.
Proof.
  intros HB HD HV HR H.
  assert (forall x n, isb B' x n <-> isb B x n) as Hisb.
  { intros x n. unfold isb. split; intros (Hx & H1 & H2); by rewrite HB in *. }
  constructor.
  - intros b Hb. rewrite HB by done. by apply H.
  - intros b b' n. rewrite !Hisb. apply H.
  - intros b n. rewrite Hisb. intros Hb. rewrite HB, HV by apply Hb. by apply H.
  - intros b n. rewrite Hisb. intros Hb. rewrite HB, HR by apply Hb. by apply H.
  - intros n Hn. rewrite HR. apply H. intros b. rewrite <- Hisb. apply Hn.
  - intros n. rewrite HR. apply H.
  - intros n. rewrite HV, HD, HR. apply H.
  - intros n b Hin. rewrite Hisb, HR. by apply H.
  - apply H.
  - intros b Hb. rewrite HB by done. by apply H.
  - intros b Hb. rewrite HB by done. by apply H.
Qed.

(** The held blocks may be listed in any order. *)
Lemma btab_perm B D V R held held' pid :
  held ≡ₚ held' -> btab B D V R held pid -> btab B D V R held' pid.
Proof.
  intros Hp [? ? ? ? ? ? ? Hh Hn Hl ?]. constructor; try done.
  - intros n b. rewrite <- Hp. apply Hh.
  - by rewrite <- Hp.
  - intros b Hb. specialize (Hl b Hb). destruct (decide (b ∈ held.*2)) as [E|E];
      [rewrite decide_True by (by rewrite <- Hp)|rewrite decide_False by (by rewrite <- Hp)]; done.
Qed.

(** ** Lemmas on the links *)

Lemma buf_at_upd_eq s b f :
  (b < length s.(k_bufs))%nat -> buf_at (upd_buf b f s) b = f (buf_at s b).
Proof. apply lookup_total_alter_eq. Qed.

Lemma buf_at_upd_ne s b f x : x <> b -> buf_at (upd_buf b f s) x = buf_at s x.
Proof. intros H. apply lookup_total_alter_ne. done. Qed.

Lemma upd_buf_oob s b f : (length s.(k_bufs) <= b)%nat -> upd_buf b f s = s.
Proof.
  intros H. unfold upd_buf. rewrite alter_id_same; [done|].
  intros x Hx%lookup_lt_Some. lia.
Qed.

Lemma btable_upd s b f x :
  (b < length s.(k_bufs))%nat -> (forall y, core (f y) = f (core y)) ->
  btable (upd_buf b f s) x = bupd (btable s) b f x.
Proof.
  intros Hb Hf. unfold btable. destruct (decide (x = b)) as [->|Hx].
  - by rewrite buf_at_upd_eq, bupd_eq, Hf.
  - by rewrite buf_at_upd_ne, bupd_ne.
Qed.

Lemma chain_state s t l :
  t.(k_bhead) = s.(k_bhead) ->
  (forall x, (buf_at t x).(b_next) = (buf_at s x).(b_next) /\
             (buf_at t x).(b_prev) = (buf_at s x).(b_prev)) ->
  ring s l -> ring t l.
Proof.
  intros Hh Hl [Hp Hc]. split; [done|]. revert Hc. apply chain_ext; intros x; unfold bnext, bprev;
    rewrite Hh; destruct (Hl x) as [H1 H2]; by rewrite ?H1, ?H2.
Qed.

(** An update of a buffer that leaves its links alone. *)
Lemma ring_upd_buf s b f l :
  (forall y, (f y).(b_next) = y.(b_next) /\ (f y).(b_prev) = y.(b_prev)) ->
  ring s l -> ring (upd_buf b f s) l.
Proof.
  intros Hf. apply chain_state; [done|]. intros x. destruct (decide (x = b)) as [->|Hx].
  - destruct (decide (b < length s.(k_bufs))%nat) as [Hb|Hb].
    + rewrite buf_at_upd_eq by done. apply Hf.
    + by rewrite upd_buf_oob by lia.
  - by rewrite buf_at_upd_ne.
Qed.

Lemma bnext_set_bnext s a v x :
  length s.(k_bufs) = bhead -> (a <= bhead)%nat ->
  bnext (set_bnext a v s) x = fupd (bnext s) a v x.
Proof.
  intros Hl Ha. unfold set_bnext, fupd, bnext. destruct (decide (a = bhead)) as [->|Hne].
  - destruct (decide (x = bhead)); done.
  - destruct (decide (x = bhead)) as [->|Hx]; [by rewrite decide_False by done|].
    destruct (decide (x = a)) as [->|Hxa].
    + by rewrite buf_at_upd_eq by lia.
    + by rewrite buf_at_upd_ne.
Qed.

Lemma bprev_set_bnext s a v x : bprev (set_bnext a v s) x = bprev s x.
Proof.
  unfold set_bnext, bprev. destruct (decide (a = bhead)) as [->|Hne]; [done|].
  destruct (decide (x = bhead)); [done|]. destruct (decide (x = a)) as [->|Hx].
  - destruct (decide (a < length s.(k_bufs))%nat).
    + by rewrite buf_at_upd_eq.
    + by rewrite upd_buf_oob by lia.
  - by rewrite buf_at_upd_ne.
Qed.

Lemma bprev_set_bprev s a v x :
  length s.(k_bufs) = bhead -> (a <= bhead)%nat ->
  bprev (set_bprev a v s) x = fupd (bprev s) a v x.
Proof.
  intros Hl Ha. unfold set_bprev, fupd, bprev. destruct (decide (a = bhead)) as [->|Hne].
  - destruct (decide (x = bhead)); done.
  - destruct (decide (x = bhead)) as [->|Hx]; [by rewrite decide_False by done|].
    destruct (decide (x = a)) as [->|Hxa].
    + by rewrite buf_at_upd_eq by lia.
    + by rewrite buf_at_upd_ne.
Qed.

Lemma bnext_set_bprev s a v x : bnext (set_bprev a v s) x = bnext s x.
Proof.
  unfold set_bprev, bnext. destruct (decide (a = bhead)) as [->|Hne]; [done|].
  destruct (decide (x = bhead)); [done|]. destruct (decide (x = a)) as [->|Hx].
  - destruct (decide (a < length s.(k_bufs))%nat).
    + by rewrite buf_at_upd_eq.
    + by rewrite upd_buf_oob by lia.
  - by rewrite buf_at_upd_ne.
Qed.

Lemma btable_set_bnext s a v x : btable (set_bnext a v s) x = btable s x.
Proof.
  unfold set_bnext, btable. destruct (decide (a = bhead)); [done|].
  destruct (decide (x = a)) as [->|Hx]; [|by rewrite buf_at_upd_ne].
  destruct (decide (a < length s.(k_bufs))%nat).
  - by rewrite buf_at_upd_eq.
  - by rewrite upd_buf_oob by lia.
Qed.

Lemma btable_set_bprev s a v x : btable (set_bprev a v s) x = btable s x.
Proof.
  unfold set_bprev, btable. destruct (decide (a = bhead)); [done|].
  destruct (decide (x = a)) as [->|Hx]; [|by rewrite buf_at_upd_ne].
  destruct (decide (a < length s.(k_bufs))%nat).
  - by rewrite buf_at_upd_eq.
  - by rewrite upd_buf_oob by lia.
Qed.

Lemma length_set_bnext s a v : length (set_bnext a v s).(k_bufs) = length s.(k_bufs).
Proof. unfold set_bnext. destruct (decide (a = bhead)); [done|]. apply length_alter. Qed.

Lemma length_set_bprev s a v : length (set_bprev a v s).(k_bufs) = length s.(k_bufs).
Proof. unfold set_bprev. destruct (decide (a = bhead)); [done|]. apply length_alter. Qed.

(** A change of links only: [t] is [s] but for the links of the buffers. *)
Definition relinked (s t : kstate) : Prop :=
  t = set_bufs t.(k_bufs) (set_bhead t.(k_bhead) s) /\
  length t.(k_bufs) = length s.(k_bufs) /\ forall x, btable t x = btable s x.

Lemma relinked_refl s : relinked s s.
Proof. done. Qed.

Lemma relinked_trans s t u : relinked s t -> relinked t u -> relinked s u.
Proof.
  intros (E1 & L1 & B1) (E2 & L2 & B2). split_and!; [|congruence|].
  - transitivity (set_bufs u.(k_bufs) (set_bhead u.(k_bhead) t)); [done|]. by rewrite E1.
  - intros x. by rewrite B2.
Qed.

Lemma relinked_set_bnext s a v : relinked s (set_bnext a v s).
Proof.
  split_and!; [|apply length_set_bnext|intros; apply btable_set_bnext].
  unfold set_bnext. by destruct (decide (a = bhead)).
Qed.

Lemma relinked_set_bprev s a v : relinked s (set_bprev a v s).
Proof.
  split_and!; [|apply length_set_bprev|intros; apply btable_set_bprev].
  unfold set_bprev. by destruct (decide (a = bhead)).
Qed.

(** The last four assignments of [brelse], and of an iteration of [binit]. *)
Definition link_front (b : nat) (s : kstate) : kstate :=
  let s1 := set_bprev b bhead (set_bnext b (bnext s bhead) s) in
  set_bnext bhead b (set_bprev (bnext s1 bhead) b s1).

Definition unlink (b : nat) (s : kstate) : kstate :=
  let s1 := set_bprev (bnext s b) (bprev s b) s in
  set_bnext (bprev s1 b) (bnext s1 b) s1.

Lemma relinked_link_front b s : relinked s (link_front b s).
Proof.
  unfold link_front. eapply relinked_trans; [|apply relinked_set_bnext].
  eapply relinked_trans; [|apply relinked_set_bprev].
  eapply relinked_trans; [apply relinked_set_bnext|apply relinked_set_bprev].
Qed.

Lemma relinked_unlink b s : relinked s (unlink b s).
Proof. eapply relinked_trans; [apply relinked_set_bprev|apply relinked_set_bnext]. Qed.

Lemma link_front_chain b s l :
  length s.(k_bufs) = bhead -> (b < bhead)%nat -> NoDup (bhead :: l) -> b ∉ l ->
  (forall x, x ∈ l -> (x < bhead)%nat) ->
  chain (bnext s) (bprev s) bhead l bhead ->
  chain (bnext (link_front b s)) (bprev (link_front b s)) bhead (b :: l) bhead.
Proof.
  intros Hlen Hb Hnd Hbl Hl Hc.
  assert (b ∉ bhead :: l) as Hb2 by (rewrite elem_of_cons; intros [?|?]; [lia|done]).
  apply (chain_ext _ _ _ _ _ _ _) with (3 := chain_link _ _ _ _ b Hnd Hb2 Hc).
  - intros x. unfold link_front. set (s1 := set_bprev b bhead _).
    assert (length s1.(k_bufs) = bhead) as Hl1.
    { unfold s1. by rewrite length_set_bprev, length_set_bnext. }
    rewrite bnext_set_bnext; [|by rewrite length_set_bprev|lia].
    unfold link_N, fupd at 1. unfold fupd at 1. destruct (decide (x = bhead)); [done|].
    rewrite bnext_set_bprev. unfold s1. rewrite bnext_set_bprev.
    by rewrite bnext_set_bnext by lia.
  - intros x. unfold link_front. set (s1 := set_bprev b bhead _).
    assert (length s1.(k_bufs) = bhead) as Hl1.
    { unfold s1. by rewrite length_set_bprev, length_set_bnext. }
    assert (bnext s1 bhead = bnext s bhead) as Hn.
    { unfold s1. rewrite bnext_set_bprev, bnext_set_bnext by lia. apply fupd_ne. lia. }
    rewrite bprev_set_bnext, Hn.
    assert (bnext s bhead <= bhead)%nat as Hle.
    { rewrite (chain_first _ _ _ _ _ Hc). destruct l as [|y l]; simpl; [lia|].
      specialize (Hl y ltac:(set_solver)). lia. }
    rewrite bprev_set_bprev by lia. unfold link_P, fupd at 1. unfold fupd at 1.
    destruct (decide (x = bnext s bhead)); [done|].
    unfold s1. rewrite bprev_set_bprev by (rewrite ?length_set_bnext; lia).
    unfold fupd. destruct (decide (x = b)); [done|]. apply bprev_set_bnext.
Qed.

Lemma unlink_chain b s l1 l2 :
  length s.(k_bufs) = bhead -> NoDup (bhead :: l1 ++ b :: l2) ->
  (forall x, x ∈ l1 ++ b :: l2 -> (x < bhead)%nat) ->
  chain (bnext s) (bprev s) bhead (l1 ++ b :: l2) bhead ->
  chain (bnext (unlink b s)) (bprev (unlink b s)) bhead (l1 ++ l2) bhead.
Proof.
  intros Hlen Hnd Hl Hc. pose proof (chain_unlink _ _ _ _ _ _ Hnd Hc) as Hu.
  apply chain_app in Hc as [H1 H2].
  assert (bprev s b <= bhead)%nat as Hp.
  { rewrite (chain_last _ _ _ _ _ H1). pose proof (lastn_in bhead l1) as Hin.
    apply elem_of_cons in Hin as [->|Hin]; [lia|]. specialize (Hl (lastn bhead l1) ltac:(set_solver)). lia. }
  assert (bnext s b <= bhead)%nat as Hn.
  { rewrite (chain_first _ _ _ _ _ H2). destruct l2 as [|y l2]; simpl; [lia|].
    specialize (Hl y ltac:(set_solver)). lia. }
  revert Hu. unfold unlink. set (s1 := set_bprev _ _ s).
  assert (length s1.(k_bufs) = bhead) as Hl1 by (unfold s1; by rewrite length_set_bprev).
  assert (bprev s1 b = bprev s b) as Hpb.
  { unfold s1. rewrite bprev_set_bprev by done. unfold fupd. by destruct (decide _). }
  assert (forall x, bnext s1 x = bnext s x) as Hn1 by (intros; apply bnext_set_bprev).
  apply chain_ext; intros x.
  - rewrite bnext_set_bnext by (rewrite ?Hpb; done). unfold unlink_N, fupd. by rewrite Hpb, !Hn1.
  - rewrite bprev_set_bnext. unfold s1. by rewrite bprev_set_bprev.
Qed.

(** Moving a buffer to the front of the list. *)
Lemma move_front_ring b s bl :
  length s.(k_bufs) = bhead -> (b < bhead)%nat -> ring s bl ->
  exists bl', ring (link_front b (unlink b s)) bl'.
Proof.
  intros Hlen Hb [Hp Hc].
  assert (NoDup bl) as Hnd by (rewrite Hp; apply NoDup_seq).
  assert (b ∈ bl) as Hin by (rewrite Hp, elem_of_seq; lia).
  assert (forall x, x ∈ bl -> (x < bhead)%nat) as Hlt by (intros x; rewrite Hp, elem_of_seq; lia).
  apply list_elem_of_split in Hin as (l1 & l2 & ->).
  assert (NoDup (bhead :: l1 ++ b :: l2)) as Hnd1.
  { constructor; [|done]. intros H%Hlt. lia. }
  assert (NoDup (l1 ++ l2) /\ b ∉ l1 ++ l2) as [Hnd2 Hb2].
  { rewrite <- Permutation_middle in Hnd. by apply NoDup_cons in Hnd as [? ?]. }
  exists (b :: l1 ++ l2). split; [by rewrite <- Hp, Permutation_middle|].
  destruct (relinked_unlink b s) as (_ & Hl & _).
  assert (forall x, x ∈ l1 ++ l2 -> (x < bhead)%nat) as Hlt2.
  { intros x Hx. apply Hlt. set_solver. }
  apply link_front_chain; [by rewrite Hl|done| |done|done|by apply unlink_chain].
  constructor; [|done]. intros H%Hlt2. lia.
Qed.

(** ** The scans of bget *)

Definition matches (s : kstate) (dev n : Z) (b : nat) : bool :=
  ((buf_at s b).(b_dev) =? dev) && ((buf_at s b).(b_blockno) =? n).

Fixpoint first_such (f : nat -> bool) (l : list nat) : option nat :=
  match l with
  | [] => None
  | x :: l' => if f x then Some x else first_such f l'
  end.

Lemma first_such_Some f l x : first_such f l = Some x -> x ∈ l /\ f x = true.
Proof.
  induction l as [|y l IH]; simpl; [done|]. destruct (f y) eqn:E.
  - intros [= ->]. split; [set_solver|done].
  - intros [? ?]%IH. split; [set_solver|done].
Qed.

Lemma first_such_None f l : first_such f l = None -> forall x, x ∈ l -> f x = false.
Proof.
  induction l as [|y l IH]; simpl; intros H x; [by intros ?%elem_of_nil|].
  destruct (f y) eqn:E; [done|]. rewrite elem_of_cons. intros [->|Hx]; auto.
Qed.

Lemma bget_cached_eq s dev n l : forall a fuel,
  chain (bnext s) (bprev s) a l bhead -> bhead ∉ l -> (length l < fuel)%nat ->
  bget_cached fuel (hd bhead l) dev n s = Ret (first_such (matches s dev n) l) s.
Proof.
  induction l as [|x l IH]; intros a fuel Hc Hh Hf; (destruct fuel as [|fuel]; [simpl in Hf; lia|]).
  - cbn [bget_cached hd]. by rewrite decide_True.
  - cbn [bget_cached hd first_such]. rewrite decide_False by set_solver.
    unfold getb. erewrite bind_Ret by done. unfold id, matches.
    destruct (_ && _); [done|]. erewrite bind_Ret by done.
    destruct Hc as (_ & _ & Hc). rewrite (chain_first _ _ _ _ _ Hc).
    apply (IH x); [done|set_solver|simpl in Hf; lia].
Qed.

Lemma lastn_snoc a l x : lastn a (l ++ [x]) = x.
Proof. revert a. induction l as [|y l IH]; intros a; simpl; auto. Qed.

Lemma bget_recycle_eq s l : forall e fuel,
  chain (bnext s) (bprev s) bhead l e -> bhead ∉ l -> (length l < fuel)%nat ->
  bget_recycle fuel (lastn bhead l) s =
  Ret (first_such (fun b => (buf_at s b).(b_refcnt) =? 0) (rev l)) s.
Proof.
  induction l as [|x l IH] using rev_ind; intros e fuel Hc Hh Hf;
    (destruct fuel as [|fuel]; [simpl in Hf; lia|]).
  - cbn [bget_recycle lastn]. by rewrite decide_True.
  - rewrite lastn_snoc, rev_app_distr. cbn [rev app bget_recycle first_such].
    rewrite decide_False by set_solver. unfold getb. erewrite bind_Ret by done. unfold id.
    destruct (_ =? 0); [done|]. erewrite bind_Ret by done.
    apply chain_app in Hc as [Hc _]. rewrite (chain_last _ _ _ _ _ Hc).
    rewrite length_app in Hf. simpl in Hf. apply (IH x); [done|set_solver|lia].
Qed.

(** Use the value [H] of a condition that is tested in the goal. *)
Ltac kcond H :=
  match goal with
  | |- context [negb ?x] => match type of H with _ = ?v => replace x with v by (symmetry; exact H) end
  | |- context [if ?x then _ else _] =>
      match type of H with _ = ?v => replace x with v by (symmetry; exact H) end
  end; cbn [negb when].

(** ** Frames *)

Lemma same_queue_mem s s' x : same_queue s s' -> disk_mem s' x <-> disk_mem s x.
Proof. intros (H1 & H2 & H3). unfold disk_mem. by rewrite H1, H2, H3. Qed.

Lemma bio_frame_refl p s : bio_frame p s s.
Proof. split_and!; [reflexivity|reflexivity|by intros x|done]. Qed.

Lemma bio_frame_trans p s1 s2 s3 :
  bio_frame p s1 s2 -> bio_frame p s2 s3 -> bio_frame p s1 s3.
Proof.
  intros (E1 & W1 & M1 & Q1) (E2 & W2 & M2 & Q2). split_and!.
  - transitivity (set_bufs s3.(k_bufs) (set_bhead s3.(k_bhead) (set_disk s3.(k_disk)
      (set_diskwrites s3.(k_diskwrites) (set_procs s3.(k_procs) (set_mem s3.(k_mem)
        (set_vdisk s3.(k_vdisk) (set_mmio_in s3.(k_mmio_in)
          (set_mmio_out s3.(k_mmio_out) s2))))))))); [exact E2|]. rewrite E1. reflexivity.
  - by etransitivity.
  - intros x Hx. rewrite M2; [by apply M1|]. by rewrite (same_queue_mem s1 s2).
  - destruct Q1 as (? & ? & ?), Q2 as (? & ? & ?). split_and!; congruence.
Qed.

Lemma bio_frame_drv p s t s' :
  bio_frame p s t -> drv_frame p t s' -> bio_frame p s s'.
Proof.
  intros H (E & W & M & Q). eapply bio_frame_trans; [exact H|]. split_and!; [|done..].
  rewrite E at 1. rewrite E. reflexivity.
Qed.

(** Updates of the cache's own fields. *)
Lemma bio_frame_local p s bufs bh :
  bio_frame p s (set_bufs bufs (set_bhead bh s)).
Proof. split_and!; [reflexivity|reflexivity|by intros x|done]. Qed.

Lemma bio_frame_upd_buf p s b f : bio_frame p s (upd_buf b f s).
Proof. split_and!; [reflexivity|reflexivity|by intros x|done]. Qed.

Lemma bio_frame_calm p s s' : bio_frame p s s' -> calm p s -> calm p s'.
Proof.
  intros (E & W & _) Hc. rewrite E. apply (calm_ext p s); [done|done|done|].
  apply (wk_len _ _ _ W).
Qed.

Lemma bio_frame_mypid p s s' : bio_frame p s s' -> mypid p s' = mypid p s.
Proof. intros (_ & W & _). unfold mypid, proc_at. by rewrite (wk_me _ _ _ W). Qed.

Lemma bio_frame_running p s s' : bio_frame p s s' -> running p s -> running p s'.
Proof. intros (_ & W & _). unfold running, proc_at. by rewrite (wk_me _ _ _ W). Qed.

Lemma bio_frame_locks p s s' : bio_frame p s s' -> s'.(k_locks) = s.(k_locks).
Proof. intros (E & _). by rewrite E. Qed.

Lemma bio_frame_hart p s s' : bio_frame p s s' -> s'.(k_hart) = s.(k_hart).
Proof. intros (E & _). by rewrite E. Qed.

Lemma bio_frame_log p s s' : bio_frame p s s' -> s'.(k_log) = s.(k_log).
Proof. intros (E & _). by rewrite E. Qed.

(** ** bget *)

Section BioSpec.
Context {I : KernelImage} {F : WaitFuel} {Disk : BlockDev} {DO : DiskOk Disk}.

Lemma ring_notin s bl : ring s bl -> bhead ∉ bl.
Proof. intros [Hp _]. rewrite Hp. rewrite elem_of_seq. lia. Qed.

Lemma ring_length s bl : ring s bl -> length bl = bhead.
Proof. intros [Hp _]. rewrite Hp. apply length_seq. Qed.

Lemma ring_in s bl b : ring s bl -> b ∈ bl <-> (b < bhead)%nat.
Proof. intros [Hp _]. rewrite Hp, elem_of_seq. lia. Qed.

(** Taking the sleep lock of a buffer whose fields were just updated by [f]. *)
Definition locked_buf (pid : Z) (f : buf -> buf) (x : buf) : buf :=
  set_b_lock (mksleeplock true pid) (f x).

(** The invariant after a local change of one buffer. *)
Lemma bc_upd p s V R held b f V' R' held' :
  bc p s V R held -> (b < bhead)%nat ->
  (forall y, core (f y) = f (core y)) ->
  (forall y, (f y).(b_next) = y.(b_next) /\ (f y).(b_prev) = y.(b_prev)) ->
  btab (bupd (btable s) b f) (disk_at s) V' R' held' (mypid p s) ->
  bc p (upd_buf b f s) V' R' held'.
Proof.
  intros [Hl [bl Hr] _ Hc Hrun Hi] Hb Hcore Hlinks Ht. constructor.
  - ksimpl. by rewrite length_alter.
  - exists bl. by apply ring_upd_buf.
  - eapply btab_ext; [| | | |exact Ht]; try done. intros x _. rewrite btable_upd; [done|lia|done].
  - by apply (calm_ext p s).
  - done.
  - by apply (disk_inv_ext s).
Qed.

Lemma bc_ext p s V V' R R' held :
  (forall n, V' n = V n) -> (forall n, R' n = R n) -> bc p s V R held -> bc p s V' R' held.
Proof.
  intros HV HR [Hl Hr Ht Hc Hrun Hi]. constructor; try done.
  by eapply btab_ext; [| | | |exact Ht].
Qed.

Lemma bget_scans s dev n bl :
  bio_free s.(k_locks) -> ring s bl ->
  bget dev n s =
  match first_such (matches s dev n) bl with
  | Some b =>
      (setb b (fun x => set_b_refcnt (u32 (x.(b_refcnt) + 1)) x) ;;
       release bcache_lock ;; acquiresleep (SlBuf b) ;; ret b) (acquired bcache_lock s)
  | None =>
      match first_such (fun b => (buf_at s b).(b_refcnt) =? 0) (rev bl) with
      | Some b =>
          (setb b (set_b_dev dev) ;; setb b (set_b_blockno n) ;; setb b (set_b_valid false) ;;
           setb b (set_b_refcnt 1) ;;
           release bcache_lock ;; acquiresleep (SlBuf b) ;; ret b) (acquired bcache_lock s)
      | None => Panic "bget: no buffers"
      end
  end.
Proof.
  intros Hfr Hr. unfold bget. erewrite bind_Ret by (apply acquire_free, Hfr).
  pose proof Hr as [_ Hch]. set (t := acquired bcache_lock s).
  pose proof (ring_notin s bl Hr) as Hni. pose proof (ring_length s bl Hr) as Hrl.
  erewrite bind_Ret by done. erewrite bind_Ret.
  2:{ change (bnext t bhead) with (bnext s bhead). rewrite (chain_first _ _ _ _ _ Hch).
      apply (bget_cached_eq t _ _ bl bhead); [exact Hch|done|rewrite Hrl; lia]. }
  change (matches t) with (matches s). destruct (first_such (matches s dev n) bl); [done|].
  erewrite bind_Ret by done. erewrite bind_Ret.
  2:{ change (bprev t bhead) with (bprev s bhead). rewrite (chain_last _ _ _ _ _ Hch).
      apply (bget_recycle_eq t bl bhead); [exact Hch|done|rewrite Hrl; lia]. }
  change (fun b => (buf_at t b).(b_refcnt) =? 0) with (fun b => (buf_at s b).(b_refcnt) =? 0).
  by destruct (first_such _ (rev bl)).
Qed.

(** ** Reading a block *)

Section Reading.
Context (Hfuel : (0 < wait_fuel)%nat).

Lemma acquiresleep_buf p s b f :
  calm p s -> bio_free s.(k_locks) -> (b < length s.(k_bufs))%nat ->
  (buf_at s b).(b_lock).(sl_locked) = false -> (forall x, (f x).(b_lock) = x.(b_lock)) ->
  acquiresleep (SlBuf b) (upd_buf b f s) = Ret tt (upd_buf b (locked_buf (mypid p s) f) s).
Proof.
  intros Hc Hb Hlen Hl Hf.
  rewrite (acquiresleep_free p).
  - f_equal. unfold upd_sl, upd_buf. ksimpl. rewrite alter_alter. reflexivity.
  - by apply (calm_ext p s).
  - apply Hb.
  - done.
  - unfold sl_at. rewrite buf_at_upd_eq by done. by rewrite Hf.
Qed.

(** [bget] after its two scans. *)
(** The end of [bget]: [f] is what it did to the buffer it chose. *)
Lemma bget_end p s b f :
  calm p s -> bio_free s.(k_locks) -> (b < length s.(k_bufs))%nat ->
  (buf_at s b).(b_lock).(sl_locked) = false -> (forall x, (f x).(b_lock) = x.(b_lock)) ->
  (release bcache_lock ;; acquiresleep (SlBuf b) ;; ret b)
    (upd_buf b f (acquired bcache_lock s)) =
  Ret b (upd_buf b (locked_buf (mypid p s) f) s).
Proof.
  intros Hc Hfr Hb Hl Hf.
  erewrite bind_Ret by (apply (release_calm p s); [done|apply Hfr|done|done]).
  erewrite bind_Ret by (exact (acquiresleep_buf p s b f Hc Hfr Hb Hl Hf)). done.
Qed.

Lemma bget_hit p s dev n bl b :
  calm p s -> bio_free s.(k_locks) -> length s.(k_bufs) = bhead -> ring s bl ->
  first_such (matches s dev n) bl = Some b -> (buf_at s b).(b_lock).(sl_locked) = false ->
  bget dev n s = Ret b (upd_buf b (locked_buf (mypid p s)
    (fun x => set_b_refcnt (u32 (x.(b_refcnt) + 1)) x)) s).
Proof.
  intros Hc Hfr Hlen Hr Hf Hl. rewrite (bget_scans s dev n bl), Hf by done.
  unfold setb. erewrite bind_Ret by done. apply bget_end; try done.
  rewrite Hlen. apply (ring_in s bl); [done|]. by apply first_such_Some in Hf as [? _].
Qed.

Lemma bget_miss p s dev n bl b :
  calm p s -> bio_free s.(k_locks) -> length s.(k_bufs) = bhead -> ring s bl ->
  first_such (matches s dev n) bl = None ->
  first_such (fun b => (buf_at s b).(b_refcnt) =? 0) (rev bl) = Some b ->
  (buf_at s b).(b_lock).(sl_locked) = false ->
  bget dev n s = Ret b (upd_buf b (locked_buf (mypid p s)
    (fun x => set_b_refcnt 1 (set_b_valid false (set_b_blockno n (set_b_dev dev x))))) s).
Proof.
  intros Hc Hfr Hlen Hr Hf Hv Hl. rewrite (bget_scans s dev n bl), Hf, Hv by done.
  unfold setb. do 4 (erewrite bind_Ret by done).
  rewrite <- bget_end; try done.
  - f_equal. kext. ksimpl. by rewrite !alter_alter.
  - rewrite Hlen. apply (ring_in s bl); [done|].
    apply first_such_Some in Hv as [Hv _]. apply list_elem_of_In, in_rev. by apply list_elem_of_In.
Qed.

(** ** The operations *)

(** Fewer blocks are referenced than there are buffers. *)
Definition roomy (R : Z -> Z) : Prop :=
  exists live, (forall n, 0 < R n -> n ∈ live) /\ (length live < bhead)%nat.

Lemma roomy_free B D V R held pid :
  btab B D V R held pid -> roomy R -> exists b, (b < bhead)%nat /\ (B b).(b_refcnt) = 0.
Proof.
  intros H (live & Hlive & Hlen).
  destruct (decide (Exists (fun b => (B b).(b_refcnt) = 0) (seq 0 bhead))) as [Hex|Hno].
  { apply Exists_exists in Hex as (b & Hb & E). rewrite elem_of_seq in Hb. exists b. split; [lia|done]. }
  exfalso. assert (forall b, (b < bhead)%nat -> isb B b (B b).(b_blockno) /\ 0 < R (B b).(b_blockno)) as Hall.
  { intros b Hb. assert ((B b).(b_refcnt) <> 0) as Hne.
    { intros E. apply Hno. apply Exists_exists. exists b. split; [|done]. apply elem_of_seq. lia. }
    assert (isb B b (B b).(b_blockno)) as Hisb.
    { destruct (bt_dev _ _ _ _ _ _ H b Hb) as [E|[_ E]]; [by split_and!|done]. }
    split; [done|]. pose proof (bt_ref _ _ _ _ _ _ H _ _ Hisb).
    pose proof (bt_range _ _ _ _ _ _ H (B b).(b_blockno)). lia. }
  assert (NoDup (map (fun b => (B b).(b_blockno)) (seq 0 bhead))) as Hnd.
  { apply NoDup_fmap_2_strong; [|apply NoDup_seq]. intros x y Hx Hy E.
    rewrite elem_of_seq in Hx, Hy. destruct (Hall x ltac:(lia)) as [Hx' _], (Hall y ltac:(lia)) as [Hy' _].
    rewrite <- E in Hy'. by eapply H. }
  pose proof (NoDup_submseteq _ live Hnd) as Hsub.
  assert (length (map (fun b => (B b).(b_blockno)) (seq 0 bhead)) <= length live)%nat as Hle.
  { apply submseteq_length, Hsub. intros n Hn. apply list_elem_of_fmap in Hn as (b & -> & Hb).
    rewrite elem_of_seq in Hb. apply Hlive, Hall. lia. }
  rewrite length_map, length_seq in Hle. lia.
Qed.

Lemma bread_hit p s V R held n b :
  bc p s V R held -> bio_free s.(k_locks) -> isb (btable s) b n ->
  n ∉ held.*1 -> R n + 1 < 2 ^ 31 ->
  exists s', bread ROOTDEV n s = Ret b s' /\
    bc p s' V (zupd R n (R n + 1)) ((n, b) :: held) /\ bio_frame p s s' /\
    s'.(k_disk) = s.(k_disk) /\ s'.(k_diskwrites) = s.(k_diskwrites).
Proof.
  intros Hbc Hfr Hisb Hn Hlt. pose proof Hbc as [Hl [bl Hr] Ht Hc Hrun Hi].
  assert (first_such (matches s ROOTDEV n) bl = Some b) as Hfs.
  { destruct (first_such (matches s ROOTDEV n) bl) as [b'|] eqn:E.
    - f_equal. apply first_such_Some in E as [Hin Hm]. unfold matches in Hm.
      apply andb_true_iff in Hm as [H1%Z.eqb_eq H2%Z.eqb_eq].
      apply (bt_uniq _ _ _ _ _ _ Ht b' b n); [|done]. split_and!; [by apply (ring_in s bl)|done|done].
    - pose proof (first_such_None _ _ E b) as Hf. destruct Hisb as (Hb & H1 & H2).
      unfold matches in Hf. change (b_dev (buf_at s b)) with (b_dev (btable s b)) in Hf.
      change (b_blockno (buf_at s b)) with (b_blockno (btable s b)) in Hf.
      rewrite H1, H2, !Z.eqb_refl in Hf. specialize (Hf (proj2 (ring_in s bl b Hr) Hb)). done. }
  assert (b ∉ held.*2) as Hnh.
  { intros Hin. apply Hn. apply list_elem_of_fmap. exists (n, b). split; [done|].
    by eapply held_snd. }
  pose proof Hisb as (Hb & _ & _).
  assert ((buf_at s b).(b_lock).(sl_locked) = false) as Hlock.
  { pose proof (bt_lock _ _ _ _ _ _ Ht b Hb) as H. by rewrite decide_False in H. }
  unfold bread. erewrite bind_Ret by (by apply (bget_hit p s _ _ bl b)).
  set (s1 := upd_buf b _ s).
  assert (b < length s.(k_bufs))%nat as Hb' by lia.
  assert (bc p s1 V (zupd R n (R n + 1)) ((n, b) :: held)) as Hbc1.
  { eapply bc_upd; [done|done|done|done|].
    assert (u32 (b_refcnt (btable s b) + 1) = R n + 1) as Hu.
    { rewrite (bt_ref _ _ _ _ _ _ Ht b n) by done. apply Z.mod_small.
      pose proof (bt_range _ _ _ _ _ _ Ht n). lia. }
    eapply btab_ext with (B := bupd (btable s) b
      (fun x => set_b_lock (mksleeplock true (mypid p s)) (set_b_refcnt (R n + 1) x))); try done.
    { intros x _. destruct (decide (x = b)) as [->|Hx]; [|by rewrite !bupd_ne].
      rewrite !bupd_eq. unfold locked_buf. by rewrite Hu. }
    apply (btab_ref _ _ _ _ held); [done|done|..].
    - pose proof (bt_range _ _ _ _ _ _ Ht n). lia.
    - pose proof (bt_range _ _ _ _ _ _ Ht n). lia.
    - pose proof (bt_range _ _ _ _ _ _ Ht n). lia.
    - intros x m Hx. rewrite elem_of_cons. split; [intros [[=]|]; [done|done]|by right].
    - intros m. rewrite elem_of_cons. intros [[=]|Hin]; [done|]. destruct Hnh.
      apply list_elem_of_fmap. by exists (m, b).
    - cbn. constructor; [done|apply Ht].
    - rewrite decide_True by set_solver. done. }
  exists s1. unfold getb. erewrite bind_Ret by done.
  assert ((buf_at s1 b).(b_valid) = true) as Hvalid.
  { destruct (bt_held _ _ _ _ _ _ (bc_tab _ _ _ _ _ Hbc1) n b ltac:(set_solver)) as [Hib _].
    by apply (bt_valid _ _ _ _ _ _ (bc_tab _ _ _ _ _ Hbc1) _ _ Hib). }
  kcond Hvalid. split_and!; [done|done|apply bio_frame_upd_buf|done|done].
Qed.

Lemma bread_miss p s V R held n :
  bc p s V R held -> bio_free s.(k_locks) -> s.(k_hart).(c_noff) = 0 ->
  (forall b, ~ isb (btable s) b n) -> roomy R ->
  exists b s', bread ROOTDEV n s = Ret b s' /\
    bc p s' V (zupd R n 1) ((n, b) :: held) /\ bio_frame p s s' /\
    s'.(k_disk) = s.(k_disk) /\ s'.(k_diskwrites) = s.(k_diskwrites).
Proof.
  intros Hbc Hfr Hnoff Hno Hroom. pose proof Hbc as [Hl [bl Hr] Ht Hc Hrun Hi].
  assert (first_such (matches s ROOTDEV n) bl = None) as Hfs.
  { destruct (first_such (matches s ROOTDEV n) bl) as [b'|] eqn:E; [|done].
    apply first_such_Some in E as [Hin Hm]. unfold matches in Hm.
    apply andb_true_iff in Hm as [H1%Z.eqb_eq H2%Z.eqb_eq].
    destruct (Hno b'). split_and!; [by apply (ring_in s bl)|done|done]. }
  destruct (first_such (fun b => (buf_at s b).(b_refcnt) =? 0) (rev bl)) as [b|] eqn:Hv; last first.
  { destruct (roomy_free _ _ _ _ _ _ Ht Hroom) as (b & Hb & Hb0).
    assert (b ∈ rev bl) as Hin.
    { apply list_elem_of_In, in_rev. rewrite rev_involutive. apply list_elem_of_In.
      by apply (ring_in s bl). }
    pose proof (first_such_None _ _ Hv b Hin) as Hf. apply Z.eqb_neq in Hf. by destruct Hf. }
  pose proof (first_such_Some _ _ _ Hv) as [Hin Hz%Z.eqb_eq].
  assert (b < bhead)%nat as Hb.
  { apply (ring_in s bl); [done|]. apply list_elem_of_In, in_rev. by apply list_elem_of_In. }
  assert (b ∉ held.*2) as Hnh.
  { intros Hh. apply list_elem_of_fmap in Hh as ([m x] & E & Hh). simpl in E. subst x.
    destruct (held_ref _ _ _ _ _ _ _ _ Ht Hh) as [Hr1 Hr2].
    change (b_refcnt (btable s b)) with (b_refcnt (buf_at s b)) in Hr1. lia. }
  assert ((buf_at s b).(b_lock).(sl_locked) = false) as Hlock.
  { pose proof (bt_lock _ _ _ _ _ _ Ht b Hb) as H. by rewrite decide_False in H. }
  unfold bread. erewrite bind_Ret by (by apply (bget_miss p s _ _ bl b)).
  set (f := locked_buf _ _). set (s1 := upd_buf b f s).
  assert (b < length s.(k_bufs))%nat as Hb' by lia.
  assert (buf_at s1 b = f (buf_at s b)) as Hs1b by (by apply buf_at_upd_eq).
  unfold getb. erewrite bind_Ret by done. rewrite Hs1b.
  change (negb (b_valid (f (buf_at s b)))) with true. unfold when.
  destruct (disk_read p s1 b) as (s2 & Hrd & Hi2 & Hfr2).
  { by apply (calm_ext p s). }
  { done. }
  { done. }
  { done. }
  { by apply (disk_inv_ext s). }
  { unfold s1. ksimpl. by rewrite length_alter. }
  { rewrite Hs1b. by apply (bt_disk _ _ _ _ _ _ Ht b Hb). }
  rewrite Hs1b in Hfr2. change (b_blockno (f (buf_at s b))) with n in Hfr2.
  change (disk_at s1 n) with (disk_at s n) in Hfr2.
  erewrite bind_Ret.
  2:{ erewrite bind_Ret by exact Hrd. reflexivity. }
  set (g := fun x => set_b_valid true (set_b_data (disk_at s n) (f x))).
  set (s3 := upd_buf b (set_b_valid true) s2).
  assert (bio_frame p s s2) as Hfs2.
  { eapply bio_frame_drv; [|exact Hfr2].
    eapply bio_frame_trans; [apply bio_frame_upd_buf|apply bio_frame_upd_buf]. }
  assert (bio_frame p s s3) as Hfs3 by (eapply bio_frame_trans; [done|apply bio_frame_upd_buf]).
  destruct Hfr2 as (E2 & _).
  assert (k_bufs s2 = k_bufs (upd_buf b (set_b_data (disk_at s n)) s1)) as Ebufs by (by rewrite E2).
  assert (k_bhead s2 = k_bhead s) as Ebh by (by rewrite E2).
  assert (k_disk s2 = k_disk s) as Edisk by (by rewrite E2).
  assert (k_diskwrites s2 = k_diskwrites s) as Edw by (by rewrite E2).
  assert (k_bufs s3 = k_bufs (upd_buf b g s)) as Ebufs3.
  { unfold s3. ksimpl. rewrite Ebufs. unfold s1. ksimpl. by rewrite !alter_alter. }
  exists b, s3. split; [done|]. split; [|by split_and!].
  constructor.
  - rewrite Ebufs3. ksimpl. by rewrite length_alter.
  - exists bl. apply (chain_state (upd_buf b g s)); [done| |].
    + intros x. unfold buf_at. by rewrite Ebufs3.
    + by apply ring_upd_buf.
  - rewrite (bio_frame_mypid p s) by done.
    eapply btab_ext; [| | | |exact (btab_miss _ _ _ _ _ _ b n Ht Hno Hb Hz)]; try done.
    + intros x _. transitivity (btable (upd_buf b g s) x).
      * unfold btable, buf_at. by rewrite Ebufs3.
      * rewrite btable_upd by done. done.
    + intros m. unfold disk_at. change (k_disk s3) with (k_disk s2). by rewrite Edisk.
  - by apply (bio_frame_calm p s).
  - by apply (bio_frame_running p s).
  - by apply (disk_inv_ext s2).
Qed.

(** [bread] returns a locked buffer with the contents of the block, from the
    cache or from the disk. *)
Lemma bread_ok p s V R held n :
  bc p s V R held -> bio_free s.(k_locks) -> s.(k_hart).(c_noff) = 0 ->
  n ∉ held.*1 -> R n + 1 < 2 ^ 31 -> 0 < R n \/ roomy R ->
  exists b s', bread ROOTDEV n s = Ret b s' /\
    bc p s' V (zupd R n (R n + 1)) ((n, b) :: held) /\ bio_frame p s s' /\
    s'.(k_disk) = s.(k_disk) /\ s'.(k_diskwrites) = s.(k_diskwrites).
Proof.
  intros Hbc Hfr Hnoff Hn Hlt Hroom. pose proof (bc_tab _ _ _ _ _ Hbc) as Ht.
  destruct (decide (Exists (fun b => (btable s b).(b_dev) = ROOTDEV /\ (btable s b).(b_blockno) = n)
    (seq 0 bhead))) as [Hex|Hnex].
  - apply Exists_exists in Hex as (b & Hb & H1 & H2). rewrite elem_of_seq in Hb.
    assert (isb (btable s) b n) as Hisb by (split_and!; [lia|done|done]).
    destruct (bread_hit p s V R held n b) as (s' & ?); try done. by exists b, s'.
  - assert (forall b, ~ isb (btable s) b n) as Hno.
    { intros b (Hb & H1 & H2). apply Hnex, Exists_exists. exists b. split; [|done].
      apply elem_of_seq. lia. }
    assert (R n = 0) as HR0 by (by apply (bt_zero _ _ _ _ _ _ Ht)).
    destruct (bread_miss p s V R held n) as (b & s' & ? & ? & ?); try done.
    { by destruct Hroom; [lia|]. }
    exists b, s'. by rewrite HR0.
Qed.

End Reading.

(** Storing into a locked buffer. *)
Lemma setb_data p s V R held n b d :
  bc p s V R held -> (n, b) ∈ held ->
  bc p (upd_buf b (set_b_data d) s) (zupd V n d) R held.
Proof.
  intros Hbc Hin. pose proof (bc_tab _ _ _ _ _ Hbc) as Ht.
  destruct (bt_held _ _ _ _ _ _ Ht _ _ Hin) as [(Hb & _) _].
  eapply bc_upd; [done|done|done|done|]. by apply btab_data.
Qed.

Lemma holding_held p s V R held n b :
  bc p s V R held -> bio_free s.(k_locks) -> (n, b) ∈ held ->
  holdingsleep (SlBuf b) s = Ret true s.
Proof.
  intros Hbc Hfr Hin. pose proof (bc_tab _ _ _ _ _ Hbc) as Ht.
  destruct (bt_held _ _ _ _ _ _ Ht _ _ Hin) as [(Hb & _) _].
  rewrite (holdingsleep_eq p); [|apply Hbc|apply Hfr].
  pose proof (bt_lock _ _ _ _ _ _ Ht b Hb) as Hl.
  rewrite decide_True in Hl by (apply list_elem_of_fmap; by exists (n, b)).
  change (b_lock (btable s b)) with (sl_at s (SlBuf b)) in Hl. rewrite Hl. ksimpl.
  by rewrite Z.eqb_refl.
Qed.

(** The buffer of a held block has the block's contents. *)
Lemma held_data p s V R held n b :
  bc p s V R held -> (n, b) ∈ held ->
  (buf_at s b).(b_data) = V n /\ (buf_at s b).(b_blockno) = n /\ (b < bhead)%nat.
Proof.
  intros Hbc Hin. pose proof (bc_tab _ _ _ _ _ Hbc) as Ht.
  destruct (bt_held _ _ _ _ _ _ Ht _ _ Hin) as [Hb _].
  split_and!; [by apply (bt_valid _ _ _ _ _ _ Ht _ _ Hb)|apply Hb|apply Hb].
Qed.

Lemma setb_fun p s V R held n b (f : list Z -> list Z) :
  bc p s V R held -> (n, b) ∈ held ->
  bc p (upd_buf b (fun x => set_b_data (f x.(b_data)) x) s) (zupd V n (f (V n))) R held.
Proof.
  intros Hbc Hin. destruct (held_data _ _ _ _ _ _ _ Hbc Hin) as (Hd & _ & _).
  replace (upd_buf b (fun x => set_b_data (f x.(b_data)) x) s)
    with (upd_buf b (set_b_data (f (V n))) s); [by apply setb_data|].
  kext. ksimpl. apply alter_agree. intros x Hx.
  assert (x = buf_at s b) as -> by (symmetry; by apply list_lookup_total_correct).
  by rewrite Hd.
Qed.

(** [bwrite] puts the contents of the block on the disk. *)
Lemma bwrite_ok p s V R held n b :
  bc p s V R held -> bio_free s.(k_locks) -> s.(k_hart).(c_noff) = 0 -> (n, b) ∈ held ->
  exists s', bwrite b s = Ret tt s' /\ bc p s' V R held /\ bio_frame p s s' /\
    s'.(k_disk) = <[n := V n]> s.(k_disk) /\
    s'.(k_diskwrites) = (n, V n) :: s.(k_diskwrites).
Proof.
  intros Hbc Hfr Hnoff Hin. pose proof Hbc as [Hl [bl Hr] Ht Hc Hrun Hi].
  unfold bwrite. erewrite bind_Ret by (by eapply holding_held). cbn [negb].
  destruct (held_data _ _ _ _ _ _ _ Hbc Hin) as (Hd & Hn & Hb).
  destruct (disk_write p s b) as (s' & Hw & Hi' & Hdf); try done.
  { by rewrite Hl. }
  { by apply (bt_disk _ _ _ _ _ _ Ht b Hb). }
  rewrite Hd, Hn in Hdf. exists s'. split; [done|].
  assert (bio_frame p s s') as Hbf.
  { eapply bio_frame_drv; [|exact Hdf]. split_and!; [reflexivity|reflexivity|by intros x|done]. }
  destruct Hdf as (E & _).
  assert (k_bufs s' = k_bufs s) as Ebufs by (by rewrite E).
  assert (k_disk s' = <[n := V n]> (k_disk s)) as Edisk by (by rewrite E).
  split; [|split; [done|split; [done|by rewrite E]]]. constructor.
  - by rewrite Ebufs.
  - exists bl. apply (chain_state s); [by rewrite E| |done]. intros x. unfold buf_at. by rewrite Ebufs.
  - rewrite (bio_frame_mypid p s) by done.
    eapply btab_ext; [| | | |apply (btab_write _ _ (disk_at s') _ _ _ _ n Ht)]; try done.
    + intros x _. unfold btable, buf_at. by rewrite Ebufs.
    + intros m. unfold disk_at. rewrite Edisk. case_decide as Em.
      * subst m. apply lookup_total_insert_eq.
      * by rewrite lookup_total_insert_ne by (by apply not_eq_sym).
  - by apply (bio_frame_calm p s).
  - by apply (bio_frame_running p s).
  - done.
Qed.

(** A change of links keeps the invariant when it keeps the ring. *)
Lemma bc_relinked p s t V R held :
  bc p s V R held -> relinked s t -> (exists bl, ring t bl) -> bc p t V R held.
Proof.
  intros [Hl _ Ht Hc Hrun Hi] (E & El & Eb) Hring. constructor; [by rewrite El|done| | | |].
  - eapply btab_ext; [| | | |rewrite E; exact Ht]; try done.
    + intros n. by rewrite E.
  - rewrite E. by apply (calm_ext p s).
  - rewrite E. done.
  - rewrite E. by apply (disk_inv_ext s).
Qed.

Lemma move_front_acquired b lk s :
  link_front b (unlink b (acquired lk s)) = acquired lk (link_front b (unlink b s)).
Proof.
  assert (forall a v t, set_bnext a v (acquired lk t) = acquired lk (set_bnext a v t)) as Hn.
  { intros a v t. unfold set_bnext. by destruct (decide (a = bhead)). }
  assert (forall a v t, set_bprev a v (acquired lk t) = acquired lk (set_bprev a v t)) as Hp.
  { intros a v t. unfold set_bprev. by destruct (decide (a = bhead)). }
  assert (forall a t, bnext (acquired lk t) a = bnext t a) as Hn' by done.
  assert (forall a t, bprev (acquired lk t) a = bprev t a) as Hp' by done.
  unfold link_front, unlink. cbv zeta. by repeat rewrite ?Hn', ?Hp', ?Hp, ?Hn.
Qed.

(** Waking up sleepers does not touch the cache. *)
Lemma bio_frame_wake p s ch :
  calm p s -> bio_frame p s (set_procs (wake_all ch (Some p) s.(k_procs)) s).
Proof.
  intros Hc. split_and!; [reflexivity| |by intros x|done].
  apply woken_wake_all. rewrite (calm_len _ _ Hc). apply Hc.
Qed.

Lemma bc_wake p s ch V R held :
  bc p s V R held -> bc p (set_procs (wake_all ch (Some p) s.(k_procs)) s) V R held.
Proof.
  intros [Hl [bl Hr] Ht Hc Hrun Hi]. pose proof (bio_frame_wake p s ch Hc) as Hf.
  constructor; [done|by exists bl| | | |].
  - rewrite (bio_frame_mypid p s) by done. done.
  - by apply (bio_frame_calm p s).
  - by apply (bio_frame_running p s).
  - by apply (disk_inv_ext s).
Qed.

(** A block that is no longer held, with one reference less. *)
Lemma bc_drop p s V R held held' n b :
  bc p s V R held -> held ≡ₚ (n, b) :: held' -> (R n = 1 -> V n = disk_at s n) ->
  bc p (upd_buf b (fun x => set_b_lock (mksleeplock false 0) (set_b_refcnt (R n - 1) x)) s)
    V (zupd R n (R n - 1)) held'.
Proof.
  intros Hbc Hperm Hclean. pose proof (bc_tab _ _ _ _ _ Hbc) as Ht.
  assert ((n, b) ∈ held) as Hin by (rewrite Hperm; set_solver).
  pose proof (bt_held _ _ _ _ _ _ Ht _ _ Hin) as [Hisb HRn]. pose proof Hisb as (Hb & _ & En).
  assert (NoDup ((n, b) :: held').*1) as Hndh by (rewrite <- Hperm; apply Ht).
  apply NoDup_cons in Hndh as [Hnh Hnd'].
  assert (forall m, ~ (m, b) ∈ held') as Hnb.
  { intros m Hm. assert ((m, b) ∈ held) as Hm' by (rewrite Hperm; set_solver).
    destruct (bt_held _ _ _ _ _ _ Ht _ _ Hm') as [(_ & _ & E) _].
    apply Hnh, list_elem_of_fmap. exists (m, b). simpl. split; [congruence|done]. }
  eapply bc_upd; [exact Hbc|done|done|done|].
  pose proof (bt_range _ _ _ _ _ _ Ht n) as Hrg.
  apply (btab_ref _ _ _ _ held); [done|done|lia| | | | |done|].
  - intros E. apply Hclean. lia.
  - intros Hm. by destruct (Hnb n).
  - intros x m Hx. rewrite Hperm, elem_of_cons. split; [by right|]. intros [[=]|?]; [congruence|done].
  - intros m Hm. by destruct (Hnb m).
  - rewrite decide_False; [done|]. intros Hm. apply list_elem_of_fmap in Hm as ([m x] & E & Hm).
    simpl in E. subst x. by destruct (Hnb m).
Qed.

(** The critical section of [brelse]. *)
Lemma brelse_section p s s2 V R held b :
  bc p s2 V R held -> (b < bhead)%nat -> s2.(k_locks) !! bcache_lock = None ->
  upd_buf b (fun x => set_b_refcnt (u32 (x.(b_refcnt) - 1)) x) (acquired bcache_lock s) =
    acquired bcache_lock s2 ->
  exists t, (setb b (fun x => set_b_refcnt (u32 (x.(b_refcnt) - 1)) x) ;;
     let! rc := getb b b_refcnt in
     when (rc =? 0)
       (modify (fun s => set_bprev (bnext s b) (bprev s b) s) ;;
        modify (fun s => set_bnext (bprev s b) (bnext s b) s) ;;
        blink_front b ;;
        modify (fun s => set_bprev (bnext s bhead) b s) ;;
        modify (set_bnext bhead b)) ;;
     release bcache_lock) (acquired bcache_lock s) = Ret tt t /\
    bc p t V R held /\ t = set_bufs t.(k_bufs) (set_bhead t.(k_bhead) s2).
Proof.
  intros Hbc Hb Hfr Hcs. unfold setb, getb. erewrite bind_Ret by done. rewrite Hcs.
  erewrite bind_Ret by done.
  destruct (Z.eqb_spec (b_refcnt (buf_at (acquired bcache_lock s2) b)) 0) as [E0|E0]; cbn [when].
  - set (t := link_front b (unlink b s2)).
    rewrite (bind_Ret _ _ _ tt (acquired bcache_lock t)).
    2:{ unfold t. by rewrite <- move_front_acquired. }
    assert (relinked s2 t) as Hrl.
    { eapply relinked_trans; [apply relinked_unlink|apply relinked_link_front]. }
    assert (bc p t V R held) as Hbct.
    { eapply bc_relinked; [exact Hbc|done|]. destruct Hbc as [Hl2 [bl2 Hr2] _ _ _ _].
      by apply (move_front_ring b s2 bl2). }
    destruct Hrl as (Et & _ & _). exists t. split; [|done].
    apply (release_inner p); [apply Hbct|]. by rewrite Et.
  - erewrite bind_Ret by done. exists s2. split; [|done].
    apply (release_inner p); [apply Hbc|done].
Qed.

(** [brelse] drops the reference and the lock. *)
Lemma brelse_ok p s V R held held' n b :
  bc p s V R held -> bio_free s.(k_locks) -> held ≡ₚ (n, b) :: held' ->
  (R n = 1 -> V n = disk_at s n) ->
  exists s', brelse b s = Ret tt s' /\ bc p s' V (zupd R n (R n - 1)) held' /\ bio_frame p s s' /\
    s'.(k_disk) = s.(k_disk) /\ s'.(k_diskwrites) = s.(k_diskwrites).
Proof.
  intros Hbc Hfr Hperm Hclean. pose proof Hbc as [_ _ Ht Hc _ _].
  assert ((n, b) ∈ held) as Hin by (rewrite Hperm; set_solver).
  pose proof (bt_held _ _ _ _ _ _ Ht _ _ Hin) as [Hisb _].
  unfold brelse. erewrite bind_Ret by (by eapply holding_held). cbn [negb].
  erewrite bind_Ret by (apply (releasesleep_eq p); [done|apply Hfr]).
  set (s1 := set_procs _ s).
  pose proof (bc_drop p s1 V R held held' n b (bc_wake _ _ _ _ _ _ Hbc) Hperm Hclean) as Hbc2.
  set (s2 := upd_buf b _ s1) in Hbc2.
  erewrite bind_Ret by (apply acquire_free, (bf_bcache _ Hfr)).
  destruct (brelse_section p (upd_sl (SlBuf b) untaken s1) s2 V (zupd R n (R n - 1)) held' b)
    as (t & Ht' & Hbct & Et); [done|apply Hisb|apply Hfr| |].
  { kext. unfold s2, upd_sl, acquired. ksimpl. rewrite alter_alter. apply alter_agree.
    intros x Hx. unfold untaken. ksimpl.
    assert (x = buf_at s b) as -> by (symmetry; by apply list_lookup_total_correct).
    change (b_refcnt (buf_at s b)) with (b_refcnt (btable s b)).
    rewrite (bt_ref _ _ _ _ _ _ Ht b n) by done. unfold u32. rewrite Z.mod_small; [done|].
    pose proof (bt_held _ _ _ _ _ _ Ht _ _ Hin). pose proof (bt_range _ _ _ _ _ _ Ht n). lia. }
  exists t. split; [exact Ht'|]. split; [done|]. rewrite Et. split; [|done].
  eapply bio_frame_trans; [apply (bio_frame_wake p s (Some (sl_chan (SlBuf b))) Hc)|].
  eapply bio_frame_trans; [apply bio_frame_upd_buf|apply bio_frame_local].
Qed.

(** Changing the count of references to a held block. *)
Lemma bc_refcnt p s V R held n b r :
  bc p s V R held -> (n, b) ∈ held -> 0 < r < 2 ^ 31 ->
  bc p (upd_buf b (set_b_refcnt r) s) V (zupd R n r) held.
Proof.
  intros Hbc Hin Hr. pose proof (bc_tab _ _ _ _ _ Hbc) as Ht.
  destruct (bt_held _ _ _ _ _ _ Ht _ _ Hin) as [Hisb _]. pose proof Hisb as (Hb & _ & En).
  eapply bc_upd; [exact Hbc|done|done|done|].
  eapply (btab_ext (bupd (btable s) b (fun x =>
    set_b_lock (btable s b).(b_lock) (set_b_refcnt r x)))); try done.
  - intros x _. unfold bupd. by destruct (decide (x = b)) as [->|].
  - apply (btab_ref _ _ _ _ held); try done; try lia.
    + intros m Hm. destruct (bt_held _ _ _ _ _ _ Ht _ _ Hm) as [(_ & _ & E) _]. congruence.
    + apply Ht.
    + by apply (bt_lock _ _ _ _ _ _ Ht).
Qed.

(** The bodies of [bpin] and [bunpin]. *)
Lemma ref_section p s V R held n b (f : Z -> Z) :
  bc p s V R held -> bio_free s.(k_locks) -> (n, b) ∈ held -> 0 < f (R n) < 2 ^ 31 ->
  exists s', (acquire bcache_lock ;;
    setb b (fun x => set_b_refcnt (u32 (f x.(b_refcnt))) x) ;; release bcache_lock) s = Ret tt s' /\
    bc p s' V (zupd R n (f (R n))) held /\ s' = set_bufs s'.(k_bufs) s.
Proof.
  intros Hbc Hfr Hin Hr. pose proof Hbc as [_ _ Ht Hc _ _].
  destruct (bt_held _ _ _ _ _ _ Ht _ _ Hin) as [Hisb _].
  exists (upd_buf b (set_b_refcnt (f (R n))) s).
  assert (bc p (upd_buf b (set_b_refcnt (f (R n))) s) V (zupd R n (f (R n))) held) as Hbc'
    by (by apply bc_refcnt).
  split; [|done]. erewrite bind_Ret by (apply acquire_free, Hfr).
  unfold setb. erewrite bind_Ret by done.
  rewrite <- (release_inner p _ bcache_lock (bc_calm _ _ _ _ _ Hbc')); [|apply Hfr].
  f_equal. kext. unfold acquired. ksimpl. apply alter_agree. intros x Hx.
  assert (x = buf_at s b) as -> by (symmetry; by apply list_lookup_total_correct).
  change (b_refcnt (buf_at s b)) with (b_refcnt (btable s b)).
  rewrite (bt_ref _ _ _ _ _ _ Ht b n) by done. unfold u32. rewrite Z.mod_small; [done|]. lia.
Qed.

Lemma bpin_ok p s V R held n b :
  bc p s V R held -> bio_free s.(k_locks) -> (n, b) ∈ held -> R n + 1 < 2 ^ 31 ->
  exists s', bpin b s = Ret tt s' /\ bc p s' V (zupd R n (R n + 1)) held /\
    s' = set_bufs s'.(k_bufs) s.
Proof.
  intros Hbc Hfr Hin Hr. pose proof (bt_range _ _ _ _ _ _ (bc_tab _ _ _ _ _ Hbc) n).
  apply (ref_section p s V R held n b (fun r => r + 1)); try done. lia.
Qed.

Lemma bunpin_ok p s V R held n b :
  bc p s V R held -> bio_free s.(k_locks) -> (n, b) ∈ held -> 1 < R n ->
  exists s', bunpin b s = Ret tt s' /\ bc p s' V (zupd R n (R n - 1)) held /\
    s' = set_bufs s'.(k_bufs) s.
Proof.
  intros Hbc Hfr Hin Hr. pose proof (bt_range _ _ _ _ _ _ (bc_tab _ _ _ _ _ Hbc) n).
  apply (ref_section p s V R held n b (fun r => r - 1)); try done. lia.
Qed.

(** ** Initialisation *)

(** An iteration of [binit]: the sleep lock of the buffer, then its links. *)
Definition binit_step (b : nat) (s : kstate) : kstate :=
  link_front b (upd_buf b (set_b_lock (mksleeplock false 0))
    (set_locks (delete (buf_sleep_lock b) s.(k_locks)) s)).

Lemma binit_step_eq b s : (b < bhead)%nat ->
  (blink_front b ;;
   initsleeplock (SlBuf b) ;;
   modify (fun s => set_bprev (bnext s bhead) b s) ;;
   modify (set_bnext bhead b)) s = Ret tt (binit_step b s).
Proof.
  intros Hb. assert (b <> bhead) as Hne by lia.
  set (s1 := set_locks (delete (buf_sleep_lock b) s.(k_locks)) s).
  set (links := fun v t => set_bprev b bhead (set_bnext b v t)).
  set (t := upd_sl (SlBuf b) (set_sl_pid 0) (upd_sl (SlBuf b) (set_sl_locked false)
    (set_locks (delete (buf_sleep_lock b) (links (bnext s bhead) s).(k_locks))
      (links (bnext s bhead) s)))).
  assert (t = links (bnext s bhead) (upd_buf b (set_b_lock (mksleeplock false 0)) s1)) as E.
  { unfold t, links, set_bprev, set_bnext, upd_sl. rewrite !decide_False by done.
    kext. ksimpl. by rewrite !alter_alter. }
  transitivity (Ret tt (set_bnext bhead b (set_bprev (bnext t bhead) b t))).
  { reflexivity. }
  by rewrite E.
Qed.

(** The state of the cache while [binit] runs: the first [k] buffers are linked. *)
Record binit_inv (s0 : kstate) (k : nat) (s : kstate) : Prop := {
  bi_len : length s.(k_bufs) = bhead;
  bi_chain : chain (bnext s) (bprev s) bhead (rev (seq 0 k)) bhead;
  bi_lock : forall b, (b < k)%nat -> (buf_at s b).(b_lock).(sl_locked) = false;
  bi_buf : forall b, btable s b = set_b_lock (buf_at s b).(b_lock) (btable s0 b);
  bi_frame : s = set_bufs s.(k_bufs) (set_bhead s.(k_bhead) (set_locks s.(k_locks) s0));
  bi_free : forall lk, s0.(k_locks) !! lk = None -> s.(k_locks) !! lk = None;
}.

Lemma bnext_lock b l s x : bnext (upd_buf b (set_b_lock l) s) x = bnext s x.
Proof.
  unfold bnext. destruct (decide (x = bhead)); [done|]. destruct (decide (x = b)) as [->|].
  - destruct (decide (b < length s.(k_bufs))%nat) as [Hb|Hb]; [by rewrite buf_at_upd_eq|].
    by rewrite upd_buf_oob by lia.
  - by rewrite buf_at_upd_ne.
Qed.

Lemma bprev_lock b l s x : bprev (upd_buf b (set_b_lock l) s) x = bprev s x.
Proof.
  unfold bprev. destruct (decide (x = bhead)); [done|]. destruct (decide (x = b)) as [->|].
  - destruct (decide (b < length s.(k_bufs))%nat) as [Hb|Hb]; [by rewrite buf_at_upd_eq|].
    by rewrite upd_buf_oob by lia.
  - by rewrite buf_at_upd_ne.
Qed.

Lemma binit_step_inv s0 k s :
  (k < bhead)%nat -> binit_inv s0 k s -> binit_inv s0 (S k) (binit_step k s).
Proof.
  intros Hk [Hl Hc Hlk Hb Hf Hfr]. unfold binit_step.
  set (t := upd_buf k _ _). pose proof (relinked_link_front k t) as (E & El & Eb).
  assert (length t.(k_bufs) = bhead) as Hlt by (unfold t; ksimpl; by rewrite length_alter).
  assert (forall b, buf_at (link_front k t) b = set_b_lock (buf_at t b).(b_lock) (buf_at (link_front k t) b)) as Hlock.
  { intros b. specialize (Eb b). unfold btable in Eb.
    change (buf_at (link_front k t) b =
      set_b_lock (core (buf_at t b)).(b_lock) (buf_at (link_front k t) b)).
    by rewrite <- Eb. }
  assert (forall b, b_lock (buf_at (link_front k t) b) = b_lock (buf_at t b)) as Hlock'.
  { intros b. by rewrite Hlock. }
  assert (forall b, b_lock (buf_at t b) =
    if decide (b = k) then mksleeplock false 0 else b_lock (buf_at s b)) as Htl.
  { intros b. unfold t. destruct (decide (b = k)) as [->|].
    - rewrite buf_at_upd_eq; [done|]. ksimpl. by rewrite Hl.
    - by rewrite buf_at_upd_ne. }
  constructor.
  - by rewrite El.
  - replace (rev (seq 0 (S k))) with (k :: rev (seq 0 k)) by (by rewrite seq_S, rev_app_distr).
    apply link_front_chain; try done.
    + constructor.
      * rewrite list_elem_of_In, <- in_rev, <- list_elem_of_In, elem_of_seq. lia.
      * rewrite rev_alt, <- rev_alt. apply NoDup_ListNoDup, List.NoDup_rev, NoDup_ListNoDup, NoDup_seq.
    + rewrite list_elem_of_In, <- in_rev, <- list_elem_of_In, elem_of_seq. lia.
    + intros x. rewrite list_elem_of_In, <- in_rev, <- list_elem_of_In, elem_of_seq. lia.
    + revert Hc. apply chain_ext; intros x; unfold t; [by rewrite bnext_lock|by rewrite bprev_lock].
  - intros b Hbk. rewrite Hlock', Htl. destruct (decide (b = k)); [done|]. apply Hlk. lia.
  - intros b. rewrite Eb, Hlock', Htl. unfold t. rewrite btable_upd; [|by ksimpl; rewrite Hl|done].
    unfold bupd. destruct (decide (b = k)) as [->|].
    + change (btable (set_locks (delete (buf_sleep_lock k) (k_locks s)) s) k) with (btable s k).
      by rewrite Hb.
    + apply Hb.
  - transitivity (set_bufs (k_bufs (link_front k t)) (set_bhead (k_bhead (link_front k t)) t)); [done|].
    rewrite E. unfold t. by rewrite Hf.
  - intros lk Hn. rewrite E. unfold t. ksimpl. apply lookup_delete_None. right. by apply Hfr.
Qed.

Lemma binit_loop s0 m : forall k s, (k + m <= bhead)%nat -> binit_inv s0 k s ->
  exists s', for_each (seq k m) (fun b =>
    blink_front b ;;
    initsleeplock (SlBuf b) ;;
    modify (fun s => set_bprev (bnext s bhead) b s) ;;
    modify (set_bnext bhead b)) s = Ret tt s' /\ binit_inv s0 (k + m) s'.
Proof.
  induction m as [|m IH]; intros k s Hk Hi; simpl.
  - exists s. by rewrite Nat.add_0_r.
  - erewrite bind_Ret by (apply binit_step_eq; lia).
    destruct (IH (S k) (binit_step k s)) as (s' & Hr & Hi'); [lia|by apply binit_step_inv; [lia|]|].
    exists s'. by rewrite <- Nat.add_succ_comm.
Qed.

(** The buffers as the loader leaves them. *)
Definition bss_buf (x : buf) : Prop :=
  x.(b_dev) = 0 /\ x.(b_refcnt) = 0 /\ x.(b_disk) = false.

Lemma binit_ok s :
  length s.(k_bufs) = bhead -> (forall b, (b < bhead)%nat -> bss_buf (buf_at s b)) ->
  exists s', binit s = Ret tt s' /\ length s'.(k_bufs) = bhead /\ ring s' (rev (seq 0 bhead)) /\
    (forall pid, btab (btable s') (disk_at s') (disk_at s') (fun _ => 0) [] pid) /\
    s' = set_bufs s'.(k_bufs) (set_bhead s'.(k_bhead) (set_locks s'.(k_locks) s)) /\
    forall lk, s.(k_locks) !! lk = None -> s'.(k_locks) !! lk = None.
Proof.
  intros Hl Hz. unfold binit, initlock. do 3 (erewrite bind_Ret by done).
  destruct (binit_loop s bhead 0 (set_bnext bhead bhead (set_bprev bhead bhead
    (set_locks (delete bcache_lock s.(k_locks)) s)))) as (s' & Hr & [Hl' Hc Hlk Hb Hf Hfr]); [done| |].
  { constructor; try done; [intros b; lia|]. intros lk Hn. ksimpl. apply lookup_delete_None. by right. }
  exists s'. split; [done|]. split; [done|]. split.
  { split; [|done]. apply Permutation_sym, Permutation_rev. }
  split; [|done]. intros pid.
  assert (forall b, (b < bhead)%nat -> (btable s' b).(b_dev) = 0 /\ (btable s' b).(b_refcnt) = 0 /\
    (btable s' b).(b_disk) = false) as Hb'.
  { intros b Hlt. rewrite Hb. by apply Hz. }
  assert (forall b n, ~ isb (btable s') b n) as Hno.
  { intros b n (Hlt & Hd & _). destruct (Hb' b Hlt) as [Hd' _]. by rewrite Hd in Hd'. }
  constructor; try (intros b n Hx; exfalso; by eapply Hno); try done.
  - intros b Hlt. right. split; by apply Hb'.
  - intros b b' n Hx. exfalso. by eapply Hno.
  - intros n. by left.
  - intros n b Hx. by apply elem_of_nil in Hx.
  - by constructor.
  - intros b Hlt. by apply Hb'.
Qed.

End BioSpec.
