(* ===== verification/BioProps.v ===== *)
(** * The buffer cache: properties

    The theorems hold for every driver that implements the interface [DiskOk];
    the witnesses use a driver that completes a request at once. *)

From S2P Require Import Prelude Params Mem State Spinlock CString Kalloc Vm Proc ProcSpec Sleeplock.
From S2P Require Import Sleeplock Dll Bio BioSpec.

Section BioProps.
Context {F : WaitFuel} {Disk : BlockDev} {DO : DiskOk Disk}.
Context (Hfuel : (0 < wait_fuel)%nat).

(** [bread] returns a buffer that is locked by the calling process, valid, and holds
    the contents of the block, whether the block was cached or came from the disk; the
    contents of all blocks, the disk and the buffers held before stay what they were, and
    no two buffers are for the same block. *)
Theorem bread_correct p s V R held n :
  bc p s V R held -> bio_free s.(k_locks) -> s.(k_hart).(c_noff) = 0 ->
  n ∉ held.*1 -> R n + 1 < 2 ^ 31 -> 0 < R n \/ roomy R ->
  exists b s', bread ROOTDEV n s = Ret b s' /\
    (buf_at s' b).(b_data) = V n /\ (buf_at s' b).(b_valid) = true /\
    (buf_at s' b).(b_lock) = mksleeplock true (mypid p s) /\
    bc p s' V (zupd R n (R n + 1)) ((n, b) :: held) /\ bio_frame p s s' /\
    s'.(k_disk) = s.(k_disk) /\ s'.(k_diskwrites) = s.(k_diskwrites).
Proof using All.
  intros Hbc Hfr Hnoff Hn Hlt Hroom.
  destruct (bread_ok Hfuel p s V R held n) as (b & s' & Hr & Hbc' & Hf & Hd & Hw); try done.
  exists b, s'. split; [done|]. pose proof (bc_tab _ _ _ _ _ Hbc') as Ht.
  destruct (bt_held _ _ _ _ _ _ Ht n b) as [Hisb _]; [set_solver|].
  destruct (bt_valid _ _ _ _ _ _ Ht _ _ Hisb) as [Hv Hdat]. split_and!; try done.
  pose proof (bt_lock _ _ _ _ _ _ Ht b ltac:(apply Hisb)) as Hl.
  rewrite decide_True in Hl by set_solver. by rewrite <- (bio_frame_mypid p s s').
Qed.

(** [C11] Read-modify-write of a block: the new contents are what every later [bread] of the
    block delivers and what the disk has; all other blocks, the reference counts and the
    locks are as before. *)
Theorem bcache_update p s V R held n (f : list Z -> list Z) :
  bc p s V R held -> bio_free s.(k_locks) -> s.(k_hart).(c_noff) = 0 ->
  n ∉ held.*1 -> R n + 1 < 2 ^ 31 -> 0 < R n \/ roomy R ->
  exists s', (let! b := bread ROOTDEV n in
      setb b (fun x => set_b_data (f x.(b_data)) x) ;; bwrite b ;; brelse b) s = Ret tt s' /\
    bc p s' (zupd V n (f (V n))) R held /\ bio_frame p s s' /\
    s'.(k_disk) = <[n := f (V n)]> s.(k_disk) /\
    s'.(k_diskwrites) = (n, f (V n)) :: s.(k_diskwrites).
Proof using All.
  intros Hbc Hfr Hnoff Hn Hlt Hroom.
  destruct (bread_ok Hfuel p s V R held n) as (b & s1 & Hr & Hbc1 & Hf1 & Hd1 & Hw1); try done.
  erewrite bind_Ret by exact Hr.
  assert ((n, b) ∈ (n, b) :: held) as Hin by set_solver.
  pose proof (setb_fun p s1 V _ _ n b f Hbc1 Hin) as Hbc2. set (s2 := upd_buf _ _ s1) in Hbc2.
  unfold setb. rewrite (bind_Ret _ _ _ tt s2) by done.
  assert (bio_frame p s s2) as Hf2 by (eapply bio_frame_trans; [exact Hf1|apply bio_frame_upd_buf]).
  destruct (bwrite_ok p s2 _ _ _ n b Hbc2) as (s3 & Hr3 & Hbc3 & Hf3 & Hd3 & Hw3); try done.
  { by rewrite (bio_frame_locks p s). } { by rewrite (bio_frame_hart p s). }
  erewrite bind_Ret by exact Hr3.
  assert (bio_frame p s s3) as Hf3' by (by eapply bio_frame_trans).
  destruct (brelse_ok p s3 _ _ _ held n b Hbc3) as (s4 & Hr4 & Hbc4 & Hf4 & Hd4 & Hw4); try done.
  { by rewrite (bio_frame_locks p s). }
  { intros _. unfold disk_at. by rewrite Hd3, lookup_total_insert_eq. }
  exists s4. split; [done|]. rewrite zupd_eq in Hd3, Hw3. split_and!.
  - eapply bc_ext; [| |exact Hbc4]; [done|]. intros m. unfold zupd. case_decide as E; [|done].
    subst m. rewrite decide_True by done. lia.
  - by eapply bio_frame_trans.
  - rewrite Hd4, Hd3. unfold s2. ksimpl. by rewrite Hd1.
  - rewrite Hw4, Hw3. unfold s2. ksimpl. by rewrite Hw1.
Qed.

(** When the block is not cached and every buffer is referenced, [bread] panics with
    the message of [bget] instead of evicting a buffer in use. *)
Theorem bread_no_buffers p s V R held n :
  bc p s V R held -> bio_free s.(k_locks) ->
  (forall b, (b < bhead)%nat -> (buf_at s b).(b_blockno) <> n /\ (buf_at s b).(b_refcnt) <> 0) ->
  bread ROOTDEV n s = Panic "bget: no buffers".
Proof using Type.
  intros [Hl [bl Hr] Ht Hc _ _] Hfr Hall. unfold bread. apply bind_Panic.
  rewrite (bget_scans s ROOTDEV n bl) by (done || apply Hfr).
  destruct (first_such (matches s ROOTDEV n) bl) as [b|] eqn:E1.
  { apply first_such_Some in E1 as [Hb E1]. apply (ring_in s bl) in Hb; [|done].
    unfold matches in E1. destruct (Hall b Hb) as [Hne _].
    apply andb_true_iff in E1 as [_ E1]. by apply Z.eqb_eq in E1. }
  destruct (first_such (fun b => (buf_at s b).(b_refcnt) =? 0) (rev bl)) as [b|] eqn:E2; [|done].
  apply first_such_Some in E2 as [Hb E2]. apply list_elem_of_In, in_rev, list_elem_of_In in Hb.
  apply (ring_in s bl) in Hb; [|done]. apply Z.eqb_eq in E2. by destruct (Hall b Hb).
Qed.

(** [binit] makes, of buffers as the loader leaves them, an empty cache: a circular list
    of all buffers, linked both ways, whose contents are those of the disk, with no
    references and no locks held; it changes nothing but the cache and its locks. *)
Theorem binit_correct s :
  length s.(k_bufs) = bhead -> (forall b, (b < bhead)%nat -> bss_buf (buf_at s b)) ->
  exists s', binit s = Ret tt s' /\ length s'.(k_bufs) = bhead /\ ring s' (rev (seq 0 bhead)) /\
    (forall pid, btab (btable s') (disk_at s') (disk_at s') (fun _ => 0) [] pid) /\
    s' = set_bufs s'.(k_bufs) (set_bhead s'.(k_bhead) (set_locks s'.(k_locks) s)) /\
    forall lk, s.(k_locks) !! lk = None -> s'.(k_locks) !! lk = None.
Proof using Type. apply binit_ok. Qed.

End BioProps.

(** ** A driver that completes a request at once *)

#[global] Instance sync_disk : BlockDev := fun b write s =>
  let x := buf_at s b in
  if write then
    Ret tt (set_disk (<[x.(b_blockno) := x.(b_data)]> s.(k_disk))
      (set_diskwrites ((x.(b_blockno), x.(b_data)) :: s.(k_diskwrites)) s))
  else Ret tt (upd_buf b (set_b_data (disk_at s x.(b_blockno))) s).

#[global] Instance sync_disk_ok : DiskOk sync_disk.
Proof.
  refine {| disk_inv := fun _ => True |}; [done| |];
    intros p s b _ _ _ _ _ _ _; (eexists; split; [reflexivity|split; [done|]]);
    (split_and!; [done|reflexivity|by intros x|done]).
Defined.

#[global] Instance sync_disk_local : DiskLocal sync_disk.
Proof. by intros s t. Qed.

(** Process 0 runs; the buffers are as the loader leaves them. *)
Definition demo_boot : kstate :=
  set_bufs (replicate bhead inhabitant)
    (set_procs (set_p_pid 1 (set_p_state RUNNING inhabitant) :: replicate 63 inhabitant)
      (set_hart (set_c_proc (Some 0%nat) inhabitant) inhabitant)).


Definition demo_cache : kstate := ret_state (binit demo_boot).

#[local] Instance demo_fuel : WaitFuel := 1%nat.

Lemma demo_binit : binit demo_boot = Ret tt demo_cache.
Proof. vm_compute. reflexivity. Qed.

Lemma demo_bss b : (b < bhead)%nat -> bss_buf (buf_at demo_boot b).
Proof.
  intros Hb. unfold buf_at, demo_boot. ksimpl. by rewrite lookup_total_replicate_2.
Qed.

Lemma demo_locks : demo_cache.(k_locks) = ∅.
Proof. vm_compute. reflexivity. Qed.

Lemma demo_noff : demo_cache.(k_hart).(c_noff) = 0.
Proof. vm_compute. reflexivity. Qed.

Lemma demo_bio_free : bio_free demo_cache.(k_locks).
Proof. rewrite demo_locks. by constructor. Qed.

Lemma demo_bc : bc 0 demo_cache (disk_at demo_cache) (fun _ => 0) [].
Proof.
  destruct (binit_ok demo_boot) as (s & Hr & Hl & Hring & Ht & E & _); [done|apply demo_bss|].
  rewrite demo_binit in Hr. injection Hr as <-.
  constructor; [exact Hl|eexists; exact Hring|apply Ht| |rewrite E; by split|done].
  constructor; [rewrite E; split; simpl; [lia|done]|by rewrite E|by rewrite E|by rewrite E| |].
  - vm_compute. lia.
  - intros i. by rewrite demo_locks.
Qed.

#[local] Opaque demo_cache.

Lemma demo_roomy : roomy (fun _ => 0).
Proof. exists []. split; [lia|]. vm_compute. lia. Qed.

Lemma bread_correct_witness :
  exists b s', bread ROOTDEV 5 demo_cache = Ret b s' /\ (buf_at s' b).(b_data) = disk_at demo_cache 5.
Proof.
  destruct (bread_correct (Disk := sync_disk) (Nat.lt_0_succ 0) 0 demo_cache _ _ [] 5 demo_bc)
    as (b & s' & Hr & Hd & _).
  - apply demo_bio_free.
  - apply demo_noff.
  - apply not_elem_of_nil.
  - reflexivity.
  - right. apply demo_roomy.
  - exists b, s'. split; [exact Hr|exact Hd].
Defined.

Lemma bcache_update_witness :
  exists s', (let! b := bread ROOTDEV 5 in
      setb b (fun x => set_b_data (set32 x.(b_data) 0 7) x) ;; bwrite b ;; brelse b) demo_cache =
    Ret tt s' /\ s'.(k_disk) = {[5 := set32 (disk_at demo_cache 5) 0 7]}.
Proof.
  destruct (bcache_update (Disk := sync_disk) (Nat.lt_0_succ 0) 0 demo_cache _ _ [] 5
    (fun d => set32 d 0 7) demo_bc) as (s' & Hr & _ & _ & Hd & _).
  - apply demo_bio_free.
  - apply demo_noff.
  - apply not_elem_of_nil.
  - reflexivity.
  - right. apply demo_roomy.
  - exists s'. split; [exact Hr|exact Hd].
Defined.

Lemma binit_correct_witness :
  exists s', binit demo_boot = Ret tt s' /\ ring s' (rev (seq 0 bhead)).
Proof.
  destruct (binit_correct demo_boot eq_refl demo_bss) as (s' & Hr & _ & Hring & _).
  exists s'. split; [exact Hr|exact Hring].
Defined.

(** All buffers referenced, each for a block of its own. *)
Definition filled (s : kstate) : kstate :=
  set_bufs (imap (fun i x => set_b_refcnt 1 (set_b_valid true (set_b_blockno (Z.of_nat i)
    (set_b_dev ROOTDEV (set_b_data [] x))))) s.(k_bufs)) s.

Definition filled_refs (n : Z) : Z := if bool_decide (0 <= n < NBUF) then 1 else 0.

Lemma filled_at s b : length s.(k_bufs) = bhead -> (b < bhead)%nat ->
  buf_at (filled s) b = set_b_refcnt 1 (set_b_valid true (set_b_blockno (Z.of_nat b)
    (set_b_dev ROOTDEV (set_b_data [] (buf_at s b))))).
Proof.
  intros Hl Hb. unfold buf_at, filled. ksimpl.
  destruct (lookup_lt_is_Some_2 s.(k_bufs) b) as [x Hx]; [lia|].
  apply list_lookup_total_correct. rewrite list_lookup_imap, Hx. simpl.
  by rewrite (list_lookup_total_correct _ _ _ Hx).
Qed.

Lemma filled_isb s b n : length s.(k_bufs) = bhead ->
  isb (btable (filled s)) b n <-> (b < bhead)%nat /\ n = Z.of_nat b.
Proof.
  intros Hl. unfold isb, btable. split.
  - intros (Hb & _ & E). rewrite filled_at in E by done. done.
  - intros (Hb & ->). rewrite filled_at by done. done.
Qed.

Lemma filled_refs_isb s b n :
  length s.(k_bufs) = bhead -> isb (btable (filled s)) b n -> filled_refs n = 1.
Proof.
  intros Hl [Hb ->]%filled_isb; [|done]. unfold filled_refs. rewrite bool_decide_true; [done|].
  unfold bhead in Hb. lia.
Qed.

Lemma filled_btab s V R pid :
  length s.(k_bufs) = bhead -> btab (btable s) (disk_at s) V R [] pid ->
  btab (btable (filled s)) (disk_at s)
    (fun n => if bool_decide (0 <= n < NBUF) then [] else disk_at s n) filled_refs [] pid.
Proof.
  intros Hl Ht. constructor.
  - intros b Hb. left. unfold btable. by rewrite filled_at.
  - intros b b' n [_ ->]%filled_isb [_ E]%filled_isb; [lia|done|done].
  - intros b n [Hb ->]%filled_isb; [|done]. unfold btable. rewrite filled_at by done.
    split; [done|]. rewrite bool_decide_true; [done|]. unfold bhead in Hb. lia.
  - intros b n Hb. rewrite (filled_refs_isb s b n Hl Hb). destruct Hb as (Hb & _). unfold btable.
    by rewrite filled_at.
  - intros n Hn. unfold filled_refs. rewrite bool_decide_false; [done|]. intros Hlt.
    apply (Hn (Z.to_nat n)). apply filled_isb; [done|]. unfold bhead. lia.
  - intros n. unfold filled_refs. case_bool_decide; lia.
  - intros n. unfold filled_refs. case_bool_decide; [right; lia|by left].
  - intros n b Hin. by apply elem_of_nil in Hin.
  - constructor.
  - intros b Hb. pose proof (bt_lock _ _ _ _ _ _ Ht b Hb) as Hk. unfold btable in *.
    rewrite filled_at by done. exact Hk.
  - intros b Hb. pose proof (bt_disk _ _ _ _ _ _ Ht b Hb) as Hk. unfold btable in *.
    rewrite filled_at by done. exact Hk.
Qed.

Lemma filled_bc p s V R :
  bc p s V R [] ->
  bc p (filled s) (fun n => if bool_decide (0 <= n < NBUF) then [] else disk_at s n) filled_refs [].
Proof.
  intros [Hl [bl Hr] Ht Hc Hrun Hi].
  constructor; [unfold filled; ksimpl; by rewrite length_imap| | |by apply (calm_ext p s)|done|done].
  - exists bl. apply (chain_state s); [done| |done]. intros b.
    destruct (decide (b < bhead)%nat) as [Hb|Hb]; [by rewrite filled_at|].
    unfold buf_at, filled. ksimpl. rewrite !list_lookup_total_alt, list_lookup_imap.
    by rewrite lookup_ge_None_2 by lia.
  - exact (filled_btab s V R _ Hl Ht).
Qed.

Lemma bread_no_buffers_witness : bread ROOTDEV 77 (filled demo_cache) = Panic "bget: no buffers".
Proof.
  apply (bread_no_buffers 0 (filled demo_cache) _ _ [] 77 (filled_bc _ _ _ _ demo_bc) demo_bio_free).
  intros b Hb. rewrite filled_at by (apply demo_bc || done). split; [|done].
  change (Z.of_nat b <> 77). unfold bhead in Hb. change NBUF with 30 in Hb. lia.
Defined.
