(* ===== verification/VirtioSpec.v ===== *)
(** * The disk driver and the device (virtio_disk.c): requests complete

    The driver shares three pages with the device. [VirtioDevice] is the
    device, of which the driver relies on [VirtioOk]: what the VIRTIO standard
    says of a split virtqueue and of a block device. The theorems follow a
    request through the descriptors and the rings, the sleep of the process,
    the device, the interrupt and the scheduler, when no other process runs
    meanwhile. For the blocks that the device has they give what the buffer
    cache asks of a driver ([DiskOk] of BioSpec.v); they are not an instance of
    it, since it asks the same of every block number. *)

From S2P Require Import Prelude Params Mem State Spinlock CString Kalloc Vm Proc ProcSpec.
From S2P Require Import Sleeplock Uart Printf Virtio Bio Dll BioSpec BioProps.

(** ** The device *)

(** Descriptor [i] of the table at [d]. *)
Definition desc_is (m : memory) (d : Z) (i : nat) (addr len flags next : Z) : Prop :=
  load64 m (desc_addr d i) = u64 addr /\ load32 m (desc_len d i) = len /\
  load16 m (desc_flags d i) = flags /\ load16 m (desc_next d i) = next.

Section Device.
Context {D : DmaLayout}.

(** The available ring has one entry the device has not used, the head of a
    chain of three descriptors: a command to read or write block [n], the
    data of buffer [b], and a status byte. The device has used all entries
    before, so [used->idx] is the number of the entry. *)
Record posted (s : kstate) (i0 i1 i2 b : nat) (write : bool) (n : Z) : Prop := {
  po_idx : load16 s.(k_mem) (avail_idx s.(k_vdisk).(vd_avail)) =
    u16 (load16 s.(k_mem) (used_idx s.(k_vdisk).(vd_used)) + 1);
  po_head : load16 s.(k_mem) (avail_ring s.(k_vdisk).(vd_avail)
      (load16 s.(k_mem) (used_idx s.(k_vdisk).(vd_used)) mod NUM)) = Z.of_nat i0;
  po_cmd : desc_is s.(k_mem) s.(k_vdisk).(vd_desc) i0 (ops_addr i0) 16 VRING_DESC_F_NEXT
    (Z.of_nat i1);
  po_data : desc_is s.(k_mem) s.(k_vdisk).(vd_desc) i1 (data_addr b) BSIZE
    (Z.lor (if write then 0 else VRING_DESC_F_WRITE) VRING_DESC_F_NEXT) (Z.of_nat i2);
  po_status : desc_is s.(k_mem) s.(k_vdisk).(vd_desc) i2 (status_addr i0) 1 VRING_DESC_F_WRITE 0;
  po_ops : s.(k_vdisk).(vd_ops) !! i0 =
    Some (mkblkreq (if write then VIRTIO_BLK_T_OUT else VIRTIO_BLK_T_IN) 0 (2 * n));
}.

(** The transfer of a request. *)
Definition transferred (b : nat) (write : bool) (n : Z) (s : kstate) : kstate :=
  if write then
    set_disk (<[n := (buf_at s b).(b_data)]> s.(k_disk))
      (set_diskwrites ((n, (buf_at s b).(b_data)) :: s.(k_diskwrites)) s)
  else upd_buf b (set_b_data (disk_at s n)) s.

(** What the device has done with a request: the transfer, the status byte,
    and in its own page the next entry of the used ring. *)
Record served (s s' : kstate) (i0 b : nat) (write : bool) (n : Z) : Prop := {
  se_frame : s' = set_mem s'.(k_mem)
    (upd_vdisk (fun d => set_vd_info_status (<[i0 := 0]> d.(vd_info_status)) d)
       (transferred b write n s));
  se_mem : changed_in (in_page s.(k_vdisk).(vd_used)) s.(k_mem) s'.(k_mem);
  se_idx : load16 s'.(k_mem) (used_idx s.(k_vdisk).(vd_used)) =
    u16 (load16 s.(k_mem) (used_idx s.(k_vdisk).(vd_used)) + 1);
  se_id : load32 s'.(k_mem) (used_ring_id s.(k_vdisk).(vd_used)
      (load16 s.(k_mem) (used_idx s.(k_vdisk).(vd_used)) mod NUM)) = Z.of_nat i0;
}.

(** A device with its number of blocks. *)
Class VirtioDevice := {
  dev_step : kstate -> kstate;
  dev_blocks : Z;
}.

Class VirtioOk (V : VirtioDevice) : Prop := {
  dev_size : dev_blocks <= 2 ^ 31;
  dev_serves : forall s i0 i1 i2 b write n,
    posted s i0 i1 i2 b write n -> (i0 < 8)%nat -> (i1 < 8)%nat -> (b < bhead)%nat ->
    0 <= n < dev_blocks -> served s (dev_step s) i0 b write n;
}.

End Device.

(** ** The queue at rest *)

(** No request is under way: all descriptors are free, and the driver and the
    device have seen all entries of the rings. *)
Record vd_inv (s : kstate) : Prop := {
  vi_free : s.(k_vdisk).(vd_free) = replicate 8 true;
  vi_info : length s.(k_vdisk).(vd_info_b) = 8%nat;
  vi_status : length s.(k_vdisk).(vd_info_status) = 8%nat;
  vi_ops : length s.(k_vdisk).(vd_ops) = 8%nat;
  vi_avail : load16 s.(k_mem) (avail_idx s.(k_vdisk).(vd_avail)) = s.(k_vdisk).(vd_used_idx);
  vi_used : load16 s.(k_mem) (used_idx s.(k_vdisk).(vd_used)) = s.(k_vdisk).(vd_used_idx);
  vi_pages : s.(k_vdisk).(vd_desc) + PGSIZE <= s.(k_vdisk).(vd_avail) \/
    s.(k_vdisk).(vd_avail) + PGSIZE <= s.(k_vdisk).(vd_desc);
  vi_pages2 : s.(k_vdisk).(vd_desc) + PGSIZE <= s.(k_vdisk).(vd_used) \/
    s.(k_vdisk).(vd_used) + PGSIZE <= s.(k_vdisk).(vd_desc);
  vi_pages3 : s.(k_vdisk).(vd_avail) + PGSIZE <= s.(k_vdisk).(vd_used) \/
    s.(k_vdisk).(vd_used) + PGSIZE <= s.(k_vdisk).(vd_avail);
}.

(** ** Loads and stores *)

Lemma decode_store k m a v :
  le_decode (load_bytes (store_bytes m a (le_encode k v)) a k) = v mod 2 ^ (8 * Z.of_nat k).
Proof.
  rewrite <- (length_le_encode k v) at 2. rewrite load_bytes_store_bytes by apply le_encode_range.
  apply le_decode_encode.
Qed.

Lemma load_bytes_out m a k v c j :
  a + Z.of_nat k <= c \/ c + Z.of_nat j <= a ->
  load_bytes (store_bytes m a (le_encode k v)) c j = load_bytes m c j.
Proof.
  intros H. apply load_bytes_ext. intros x Hx. apply load8_store_bytes_out.
  rewrite length_le_encode. lia.
Qed.

Lemma load16_range m a : 0 <= load16 m a < 2 ^ 16.
Proof.
  unfold load16. pose proof (le_decode_bound (load_bytes m a 2)) as H.
  rewrite length_load_bytes in H. exact H.
Qed.

(** Loads from a memory after stores at known distances. *)
Ltac mload :=
  repeat first
    [ rewrite decode_store
    | rewrite load_bytes_out by lia ].

Ltac munfold :=
  unfold load16, load32, load64, store16, store32, store64, desc_addr, desc_len, desc_flags,
    desc_next, avail_idx, avail_ring, used_idx, used_ring_id, NUM, PGSIZE in *.

(** ** Posting a request *)

Definition fill_desc (m : memory) (d : Z) (i : nat) (addr len flags next : Z) : memory :=
  store16 (store16 (store32 (store64 m (desc_addr d i) addr) (desc_len d i) len)
    (desc_flags d i) flags) (desc_next d i) next.

(** Whatever lies outside of the descriptor is as before. *)
Lemma fill_desc_out m d i addr len flags next c j :
  d + 16 * Z.of_nat i + 16 <= c \/ c + Z.of_nat j <= d + 16 * Z.of_nat i ->
  load_bytes (fill_desc m d i addr len flags next) c j = load_bytes m c j.
Proof. intros H. unfold fill_desc. munfold. by mload. Qed.

Lemma fill_desc_is m d i addr len flags next :
  0 <= len < 2 ^ 32 -> 0 <= flags < 2 ^ 16 -> 0 <= next < 2 ^ 16 ->
  desc_is (fill_desc m d i addr len flags next) d i addr len flags next.
Proof.
  intros Hl Hf Hn. unfold fill_desc, desc_is. munfold. mload. unfold u64.
  split_and!; [done|apply Z.mod_small; simpl; lia..].
Qed.

(** A descriptor in memory that did not change there. *)
Lemma desc_is_ext m m' d i addr len flags next :
  (forall c j, d + 16 * Z.of_nat i <= c -> c + Z.of_nat j <= d + 16 * Z.of_nat i + 16 ->
    load_bytes m' c j = load_bytes m c j) ->
  desc_is m d i addr len flags next -> desc_is m' d i addr len flags next.
Proof.
  intros H. unfold desc_is. munfold. by rewrite !H by lia.
Qed.

Section Driver.
Context {I : KernelImage} {F : WaitFuel} {D : DmaLayout}.

Definition blk_type (write : bool) : Z := if write then VIRTIO_BLK_T_OUT else VIRTIO_BLK_T_IN.
Definition data_flags (write : bool) : Z :=
  Z.lor (if write then 0 else VRING_DESC_F_WRITE) VRING_DESC_F_NEXT.

(** The descriptor table, and then the available ring, of a request. *)
Definition table_mem (m : memory) (d : Z) (b : nat) (write : bool) : memory :=
  fill_desc (fill_desc (fill_desc m d 0 (ops_addr 0) 16 VRING_DESC_F_NEXT 1)
    d 1 (data_addr b) BSIZE (data_flags write) 2) d 2 (status_addr 0) 1 VRING_DESC_F_WRITE 0.

Definition ring_mem (m : memory) (av ai : Z) : memory :=
  store16 (store16 m (avail_ring av (ai mod NUM)) 0) (avail_idx av) (ai + 1).

Definition taken3 : list bool := [false; false; false; true; true; true; true; true].

Definition posted_vd (b : nat) (write : bool) (sector : Z) (d : vdisk) : vdisk :=
  set_vd_info_b (<[0%nat := Some b]> d.(vd_info_b))
    (set_vd_info_status (<[0%nat := 0xff]> d.(vd_info_status))
       (set_vd_ops (<[0%nat := mkblkreq (blk_type write) 0 sector]> d.(vd_ops))
          (set_vd_free taken3 d))).

(** The state in which the device is notified. *)
Definition posted_state (b : nat) (write : bool) (s : kstate) : kstate :=
  set_mmio_out ((R VIRTIO_MMIO_QUEUE_NOTIFY, 0) :: s.(k_mmio_out))
    (set_mem (ring_mem (table_mem s.(k_mem) s.(k_vdisk).(vd_desc) b write)
                s.(k_vdisk).(vd_avail) s.(k_vdisk).(vd_used_idx))
       (upd_buf b (set_b_disk true)
          (upd_vdisk (posted_vd b write (u32 ((buf_at s b).(b_blockno) * (BSIZE / 512)))) s))).

Lemma bind_modify {A} f (k : unit -> K A) s : bind (modify f) k s = k tt (f s).
Proof. reflexivity. Qed.

Lemma bind_get {A B} (f : kstate -> B) (k : B -> K A) s : bind (get f) k s = k (f s) s.
Proof. reflexivity. Qed.

(** The projection as a function, and applied. *)
Lemma bind_get_vdisk {A} (k : vdisk -> K A) s : bind (get k_vdisk) k s = k s.(k_vdisk) s.
Proof. reflexivity. Qed.

Lemma set_desc_eq i addr len flags next s :
  set_desc i addr len flags next s =
  Ret tt (set_mem (fill_desc s.(k_mem) s.(k_vdisk).(vd_desc) i addr len flags next) s).
Proof. reflexivity. Qed.

Lemma alloc3_rest s n :
  s.(k_vdisk).(vd_free) = replicate 8 true ->
  alloc3_wait (S n) s = Ret [0; 1; 2]%nat (upd_vdisk (set_vd_free taken3) s).
Proof.
  intros H. cbn [alloc3_wait]. unfold alloc3_desc. cbn [alloc3_loop]. unfold alloc_desc.
  unfold bind, get, modify, ret. rewrite H. cbn [first_free replicate obind].
  ksimpl. rewrite H. reflexivity.
Qed.

Lemma table_mem_out m d b write c j :
  d + 48 <= c \/ c + Z.of_nat j <= d ->
  load_bytes (table_mem m d b write) c j = load_bytes m c j.
Proof. intros H. unfold table_mem. by rewrite !fill_desc_out by lia. Qed.

(** What [virtio_disk_rw] does after it has been woken up. *)
Definition rw_finish (i0 : nat) : K unit :=
  modify (upd_vdisk (fun d => set_vd_info_b (<[i0 := None]> d.(vd_info_b)) d)) ;;
  free_chain i0 ;;
  release vdisk_lock.

Lemma rw_post b write s n :
  wait_fuel = S n -> vd_inv s -> s.(k_locks) !! vdisk_lock = None ->
  virtio_disk_rw b write s =
  bind (sleep_while (S n) (get (fun s => (buf_at s b).(b_disk))) (buf_chan b) vdisk_lock)
    (fun _ => rw_finish 0) (posted_state b write (acquired vdisk_lock s)).
Proof.
  intros HF Hi Hl. unfold virtio_disk_rw. erewrite bind_Ret by done.
  erewrite bind_Ret by (by apply acquire_free). set (t := acquired vdisk_lock s).
  rewrite HF. erewrite bind_Ret by (apply alloc3_rest, Hi).
  change ([0; 1; 2]%nat !!! 0%nat) with 0%nat. change ([0; 1; 2]%nat !!! 1%nat) with 1%nat.
  change ([0; 1; 2]%nat !!! 2%nat) with 2%nat.
  assert (load16 (table_mem t.(k_mem) t.(k_vdisk).(vd_desc) b write)
    (avail_idx t.(k_vdisk).(vd_avail)) = t.(k_vdisk).(vd_used_idx)) as Ha.
  { pose proof (vi_pages _ Hi). unfold load16. rewrite table_mem_out; [exact (vi_avail _ Hi)|].
    change (k_vdisk t) with (k_vdisk s). munfold. lia. }
  rewrite bind_modify. erewrite bind_Ret by apply set_desc_eq.
  erewrite bind_Ret by apply set_desc_eq. rewrite bind_modify.
  erewrite bind_Ret by apply set_desc_eq. unfold read16, set_memory, wr, mmio_write.
  rewrite !bind_modify, !bind_get, !bind_modify.
  unfold rw_finish. f_equal. unfold posted_state.
  ksimpl. change (Z.of_nat 1) with 1. change (Z.of_nat 2) with 2. fold (data_flags write).
  fold (table_mem t.(k_mem) t.(k_vdisk).(vd_desc) b write). rewrite Ha. kext.
Qed.

Lemma u32_sector n : 0 <= n < 2 ^ 31 -> u32 (n * (BSIZE / 512)) = 2 * n.
Proof. intros H. change (BSIZE / 512) with 2. unfold u32. rewrite Z.mod_small by lia. lia. Qed.

(** The device finds the request. *)
Lemma ring_mem_out m av ai c j :
  (0 <= ai mod NUM < 8) -> av + 4096 <= c \/ c + Z.of_nat j <= av ->
  load_bytes (ring_mem m av ai) c j = load_bytes m c j.
Proof. intros Ha H. unfold ring_mem. munfold. by mload. Qed.

Lemma mod_NUM x : 0 <= x mod NUM < 8.
Proof. apply Z.mod_pos_bound. done. Qed.

Lemma table_desc m d b write :
  desc_is (table_mem m d b write) d 0 (ops_addr 0) 16 VRING_DESC_F_NEXT 1 /\
  desc_is (table_mem m d b write) d 1 (data_addr b) BSIZE (data_flags write) 2 /\
  desc_is (table_mem m d b write) d 2 (status_addr 0) 1 VRING_DESC_F_WRITE 0.
Proof.
  assert (0 <= data_flags write < 2 ^ 16) as Hw by (destruct write; vm_compute; done).
  unfold table_mem. split_and!.
  - eapply desc_is_ext; [|apply fill_desc_is; vm_compute; done].
    intros c j H1 H2. by rewrite !fill_desc_out by lia.
  - eapply desc_is_ext; [|apply fill_desc_is; [vm_compute; done|exact Hw|vm_compute; done]].
    intros c j H1 H2. by rewrite !fill_desc_out by lia.
  - apply fill_desc_is; vm_compute; done.
Qed.

(** The driver has written to its own pages only. *)
Lemma posted_used b write s :
  vd_inv s -> load16 (posted_state b write s).(k_mem) (used_idx s.(k_vdisk).(vd_used)) =
    s.(k_vdisk).(vd_used_idx).
Proof.
  intros Hi. pose proof (vi_pages2 _ Hi). pose proof (vi_pages3 _ Hi). unfold posted_state, load16. ksimpl.
  rewrite ring_mem_out, table_mem_out; [apply (vi_used _ Hi)|..|apply mod_NUM|];
    unfold used_idx, PGSIZE in *; lia.
Qed.

Lemma posted_ok b write n s :
  vd_inv s -> (buf_at s b).(b_blockno) = n -> 0 <= n < 2 ^ 31 ->
  posted (posted_state b write s) 0 1 2 b write n.
Proof.
  intros Hi Hb Hn. pose proof (vi_pages _ Hi) as P1. pose proof (vi_pages2 _ Hi) as P2.
  pose proof (vi_pages3 _ Hi) as P3. unfold PGSIZE in *.
  set (d := s.(k_vdisk).(vd_desc)) in *. set (av := s.(k_vdisk).(vd_avail)) in *.
  set (us := s.(k_vdisk).(vd_used)) in *. set (ai := s.(k_vdisk).(vd_used_idx)) in *.
  set (m := s.(k_mem)) in *. pose proof (mod_NUM ai) as Hm.
  destruct (table_desc m d b write) as (D0 & D1 & D2).
  pose proof (posted_used b write s Hi) as Hus. unfold posted_state in Hus. ksimpl_in Hus.
  fold d av us ai m in Hus.
  assert (forall c j, d <= c -> c + Z.of_nat j <= d + 4096 ->
    load_bytes (ring_mem (table_mem m d b write) av ai) c j =
    load_bytes (table_mem m d b write) c j) as Hd by (intros; apply ring_mem_out; [exact Hm|lia]).
  constructor; unfold posted_state, posted_vd; ksimpl; fold d av us ai m; rewrite ?Hus.
  - unfold ring_mem. munfold. mload. done.
  - unfold ring_mem. munfold. mload. done.
  - eapply desc_is_ext; [|exact D0]. intros c j H1 H2. apply Hd; lia.
  - eapply desc_is_ext; [|exact D1]. intros c j H1 H2. apply Hd; lia.
  - eapply desc_is_ext; [|exact D2]. intros c j H1 H2. apply Hd; lia.
  - rewrite Hb, u32_sector by done.
    rewrite list_lookup_insert_eq; [done|]. rewrite (vi_ops _ Hi). lia.
Qed.

(** ** The interrupt *)

Definition intr_out (s : kstate) : list (Z * Z) :=
  (R VIRTIO_MMIO_INTERRUPT_ACK, Z.land (hd 0 s.(k_mmio_in) mod 2 ^ 32) 0x3 mod 2 ^ 32) ::
  s.(k_mmio_out).

(** The state after the interrupt handler has seen one completed request. *)
Definition intr_state (b : nat) (s : kstate) : kstate :=
  set_procs (wake_all (Some (buf_chan b)) s.(k_hart).(c_proc) s.(k_procs))
    (upd_buf b (set_b_disk false)
       (upd_vdisk (fun d => set_vd_used_idx (u16 (d.(vd_used_idx) + 1)) d)
          (set_mmio_in (tl s.(k_mmio_in)) (set_mmio_out (intr_out s) s)))).

(** One entry of the used ring is new, for the request with head [i0]. *)
Record completed (s : kstate) (i0 b : nat) : Prop := {
  cp_seen : 0 <= s.(k_vdisk).(vd_used_idx) < 2 ^ 16;
  cp_idx : load16 s.(k_mem) (used_idx s.(k_vdisk).(vd_used)) = u16 (s.(k_vdisk).(vd_used_idx) + 1);
  cp_id : load32 s.(k_mem) (used_ring_id s.(k_vdisk).(vd_used) (s.(k_vdisk).(vd_used_idx) mod NUM)) =
    Z.of_nat i0;
  cp_i0 : (i0 < 8)%nat;
  cp_status : s.(k_vdisk).(vd_info_status) !!! i0 = 0;
  cp_b : s.(k_vdisk).(vd_info_b) !!! i0 = Some b;
}.

Lemma u16_next x : 0 <= x < 2 ^ 16 -> u16 (x + 1) <> x /\ u16 (u16 (x + 1) - x) = 1.
Proof.
  intros H. unfold u16. destruct (decide (x = 2 ^ 16 - 1)) as [->|E]; [vm_compute; done|].
  rewrite (Z.mod_small (x + 1)) by lia. split; [lia|].
  replace (x + 1 - x) with 1 by lia. done.
Qed.

Lemma intr_loop_done n s :
  load16 s.(k_mem) (used_idx s.(k_vdisk).(vd_used)) = s.(k_vdisk).(vd_used_idx) ->
  intr_loop (S n) s = Ret tt s.
Proof.
  intros H. cbn [intr_loop]. unfold read16. rewrite bind_get_vdisk, bind_get, H, Z.eqb_refl. done.
Qed.

Lemma virtio_disk_intr_eq i0 b s :
  procs_free s -> s.(k_locks) !! vdisk_lock = None -> completed s i0 b ->
  virtio_disk_intr s = Ret tt (intr_state b (touch s)).
Proof.
  intros Hp Hl [Hseen Hidx Hid Hi0 Hst Hb]. unfold virtio_disk_intr.
  destruct (u16_next _ Hseen) as [Hne Hone].
  erewrite bind_Ret by (by apply acquire_free).
  unfold rd, wr, mmio_write. erewrite bind_Ret by reflexivity. rewrite bind_modify.
  set (t := set_mmio_out _ _). unfold read16. rewrite bind_get_vdisk, bind_get.
  assert (t.(k_vdisk) = s.(k_vdisk)) as Ev by done. assert (t.(k_mem) = s.(k_mem)) as Em by done.
  assert (procs_free t) as Hpt.
  { destruct Hp as [H1 H2 H3]. constructor; [|by apply hart_push_ok|done].
    intros j. change ((<[vdisk_lock := s.(k_hart).(hartid)]> s.(k_locks)) !! proc_lock j = None).
    by rewrite lookup_insert_ne. }
  assert (touch (upd_buf b (set_b_disk false) t) = upd_buf b (set_b_disk false) t) as Htt by (apply touch_inside; destruct Hp as [_ [? _] _];
    change (0 < s.(k_hart).(c_noff) + 1); lia).
  rewrite Ev, Em, Hidx, Hone. change (S (Z.to_nat 1)) with 2%nat.
  erewrite bind_Ret.
  2:{ cbn [intr_loop]. unfold read16, read32. rewrite bind_get_vdisk, bind_get, Ev, Em, Hidx.
      rewrite (proj2 (Z.eqb_neq _ _)) by done. rewrite bind_get, Em, Hid.
      rewrite Z.geb_leb, (proj2 (Z.leb_gt _ _)) by (unfold NUM; lia).
      rewrite Nat2Z.id, Hst, Hb. cbn [negb Z.eqb]. rewrite bind_modify.
      erewrite bind_Ret by (apply wakeup_eq; destruct Hpt; by constructor).
      rewrite Htt, bind_modify. apply (intr_loop_done 0). ksimpl. rewrite Ev, Em, Hidx. done. }
  rewrite (release_acquired s) by (done || apply Hp).
  f_equal.
Qed.

(** ** The end of a request *)

Definition free_state (p i : nat) (s : kstate) : kstate :=
  set_procs (wake_all (Some vdisk_free_chan) (Some p) s.(k_procs))
    (upd_vdisk (fun d => set_vd_free (<[i := true]> d.(vd_free)) d)
       (set_mem (fill_desc s.(k_mem) s.(k_vdisk).(vd_desc) i 0 0 0 0) s)).

Lemma free_desc_eq p i s :
  calm p s -> (i < 8)%nat -> s.(k_vdisk).(vd_free) !!! i = false ->
  free_desc i s = Ret tt (free_state p i s).
Proof.
  intros Hc Hi Hf. unfold free_desc. rewrite Z.geb_leb, (proj2 (Z.leb_gt _ _)) by (unfold NUM; lia).
  rewrite bind_get_vdisk, Hf. unfold write64, set_memory. rewrite !bind_modify.
  rewrite (wakeup_calm p) by (by eapply calm_ext). f_equal.
Qed.

Lemma calm_free p i s : calm p s -> calm p (free_state p i s).
Proof. intros H. eapply calm_ext; [exact H|done|done|]. apply length_wake_all. Qed.

(** The three descriptors of the request, still in the table. *)
Lemma free_chain_eq p b write s :
  calm p s -> s.(k_vdisk).(vd_free) = taken3 ->
  desc_is s.(k_mem) s.(k_vdisk).(vd_desc) 0 (ops_addr 0) 16 VRING_DESC_F_NEXT 1 ->
  desc_is s.(k_mem) s.(k_vdisk).(vd_desc) 1 (data_addr b) BSIZE (data_flags write) 2 ->
  desc_is s.(k_mem) s.(k_vdisk).(vd_desc) 2 (status_addr 0) 1 VRING_DESC_F_WRITE 0 ->
  free_chain 0 s = Ret tt (free_state p 2 (free_state p 1 (free_state p 0 s))).
Proof.
  intros Hc Hf (_ & _ & F0 & N0) (_ & _ & F1 & N1) (_ & _ & F2 & N2).
  set (s1 := free_state p 0 s). set (s2 := free_state p 1 s1).
  assert (calm p s1) as C1 by (by apply calm_free). assert (calm p s2) as C2 by (by apply calm_free).
  assert (s1.(k_vdisk).(vd_free) = <[0%nat := true]> taken3) as E1 by (unfold s1, free_state; ksimpl; by rewrite Hf).
  assert (s2.(k_vdisk).(vd_free) = <[1%nat := true]> (<[0%nat := true]> taken3)) as E2
    by (unfold s2, free_state; ksimpl; by rewrite E1).
  assert (forall c j, s.(k_vdisk).(vd_desc) + 16 <= c -> load_bytes s1.(k_mem) c j = load_bytes s.(k_mem) c j) as M1.
  { intros c j H. apply fill_desc_out. lia. }
  assert (forall c j, s.(k_vdisk).(vd_desc) + 32 <= c -> load_bytes s2.(k_mem) c j = load_bytes s.(k_mem) c j) as M2.
  { intros c j H. transitivity (load_bytes s1.(k_mem) c j); [|apply M1; lia]. apply fill_desc_out.
    change (vd_desc (k_vdisk s1)) with (vd_desc (k_vdisk s)). lia. }
  unfold free_chain. change (S (Z.to_nat NUM)) with 9%nat. cbn [free_chain_loop]. unfold read16.
  rewrite !bind_get, F0, N0. erewrite bind_Ret by (apply (free_desc_eq p); [done|lia|by rewrite Hf]).
  fold s1. change (has VRING_DESC_F_NEXT VRING_DESC_F_NEXT) with true. cbv iota.
  rewrite !bind_get. change (vd_desc (k_vdisk s1)) with (vd_desc (k_vdisk s)).
  change (Z.to_nat 1) with 1%nat.
  assert (load16 s1.(k_mem) (desc_flags s.(k_vdisk).(vd_desc) 1) = data_flags write) as ->
    by (rewrite <- F1; unfold load16; by rewrite M1 by (unfold desc_flags; lia)).
  assert (load16 s1.(k_mem) (desc_next s.(k_vdisk).(vd_desc) 1) = 2) as ->
    by (rewrite <- N1; unfold load16; by rewrite M1 by (unfold desc_next; lia)).
  erewrite bind_Ret by (apply (free_desc_eq p); [done|lia|by rewrite E1]). fold s2.
  replace (has (data_flags write) VRING_DESC_F_NEXT) with true by (by destruct write).
  rewrite !bind_get. change (vd_desc (k_vdisk s2)) with (vd_desc (k_vdisk s)).
  change (Z.to_nat 2) with 2%nat.
  assert (load16 s2.(k_mem) (desc_flags s.(k_vdisk).(vd_desc) 2) = VRING_DESC_F_WRITE) as ->
    by (rewrite <- F2; unfold load16; by rewrite M2 by (unfold desc_flags; lia)).
  erewrite bind_Ret by (apply (free_desc_eq p); [done|lia|by rewrite E2]). done.
Qed.

(** ** The sleep of the process *)

Lemma posted_one_lock p b write s :
  calm p s -> s.(k_hart).(c_noff) = 0 ->
  one_lock (posted_state b write (acquired vdisk_lock s)) vdisk_lock.
Proof.
  intros Hc Hn. constructor; unfold posted_state, acquired, hart_push; ksimpl;
    [apply lookup_insert_eq|lia|apply has_clear].
Qed.

Lemma rw_switch p b write s n :
  wait_fuel = S (S n) -> calm p s -> s.(k_hart).(c_noff) = 0 -> vd_inv s ->
  s.(k_locks) !! vdisk_lock = None -> (b < length s.(k_bufs))%nat ->
  let t := posted_state b write (acquired vdisk_lock s) in
  exists k, virtio_disk_rw b write s = Switch (asleep p (buf_chan b) vdisk_lock t) k /\
    forall s', one_lock s' (proc_lock p) -> s'.(k_locks) !! vdisk_lock = None ->
      (buf_at s' b).(b_disk) = false ->
      k s' = rw_finish 0 (awake p vdisk_lock t.(k_hart).(c_intena) s').
Proof.
  intros HF Hc Hn Hi Hl Hb t.
  destruct (sleep_switch p (buf_chan b) vdisk_lock t) as (k & Hk & Hr).
  - apply Hc.
  - by apply (posted_one_lock p).
  - change ((<[vdisk_lock := s.(k_hart).(hartid)]> s.(k_locks)) !! proc_lock p = None).
    rewrite lookup_insert_ne by done. apply Hc.
  - change (p < length s.(k_procs))%nat. rewrite (calm_len _ _ Hc). apply Hc.
  - assert ((buf_at t b).(b_disk) = true) as Hd.
    { unfold t, posted_state, buf_at. ksimpl. by rewrite lookup_total_alter_eq. }
    exists (fun s' => obind (obind (k s') (fun _ => sleep_while (S n) (get (fun s => (buf_at s b).(b_disk)))
      (buf_chan b) vdisk_lock)) (fun _ => rw_finish 0)).
    split.
    + rewrite (rw_post b write s (S n)) by done. fold t. unfold bind at 1.
      change (sleep_while (S (S n)) ?c ?ch ?lk t) with
        (bind c (fun c' : bool => if c' then bind (sleep ch lk) (fun _ => sleep_while (S n) c ch lk) else ret tt) t).
      rewrite bind_get, Hd. unfold bind at 1. rewrite Hk. reflexivity.
    + intros s' H1 H2 H3. rewrite Hr by done. cbn [obind sleep_while]. rewrite bind_get.
      change (buf_at (awake p vdisk_lock t.(k_hart).(c_intena) s') b) with (buf_at s' b).
      rewrite H3. reflexivity.
Qed.

End Driver.

(** ** The device, the interrupt and the scheduler *)

Lemma sie_off_on x :
  Z.land (Z.lor x SSTATUS_SIE) (Z.lnot SSTATUS_SIE) = Z.land x (Z.lnot SSTATUS_SIE).
Proof. by rewrite Z.land_lor_distr_l, Z.land_lnot_diag, Z.lor_0_r. Qed.

Lemma sie_off_off x :
  Z.land (Z.land x (Z.lnot SSTATUS_SIE)) (Z.lnot SSTATUS_SIE) = Z.land x (Z.lnot SSTATUS_SIE).
Proof. by rewrite <- Z.land_assoc, Z.land_diag. Qed.

Definition hart_on (h : hart) : hart := set_sstatus (Z.lor h.(sstatus) SSTATUS_SIE) h.
Definition hart_off (h : hart) : hart := set_sstatus (Z.land h.(sstatus) (Z.lnot SSTATUS_SIE)) h.

(** The hart of a process that held one lock when it slept: after the
    scheduler, an interrupt in it, and the switch back. *)
Definition hart_round (p : nat) (h : hart) : hart :=
  set_c_proc (Some p) (hart_push (hart_on (hart_norm (hart_off (hart_on
    (hart_pop (set_c_proc None h))))))).

Lemma hart_round_eq p h :
  hart_ok h -> hart_norm h = h -> h.(c_noff) = 0 -> h.(c_proc) = Some p ->
  set_c_intena (hart_push h).(c_intena) (hart_round p (hart_push h)) = hart_push h.
Proof.
  destruct h as [id pr noff ie ss a1 a2 a3 a4 a5 a6 a7]. intros _ _ E1 E2. cbn in E1, E2. subst noff pr.
  unfold hart_round, hart_pop, hart_on, hart_off, hart_norm, hart_push. ksimpl.
  change (0 =? 0) with true. cbv iota. change (0 + 1 - 1 =? 0) with true. cbn [andb].
  destruct (has ss SSTATUS_SIE); ksimpl; rewrite ?sie_off_on, ?sie_off_off; done.
Qed.

Lemma hart_round_id p h : (hart_round p h).(hartid) = h.(hartid).
Proof. exact (hart_pop_id (set_c_proc None h)). Qed.

Section Io.
Context {I : KernelImage} {F : WaitFuel} {D : DmaLayout} {V : VirtioDevice} {VO : VirtioOk V}.

(** What happens while process [p] sleeps, when no other process runs: the
    scheduler, to which [p] has switched, releases its lock and enables
    interrupts; the device serves the request and interrupts, which disables
    interrupts for the handler; and the scheduler comes to [p] again. *)
Definition resume (p : nat) : K bool :=
  modify (upd_hart (set_c_proc None)) ;;
  release (proc_lock p) ;;
  intr_on ;;
  modify dev_step ;;
  intr_off ;;
  virtio_disk_intr ;;
  intr_on ;;
  scheduler_try p.

Lemma posted_ext s t i0 i1 i2 b write n :
  t.(k_mem) = s.(k_mem) -> t.(k_vdisk) = s.(k_vdisk) ->
  posted s i0 i1 i2 b write n -> posted t i0 i1 i2 b write n.
Proof. intros Em Ev []. by constructor; rewrite ?Em, ?Ev. Qed.

(** The state in which the process is resumed: [m] is the memory after the
    device has served the request. *)
Definition resumed (p b : nat) (write : bool) (n : Z) (m : memory) (s1 : kstate) : kstate :=
  upd_proc p (set_p_state RUNNING)
    (set_hart (hart_round p s1.(k_hart))
       (set_procs (wake_all (Some (buf_chan b)) None s1.(k_procs))
          (upd_buf b (set_b_disk false)
             (upd_vdisk (fun d => set_vd_used_idx (u16 (d.(vd_used_idx) + 1))
                            (set_vd_info_status (<[0%nat := 0]> d.(vd_info_status)) d))
                (set_mmio_in (tl s1.(k_mmio_in)) (set_mmio_out (intr_out s1)
                   (set_mem m (transferred b write n s1)))))))).

Lemma intr_on_eq s : intr_on s = Ret tt (upd_hart hart_on s).
Proof. reflexivity. Qed.

Lemma intr_off_eq s : intr_off s = Ret tt (upd_hart hart_off s).
Proof. reflexivity. Qed.

(** The device's work does not touch the processor. *)
Definition same_cpu (s t : kstate) : Prop :=
  t.(k_hart) = s.(k_hart) /\ t.(k_locks) = s.(k_locks) /\ t.(k_procs) = s.(k_procs).

Lemma transferred_cpu b write n s : same_cpu s (transferred b write n s).
Proof. by destruct write. Qed.

Lemma transferred_vdisk b write n s : (transferred b write n s).(k_vdisk) = s.(k_vdisk).
Proof. by destruct write. Qed.

Lemma served_completed s t b write n :
  served s (dev_step s) 0 b write n ->
  t.(k_mem) = (dev_step s).(k_mem) -> t.(k_vdisk) = (dev_step s).(k_vdisk) ->
  s.(k_vdisk).(vd_info_b) !!! 0%nat = Some b -> (0 < length s.(k_vdisk).(vd_info_status))%nat ->
  load16 s.(k_mem) (used_idx s.(k_vdisk).(vd_used)) = s.(k_vdisk).(vd_used_idx) ->
  completed t 0 b.
Proof.
  intros [Ef Em Ei Eid] Etm Etv Hb Hst Hu.
  assert (t.(k_vdisk) = set_vd_info_status (<[0%nat := 0]> s.(k_vdisk).(vd_info_status)) s.(k_vdisk)) as Ev.
  { rewrite Etv, Ef. ksimpl. by rewrite transferred_vdisk. }
  rewrite Hu in Ei, Eid. constructor; rewrite ?Ev, ?Etm; ksimpl.
  - rewrite <- Hu. apply load16_range.
  - exact Ei.
  - exact Eid.
  - lia.
  - by rewrite list_lookup_total_insert_eq.
  - exact Hb.
Qed.

(** The state in which the interrupt comes. *)
Definition interrupted (p b : nat) (write : bool) (n : Z) (m : memory) (s1 : kstate) : kstate :=
  upd_hart hart_off (set_mem m
    (upd_vdisk (fun d => set_vd_info_status (<[0%nat := 0]> d.(vd_info_status)) d)
       (transferred b write n (upd_hart hart_on (retired p s1))))).

Lemma interrupted_cpu p b write n m s1 :
  same_cpu (set_hart (hart_off (hart_on (hart_pop (set_c_proc None s1.(k_hart)))))
    (set_locks (delete (proc_lock p) s1.(k_locks)) s1)) (interrupted p b write n m s1).
Proof.
  by destruct write.
Qed.

(** The scheduler resumes the process after the interrupt. *)
Lemma resumed_eq p b write n m s1 :
  s1.(k_locks) !! proc_lock p = Some s1.(k_hart).(hartid) ->
  dispatched p (upd_hart hart_on (intr_state b (touch (interrupted p b write n m s1)))) =
  resumed p b write n m s1.
Proof.
  intros Hl.
  assert (<[proc_lock p := (hart_pop (set_c_proc None s1.(k_hart))).(hartid)]>
    (delete (proc_lock p) s1.(k_locks)) = s1.(k_locks)) as El
    by (rewrite hart_pop_id; by apply insert_delete_id).
  assert ((hart_pop (set_c_proc None s1.(k_hart))).(c_proc) = None) as Ep by apply hart_pop_proc.
  destruct write; (kext; [exact El|]); cbn; rewrite Ep; reflexivity.
Qed.

Lemma interrupted_ok p b write n m s1 :
  one_lock s1 (proc_lock p) -> s1.(k_locks) !! vdisk_lock = None ->
  (forall i, i <> p -> s1.(k_locks) !! proc_lock i = None) ->
  length s1.(k_procs) = Z.to_nat NPROC ->
  procs_free (interrupted p b write n m s1) /\
  (interrupted p b write n m s1).(k_locks) !! vdisk_lock = None.
Proof.
  intros [Hl Hn Hoff] Hv Hpl Hlen.
  destruct (interrupted_cpu p b write n m s1) as (E1 & E2 & E3).
  split; [constructor|].
  - intros i. rewrite E2. ksimpl. destruct (decide (i = p)) as [->|Hi]; [apply lookup_delete_eq|].
    rewrite lookup_delete_ne; [by apply Hpl|]. intros [= E]. lia.
  - rewrite E1. unfold hart_off, hart_on. ksimpl. split; ksimpl; rewrite hart_pop_noff; ksimpl; [lia|].
    intros _. apply has_clear.
  - by rewrite E3.
  - rewrite E2. ksimpl. by rewrite lookup_delete_ne.
Qed.

Lemma resume_eq p b write n s1 :
  one_lock s1 (proc_lock p) -> s1.(k_locks) !! vdisk_lock = None ->
  (forall i, i <> p -> s1.(k_locks) !! proc_lock i = None) ->
  length s1.(k_procs) = Z.to_nat NPROC -> (p < Z.to_nat NPROC)%nat ->
  (proc_at s1 p).(p_state) = SLEEPING -> (proc_at s1 p).(p_chan) = Some (buf_chan b) ->
  (b < bhead)%nat -> posted s1 0 1 2 b write n -> 0 <= n < dev_blocks ->
  s1.(k_vdisk).(vd_info_b) !!! 0%nat = Some b -> (0 < length s1.(k_vdisk).(vd_info_status))%nat ->
  load16 s1.(k_mem) (used_idx s1.(k_vdisk).(vd_used)) = s1.(k_vdisk).(vd_used_idx) ->
  exists m k, resume p s1 = Switch (resumed p b write n m s1) k /\
    changed_in (in_page s1.(k_vdisk).(vd_used)) s1.(k_mem) m /\
    load16 m (used_idx s1.(k_vdisk).(vd_used)) = u16 (s1.(k_vdisk).(vd_used_idx) + 1).
Proof.
  intros Hone Hv Hpl Hlen Hp Hst Hch Hb Hpo Hdev Hib His Hu.
  set (u0 := upd_hart hart_on (retired p s1)).
  assert (served u0 (dev_step u0) 0 b write n) as Hs.
  { apply (dev_serves u0 0 1 2); [by apply (posted_ext s1)|lia|lia|done|done]. }
  pose proof Hs as [Ef Em Ei Eid].
  set (u2 := upd_hart hart_off (dev_step u0)).
  assert (completed u2 0 b) as Hcp by (by apply (served_completed u0 u2 b write n)).
  set (m := (dev_step u0).(k_mem)) in *.
  assert (u2 = interrupted p b write n m s1) as E2 by (unfold u2, interrupted; by rewrite Ef at 1).
  destruct (interrupted_ok p b write n m s1 Hone Hv Hpl Hlen) as [Hpf Hvl].
  assert (virtio_disk_intr (interrupted p b write n m s1) =
    Ret tt (intr_state b (touch (interrupted p b write n m s1)))) as Hintr
    by (apply (virtio_disk_intr_eq 0); [done|done|by rewrite <- E2]).
  set (u4 := upd_hart hart_on (intr_state b (touch (interrupted p b write n m s1)))).
  destruct (interrupted_cpu p b write n m s1) as (_ & El & Ep).
  destruct (scheduler_try_runnable p u4) as (k & Hk & _).
  { change (k_locks u4) with (k_locks (interrupted p b write n m s1)). rewrite El. apply lookup_delete_eq. }
  { unfold u4, proc_at, intr_state, touch. ksimpl. rewrite Ep. ksimpl.
    rewrite proc_at_wake_all by lia. destruct (interrupted_cpu p b write n m s1) as (-> & _ & _).
    unfold hart_norm, hart_off, hart_on. ksimpl. rewrite hart_pop_proc, bool_decide_false by done.
    fold (proc_at s1 p). unfold wake. by rewrite Hst, Hch, !bool_decide_true. }
  change (load16 m (used_idx s1.(k_vdisk).(vd_used)) =
    u16 (load16 s1.(k_mem) (used_idx s1.(k_vdisk).(vd_used)) + 1)) in Ei. rewrite Hu in Ei.
  exists m, k. split; [|by split].
  rewrite <- resumed_eq by apply Hone. fold u4. rewrite <- Hk. unfold resume.
  rewrite bind_modify. erewrite bind_Ret.
  2:{ destruct Hone as [Hl Hn Hoff]. apply release_eq; ksimpl; [exact Hl|lia|exact Hoff]. }
  erewrite bind_Ret by apply intr_on_eq. rewrite bind_modify.
  erewrite bind_Ret by apply intr_off_eq.
  match goal with |- bind virtio_disk_intr _ ?x = _ => change x with u2 end. rewrite E2.
  erewrite bind_Ret by exact Hintr. erewrite bind_Ret by apply intr_on_eq. reflexivity.
Qed.

(** The process after its sleep: only the processes that waited for the same
    buffer have changed. *)
Lemma slept_procs p ch ps :
  (p < length ps)%nat -> (ps !!! p).(p_state) = RUNNING -> (ps !!! p).(p_chan) = None ->
  alter (set_p_chan None) p (alter (set_p_state RUNNING) p (wake_all (Some ch) None
    (alter (fun q => set_p_state SLEEPING (set_p_chan (Some ch) q)) p ps))) =
  wake_all (Some ch) (Some p) ps.
Proof.
  intros Hp Hst Hch. apply list_eq. intros i. unfold wake_all.
  rewrite !list_lookup_alter, !list_lookup_imap, list_lookup_alter.
  destruct (decide (p = i)) as [<-|Hne].
  - destruct (lookup_lt_is_Some_2 ps p Hp) as [q Hq]. rewrite Hq. cbn.
    rewrite (list_lookup_total_correct _ _ _ Hq) in Hst, Hch.
    rewrite (bool_decide_false (None = _)), (bool_decide_true (Some p = _)) by done.
    rewrite !decide_True by done. cbn. unfold wake. cbn. rewrite !bool_decide_true by done. cbn. f_equal.
    destruct q. ksimpl. cbn in Hst, Hch. by subst.
  - rewrite list_lookup_alter_ne by done. destruct (ps !! i); [|done]. cbn.
    by rewrite !bool_decide_false by congruence.
Qed.

(** The buffer after the transfer is no longer owned by the disk. *)
Lemma disk_flag b f (bs : list buf) :
  (bs !!! b).(b_disk) = false ->
  (forall x, f (set_b_disk true x) = set_b_disk true (f x)) ->
  (forall x, (f x).(b_disk) = x.(b_disk)) ->
  alter (set_b_disk false) b (alter f b (alter (set_b_disk true) b bs)) = alter f b bs.
Proof.
  intros H Hc Hd. rewrite !alter_alter. apply alter_agree. intros x Hx.
  rewrite (list_lookup_total_correct _ _ _ Hx) in H. cbn. rewrite Hc.
  change (set_b_disk false (f x) = f x). specialize (Hd x). rewrite H in Hd.
  destruct (f x). cbn in *. by subst.
Qed.

Lemma disk_flag_id b (bs : list buf) :
  (bs !!! b).(b_disk) = false ->
  alter (set_b_disk false) b (alter (set_b_disk true) b bs) = bs.
Proof.
  intros H. rewrite alter_alter. apply alter_id_same. intros x Hx.
  rewrite (list_lookup_total_correct _ _ _ Hx) in H. destruct x. cbn in *. by subst.
Qed.

(** The state after the sleep, from the state before the request. *)
Definition woken_state (p b : nat) (write : bool) (n : Z) (m : memory) (s : kstate) : kstate :=
  let t := posted_state b write s in
  set_procs (wake_all (Some (buf_chan b)) (Some p) s.(k_procs))
    (set_mem m (set_vdisk (set_vd_used_idx (u16 (s.(k_vdisk).(vd_used_idx) + 1))
        (set_vd_info_status (<[0%nat := 0]> t.(k_vdisk).(vd_info_status)) t.(k_vdisk)))
      (set_mmio_in (tl s.(k_mmio_in)) (set_mmio_out (intr_out t)
        (transferred b write n (acquired vdisk_lock s)))))).

Lemma awake_eq p b write n m s :
  calm p s -> running p s -> s.(k_locks) !! vdisk_lock = None -> s.(k_hart).(c_noff) = 0 ->
  (b < length s.(k_bufs))%nat -> (buf_at s b).(b_disk) = false ->
  let t := posted_state b write (acquired vdisk_lock s) in
  awake p vdisk_lock t.(k_hart).(c_intena)
    (resumed p b write n m (asleep p (buf_chan b) vdisk_lock t)) =
  woken_state p b write n m s.
Proof.
  intros Hc [Hst Hch] Hv Hn Hb Hd t.
  assert (set_c_intena t.(k_hart).(c_intena) (hart_round p t.(k_hart)) = hart_push s.(k_hart)) as Eh
    by (apply hart_round_eq; apply Hc || done).
  assert (<[vdisk_lock := s.(k_hart).(hartid)]> (delete (proc_lock p) (<[proc_lock p := s.(k_hart).(hartid)]>
    (delete vdisk_lock (<[vdisk_lock := s.(k_hart).(hartid)]> s.(k_locks))))) =
    <[vdisk_lock := s.(k_hart).(hartid)]> s.(k_locks)) as El.
  { rewrite delete_insert_eq, delete_insert_eq, (delete_id _ vdisk_lock) by done.
    rewrite delete_id; [done|apply Hc]. }
  assert (p < length s.(k_procs))%nat as Hp by (rewrite (calm_len _ _ Hc); apply Hc).
  pose proof (slept_procs p (buf_chan b) s.(k_procs) Hp Hst Hch) as Ep.
  assert ((buf_at t b).(b_data) = (buf_at s b).(b_data)) as Eb
    by (unfold t, posted_state, buf_at; ksimpl; by rewrite lookup_total_alter_eq).
  pose proof (hart_round_id p t.(k_hart)) as Er. change (hartid (k_hart t)) with (hartid (k_hart s)) in Er.
  rewrite <- Er in El at 1.
  unfold woken_state. destruct write.
  - kext; [exact Eh|exact El|exact Ep|by apply disk_flag_id|..].
    + exact (f_equal (fun d => <[n := d]> s.(k_disk)) Eb).
    + exact (f_equal (fun d => (n, d) :: s.(k_diskwrites)) Eb).
  - kext; [exact Eh|exact El|exact Ep|]. by apply disk_flag.
Qed.

(** ** The whole request *)

Definition finished (p b : nat) (write : bool) (n : Z) (m : memory) (s : kstate) : kstate :=
  set_locks s.(k_locks) (set_hart s.(k_hart)
    (free_state p 2 (free_state p 1 (free_state p 0
       (upd_vdisk (fun d => set_vd_info_b (<[0%nat := None]> d.(vd_info_b)) d)
          (woken_state p b write n m s)))))).

Lemma rw_finish_eq p b write n m s :
  calm p s -> s.(k_locks) !! vdisk_lock = None -> vd_inv s ->
  posted (posted_state b write s) 0 1 2 b write n ->
  changed_in (in_page s.(k_vdisk).(vd_used)) (posted_state b write s).(k_mem) m ->
  rw_finish 0 (woken_state p b write n m s) = Ret tt (finished p b write n m s).
Proof.
  intros Hc Hv Hi [_ _ P0 P1 P2 _] Hm. unfold rw_finish. rewrite bind_modify.
  set (w := upd_vdisk _ _).
  assert (same_cpu (set_procs w.(k_procs) (acquired vdisk_lock s)) w) as (E1 & E2 & _) by (by destruct write).
  assert (calm p w) as Hcw.
  { apply (calm_ext p (acquired vdisk_lock s)); [by apply calm_acquired|done|done|]. apply length_wake_all. }
  assert (forall i addr len flags next, (i < 3)%nat ->
    desc_is (posted_state b write s).(k_mem) s.(k_vdisk).(vd_desc) i addr len flags next ->
    desc_is w.(k_mem) w.(k_vdisk).(vd_desc) i addr len flags next) as Hd.
  { intros i addr len flags next Hi3. apply desc_is_ext. intros c j H1 H2. apply load_bytes_ext.
    change (vd_desc (k_vdisk w)) with (vd_desc (k_vdisk s)) in H1, H2.
    intros x Hx. apply Hm. pose proof (vi_pages2 _ Hi). unfold in_page. unfold PGSIZE in *. lia. }
  erewrite bind_Ret.
  2:{ apply (free_chain_eq p b write); [exact Hcw|done|apply Hd; [lia|exact P0]|
        apply Hd; [lia|exact P1]|apply Hd; [lia|exact P2]]. }
  apply (release_calm p s); [done|done|exact E1|exact E2].
Qed.

(** Stores in the pages of the queue. *)
Lemma changed_in_bytes (P : Z -> Prop) m m' :
  (forall x, ~ P x -> load_bytes m' x 1 = load_bytes m x 1) -> changed_in P m m'.
Proof. intros H x Hx. specialize (H x Hx). by injection H. Qed.

Lemma finished_mem p b write n m s :
  vd_inv s -> changed_in (in_page s.(k_vdisk).(vd_used)) (posted_state b write s).(k_mem) m ->
  changed_in (disk_mem s) s.(k_mem) (finished p b write n m s).(k_mem).
Proof.
  intros Hi Hm. set (d := s.(k_vdisk).(vd_desc)). unfold disk_mem, in_page. unfold PGSIZE. fold d.
  apply (changed_in_trans _ _ (posted_state b write s).(k_mem)).
  - apply changed_in_bytes. intros x Hx. unfold posted_state. ksimpl. fold d.
    pose proof (mod_NUM s.(k_vdisk).(vd_used_idx)).
    rewrite ring_mem_out, table_mem_out; [done|lia|done|lia].
  - apply (changed_in_trans _ _ m).
    + eapply changed_in_mono; [|exact Hm]. unfold in_page, PGSIZE. intros x Hx. by right; right.
    + apply changed_in_bytes. intros x Hx.
      change (k_mem (finished p b write n m s)) with
        (fill_desc (fill_desc (fill_desc m d 0 0 0 0 0) d 1 0 0 0 0) d 2 0 0 0 0).
      by rewrite !fill_desc_out by lia.
Qed.

Lemma finished_inv p b write n m s :
  vd_inv s -> changed_in (in_page s.(k_vdisk).(vd_used)) (posted_state b write s).(k_mem) m ->
  load16 m (used_idx s.(k_vdisk).(vd_used)) = u16 (s.(k_vdisk).(vd_used_idx) + 1) ->
  vd_inv (finished p b write n m s).
Proof.
  intros Hi Hm Hu. pose proof (vi_pages _ Hi) as Q1. pose proof (vi_pages2 _ Hi) as Q2.
  pose proof (vi_pages3 _ Hi) as Q3. unfold PGSIZE in *.
  set (d := s.(k_vdisk).(vd_desc)) in *. set (ai := s.(k_vdisk).(vd_used_idx)) in *.
  set (av := s.(k_vdisk).(vd_avail)) in *. set (us := s.(k_vdisk).(vd_used)) in *.
  pose proof (mod_NUM ai) as Hai.
  set (m' := fill_desc (fill_desc (fill_desc m d 0 0 0 0 0) d 1 0 0 0 0) d 2 0 0 0 0).
  assert (forall c j, d + 48 <= c \/ c + Z.of_nat j <= d -> load_bytes m' c j = load_bytes m c j) as Hm'.
  { intros c j H. unfold m'. by rewrite !fill_desc_out by lia. }
  constructor; change (k_mem (finished p b write n m s)) with m'.
  - done.
  - unfold finished, woken_state, free_state, posted_state, posted_vd. ksimpl. rewrite !length_insert. apply Hi.
  - unfold finished, woken_state, free_state, posted_state, posted_vd. ksimpl. rewrite !length_insert. apply Hi.
  - unfold finished, woken_state, free_state, posted_state, posted_vd. ksimpl. rewrite !length_insert. apply Hi.
  - change (load16 m' (avail_idx av) = u16 (ai + 1)). unfold load16. rewrite Hm' by (unfold avail_idx; lia).
    rewrite (load_bytes_ext (posted_state b write s).(k_mem)).
    + unfold posted_state, ring_mem. ksimpl. fold av ai. unfold NUM in Hai. munfold. mload. done.
    + intros x Hx. apply Hm. unfold in_page, PGSIZE, avail_idx in *. lia.
  - change (load16 m' (used_idx us) = u16 (ai + 1)). unfold load16. rewrite Hm' by (unfold used_idx; lia).
    exact Hu.
  - exact Q1.
  - exact Q2.
  - exact Q3.
Qed.

Lemma finished_frame p b write n m s :
  calm p s -> vd_inv s ->
  changed_in (in_page s.(k_vdisk).(vd_used)) (posted_state b write s).(k_mem) m ->
  drv_frame p (transferred b write n s) (finished p b write n m s).
Proof.
  intros Hc Hi Hm. pose proof (calm_len _ _ Hc) as Hlen. pose proof (calm_p _ _ Hc) as Hp.
  assert (woken p s.(k_procs) (finished p b write n m s).(k_procs)) as Hw.
  { change (k_procs (finished p b write n m s)) with
      (wake_all (Some vdisk_free_chan) (Some p) (wake_all (Some vdisk_free_chan) (Some p)
        (wake_all (Some vdisk_free_chan) (Some p) (wake_all (Some (buf_chan b)) (Some p) s.(k_procs))))).
    do 3 (etransitivity; [|apply woken_wake_all; rewrite !length_wake_all; lia]).
    apply woken_wake_all. lia. }
  pose proof (finished_mem p b write n m s Hi Hm) as Hmem.
  destruct write; (split_and!; [kext|exact Hw|exact Hmem|done..]).
Qed.

(** The state in which the process sleeps, from which the device works. *)
Lemma asleep_locks p b write s :
  s.(k_locks) !! vdisk_lock = None ->
  (asleep p (buf_chan b) vdisk_lock (posted_state b write (acquired vdisk_lock s))).(k_locks) =
  <[proc_lock p := s.(k_hart).(hartid)]> s.(k_locks).
Proof.
  intros Hv. unfold asleep, posted_state, acquired. ksimpl. by rewrite delete_insert_eq, delete_id.
Qed.

Lemma asleep_one_lock p b write s :
  calm p s -> s.(k_hart).(c_noff) = 0 -> s.(k_locks) !! vdisk_lock = None ->
  one_lock (asleep p (buf_chan b) vdisk_lock (posted_state b write (acquired vdisk_lock s))) (proc_lock p).
Proof.
  intros Hc Hn Hv. destruct (posted_one_lock p b write s Hc Hn) as [_ H2 H3].
  constructor; [|exact H2|exact H3]. rewrite asleep_locks by done. apply lookup_insert_eq.
Qed.

Lemma asleep_ok p b write n s :
  calm p s -> s.(k_hart).(c_noff) = 0 -> s.(k_locks) !! vdisk_lock = None -> vd_inv s ->
  (b < bhead)%nat -> (buf_at s b).(b_blockno) = n -> 0 <= n < dev_blocks ->
  let s1 := asleep p (buf_chan b) vdisk_lock (posted_state b write (acquired vdisk_lock s)) in
  posted s1 0 1 2 b write n /\ s1.(k_locks) !! vdisk_lock = None /\
  (proc_at s1 p).(p_state) = SLEEPING /\ (proc_at s1 p).(p_chan) = Some (buf_chan b) /\
  exists m k, resume p s1 = Switch (resumed p b write n m s1) k /\
    changed_in (in_page s.(k_vdisk).(vd_used)) (posted_state b write s).(k_mem) m /\
    load16 m (used_idx s.(k_vdisk).(vd_used)) = u16 (s.(k_vdisk).(vd_used_idx) + 1).
Proof using VO.
  intros Hc Hn Hv Hi Hb Hbn Hdev s1. pose proof dev_size as Hds.
  pose proof (posted_ok b write n s Hi Hbn ltac:(lia)) as Hpo.
  assert (posted s1 0 1 2 b write n) as Hpo1 by (by eapply posted_ext; [..|exact Hpo]).
  assert (s1.(k_locks) = <[proc_lock p := s.(k_hart).(hartid)]> s.(k_locks)) as El by (by apply asleep_locks).
  assert (s1.(k_locks) !! vdisk_lock = None) as Hv1 by (by rewrite El, lookup_insert_ne).
  assert (proc_at s1 p = set_p_state SLEEPING (set_p_chan (Some (buf_chan b)) (proc_at s p))) as Ep.
  { apply (asleep_at p (buf_chan b) vdisk_lock (posted_state b write (acquired vdisk_lock s))).
    change (p < length s.(k_procs))%nat. rewrite (calm_len _ _ Hc). apply Hc. }
  split_and!; [done|done|by rewrite Ep|by rewrite Ep|].
  apply (resume_eq p b write n s1); try done.
  - by apply asleep_one_lock.
  - intros i Hip. rewrite El, lookup_insert_ne; [apply Hc|]. intros [= E]. lia.
  - transitivity (length s.(k_procs)); [apply length_alter|apply Hc].
  - apply Hc.
  - by rewrite Ep.
  - by rewrite Ep.
  - change (<[0%nat := Some b]> s.(k_vdisk).(vd_info_b) !!! 0%nat = Some b).
    apply list_lookup_total_insert_eq. rewrite (vi_info _ Hi). lia.
  - change (0 < length (<[0%nat := 255%Z]> s.(k_vdisk).(vd_info_status)))%nat.
    rewrite length_insert, (vi_status _ Hi). lia.
  - exact (posted_used b write s Hi).
Qed.

(** It wakes up with its own lock, and the disk no longer owns the buffer. *)
Lemma resumed_ok p b write n m s1 :
  one_lock s1 (proc_lock p) -> s1.(k_locks) !! vdisk_lock = None -> (b < length s1.(k_bufs))%nat ->
  one_lock (resumed p b write n m s1) (proc_lock p) /\
  (resumed p b write n m s1).(k_locks) !! vdisk_lock = None /\
  (buf_at (resumed p b write n m s1) b).(b_disk) = false.
Proof.
  intros [Hl Hn Hoff] Hv Hb.
  assert ((resumed p b write n m s1).(k_locks) = s1.(k_locks)) as El by (by destruct write).
  split_and!; [constructor|by rewrite El|].
  - rewrite El, Hl. f_equal. symmetry. apply hart_round_id.
  - transitivity ((hart_pop (set_c_proc None s1.(k_hart))).(c_noff) + 1); [done|].
    rewrite hart_pop_noff. ksimpl. lia.
  - apply has_clear.
  - unfold resumed, buf_at. ksimpl. rewrite lookup_total_alter_eq; [done|].
    destruct write; unfold transferred; ksimpl; by rewrite ?length_alter.
Qed.

(** [C10] A disk request completes. [virtio_disk_rw] puts a chain of three descriptors
    for it on the available ring, where a device that keeps to the VIRTIO
    standard finds it, and sleeps with the lock of the driver free; the device
    serves the request; [virtio_disk_intr] finds the used entry and wakes the
    process; and when the scheduler resumes it, [virtio_disk_rw] returns with
    exactly the block of the buffer transferred, all descriptors free again,
    and nothing changed but the queue and processes that were woken up. *)
Theorem virtio_request_correct p b write s n :
  (1 < wait_fuel)%nat -> calm p s -> running p s -> s.(k_locks) !! vdisk_lock = None ->
  s.(k_hart).(c_noff) = 0 -> vd_inv s -> length s.(k_bufs) = bhead -> (b < bhead)%nat ->
  (buf_at s b).(b_disk) = false -> (buf_at s b).(b_blockno) = n -> 0 <= n < dev_blocks ->
  exists s1 k s2 k2 s', virtio_disk_rw b write s = Switch s1 k /\
    posted s1 0 1 2 b write n /\ s1.(k_locks) !! vdisk_lock = None /\
    (proc_at s1 p).(p_state) = SLEEPING /\ (proc_at s1 p).(p_chan) = Some (buf_chan b) /\
    resume p s1 = Switch s2 k2 /\ k s2 = Ret tt s' /\
    vd_inv s' /\ drv_frame p (transferred b write n s) s'.
Proof using VO.
  intros HF Hc Hrun Hv Hn Hi Hlen Hb Hd Hbn Hdev.
  destruct wait_fuel as [|[|f]] eqn:Ef; [lia..|].
  destruct (rw_switch p b write s f) as (k & Hk & Hr); [done|done|done|done|done|by rewrite Hlen|].
  destruct (asleep_ok p b write n s) as (H1 & H2 & H3 & H4 & m & k2 & H5 & H6 & H7); [done..|].
  pose proof dev_size as Hds. pose proof (posted_ok b write n s Hi Hbn ltac:(lia)) as Hpo.
  set (s1 := asleep p (buf_chan b) vdisk_lock (posted_state b write (acquired vdisk_lock s))) in *.
  assert (b < length s1.(k_bufs))%nat as Hb1.
  { change (b < length (alter (set_b_disk true) b s.(k_bufs)))%nat. by rewrite length_alter, Hlen. }
  destruct (resumed_ok p b write n m s1) as (R1 & R2 & R3); [by apply asleep_one_lock|done|done|].
  exists s1, k, (resumed p b write n m s1), k2, (finished p b write n m s). split_and!; try done.
  - rewrite Hr by done. unfold s1. rewrite awake_eq by (done || by rewrite Hlen). by apply rw_finish_eq.
  - by apply finished_inv.
  - by apply finished_frame.
Qed.

End Io.

(** ** Initialisation *)

Section Init.
Context {I : KernelImage} {L : KernelLayout I}.

Lemma bind_rd {A} r (k : Z -> K A) s :
  bind (rd r) k s = k (hd 0 s.(k_mmio_in) mod 2 ^ 32) (set_mmio_in (tl s.(k_mmio_in)) s).
Proof. reflexivity. Qed.

Lemma bind_wr {A} r v (k : unit -> K A) s :
  bind (wr r v) k s = k tt (set_mmio_out ((R r, v mod 2 ^ 32) :: s.(k_mmio_out)) s).
Proof. reflexivity. Qed.

(** The allocator does not look at the device. *)
Lemma kmem_rep_ext s t l :
  kmem_rep s l -> t.(k_mem) = s.(k_mem) -> t.(k_freelist) = s.(k_freelist) ->
  t.(k_locks) !! kmem_lock = s.(k_locks) !! kmem_lock -> t.(k_hart) = s.(k_hart) -> kmem_rep t l.
Proof. intros [H1 H2 H3 H4] Em Ef El Eh. constructor; rewrite ?Em, ?Ef, ?El, ?Eh; done. Qed.

Lemma load16_zero m a : (forall x, a <= x < a + 2 -> load8 m x = 0) -> load16 m a = 0.
Proof.
  intros H. unfold load16, load_bytes. cbn [zrange map le_decode].
  by rewrite !H by lia.
Qed.

(** Three pages of zeros. *)
Lemma memset3_zero m p1 p2 p3 x :
  in_page p1 x \/ in_page p2 x \/ in_page p3 x ->
  load8 (memset (memset (memset m p1 0 PGSIZE) p2 0 PGSIZE) p3 0 PGSIZE) x = 0.
Proof.
  intros H. rewrite !load8_memset by done. unfold in_page in H.
  repeat case_decide; done || lia.
Qed.

(** What a device of this kind answers to the driver: its identification, the
    features it offers, the acceptance of those the driver chose, and a queue
    that is not in use and long enough. *)
Record virtio_answers (ans : list Z) (features st max : Z) : Prop := {
  va_list : ans = [0x74726976; 2; 2; 0x554d4551; features; st; 0; max];
  va_ok : has (st mod 2 ^ 32) VIRTIO_CONFIG_S_FEATURES_OK = true;
  va_max : NUM <= max < 2 ^ 32;
}.

Lemma identified t a :
  t.(k_mmio_in) = 0x74726976 :: 2 :: 2 :: 0x554d4551 :: a ->
  any_differs [(VIRTIO_MMIO_MAGIC_VALUE, 0x74726976); (VIRTIO_MMIO_VERSION, 2);
    (VIRTIO_MMIO_DEVICE_ID, 2); (VIRTIO_MMIO_VENDOR_ID, 0x554d4551)] t = Ret false (set_mmio_in a t).
Proof.
  intros H. cbn [any_differs]. rewrite bind_rd, H. reflexivity.
Qed.

(** The second half of the initialisation: the pages of the queue. *)
Definition init_pages (status : Z) : K unit :=
  let! desc := kalloc in
  modify (upd_vdisk (set_vd_desc desc)) ;;
  let! avail := kalloc in
  modify (upd_vdisk (set_vd_avail avail)) ;;
  let! used := kalloc in
  modify (upd_vdisk (set_vd_used used)) ;;
  if (desc =? 0) || (avail =? 0) || (used =? 0) then panic "virtio disk kalloc" else
  set_memory (fun m => memset m desc 0 PGSIZE) ;;
  set_memory (fun m => memset m avail 0 PGSIZE) ;;
  set_memory (fun m => memset m used 0 PGSIZE) ;;
  wr VIRTIO_MMIO_QUEUE_NUM NUM ;;
  wr VIRTIO_MMIO_QUEUE_DESC_LOW desc ;;
  wr VIRTIO_MMIO_QUEUE_DESC_HIGH (Z.shiftr desc 32) ;;
  wr VIRTIO_MMIO_DRIVER_DESC_LOW avail ;;
  wr VIRTIO_MMIO_DRIVER_DESC_HIGH (Z.shiftr avail 32) ;;
  wr VIRTIO_MMIO_DEVICE_DESC_LOW used ;;
  wr VIRTIO_MMIO_DEVICE_DESC_HIGH (Z.shiftr used 32) ;;
  wr VIRTIO_MMIO_QUEUE_READY 0x1 ;;
  modify (upd_vdisk (set_vd_free (replicate (Z.to_nat NUM) true))) ;;
  wr VIRTIO_MMIO_STATUS (Z.lor status VIRTIO_CONFIG_S_DRIVER_OK).

Lemma page_apart p q : page_ok p -> page_ok q -> p <> q -> p + PGSIZE <= q \/ q + PGSIZE <= p.
Proof.
  intros [Hp _] [Hq _] Hne. unfold PGSIZE in *. pose proof (Z.div_mod p 4096). pose proof (Z.div_mod q 4096). lia.
Qed.

(** Clearing pages that are not free keeps the free list. *)
Lemma memset3_rep s t p1 p2 p3 l :
  kmem_rep s l -> NoDup (p1 :: p2 :: p3 :: l) -> (exists m h, flist m h (p1 :: p2 :: p3 :: l)) ->
  t.(k_mem) = memset (memset (memset s.(k_mem) p1 0 PGSIZE) p2 0 PGSIZE) p3 0 PGSIZE ->
  t.(k_freelist) = s.(k_freelist) -> t.(k_locks) = s.(k_locks) -> t.(k_hart) = s.(k_hart) ->
  kmem_rep t l.
Proof.
  intros Hk Hnd (m & h & Hfl) Em Ef El Eh.
  apply (kmem_rep_changed s _ l (fun x => in_page p1 x \/ in_page p2 x \/ in_page p3 x));
    [exact Hk| | |exact Ef|exact El|exact Eh].
  - intros x Hx. rewrite Em, !load8_memset by done. unfold in_page in Hx. by rewrite !decide_False by tauto.
  - clear Em Ef El Eh Hk. intros q x Hq Hx Hin3.
    assert (forall r, r ∈ [p1; p2; p3] -> r mod PGSIZE = 0 /\ q <> r) as O.
    { intros r Hr. split; [apply (flist_pages _ _ _ r Hfl); set_solver|]. intros ->.
      rewrite !NoDup_cons in Hnd. set_solver. }
    assert (q mod PGSIZE = 0) as Hq0 by (apply (flist_pages _ _ _ q Hfl); set_solver).
    destruct Hin3 as [H|[H|H]]; revert H; (apply (pages_disjoint q); [done|apply O; set_solver|apply O; set_solver|done]).
Qed.

Lemma init_queue u rest status p1 p2 p3 l :
  kmem_rep u (p1 :: p2 :: p3 :: l) -> u.(k_mmio_in) = rest ->
  u.(k_vdisk).(vd_used_idx) = 0 -> length u.(k_vdisk).(vd_info_b) = 8%nat ->
  length u.(k_vdisk).(vd_info_status) = 8%nat -> length u.(k_vdisk).(vd_ops) = 8%nat ->
  exists s', init_pages status u = Ret tt s' /\ vd_inv s' /\ kmem_rep s' l /\
    s'.(k_vdisk).(vd_desc) = p1 /\ s'.(k_vdisk).(vd_avail) = p2 /\ s'.(k_vdisk).(vd_used) = p3 /\
    s'.(k_mmio_in) = rest.
Proof.
  intros Hk Hin Hu Hb Hs Ho. unfold init_pages.
  pose proof Hk as [Hfl Hnd _ _]. pose proof (flist_pages _ _ _ p1 Hfl) as O1.
  pose proof (flist_pages _ _ _ p2 Hfl) as O2. pose proof (flist_pages _ _ _ p3 Hfl) as O3.
  specialize (O1 ltac:(set_solver)). specialize (O2 ltac:(set_solver)). specialize (O3 ltac:(set_solver)).
  erewrite bind_Ret by (by apply kalloc_cons). rewrite bind_modify.
  apply kalloc_post_rep in Hk. set (u1 := upd_vdisk _ _).
  assert (kmem_rep u1 (p2 :: p3 :: l)) as Hk1 by (by eapply kmem_rep_ext; [exact Hk|..]).
  erewrite bind_Ret by (by apply kalloc_cons). rewrite bind_modify.
  apply kalloc_post_rep in Hk1. set (u2 := upd_vdisk _ _).
  assert (kmem_rep u2 (p3 :: l)) as Hk2 by (by eapply kmem_rep_ext; [exact Hk1|..]).
  erewrite bind_Ret by (by apply kalloc_cons). rewrite bind_modify.
  apply kalloc_post_rep in Hk2. set (u3 := upd_vdisk _ _).
  assert (kmem_rep u3 l) as Hk3 by (by eapply kmem_rep_ext; [exact Hk2|..]).
  rewrite !(proj2 (Z.eqb_neq _ _)) by (by apply page_ok_nz). cbn [orb].
  unfold set_memory. rewrite !bind_modify, !bind_wr, bind_modify.
  eexists. split; [reflexivity|].
  assert (p1 <> p2 /\ p1 <> p3 /\ p2 <> p3) as (N12 & N13 & N23).
  { rewrite !NoDup_cons in Hnd. set_solver. }
  split; [|split; [|done]].
  - constructor; ksimpl.
    + done.
    + exact Hb.
    + exact Hs.
    + exact Ho.
    + change (vd_used_idx (k_vdisk u3)) with (vd_used_idx (k_vdisk u)). rewrite Hu. apply load16_zero.
      intros x Hx. apply memset3_zero. right; left. unfold avail_idx, in_page, PGSIZE in *.
      change (vd_avail (k_vdisk u3)) with p2 in Hx. lia.
    + change (vd_used_idx (k_vdisk u3)) with (vd_used_idx (k_vdisk u)). rewrite Hu. apply load16_zero.
      intros x Hx. apply memset3_zero. right; right. unfold used_idx, in_page, PGSIZE in *.
      change (vd_used (k_vdisk u3)) with p3 in Hx. lia.
    + by apply page_apart.
    + by apply page_apart.
    + by apply page_apart.
  - apply (memset3_rep u3 _ p1 p2 p3 l);
      [exact Hk3|exact Hnd|by exists u.(k_mem), u.(k_freelist)|reflexivity..].
Qed.

(** [virtio_disk_init] makes the queue: three distinct zeroed pages, all descriptors
    free, nothing under way. *)
Theorem virtio_disk_init_correct s ans features st max rest p1 p2 p3 l :
  virtio_answers ans features st max -> s.(k_mmio_in) = ans ++ rest ->
  kmem_rep s (p1 :: p2 :: p3 :: l) ->
  s.(k_vdisk).(vd_used_idx) = 0 -> length s.(k_vdisk).(vd_info_b) = 8%nat ->
  length s.(k_vdisk).(vd_info_status) = 8%nat -> length s.(k_vdisk).(vd_ops) = 8%nat ->
  exists s', virtio_disk_init s = Ret tt s' /\ vd_inv s' /\ kmem_rep s' l /\
    s'.(k_vdisk).(vd_desc) = p1 /\ s'.(k_vdisk).(vd_avail) = p2 /\ s'.(k_vdisk).(vd_used) = p3 /\
    s'.(k_mmio_in) = rest.
Proof.
  intros [-> Hok Hmax] Hin Hk Hu Hb Hs Ho. unfold virtio_disk_init, initlock. rewrite bind_modify.
  set (t := set_locks _ s).
  assert (kmem_rep t (p1 :: p2 :: p3 :: l)) as Ht.
  { apply (kmem_rep_ext s); [done|done|done| |done]. unfold t. ksimpl. by rewrite lookup_delete_ne. }
  change (k_mmio_in s) with (k_mmio_in t) in Hin.
  rewrite (bind_Ret _ _ _ _ _ (identified t (features :: st :: 0 :: max :: rest) Hin)).
  cbv iota zeta. rewrite !bind_wr, bind_rd, !bind_wr, bind_rd.
  match goal with |- context [has (hd 0 ?x mod _) _] => change x with (st :: 0 :: max :: rest) end.
  cbn [hd]. rewrite Hok. cbn [negb]. rewrite bind_wr, bind_rd.
  match goal with |- context [cbool (hd 0 ?x mod _)] => change x with (0 :: max :: rest) end.
  change (cbool (hd 0 (0 :: max :: rest) mod 2 ^ 32)) with false. cbv iota. rewrite bind_rd.
  match goal with |- context [hd 0 ?x mod _ =? 0] => change x with (max :: rest) end. cbn [hd].
  rewrite (Z.mod_small max) by (unfold NUM in Hmax; lia).
  rewrite (proj2 (Z.eqb_neq max 0)), (proj2 (Z.ltb_ge max NUM)) by (unfold NUM in *; lia).
  match goal with |- context [bind kalloc _ ?x] => set (u := x) end.
  assert (kmem_rep u (p1 :: p2 :: p3 :: l)) as Hku by (by apply (kmem_rep_ext t)).
  by apply (init_queue u rest).
Qed.

End Init.

(** ** A device *)

(** Buffers one after another, as the array [bcache.buf] has them. *)
#[local] Instance demo_dma : DmaLayout := {|
  ops_addr := fun i => 0x80010000 + 16 * Z.of_nat i;
  data_addr := fun b => 0x80020000 + 1024 * Z.of_nat b;
  status_addr := fun i => 0x80011000 + 16 * Z.of_nat i;
|}.

(** A device that takes the next entry of the available ring and follows its
    chain to the command and the buffer. *)
Definition demo_step (s : kstate) : kstate :=
  let d := s.(k_vdisk) in
  let m := s.(k_mem) in
  let u := load16 m (used_idx d.(vd_used)) in
  let i0 := Z.to_nat (load16 m (avail_ring d.(vd_avail) (u mod NUM))) in
  let i1 := Z.to_nat (load16 m (desc_next d.(vd_desc) i0)) in
  let b := Z.to_nat ((load64 m (desc_addr d.(vd_desc) i1) - 0x80020000) / 1024) in
  let cmd := d.(vd_ops) !!! i0 in
  set_mem (store16 (store32 m (used_ring_id d.(vd_used) (u mod NUM)) (Z.of_nat i0))
             (used_idx d.(vd_used)) (u + 1))
    (upd_vdisk (fun d => set_vd_info_status (<[i0 := 0]> d.(vd_info_status)) d)
       (transferred b (cmd.(rq_type) =? VIRTIO_BLK_T_OUT) (cmd.(rq_sector) / 2) s)).

#[local] Instance demo_device : VirtioDevice := {| dev_step := demo_step; dev_blocks := 2000 |}.

#[local] Instance demo_device_ok : VirtioOk demo_device.
Proof.
  constructor; [done|]. intros s i0 i1 i2 b write n [P1 P2 (_ & _ & _ & P3) (P4 & _) _ P6] Hi0 Hi1 Hb Hn.
  set (u := load16 s.(k_mem) (used_idx s.(k_vdisk).(vd_used))) in *.
  assert (b < 30)%nat as Hb30 by exact Hb.
  assert (dev_step s = set_mem (store16 (store32 s.(k_mem) (used_ring_id s.(k_vdisk).(vd_used) (u mod NUM))
      (Z.of_nat i0)) (used_idx s.(k_vdisk).(vd_used)) (u + 1))
    (upd_vdisk (fun d => set_vd_info_status (<[i0 := 0]> d.(vd_info_status)) d) (transferred b write n s))) as E.
  { cbn [dev_step demo_device]. unfold demo_step. fold u. rewrite P2, Nat2Z.id, P3, Nat2Z.id, P4.
    rewrite (list_lookup_total_correct _ _ _ P6). cbn [rq_type rq_sector data_addr demo_dma].
    assert (u64 (2147614720 + 1024 * Z.of_nat b) = 2147614720 + 1024 * Z.of_nat b) as ->
      by (apply Z.mod_small; lia).
    replace (2147614720 + 1024 * Z.of_nat b - 2147614720) with (Z.of_nat b * 1024) by lia.
    rewrite (Z.mul_comm 2 n), !Z.div_mul, Nat2Z.id by done. by destruct write. }
  pose proof (mod_NUM u) as Hm. rewrite E. constructor; ksimpl; fold u.
  - done.
  - apply changed_in_bytes. unfold in_page, PGSIZE. intros x Hx. munfold. by mload.
  - munfold. mload. done.
  - munfold. mload. apply Z.mod_small. change (2 ^ (8 * Z.of_nat 4)) with (2 ^ 32). lia.
Qed.

(** Process 0 runs; buffer 3 is for block 5. *)
Definition demo_queue : vdisk :=
  mkvdisk 0x87000000 0x87001000 0x87002000 (replicate 8 true) 0 (replicate 8 None)
    (replicate 8 0) (replicate 8 inhabitant).

Definition demo_io : kstate :=
  set_vdisk demo_queue
    (set_bufs (alter (set_b_blockno 5) 3%nat (replicate 30 inhabitant))
       (set_procs (set_p_pid 1 (set_p_state RUNNING inhabitant) :: replicate 63 inhabitant)
          (set_hart (set_c_proc (Some 0%nat) inhabitant) inhabitant))).

Lemma virtio_request_correct_witness :
  let F : WaitFuel := 2%nat in
  exists s1 k s2 k2 s', virtio_disk_rw 3 true demo_io = Switch s1 k /\
    resume 0 s1 = Switch s2 k2 /\ k s2 = Ret tt s' /\ vd_inv s' /\
    disk_at s' 5 = replicate 1024 0.
Proof.
  intros F. destruct (virtio_request_correct 0 3 true demo_io 5)
    as (s1 & k & s2 & k2 & s' & H1 & _ & _ & _ & _ & H2 & H3 & H4 & H5 & _).
  - unfold wait_fuel, F. lia.
  - constructor; [split; simpl; [lia|done]|done|done|done|vm_compute; lia|done].
  - done.
  - done.
  - done.
  - constructor; try done; vm_compute; by left.
  - done.
  - vm_compute. lia.
  - done.
  - done.
  - cbn. lia.
  - exists s1, k, s2, k2, s'. split_and!; [exact H1|exact H2|exact H3|exact H4|].
    unfold disk_at. rewrite H5. cbn [k_disk set_procs set_mem set_vdisk set_mmio_in set_mmio_out].
    apply lookup_total_insert_eq.
Defined.
