(* ===== verification/Log.v ===== *)
(** * The redo log (log.c): definitions

    On disk the log is a header block, the count and the home block numbers
    as 32-bit words, followed by the logged blocks. *)

From S2P Require Import Prelude Params Mem State Spinlock CString Kalloc Vm Proc Sleeplock Bio.
From S2P Require Import Printf.

Section Log.
Context {I : KernelImage} {F : WaitFuel} {Disk : BlockDev}.

(** [log.lh.block[i]] *)
Definition lh_at (l : logst) (i : nat) : Z := l.(lh_block) !!! i.

(** Copy committed blocks from log to their home location. *)
Definition install_one (recovering : bool) (tail : nat) : K unit :=
  let! l := get k_log in
  let! lbuf := bread l.(l_dev) (l.(l_start) + Z.of_nat tail + 1) in
  let! dbuf := bread l.(l_dev) (lh_at l tail) in
  let! data := getb lbuf b_data in
  setb dbuf (set_b_data data) ;;
  bwrite dbuf ;;
  when (negb recovering) (bunpin dbuf) ;;
  brelse lbuf ;;
  brelse dbuf.

Definition install_trans (recovering : bool) : K unit :=
  let! l := get k_log in
  for_each (seq 0 (Z.to_nat l.(lh_n))) (install_one recovering).

(** The header as it is on disk. *)
Definition head_n (data : list Z) : Z := i32 (get32 data 0).
Definition head_block (data : list Z) (i : nat) : Z := i32 (get32 data (4 + 4 * Z.of_nat i)).

(** Read the log header from disk into the in-memory log header. *)
Definition read_head : K unit :=
  let! l := get k_log in
  let! b := bread l.(l_dev) l.(l_start) in
  let! data := getb b b_data in
  modify (upd_log (set_lh_n (head_n data))) ;;
  for_each (seq 0 (Z.to_nat (head_n data))) (fun i =>
    if Z.of_nat i >=? LOGSIZE then undefined else
    modify (upd_log (fun l => set_lh_block (<[i := head_block data i]> l.(lh_block)) l))) ;;
  brelse b.

(** Write in-memory log header to disk. *)
Definition write_head : K unit :=
  let! l := get k_log in
  let! b := bread l.(l_dev) l.(l_start) in
  setb b (fun x => set_b_data (set32 x.(b_data) 0 l.(lh_n)) x) ;;
  for_each (seq 0 (Z.to_nat l.(lh_n))) (fun i =>
    setb b (fun x =>
      set_b_data (set32 x.(b_data) (4 + 4 * Z.of_nat i) (lh_at l i)) x)) ;;
  bwrite b ;;
  brelse b.

Definition recover_from_log : K unit :=
  read_head ;;
  install_trans true ;;
  modify (upd_log (set_lh_n 0)) ;;
  write_head.

(** [sizeof(struct logheader)] is [4 + 4 * LOGSIZE]. *)
Definition initlog (dev : Z) (sb : superblock) : K unit :=
  if 4 + 4 * LOGSIZE >=? BSIZE then panic "initlog: too big logheader" else
  initlock log_lock ;;
  modify (upd_log (set_l_start sb.(sb_logstart))) ;;
  modify (upd_log (set_l_size sb.(sb_nlog))) ;;
  modify (upd_log (set_l_dev dev)) ;;
  recover_from_log.

(** The condition on which [begin_op] sleeps. *)
Definition log_full (l : logst) : bool :=
  l.(lh_n) + (l.(l_outstanding) + 1) * MAXOPBLOCKS >? LOGSIZE.

Fixpoint begin_op_loop (fuel : nat) : K unit :=
  match fuel with
  | O => fun _ => OutOfFuel
  | S fuel' =>
      let! l := get k_log in
      if l.(l_committing) then sleep log_chan log_lock ;; begin_op_loop fuel'
      else if log_full l then
        (* this op might exhaust log space; wait for commit. *)
        sleep log_chan log_lock ;; begin_op_loop fuel'
      else
        modify (upd_log (fun l => set_l_outstanding (l.(l_outstanding) + 1) l)) ;;
        release log_lock
  end.

Definition begin_op : K unit :=
  acquire log_lock ;;
  begin_op_loop wait_fuel.

(** Copy modified blocks from cache to log. *)
Definition write_log_one (tail : nat) : K unit :=
  let! l := get k_log in
  let! to := bread l.(l_dev) (l.(l_start) + Z.of_nat tail + 1) in
  let! from := bread l.(l_dev) (lh_at l tail) in
  let! data := getb from b_data in
  setb to (set_b_data data) ;;
  bwrite to ;;
  brelse from ;;
  brelse to.

Definition write_log : K unit :=
  let! l := get k_log in
  for_each (seq 0 (Z.to_nat l.(lh_n))) write_log_one.

Definition commit : K unit :=
  let! n := get (fun s => s.(k_log).(lh_n)) in
  if n >? 0 then
    write_log ;;
    write_head ;;
    install_trans false ;;
    modify (upd_log (set_lh_n 0)) ;;
    write_head
  else ret tt.

Definition end_op : K unit :=
  acquire log_lock ;;
  modify (upd_log (fun l => set_l_outstanding (l.(l_outstanding) - 1) l)) ;;
  let! l := get k_log in
  if l.(l_committing) then panic "log.committing" else
  (if l.(l_outstanding) =? 0 then modify (upd_log (set_l_committing true))
   else wakeup (Some log_chan)) ;;
  release log_lock ;;
  when (l.(l_outstanding) =? 0)
    (commit ;;
     acquire log_lock ;;
     modify (upd_log (set_l_committing false)) ;;
     wakeup (Some log_chan) ;;
     release log_lock).

(** The index of [blockno] among the first [n] entries, or [n]. *)
Fixpoint log_slot (blocks : list Z) (n : nat) (blockno : Z) : nat :=
  match n, blocks with
  | S n', x :: blocks' => if x =? blockno then 0%nat else S (log_slot blocks' n' blockno)
  | _, _ => 0%nat
  end.

Definition log_write (b : nat) : K unit :=
  acquire log_lock ;;
  let! l := get k_log in
  if (l.(lh_n) >=? LOGSIZE) || (l.(lh_n) >=? l.(l_size) - 1) then
    panic "too big a transaction" else
  if l.(l_outstanding) <? 1 then panic "log_write outside of trans" else
  let! blockno := getb b b_blockno in
  let i := log_slot l.(lh_block) (Z.to_nat l.(lh_n)) blockno in
  modify (upd_log (fun l => set_lh_block (<[i := blockno]> l.(lh_block)) l)) ;;
  when (Z.of_nat i =? l.(lh_n))
    (bpin b ;;
     modify (upd_log (fun l => set_lh_n (l.(lh_n) + 1) l))) ;;
  release log_lock.

End Log.
