(* ===== verification/Block.v ===== *)
(** * Disk blocks: words and fields inside a block, the log header

    Lemmas on the accessors of Bio.v, and the on-disk log header as a
    function of the list of logged blocks. *)

From S2P Require Import Prelude Params Mem State Spinlock CString Kalloc Vm Proc Sleeplock Bio Printf Log.

(** The [n] bytes at offset [off]. *)
Definition field (d : list Z) (off n : nat) : list Z := take n (drop off d).

Lemma length_splice d off bs :
  (Z.to_nat off + length bs <= length d)%nat -> length (splice d off bs) = length d.
Proof. intros H. unfold splice. rewrite !length_app, length_take, length_drop. lia. Qed.

Lemma field_splice_same d off bs :
  (Z.to_nat off + length bs <= length d)%nat ->
  field (splice d off bs) (Z.to_nat off) (length bs) = bs.
Proof.
  intros H. unfold field, splice. rewrite drop_app_length' by (rewrite length_take; lia).
  by rewrite take_app_length.
Qed.

Lemma field_splice_other d off bs o n :
  (Z.to_nat off + length bs <= length d)%nat ->
  (o + n <= Z.to_nat off \/ Z.to_nat off + length bs <= o)%nat ->
  field (splice d off bs) o n = field d o n.
Proof.
  intros H Ho. set (k := Z.to_nat off) in *. unfold field, splice. fold k.
  apply list_eq. intros i. destruct (decide (i < n)%nat) as [Hi|Hi].
  2:{ by rewrite !lookup_take_ge by lia. }
  rewrite !lookup_take_lt by done. rewrite !lookup_drop.
  assert (length (take k d) = k) as Hk by (rewrite length_take; lia).
  destruct Ho.
  - rewrite lookup_app_l by lia. by rewrite lookup_take_lt by lia.
  - rewrite lookup_app_r by lia. rewrite lookup_app_r by lia. rewrite lookup_drop, Hk. f_equal. lia.
Qed.

Lemma length_set32 d off v :
  (Z.to_nat off + 4 <= length d)%nat -> length (set32 d off v) = length d.
Proof. intros H. apply length_splice. by rewrite length_le_encode. Qed.

Lemma get32_set32 d off v :
  (Z.to_nat off + 4 <= length d)%nat -> 0 <= v < 2 ^ 32 -> get32 (set32 d off v) off = v.
Proof.
  intros H Hv. unfold get32, set32.
  pose proof (field_splice_same d off (le_encode 4 v)) as Hs. rewrite length_le_encode in Hs.
  unfold field in Hs. rewrite Hs by done. rewrite le_decode_encode. by apply Z.mod_small.
Qed.

Lemma get32_set32_ne d off off' v :
  0 <= off -> 0 <= off' -> (Z.to_nat off + 4 <= length d)%nat -> off + 4 <= off' \/ off' + 4 <= off ->
  get32 (set32 d off v) off' = get32 d off'.
Proof.
  intros H0 H1 H Ho. unfold get32, set32.
  pose proof (field_splice_other d off (le_encode 4 v) (Z.to_nat off') 4) as Hs.
  rewrite length_le_encode in Hs. unfold field in Hs. rewrite Hs; [done|done|lia].
Qed.

Lemma i32_id v : 0 <= v < 2 ^ 31 -> i32 v = v.
Proof.
  intros H. unfold i32, signed. rewrite Z.mod_small by lia. case_cmp; lia.
Qed.

(** ** The log header *)

(** The header block that [write_head] makes of [d]. *)
Definition header (d : list Z) (bs : list Z) : list Z :=
  fold_left (fun d i => set32 d (4 + 4 * Z.of_nat i) (bs !!! i)) (seq 0 (length bs))
    (set32 d 0 (Z.of_nat (length bs))).

(** The blocks that a header lists. *)
Definition logged (d : list Z) : list Z := map (head_block d) (seq 0 (Z.to_nat (head_n d))).

(** A block number as the log stores it, an [int]. *)
Definition blk_ok (n : Z) : Prop := 0 <= n < 2 ^ 31.

Definition header_fold (bs : list Z) (d : list Z) (k : nat) : list Z :=
  fold_left (fun d i => set32 d (4 + 4 * Z.of_nat i) (bs !!! i)) (seq 0 k) d.

Lemma length_header_fold bs d k :
  (4 + 4 * k <= length d)%nat -> length (header_fold bs d k) = length d.
Proof.
  induction k as [|k IH]; intros H; [done|]. unfold header_fold in *. rewrite seq_S, fold_left_app.
  simpl. rewrite length_set32; [apply IH; lia|]. rewrite IH by lia. lia.
Qed.

Lemma header_fold_n bs d k :
  (4 + 4 * k <= length d)%nat -> get32 (header_fold bs d k) 0 = get32 d 0.
Proof.
  induction k as [|k IH]; intros H; [done|]. pose proof (length_header_fold bs d k ltac:(lia)) as Hl.
  unfold header_fold in *. rewrite seq_S, fold_left_app. simpl.
  rewrite get32_set32_ne; [apply IH; lia|lia|lia|lia|lia].
Qed.

Lemma header_fold_block bs d k i :
  (4 + 4 * k <= length d)%nat -> (i < k)%nat -> Forall blk_ok bs -> (k <= length bs)%nat ->
  get32 (header_fold bs d k) (4 + 4 * Z.of_nat i) = bs !!! i.
Proof.
  intros H Hi Hb. induction k as [|k IH]; intros Hk; [lia|].
  pose proof (length_header_fold bs d k ltac:(lia)) as Hl.
  unfold header_fold in *. rewrite seq_S, fold_left_app. simpl.
  destruct (decide (i = k)) as [->|Hne].
  - apply get32_set32; [lia|]. destruct (lookup_lt_is_Some_2 bs k) as [x Hx]; [lia|].
    rewrite (list_lookup_total_correct _ _ _ Hx). eapply Forall_lookup_1 in Hb; [|exact Hx].
    unfold blk_ok in Hb. lia.
  - rewrite get32_set32_ne; [apply IH; lia|lia|lia|lia|lia].
Qed.

Lemma length_header d bs :
  (4 + 4 * length bs <= length d)%nat -> length (header d bs) = length d.
Proof.
  intros H. unfold header. fold (header_fold bs (set32 d 0 (Z.of_nat (length bs))) (length bs)).
  rewrite length_header_fold; rewrite length_set32; simpl; lia.
Qed.

(** Reading back what was written. *)
Lemma logged_header d bs :
  (4 + 4 * length bs <= length d)%nat -> Z.of_nat (length bs) < 2 ^ 31 -> Forall blk_ok bs ->
  head_n (header d bs) = Z.of_nat (length bs) /\ logged (header d bs) = bs.
Proof.
  intros H Hn Hb. unfold header. set (d0 := set32 d 0 _).
  fold (header_fold bs d0 (length bs)).
  assert (length d0 = length d) as Hd0 by (unfold d0; apply length_set32; simpl; lia).
  assert (head_n (header_fold bs d0 (length bs)) = Z.of_nat (length bs)) as Hh.
  { unfold head_n. rewrite header_fold_n by lia. unfold d0. rewrite get32_set32; [|simpl; lia|lia].
    apply i32_id. lia. }
  split; [done|]. unfold logged. rewrite Hh, Nat2Z.id. apply list_eq. intros i.
  destruct (decide (i < length bs)%nat) as [Hi|Hi].
  - rewrite list_lookup_fmap, lookup_seq_lt by done. simpl. unfold head_block.
    rewrite header_fold_block by (done || lia).
    destruct (lookup_lt_is_Some_2 bs i) as [x Hx]; [lia|].
    rewrite (list_lookup_total_correct _ _ _ Hx), Hx. f_equal. apply i32_id.
    by eapply Forall_lookup_1 in Hb; [|exact Hx].
  - rewrite !lookup_ge_None_2; [done|lia|]. rewrite length_map, length_seq. lia.
Qed.
