(* ===== verification/LogSpec.v ===== *)
(** * The redo log (log.c): what the operations write

    Each operation is described by the list of the blocks it writes to the
    disk, in order; [did] relates the states before and after it. *)

From S2P Require Import Prelude Params Mem State Spinlock CString Kalloc Vm Proc ProcSpec Sleeplock.
From S2P Require Import Sleeplock Dll Bio BioSpec Printf Log Block.

(** ** Sequences of block writes *)

Definition vapply (ws : list (Z * list Z)) (V : Z -> list Z) : Z -> list Z :=
  fold_left (fun V w => zupd V w.1 w.2) ws V.

Definition dapply (ws : list (Z * list Z)) (D : gmap Z (list Z)) : gmap Z (list Z) :=
  fold_left (fun D w => <[w.1 := w.2]> D) ws D.

Lemma vapply_app ws ws' V : vapply (ws ++ ws') V = vapply ws' (vapply ws V).
Proof. apply fold_left_app. Qed.

Lemma dapply_app ws ws' D : dapply (ws ++ ws') D = dapply ws' (dapply ws D).
Proof. apply fold_left_app. Qed.

Lemma zupd_proper {A} (f g : Z -> A) n v m : (forall x, f x = g x) -> zupd f n v m = zupd g n v m.
Proof. intros H. unfold zupd. by destruct (decide (m = n)). Qed.

Lemma vapply_proper ws V V' : (forall n, V n = V' n) -> forall n, vapply ws V n = vapply ws V' n.
Proof.
  revert V V'. induction ws as [|w ws IH]; intros V V' H; simpl; [done|].
  apply IH. intros n. by apply zupd_proper.
Qed.

Lemma dapply_at ws D n : dapply ws D !!! n = vapply ws (fun n => D !!! n) n.
Proof.
  revert D. induction ws as [|w ws IH]; intros D; simpl; [done|].
  rewrite IH. apply vapply_proper. intros m. unfold zupd. destruct (decide (m = w.1)) as [->|].
  - apply lookup_total_insert_eq.
  - by apply lookup_total_insert_ne.
Qed.

Lemma vapply_other ws V n : n ∉ ws.*1 -> vapply ws V n = V n.
Proof.
  revert V. induction ws as [|w ws IH]; intros V H; simpl; [done|]. simpl in H.
  rewrite IH by set_solver. apply zupd_ne. set_solver.
Qed.

(** A block that is written once. *)
Lemma vapply_in ws V n d : NoDup ws.*1 -> (n, d) ∈ ws -> vapply ws V n = d.
Proof.
  revert V. induction ws as [|w ws IH]; intros V Hnd Hin; [by apply elem_of_nil in Hin|].
  simpl in *. apply NoDup_cons in Hnd as [Hn Hnd]. apply elem_of_cons in Hin as [<-|Hin].
  - rewrite vapply_other by done. apply zupd_eq.
  - by apply IH.
Qed.

(** ** Steps *)

Section LogSpec.
Context {F : WaitFuel} {Disk : BlockDev} {DO : DiskOk Disk}.

(** [s'] is the state after writing [ws], with the cache as given. *)
Record did (p : nat) (s s' : kstate) (V : Z -> list Z) (R : Z -> Z) (held : list (Z * nat))
    (ws : list (Z * list Z)) : Prop := {
  did_bc : bc p s' V R held;
  did_frame : bio_frame p s s';
  did_disk : s'.(k_disk) = dapply ws s.(k_disk);
  did_writes : s'.(k_diskwrites) = rev ws ++ s.(k_diskwrites);
}.

Lemma did_nil p s V R held : bc p s V R held -> did p s s V R held [].
Proof. intros H. constructor; [done|apply bio_frame_refl|done|done]. Qed.

Lemma did_trans p s1 s2 s3 V V' R R' h h' ws ws' :
  did p s1 s2 V R h ws -> did p s2 s3 V' R' h' ws' -> did p s1 s3 V' R' h' (ws ++ ws').
Proof.
  intros [_ F1 D1 W1] [B2 F2 D2 W2]. constructor.
  - done.
  - by eapply bio_frame_trans.
  - by rewrite D2, D1, dapply_app.
  - by rewrite W2, W1, rev_app_distr, app_assoc.
Qed.

Lemma did_ext p s s' V V' R R' held ws :
  (forall n, V' n = V n) -> (forall n, R' n = R n) ->
  did p s s' V R held ws -> did p s s' V' R' held ws.
Proof. intros HV HR [B ? ? ?]. constructor; [by eapply bc_ext|done|done|done]. Qed.

(** The state of a process that may use the disk. *)
Definition ready (s : kstate) : Prop := bio_free s.(k_locks) /\ s.(k_hart).(c_noff) = 0.

Lemma did_ready p s s' V R held ws : did p s s' V R held ws -> ready s -> ready s'.
Proof.
  intros H [Hf Hn]. pose proof (did_frame _ _ _ _ _ _ _ H) as Hfr. split.
  - by rewrite (bio_frame_locks p s).
  - by rewrite (bio_frame_hart p s).
Qed.

Lemma did_log p s s' V R held ws : did p s s' V R held ws -> s'.(k_log) = s.(k_log).
Proof. intros H. apply (bio_frame_log p), H. Qed.

Lemma did_get_log p s s' V R held ws :
  did p s s' V R held ws -> get k_log s' = Ret s.(k_log) s'.
Proof. intros H. exact (f_equal (fun l => Ret l s') (did_log _ _ _ _ _ _ _ H)). Qed.

Lemma did_upd_log p s s' V R held ws f :
  did p s s' V R held ws -> modify (upd_log f) s' = Ret tt (set_log (f s.(k_log)) s').
Proof. intros H. exact (f_equal (fun l => Ret tt (set_log (f l) s')) (did_log _ _ _ _ _ _ _ H)). Qed.

Lemma did_release p s V R held held' n b :
  bc p s V R held -> ready s -> held ≡ₚ (n, b) :: held' ->
  (R n = 1 -> V n = disk_at s n) ->
  exists s', brelse b s = Ret tt s' /\ did p s s' V (zupd R n (R n - 1)) held' [].
Proof.
  intros Hbc [Hf _] Hp Hc. destruct (brelse_ok p s V R held held' n b) as (s' & Hr & H1 & H2 & H3 & H4); try done.
  exists s'. by split.
Qed.

Lemma did_write p s V R held n b :
  bc p s V R held -> ready s -> (n, b) ∈ held ->
  exists s', bwrite b s = Ret tt s' /\ did p s s' V R held [(n, V n)].
Proof.
  intros Hbc [Hf Hn] Hp. destruct (bwrite_ok p s V R held n b) as (s' & Hr & H1 & H2 & H3 & H4); try done.
  exists s'. by split.
Qed.

Lemma did_set p s V R held n b f :
  bc p s V R held -> (n, b) ∈ held ->
  did p s (upd_buf b (fun x => set_b_data (f x.(b_data)) x) s) (zupd V n (f (V n))) R held [].
Proof.
  intros Hbc Hin. constructor; [by apply setb_fun|apply bio_frame_upd_buf|done|done].
Qed.

Lemma did_unpin p s V R held n b :
  bc p s V R held -> ready s -> (n, b) ∈ held -> 1 < R n ->
  exists s', bunpin b s = Ret tt s' /\ did p s s' V (zupd R n (R n - 1)) held [].
Proof.
  intros Hbc [Hf _] Hin HR. destruct (bunpin_ok p s V R held n b) as (s' & Hr & H1 & H2); try done.
  exists s'. split; [done|]. constructor; [done| |by rewrite H2|by rewrite H2].
  rewrite H2. apply (bio_frame_local p s _ s.(k_bhead)).
Qed.

(** The in-memory header lists the blocks [bs]. *)
Record log_is (l : logst) (start : Z) (bs : list Z) : Prop := {
  li_dev : l.(l_dev) = ROOTDEV;
  li_start : l.(l_start) = start;
  li_n : l.(lh_n) = Z.of_nat (length bs);
  li_len : length l.(lh_block) = Z.to_nat LOGSIZE;
  li_blocks : take (length bs) l.(lh_block) = bs;
}.

Lemma lh_at_log_is l start bs i : log_is l start bs -> (i < length bs)%nat -> lh_at l i = bs !!! i.
Proof.
  intros H Hi. unfold lh_at. rewrite <- (li_blocks _ _ _ H) at 1.
  rewrite !list_lookup_total_alt. by rewrite lookup_take_lt.
Qed.

Definition log_blk (start : Z) (i : nat) : Z := start + Z.of_nat i + 1.

(** The buffers that reading [x] and then [y] needs are available. *)
Definition room (R : Z -> Z) (x y : Z) : Prop :=
  (0 < R x \/ roomy R) /\ (0 < R y \/ roomy (zupd R x (R x + 1))).

(** A block read and not written may be released. *)
Lemma read_clean p s V R held n : bc p s V R held -> R n + 1 = 1 -> V n = disk_at s n.
Proof.
  intros Hbc HR. destruct (bt_clean _ _ _ _ _ _ (bc_tab _ _ _ _ _ Hbc) n); [done|lia].
Qed.

Lemma log_is_le l start bs : log_is l start bs -> (length bs <= Z.to_nat LOGSIZE)%nat.
Proof.
  intros H. rewrite <- (li_blocks _ _ _ H), <- (li_len _ _ _ H), length_take. lia.
Qed.

(** A block outside the log, which has [nlog] blocks with its header. *)
Definition home (start nlog n : Z) : Prop := n < start \/ start + nlog <= n.

(** The logged blocks fit into the log, and are not blocks of it. *)
Definition apart (start nlog : Z) (bs : list Z) : Prop :=
  Z.of_nat (length bs) < nlog /\ forall n, n ∈ bs -> home start nlog n.

Lemma apart_ne start nlog bs i j :
  apart start nlog bs -> (i < length bs)%nat -> (j < length bs)%nat -> log_blk start j <> bs !!! i.
Proof.
  intros [Hl H] Hi Hj E. destruct (H (bs !!! i)); unfold log_blk in *; [|lia|lia].
  by apply list_elem_of_lookup_total_2.
Qed.

Definition pinned (R : Z -> Z) (bs : list Z) : Prop :=
  forall i, (i < length bs)%nat -> 0 < R (bs !!! i).

Definition unpinned (R : Z -> Z) (l : list Z) : Z -> Z :=
  fold_left (fun R n => zupd R n (R n - 1)) l R.

(** What [write_log] and [install_trans] write. *)
Definition log_copies (start : Z) (bs : list Z) (V : Z -> list Z) (i m : nat) : list (Z * list Z) :=
  map (fun j => (log_blk start j, V (bs !!! j))) (seq i m).
Definition installs (start : Z) (bs : list Z) (V : Z -> list Z) (i m : nat) : list (Z * list Z) :=
  map (fun j => (bs !!! j, V (log_blk start j))) (seq i m).

Lemma roomy_mono R R' : (forall n, R' n <= R n) -> roomy R -> roomy R'.
Proof.
  intros H (live & Hl & Hn). exists live. split; [|done]. intros n Hr. apply Hl.
  specialize (H n). lia.
Qed.

Lemma NoDup_lookup_total (l : list Z) i j :
  l !!! i = l !!! j -> NoDup l -> (i < length l)%nat -> (j < length l)%nat -> i = j.
Proof.
  intros E Hnd Hi Hj. eapply NoDup_lookup; [done|by apply list_lookup_lookup_total_lt|].
  rewrite E. by apply list_lookup_lookup_total_lt.
Qed.

(** What [commit] writes: the log, the header, the home locations, and an
    empty header. *)
Definition commit_writes (start : Z) (bs : list Z) (V : Z -> list Z) : list (Z * list Z) :=
  log_copies start bs V 0 (length bs) ++ [(start, header (V start) bs)] ++
  map (fun n => (n, V n)) bs ++ [(start, header (header (V start) bs) [])].

Lemma log_copies_fst start bs V i m : (log_copies start bs V i m).*1 = map (log_blk start) (seq i m).
Proof. exact (map_map (fun j => (log_blk start j, V (bs !!! j))) fst (seq i m)). Qed.

Lemma homes_fst (V : Z -> list Z) bs : (map (fun n => (n, V n)) bs).*1 = bs.
Proof. etransitivity; [exact (map_map (fun n => (n, V n)) fst bs)|apply map_id]. Qed.

Lemma log_blk_NoDup start i m : NoDup (map (log_blk start) (seq i m)).
Proof.
  apply NoDup_fmap_2_strong; [|apply NoDup_seq]. intros x y _ _. unfold log_blk. lia.
Qed.

Lemma vapply_log_start start bs V i m : vapply (log_copies start bs V i m) V start = V start.
Proof.
  apply vapply_other. rewrite log_copies_fst. intros H. apply list_elem_of_fmap in H as (j & E & _).
  unfold log_blk in E. lia.
Qed.

Lemma apart_start start nlog bs : apart start nlog bs -> start ∉ bs.
Proof. intros [Hl H] Hin. destruct (H start Hin); lia. Qed.

Lemma map_lookup_seq (bs : list Z) : map (fun j => bs !!! j) (seq 0 (length bs)) = bs.
Proof.
  apply list_eq. intros i. destruct (decide (i < length bs)%nat) as [Hi|Hi].
  - rewrite list_lookup_fmap, lookup_seq_lt by done. simpl. symmetry. by apply list_lookup_lookup_total_lt.
  - rewrite !lookup_ge_None_2; [done|lia|]. rewrite length_map, length_seq. lia.
Qed.

(** What is installed is what was logged. *)
Lemma installs_logged start bs V D h :
  installs start bs (zupd (vapply (log_copies start bs V 0 (length bs)) D) start h) 0 (length bs) =
  map (fun n => (n, V n)) bs.
Proof.
  replace (map (fun n => (n, V n)) bs) with (map (fun j => (bs !!! j, V (bs !!! j))) (seq 0 (length bs)))
    by (by rewrite <- (map_map (fun j => bs !!! j) (fun n => (n, V n))), map_lookup_seq). apply map_ext_in.
  intros j Hj. apply in_seq in Hj. f_equal. rewrite zupd_ne by (unfold log_blk; lia).
  apply vapply_in.
  - rewrite log_copies_fst. apply log_blk_NoDup.
  - apply list_elem_of_fmap. exists j. split; [done|]. apply elem_of_seq. lia.
Qed.

Lemma unpinned_le R l n : unpinned R l n <= R n.
Proof.
  revert R. induction l as [|x l IH]; intros R; [done|]. unfold unpinned in *. simpl.
  etransitivity; [apply IH|]. unfold zupd. case_decide; subst; lia.
Qed.

(** The log is not part of what the cache uses. *)
Lemma bc_set_log p s V R held l : bc p s V R held -> bc p (set_log l s) V R held.
Proof.
  intros [Hl [bl Hr] Ht Hc Hrun Hi]. constructor; [done|by exists bl|done| |done|].
  - by apply (calm_ext p s).
  - by apply (disk_inv_ext s).
Qed.

Lemma did_set_log p s s' V R held ws l :
  did p s s' V R held ws -> did p (set_log l s) (set_log l s') V R held ws.
Proof.
  intros [B (E & Hw & Hm & Hq) D W]. constructor; [by apply bc_set_log| |done|done].
  split_and!; [|done|done|done]. rewrite E. done.
Qed.

(** The header block [d] lists the blocks [bs]. *)
Definition head_lists (d : list Z) (bs : list Z) : Prop :=
  head_n d = Z.of_nat (length bs) /\ logged d = bs /\ (length bs <= Z.to_nat LOGSIZE)%nat.

(** The loop of [read_head]. *)
Definition read_blocks (d : list Z) (k : nat) (bl : list Z) : list Z :=
  fold_left (fun bl i => <[i := head_block d i]> bl) (seq 0 k) bl.

Lemma length_read_blocks d k bl : length (read_blocks d k bl) = length bl.
Proof.
  unfold read_blocks. generalize (seq 0 k). intros l. revert bl.
  induction l as [|i l IH]; intros bl; simpl; [done|]. by rewrite IH, length_insert.
Qed.

Lemma take_read_blocks d k bl :
  (k <= length bl)%nat -> take k (read_blocks d k bl) = map (head_block d) (seq 0 k).
Proof.
  intros H. unfold read_blocks. induction k as [|k IH]; [by rewrite take_0|].
  rewrite seq_S, fold_left_app, map_app. simpl.
  pose proof (length_read_blocks d k bl) as Hl. unfold read_blocks in Hl.
  rewrite (take_S_r _ _ (head_block d k)) by (apply list_lookup_insert_eq; lia).
  rewrite take_insert_ge by lia. by rewrite IH by lia.
Qed.

Lemma read_head_loop d m : forall i (s : kstate), (i + m <= Z.to_nat LOGSIZE)%nat ->
  for_each (seq i m) (fun i =>
    if Z.of_nat i >=? LOGSIZE then undefined else
    modify (upd_log (fun l => set_lh_block (<[i := head_block d i]> l.(lh_block)) l))) s =
  Ret tt (upd_log (fun l => set_lh_block
    (fold_left (fun bl i => <[i := head_block d i]> bl) (seq i m) l.(lh_block)) l) s).
Proof.
  induction m as [|m IH]; intros i s H; cbn [for_each seq fold_left]; [done|].
  destruct (Z.geb_spec (Z.of_nat i) LOGSIZE) as [Hge|_]; [lia|].
  erewrite bind_Ret by done. by rewrite IH by lia.
Qed.

(** What recovery writes when the header lists [bs]. *)
Definition recover_writes (start : Z) (bs : list Z) (V : Z -> list Z) : list (Z * list Z) :=
  installs start bs V 0 (length bs) ++ [(start, header (V start) [])].

Lemma installs_fst start bs V : (installs start bs V 0 (length bs)).*1 = bs.
Proof.
  etransitivity; [|apply map_lookup_seq].
  exact (map_map (fun j => (bs !!! j, V (log_blk start j))) fst (seq 0 (length bs))).
Qed.

Lemma vapply_install_start start nlog bs V :
  apart start nlog bs -> vapply (installs start bs V 0 (length bs)) V start = V start.
Proof. intros H. apply vapply_other. rewrite installs_fst. by eapply apart_start. Qed.

(** A loop of stores into one block. *)
Lemma did_sets p (g : nat -> list Z -> list Z) l : forall s V R held n b,
  bc p s V R held -> (n, b) ∈ held ->
  exists s', for_each l (fun i => setb b (fun x => set_b_data (g i x.(b_data)) x)) s = Ret tt s' /\
    did p s s' (zupd V n (fold_left (fun d i => g i d) l (V n))) R held [].
Proof.
  induction l as [|i l IH]; intros s V R held n b Hbc Hin; cbn [for_each fold_left].
  - exists s. split; [done|]. apply did_nil. eapply bc_ext; [| |exact Hbc]; [|done].
    intros m. unfold zupd. by case_decide; subst.
  - pose proof (did_set p s V R held n b (g i) Hbc Hin) as Hd. set (s1 := upd_buf b _ s) in Hd.
    destruct (IH s1 (zupd V n (g i (V n))) R held n b (did_bc _ _ _ _ _ _ _ Hd) Hin) as (s2 & Hr & Hd2).
    exists s2. unfold setb at 1. rewrite (bind_Ret _ _ s tt s1) by done. split; [done|].
    rewrite zupd_eq in Hd2. eapply did_ext; [| |exact (did_trans _ _ _ _ _ _ _ _ _ _ _ _ Hd Hd2)]; [|done].
    intros m. unfold zupd. by case_decide.
Qed.

Lemma fold_left_ext_in {A B} (f g : A -> B -> A) l a :
  (forall x y, y ∈ l -> f x y = g x y) -> fold_left f l a = fold_left g l a.
Proof.
  revert a. induction l as [|y l IH]; intros a H; simpl; [done|]. rewrite H by set_solver.
  apply IH. intros x z Hz. apply H. set_solver.
Qed.

Section Steps.
Context (Hfuel : (0 < wait_fuel)%nat).

Lemma did_read p s V R held n :
  bc p s V R held -> ready s -> n ∉ held.*1 -> R n + 1 < 2 ^ 31 -> 0 < R n \/ roomy R ->
  exists b s', bread ROOTDEV n s = Ret b s' /\
    did p s s' V (zupd R n (R n + 1)) ((n, b) :: held) [].
Proof using All.
  intros Hbc [Hf Hn] Hin HR Hroom.
  destruct (bread_ok Hfuel p s V R held n) as (b & s' & Hr & H1 & H2 & H3 & H4); try done.
  exists b, s'. by split.
Qed.

(** Two blocks in turn. *)
Lemma did_read2 p s V R x y :
  bc p s V R [] -> ready s -> x <> y -> (forall n, R n + 1 < 2 ^ 31) ->
  0 < R x \/ roomy R -> 0 < R y \/ roomy (zupd R x (R x + 1)) ->
  exists bx b_y s', (forall (k : nat -> nat -> K unit),
      (let! a := bread ROOTDEV x in let! b := bread ROOTDEV y in k a b) s = k bx b_y s') /\
    did p s s' V (zupd (zupd R x (R x + 1)) y (R y + 1)) [(y, b_y); (x, bx)] [].
Proof using All.
  intros Hbc Hrd Hxy HR Hx Hy.
  destruct (did_read p s V R [] x) as (bx & s1 & Hr1 & Hd1); try done; [set_solver|].
  destruct (did_read p s1 V (zupd R x (R x + 1)) [(x, bx)] y) as (b_y & s2 & Hr2 & Hd2).
  - apply Hd1.
  - by eapply did_ready.
  - set_solver.
  - by rewrite zupd_ne.
  - by rewrite zupd_ne.
  - rewrite zupd_ne in Hd2 by done. exists bx, b_y, s2. split.
    + intros k. erewrite bind_Ret by exact Hr1. by erewrite bind_Ret by exact Hr2.
    + exact (did_trans _ _ _ _ _ _ _ _ _ _ [] [] Hd1 Hd2).
Qed.

(** Copying one locked block to another, and to the disk. *)
Lemma did_copy p s V R held x bx y b_y :
  bc p s V R held -> ready s -> (x, bx) ∈ held -> (y, b_y) ∈ held ->
  exists s', (forall (k : K unit),
      (let! data := getb bx b_data in setb b_y (set_b_data data) ;; bwrite b_y ;; k) s = k s') /\
    did p s s' (zupd V y (V x)) R held [(y, V x)].
Proof using Type.
  intros Hbc Hrd Hx Hy. destruct (held_data _ _ _ _ _ _ _ Hbc Hx) as (Ex & _ & _).
  pose proof (did_set p s V R held y b_y (fun _ => V x) Hbc Hy) as Hd1. cbv beta in Hd1.
  set (s1 := upd_buf b_y _ s) in Hd1.
  destruct (did_write p s1 (zupd V y (V x)) R held y b_y) as (s2 & Hr2 & Hd2);
    [apply Hd1|by eapply did_ready|done|].
  exists s2. split.
  - intros k. unfold getb, setb. erewrite bind_Ret by done. erewrite (bind_Ret _ _ _ tt s1).
    + by erewrite bind_Ret by exact Hr2.
    + unfold s1. by rewrite <- Ex.
  - rewrite zupd_eq in Hd2. exact (did_trans _ _ _ _ _ _ _ _ _ _ [] _ Hd1 Hd2).
Qed.

(** ** Logging and installing one block *)

Lemma write_log_one_ok p s V R start bs i :
  bc p s V R [] -> ready s -> log_is s.(k_log) start bs -> (i < length bs)%nat ->
  log_blk start i <> bs !!! i -> (forall n, R n + 1 < 2 ^ 31) -> room R (log_blk start i) (bs !!! i) ->
  exists s', write_log_one i s = Ret tt s' /\
    did p s s' (zupd V (log_blk start i) (V (bs !!! i))) R [] [(log_blk start i, V (bs !!! i))].
Proof using All.
  intros Hbc Hrd Hlog Hi Hne HR [Hr1 Hr2]. set (x := log_blk start i) in *. set (y := bs !!! i) in *.
  unfold write_log_one. set (l := s.(k_log)) in Hlog. rewrite (bind_Ret (get k_log) _ s l s eq_refl).
  rewrite (li_dev _ _ _ Hlog), (li_start _ _ _ Hlog), (lh_at_log_is _ _ _ _ Hlog Hi).
  destruct (did_read2 p s V R x y) as (bx & b_y & s1 & Hk & Hd1); try done.
  rewrite (Hk (fun a b => _)). clear Hk.
  destruct (did_copy p s1 V (zupd (zupd R x (R x + 1)) y (R y + 1)) [(y, b_y); (x, bx)] y b_y x bx)
    as (s2 & Hk & Hd2); [apply Hd1|by eapply did_ready|set_solver|set_solver|].
  rewrite Hk. clear Hk. pose proof (did_trans _ _ _ _ _ _ _ _ _ _ _ _ Hd1 Hd2) as Hd. simpl in Hd.
  destruct (did_release p s2 _ _ _ [(x, bx)] y b_y (did_bc _ _ _ _ _ _ _ Hd)) as (s3 & Hr3 & Hd3);
    [by eapply did_ready|done| |].
  { rewrite zupd_eq, zupd_ne by done. intros E. rewrite (read_clean p s V R [] y) by done.
    unfold disk_at. rewrite (did_disk _ _ _ _ _ _ _ Hd). simpl.
    by rewrite lookup_total_insert_ne by done. }
  erewrite bind_Ret by exact Hr3. pose proof (did_trans _ _ _ _ _ _ _ _ _ _ _ _ Hd Hd3) as Hd'.
  destruct (did_release p s3 _ _ _ [] x bx (did_bc _ _ _ _ _ _ _ Hd')) as (s4 & Hr4 & Hd4);
    [by eapply did_ready|done| |].
  { intros _. rewrite zupd_eq. unfold disk_at. rewrite (did_disk _ _ _ _ _ _ _ Hd'). simpl.
    by rewrite lookup_total_insert_eq. }
  exists s4. split; [done|]. pose proof (did_trans _ _ _ _ _ _ _ _ _ _ _ _ Hd' Hd4) as Hend.
  simpl in Hend. eapply did_ext; [| |exact Hend]; [done|]. intros n. unfold zupd.
  repeat case_decide; subst; try done; lia.
Qed.

Lemma install_one_ok p s V R start bs i rec :
  bc p s V R [] -> ready s -> log_is s.(k_log) start bs -> (i < length bs)%nat ->
  log_blk start i <> bs !!! i -> (forall n, R n + 1 < 2 ^ 31) -> room R (log_blk start i) (bs !!! i) ->
  (rec = false -> 0 < R (bs !!! i)) ->
  exists s', install_one rec i s = Ret tt s' /\
    did p s s' (zupd V (bs !!! i) (V (log_blk start i)))
      (if rec then R else zupd R (bs !!! i) (R (bs !!! i) - 1)) []
      [(bs !!! i, V (log_blk start i))].
Proof using All.
  intros Hbc Hrd Hlog Hi Hne HR [Hr1 Hr2] Hpin.
  set (x := log_blk start i) in *. set (y := bs !!! i) in *.
  unfold install_one. set (l := s.(k_log)) in Hlog. rewrite (bind_Ret (get k_log) _ s l s eq_refl).
  rewrite (li_dev _ _ _ Hlog), (li_start _ _ _ Hlog), (lh_at_log_is _ _ _ _ Hlog Hi).
  destruct (did_read2 p s V R x y) as (bx & b_y & s1 & Hk & Hd1); try done.
  rewrite (Hk (fun a b => _)). clear Hk.
  set (R2 := zupd (zupd R x (R x + 1)) y (R y + 1)) in *.
  destruct (did_copy p s1 V R2 [(y, b_y); (x, bx)] x bx y b_y)
    as (s2 & Hk & Hd2); [apply Hd1|by eapply did_ready|set_solver|set_solver|].
  rewrite Hk. clear Hk. pose proof (did_trans _ _ _ _ _ _ _ _ _ _ _ _ Hd1 Hd2) as Hd. simpl in Hd.
  set (R3 := if rec then R2 else zupd R2 y (R2 y - 1)).
  assert (exists s3, when (negb rec) (bunpin b_y) s2 = Ret tt s3 /\
    did p s2 s3 (zupd V y (V x)) R3 [(y, b_y); (x, bx)] []) as (s3 & Hu & Hdu).
  { destruct rec; cbn [negb when].
    - exists s2. split; [done|]. apply did_nil, Hd.
    - apply did_unpin; [apply Hd|by eapply did_ready|set_solver|].
      unfold R2. rewrite zupd_eq. specialize (Hpin eq_refl). lia. }
  erewrite bind_Ret by exact Hu. pose proof (did_trans _ _ _ _ _ _ _ _ _ _ _ _ Hd Hdu) as Hd3.
  assert (R3 x = R x + 1) as ER3x.
  { unfold R3, R2. destruct rec; rewrite !zupd_ne by done; by rewrite zupd_eq. }
  destruct (did_release p s3 _ _ _ [(y, b_y)] x bx (did_bc _ _ _ _ _ _ _ Hd3)) as (s4 & Hr4 & Hd4);
    [by eapply did_ready|apply Permutation_swap| |].
  { rewrite ER3x, zupd_ne by done. intros E. rewrite (read_clean p s V R [] x) by done.
    unfold disk_at. rewrite (did_disk _ _ _ _ _ _ _ Hd3). simpl.
    by rewrite lookup_total_insert_ne by done. }
  erewrite bind_Ret by exact Hr4. pose proof (did_trans _ _ _ _ _ _ _ _ _ _ _ _ Hd3 Hd4) as Hd'.
  destruct (did_release p s4 _ _ _ [] y b_y (did_bc _ _ _ _ _ _ _ Hd')) as (s5 & Hr5 & Hd5);
    [by eapply did_ready|done| |].
  { intros _. rewrite zupd_eq. unfold disk_at. rewrite (did_disk _ _ _ _ _ _ _ Hd'). simpl.
    by rewrite lookup_total_insert_eq. }
  exists s5. split; [done|]. pose proof (did_trans _ _ _ _ _ _ _ _ _ _ _ _ Hd' Hd5) as Hend.
  simpl in Hend. eapply did_ext; [| |exact Hend]; [done|]. intros n. unfold R3, R2, zupd.
  destruct rec; repeat case_decide; subst; try done; lia.
Qed.

(** ** The loops over the log *)

Lemma write_log_loop p start nlog bs R m : forall i s V,
  bc p s V R [] -> ready s -> log_is s.(k_log) start bs -> (i + m <= length bs)%nat ->
  apart start nlog bs -> (forall n, R n + 1 < 2 ^ 31) -> roomy R -> pinned R bs ->
  exists s', for_each (seq i m) write_log_one s = Ret tt s' /\
    did p s s' (vapply (log_copies start bs V i m) V) R [] (log_copies start bs V i m).
Proof using All.
  induction m as [|m IH]; intros i s V Hbc Hrd Hlog Hm Hap HR Hroom Hpin; cbn [for_each seq].
  { exists s. split; [done|]. by apply did_nil. }
  pose proof (log_is_le _ _ _ Hlog) as Hle.
  destruct (write_log_one_ok p s V R start bs i) as (s1 & Hr1 & Hd1); try done; [lia| | |].
  { apply (apart_ne start nlog); [done|lia|lia]. }
  { split; [by right|]. left. apply Hpin. lia. }
  erewrite bind_Ret by exact Hr1.
  destruct (IH (S i) s1 (zupd V (log_blk start i) (V (bs !!! i)))) as (s2 & Hr2 & Hd2);
    [apply Hd1|by eapply did_ready|by rewrite (did_log _ _ _ _ _ _ _ Hd1)|lia|done|done|done|done|].
  exists s2. split; [done|].
  assert (log_copies start bs (zupd V (log_blk start i) (V (bs !!! i))) (S i) m =
    log_copies start bs V (S i) m) as E.
  { apply map_ext_in. intros j Hj. apply in_seq in Hj. f_equal. apply zupd_ne.
    apply not_eq_sym, (apart_ne start nlog); [done|lia|lia]. }
  rewrite E in Hd2. exact (did_trans _ _ _ _ _ _ _ _ _ _ _ _ Hd1 Hd2).
Qed.

Lemma install_loop p start nlog bs (rec : bool) m : forall i s V R,
  bc p s V R [] -> ready s -> log_is s.(k_log) start bs -> (i + m <= length bs)%nat ->
  apart start nlog bs -> (forall n, R n + 1 < 2 ^ 31) -> roomy R ->
  (if rec then forall n, R n = 0 else NoDup bs /\ forall j, (i <= j < length bs)%nat -> 0 < R (bs !!! j)) ->
  exists s', for_each (seq i m) (install_one rec) s = Ret tt s' /\
    did p s s' (vapply (installs start bs V i m) V)
      (if rec then R else unpinned R (map (fun j => bs !!! j) (seq i m))) []
      (installs start bs V i m).
Proof using All.
  induction m as [|m IH]; intros i s V R Hbc Hrd Hlog Hm Hap HR Hroom Hpin; cbn [for_each seq].
  { exists s. split; [done|]. apply did_nil. destruct rec; [done|]. eapply bc_ext; [| |exact Hbc]; done. }
  pose proof (log_is_le _ _ _ Hlog) as Hle.
  assert (log_blk start i <> bs !!! i) as Hne by (apply (apart_ne start nlog); [done|lia|lia]).
  destruct (install_one_ok p s V R start bs i rec) as (s1 & Hr1 & Hd1); try done; [lia| | |].
  { split; [by right|]. destruct rec; [right|left; apply Hpin; lia].
    exists [log_blk start i]. split; [|vm_compute; lia]. intros n. unfold zupd.
    rewrite !Hpin. case_decide; [set_solver|lia]. }
  { intros ->. apply Hpin. lia. }
  erewrite bind_Ret by exact Hr1. set (R1 := if rec then _ else _) in Hd1.
  assert (forall n, R1 n <= R n) as HR1.
  { intros n. unfold R1. destruct rec; [lia|]. unfold zupd. case_decide; subst; lia. }
  destruct (IH (S i) s1 (zupd V (bs !!! i) (V (log_blk start i))) R1) as (s2 & Hr2 & Hd2);
    [apply Hd1|by eapply did_ready|by rewrite (did_log _ _ _ _ _ _ _ Hd1)|lia|done| | | |].
  { intros n. specialize (HR1 n). specialize (HR n). lia. }
  { by eapply roomy_mono. }
  { destruct rec; [done|]. destruct Hpin as [Hnd Hpin]. split; [done|]. intros j Hj.
    unfold R1. rewrite zupd_ne; [apply Hpin; lia|]. intros E.
    apply NoDup_lookup_total in E; [lia|done|lia|lia]. }
  exists s2. split; [done|].
  assert (installs start bs (zupd V (bs !!! i) (V (log_blk start i))) (S i) m =
    installs start bs V (S i) m) as E.
  { apply map_ext_in. intros j Hj. apply in_seq in Hj. f_equal. apply zupd_ne, (apart_ne start nlog); [done|lia|lia]. }
  rewrite E in Hd2. eapply did_ext; [| |exact (did_trans _ _ _ _ _ _ _ _ _ _ _ _ Hd1 Hd2)]; [done|].
  intros n. unfold R1. by destruct rec.
Qed.

(** ** The header *)

Lemma write_head_ok p s V R start bs :
  bc p s V R [] -> ready s -> log_is s.(k_log) start bs -> R start + 1 < 2 ^ 31 -> roomy R ->
  exists s', write_head s = Ret tt s' /\
    did p s s' (zupd V start (header (V start) bs)) R [] [(start, header (V start) bs)].
Proof using All.
  intros Hbc Hrd Hlog HR Hroom. unfold write_head. set (l := s.(k_log)) in Hlog.
  rewrite (bind_Ret (get k_log) _ s l s eq_refl).
  rewrite (li_dev _ _ _ Hlog), (li_start _ _ _ Hlog), (li_n _ _ _ Hlog), Nat2Z.id.
  destruct (did_read p s V R [] start) as (b & s1 & Hr1 & Hd1); try done; [set_solver|by right|].
  erewrite bind_Ret by exact Hr1.
  pose proof (did_set p s1 V _ _ start b (fun d => set32 d 0 (Z.of_nat (length bs)))
    (did_bc _ _ _ _ _ _ _ Hd1) ltac:(set_solver)) as Hd2. set (s2 := upd_buf b _ s1) in Hd2.
  unfold setb at 1. rewrite (bind_Ret _ _ s1 tt s2) by done.
  pose proof (did_trans _ _ _ _ _ _ _ _ _ _ _ _ Hd1 Hd2) as Hd12.
  destruct (did_sets p (fun i d => set32 d (4 + 4 * Z.of_nat i) (lh_at l i)) (seq 0 (length bs)) s2
    _ _ _ start b (did_bc _ _ _ _ _ _ _ Hd12) ltac:(set_solver)) as (s3 & Hr3 & Hd3).
  erewrite bind_Ret by exact Hr3. pose proof (did_trans _ _ _ _ _ _ _ _ _ _ _ _ Hd12 Hd3) as Hd13.
  rewrite zupd_eq in Hd13.
  replace (fold_left _ (seq 0 (length bs)) _) with (header (V start) bs) in Hd13.
  2:{ unfold header. apply fold_left_ext_in. intros d i Hi. apply elem_of_seq in Hi.
      by rewrite (lh_at_log_is _ _ _ _ Hlog) by lia. }
  destruct (did_write p s3 _ _ _ start b (did_bc _ _ _ _ _ _ _ Hd13)) as (s4 & Hr4 & Hd4);
    [by eapply did_ready|set_solver|].
  erewrite bind_Ret by exact Hr4. pose proof (did_trans _ _ _ _ _ _ _ _ _ _ _ _ Hd13 Hd4) as Hd14.
  destruct (did_release p s4 _ _ _ [] start b (did_bc _ _ _ _ _ _ _ Hd14)) as (s5 & Hr5 & Hd5);
    [by eapply did_ready|done| |].
  { intros _. unfold disk_at. rewrite (did_disk _ _ _ _ _ _ _ Hd14). simpl.
    by rewrite lookup_total_insert_eq. }
  exists s5. split; [done|]. pose proof (did_trans _ _ _ _ _ _ _ _ _ _ _ _ Hd14 Hd5) as Hend.
  simpl in Hend. rewrite !zupd_eq in Hend. eapply did_ext; [| |exact Hend];
    (intros n; unfold zupd; repeat case_decide; subst; done || lia).
Qed.

(** ** Committing *)

Lemma commit_ok p s V R start nlog bs :
  bc p s V R [] -> ready s -> log_is s.(k_log) start bs -> bs <> [] -> apart start nlog bs -> NoDup bs ->
  (forall n, R n + 1 < 2 ^ 31) -> roomy R -> pinned R bs ->
  exists s', commit s = Ret tt s' /\
    did p (set_log (set_lh_n 0 s.(k_log)) s) s' (vapply (commit_writes start bs V) V)
      (unpinned R bs) [] (commit_writes start bs V).
Proof using All.
  intros Hbc Hrd Hlog Hne Hap Hnd HR Hroom Hpin. set (l := s.(k_log)) in *.
  pose proof (log_is_le _ _ _ Hlog) as Hle.
  unfold commit. rewrite (bind_Ret _ _ s l.(lh_n) s) by done. rewrite (li_n _ _ _ Hlog).
  destruct (Z.gtb_spec (Z.of_nat (length bs)) 0) as [_|Hz]; [|by destruct bs; simpl in Hz; [|lia]].
  destruct (write_log_loop p start nlog bs R (length bs) 0 s V) as (s1 & Hr1 & Hd1); try done.
  unfold write_log. erewrite bind_Ret.
  2:{ rewrite (bind_Ret (get k_log) _ s l s eq_refl), (li_n _ _ _ Hlog), Nat2Z.id. exact Hr1. }
  destruct (write_head_ok p s1 (vapply (log_copies start bs V 0 (length bs)) V) R start bs)
    as (s2 & Hr2 & Hd2);
    [apply Hd1|by eapply did_ready|by rewrite (did_log _ _ _ _ _ _ _ Hd1)|done|done|].
  erewrite bind_Ret by exact Hr2. pose proof (did_trans _ _ _ _ _ _ _ _ _ _ _ _ Hd1 Hd2) as Hd12.
  set (l1 := log_copies start bs V 0 (length bs)) in *.
  assert (vapply l1 V start = V start) as Es by (by apply vapply_log_start).
  rewrite Es in Hd12. set (V2 := zupd (vapply l1 V) start (header (V start) bs)) in *.
  destruct (install_loop p start nlog bs false (length bs) 0 s2 V2 R) as (s3 & Hr3 & Hd3); try done;
    [apply Hd12|by eapply did_ready|by rewrite (did_log _ _ _ _ _ _ _ Hd12)| |].
  { split; [done|]. intros j Hj. apply Hpin. lia. }
  assert (installs start bs V2 0 (length bs) = map (fun n => (n, V n)) bs) as Ei.
  { unfold V2, l1. by apply installs_logged. }
  rewrite Ei, map_lookup_seq in Hd3. pose proof (did_trans _ _ _ _ _ _ _ _ _ _ _ _ Hd12 Hd3) as Hd13.
  unfold install_trans. erewrite bind_Ret.
  2:{ rewrite (bind_Ret (get k_log) _ s2 l s2) by (by eapply did_get_log).
      rewrite (li_n _ _ _ Hlog), Nat2Z.id. exact Hr3. }
  set (l0 := set_lh_n 0 l). rewrite (bind_Ret _ _ s3 tt (set_log l0 s3)).
  2:{ by eapply (did_upd_log p s). }
  pose proof (did_set_log p _ _ _ _ _ _ l0 Hd13) as Hd13'.
  destruct (write_head_ok p (set_log l0 s3) (vapply (map (fun n => (n, V n)) bs) V2) (unpinned R bs) start [])
    as (s4 & Hr4 & Hd4); [apply Hd13'|by eapply did_ready| | | |].
  { destruct Hlog. by constructor. }
  { pose proof (unpinned_le R bs start). specialize (HR start). lia. }
  { eapply roomy_mono; [|exact Hroom]. apply unpinned_le. }
  exists s4. split; [done|]. pose proof (did_trans _ _ _ _ _ _ _ _ _ _ _ _ Hd13' Hd4) as Hend.
  assert (vapply (map (fun n => (n, V n)) bs) V2 start = header (V start) bs) as Eh.
  { rewrite vapply_other; [apply zupd_eq|]. rewrite homes_fst. by eapply apart_start. }
  rewrite Eh in Hend. unfold commit_writes. rewrite !app_assoc. fold l1.
  by rewrite !vapply_app.
Qed.

(** ** Recovery *)

Lemma read_head_ok p s V R start bs :
  bc p s V R [] -> ready s -> R start + 1 < 2 ^ 31 -> roomy R ->
  s.(k_log).(l_dev) = ROOTDEV -> s.(k_log).(l_start) = start ->
  length s.(k_log).(lh_block) = Z.to_nat LOGSIZE -> head_lists (V start) bs ->
  exists l s', read_head s = Ret tt s' /\ log_is l start bs /\ did p (set_log l s) s' V R [] [].
Proof using All.
  intros Hbc Hrd HR Hroom Hdev Hstart Hlen [Hn [Hbs Hle]]. set (l := s.(k_log)) in *.
  unfold read_head. rewrite (bind_Ret (get k_log) _ s l s eq_refl), Hdev, Hstart.
  destruct (did_read p s V R [] start) as (b & s1 & Hr1 & Hd1); try done; [set_solver|by right|].
  erewrite bind_Ret by exact Hr1.
  destruct (held_data p s1 V _ _ start b (did_bc _ _ _ _ _ _ _ Hd1)) as (Ed & _ & _); [set_solver|].
  rewrite (bind_Ret (getb b b_data) _ s1 (V start) s1).
  2:{ unfold getb, get. by rewrite <- Ed. }
  set (l1 := set_lh_n (head_n (V start)) l).
  rewrite (bind_Ret _ _ s1 tt (set_log l1 s1)) by (by eapply (did_upd_log p s)).
  rewrite Hn, Nat2Z.id.
  rewrite (bind_Ret _ _ _ tt (set_log (set_lh_block (read_blocks (V start) (length bs) l.(lh_block)) l1) s1)).
  2:{ rewrite read_head_loop by (change (0 + length bs <= Z.to_nat LOGSIZE)%nat; lia).
      done. }
  set (l2 := set_lh_block _ l1).
  pose proof (did_set_log p _ _ _ _ _ _ l2 Hd1) as Hd1'.
  destruct (did_release p (set_log l2 s1) _ _ _ [] start b (did_bc _ _ _ _ _ _ _ Hd1')) as (s2 & Hr2 & Hd2);
    [by eapply did_ready|done| |].
  { rewrite zupd_eq. intros E. rewrite (read_clean p s V R [] start) by done.
    unfold disk_at. by rewrite (did_disk _ _ _ _ _ _ _ Hd1'). }
  exists l2, s2. split; [done|]. split.
  { constructor; try done.
    - by rewrite <- Hlen; apply length_read_blocks.
    - etransitivity; [apply (take_read_blocks (V start)); lia|].
      etransitivity; [|exact Hbs]. unfold logged. by rewrite Hn, Nat2Z.id. }
  eapply did_ext; [| |exact (did_trans _ _ _ _ _ _ _ _ _ _ _ _ Hd1' Hd2)]; [done|].
  intros n. unfold zupd. repeat case_decide; subst; done || lia.
Qed.

Lemma recover_ok p s V R start nlog bs :
  bc p s V R [] -> ready s -> (forall n, R n = 0) ->
  s.(k_log).(l_dev) = ROOTDEV -> s.(k_log).(l_start) = start ->
  length s.(k_log).(lh_block) = Z.to_nat LOGSIZE -> head_lists (V start) bs -> apart start nlog bs ->
  exists l s', recover_from_log s = Ret tt s' /\ log_is l start [] /\
    did p (set_log l s) s' (vapply (recover_writes start bs V) V) R [] (recover_writes start bs V).
Proof using All.
  intros Hbc Hrd HR Hdev Hstart Hlen Hh Hap. unfold recover_from_log.
  assert (forall n, R n + 1 < 2 ^ 31) as HR' by (intros n; rewrite HR; lia).
  assert (roomy R) as Hroom by (exists []; split; [intros n; rewrite HR; lia|vm_compute; lia]).
  destruct (read_head_ok p s V R start bs) as (l & s1 & Hr1 & Hlog & Hd1); try done.
  erewrite bind_Ret by exact Hr1. pose proof (did_get_log _ _ _ _ _ _ _ Hd1) as Hg.
  destruct (install_loop p start nlog bs true (length bs) 0 s1 V R) as (s2 & Hr2 & Hd2); try done;
    [apply Hd1|by eapply did_ready|by rewrite (did_log _ _ _ _ _ _ _ Hd1)|].
  pose proof (did_trans _ _ _ _ _ _ _ _ _ _ _ _ Hd1 Hd2) as Hd12.
  unfold install_trans. erewrite bind_Ret.
  2:{ erewrite (bind_Ret (get k_log)) by exact Hg. change (k_log (set_log l s)) with l.
      rewrite (li_n _ _ _ Hlog), Nat2Z.id. exact Hr2. }
  set (l0 := set_lh_n 0 l).
  rewrite (bind_Ret _ _ s2 tt (set_log l0 s2)) by (by eapply (did_upd_log p (set_log l s))).
  pose proof (did_set_log p _ _ _ _ _ _ l0 Hd12) as Hd12'.
  assert (log_is l0 start []) as Hl0 by (destruct Hlog; by constructor).
  destruct (write_head_ok p (set_log l0 s2) (vapply (installs start bs V 0 (length bs)) V) R start [])
    as (s3 & Hr3 & Hd3); [apply Hd12'|by eapply did_ready|done|done|done|].
  exists l0, s3. split; [done|]. split; [done|].
  pose proof (did_trans _ _ _ _ _ _ _ _ _ _ _ _ Hd12' Hd3) as Hend. simpl in Hend.
  rewrite (vapply_install_start start nlog) in Hend by done. unfold recover_writes. by rewrite vapply_app.
Qed.

End Steps.

End LogSpec.
