(* ===== verification/LogProps.v ===== *)
(** * The redo log: crash safety

    [log_state D start nlog bs T]: on a disk with contents [D] and a log of [nlog] blocks at
    [start], the header lists [bs], and recovery makes the blocks outside the log be [T]. *)

From S2P Require Import Prelude Params Mem State Spinlock CString Kalloc Vm Proc ProcSpec Sleeplock.
From S2P Require Import Sleeplock Dll Bio BioSpec BioProps Printf Log Block LogSpec.

Record log_state (D : Z -> list Z) (start nlog : Z) (bs : list Z) (T : Z -> list Z) : Prop := {
  ls_lists : head_lists (D start) bs;
  ls_len : length (D start) = Z.to_nat BSIZE;
  ls_apart : apart start nlog bs;
  ls_target : forall n, home start nlog n -> vapply (installs start bs D 0 (length bs)) D n = T n;
}.

Lemma log_blk_not_home start nlog i : Z.of_nat i + 1 < nlog -> ~ home start nlog (log_blk start i).
Proof. unfold home, log_blk. lia. Qed.

Lemma start_not_home start nlog : 0 < nlog -> ~ home start nlog start.
Proof. unfold home. lia. Qed.

Lemma apart_pos start nlog bs : apart start nlog bs -> 0 < nlog.
Proof. intros [H _]. lia. Qed.

Lemma head_lists_nil d : length d = Z.to_nat BSIZE -> head_lists (header d []) [].
Proof.
  intros H. destruct (logged_header d []) as [H1 H2]; [rewrite H; vm_compute; lia|done|done|].
  split; [done|]. split; [done|]. simpl. lia.
Qed.

Lemma length_header_nil d : length d = Z.to_nat BSIZE -> length (header d []) = Z.to_nat BSIZE.
Proof. intros H. rewrite length_header; [done|]. rewrite H. vm_compute. lia. Qed.

Lemma header_room (bs : list Z) : (length bs <= Z.to_nat LOGSIZE)%nat -> (4 + 4 * length bs <= Z.to_nat BSIZE)%nat.
Proof. change (Z.to_nat LOGSIZE) with 30%nat. intros H. transitivity 124%nat; [lia|]. vm_compute. lia. Qed.

Lemma log_state_ext D D' start nlog bs T :
  (forall n, D n = D' n) -> log_state D start nlog bs T -> log_state D' start nlog bs T.
Proof.
  intros H [H1 H2 H3 H4]. constructor; [by rewrite <- H|by rewrite <- H|done|].
  intros n Hn. rewrite <- H4 by done.
  replace (installs start bs D' 0 (length bs)) with (installs start bs D 0 (length bs)).
  - symmetry. by apply vapply_proper.
  - apply map_ext. intros j. by rewrite H.
Qed.

(** A disk with an empty log recovers to itself. *)
Lemma log_state_nil D start nlog T :
  0 < nlog -> head_lists (D start) [] -> length (D start) = Z.to_nat BSIZE ->
  (forall n, home start nlog n -> D n = T n) -> log_state D start nlog [] T.
Proof.
  intros H0 H1 H2 H3. constructor; [done|done| |done]. split; [done|]. intros n Hn. by apply elem_of_nil in Hn.
Qed.

(** The last write to a block decides. *)
Lemma vapply_written ws V V' n : n ∈ ws.*1 -> vapply ws V n = vapply ws V' n.
Proof.
  revert V V'. induction ws as [|w ws IH]; intros V V' H; [by apply elem_of_nil in H|].
  simpl in *. destruct (decide (n ∈ ws.*1)) as [Hin|Hn]; [by apply IH|].
  rewrite !vapply_other by done. apply elem_of_cons in H as [->|H]; [by rewrite !zupd_eq|done].
Qed.

Lemma take_fst {A B} (ws : list (A * B)) k x : x ∈ (take k ws).*1 -> x ∈ ws.*1.
Proof. intros H. rewrite <- (take_drop k ws), fmap_app. set_solver. Qed.

(** Installing again what a part of the installs has already put there. *)
Lemma vapply_prefix ws V k n : vapply ws (vapply (take k ws) V) n = vapply ws V n.
Proof.
  destruct (decide (n ∈ ws.*1)) as [Hin|Hn]; [by apply vapply_written|].
  rewrite !vapply_other; [done|done| |done]. intros H. by apply Hn, (take_fst ws k).
Qed.

Lemma not_home_apart start nlog bs n : apart start nlog bs -> ~ home start nlog n -> n ∉ bs.
Proof. intros [_ H] Hn Hin. by apply Hn, H. Qed.

Lemma installs_ext start nlog bs D D' :
  apart start nlog bs -> (forall n, ~ home start nlog n -> D n = D' n) ->
  installs start bs D 0 (length bs) = installs start bs D' 0 (length bs).
Proof.
  intros [Hl _] H. apply map_ext_in. intros j Hj. apply in_seq in Hj. f_equal. apply H.
  apply log_blk_not_home. lia.
Qed.

(** A crash of recovery, at any write, leaves a disk with the same outcome. *)
Lemma recover_prefix D start nlog bs T k :
  log_state D start nlog bs T ->
  exists bs', log_state (vapply (take k (recover_writes start bs D)) D) start nlog bs' T.
Proof.
  intros [Hh Hl Ha Ht]. unfold recover_writes. set (ins := installs start bs D 0 (length bs)) in *.
  assert (ins.*1 = bs) as Hins by apply installs_fst.
  assert (forall m n, ~ home start nlog n -> vapply (take m ins) D n = D n) as Hlog.
  { intros m n Hn. apply vapply_other. intros H%take_fst. rewrite Hins in H.
    by eapply not_home_apart. }
  rewrite take_app. destruct (decide (k <= length ins)%nat) as [Hk|Hk].
  - replace (k - length ins)%nat with 0%nat by lia. rewrite take_0, app_nil_r. exists bs.
    pose proof (Hlog k start (start_not_home start nlog (apart_pos _ _ _ Ha))) as Es.
    constructor; [by rewrite Es|by rewrite Es|done|]. intros n Hn.
    rewrite (installs_ext start nlog bs _ D); [|done|intros m; apply Hlog]. fold ins.
    rewrite vapply_prefix. by apply Ht.
  - exists []. rewrite (take_ge ins) by lia. replace (k - length ins)%nat with (S (k - length ins - 1)) by lia.
    cbn [take]. rewrite take_nil, vapply_app. simpl.
    assert (forall n, home start nlog n -> n <> start) as Hne by (intros n Hn ->; by eapply start_not_home, Hn; eapply apart_pos).
    apply log_state_nil; rewrite ?zupd_eq; [by eapply apart_pos|by apply head_lists_nil|by apply length_header_nil|].
    intros n Hn. rewrite zupd_ne by auto. by apply Ht.
Qed.

Lemma log_copies_length start bs V : length (log_copies start bs V 0 (length bs)) = length bs.
Proof. unfold log_copies. by rewrite length_map, length_seq. Qed.

(** A crash of a commit before the header is on the disk. *)
Lemma commit_prefix_old D start nlog bs V k :
  head_lists (D start) [] -> length (D start) = Z.to_nat BSIZE ->
  Z.of_nat (length bs) < nlog -> (k <= length bs)%nat ->
  log_state (vapply (take k (commit_writes start bs V)) D) start nlog [] D.
Proof.
  intros Hh Hl Hle Hk. unfold commit_writes. rewrite take_app_le by (by rewrite log_copies_length).
  assert (forall n, n ∈ (take k (log_copies start bs V 0 (length bs))).*1 ->
    exists j, n = log_blk start j /\ Z.of_nat j + 1 < nlog) as Hin.
  { intros n H%take_fst. rewrite log_copies_fst in H. apply list_elem_of_fmap in H as (j & -> & Hj).
    apply elem_of_seq in Hj. exists j. split; [done|lia]. }
  assert (vapply (take k (log_copies start bs V 0 (length bs))) D start = D start) as Es.
  { apply vapply_other. intros (j & E & _)%Hin. unfold log_blk in E. lia. }
  apply log_state_nil; [lia|by rewrite Es|by rewrite Es|]. intros n Hn. apply vapply_other.
  intros (j & -> & Hj)%Hin. by eapply log_blk_not_home.
Qed.

(** A crash of a commit after the header is on the disk. *)
Lemma commit_prefix_new D start nlog bs V k :
  length (V start) = Z.to_nat BSIZE -> (length bs <= Z.to_nat LOGSIZE)%nat -> apart start nlog bs ->
  Forall blk_ok bs -> (length bs < k)%nat ->
  exists bs', log_state (vapply (take k (commit_writes start bs V)) D) start nlog bs'
    (vapply (map (fun n => (n, V n)) bs) D).
Proof.
  intros Hl Hle Ha Hb Hk. unfold commit_writes. set (l1 := log_copies start bs V 0 (length bs)).
  set (hdr := header (V start) bs). set (D2 := zupd (vapply l1 D) start hdr).
  assert (length hdr = Z.to_nat BSIZE) as Hlh.
  { unfold hdr. rewrite length_header; [done|]. rewrite Hl. by apply header_room. }
  pose proof (header_room bs Hle) as Hroom.
  destruct (logged_header (V start) bs) as [Hn Hbs]; [by rewrite Hl| |done|].
  { change (Z.to_nat LOGSIZE) with 30%nat in Hle. lia. }
  assert (installs start bs D2 0 (length bs) = map (fun n => (n, V n)) bs) as Ei by apply installs_logged.
  pose proof (apart_pos _ _ _ Ha) as Hpos.
  assert (D2 start = hdr) as Es by apply zupd_eq.
  assert (log_state D2 start nlog bs (vapply (map (fun n => (n, V n)) bs) D)) as Hst.
  { constructor; [rewrite Es; by split|by rewrite Es|done|]. intros n Hhome. rewrite Ei.
    destruct (decide (n ∈ bs)) as [Hin|Hin].
    - apply vapply_written. by rewrite homes_fst.
    - rewrite !vapply_other by (by rewrite homes_fst). unfold D2.
      rewrite zupd_ne by (intros ->; by eapply start_not_home, Hhome). apply vapply_other.
      unfold l1. rewrite log_copies_fst. intros Hc. apply list_elem_of_fmap in Hc as (j & -> & Hj).
      apply elem_of_seq in Hj. apply (log_blk_not_home start nlog j); [destruct Ha; lia|done]. }
  destruct (recover_prefix D2 start nlog bs _ (k - length bs - 1) Hst) as (bs' & H). exists bs'.
  eapply log_state_ext; [|exact H]. intros n. unfold recover_writes. rewrite Ei, Es.
  assert (length l1 = length bs) as El by apply log_copies_length.
  remember (k - length bs - 1)%nat as j eqn:Ej. rewrite (take_app_ge l1) by lia.
  replace (k - length l1)%nat with (S j) by lia.
  cbn [take app]. by rewrite vapply_app.
Qed.

(** The outcome of a crash after [k] of the writes of a commit. *)
Definition outcome_at (bs : list Z) (V D : Z -> list Z) (k : nat) (n : Z) : list Z :=
  if bool_decide ((length bs < k)%nat /\ n ∈ bs) then V n else D n.

Lemma commit_prefix D start nlog bs V k :
  head_lists (D start) [] -> length (D start) = Z.to_nat BSIZE -> length (V start) = Z.to_nat BSIZE ->
  (length bs <= Z.to_nat LOGSIZE)%nat -> apart start nlog bs -> NoDup bs -> Forall blk_ok bs ->
  exists bs', log_state (vapply (take k (commit_writes start bs V)) D) start nlog bs' (outcome_at bs V D k).
Proof.
  intros Hh Hl HlV Hle Ha Hnd Hb. destruct (decide (length bs < k)%nat) as [Hk|Hk].
  - destruct (commit_prefix_new D start nlog bs V k) as (bs1 & [? ? ? Ht]); try done. exists bs1.
    constructor; try done. intros n Hn. rewrite Ht by done. unfold outcome_at. case_bool_decide as Hc.
    + apply vapply_in; [by rewrite homes_fst|]. apply list_elem_of_fmap. exists n. by destruct Hc.
    + apply vapply_other. rewrite homes_fst. intros Hin. by apply Hc.
  - destruct (commit_prefix_old D start nlog bs V k) as [? ? ? Ht]; try done; [apply Ha|lia|].
    exists []. constructor; try done. intros n Hn. unfold outcome_at.
    rewrite bool_decide_false by (by intros [? _]). by apply Ht.
Qed.

(** ** The theorems *)

Section Crash.
Context {F : WaitFuel} {Disk : BlockDev} {DO : DiskOk Disk}.
Context (Hfuel : (0 < wait_fuel)%nat).

(** The system after a restart: nothing is cached; the location of the log is
    known from the super block. *)
Record booted (p : nat) (start : Z) (s : kstate) : Prop := {
  bo_bc : bc p s (disk_at s) (fun _ => 0) [];
  bo_ready : ready s;
  bo_dev : s.(k_log).(l_dev) = ROOTDEV;
  bo_start : s.(k_log).(l_start) = start;
  bo_len : length s.(k_log).(lh_block) = Z.to_nat LOGSIZE;
}.

(** A disk after some restarts whose recovery was cut short by a crash, each
    after any number of the writes that it does. *)
Inductive restarts (start : Z) : gmap Z (list Z) -> gmap Z (list Z) -> Prop :=
| restarts_none D : restarts start D D
| restarts_crash D D' p s s' ws k :
    booted p start s -> s.(k_disk) = D -> recover_from_log s = Ret tt s' ->
    s'.(k_diskwrites) = rev ws ++ s.(k_diskwrites) ->
    restarts start (dapply (take k ws) D) D' -> restarts start D D'.

Lemma recover_booted p start nlog s bs T :
  booted p start s -> log_state (disk_at s) start nlog bs T ->
  exists s', recover_from_log s = Ret tt s' /\
    s'.(k_disk) = dapply (recover_writes start bs (disk_at s)) s.(k_disk) /\
    s'.(k_diskwrites) = rev (recover_writes start bs (disk_at s)) ++ s.(k_diskwrites) /\
    head_n (disk_at s' start) = 0 /\ forall n, home start nlog n -> disk_at s' n = T n.
Proof using All.
  intros [Hbc Hrd Hd Hs Hl] [Hh Hlen Ha Ht].
  destruct (recover_ok Hfuel p s (disk_at s) (fun _ => 0) start nlog bs) as (l & s' & Hr & _ & [_ _ Ed Ew]); try done.
  exists s'. split; [done|]. split; [done|]. split; [done|].
  assert (forall n, disk_at s' n = vapply (recover_writes start bs (disk_at s)) (disk_at s) n) as E.
  { intros n. unfold disk_at at 1. rewrite Ed, dapply_at. done. }
  unfold recover_writes in E. split.
  - rewrite E, vapply_app. simpl. rewrite zupd_eq. by destruct (head_lists_nil (disk_at s start) Hlen) as [-> _].
  - intros n Hn. rewrite E, vapply_app. simpl. rewrite zupd_ne; [by apply Ht|].
    intros ->. by eapply start_not_home, Hn; eapply apart_pos.
Qed.

(** Restarts keep the outcome. *)
Lemma restarts_state start nlog D D' : restarts start D D' ->
  forall bs T, log_state (fun n => D !!! n) start nlog bs T ->
  exists bs', log_state (fun n => D' !!! n) start nlog bs' T.
Proof using All.
  induction 1 as [D|D D' p s s' ws k Hb <- Hr Hw Hrs IH]; intros bs T Hst; [by exists bs|].
  destruct (recover_booted p start nlog s bs T) as (s2 & Hr2 & _ & Hw2 & _); [done|done|].
  rewrite Hr in Hr2. injection Hr2 as <-. rewrite Hw in Hw2. apply app_inv_tail in Hw2.
  apply (f_equal (@rev _)) in Hw2. rewrite !rev_involutive in Hw2. subst ws.
  destruct (recover_prefix _ start nlog bs T k Hst) as (bs1 & H1). apply (IH bs1).
  eapply log_state_ext; [|exact H1]. intros n. by rewrite dapply_at.
Qed.

Lemma commit_crash D0 start nlog bs V k D q r :
  head_lists (D0 !!! start) [] -> length (D0 !!! start) = Z.to_nat BSIZE ->
  length (V start) = Z.to_nat BSIZE ->
  (length bs <= Z.to_nat LOGSIZE)%nat -> apart start nlog bs -> NoDup bs -> Forall blk_ok bs ->
  restarts start (dapply (take k (commit_writes start bs V)) D0) D ->
  booted q start r -> r.(k_disk) = D ->
  exists r', recover_from_log r = Ret tt r' /\ head_n (disk_at r' start) = 0 /\
    forall n, home start nlog n -> disk_at r' n = outcome_at bs V (fun n => D0 !!! n) k n.
Proof using All.
  intros Hh Hl HlV Hle Ha Hnd Hb Hrs Hbo <-.
  destruct (commit_prefix (fun n => D0 !!! n) start nlog bs V k) as (bs1 & H1); try done.
  destruct (restarts_state start nlog _ _ Hrs bs1 (outcome_at bs V (fun n => D0 !!! n) k)) as (bs2 & H2).
  { eapply log_state_ext; [|exact H1]. intros n. by rewrite dapply_at. }
  destruct (recover_booted q start nlog r bs2 _ Hbo H2) as (r' & Hr' & _ & _ & Hhd & Hhome). by exists r'.
Qed.

(** [C2] A transaction is atomic under crashes. [commit] of the blocks [bs] does a list of
    block writes; if the machine stops after any number [k] of them, then after any number
    of restarts whose recovery is itself cut short at any write, the recovery that
    completes makes every block outside the log be what it was before the commit, or
    every one be what the commit was to make of it, and empties the log. The new contents
    are there exactly when the header write was among the [k]. *)
Theorem log_crash_atomic p s V R start nlog bs :
  bc p s V R [] -> ready s -> log_is s.(k_log) start bs -> bs <> [] -> apart start nlog bs -> NoDup bs ->
  (forall n, R n + 1 < 2 ^ 31) -> roomy R -> pinned R bs -> Forall blk_ok bs ->
  length (V start) = Z.to_nat BSIZE ->
  head_lists (disk_at s start) [] -> length (disk_at s start) = Z.to_nat BSIZE ->
  exists s' ws, commit s = Ret tt s' /\ s'.(k_diskwrites) = rev ws ++ s.(k_diskwrites) /\
    s'.(k_disk) = dapply ws s.(k_disk) /\
    forall k D q r, restarts start (dapply (take k ws) s.(k_disk)) D ->
      booted q start r -> r.(k_disk) = D ->
      exists r', recover_from_log r = Ret tt r' /\ head_n (disk_at r' start) = 0 /\
        forall n, home start nlog n ->
          disk_at r' n = outcome_at bs V (disk_at s) k n.
Proof using All.
  intros Hbc Hrd Hlog Hne Ha Hnd HR Hroom Hpin Hb HlV Hh Hl. pose proof (log_is_le _ _ _ Hlog) as Hle.
  destruct (commit_ok Hfuel p s V R start nlog bs) as (s' & Hr & [_ _ Ed Ew]); try done.
  exists s', (commit_writes start bs V). split_and!; [done|done|done|]. intros k D q r.
  by apply commit_crash.
Qed.

End Crash.
