(* ===== verification/LogTxn.v ===== *)
(** * Transactions: begin_op, log_write, end_op *)

From S2P Require Import Prelude Params Mem State Spinlock CString Kalloc Vm Proc ProcSpec Sleeplock.
From S2P Require Import Sleeplock Dll Bio BioSpec BioProps Printf Log Block LogSpec LogProps.

(** ** The slot of a block in the log *)

Lemma log_slot_found bl k n bs :
  take k bl = bs -> n ∈ bs -> (log_slot bl k n < length bs)%nat /\ bl !! log_slot bl k n = Some n.
Proof.
  revert k bs. induction bl as [|x bl IH]; intros k bs <- Hin; destruct k as [|k]; cbn [take] in *;
    try (by apply elem_of_nil in Hin).
  cbn [log_slot]. destruct (Z.eqb_spec x n) as [->|Hx]; [simpl; split; [lia|done]|].
  apply elem_of_cons in Hin as [->|Hin]; [done|].
  destruct (IH k _ eq_refl Hin) as [H1 H2]. simpl. split; [lia|done].
Qed.

Lemma log_slot_new bl k n bs :
  take k bl = bs -> length bs = k -> n ∉ bs -> log_slot bl k n = k.
Proof.
  revert k bs. induction bl as [|x bl IH]; intros k bs <- Hk Hn; destruct k as [|k]; cbn [take] in *;
    cbn [log_slot]; try done.
  destruct (Z.eqb_spec x n) as [->|Hx]; [destruct Hn; set_solver|].
  f_equal. eapply IH; [done|simpl in Hk; lia|set_solver].
Qed.

(** The blocks of the transaction after a write to [n], and the references. *)
Definition log_add (bs : list Z) (n : Z) : list Z := if decide (n ∈ bs) then bs else bs ++ [n].
Definition log_ref (R : Z -> Z) (bs : list Z) (n : Z) : Z -> Z :=
  if decide (n ∈ bs) then R else zupd R n (R n + 1).

Section Txn.
Context {F : WaitFuel} {Disk : BlockDev} {DO : DiskOk Disk}.

(** Inside the critical section of the log. *)
Lemma bc_acquired p s V R held lk :
  bc p s V R held -> (forall i, lk <> proc_lock i) -> bc p (acquired lk s) V R held.
Proof.
  intros [Hl [bl Hr] Ht Hc Hrun Hi] Hlk. constructor; [done|by exists bl|done| |done|].
  - by apply calm_acquired.
  - by apply (disk_inv_ext s).
Qed.

Lemma bio_free_insert L lk h :
  bio_free L -> lk <> bcache_lock -> (forall b, lk <> buf_sleep_lock b) -> lk <> vdisk_lock ->
  bio_free (<[lk := h]> L).
Proof.
  intros [H1 H2 H3] N1 N2 N3. constructor; [|intros b|]; by rewrite lookup_insert_ne.
Qed.

(** The invariant depends on the cache, the disk, the processes and the driver. *)
Lemma bc_move p s t V R held :
  bc p s V R held -> calm p t -> t.(k_bufs) = s.(k_bufs) -> t.(k_bhead) = s.(k_bhead) ->
  t.(k_disk) = s.(k_disk) -> t.(k_procs) = s.(k_procs) -> t.(k_mem) = s.(k_mem) ->
  t.(k_vdisk) = s.(k_vdisk) -> t.(k_mmio_in) = s.(k_mmio_in) -> t.(k_mmio_out) = s.(k_mmio_out) ->
  bc p t V R held.
Proof.
  intros [Hl [bl Hr] Ht Hc Hrun Hi] Hct E1 E2 E3 E4 E5 E6 E7 E8. constructor.
  - by rewrite E1.
  - exists bl. apply (chain_state s); [done| |done]. intros x. unfold buf_at. by rewrite E1.
  - replace (mypid p t) with (mypid p s) by (unfold mypid, proc_at; by rewrite E4).
    eapply btab_ext; [| | | |exact Ht]; try done.
    + intros x _. unfold btable, buf_at. by rewrite E1.
    + intros n. unfold disk_at. by rewrite E3.
  - done.
  - unfold running, proc_at. by rewrite E4.
  - by apply (disk_inv_ext s).
Qed.

(** The cache does not depend on memory that is not the driver's, nor on other devices. *)
Lemma bc_local {DL : DiskLocal Disk} p s t V R held :
  bc p s V R held -> calm p t -> t.(k_bufs) = s.(k_bufs) -> t.(k_bhead) = s.(k_bhead) ->
  t.(k_disk) = s.(k_disk) -> t.(k_procs) = s.(k_procs) -> t.(k_vdisk) = s.(k_vdisk) ->
  (forall x, disk_mem s x -> load8 t.(k_mem) x = load8 s.(k_mem) x) -> bc p t V R held.
Proof.
  intros Hbc Hct E1 E2 E3 E4 E5 Hm.
  set (t' := set_mem s.(k_mem) (set_mmio_in s.(k_mmio_in) (set_mmio_out s.(k_mmio_out) t))).
  assert (bc p t' V R held) as [Hl Hr Ht Hc Hrun Hi].
  { apply (bc_move p s); try done. by apply (calm_ext p t). }
  constructor; try done. apply (disk_inv_local t'); [done| |done].
  intros x Hx. apply Hm. apply (same_queue_mem s t' x); [|exact Hx]. unfold same_queue, t'. ksimpl. by rewrite E5.
Qed.

(** A logged block is pinned in the cache until it is installed. *)
Lemma log_write_ok p s V R held n b start bs :
  bc p s V R held -> bio_free s.(k_locks) -> s.(k_locks) !! log_lock = None -> (n, b) ∈ held ->
  log_is s.(k_log) start bs -> (length bs < Z.to_nat LOGSIZE)%nat ->
  Z.of_nat (length bs) < s.(k_log).(l_size) - 1 -> 1 <= s.(k_log).(l_outstanding) ->
  R n + 1 < 2 ^ 31 ->
  exists bl s', log_write b s = Ret tt s' /\
    bc p s' V (log_ref R bs n) held /\
    log_is s'.(k_log) start (log_add bs n) /\
    s' = set_bufs s'.(k_bufs) (set_log (set_lh_n (Z.of_nat (length (log_add bs n)))
           (set_lh_block bl s.(k_log))) s).
Proof.
  intros Hbc Hfr Hlk Hin Hlog Hlen Hsz Hout HR. set (l := s.(k_log)) in *.
  destruct (held_data _ _ _ _ _ _ _ Hbc Hin) as (_ & En & _).
  assert (calm p s) as Hc by apply Hbc.
  unfold log_write. erewrite bind_Ret by (by apply acquire_free).
  set (s1 := acquired log_lock s). rewrite (bind_Ret (get k_log) _ s1 l s1 eq_refl).
  rewrite (li_n _ _ _ Hlog).
  assert ((Z.of_nat (length bs) >=? LOGSIZE) || (Z.of_nat (length bs) >=? l_size l - 1) = false) as ->.
  { apply orb_false_iff. rewrite !Z.geb_leb. split; apply Z.leb_gt; lia. }
  assert (l_outstanding l <? 1 = false) as -> by (case_cmp; lia).
  rewrite (bind_Ret (getb b b_blockno) _ s1 n s1).
  2:{ unfold getb, get. by rewrite <- En. }
  rewrite Nat2Z.id. set (i := log_slot (lh_block l) (length bs) n).
  set (l2 := set_lh_block (<[i := n]> (lh_block l)) l).
  rewrite (bind_Ret _ _ s1 tt (set_log l2 s1)) by done.
  assert (bc p (set_log l2 s1) V R held) as Hbc2 by (by apply bc_set_log, bc_acquired).
  destruct (decide (n ∈ bs)) as [Hn|Hn].
  - destruct (log_slot_found (lh_block l) (length bs) n bs (li_blocks _ _ _ Hlog) Hn) as [Hi Hli].
    fold i in Hi, Hli.
    assert (Z.of_nat i =? Z.of_nat (length bs) = false) as -> by (apply Z.eqb_neq; lia). cbn [when].
    erewrite bind_Ret by done. exists (lh_block l), s. unfold log_add, log_ref. rewrite !decide_True by done.
    assert (set_log l2 s1 = s1) as ->.
    { unfold l2. rewrite list_insert_id by done. done. }
    split; [by apply (release_inner p)|]. split; [done|]. split; [done|].
    rewrite <- (li_n _ _ _ Hlog). done.
  - pose proof (log_slot_new (lh_block l) (length bs) n bs (li_blocks _ _ _ Hlog) eq_refl Hn) as Ei.
    fold i in Ei. rewrite Ei, Z.eqb_refl. cbn [when].
    destruct (bpin_ok p (set_log l2 s1) V R held n b) as (s2 & Hr2 & Hbc3 & E2); try done.
    { apply bio_free_insert; [done|done|done|done]. }
    unfold log_add, log_ref. rewrite !decide_False by done.
    set (l3 := set_lh_n (lh_n l + 1) l2).
    erewrite (bind_Ret _ _ _ tt (set_log l3 s2)).
    2:{ erewrite bind_Ret by exact Hr2. unfold modify. rewrite E2. done. }
    exists (<[length bs := n]> (lh_block l)), (set_log l3 (set_bufs s2.(k_bufs) s)).
    assert (calm p (set_log l3 (set_bufs s2.(k_bufs) s))) as Hc' by (by apply (calm_ext p s)).
    split_and!.
    + rewrite (release_calm p s); [rewrite E2; done|done|done|rewrite E2; done|rewrite E2; done].
    + apply (bc_move p s2); [done|auto|rewrite E2; done..].
    + destruct Hlog as [H1 H2 H3 H4 H5].
      constructor; [exact H1|exact H2| | |]; cbn [k_log set_log l3 l2 lh_n lh_block set_lh_n set_lh_block].
      * rewrite H3, length_app. simpl. lia.
      * by rewrite length_insert.
      * rewrite Ei, length_app. simpl. rewrite Nat.add_1_r.
        rewrite (take_S_r _ _ n) by (apply list_lookup_insert_eq; lia).
        by rewrite take_insert_ge, H5 by lia.
    + unfold l3, l2. rewrite Ei, (li_n _ _ _ Hlog), length_app. simpl.
      by replace (Z.of_nat (length bs + 1)) with (Z.of_nat (length bs) + 1) by lia.
Qed.

Lemma begin_op_ok p s :
  (0 < wait_fuel)%nat -> calm p s -> s.(k_locks) !! log_lock = None ->
  s.(k_log).(l_committing) = false -> log_full s.(k_log) = false ->
  begin_op s = Ret tt (upd_log (fun l => set_l_outstanding (l.(l_outstanding) + 1) l) s).
Proof.
  intros Hf Hc Hlk Hcm Hfull. set (l := s.(k_log)) in *.
  unfold begin_op. erewrite bind_Ret by (by apply acquire_free).
  destruct wait_fuel as [|f] eqn:Ef; [lia|]. cbn [begin_op_loop].
  set (s1 := acquired log_lock s). rewrite (bind_Ret (get k_log) _ s1 l s1 eq_refl), Hcm, Hfull.
  erewrite bind_Ret by done. by rewrite (release_calm p s) by done.
Qed.

(** The last operation of a transaction commits it. *)
Lemma end_op_last p s s' V R held (ws : list (Z * list Z)) :
  calm p s -> s.(k_locks) !! log_lock = None ->
  s.(k_log).(l_committing) = false -> s.(k_log).(l_outstanding) = 1 ->
  let l1 := set_l_committing true (set_l_outstanding 0 s.(k_log)) in
  commit (set_log l1 s) = Ret tt s' -> did p (set_log (set_lh_n 0 l1) s) s' V R held ws ->
  exists s2, end_op s = Ret tt s2 /\
    did p (set_log (set_lh_n 0 (set_l_outstanding 0 s.(k_log))) s) s2 V R held ws.
Proof.
  intros Hc Hlk Hcm Hout l1 Hr Hd. set (l := s.(k_log)) in *.
  unfold end_op. erewrite bind_Ret by (by apply acquire_free).
  set (l0 := set_l_outstanding 0 l). set (s1 := set_log l0 (acquired log_lock s)).
  rewrite (bind_Ret _ _ _ tt s1).
  2:{ unfold s1, l0, modify, upd_log. change (k_log (acquired log_lock s)) with l. by rewrite Hout. }
  rewrite (bind_Ret (get k_log) _ s1 l0 s1 eq_refl). change (l_committing l0) with (l_committing l).
  rewrite Hcm. change (l_outstanding l0 =? 0) with true. cbv iota. cbn [when].
  rewrite (bind_Ret _ _ s1 tt (set_log l1 (acquired log_lock s))) by done.
  erewrite bind_Ret by (by apply (release_calm p s)).
  erewrite bind_Ret by exact Hr.
  pose proof (did_frame _ _ _ _ _ _ _ Hd) as Hfr.
  assert (calm p s') as Hc'.
  { apply (bio_frame_calm p _ _ Hfr). by apply (calm_ext p s). }
  assert (s'.(k_locks) !! log_lock = None) as Hlk' by (by rewrite (bio_frame_locks p _ _ Hfr)).
  erewrite bind_Ret by (by apply acquire_free).
  set (l2 := set_l_committing false (set_lh_n 0 l1)).
  assert (s'.(k_log) = set_lh_n 0 l1) as El by apply (did_log _ _ _ _ _ _ _ Hd).
  rewrite (bind_Ret _ _ _ tt (acquired log_lock (set_log l2 s'))).
  2:{ unfold modify, upd_log, l2. rewrite <- El. done. }
  assert (calm p (set_log l2 s')) as Hc2 by (by apply (calm_ext p s')).
  erewrite bind_Ret by (apply (wakeup_calm p), calm_acquired; done).
  set (s3 := set_procs (wake_all (Some log_chan) (Some p) s'.(k_procs)) (set_log l2 s')).
  assert (did p (set_log l2 s') s3 V R held []) as Hd3.
  { constructor; [|by apply (bio_frame_wake p (set_log l2 s'))|done|done].
    apply (bc_wake p (set_log l2 s')), bc_set_log, Hd. }
  exists s3. split.
  { change (set_procs _ (acquired log_lock (set_log l2 s'))) with (acquired log_lock s3).
    apply (release_inner p); [apply Hd3|done]. }
  pose proof (did_set_log p _ _ _ _ _ _ l2 Hd) as Hd'.
  pose proof (did_trans _ _ _ _ _ _ _ _ _ _ _ _ Hd' Hd3) as H. rewrite app_nil_r in H.
  replace l2 with (set_lh_n 0 l0) in H; [done|]. unfold l2, l1, l0. by rewrite <- Hcm.
Qed.

(** ** Whole transactions *)

(** A read-modify-write of a block under the log. *)
Definition update_block (u : Z * (list Z -> list Z)) : K unit :=
  let! b := bread ROOTDEV u.1 in
  setb b (fun x => set_b_data (u.2 x.(b_data)) x) ;;
  log_write b ;;
  brelse b.

Definition transaction (us : list (Z * (list Z -> list Z))) : K unit :=
  begin_op ;; for_each us update_block ;; end_op.

(** What it means. *)
Definition updated (us : list (Z * (list Z -> list Z))) (V : Z -> list Z) : Z -> list Z :=
  fold_left (fun V u => zupd V u.1 (u.2 (V u.1))) us V.
Definition touched (us : list (Z * (list Z -> list Z))) (bs : list Z) : list Z :=
  fold_left (fun bs u => log_add bs u.1) us bs.

(** The blocks of the transaction are pinned, and nothing else is referenced. *)
Definition pins (bs : list Z) (n : Z) : Z := if decide (n ∈ bs) then 1 else 0.

Lemma pins_roomy bs : (length bs < bhead)%nat -> roomy (pins bs).
Proof. intros H. exists bs. split; [|done]. intros n. unfold pins. case_decide; [done|lia]. Qed.

Lemma unpinned_pins bs n : NoDup bs -> unpinned (pins bs) bs n = 0.
Proof.
  intros Hnd. assert (forall R l, NoDup l -> unpinned R l n = if decide (n ∈ l) then R n - 1 else R n) as H.
  { intros R l. revert R. induction l as [|x l IH]; intros R Hl; [done|].
    apply NoDup_cons in Hl as [Hx Hl]. unfold unpinned in *. simpl. rewrite IH by done. unfold zupd.
    destruct (decide (n = x)) as [->|Hn].
    - rewrite decide_False by done. by rewrite decide_True by set_solver.
    - destruct (decide (n ∈ l)); [by rewrite decide_True by set_solver|].
      by rewrite decide_False by set_solver. }
  rewrite H by done. unfold pins. by case_decide.
Qed.

Lemma touched_ok start nlog us :
  Z.of_nat (length us) < nlog -> Forall (fun u => home start nlog u.1 /\ blk_ok u.1) us ->
  NoDup (touched us []) /\ apart start nlog (touched us []) /\ Forall blk_ok (touched us []) /\
  (length (touched us []) <= length us)%nat /\ (us <> [] -> touched us [] <> []).
Proof.
  intros Hlen H.
  assert (forall bs, NoDup bs -> (forall n, n ∈ bs -> home start nlog n) -> Forall blk_ok bs ->
    NoDup (touched us bs) /\ (forall n, n ∈ touched us bs -> home start nlog n) /\ Forall blk_ok (touched us bs) /\
    (length bs <= length (touched us bs) <= length bs + length us)%nat /\
    (us <> [] -> touched us bs <> [])) as Hg.
  { clear Hlen. induction us as [|u us IH]; intros bs Hnd Ha Hb; [simpl; split_and!; try done; lia|].
    apply Forall_cons in H as [[Hh Hbk] H].
    assert (NoDup (log_add bs u.1) /\ (forall n, n ∈ log_add bs u.1 -> home start nlog n) /\ Forall blk_ok (log_add bs u.1) /\
      (length bs <= length (log_add bs u.1) <= S (length bs))%nat /\ log_add bs u.1 <> []) as (H1 & H2 & H3 & H4 & H5).
    { unfold log_add. destruct (decide (u.1 ∈ bs)) as [Hin|Hin].
      - split_and!; try done; [lia|]. intros ->. by apply elem_of_nil in Hin.
      - split_and!.
        + apply NoDup_app. split_and!; [done|set_solver|apply NoDup_singleton].
        + intros n. rewrite elem_of_app, list_elem_of_singleton. intros [Hn| ->]; [by apply Ha|done].
        + apply Forall_app. split; [done|]. by apply Forall_singleton.
        + rewrite length_app. simpl. lia.
        + rewrite length_app. simpl. lia.
        + by destruct bs. }
    destruct (IH H (log_add bs u.1) H1 H2 H3) as (G1 & G2 & G3 & G4 & G5).
    change (touched (u :: us) bs) with (touched us (log_add bs u.1)). simpl length.
    split_and!; try done; [lia|lia|]. intros _ E. rewrite E in G4. simpl in G4.
    by destruct (log_add bs u.1); [|simpl in G4; lia]. }
  destruct (Hg []) as (G1 & G2 & G3 & G4 & G5); [constructor| |constructor|].
  - intros n Hn. by apply elem_of_nil in Hn.
  - split_and!; try done; [|apply G4]. split; [simpl in G4; lia|done].
Qed.

Lemma updated_other us V n : n ∉ us.*1 -> updated us V n = V n.
Proof.
  revert V. induction us as [|u us IH]; intros V H; [done|]. unfold updated in *. simpl.
  simpl in H. rewrite IH by set_solver. apply zupd_ne. set_solver.
Qed.

Lemma commit_writes_start start bs V D :
  vapply (commit_writes start bs V) D start = header (header (V start) bs) [].
Proof.
  unfold commit_writes. rewrite !app_assoc, vapply_app. simpl. apply zupd_eq.
Qed.

Lemma touched_in us n : n ∈ us.*1 -> n ∈ touched us [].
Proof.
  assert (forall us bs n, n ∈ bs \/ n ∈ us.*1 -> n ∈ touched us bs) as H; [|by intros; apply H; right].
  clear. induction us as [|u us IH]; intros bs n Hn; simpl in *.
  - destruct Hn as [Hn|Hn]; [done|by apply elem_of_nil in Hn].
  - apply IH. unfold log_add. destruct Hn as [Hn|Hn]; [left; case_decide; set_solver|].
    apply elem_of_cons in Hn as [->|Hn]; [left; case_decide; set_solver|by right].
Qed.

Lemma commit_writes_home start nlog bs V D n :
  home start nlog n -> NoDup bs -> Z.of_nat (length bs) < nlog ->
  vapply (commit_writes start bs V) D n = if decide (n ∈ bs) then V n else D n.
Proof.
  intros Hn Hnd Hle. assert (n <> start) as Hs by (intros ->; eapply start_not_home, Hn; lia).
  unfold commit_writes. rewrite !vapply_app. simpl. rewrite zupd_ne by done.
  destruct (decide (n ∈ bs)) as [Hin|Hin].
  - apply vapply_in; [by rewrite homes_fst|]. apply list_elem_of_fmap. by exists n.
  - rewrite vapply_other by (by rewrite homes_fst). rewrite zupd_ne by done. apply vapply_other.
    rewrite log_copies_fst. intros Hc. apply list_elem_of_fmap in Hc as (j & -> & Hj).
    apply elem_of_seq in Hj. apply (log_blk_not_home start nlog j); [lia|done].
Qed.

(** The log of a system with one transaction under way. *)
Record open_log (l : logst) (start : Z) (bs : list Z) : Prop := {
  ol_is : log_is l start bs;
  ol_out : l.(l_outstanding) = 1;
  ol_comm : l.(l_committing) = false;
  ol_size : l.(l_size) = LOGSIZE;
}.

Lemma log_write_too_big b s :
  s.(k_locks) !! log_lock = None ->
  s.(k_log).(lh_n) >= LOGSIZE \/ s.(k_log).(lh_n) >= s.(k_log).(l_size) - 1 ->
  log_write b s = Panic "too big a transaction".
Proof.
  intros Hlk H. set (l := s.(k_log)) in *.
  unfold log_write. erewrite bind_Ret by (by apply acquire_free).
  set (s1 := acquired log_lock s). rewrite (bind_Ret (get k_log) _ s1 l s1 eq_refl).
  rewrite !Z.geb_leb. assert ((LOGSIZE <=? lh_n l) || (l_size l - 1 <=? lh_n l) = true) as ->; [|done].
  apply orb_true_iff. destruct H; [left|right]; apply Z.leb_le; lia.
Qed.

(** [log_write] refuses a block when the header or the log area is full, and outside of
    a transaction; nothing is changed on the disk in either case, the kernel panics. *)
Theorem log_write_panics b s :
  s.(k_locks) !! log_lock = None ->
  (s.(k_log).(lh_n) >= LOGSIZE \/ s.(k_log).(lh_n) >= s.(k_log).(l_size) - 1 ->
    log_write b s = Panic "too big a transaction") /\
  (s.(k_log).(lh_n) < LOGSIZE -> s.(k_log).(lh_n) < s.(k_log).(l_size) - 1 ->
    s.(k_log).(l_outstanding) < 1 -> log_write b s = Panic "log_write outside of trans").
Proof.
  intros Hlk. split; [by apply log_write_too_big|]. set (l := s.(k_log)). intros H1 H2 H3.
  unfold log_write. erewrite bind_Ret by (by apply acquire_free).
  set (s1 := acquired log_lock s). rewrite (bind_Ret (get k_log) _ s1 l s1 eq_refl).
  rewrite !Z.geb_leb. assert ((LOGSIZE <=? lh_n l) || (l_size l - 1 <=? lh_n l) = false) as ->.
  { apply orb_false_iff. split; apply Z.leb_gt; lia. }
  by assert (l_outstanding l <? 1 = true) as -> by (apply Z.ltb_lt; lia).
Qed.

Section Fuel.
Context (Hfuel : (0 < wait_fuel)%nat).

Lemma update_block_ok p s V bs start u :
  bc p s V (pins bs) [] -> ready s -> s.(k_locks) !! log_lock = None ->
  open_log s.(k_log) start bs -> (length bs < Z.to_nat MAXOPBLOCKS)%nat ->
  exists l s', update_block u s = Ret tt s' /\ open_log l start (log_add bs u.1) /\
    did p (set_log l s) s' (zupd V u.1 (u.2 (V u.1))) (pins (log_add bs u.1)) [] [].
Proof using All.
  intros Hbc Hrd Hlk [Hlog Hout Hcm Hsz] Hlen. destruct u as [n f]. cbn [fst snd]. unfold update_block. cbn [fst snd].
  assert (length bs < bhead)%nat as Hb by (etransitivity; [exact Hlen|vm_compute; lia]).
  assert (Z.of_nat (length bs) < 10) as Hten by (change (Z.to_nat MAXOPBLOCKS) with 10%nat in Hlen; lia).
  assert (forall m, 0 <= pins bs m <= 1) as Hp by (intros m; unfold pins; case_decide; lia).
  destruct (did_read Hfuel p s V (pins bs) [] n) as (b & s1 & Hr1 & Hd1); try done.
  { apply not_elem_of_nil. } { specialize (Hp n). lia. } { right. by apply pins_roomy. }
  erewrite bind_Ret by exact Hr1.
  pose proof (did_set p s1 V _ _ n b f (did_bc _ _ _ _ _ _ _ Hd1) ltac:(set_solver)) as Hd2.
  set (s2 := upd_buf b _ s1) in Hd2. unfold setb. rewrite (bind_Ret _ _ s1 tt s2) by done.
  pose proof (did_trans _ _ _ _ _ _ _ _ _ _ _ _ Hd1 Hd2) as Hd12.
  pose proof (did_log _ _ _ _ _ _ _ Hd12) as El.
  destruct (log_write_ok p s2 _ _ _ n b start bs (did_bc _ _ _ _ _ _ _ Hd12)) as (bl & s3 & Hr3 & Hbc3 & Hlog3 & E3).
  { by eapply did_ready. } { by rewrite (bio_frame_locks p s) by apply Hd12. } { set_solver. }
  { by rewrite El. } { change (Z.to_nat LOGSIZE) with 30%nat. lia. }
  { rewrite El, Hsz. change LOGSIZE with 30. lia. } { rewrite El. lia. }
  { rewrite zupd_eq. specialize (Hp n). lia. }
  erewrite bind_Ret by exact Hr3. set (l3 := s3.(k_log)) in Hlog3.
  assert (l3 = set_lh_n (Z.of_nat (length (log_add bs n))) (set_lh_block bl s.(k_log))) as E3l.
  { unfold l3. rewrite E3. change (k_log s2) with (k_log s2). by rewrite <- El. }
  assert (did p (set_log l3 s) s3 (zupd V n (f (V n))) (log_ref (zupd (pins bs) n (pins bs n + 1)) bs n) [(n, b)] []) as Hd3.
  { pose proof (did_set_log p _ _ _ _ _ _ l3 Hd12) as Hd12'.
    refine (did_trans _ _ _ _ _ _ _ _ _ _ [] [] Hd12' _).
    assert (s3 = set_bufs s3.(k_bufs) (set_log l3 s2)) as E3'.
    { transitivity (set_bufs s3.(k_bufs) (set_log (set_lh_n (Z.of_nat (length (log_add bs n))) (set_lh_block bl s2.(k_log))) s2));
        [done|]. by rewrite E3l, El. }
    constructor; [done| |by rewrite E3'|by rewrite E3'].
    rewrite E3'. apply (bio_frame_local p (set_log l3 s2) _ s2.(k_bhead)). }
  destruct (did_release p s3 _ _ _ [] n b (did_bc _ _ _ _ _ _ _ Hd3)) as (s4 & Hr4 & Hd4);
    [by eapply did_ready|done| |].
  { unfold log_ref, pins. destruct (decide (n ∈ bs)); rewrite ?zupd_eq; intros; lia. }
  exists l3, s4. split; [done|]. split.
  { constructor; [done|by rewrite E3l|by rewrite E3l|by rewrite E3l]. }
  eapply did_ext; [| |exact (did_trans _ _ _ _ _ _ _ _ _ _ _ _ Hd3 Hd4)]; [done|].
  intros m. unfold log_add, log_ref, pins.
  destruct (decide (n ∈ bs)) as [Hn|Hn]; unfold zupd; destruct (decide (m = n)) as [->|Hm].
  - rewrite !decide_True by done. lia.
  - done.
  - rewrite !decide_True by set_solver. rewrite ?decide_False by done. lia.
  - destruct (decide (m ∈ bs)); [by rewrite decide_True by set_solver|by rewrite decide_False by set_solver].
Qed.

Lemma updates_ok p start us : forall s V bs,
  bc p s V (pins bs) [] -> ready s -> s.(k_locks) !! log_lock = None ->
  open_log s.(k_log) start bs -> (length bs + length us <= Z.to_nat MAXOPBLOCKS)%nat ->
  exists l s', for_each us update_block s = Ret tt s' /\ open_log l start (touched us bs) /\
    did p (set_log l s) s' (updated us V) (pins (touched us bs)) [] [].
Proof using All.
  induction us as [|u us IH]; intros s V bs Hbc Hrd Hlk Hol Hlen; cbn [for_each].
  - exists s.(k_log), s. split; [done|]. split; [done|]. by apply did_nil.
  - simpl in Hlen. destruct (update_block_ok p s V bs start u) as (l1 & s1 & Hr1 & Hol1 & Hd1); try done; [lia|].
    erewrite bind_Ret by exact Hr1.
    assert (s1.(k_log) = l1) as El by apply (did_log _ _ _ _ _ _ _ Hd1).
    destruct (IH s1 (zupd V u.1 (u.2 (V u.1))) (log_add bs u.1)) as (l2 & s2 & Hr2 & Hol2 & Hd2).
    + apply Hd1.
    + by eapply did_ready.
    + by rewrite (bio_frame_locks p (set_log l1 s)) by apply Hd1.
    + by rewrite El.
    + unfold log_add. case_decide; rewrite ?length_app; simpl; lia.
    + exists l2, s2. split; [done|]. split; [done|].
      pose proof (did_set_log p _ _ _ _ _ _ l2 Hd1) as Hd1'.
      exact (did_trans _ _ _ _ _ _ _ _ _ _ _ _ Hd1' Hd2).
Qed.

(** The system between transactions: everything is on the disk. *)
Record idle (p : nat) (start : Z) (s : kstate) : Prop := {
  id_bc : bc p s (disk_at s) (fun _ => 0) [];
  id_ready : ready s;
  id_lock : s.(k_locks) !! log_lock = None;
  id_log : log_is s.(k_log) start [];
  id_out : s.(k_log).(l_outstanding) = 0;
  id_comm : s.(k_log).(l_committing) = false;
  id_size : s.(k_log).(l_size) = LOGSIZE;
  id_head : head_lists (disk_at s start) [];
  id_len : length (disk_at s start) = Z.to_nat BSIZE;
}.

(** With nothing referenced, the contents of the blocks are those of the disk. *)
Lemma bc_idle p s V R : bc p s V R [] -> (forall n, R n = 0) -> bc p s (disk_at s) (fun _ => 0) [].
Proof using Type.
  intros H HR. eapply bc_ext; [| |exact H]; [|done]. intros n.
  destruct (bt_clean _ _ _ _ _ _ (bc_tab _ _ _ _ _ H) n) as [E|E]; [done|]. by rewrite HR in E.
Qed.

(** One operation fits into the log. *)
Lemma txn_len (us : list (Z * (list Z -> list Z))) :
  (length us <= Z.to_nat MAXOPBLOCKS)%nat -> Z.of_nat (length us) < LOGSIZE.
Proof using Type. clear Hfuel. change (Z.to_nat MAXOPBLOCKS) with 10%nat. change LOGSIZE with 30. lia. Qed.

Lemma transaction_ok p start s us :
  idle p start s -> us <> [] -> (length us <= Z.to_nat MAXOPBLOCKS)%nat ->
  Forall (fun u => home start LOGSIZE u.1 /\ blk_ok u.1) us ->
  let bs := touched us [] in let V := updated us (disk_at s) in
  exists s', transaction us s = Ret tt s' /\ idle p start s' /\
    s'.(k_disk) = dapply (commit_writes start bs V) s.(k_disk) /\
    s'.(k_diskwrites) = rev (commit_writes start bs V) ++ s.(k_diskwrites).
Proof using All.
  intros [Hbc Hrd Hlk Hlog Hout Hcm Hsz Hh Hl] Hne Hlen Hus bs V. unfold transaction. pose proof (txn_len us Hlen) as Hlog29.
  destruct (touched_ok start LOGSIZE us Hlog29 Hus) as (Hnd & Ha & Hb & Hle & Hbs). fold bs in Hnd, Ha, Hb, Hle, Hbs.
  erewrite bind_Ret.
  2:{ apply (begin_op_ok p); [done|apply Hbc|done|done|]. unfold log_full.
      rewrite (li_n _ _ _ Hlog), Hout. done. }
  set (l0 := set_l_outstanding (l_outstanding (k_log s) + 1) (k_log s)).
  change (upd_log _ s) with (set_log l0 s).
  destruct (updates_ok p start us (set_log l0 s) (disk_at s) []) as (l1 & s1 & Hr1 & Hol1 & Hd1).
  { apply bc_set_log. by eapply bc_ext; [| |exact Hbc]. } { done. } { done. }
  { constructor; [by destruct Hlog|unfold l0; cbn; lia|done|done]. } { done. }
  change (set_log l1 (set_log l0 s)) with (set_log l1 s) in Hd1. fold bs V in Hol1, Hd1.
  erewrite bind_Ret by exact Hr1. destruct Hol1 as [Hlog1 Hout1 Hcm1 Hsz1].
  assert (s1.(k_log) = l1) as El by apply (did_log _ _ _ _ _ _ _ Hd1).
  set (l2 := set_l_committing true (set_l_outstanding 0 l1)).
  pose proof (did_set_log p _ _ _ _ _ _ l2 Hd1) as Hd1'. change (set_log l2 (set_log l1 s)) with (set_log l2 s) in Hd1'.
  assert (forall n, unpinned (pins bs) bs n = 0) as HR0 by (intros n; by apply unpinned_pins).
  assert (length bs < bhead)%nat as Hbb.
  { eapply Nat.le_lt_trans; [exact Hle|]. eapply Nat.le_lt_trans; [exact Hlen|]. vm_compute. lia. }
  destruct (commit_ok Hfuel p (set_log l2 s1) V (pins bs) start LOGSIZE bs) as (s2 & Hr2 & Hd2); try done;
    [apply Hd1'|by eapply did_ready|by destruct Hlog1|by apply Hbs| |by apply pins_roomy| |].
  { intros n. unfold pins. case_decide; lia. }
  { intros i Hi. unfold pins. rewrite decide_True; [lia|]. by apply list_elem_of_lookup_total_2. }
  assert (bio_frame p (set_log l1 s) s1) as Hfr1 by apply Hd1.
  destruct (end_op_last p s1 s2 (vapply (commit_writes start bs V) V) (unpinned (pins bs) bs) []
    (commit_writes start bs V)) as (s3 & Hr3 & Hd3).
  { apply (did_bc _ _ _ _ _ _ _ Hd1). } { by rewrite (bio_frame_locks p (set_log l1 s)). }
  { by rewrite El. } { by rewrite El. } { rewrite El. exact Hr2. } { rewrite El. exact Hd2. }
  exists s3. split; [done|]. rewrite El in Hd3. set (l3 := set_lh_n 0 (set_l_outstanding 0 l1)) in Hd3.
  pose proof (did_set_log p _ _ _ _ _ _ l3 Hd1) as Hd1''. change (set_log l3 (set_log l1 s)) with (set_log l3 s) in Hd1''.
  pose proof (did_trans _ _ _ _ _ _ _ _ _ _ _ _ Hd1'' Hd3) as Hd. simpl in Hd.
  pose proof (bc_idle p s3 _ _ (did_bc _ _ _ _ _ _ _ Hd) HR0) as Hbc3.
  split; [|split; apply Hd]. assert (s3.(k_log) = l3) as El3 by apply (did_log _ _ _ _ _ _ _ Hd).
  assert (disk_at s3 start = header (header (V start) bs) []) as Es.
  { unfold disk_at. rewrite (did_disk _ _ _ _ _ _ _ Hd), dapply_at. apply commit_writes_start. }
  assert (V start = disk_at s start) as EV.
  { apply updated_other. intros Hin. apply list_elem_of_fmap in Hin as (u & E & Hin).
    rewrite Forall_forall in Hus. destruct (Hus u Hin) as [Hhome _]. rewrite <- E in Hhome.
    by eapply start_not_home, Hhome. }
  assert (length (header (V start) bs) = Z.to_nat BSIZE) as Hlh.
  { rewrite EV, length_header; [done|]. rewrite Hl. by apply header_room, (log_is_le l1 start). }
  constructor; [done|by eapply did_ready| | | | | | |].
  - by rewrite (bio_frame_locks p (set_log l3 s)) by apply Hd.
  - rewrite El3. destruct Hlog1. by constructor.
  - by rewrite El3.
  - by rewrite El3.
  - by rewrite El3.
  - rewrite Es. by apply head_lists_nil.
  - rewrite Es. by apply length_header_nil.
Qed.

(** [C1] The transaction theorem. From a system between transactions,
    [begin_op]; up to [MAXOPBLOCKS] read-modify-writes of blocks through [log_write];
    [end_op] leaves a system between transactions again, whose disk has the updates done in
    order. If the machine stops after any prefix of the disk writes this did, then
    recovery, also after restarts that were cut short, makes the disk be all of the
    old one or all of the new one outside the log. *)
Theorem log_transaction p start s us :
  idle p start s -> us <> [] -> (length us <= Z.to_nat MAXOPBLOCKS)%nat ->
  Forall (fun u => home start LOGSIZE u.1 /\ blk_ok u.1) us ->
  exists s' ws, transaction us s = Ret tt s' /\ idle p start s' /\
    (forall n, home start LOGSIZE n -> disk_at s' n = updated us (disk_at s) n) /\
    s'.(k_diskwrites) = rev ws ++ s.(k_diskwrites) /\ s'.(k_disk) = dapply ws s.(k_disk) /\
    forall k D q r, restarts start (dapply (take k ws) s.(k_disk)) D ->
      booted q start r -> r.(k_disk) = D ->
      exists r', recover_from_log r = Ret tt r' /\
        ((forall n, home start LOGSIZE n -> disk_at r' n = disk_at s n) \/
         (forall n, home start LOGSIZE n -> disk_at r' n = updated us (disk_at s) n)).
Proof using All.
  intros Hid Hne Hlen Hus. pose proof (txn_len us Hlen) as Hlog29.
  destruct (transaction_ok p start s us Hid Hne Hlen Hus) as (s' & Hr & Hid' & Ed & Ew).
  destruct (touched_ok start LOGSIZE us Hlog29 Hus) as (Hnd & Ha & Hb & Hle & Hbs).
  set (bs := touched us []) in *. set (V := updated us (disk_at s)) in *.
  assert (length bs <= Z.to_nat LOGSIZE)%nat as Hle'.
  { do 2 (etransitivity; [eassumption|]). vm_compute. lia. }
  assert (forall n, n ∉ bs -> V n = disk_at s n) as Hout.
  { intros n Hn. apply updated_other. intros Hin. by apply Hn, touched_in. }
  exists s', (commit_writes start bs V). split_and!; try done.
  - intros n Hn. unfold disk_at. rewrite Ed, dapply_at, (commit_writes_home start LOGSIZE) by (done || apply Ha).
    case_decide; [done|]. symmetry. by apply Hout.
  - intros k D q r Hrs Hbo Er. destruct Hid as [_ _ _ _ _ _ _ Hh Hl].
    destruct (commit_crash Hfuel s.(k_disk) start LOGSIZE bs V k D q r) as (r' & Hr' & _ & Hres); try done.
    { unfold V. rewrite updated_other; [done|]. intros Hin. apply (not_home_apart start LOGSIZE bs start Ha).
      - by apply start_not_home.
      - by apply touched_in. }
    exists r'. split; [done|]. destruct (decide (length bs < k)%nat) as [Hk|Hk].
    + right. intros n Hn. rewrite Hres by done. unfold outcome_at. case_bool_decide as Hc; [done|].
      symmetry. apply Hout. intros Hin. by apply Hc.
    + left. intros n Hn. rewrite Hres by done. unfold outcome_at. rewrite bool_decide_false; [done|].
      by intros [? _].
Qed.

(** [C39] The reservation of [begin_op] is one block larger than the log: on a file system made by
    mkfs, whose log area has [LOGSIZE] blocks with the header, three operations are admitted
    at once, with [MAXOPBLOCKS] blocks each, [LOGSIZE] in all, but [log_write] panics
    when the log has [LOGSIZE - 1] blocks. *)
Theorem begin_op_overcommits p start s :
  idle p start s ->
  exists s3, (begin_op ;; begin_op ;; begin_op) s = Ret tt s3 /\
    s3.(k_log).(l_outstanding) * MAXOPBLOCKS = LOGSIZE /\ s3.(k_log).(l_size) = LOGSIZE /\
    forall t b, t.(k_locks) !! log_lock = None -> t.(k_log).(lh_n) = LOGSIZE - 1 ->
      t.(k_log).(l_size) = s3.(k_log).(l_size) -> log_write b t = Panic "too big a transaction".
Proof using Hfuel.
  intros [Hbc _ Hlk Hlog Hout Hcm Hsz _ _]. assert (calm p s) as Hc by apply Hbc.
  set (up := upd_log (fun l => set_l_outstanding (l.(l_outstanding) + 1) l)).
  assert (forall t k, 0 <= k <= 2 -> calm p t -> t.(k_locks) !! log_lock = None ->
    t.(k_log).(l_committing) = false -> t.(k_log).(lh_n) = 0 -> t.(k_log).(l_outstanding) = k ->
    begin_op t = Ret tt (up t)) as Hstep.
  { intros t k Hk H1 H2 H3 H4 H5. apply (begin_op_ok p); try done. unfold log_full. rewrite H4, H5.
    rewrite Z.gtb_ltb. apply Z.ltb_ge. change MAXOPBLOCKS with 10. change LOGSIZE with 30. lia. }
  pose proof (li_n _ _ _ Hlog) as Hn. simpl in Hn.
  exists (up (up (up s))). split.
  - erewrite bind_Ret by (apply (Hstep s 0); done || lia).
    erewrite bind_Ret by (apply (Hstep _ 1); [lia|by apply (calm_ext p s)|done|done|done|];
      change (l_outstanding (k_log s) + 1 = 1); lia).
    apply (Hstep _ 2); [lia|by apply (calm_ext p s)|done|done|done|].
    change (l_outstanding (k_log s) + 1 + 1 = 2). lia.
  - split; [change ((l_outstanding (k_log s) + 1 + 1 + 1) * MAXOPBLOCKS = LOGSIZE); by rewrite Hout|].
    split; [exact Hsz|]. intros t b Ht Hlh Hls. apply log_write_too_big; [done|]. right.
    rewrite Hls. change (lh_n (k_log t) >= l_size (k_log s) - 1). lia.
Qed.

End Fuel.

End Txn.

(** ** Concrete runs *)

#[local] Instance demo_fuel : WaitFuel := 1%nat.

(** A file system of 1024-byte blocks with its log at block 2. *)
Definition demo_log : logst := mklog 2 LOGSIZE 0 false ROOTDEV 0 (replicate 30 0).

(** The machine right after [binit], with process 0 running. *)
Lemma demo_restart (D : gmap Z (list Z)) (l : logst) :
  exists s, bc 0 s (disk_at s) (fun _ => 0) [] /\ ready s /\ s.(k_locks) !! log_lock = None /\
    s.(k_disk) = D /\ s.(k_log) = l.
Proof.
  destruct (binit_ok (set_log l (set_disk D demo_boot))) as (s & _ & Hl & Hring & Ht & E & Hfr);
    [done|apply demo_bss|].
  assert (forall lk, s.(k_locks) !! lk = None) as Hlk by (intros lk; by apply Hfr).
  exists s. split_and!; [|split; [by constructor|by rewrite E]|done|by rewrite E|by rewrite E].
  constructor; [exact Hl|eexists; exact Hring|apply Ht| |rewrite E; by split|done].
  constructor; [rewrite E; split; simpl; [lia|done]|by rewrite E|by rewrite E|by rewrite E| |].
  - vm_compute. lia.
  - intros i. apply Hlk.
Qed.

Lemma demo_booted D : exists s, booted 0 2 s /\ s.(k_disk) = D.
Proof.
  destruct (demo_restart D demo_log) as (s & Hbc & Hrd & _ & Ed & El).
  exists s. split; [|done]. constructor; rewrite ?El; done.
Qed.

Definition demo_disk : gmap Z (list Z) := {[2 := replicate 1024 0; 50 := replicate 1024 7]}.

Lemma demo_idle : exists s, idle 0 2 s /\ s.(k_disk) = demo_disk.
Proof.
  destruct (demo_restart demo_disk demo_log) as (s & Hbc & Hrd & Hlk & Ed & El).
  exists s. split; [|done]. constructor; rewrite ?El; try done.
  - unfold disk_at. rewrite Ed. vm_compute. split_and!; try done. lia.
  - unfold disk_at. rewrite Ed. by vm_compute.
Qed.

Lemma demo_home : home 2 LOGSIZE 50.
Proof. right. vm_compute. discriminate. Qed.

Definition demo_update : Z * (list Z -> list Z) := (50, fun d => set32 d 0 9).

Lemma log_transaction_witness :
  exists s s' r', s.(k_disk) = demo_disk /\ transaction [demo_update] s = Ret tt s' /\
    disk_at s' 50 = set32 (replicate 1024 7) 0 9 /\ idle 0 2 s' /\
    (disk_at r' 50 = replicate 1024 7 \/ disk_at r' 50 = set32 (replicate 1024 7) 0 9).
Proof.
  destruct demo_idle as (s & Hid & Ed). pose proof demo_home as Hh.
  assert (disk_at s 50 = replicate 1024 7) as E50 by (unfold disk_at; rewrite Ed; by vm_compute).
  destruct (log_transaction (Nat.lt_0_succ 0) 0 2 s [demo_update] Hid)
    as (s' & ws & Hr & Hid' & Hd & _ & _ & Hcrash).
  - done.
  - vm_compute. lia.
  - apply Forall_singleton. split; [exact Hh|vm_compute; split; discriminate || done].
  - destruct (demo_booted (dapply (take 2 ws) s.(k_disk))) as (r & Hb & Er).
    destruct (Hcrash 2%nat _ 0%nat r (restarts_none 2 _) Hb Er) as (r' & _ & Hout).
    exists s, s', r'. rewrite (Hd 50 Hh). unfold updated. cbn [fold_left demo_update fst snd].
    rewrite zupd_eq, E50. split_and!; try done.
    destruct Hout as [Ho|Ho]; [left|right]; rewrite (Ho 50 Hh); [done|].
    unfold updated. cbn [fold_left demo_update fst snd]. by rewrite zupd_eq, E50.
Defined.

(** A commit of one block. *)
Lemma log_crash_atomic_witness :
  exists s s' r', update_block demo_update s = Ret tt s' /\
    disk_at r' 50 = set32 (replicate 1024 7) 0 9 /\ exists s2, commit s' = Ret tt s2.
Proof.
  destruct (demo_restart demo_disk (set_l_outstanding 1 demo_log)) as (s & Hbc & Hrd & Hlk & Ed & El).
  pose proof demo_home as Hh.
  assert (disk_at s 50 = replicate 1024 7) as E50 by (unfold disk_at; rewrite Ed; by vm_compute).
  destruct (update_block_ok (Nat.lt_0_succ 0) 0 s (disk_at s) [] 2 demo_update) as (l & s1 & Hr & [Hlog _ _ _] & Hd);
    [done|done|done|rewrite El; by constructor|vm_compute; lia|].
  change (log_add [] demo_update.1) with [50] in Hlog, Hd.
  assert (s1.(k_log) = l) as El1 by apply (did_log _ _ _ _ _ _ _ Hd).
  assert (disk_at s1 2 = replicate 1024 0) as E2.
  { unfold disk_at. rewrite (did_disk _ _ _ _ _ _ _ Hd). change (dapply [] _) with s.(k_disk).
    rewrite Ed. by vm_compute. }
  destruct (log_crash_atomic (Nat.lt_0_succ 0) 0 s1 _ (pins [50]) 2 LOGSIZE [50] (did_bc _ _ _ _ _ _ _ Hd))
    as (s2 & ws & Hc & _ & _ & Hcrash).
  - by eapply did_ready.
  - by rewrite El1.
  - done.
  - split; [done|]. intros n Hn. apply list_elem_of_singleton in Hn as ->. exact Hh.
  - apply NoDup_singleton.
  - intros n. unfold pins. case_decide; lia.
  - apply pins_roomy. vm_compute. lia.
  - intros [|i] Hi; [vm_compute; done|simpl in Hi; lia].
  - apply Forall_singleton. unfold blk_ok. lia.
  - rewrite zupd_ne by done. unfold disk_at. rewrite Ed. by vm_compute.
  - rewrite E2. vm_compute. split_and!; try done. lia.
  - rewrite E2. by vm_compute.
  - destruct (demo_booted (dapply (take 2 ws) s1.(k_disk))) as (r & Hb & Er).
    destruct (Hcrash 2%nat _ 0%nat r (restarts_none 2 _) Hb Er) as (r' & _ & _ & Hout).
    exists s, s1, r'. split; [done|]. split; [|by exists s2]. rewrite (Hout 50 Hh).
    unfold outcome_at. rewrite bool_decide_true by (split; [simpl; lia|set_solver]).
    cbn [demo_update fst snd]. by rewrite zupd_eq, E50.
Defined.

Lemma log_write_panics_witness :
  log_write 0 (set_log (set_l_outstanding 3 (set_lh_n 29 demo_log)) inhabitant) = Panic "too big a transaction".
Proof.
  refine (proj1 (log_write_panics 0 (set_log (set_l_outstanding 3 (set_lh_n 29 demo_log)) inhabitant) eq_refl) _).
  right. vm_compute. discriminate.
Defined.

Lemma begin_op_overcommits_witness :
  exists s s3, s.(k_disk) = demo_disk /\ (begin_op ;; begin_op ;; begin_op) s = Ret tt s3 /\
    s3.(k_log).(l_outstanding) * MAXOPBLOCKS = LOGSIZE.
Proof.
  destruct demo_idle as (s & Hid & Ed).
  destruct (begin_op_overcommits (Nat.lt_0_succ 0) 0 2 s Hid) as (s3 & Hr & Ho & _).
  exists s, s3. split_and!; done.
Defined.
