(* ===== verification/Fs.v ===== *)
(** * The file system (fs.c, fs.h): definitions

    A [struct inode*] is an index into [itable.inode], a path or a name is its
    bytes without the NUL. On-disk structures are decoded from and encoded
    into the bytes of their block. [readi] into a kernel destination returns
    the bytes, [writei] from the kernel takes them. *)

From S2P Require Import Prelude Params Mem State Spinlock CString Kalloc Vm Proc Sleeplock Uart Printf.
From S2P Require Import Bio Log.

(** ** fs.h: the on-disk format *)

(** [struct dinode] *)
Record dinode : Type := mkdinode {
  di_type : Z;          (* File type *)
  di_major : Z;         (* Major device number (T_DEVICE only) *)
  di_minor : Z;         (* Minor device number (T_DEVICE only) *)
  di_nlink : Z;         (* Number of links to inode in file system *)
  di_size : Z;          (* Size of file (bytes) *)
  di_addrs : list Z;    (* Data block addresses *)
}.

Definition IBLOCK (i : Z) (sb : superblock) : Z := u32 (i / IPB + sb.(sb_inodestart)).
Definition BBLOCK (b : Z) (sb : superblock) : Z := u32 (b / BPB + sb.(sb_bmapstart)).

(** [struct dirent]: [sizeof] is 16. *)
Record dirent : Type := mkdirent { de_inum : Z; de_name : list Z }.
Definition DESIZE : Z := 16.

Definition get16 (data : list Z) (off : Z) : Z :=
  le_decode (take 2 (drop (Z.to_nat off) data)).

Definition dinode_encode (d : dinode) : list Z :=
  le_encode 2 d.(di_type) ++ le_encode 2 d.(di_major) ++ le_encode 2 d.(di_minor) ++
  le_encode 2 d.(di_nlink) ++ le_encode 4 d.(di_size) ++
  concat (map (le_encode 4) d.(di_addrs)).

(** The structure at byte [off] of a block. *)
Definition dinode_decode (data : list Z) (off : Z) : dinode :=
  {| di_type := i16 (get16 data off);
     di_major := i16 (get16 data (off + 2));
     di_minor := i16 (get16 data (off + 4));
     di_nlink := i16 (get16 data (off + 6));
     di_size := get32 data (off + 8);
     di_addrs := map (fun i => get32 data (off + 12 + 4 * i)) (zrange 0 13) |}.

Definition dirent_decode (bs : list Z) : dirent :=
  {| de_inum := get16 bs 0; de_name := take (Z.to_nat DIRSIZ) (drop 2 bs) |}.
Definition dirent_encode (de : dirent) : list Z := le_encode 2 de.(de_inum) ++ de.(de_name).

Definition sb_decode (data : list Z) : superblock :=
  {| sb_magic := get32 data 0; sb_size := get32 data 4; sb_nblocks := get32 data 8;
     sb_ninodes := get32 data 12; sb_nlog := get32 data 16; sb_logstart := get32 data 20;
     sb_inodestart := get32 data 24; sb_bmapstart := get32 data 28 |}.

(** The offset of inode [inum] in its block. *)
Definition dinode_off (inum : Z) : Z := 64 * (inum mod IPB).

(** [strncmp] and [strncpy] on the contents of arrays and strings; a list that
    ends stands for a NUL. *)
Fixpoint strncmp_list (n : nat) (p q : list Z) : Z :=
  match n with
  | O => 0
  | S n' =>
      if cbool (hd 0 p) && (hd 0 p =? hd 0 q) then strncmp_list n' (tl p) (tl q)
      else hd 0 p - hd 0 q
  end.
Definition strncpy_list (t : list Z) (n : nat) : list Z :=
  take n t ++ replicate (n - length t) 0.

Section Fs.
Context {I : KernelImage} {F : WaitFuel} {Disk : BlockDev}.

Definition geti {A} (ip : nat) (f : inode -> A) : K A := get (fun s => f (inode_at s ip)).
Definition seti (ip : nat) (f : inode -> inode) : K unit := modify (upd_inode ip f).

(** Read the super block. *)
Definition readsb (dev : Z) : K unit :=
  let! bp := bread dev 1 in
  let! data := getb bp b_data in
  modify (set_sb (sb_decode data)) ;;
  brelse bp.

Definition fsinit (dev : Z) : K unit :=
  readsb dev ;;
  let! sb := get k_sb in
  if negb (sb.(sb_magic) =? FSMAGIC) then panic "invalid file system" else
  initlog dev sb.

(** ** Blocks *)

Definition bzero (dev bno : Z) : K unit :=
  let! bp := bread dev bno in
  setb bp (set_b_data (replicate (Z.to_nat BSIZE) 0)) ;;
  log_write bp ;;
  brelse bp.

(** The bit for [bi] in its byte. *)
Definition bit_of (bi : Z) : Z := Z.shiftl 1 (bi mod 8).
Definition byte_of (data : list Z) (bi : Z) : Z := data !!! Z.to_nat (bi / 8).

(** The inner loop of [balloc]: the first [bi] whose bit is clear. *)
Fixpoint balloc_scan (n : nat) (bi : Z) (data : list Z) : option Z :=
  match n with
  | O => None
  | S n' => if Z.land (byte_of data bi) (bit_of bi) =? 0 then Some bi
            else balloc_scan n' (bi + 1) data
  end.

Fixpoint balloc_loop (fuel : nat) (dev b : Z) : K Z :=
  let! sb := get k_sb in
  if b <? sb.(sb_size) then
    match fuel with
    | O => fun _ => OutOfFuel
    | S fuel' =>
        let! bp := bread dev (BBLOCK b sb) in
        let! data := getb bp b_data in
        match balloc_scan (Z.to_nat (Z.min BPB (sb.(sb_size) - b))) 0 data with
        | Some bi =>
            (* Mark block in use. *)
            setb bp (fun x => set_b_data
              (<[Z.to_nat (bi / 8) := Z.lor (byte_of x.(b_data) bi) (bit_of bi)]> x.(b_data)) x) ;;
            log_write bp ;;
            brelse bp ;;
            bzero dev (b + bi) ;;
            ret (b + bi)
        | None => brelse bp ;; balloc_loop fuel' dev (b + BPB)
        end
    end
  else
    printf (str "balloc: out of blocks" ++ [10]) [] ;;
    ret 0.

Definition balloc (dev : Z) : K Z :=
  let! sb := get k_sb in
  balloc_loop (Z.to_nat (sb.(sb_size) / BPB + 1)) dev 0.

Definition bfree (dev b : Z) : K unit :=
  let! sb := get k_sb in
  let! bp := bread dev (BBLOCK b sb) in
  let bi := b mod BPB in
  let m := bit_of bi in
  let! data := getb bp b_data in
  if Z.land (byte_of data bi) m =? 0 then panic "freeing free block" else
  setb bp (fun x => set_b_data
    (<[Z.to_nat (bi / 8) := Z.land (byte_of x.(b_data) bi) (Z.lnot m)]> x.(b_data)) x) ;;
  log_write bp ;;
  brelse bp.

(** ** Inodes *)

Definition iinit : K unit :=
  initlock itable_lock ;;
  for_each (seq 0 (Z.to_nat NINODE)) (fun i => initsleeplock (SlInode i)).

(** The search of [iget]: the entry for the inode, or the first empty one. *)
Fixpoint iget_scan (tbl : list inode) (i : nat) (dev inum : Z) (empty : option nat) :
    nat + option nat :=
  match tbl with
  | [] => inr empty
  | ip :: tbl' =>
      if (ip.(i_ref) >? 0) && (ip.(i_dev) =? dev) && (ip.(i_inum) =? inum) then inl i
      else iget_scan tbl' (S i) dev inum
             (match empty with
              | None => if ip.(i_ref) =? 0 then Some i else None
              | Some _ => empty
              end)
  end.

Definition iget (dev inum : Z) : K nat :=
  acquire itable_lock ;;
  let! tbl := get k_itable in
  match iget_scan tbl 0 dev inum None with
  | inl ip =>
      seti ip (fun x => set_i_ref (x.(i_ref) + 1) x) ;;
      release itable_lock ;;
      ret ip
  | inr None => panic "iget: no inodes"
  | inr (Some ip) =>
      seti ip (set_i_dev dev) ;;
      seti ip (set_i_inum inum) ;;
      seti ip (set_i_ref 1) ;;
      seti ip (set_i_valid false) ;;
      release itable_lock ;;
      ret ip
  end.

Fixpoint ialloc_loop (fuel : nat) (dev type inum : Z) : K (option nat) :=
  let! sb := get k_sb in
  if inum <? sb.(sb_ninodes) then
    match fuel with
    | O => fun _ => OutOfFuel
    | S fuel' =>
        let! bp := bread dev (IBLOCK inum sb) in
        let! data := getb bp b_data in
        if (dinode_decode data (dinode_off inum)).(di_type) =? 0 then
          (* a free inode *)
          setb bp (fun x => set_b_data (splice x.(b_data) (dinode_off inum)
            (dinode_encode (mkdinode type 0 0 0 0 (replicate 13 0)))) x) ;;
          log_write bp ;;
          brelse bp ;;
          let! ip := iget dev inum in
          ret (Some ip)
        else
          brelse bp ;;
          ialloc_loop fuel' dev type (inum + 1)
    end
  else
    printf (str "ialloc: no inodes" ++ [10]) [] ;;
    ret None.

Definition ialloc (dev type : Z) : K (option nat) :=
  let! sb := get k_sb in
  ialloc_loop (Z.to_nat sb.(sb_ninodes)) dev type 1.

(** What [iupdate] writes for an in-memory inode. *)
Definition dinode_of (ip : inode) : dinode :=
  mkdinode ip.(i_type) ip.(i_major) ip.(i_minor) ip.(i_nlink) ip.(i_size) ip.(i_addrs).

Definition iupdate (ip : nat) : K unit :=
  let! x := geti ip id in
  let! sb := get k_sb in
  let! bp := bread x.(i_dev) (IBLOCK x.(i_inum) sb) in
  setb bp (fun b => set_b_data
    (splice b.(b_data) (dinode_off x.(i_inum)) (dinode_encode (dinode_of x))) b) ;;
  log_write bp ;;
  brelse bp.

Definition idup (ip : nat) : K nat :=
  acquire itable_lock ;;
  seti ip (fun x => set_i_ref (x.(i_ref) + 1) x) ;;
  release itable_lock ;;
  ret ip.

(** What [ilock] reads from disk into an in-memory inode. *)
Definition load_dinode (d : dinode) (x : inode) : inode :=
  set_i_type d.(di_type) (set_i_major d.(di_major) (set_i_minor d.(di_minor)
    (set_i_nlink d.(di_nlink) (set_i_size d.(di_size) (set_i_addrs d.(di_addrs) x))))).

Definition ilock (ip : option nat) : K unit :=
  match ip with
  | None => panic "ilock"
  | Some ip =>
      let! r := geti ip i_ref in
      if r <? 1 then panic "ilock" else
      acquiresleep (SlInode ip) ;;
      let! x := geti ip id in
      if x.(i_valid) then ret tt else
      let! sb := get k_sb in
      let! bp := bread x.(i_dev) (IBLOCK x.(i_inum) sb) in
      let! data := getb bp b_data in
      let d := dinode_decode data (dinode_off x.(i_inum)) in
      seti ip (load_dinode d) ;;
      brelse bp ;;
      seti ip (set_i_valid true) ;;
      if d.(di_type) =? 0 then panic "ilock: no type" else ret tt
  end.

Definition iunlock (ip : option nat) : K unit :=
  match ip with
  | None => panic "iunlock"
  | Some ip =>
      let! h := holdingsleep (SlInode ip) in
      if negb h then panic "iunlock" else
      let! r := geti ip i_ref in
      if r <? 1 then panic "iunlock" else
      releasesleep (SlInode ip)
  end.

(** ** Inode content *)

Definition bmap (ip : nat) (bn : Z) : K Z :=
  let! dev := geti ip i_dev in
  if bn <? NDIRECT then
    let! addr := geti ip (fun x => x.(i_addrs) !!! Z.to_nat bn) in
    if addr =? 0 then
      let! addr := balloc dev in
      if addr =? 0 then ret 0 else
      seti ip (fun x => set_i_addrs (<[Z.to_nat bn := addr]> x.(i_addrs)) x) ;;
      ret addr
    else ret addr
  else
    let bn := bn - NDIRECT in
    if bn <? NINDIRECT then
      (* Load indirect block, allocating if necessary. *)
      let! addr := geti ip (fun x => x.(i_addrs) !!! Z.to_nat NDIRECT) in
      let! addr := (if addr =? 0 then
                      let! addr := balloc dev in
                      when (negb (addr =? 0))
                        (seti ip (fun x =>
                           set_i_addrs (<[Z.to_nat NDIRECT := addr]> x.(i_addrs)) x)) ;;
                      ret addr
                    else ret addr) in
      if addr =? 0 then ret 0 else
      let! bp := bread dev addr in
      let! addr := getb bp (fun b => get32 b.(b_data) (4 * bn)) in
      let! addr := (if addr =? 0 then
                      let! addr := balloc dev in
                      when (cbool addr)
                        (setb bp (fun b => set_b_data (set32 b.(b_data) (4 * bn) addr) b) ;;
                         log_write bp) ;;
                      ret addr
                    else ret addr) in
      brelse bp ;;
      ret addr
    else panic "bmap: out of range".

Definition itrunc_direct (ip : nat) (dev : Z) (i : nat) : K unit :=
  let! a := geti ip (fun x => x.(i_addrs) !!! i) in
  when (cbool a)
    (bfree dev a ;;
     seti ip (fun x => set_i_addrs (<[i := 0]> x.(i_addrs)) x)).

Definition itrunc (ip : nat) : K unit :=
  let! dev := geti ip i_dev in
  for_each (seq 0 (Z.to_nat NDIRECT)) (itrunc_direct ip dev) ;;
  let! ind := geti ip (fun x => x.(i_addrs) !!! Z.to_nat NDIRECT) in
  when (cbool ind)
    (let! bp := bread dev ind in
     for_each (zrange 0 (Z.to_nat NINDIRECT)) (fun j =>
       let! a := getb bp (fun b => get32 b.(b_data) (4 * j)) in
       when (cbool a) (bfree dev a)) ;;
     brelse bp ;;
     bfree dev ind ;;
     seti ip (fun x => set_i_addrs (<[Z.to_nat NDIRECT := 0]> x.(i_addrs)) x)) ;;
  seti ip (set_i_size 0) ;;
  iupdate ip.

Definition iput (ip : nat) : K unit :=
  acquire itable_lock ;;
  let! x := geti ip id in
  when ((x.(i_ref) =? 1) && x.(i_valid) && (x.(i_nlink) =? 0))
    (* inode has no links and no other references: truncate and free. *)
    (acquiresleep (SlInode ip) ;;
     release itable_lock ;;
     itrunc ip ;;
     seti ip (set_i_type 0) ;;
     iupdate ip ;;
     seti ip (set_i_valid false) ;;
     releasesleep (SlInode ip) ;;
     acquire itable_lock) ;;
  seti ip (fun x => set_i_ref (x.(i_ref) - 1) x) ;;
  release itable_lock.

Definition iunlockput (ip : nat) : K unit :=
  iunlock (Some ip) ;;
  iput ip.

(** [struct stat] (stat.h) *)
Record stat : Type := mkstat {
  st_dev : Z; st_ino : Z; st_type : Z; st_nlink : Z; st_size : Z }.

Definition stati (ip : nat) : K stat :=
  geti ip (fun x => mkstat x.(i_dev) x.(i_inum) x.(i_type) x.(i_nlink) x.(i_size)).

(** The number of bytes an iteration of [readi] or [writei] moves. *)
Definition chunk (n tot off : Z) : Z := Z.min (n - tot) (BSIZE - off mod BSIZE).

Fixpoint readi_loop (fuel : nat) (ip : nat) (dst : dest) (off n tot : Z) (out : list Z) :
    K (Z * list Z) :=
  if tot <? n then
    match fuel with
    | O => fun _ => OutOfFuel
    | S fuel' =>
        let! addr := bmap ip (off / BSIZE) in
        if addr =? 0 then ret (tot, out) else
        let! dev := geti ip i_dev in
        let! bp := bread dev addr in
        let m := chunk n tot off in
        let! bs := getb bp (fun b => take (Z.to_nat m) (drop (Z.to_nat (off mod BSIZE)) b.(b_data))) in
        let! r := either_copyout dst out bs in
        if fst r =? -1 then brelse bp ;; ret (-1, out) else
        brelse bp ;;
        readi_loop fuel' ip (dest_add dst m) (off + m) n (tot + m) (snd r)
    end
  else ret (tot, out).

Definition readi (ip : nat) (dst : dest) (off n : Z) : K (Z * list Z) :=
  let! size := geti ip i_size in
  if (off >? size) || (u32 (off + n) <? off) then ret (0, []) else
  let n := if u32 (off + n) >? size then size - off else n in
  readi_loop (Z.to_nat (n / BSIZE + 2)) ip dst off n 0 [].

(** The loop of [writei]: the values of [tot] and [off] at its end. *)
Fixpoint writei_loop (fuel : nat) (ip : nat) (src : source) (off n tot : Z) : K (Z * Z) :=
  if tot <? n then
    match fuel with
    | O => fun _ => OutOfFuel
    | S fuel' =>
        let! addr := bmap ip (off / BSIZE) in
        if addr =? 0 then ret (tot, off) else
        let! dev := geti ip i_dev in
        let! bp := bread dev addr in
        let m := chunk n tot off in
        let! r := either_copyin src m in
        setb bp (fun b => set_b_data (splice b.(b_data) (off mod BSIZE) (snd r)) b) ;;
        if fst r =? -1 then brelse bp ;; ret (tot, off) else
        log_write bp ;;
        brelse bp ;;
        writei_loop fuel' ip (source_add src m) (off + m) n (tot + m)
    end
  else ret (tot, off).

Definition writei (ip : nat) (src : source) (off n : Z) : K Z :=
  let! size := geti ip i_size in
  if (off >? size) || (u32 (off + n) <? off) then ret (-1) else
  if u32 (off + n) >? MAXFILE * BSIZE then ret (-1) else
  let! r := writei_loop (Z.to_nat (n / BSIZE + 2)) ip src off n 0 in
  let! size := geti ip i_size in
  when (snd r >? size) (seti ip (set_i_size (snd r))) ;;
  (* write the i-node back to disk even if the size didn't change *)
  iupdate ip ;;
  ret (fst r).

(** ** Directories *)

Definition namecmp (s t : list Z) : Z := strncmp_list (Z.to_nat DIRSIZ) s t.

(** The inode found, with the offset of its entry. *)
Fixpoint dirlookup_loop (fuel : nat) (dp : nat) (name : list Z) (off : Z) :
    K (option (nat * Z)) :=
  let! size := geti dp i_size in
  if off <? size then
    match fuel with
    | O => fun _ => OutOfFuel
    | S fuel' =>
        let! r := readi dp (ToKernel 0) off DESIZE in
        if negb (fst r =? DESIZE) then panic "dirlookup read" else
        let de := dirent_decode (snd r) in
        if de.(de_inum) =? 0 then dirlookup_loop fuel' dp name (off + DESIZE) else
        if namecmp name de.(de_name) =? 0 then
          let! dev := geti dp i_dev in
          let! ip := iget dev de.(de_inum) in
          ret (Some (ip, off))
        else dirlookup_loop fuel' dp name (off + DESIZE)
    end
  else ret None.

Definition dirlookup (dp : nat) (name : list Z) : K (option (nat * Z)) :=
  let! x := geti dp id in
  if negb (x.(i_type) =? T_DIR) then panic "dirlookup not DIR" else
  dirlookup_loop (Z.to_nat (x.(i_size) / DESIZE + 1)) dp name 0.

(** Look for an empty dirent: its offset, or the end of the directory. *)
Fixpoint dirlink_loop (fuel : nat) (dp : nat) (off : Z) : K Z :=
  let! size := geti dp i_size in
  if off <? size then
    match fuel with
    | O => fun _ => OutOfFuel
    | S fuel' =>
        let! r := readi dp (ToKernel 0) off DESIZE in
        if negb (fst r =? DESIZE) then panic "dirlink read" else
        if (dirent_decode (snd r)).(de_inum) =? 0 then ret off
        else dirlink_loop fuel' dp (off + DESIZE)
    end
  else ret off.

Definition dirlink (dp : nat) (name : list Z) (inum : Z) : K Z :=
  (* Check that name is not present. *)
  let! found := dirlookup dp name in
  match found with
  | Some (ip, _) => iput ip ;; ret (-1)
  | None =>
      let! size := geti dp i_size in
      let! off := dirlink_loop (Z.to_nat (size / DESIZE + 1)) dp 0 in
      let de := mkdirent inum (strncpy_list name (Z.to_nat DIRSIZ)) in
      let! r := writei dp (FromKernel (dirent_encode de)) off DESIZE in
      if negb (r =? DESIZE) then ret (-1) else ret 0
  end.

(** ** Paths *)

(** [while( *path == '/') path++;] *)
Fixpoint skip_slashes (path : list Z) : list Z :=
  match path with
  | c :: path' => if c =? 47 then skip_slashes path' else path
  | [] => []
  end.

(** The bytes up to the next slash, and the path from there. *)
Fixpoint next_elem (path : list Z) : list Z * list Z :=
  match path with
  | [] => ([], [])
  | c :: path' =>
      if c =? 47 then ([], path)
      else let '(s, rest) := next_elem path' in (c :: s, rest)
  end.

(** [skipelem]: the remaining path and the element, cut to [DIRSIZ] bytes. *)
Definition skipelem (path : list Z) : option (list Z * list Z) :=
  let path := skip_slashes path in
  match path with
  | [] => None
  | _ =>
      let '(s, rest) := next_elem path in
      Some (skip_slashes rest, take (Z.to_nat DIRSIZ) s)
  end.

Fixpoint namex_loop (fuel : nat) (ip : nat) (path : list Z) (nameiparent : bool)
    (name : list Z) : K (option (nat * list Z)) :=
  match fuel with
  | O => fun _ => OutOfFuel
  | S fuel' =>
      match skipelem path with
      | None =>
          if nameiparent then iput ip ;; ret None else ret (Some (ip, name))
      | Some (path, name) =>
          ilock (Some ip) ;;
          let! type := geti ip i_type in
          if negb (type =? T_DIR) then iunlockput ip ;; ret None else
          if nameiparent && bool_decide (path = []) then
            (* Stop one level early. *)
            iunlock (Some ip) ;; ret (Some (ip, name))
          else
            let! next := dirlookup ip name in
            match next with
            | None => iunlockput ip ;; ret None
            | Some (next, _) =>
                iunlockput ip ;;
                namex_loop fuel' next path nameiparent name
            end
      end
  end.

(** [namex]: the inode, with the last path element copied to [name]. *)
Definition namex (path : list Z) (nameiparent : bool) : K (option (nat * list Z)) :=
  let! ip := (if hd 0 path =? 47 then iget ROOTDEV ROOTINO
              else
                let! p := curproc in
                let! cwd := getp p p_cwd in
                match cwd with Some ip => idup ip | None => panic "kerneltrap" end) in
  namex_loop (S (length path)) ip path nameiparent [].

Definition namei (path : list Z) : K (option nat) :=
  let! r := namex path false in
  ret (fst <$> r).

Definition nameiparent (path : list Z) : K (option (nat * list Z)) := namex path true.

End Fs.
