(* ===== verification/FsSpec.v ===== *)
(** * The file system (fs.c): reading *)

From S2P Require Import Prelude Params Mem State Spinlock CString Kalloc Vm Proc ProcSpec Sleeplock.
From S2P Require Import Sleeplock Dll Bio BioSpec Uart Printf Log Block LogSpec Fs.

(** The address of block [bn] of the file, 0 for a hole. *)
Definition addr_of (V : Z -> list Z) (x : inode) (bn : Z) : Z :=
  if bn <? NDIRECT then x.(i_addrs) !!! Z.to_nat bn
  else get32 (V (x.(i_addrs) !!! Z.to_nat NDIRECT)) (4 * (bn - NDIRECT)).

(** ** The contents of a file *)

Definition file_byte (V : Z -> list Z) (x : inode) (i : Z) : Z :=
  V (addr_of V x (i / BSIZE)) !!! Z.to_nat (i mod BSIZE).
Definition file_bytes (V : Z -> list Z) (x : inode) (off n : Z) : list Z :=
  map (file_byte V x) (zrange off (Z.to_nat n)).

Lemma zrange_app a n m : zrange a (n + m) = zrange a n ++ zrange (a + Z.of_nat n) m.
Proof.
  revert a. induction n as [|n IH]; intros a; simpl; [f_equal; lia|]. rewrite IH. do 3 f_equal. lia.
Qed.

Lemma file_bytes_app V x off n m :
  0 <= n -> 0 <= m -> file_bytes V x off (n + m) = file_bytes V x off n ++ file_bytes V x (off + n) m.
Proof.
  intros Hn Hm. unfold file_bytes. rewrite Z2Nat.inj_add, zrange_app, map_app by done.
  by rewrite Z2Nat.id.
Qed.

(** A piece of a block of the file. *)
Lemma file_bytes_block V x off m :
  0 <= off -> 0 <= m <= BSIZE - off mod BSIZE ->
  length (V (addr_of V x (off / BSIZE))) = Z.to_nat BSIZE ->
  take (Z.to_nat m) (drop (Z.to_nat (off mod BSIZE)) (V (addr_of V x (off / BSIZE)))) =
  file_bytes V x off m.
Proof.
  intros Hoff Hm Hlen. change BSIZE with 1024 in *.
  pose proof (Z.mod_pos_bound off 1024 ltac:(lia)) as Hmod.
  assert (length (V (addr_of V x (off / 1024))) = 1024%nat) as Hl by exact Hlen.
  apply list_eq. intros i. destruct (decide (i < Z.to_nat m)%nat) as [Hi|Hi].
  - rewrite lookup_take_lt, lookup_drop by done. unfold file_bytes.
    rewrite list_lookup_fmap, lookup_zrange by done. simpl. unfold file_byte. change BSIZE with 1024.
    pose proof (Z.div_mod off 1024 ltac:(lia)) as Hdm.
    assert ((off + Z.of_nat i) / 1024 = off / 1024) as ->.
    { symmetry. apply (Z.div_unique _ _ _ (off mod 1024 + Z.of_nat i)); lia. }
    assert ((off + Z.of_nat i) mod 1024 = off mod 1024 + Z.of_nat i) as ->.
    { symmetry. apply (Z.mod_unique _ _ (off / 1024)); lia. }
    rewrite Z2Nat.inj_add, Nat2Z.id by lia. apply list_lookup_lookup_total_lt. lia.
  - rewrite !lookup_ge_None_2; [done| |].
    + unfold file_bytes. rewrite length_map, length_zrange. lia.
    + rewrite length_take. lia.
Qed.

Lemma geti_eq {A} s ip x (f : inode -> A) : inode_at s ip = x -> geti ip f s = Ret (f x) s.
Proof. by intros <-. Qed.

Section FsSpec.
Context {F : WaitFuel} {Disk : BlockDev} {DO : DiskOk Disk}.
Context (Hfuel : (0 < wait_fuel)%nat).

(** A process that may read block [n]. *)
Definition may_read (R : Z -> Z) (held : list (Z * nat)) (n : Z) : Prop :=
  n ∉ held.*1 /\ R n + 1 < 2 ^ 31 /\ (0 < R n \/ roomy R).

(** Reading a block, looking at it and releasing it. *)
Lemma did_look p s V R held n :
  bc p s V R held -> ready s -> may_read R held n ->
  exists b s1, bread ROOTDEV n s = Ret b s1 /\ (buf_at s1 b).(b_data) = V n /\
    s1.(k_itable) = s.(k_itable) /\ calm p s1 /\
    exists s2, brelse b s1 = Ret tt s2 /\ did p s s2 V R held [].
Proof using All.
  intros Hbc Hrd (Hn & HR & Hroom).
  destruct (did_read Hfuel p s V R held n) as (b & s1 & Hr1 & Hd1); try done.
  destruct (held_data p s1 V _ _ n b (did_bc _ _ _ _ _ _ _ Hd1)) as (Ed & _ & _); [set_solver|].
  assert (bio_frame p s s1) as (E & _) by apply Hd1.
  exists b, s1. split; [done|]. split; [done|]. split; [by rewrite E|].
  split; [apply (did_bc _ _ _ _ _ _ _ Hd1)|].
  destruct (did_release p s1 _ _ _ held n b (did_bc _ _ _ _ _ _ _ Hd1)) as (s2 & Hr2 & Hd2);
    [by eapply did_ready|done| |].
  { rewrite zupd_eq. intros Ez. rewrite (read_clean p s V R held n) by done.
    unfold disk_at. by rewrite (did_disk _ _ _ _ _ _ _ Hd1). }
  exists s2. split; [done|].
  eapply did_ext; [| |exact (did_trans _ _ _ _ _ _ _ _ _ _ _ _ Hd1 Hd2)]; [done|].
  intros m. unfold zupd. repeat case_decide; subst; done || lia.
Qed.

(** ** Block addresses of a file *)

(** Block [bn] of the file is on the disk and may be read. *)
Definition block_ok (V : Z -> list Z) (R : Z -> Z) (held : list (Z * nat)) (x : inode) (bn : Z) : Prop :=
  0 <= bn < MAXFILE /\ addr_of V x bn <> 0 /\ may_read R held (addr_of V x bn) /\
  length (V (addr_of V x bn)) = Z.to_nat BSIZE /\
  (NDIRECT <= bn -> x.(i_addrs) !!! Z.to_nat NDIRECT <> 0 /\
     may_read R held (x.(i_addrs) !!! Z.to_nat NDIRECT)).

(** [bmap] of a block that exists finds it, and allocates nothing. *)
Lemma bmap_mapped p s V R held ip bn :
  bc p s V R held -> ready s -> (inode_at s ip).(i_dev) = ROOTDEV ->
  block_ok V R held (inode_at s ip) bn ->
  exists s', bmap ip bn s = Ret (addr_of V (inode_at s ip) bn) s' /\ did p s s' V R held [].
Proof using All.
  intros Hbc Hrd Hdev ([Hbn Hmax] & Ha & _ & _ & Hind). set (x := inode_at s ip) in *.
  unfold bmap. rewrite (bind_Ret _ _ s x.(i_dev) s) by done. unfold addr_of in *.
  destruct (Z.ltb_spec bn NDIRECT) as [Hd|Hd].
  - rewrite (bind_Ret _ _ s (x.(i_addrs) !!! Z.to_nat bn) s) by done.
    rewrite (proj2 (Z.eqb_neq _ _) Ha). exists s. split; [done|by apply did_nil].
  - assert (bn - NDIRECT <? NINDIRECT = true) as -> by (apply Z.ltb_lt; unfold MAXFILE in Hmax; lia).
    rewrite (bind_Ret _ _ s (x.(i_addrs) !!! Z.to_nat NDIRECT) s) by done.
    destruct (Hind Hd) as [Hi Hri]. set (a := x.(i_addrs) !!! Z.to_nat NDIRECT) in *.
    rewrite (proj2 (Z.eqb_neq _ _) Hi). rewrite (bind_Ret (ret a) _ s a s) by done.
    rewrite (proj2 (Z.eqb_neq _ _) Hi). rewrite Hdev.
    destruct (did_look p s V R held a Hbc Hrd Hri) as (b & s1 & Hr1 & Hdat & _ & _ & s2 & Hr2 & Hd2).
    erewrite bind_Ret by exact Hr1.
    rewrite (bind_Ret _ _ s1 (get32 (V a) (4 * (bn - NDIRECT))) s1).
    2:{ unfold getb, get. by rewrite <- Hdat. }
    rewrite (proj2 (Z.eqb_neq _ _) Ha). rewrite (bind_Ret (ret _) _ s1 _ s1 eq_refl).
    erewrite bind_Ret by exact Hr2. by exists s2.
Qed.

Lemma did_itable p s s' V R held ws : did p s s' V R held ws -> s'.(k_itable) = s.(k_itable).
Proof using Type. intros [_ (E & _) _ _]. by rewrite E. Qed.

Lemma place_end out bs : place out (Z.of_nat (length out)) bs = out ++ bs.
Proof using Type. unfold place. rewrite Nat2Z.id, firstn_all, drop_ge by apply Nat.le_add_r. by rewrite app_nil_r. Qed.

Lemma either_copyout_kernel p s out bs :
  calm p s -> either_copyout (ToKernel (Z.of_nat (length out))) out bs s = Ret (0, out ++ bs) s.
Proof using Type.
  intros Hc. unfold either_copyout. erewrite bind_Ret.
  - by rewrite place_end.
  - rewrite myproc_eq by apply Hc. by rewrite (calm_touch p).
Qed.

(** The blocks of the next [left] bytes from [off] on satisfy [P], and [fuel] is enough for them. *)
Definition span (P : Z -> Prop) (off left : Z) (fuel : nat) : Prop :=
  0 < left ->
  (forall bn, off / BSIZE <= bn < (off + left + BSIZE - 1) / BSIZE -> P bn) /\
  (off + left + BSIZE - 1) / BSIZE - off / BSIZE <= Z.of_nat fuel.

(** One round of a loop over the blocks of a file. *)
Lemma span_step P n tot off fuel (m := chunk n tot off) :
  0 <= off -> tot < n -> span P off (n - tot) fuel ->
  P (off / BSIZE) /\ 0 < m <= n - tot /\ off mod BSIZE + m <= BSIZE /\
  exists fuel', fuel = S fuel' /\ span P (off + m) (n - (tot + m)) fuel'.
Proof using Type.
  clear Hfuel. intros Hoff Hlt Hs. destruct (Hs ltac:(lia)) as [Hblk Hf]. change BSIZE with 1024 in *.
  pose proof (Z.mod_pos_bound off 1024 ltac:(lia)) as Hmod. pose proof (Z.div_mod off 1024 ltac:(lia)) as Hdm.
  assert (off / 1024 < (off + (n - tot) + 1024 - 1) / 1024) as Hin
    by (apply Z.lt_le_trans with (off / 1024 + 1); [lia|]; apply Z.div_le_lower_bound; lia).
  assert (0 < m /\ m <= n - tot /\ m <= 1024 - off mod 1024 /\ (m = n - tot \/ m = 1024 - off mod 1024)) as Hm
    by (unfold m, chunk; change BSIZE with 1024; lia).
  split; [apply Hblk; lia|]. split; [lia|]. split; [lia|].
  destruct fuel as [|fuel]; [lia|]. exists fuel. split; [done|]. intros Hpos. change BSIZE with 1024.
  replace (off + m + (n - (tot + m))) with (off + (n - tot)) by lia.
  destruct Hm as (_ & _ & _ & [Em|Em]); [lia|].
  replace (off + m) with ((off / 1024 + 1) * 1024) by lia. rewrite Z.div_mul by lia.
  split; [|lia]. intros bn Hbn. apply Hblk. lia.
Qed.

(** The loop of [readi], from [off] on. *)
Lemma readi_loop_ok p V R held ip x n fuel : forall s off tot out,
  bc p s V R held -> ready s -> inode_at s ip = x -> x.(i_dev) = ROOTDEV ->
  0 <= off -> 0 <= tot <= n -> span (block_ok V R held x) off (n - tot) fuel ->
  exists s', readi_loop fuel ip (ToKernel (Z.of_nat (length out))) off n tot out s = Ret (n, out ++ file_bytes V x off (n - tot)) s' /\
    did p s s' V R held [].
Proof using All.
  induction fuel as [|fuel IH]; intros s off tot out Hbc Hrd Hx Hdev Hoff Htot Hs; cbn [readi_loop];
    (destruct (Z.ltb_spec tot n) as [Hlt|Hge];
      [|exists s; split; [|by apply did_nil]; replace tot with n by lia;
        rewrite Z.sub_diag; by rewrite app_nil_r]);
    destruct (span_step _ n tot off _ Hoff Hlt Hs) as (Hb & Hm & Hmod & fuel' & Ef & Hs'); [done|].
  injection Ef as <-. pose proof Hb as (_ & Hb2 & Hb3 & Hb4 & _).
  destruct (bmap_mapped p s V R held ip (off / BSIZE)) as (s1 & Hr1 & Hd1); rewrite ?Hx; try done.
  rewrite Hx in Hr1. erewrite bind_Ret by exact Hr1. rewrite (proj2 (Z.eqb_neq _ _) Hb2).
  assert (inode_at s1 ip = x) as Hx1 by (unfold inode_at; by rewrite (did_itable _ _ _ _ _ _ _ Hd1)).
  rewrite (bind_Ret (geti ip i_dev) _ s1 x.(i_dev) s1) by (by apply geti_eq). rewrite Hdev.
  destruct (did_look p s1 V R held (addr_of V x (off / BSIZE))) as (b & s2 & Hr2 & Hdat & Hit & Hc2 & s3 & Hr3 & Hd3);
    [apply Hd1|by eapply did_ready|done|].
  erewrite bind_Ret by exact Hr2. set (m := chunk n tot off) in *.
  erewrite (bind_Ret _ _ s2 (file_bytes V x off m) s2).
  2:{ unfold getb, get. f_equal. etransitivity; [|by apply file_bytes_block; [|lia|]]. by rewrite <- Hdat. }
  erewrite bind_Ret by (by apply (either_copyout_kernel p)). cbn [fst snd].
  change (0 =? -1) with false. cbv iota. erewrite bind_Ret by exact Hr3.
  pose proof (did_trans _ _ _ _ _ _ _ _ _ _ _ _ Hd1 Hd3) as Hd13.
  destruct (IH s3 (off + m) (tot + m) (out ++ file_bytes V x off m)) as (s4 & Hr4 & Hd4); try done;
    [apply Hd13|by eapply did_ready| |lia|lia|].
  { unfold inode_at. by rewrite (did_itable _ _ _ _ _ _ _ Hd13). }
  exists s4. split; [|exact (did_trans _ _ _ _ _ _ _ _ _ _ _ _ Hd13 Hd4)].
  replace (dest_add (ToKernel (Z.of_nat (length out))) m) with (ToKernel (Z.of_nat (length (out ++ file_bytes V x off m)))).
  2:{ cbn [dest_add]. f_equal. unfold file_bytes. rewrite length_app, length_map, length_zrange. lia. }
  etransitivity; [exact Hr4|]. rewrite <- app_assoc, <- file_bytes_app by lia.
  by replace (m + (n - (tot + m))) with (n - tot) by lia.
Qed.

(** All blocks of the file are on the disk. *)
Record file_ok (V : Z -> list Z) (R : Z -> Z) (held : list (Z * nat)) (x : inode) : Prop := {
  fo_dev : x.(i_dev) = ROOTDEV;
  fo_size : 0 <= x.(i_size) <= MAXFILE * BSIZE;
  fo_blocks : forall bn, 0 <= bn < (x.(i_size) + BSIZE - 1) / BSIZE -> block_ok V R held x bn;
}.

(** The number of bytes that [readi] delivers. *)
Definition read_len (x : inode) (off n : Z) : Z :=
  if (off >? x.(i_size)) || (2 ^ 32 <=? off + n) then 0 else Z.min n (x.(i_size) - off).

(** [readi] is its loop over [read_len] bytes, which are all in blocks of the file. *)
Lemma readi_len s ip x dst off n (len := read_len x off n) :
  inode_at s ip = x -> 0 <= x.(i_size) <= MAXFILE * BSIZE -> 0 <= off < 2 ^ 32 -> 0 <= n < 2 ^ 32 ->
  0 <= len <= n /\
  readi ip dst off n s = readi_loop (Z.to_nat (len / BSIZE + 2)) ip dst off len 0 [] s /\
  forall P : Z -> Prop, (forall bn, 0 <= bn < (x.(i_size) + BSIZE - 1) / BSIZE -> P bn) ->
    span P off len (Z.to_nat (len / BSIZE + 2)).
Proof using Type.
  clear Hfuel. intros Hx Hsz Hoff Hn. unfold readi, len, read_len.
  rewrite (bind_Ret (geti ip i_size) _ s x.(i_size) s) by (by apply geti_eq). set (sz := x.(i_size)) in *.
  assert (sz < 2 ^ 32) as Hsz32 by (destruct Hsz as [_ Hsz]; eapply Z.le_lt_trans; [exact Hsz|done]).
  assert ((u32 (off + n) <? off) = (2 ^ 32 <=? off + n)) as ->.
  { unfold u32. destruct (Z.leb_spec (2 ^ 32) (off + n)) as [Hov|Hov].
    - apply Z.ltb_lt. replace (off + n) with (off + n - 2 ^ 32 + 1 * 2 ^ 32) by lia.
      rewrite Z.mod_add, Z.mod_small by lia. lia.
    - apply Z.ltb_ge. rewrite Z.mod_small by lia. lia. }
  destruct ((off >? sz) || (2 ^ 32 <=? off + n)) eqn:Ec; [split; [lia|split; [done|intros P _ ?; lia]]|].
  apply orb_false_iff in Ec as [E1 E2]. rewrite Z.gtb_ltb in E1. apply Z.ltb_ge in E1. apply Z.leb_gt in E2.
  assert ((if u32 (off + n) >? sz then sz - off else n) = Z.min n (sz - off)) as ->.
  { unfold u32. rewrite Z.mod_small, Z.gtb_ltb by lia. destruct (Z.ltb_spec sz (off + n)); lia. }
  set (n' := Z.min n (sz - off)). split; [lia|]. split; [done|]. intros P HP Hpos. change BSIZE with 1024 in *. split.
  - intros bn Hbn. apply HP. split; [pose proof (Z.div_pos off 1024); lia|].
    eapply Z.lt_le_trans; [apply Hbn|]. apply Z.div_le_mono; lia.
  - rewrite Z2Nat.id by (pose proof (Z.div_pos n' 1024); lia).
    pose proof (Z.div_mod off 1024 ltac:(lia)). pose proof (Z.div_mod n' 1024 ltac:(lia)).
    pose proof (Z.mod_pos_bound off 1024 ltac:(lia)). pose proof (Z.mod_pos_bound n' 1024 ltac:(lia)).
    assert ((off + n' + 1024 - 1) / 1024 < off / 1024 + n' / 1024 + 3); [|lia].
    apply Z.div_lt_upper_bound; lia.
Qed.

Lemma readi_ok p s V R held ip x off n :
  bc p s V R held -> ready s -> inode_at s ip = x -> file_ok V R held x ->
  0 <= off < 2 ^ 32 -> 0 <= n < 2 ^ 32 ->
  exists s', readi ip (ToKernel 0) off n s =
      Ret (read_len x off n, file_bytes V x off (read_len x off n)) s' /\
    did p s s' V R held [].
Proof using All.
  intros Hbc Hrd Hx [Hdev Hsz Hblk] Hoff Hn.
  destruct (readi_len s ip x (ToKernel 0) off n Hx Hsz Hoff Hn) as (Hlen & -> & Hspan).
  destruct (readi_loop_ok p V R held ip x (read_len x off n) (Z.to_nat (read_len x off n / BSIZE + 2)) s off 0 [])
    as (s' & Hr & Hd); try done; try lia; [rewrite Z.sub_0_r; by apply Hspan|].
  exists s'. split; [|done]. rewrite Z.sub_0_r in Hr. exact Hr.
Qed.

(** ** Directories *)

Definition dir_entry (V : Z -> list Z) (x : inode) (k : Z) : dirent :=
  dirent_decode (file_bytes V x (DESIZE * k) DESIZE).

(** The entry for [name]: its index and inode number. *)
Definition dir_find (V : Z -> list Z) (x : inode) (name : list Z) (ks : list Z) : option (Z * Z) :=
  let hit k := negb ((dir_entry V x k).(de_inum) =? 0) &&
               (namecmp name (dir_entry V x k).(de_name) =? 0) in
  match List.find hit ks with
  | Some k => Some (k, (dir_entry V x k).(de_inum))
  | None => None
  end.

(** What [dirlookup] does with the entry it found. *)
Definition dir_result (r : option (Z * Z)) : K (option (nat * Z)) :=
  match r with
  | None => ret None
  | Some (k, inum) =>
      let! ip := iget ROOTDEV inum in
      ret (Some (ip, DESIZE * k))
  end.

Lemma dirlookup_loop_ok p V R held dp x name m : forall s k fuel,
  bc p s V R held -> ready s -> inode_at s dp = x -> file_ok V R held x ->
  0 <= k -> x.(i_size) = DESIZE * (k + Z.of_nat m) -> (m <= fuel)%nat ->
  exists s', did p s s' V R held [] /\
    dirlookup_loop fuel dp name (DESIZE * k) s = dir_result (dir_find V x name (zrange k m)) s'.
Proof using All.
  induction m as [|m IH]; intros s k fuel Hbc Hrd Hx Hok Hk Hsz Hf.
  - exists s. split; [by apply did_nil|]. destruct fuel as [|fuel]; cbn [dirlookup_loop];
      (rewrite (bind_Ret (geti dp i_size) _ s x.(i_size) s) by (by apply geti_eq));
      (rewrite (proj2 (Z.ltb_ge _ _)); [done|change DESIZE with 16 in *; lia]).
  - destruct fuel as [|fuel]; [lia|]. cbn [dirlookup_loop].
    rewrite (bind_Ret (geti dp i_size) _ s x.(i_size) s) by (by apply geti_eq).
    rewrite (proj2 (Z.ltb_lt _ _)) by (change DESIZE with 16 in *; lia).
    destruct Hok as [Hdev Hsize Hblk].
    assert (x.(i_size) < 2 ^ 32) as Hs32 by (eapply Z.le_lt_trans; [apply Hsize|done]).
    destruct (readi_ok p s V R held dp x (DESIZE * k) DESIZE) as (s1 & Hr1 & Hd1); try done.
    { change DESIZE with 16 in *. lia. }
    assert (read_len x (DESIZE * k) DESIZE = DESIZE) as El.
    { unfold read_len. change DESIZE with 16 in *. rewrite Z.gtb_ltb.
      rewrite (proj2 (Z.ltb_ge _ _)), (proj2 (Z.leb_gt _ _)) by lia. cbn [orb]. lia. }
    rewrite El in Hr1. erewrite bind_Ret by exact Hr1. cbn [fst snd]. change (negb (DESIZE =? DESIZE)) with false.
    cbv iota zeta. unfold dir_find. cbn [zrange List.find].
    change (dirent_decode (file_bytes V x (DESIZE * k) DESIZE)) with (dir_entry V x k).
    assert (inode_at s1 dp = x) as Hx1 by (unfold inode_at; by rewrite (did_itable _ _ _ _ _ _ _ Hd1)).
    assert (exists s', did p s s' V R held [] /\
      dirlookup_loop fuel dp name (DESIZE * k + DESIZE) s1 = dir_result (dir_find V x name (zrange (k + 1) m)) s')
      as (s2 & Hd2 & Hr2).
    { destruct (IH s1 (k + 1) fuel) as (s2 & Hd2 & Hr2); [apply Hd1|by eapply did_ready|done|by constructor|lia|lia|lia|].
      exists s2. split; [exact (did_trans _ _ _ _ _ _ _ _ _ _ _ _ Hd1 Hd2)|].
      by replace (DESIZE * k + DESIZE) with (DESIZE * (k + 1)) by lia. }
    destruct (de_inum (dir_entry V x k) =? 0); [by exists s2|].
    destruct (namecmp name (de_name (dir_entry V x k)) =? 0); cbn [negb andb]; [|by exists s2].
    exists s1. split; [done|]. rewrite (bind_Ret (geti dp i_dev) _ s1 x.(i_dev) s1) by (by apply geti_eq).
    by rewrite Hdev.
Qed.

End FsSpec.
