(* ===== verification/InodeSpec.v ===== *)
(** * Inode references and directory lookup (fs.c) *)

From S2P Require Import Prelude Params Mem State Spinlock CString Kalloc Vm PageTable VmSpec UvmSpec UvmFree CopySpec.
From S2P Require Import Proc ProcSpec Sleeplock ProcLife Dll Bio BioSpec BioProps Uart Printf Log Block LogSpec LogProps LogTxn.
From S2P Require Import Fs FsSpec VmDemo.

(** ** Names *)

(** The string in a field of [n] bytes. *)
Fixpoint cname (n : nat) (p : list Z) : list Z :=
  match n, p with
  | S n', c :: p' => if c =? 0 then [] else c :: cname n' p'
  | _, _ => []
  end.

Lemma strncmp_list_eq n : forall p q, strncmp_list n p q = 0 <-> cname n p = cname n q.
Proof.
  induction n as [|n IH]; intros p q; [done|]. cbn [strncmp_list].
  destruct p as [|c p], q as [|d q]; cbn [hd tl cname]; unfold cbool.
  - done.
  - destruct (Z.eqb_spec d 0) as [->|Hd]; [done|]. simpl. split; [lia|done].
  - destruct (Z.eqb_spec c 0) as [->|Hc]; [done|]. simpl.
    destruct (Z.eqb_spec c 0); [done|]. split; [lia|done].
  - destruct (Z.eqb_spec c 0) as [->|Hc]; simpl.
    + destruct (Z.eqb_spec d 0) as [->|Hd]; [done|]. split; [lia|done].
    + destruct (Z.eqb_spec c d) as [->|Hcd].
      * rewrite (proj2 (Z.eqb_neq _ _)) by done. rewrite IH. split; [by intros ->|by intros [=]].
      * destruct (Z.eqb_spec d 0) as [->|Hd]; [split; [lia|done]|]. split; [lia|]. by intros [= ? _].
Qed.

(** ** The inode table *)

(** Entry [x] is in use for the inode. *)
Definition is_inode (dev inum : Z) (x : inode) : Prop :=
  0 < x.(i_ref) /\ x.(i_dev) = dev /\ x.(i_inum) = inum.

#[global] Instance is_inode_dec dev inum x : Decision (is_inode dev inum x).
Proof. unfold is_inode. apply _. Defined.

(** Reference counts are not negative, and an inode has one entry. *)
Record itable_ok (tbl : list inode) : Prop := {
  it_ref : Forall (fun x => 0 <= x.(i_ref)) tbl;
  it_uniq : forall i j x y dev inum, tbl !! i = Some x -> tbl !! j = Some y ->
    is_inode dev inum x -> is_inode dev inum y -> i = j;
}.

(** References to an inode, over the whole table. *)
Definition refs (tbl : list inode) (dev inum : Z) : Z :=
  foldr Z.add 0 (map (fun x => if decide (is_inode dev inum x) then x.(i_ref) else 0) tbl).

Definition scan_hit (dev inum : Z) (ip : inode) : bool :=
  (ip.(i_ref) >? 0) && (ip.(i_dev) =? dev) && (ip.(i_inum) =? inum).

Lemma scan_hit_spec dev inum x : scan_hit dev inum x = true <-> is_inode dev inum x.
Proof.
  unfold scan_hit, is_inode. rewrite !andb_true_iff, !Z.eqb_eq, Z.gtb_ltb, Z.ltb_lt. tauto.
Qed.

(** The outcome of the search in [iget]. *)
Lemma iget_scan_spec dev inum tbl : forall i empty,
  match iget_scan tbl i dev inum empty with
  | inl k => exists x, (i <= k)%nat /\ tbl !! (k - i)%nat = Some x /\ is_inode dev inum x
  | inr e =>
      (forall k x, tbl !! k = Some x -> ~ is_inode dev inum x) /\
      match empty with
      | Some _ => e = empty
      | None =>
          match e with
          | Some k => exists x, (i <= k)%nat /\ tbl !! (k - i)%nat = Some x /\ x.(i_ref) = 0
          | None => forall k x, tbl !! k = Some x -> x.(i_ref) <> 0
          end
      end
  end.
Proof.
  induction tbl as [|x tbl IH]; intros i empty; cbn [iget_scan].
  { split; [intros k y; by rewrite lookup_nil|]. destruct empty; [done|]. intros k y. by rewrite lookup_nil. }
  change ((i_ref x >? 0) && (i_dev x =? dev) && (i_inum x =? inum)) with (scan_hit dev inum x).
  destruct (scan_hit dev inum x) eqn:Eh.
  { exists x. split; [lia|]. rewrite Nat.sub_diag. split; [done|]. by apply scan_hit_spec. }
  assert (~ is_inode dev inum x) as Hx by (rewrite <- scan_hit_spec, Eh; done).
  set (empty' := match empty with Some _ => empty | None => if i_ref x =? 0 then Some i else None end).
  specialize (IH (S i) empty'). destruct (iget_scan tbl (S i) dev inum empty') as [k|e].
  - destruct IH as (y & Hk & Hy & Hin). exists y. split; [lia|]. split; [|done].
    by replace (k - i)%nat with (S (k - S i)) by lia.
  - destruct IH as [Hno He]. split.
    { intros [|k] y Hy; [by injection Hy as <-|]. by eapply Hno. }
    unfold empty' in He. destruct empty as [m|]; [done|].
    destruct (Z.eqb_spec (i_ref x) 0) as [E0|E0].
    + subst e. exists x. rewrite Nat.sub_diag. split; [lia|done].
    + destruct e as [k|].
      * destruct He as (y & Hk & Hy & H0). exists y. split; [lia|].
        by replace (k - i)%nat with (S (k - S i)) by lia.
      * intros [|k] y Hy; [by injection Hy as <-|]. by eapply He.
Qed.

Lemma refs_split tbl k x dev inum :
  tbl !! k = Some x ->
  refs tbl dev inum = (if decide (is_inode dev inum x) then x.(i_ref) else 0) +
    refs (take k tbl ++ drop (S k) tbl) dev inum.
Proof.
  revert k. induction tbl as [|y tbl IH]; intros k Hk; [done|]. destruct k as [|k]; simpl in *.
  - injection Hk as ->. rewrite drop_0. done.
  - unfold refs in *. simpl. rewrite (IH k Hk). lia.
Qed.

(** A change of one entry. *)
Lemma refs_alter f tbl k x dev inum :
  tbl !! k = Some x ->
  refs (alter f k tbl) dev inum = refs tbl dev inum
    - (if decide (is_inode dev inum x) then x.(i_ref) else 0)
    + (if decide (is_inode dev inum (f x)) then (f x).(i_ref) else 0).
Proof.
  intros Hk. rewrite (refs_split tbl k x) by done.
  rewrite (refs_split (alter f k tbl) k (f x)) by (by rewrite list_lookup_alter_eq, Hk).
  rewrite take_alter_ge, drop_alter_lt by lia. lia.
Qed.

Definition ref_delta (dev inum d n : Z) : Z := if decide (d = dev /\ n = inum) then 1 else 0.

(** Changing one entry to be for inode [dev], [inum], whose only entry it is. *)
Lemma itable_ok_alter f tbl k x dev inum :
  itable_ok tbl -> tbl !! k = Some x -> is_inode dev inum (f x) ->
  (forall j y, tbl !! j = Some y -> is_inode dev inum y -> j = k) ->
  itable_ok (alter f k tbl).
Proof.
  intros [Hr Hu] Hk Hf Hone. constructor.
  - apply Forall_lookup_2. intros i y Hy. destruct (decide (i = k)) as [->|Hi].
    + rewrite list_lookup_alter_eq, Hk in Hy. injection Hy as <-. destruct Hf. lia.
    + rewrite list_lookup_alter_ne in Hy by done. by eapply Forall_lookup_1 in Hr; [|exact Hy].
  - intros i j y z d n Hy Hz Hyd Hzd.
    assert (forall i' y', alter f k tbl !! i' = Some y' -> is_inode d n y' -> i' <> k -> tbl !! i' = Some y') as Hne.
    { intros i' y' H _ Hik. by rewrite list_lookup_alter_ne in H. }
    assert (forall y', alter f k tbl !! k = Some y' -> is_inode d n y' -> d = dev /\ n = inum) as Heq.
    { intros y' H Hd. rewrite list_lookup_alter_eq, Hk in H. injection H as <-.
      destruct Hd as (_ & <- & <-), Hf as (_ & <- & <-). done. }
    destruct (decide (i = k)) as [->|Hi], (decide (j = k)) as [->|Hj]; [done| | |].
    + destruct (Heq y Hy Hyd) as [-> ->]. symmetry. eapply Hone; [by eapply Hne|done].
    + destruct (Heq z Hz Hzd) as [-> ->]. eapply Hone; [by eapply Hne|done].
    + eapply Hu; [by eapply Hne|by eapply Hne|done|done].
Qed.

Section Iget.
Context {F : WaitFuel}.

(** A critical section of the inode table that updates an entry. *)
Lemma seti_section {A} p s ip (f : inode -> inode) (m : K unit) (r : A) :
  calm p s -> s.(k_locks) !! itable_lock = None ->
  m (acquired itable_lock s) = Ret tt (upd_inode ip f (acquired itable_lock s)) ->
  (m ;; release itable_lock ;; ret r) (acquired itable_lock s) = Ret r (upd_inode ip f s).
Proof.
  intros Hc Hlk Hm. erewrite bind_Ret by exact Hm.
  assert (calm p (upd_inode ip f s)) as Hc' by (by apply (calm_ext p s)).
  erewrite bind_Ret; [done|]. by apply (release_inner p (upd_inode ip f s)).
Qed.

Lemma inode_at_upd_eq s ip f x : s.(k_itable) !! ip = Some x -> inode_at (upd_inode ip f s) ip = f x.
Proof.
  intros H. unfold inode_at. ksimpl. apply list_lookup_total_correct. by rewrite list_lookup_alter_eq, H.
Qed.

Lemma inode_at_upd_ne s ip f j : j <> ip -> inode_at (upd_inode ip f s) j = inode_at s j.
Proof.
  intros H. unfold inode_at. ksimpl. rewrite !list_lookup_total_alt. by rewrite list_lookup_alter_ne.
Qed.

(** [C31] [iget] returns an entry of the inode table for the inode, the one it is cached in if
    there is one, and otherwise an entry that was unused, marked as not yet read. It adds
    one reference to that inode and none to any other, keeps one entry per inode, and
    changes no other entry; with neither it panics. *)
Theorem iget_correct p s dev inum :
  calm p s -> s.(k_locks) !! itable_lock = None -> itable_ok s.(k_itable) ->
  (forall k x, s.(k_itable) !! k = Some x -> ~ is_inode dev inum x /\ x.(i_ref) <> 0) /\
    iget dev inum s = Panic "iget: no inodes" \/
  exists ip s', iget dev inum s = Ret ip s' /\ s' = set_itable s'.(k_itable) s /\
    itable_ok s'.(k_itable) /\ is_inode dev inum (inode_at s' ip) /\
    (forall d n, refs s'.(k_itable) d n = refs s.(k_itable) d n + ref_delta dev inum d n) /\
    (forall j, j <> ip -> inode_at s' j = inode_at s j) /\
    ((is_inode dev inum (inode_at s ip) /\
        inode_at s' ip = set_i_ref ((inode_at s ip).(i_ref) + 1) (inode_at s ip)) \/
     ((inode_at s ip).(i_ref) = 0 /\ (inode_at s' ip).(i_valid) = false /\ (inode_at s' ip).(i_ref) = 1 /\
        forall k x, s.(k_itable) !! k = Some x -> ~ is_inode dev inum x)).
Proof.
  intros Hc Hlk Hok. unfold iget. erewrite bind_Ret by (by apply acquire_free).
  set (tbl := s.(k_itable)) in *. rewrite (bind_Ret (get k_itable) _ (acquired itable_lock s) tbl (acquired itable_lock s) eq_refl).
  pose proof (iget_scan_spec dev inum tbl 0 None) as Hscan.
  assert (forall k x f, tbl !! k = Some x -> is_inode dev inum (f x) ->
    (if decide (is_inode dev inum x) then (f x).(i_ref) = x.(i_ref) + 1 else (f x).(i_ref) = 1 /\ x.(i_ref) = 0) ->
    forall d n, refs (alter f k tbl) d n = refs tbl d n + ref_delta dev inum d n) as Hrefs.
  { intros k x f Hk Hf Hr d n. rewrite (refs_alter f tbl k x) by done. unfold ref_delta.
    destruct (decide (d = dev /\ n = inum)) as [[-> ->]|Hdn].
    - rewrite (decide_True (P := is_inode dev inum (f x))) by done.
      destruct (decide (is_inode dev inum x)); lia.
    - rewrite !decide_False; [lia| |].
      + intros (_ & E1 & E2). destruct Hf as (_ & E3 & E4). apply Hdn. split; congruence.
      + intros (H0 & E1 & E2). destruct (decide (is_inode dev inum x)) as [(_ & E3 & E4)|]; [|lia].
        apply Hdn. split; congruence. }
  destruct (iget_scan tbl 0 dev inum None) as [ip|[ip|]].
  - destruct Hscan as (x & _ & Hx & Hin). rewrite Nat.sub_0_r in Hx. right.
    set (f := fun x => set_i_ref (x.(i_ref) + 1) x). exists ip, (upd_inode ip f s).
    assert (inode_at s ip = x) as Ex by (by apply list_lookup_total_correct).
    assert (is_inode dev inum (f x)) as Hf by (destruct Hin as (? & ? & ?); split_and!; try done; simpl; lia).
    rewrite (inode_at_upd_eq s ip f x) by done. rewrite Ex. split_and!; try done.
    + by apply (seti_section p s ip f).
    + ksimpl. apply (itable_ok_alter f tbl ip x dev inum); try done. intros j y Hy Hyd. by eapply Hok.
    + apply (Hrefs ip x f); [done|done|]. by rewrite decide_True.
    + intros j Hj. by apply inode_at_upd_ne.
    + by left.
  - destruct Hscan as (Hno & x & _ & Hx & H0). rewrite Nat.sub_0_r in Hx. right.
    set (f := fun x => set_i_valid false (set_i_ref 1 (set_i_inum inum (set_i_dev dev x)))).
    exists ip, (upd_inode ip f s).
    assert (inode_at s ip = x) as Ex by (by apply list_lookup_total_correct).
    assert (is_inode dev inum (f x)) as Hf by (by split_and!).
    rewrite (inode_at_upd_eq s ip f x) by done. rewrite Ex. split_and!; try done.
    + unfold seti. do 3 (erewrite bind_Ret by done).
      replace (Ret ip (upd_inode ip f s)) with
        ((modify (upd_inode ip f) ;; release itable_lock ;; ret ip) (acquired itable_lock s))
        by (by apply (seti_section p s ip f)).
      erewrite bind_Ret by done. erewrite (bind_Ret (modify (upd_inode ip f))) by done. f_equal. kext.
      ksimpl. by rewrite !alter_alter.
    + ksimpl. apply (itable_ok_alter f tbl ip x dev inum); try done. intros j y Hy Hyd. by destruct (Hno j y).
    + apply (Hrefs ip x f); [done|done|]. rewrite decide_False by (by eapply Hno). done.
    + intros j Hj. by apply inode_at_upd_ne.
    + right. split_and!; try done.
  - left. destruct Hscan as [Hno H0]. split; [|done]. intros k x Hx. split; [by eapply Hno|by eapply H0].
Qed.

End Iget.

(** ** Reading into user memory *)

(** [s'] is [s] but for the cache, the disk, the driver, processes woken up, and memory in [C]. *)
Definition fs_frame (p : nat) (C : Z -> Prop) (s s' : kstate) : Prop :=
  s' = set_bufs s'.(k_bufs) (set_bhead s'.(k_bhead) (set_disk s'.(k_disk)
         (set_diskwrites s'.(k_diskwrites) (set_procs s'.(k_procs) (set_mem s'.(k_mem)
           (set_vdisk s'.(k_vdisk) (set_mmio_in s'.(k_mmio_in)
             (set_mmio_out s'.(k_mmio_out) s)))))))) /\
  woken p s.(k_procs) s'.(k_procs) /\ changed_in C s.(k_mem) s'.(k_mem) /\
  same_queue s s'.

Lemma fs_frame_refl p C s : fs_frame p C s s.
Proof. split_and!; [reflexivity|reflexivity|by intros x|done]. Qed.

Lemma fs_frame_trans p C C1 C2 s1 s2 s3 :
  fs_frame p C1 s1 s2 -> fs_frame p C2 s2 s3 -> (forall x, C1 x \/ C2 x -> C x) -> fs_frame p C s1 s3.
Proof.
  intros (E1 & W1 & M1 & Q1) (E2 & W2 & M2 & Q2) HC. split_and!.
  - transitivity (set_bufs s3.(k_bufs) (set_bhead s3.(k_bhead) (set_disk s3.(k_disk)
         (set_diskwrites s3.(k_diskwrites) (set_procs s3.(k_procs) (set_mem s3.(k_mem)
           (set_vdisk s3.(k_vdisk) (set_mmio_in s3.(k_mmio_in)
             (set_mmio_out s3.(k_mmio_out) s2))))))))); [done|]. by rewrite E1.
  - by etransitivity.
  - eapply changed_in_trans; eapply changed_in_mono; [|exact M1| |exact M2]; auto.
  - destruct Q1 as (? & ? & ?), Q2 as (? & ? & ?). split_and!; congruence.
Qed.

Lemma bio_fs_frame p s s' : bio_frame p s s' -> fs_frame p (disk_mem s) s s'.
Proof. done. Qed.

Section UserRead.
Context {I : KernelImage} {L : KernelLayout I} {F : WaitFuel} {Disk : BlockDev} {DO : DiskOk Disk} {DL : DiskLocal Disk}.

(** The user memory of process [p]; the pages of the driver are not in it, and not free. *)
Record udest (p : nat) (s : kstate) (root sz : Z) (l : list Z) : Prop := {
  ud_space : uspace s root sz l;
  ud_root : (proc_at s p).(p_pagetable) = root;
  ud_apart : forall q x, owned s.(k_mem) root (below sz) q \/ q ∈ l -> in_page q x -> ~ disk_mem s x;
}.

Lemma udest_user p s root sz l va :
  udest p s root sz l -> 0 <= va -> readable s.(k_mem) root va -> ~ disk_mem s (uaddr s.(k_mem) root va).
Proof.
  intros [Hs _ Hap] H0 Hr. destruct (readable_page s root sz l Hs va H0 Hr) as (Hp & Hb & _).
  apply (Hap (upa s.(k_mem) root (PGROUNDDOWN va))); [left; right; by exists (PGROUNDDOWN va)|apply uaddr_in_page].
Qed.

(** The driver does not touch it. *)
Lemma udest_frame p s s' root sz l :
  udest p s root sz l -> fs_frame p (disk_mem s) s s' ->
  udest p s' root sz l /\ forall va, pte s'.(k_mem) root va = pte s.(k_mem) root va.
Proof.
  intros [[Hu Hsz Hhi] Hrt Hap] (E & W & M & Q).
  assert (forall q x, is_table s.(k_mem) root q -> in_page q x -> ~ disk_mem s x) as Hdt
    by (intros q x Hq; apply Hap; left; by left).
  assert (kmem_rep s l) as Hk by apply (vr_kmem _ root), (uv_rep _ _ (below sz)), Hu.
  assert (kmem_rep s' l) as Hk'.
  { apply (kmem_rep_changed s s' l _ Hk M); [|by rewrite E..]. intros q x Hq. apply Hap. by right. }
  pose proof (pte_changed s s' root (below sz) l l _ Hu M Hdt) as Hpte. split; [|exact Hpte].
  constructor.
  - constructor; [|done|by intros va; rewrite Hpte; apply Hhi].
    eapply (uvm_changed s s' root (below sz) l l _ Hu M Hdt); [done|].
    intros q Hq Ho. eapply owned_not_free; [exact Hu|exact Ho|exact Hq].
  - unfold proc_at. rewrite (wk_me _ _ _ W). exact Hrt.
  - intros q x Hq Hx. rewrite (same_queue_mem s s' x Q). apply (Hap q); [|done].
    destruct Hq as [Hq|Hq]; [left|by right]. by apply (owned_changed s s' root (below sz) l l _ Hu M Hdt).
Qed.

(** A call of [readi] in state [s0] that reads [n] bytes of file [x] from offset [off0] on to the user
    address [va0]. *)
Section Run.
Context (p ip : nat) (x : inode) (V : Z -> list Z) (root sz : Z) (l : list Z) (s0 : kstate) (va0 off0 n : Z).
Context (Hva : 0 <= va0) (Hhi : va0 + n <= 2 ^ 64 - PGSIZE) (Hoff : 0 <= off0) (Hx : inode_at s0 ip = x).

(** The memory that the call may change. *)
Definition target (y : Z) : Prop :=
  disk_mem s0 y \/
  exists i, 0 <= i < n /\ writable s0.(k_mem) root (va0 + i) /\ y = uaddr s0.(k_mem) root (va0 + i).

(** The state when [tot] bytes have been delivered. *)
Record reading (R : Z -> Z) (held : list (Z * nat)) (s : kstate) (tot : Z) : Prop := {
  rg_bc : bc p s V R held;
  rg_frame : fs_frame p target s0 s;
  rg_disk : s.(k_disk) = s0.(k_disk) /\ s.(k_diskwrites) = s0.(k_diskwrites);
  rg_dest : udest p s root sz l;
  rg_pte : forall va, pte s.(k_mem) root va = pte s0.(k_mem) root va;
  rg_bytes : forall i, 0 <= i < tot -> writable s0.(k_mem) root (va0 + i) /\
    load8 s.(k_mem) (uaddr s0.(k_mem) root (va0 + i)) = file_byte V x (off0 + i);
}.

Lemma reading_disk_mem R held s tot y : reading R held s tot -> disk_mem s y <-> disk_mem s0 y.
Proof using Type. intros [_ (_ & _ & _ & Q) _ _ _ _]. by apply same_queue_mem. Qed.

(** Blocks are read and released. *)
Lemma reading_did R held s tot R' held' s' :
  reading R held s tot -> did p s s' V R' held' [] -> reading R' held' s' tot.
Proof using L Hva Hhi Hoff Hx.
  intros Hr Hd. pose proof (fun y => reading_disk_mem R held s tot y Hr) as Hdm. pose proof Hr as [Hbc Hf [D1 D2] Hu Hp Hb].
  destruct Hd as [Hbc' Hf' D1' D2']. destruct (udest_frame p s s' root sz l Hu (bio_fs_frame _ _ _ Hf')) as [Hu' Hp'].
  constructor.
  - done.
  - eapply fs_frame_trans; [exact Hf|exact (bio_fs_frame _ _ _ Hf')|]. intros y [Hy|Hy]; [done|].
    left. by apply Hdm.
  - by rewrite D1', D2', <- D1, <- D2.
  - done.
  - intros va. by rewrite Hp', Hp.
  - intros i Hi. destruct (Hb i Hi) as [Hw <-]. split; [done|]. apply Hf'.
    rewrite <- (uaddr_pte _ _ _ _ Hp). apply (udest_user p s root sz l); [done|lia|].
    apply (writable_pte _ _ _ _ Hp) in Hw. apply Hw.
Qed.

(** Bytes [bs] of the file are copied out. *)
Lemma reading_copy R held s tot bs m :
  reading R held s tot -> uspace (set_mem m s) root sz l -> (forall va, pte m root va = pte s.(k_mem) root va) ->
  0 <= tot -> tot + Z.of_nat (length bs) <= n -> copied_to s.(k_mem) root (va0 + tot) bs m ->
  reading R held (set_mem m s) tot /\
  (bs = file_bytes V x (off0 + tot) (Z.of_nat (length bs)) ->
   (forall i b, bs !! i = Some b -> writable s.(k_mem) root (va0 + tot + Z.of_nat i) /\
      load8 m (uaddr s.(k_mem) root (va0 + tot + Z.of_nat i)) = b) ->
   reading R held (set_mem m s) (tot + Z.of_nat (length bs))).
Proof using L DL Hva Hhi Hoff Hx.
  intros Hr Hus Hpm Ht Htn Hcp. pose proof (fun y => reading_disk_mem R held s tot y Hr) as Hdm. pose proof Hr as [Hbc Hf HD Hu Hp Hb].
  assert (forall va, uaddr s.(k_mem) root va = uaddr s0.(k_mem) root va) as Hua by (intros va; by apply uaddr_pte).
  assert (forall va, writable s.(k_mem) root va <-> writable s0.(k_mem) root va) as Hwr by (intros va; by apply writable_pte).
  assert (forall y, disk_mem s y -> load8 m y = load8 s.(k_mem) y) as Hkeep.
  { intros y Hy. apply Hcp. intros (i & Hi & [Hw _] & ->). apply (udest_user p s root sz l) in Hw; [done|done|lia]. }
  assert (udest p (set_mem m s) root sz l) as Hu'.
  { destruct Hu as [Hs Hrt Hap]. constructor; [done|done|]. intros q y Hq Hy. apply (Hap q); [|done].
    destruct Hq as [Hq|Hq]; [left|by right].
    apply (owned_changed s (set_mem m s) root (below sz) l l _ (us_uvm _ _ _ _ Hs) Hcp); [|exact Hq].
    intros q' z Hq' Hz (i & Hi & [Hw _] & ->).
    destruct (readable_page s root sz l Hs (va0 + tot + Z.of_nat i) ltac:(lia) Hw) as (Hpg & Hbl & Hok).
    destruct (uv_page _ _ _ _ (us_uvm _ _ _ _ Hs) _ Hpg Hbl) as (_ & _ & Hnt).
    assert (page_ok q') as Hok' by (eapply owned_page; [apply (us_uvm _ _ _ _ Hs)|by left]).
    pose proof (uaddr_in_page s root (va0 + tot + Z.of_nat i)) as Hin.
    apply (pages_disjoint q' _ _ (proj1 Hok') (proj1 Hok)) in Hz; [by apply Hz|by intros ->]. }
  assert (reading R held (set_mem m s) tot) as Hr'.
  { constructor.
    - apply (bc_local p s); try done. apply (calm_ext p s); try done. apply Hbc.
    - apply (fs_frame_trans p target target target s0 s); [exact Hf| |by intros y [?|?]].
      split_and!; [reflexivity|reflexivity| |done]. eapply changed_in_mono, Hcp. intros y (i & Hi & Hw & ->). right.
      exists (tot + Z.of_nat i). rewrite Z.add_assoc. split; [lia|]. by rewrite <- Hwr, Hua.
    - done.
    - done.
    - intros va. change (k_mem (set_mem m s)) with m. by rewrite Hpm, Hp.
    - intros i Hi. destruct (Hb i Hi) as [Hw <-]. split; [done|]. apply Hcp. intros (j & Hj & Hwj & E).
      rewrite Hua in E. apply Hwr in Hwj. rewrite <- !Hua in E. apply Hwr in Hw, Hwj.
      apply (uaddr_inj s root sz l (ud_space _ _ _ _ _ Hu)) in E; [lia|lia|lia|apply Hw|apply Hwj]. }
  split; [done|]. intros Hbs Hv. destruct Hr' as [G1 G2 G3 G4 G5 G6]. constructor; try done.
  intros i Hi. destruct (Z.lt_ge_cases i tot) as [Hlt|Hge]; [apply G6; lia|].
  destruct (lookup_lt_is_Some_2 bs (Z.to_nat (i - tot)) ltac:(lia)) as [b Hib].
  destruct (Hv _ _ Hib) as [Hw Hl]. replace (va0 + tot + Z.of_nat (Z.to_nat (i - tot))) with (va0 + i) in * by lia.
  split; [by apply Hwr|]. rewrite <- Hua. change (k_mem (set_mem m s)) with m. rewrite Hl.
  rewrite Hbs in Hib. unfold file_bytes in Hib. rewrite list_lookup_fmap, lookup_zrange in Hib by lia.
  injection Hib as <-. f_equal. lia.
Qed.

Lemma reading_ready R held s tot : reading R held s tot -> ready s0 -> ready s.
Proof using Type. intros [_ (E & _) _ _ _ _] [H1 H2]. split; by rewrite E. Qed.

Lemma reading_inode R held s tot : reading R held s tot -> inode_at s ip = x.
Proof using Hx. intros [_ (E & _) _ _ _ _]. unfold inode_at. rewrite E. exact Hx. Qed.

(** [either_copyout] to user memory. *)
Lemma either_copyout_user s va bs obj :
  calm p s -> udest p s root sz l -> 0 <= va -> va + Z.of_nat (length bs) <= 2 ^ 64 - PGSIZE ->
  Forall (fun b => 0 <= b < 256) bs ->
  exists r m, either_copyout (ToUser va) obj bs s = Ret (r, obj) (set_mem m s) /\
    uspace (set_mem m s) root sz l /\ (forall va, pte m root va = pte s.(k_mem) root va) /\
    copied_to s.(k_mem) root va bs m /\
    ((r = 0 /\ forall i b, bs !! i = Some b -> writable s.(k_mem) root (va + Z.of_nat i) /\
        load8 m (uaddr s.(k_mem) root (va + Z.of_nat i)) = b) \/
     (r = -1 /\ exists i, (i < length bs)%nat /\ ~ writable s.(k_mem) root (va + Z.of_nat i))).
Proof using L.
  intros Hc [Hs Hrt _] H0 Hb Hbs.
  destruct (copyout_loop_ok (length bs) root sz va bs s l Hs H0 Hb (le_n _) Hbs) as (r & m & Hr & H1 & H2 & H3 & H4).
  exists r, m. split; [|by split_and!]. unfold either_copyout.
  erewrite bind_Ret by (by rewrite myproc_eq by apply Hc). rewrite (calm_touch p), (calm_cur _ _ Hc) by done.
  erewrite (bind_Ret (getp p p_pagetable) _ s root s) by (unfold getp, get; by rewrite <- Hrt).
  by erewrite bind_Ret by exact Hr.
Qed.

Context (Hfuel : (0 < wait_fuel)%nat) (R : Z -> Z) (held : list (Z * nat)).
Context (Hrd : ready s0) (Hdev : x.(i_dev) = ROOTDEV).

(** A part of block [nb] is delivered, the next [m] bytes of the file. *)
Lemma reading_block s tot nb m off (kf : K (Z * list Z)) (kt : list Z -> K (Z * list Z)) :
  reading R held s tot -> may_read R held nb -> Forall (fun b => 0 <= b < 256) (V nb) ->
  0 <= tot -> 0 <= m -> tot + m <= n ->
  take (Z.to_nat m) (drop off (V nb)) = file_bytes V x (off0 + tot) m ->
  exists s',
    let run := (let! bp := bread ROOTDEV nb in
      let! bs := getb bp (fun b => take (Z.to_nat m) (drop off b.(b_data))) in
      let! r := either_copyout (ToUser (va0 + tot)) [] bs in
      if fst r =? -1 then brelse bp ;; kf else brelse bp ;; kt (snd r)) s in
    run = kt [] s' /\ reading R held s' (tot + m) \/
    run = kf s' /\ reading R held s' tot /\ exists i, 0 <= i < n /\ ~ writable s0.(k_mem) root (va0 + i).
Proof using All.
  intros Hr (Hn & HR & Hroom) Hbyte Ht Hm Htn Htake. cbv zeta. set (bs := file_bytes V x (off0 + tot) m) in *.
  assert (Z.of_nat (length bs) = m) as Hlen by (unfold bs, file_bytes; rewrite length_map, length_zrange; lia).
  assert (Forall (fun b => 0 <= b < 256) bs) as Hbs by (rewrite <- Htake; by apply Forall_take, Forall_drop). pose proof (reading_ready _ _ _ _ Hr Hrd) as Hrs.
  destruct (did_read Hfuel p s V R held nb) as (b & s1 & Hr1 & Hd1); try done; [apply Hr|].
  pose proof (reading_did _ _ _ _ _ _ _ Hr Hd1) as Hg1. pose proof (rg_bc _ _ _ _ Hg1) as Hbc1.
  destruct (held_data p s1 V _ _ nb b Hbc1) as (Ed & _ & _); [set_solver|].
  erewrite bind_Ret by exact Hr1.
  erewrite (bind_Ret (getb b _) _ s1 bs s1) by (unfold getb, get; f_equal; by rewrite Ed).
  destruct (either_copyout_user s1 (va0 + tot) bs []) as (r & mm & Hr2 & Hus & Hpm & Hcp & Hres);
    [apply Hbc1|apply Hg1|lia|lia|done|]. erewrite bind_Ret by exact Hr2.
  destruct (reading_copy _ _ _ _ bs mm Hg1 Hus Hpm Ht ltac:(lia) Hcp) as [Hfail Hok]. rewrite Hlen in Hok.
  assert (forall tot', reading (zupd R nb (R nb + 1)) ((nb, b) :: held) (set_mem mm s1) tot' ->
    exists s', brelse b (set_mem mm s1) = Ret tt s' /\ reading R held s' tot') as Hrel.
  { intros tot' Hg. destruct (did_release p (set_mem mm s1) V (zupd R nb (R nb + 1)) ((nb, b) :: held) held nb b)
      as (s' & Hr3 & Hd3); [apply Hg|by eapply reading_ready|done| |].
    - rewrite zupd_eq. intros Ez. rewrite (read_clean p s V R held nb) by (done || apply Hr).
      unfold disk_at. exact (f_equal (fun d : gmap Z (list Z) => d !!! nb) (eq_sym (did_disk _ _ _ _ _ _ _ Hd1))).
    - clearbody bs. exists s'. split; [done|]. eapply reading_did; [exact Hg|]. eapply did_ext; [| |exact Hd3]; [done|].
      intros y. unfold zupd. repeat case_decide; simplify_eq; done || lia. }
  destruct Hres as [[-> Hv]|[-> (i & Hi & Hnw)]]; cbn [fst].
  - change (0 =? -1) with false. cbv iota. destruct (Hrel _ (Hok eq_refl Hv)) as (s' & Hr3 & Hg'). exists s'.
    left. split; [by erewrite bind_Ret by exact Hr3|done].
  - change (-1 =? -1) with true. cbv iota. destruct (Hrel _ Hfail) as (s' & Hr3 & Hg'). exists s'.
    right. split; [by erewrite bind_Ret by exact Hr3|]. split; [done|]. exists (tot + Z.of_nat i). split; [lia|].
    rewrite Z.add_assoc. by rewrite <- (writable_pte _ _ _ _ (rg_pte _ _ _ _ Hg1)).
Qed.

(** A block of the file that may be read, and holds bytes. *)
Definition byte_block (bn : Z) : Prop :=
  block_ok V R held x bn /\ Forall (fun b => 0 <= b < 256) (V (addr_of V x bn)).

(** The loop of [readi], from byte [tot] on: everything is delivered, or a byte has no place. *)
Lemma readi_loop_user fuel : forall s tot,
  reading R held s tot -> 0 <= tot <= n -> span byte_block (off0 + tot) (n - tot) fuel ->
  exists r s' tot', readi_loop fuel ip (ToUser (va0 + tot)) (off0 + tot) n tot [] s = Ret (r, []) s' /\
    reading R held s' tot' /\
    ((r = n /\ tot' = n) \/ (r = -1 /\ exists i, 0 <= i < n /\ ~ writable s0.(k_mem) root (va0 + i))).
Proof using All.
  induction fuel as [|fuel IH]; intros s tot Hr Htot Hs; cbn [readi_loop];
    (destruct (Z.ltb_spec tot n) as [Hlt|Hge];
      [|exists tot, s, tot; split; [done|]; split; [done|]; left; lia]);
    destruct (span_step _ n tot (off0 + tot) _ ltac:(lia) Hlt Hs) as ([Hb Hby] & Hm & Hmod & fuel' & Ef & Hs'); [done|].
  injection Ef as <-. pose proof Hb as (_ & Hb2 & Hb3 & Hb4 & _). pose proof (reading_inode _ _ _ _ Hr) as Hxs.
  destruct (bmap_mapped Hfuel p s V R held ip ((off0 + tot) / BSIZE)) as (s1 & Hr1 & Hd1); rewrite ?Hxs;
    [apply Hr|by eapply reading_ready|done|done|].
  rewrite Hxs in Hr1. erewrite bind_Ret by exact Hr1. rewrite (proj2 (Z.eqb_neq _ _) Hb2).
  pose proof (reading_did _ _ _ _ _ _ _ Hr Hd1) as Hg1.
  rewrite (bind_Ret (geti ip i_dev) _ s1 x.(i_dev) s1) by (apply geti_eq; by eapply reading_inode). rewrite Hdev.
  set (m := chunk n tot (off0 + tot)) in *.
  destruct (reading_block s1 tot (addr_of V x ((off0 + tot) / BSIZE)) m (Z.to_nat ((off0 + tot) mod BSIZE)) (ret (-1, []))
    (readi_loop fuel ip (dest_add (ToUser (va0 + tot)) m) (off0 + tot + m) n (tot + m))) as (s2 & [(-> & Hg)|(-> & Hg & Hi)]);
    try done; try lia.
  - apply file_bytes_block; [lia|lia|done].
  - replace (dest_add (ToUser (va0 + tot)) m) with (ToUser (va0 + (tot + m)))
      by (cbn [dest_add]; f_equal; unfold u64; rewrite Z.mod_small by (pose proof Hhi as H; change PGSIZE with 4096 in H; lia); lia).
    rewrite <- Z.add_assoc. apply IH; [done|lia|by rewrite Z.add_assoc].
  - exists (-1), s2, tot. split; [done|]. split; [done|]. by right.
Qed.

End Run.

Context (Hfuel : (0 < wait_fuel)%nat).

Lemma readi_user p s V R held ip x off n va root sz l (len := read_len x off n) :
  bc p s V R held -> ready s -> inode_at s ip = x -> file_ok V R held x ->
  (forall bn, 0 <= bn < (x.(i_size) + BSIZE - 1) / BSIZE -> Forall (fun b => 0 <= b < 256) (V (addr_of V x bn))) ->
  0 <= off < 2 ^ 32 -> 0 <= n < 2 ^ 32 ->
  udest p s root sz l -> 0 <= va -> va + n <= 2 ^ 64 - PGSIZE ->
  exists r s' tot, readi ip (ToUser va) off n s = Ret (r, []) s' /\
    reading p x V root sz l s va off len R held s' tot /\
    ((r = len /\ tot = len) \/ (r = -1 /\ exists i, 0 <= i < len /\ ~ writable s.(k_mem) root (va + i))).
Proof using All.
  intros Hbc Hrd Hx [Hdev Hsz Hblk] Hby Hoff Hn Hu Hva Hhi.
  destruct (readi_len s ip x (ToUser va) off n Hx Hsz Hoff Hn) as (Hlen & -> & Hspan). fold len in Hlen, Hspan |- *.
  destruct (readi_loop_user p ip x V root sz l s va off len Hva ltac:(lia) ltac:(lia) Hx Hfuel R held Hrd Hdev
    (Z.to_nat (len / BSIZE + 2)) s 0) as (r & s' & tot & Hr & Hg & Hres).
  - constructor; [done|apply fs_frame_refl|done|done|done|intros i Hi; lia].
  - lia.
  - rewrite Z.add_0_r, Z.sub_0_r. apply Hspan. intros bn Hbn. split; auto.
  - exists r, s', tot. split; [|done]. rewrite !Z.add_0_r in Hr. exact Hr.
Qed.

(** [C30] [readi] delivers the bytes of the file from the offset on, as many as asked for and as
    the file has, across direct and indirect blocks; past the end of the file, or when offset
    and count overflow, none. Into the kernel they go to the object, one part after the other,
    and the count is returned. Into user memory the count is returned and each byte is at its
    address when all of these addresses may be written; when one of them may not, -1 is
    returned. No block changes, no buffer stays held, and only those addresses and the pages
    of the driver change in memory. *)
Theorem readi_correct p s V R held ip x off n (len := read_len x off n) :
  bc p s V R held -> ready s -> inode_at s ip = x -> file_ok V R held x ->
  0 <= off < 2 ^ 32 -> 0 <= n < 2 ^ 32 ->
  (exists s', readi ip (ToKernel 0) off n s = Ret (len, file_bytes V x off len) s' /\
    did p s s' V R held []) /\
  forall va root sz l,
    (forall bn, 0 <= bn < (x.(i_size) + BSIZE - 1) / BSIZE ->
      Forall (fun b => 0 <= b < 256) (V (addr_of V x bn))) ->
    udest p s root sz l -> 0 <= va -> va + n <= 2 ^ 64 - PGSIZE ->
    exists r s', readi ip (ToUser va) off n s = Ret (r, []) s' /\
      bc p s' V R held /\ fs_frame p (target root s va len) s s' /\ udest p s' root sz l /\
      s'.(k_disk) = s.(k_disk) /\ s'.(k_diskwrites) = s.(k_diskwrites) /\
      ((forall i, 0 <= i < len -> writable s.(k_mem) root (va + i)) ->
        r = len /\ forall i, 0 <= i < len ->
          load8 s'.(k_mem) (uaddr s.(k_mem) root (va + i)) = file_byte V x (off + i)) /\
      ((exists i, 0 <= i < len /\ ~ writable s.(k_mem) root (va + i)) -> r = -1).
Proof using All.
  intros Hbc Hrd Hx Hok Hoff Hn. split; [by apply (readi_ok Hfuel)|].
  intros va root sz l Hby Hu Hva Hhi.
  destruct (readi_user p s V R held ip x off n va root sz l) as (r & s' & tot & Hr & [G1 G2 [G3 G4] G5 _ G6] & Hres); try done.
  exists r, s'. split_and!; try done; fold len in Hres, G6.
  - intros Hw. destruct Hres as [[-> ->]|[_ (i & Hi & Hnw)]]; [|by destruct (Hnw (Hw i Hi))].
    split; [done|]. intros i Hi. by apply G6.
  - intros (i & Hi & Hnw). destruct Hres as [[-> ->]|[-> _]]; [|done]. by destruct (Hnw (proj1 (G6 i Hi))).
Qed.

End UserRead.

(** ** Files and directories *)

Section Dir.
Context {F : WaitFuel} {Disk : BlockDev} {DO : DiskOk Disk}.
Context (Hfuel : (0 < wait_fuel)%nat).

(** The first entry of the directory in use with that name. *)
Definition dir_lookup (V : Z -> list Z) (x : inode) (name : list Z) : option (Z * Z) :=
  let hit k := bool_decide ((dir_entry V x k).(de_inum) <> 0 /\
    cname (Z.to_nat DIRSIZ) name = cname (Z.to_nat DIRSIZ) (dir_entry V x k).(de_name)) in
  match List.find hit (zrange 0 (Z.to_nat (x.(i_size) / DESIZE))) with
  | Some k => Some (k, (dir_entry V x k).(de_inum))
  | None => None
  end.

Lemma find_ext {A} (f g : A -> bool) l : (forall x, f x = g x) -> List.find f l = List.find g l.
Proof using Type. intros H. induction l as [|x l IH]; simpl; [done|]. by rewrite H, IH. Qed.

Lemma dir_lookup_find V x name :
  dir_find V x name (zrange 0 (Z.to_nat (x.(i_size) / DESIZE))) = dir_lookup V x name.
Proof using Type.
  unfold dir_find, dir_lookup. erewrite find_ext; [done|]. intros k. cbv beta.
  pose proof (strncmp_list_eq (Z.to_nat DIRSIZ) name (de_name (dir_entry V x k))) as He. unfold namecmp.
  destruct (Z.eqb_spec (de_inum (dir_entry V x k)) 0) as [E|E]; cbn [negb andb].
  - symmetry. apply bool_decide_eq_false. by intros [? _].
  - destruct (Z.eqb_spec (strncmp_list (Z.to_nat DIRSIZ) name (de_name (dir_entry V x k))) 0) as [E'|E'].
    + symmetry. apply bool_decide_eq_true. split; [done|]. by apply He.
    + symmetry. apply bool_decide_eq_false. intros [_ H]. by apply E', He.
Qed.

(** [C29] [dirlookup] finds the first entry in use whose name is the given one, up to [DIRSIZ]
    characters, returns its offset and a reference to its inode, and returns nothing when
    there is no such entry. It writes no block. On what is not a directory it panics. *)
Theorem dirlookup_correct p s V R held dp x name :
  bc p s V R held -> ready s -> inode_at s dp = x -> file_ok V R held x ->
  x.(i_size) mod DESIZE = 0 ->
  if x.(i_type) =? T_DIR then
    exists s', did p s s' V R held [] /\ dirlookup dp name s = dir_result (dir_lookup V x name) s'
  else dirlookup dp name s = Panic "dirlookup not DIR".
Proof using Hfuel.
  intros Hbc Hrd Hx Hok Hmod. unfold dirlookup.
  rewrite (bind_Ret (geti dp id) _ s x s (geti_eq s dp x id Hx)).
  destruct (x.(i_type) =? T_DIR); cbn [negb]; [|done].
  destruct Hok as [Hdev Hsz Hblk]. pose proof (Z.div_mod x.(i_size) DESIZE ltac:(done)) as Hdm.
  assert (0 <= x.(i_size) / DESIZE) as Hpos by (apply Z.div_pos; [lia|done]).
  destruct (dirlookup_loop_ok Hfuel p V R held dp x name (Z.to_nat (x.(i_size) / DESIZE)) s 0
    (Z.to_nat (x.(i_size) / DESIZE + 1))) as (s' & Hd & Hr); try done.
  - rewrite Z2Nat.id by done. lia.
  - lia.
  - exists s'. split; [done|]. rewrite <- dir_lookup_find. exact Hr.
Qed.

End Dir.

(** ** A small file system *)

#[local] Existing Instances demo_image16 demo_layout16.
#[local] Instance demo_fuel : WaitFuel := 1%nat.

(** A root directory in block 46 with two entries. *)
Definition demo_name (s : string) : list Z := strncpy_list (str s) (Z.to_nat DIRSIZ).
Definition demo_dir : list Z :=
  dirent_encode (mkdirent 1 (demo_name ".")) ++ dirent_encode (mkdirent 7 (demo_name "init")) ++
  replicate 992 0.
Definition demo_fs : gmap Z (list Z) := {[46 := demo_dir]}.
Definition demo_root_inode : inode :=
  set_i_dev ROOTDEV (set_i_inum 1 (set_i_ref 1 (set_i_valid true (set_i_type T_DIR (set_i_nlink 1
    (set_i_size 32 (set_i_addrs (46 :: replicate 12 0) inhabitant))))))).

(** Process 0 runs with one page of user memory; the buffers are as the loader leaves them. *)
Definition demo_start : kstate :=
  set_itable (demo_root_inode :: replicate 49 inhabitant) (set_disk demo_fs (set_bufs (replicate bhead inhabitant)
    (set_procs (set_p_pagetable demo_root (set_p_pid 1 (set_p_state RUNNING inhabitant)) :: replicate 63 inhabitant)
      (set_locks ∅ (set_hart (set_c_proc (Some 0%nat) inhabitant) demo_user))))).

Lemma demo_root_end : ~ writable demo_user.(k_mem) demo_root 4096.
Proof. intros [[_ Hv] _]. revert Hv. vm_compute. by intros [? _]. Qed.

#[local] Opaque demo_user.

Lemma demo_apart s root sz l q x :
  uspace s root sz l -> s.(k_vdisk) = inhabitant ->
  owned s.(k_mem) root (below sz) q \/ q ∈ l -> in_page q x -> ~ disk_mem s x.
Proof.
  intros Hs Ev Hq Hx. assert (page_ok q) as [Hp _]%page_ok_pos.
  { destruct Hq as [Hq|Hq]; [by eapply owned_page; [apply Hs|]|by eapply free_page; [apply Hs|]]. }
  unfold disk_mem. rewrite Ev. unfold in_page, PGSIZE in *. cbn. lia.
Qed.

Lemma demo_mounted :
  exists s, bc 0 s (disk_at s) (fun _ => 0) [] /\ ready s /\ disk_at s 46 = demo_dir /\
    s.(k_itable) = demo_root_inode :: replicate 49 inhabitant /\ s.(k_locks) !! itable_lock = None /\
    (forall va, 0 <= va < 4096 -> writable s.(k_mem) demo_root va) /\ ~ writable s.(k_mem) demo_root 4096 /\
    exists l, udest 0 s demo_root 4096 l.
Proof.
  destruct (binit_ok demo_start) as (s & _ & Hl & Hring & Ht & E & Hfr); [done| |].
  { intros b Hb. unfold buf_at, demo_start. ksimpl. by rewrite lookup_total_replicate_2. }
  assert (forall lk, s.(k_locks) !! lk = None) as Hlk by (intros lk; by apply Hfr).
  assert (calm 0 s) as Hc.
  { constructor; [rewrite E; split; simpl; [lia|done]|by rewrite E|by rewrite E|by rewrite E| |];
    [vm_compute; lia|intros i; apply Hlk]. }
  assert (s.(k_mem) = demo_user.(k_mem)) as Em by exact (f_equal k_mem E).
  assert (s.(k_freelist) = demo_user.(k_freelist)) as Efl by exact (f_equal k_freelist E).
  assert (s.(k_vdisk) = demo_user.(k_vdisk)) as Ev by exact (f_equal k_vdisk E).
  assert (s.(k_disk) = demo_fs) as Ed by exact (f_equal k_disk E).
  assert (s.(k_procs) = demo_start.(k_procs)) as Ep by exact (f_equal k_procs E).
  exists s. split; [|split; [|split; [|split; [exact (f_equal k_itable E)|split; [apply Hlk|
    rewrite Em; split; [exact demo_user_writable|split; [exact demo_root_end|]]]]]]].
  - constructor; [exact Hl|eexists; exact Hring|apply Ht|exact Hc|unfold running, proc_at; rewrite Ep; split; reflexivity|exact I].
  - split; [constructor; intros; apply Hlk|exact (f_equal (fun t => c_noff (k_hart t)) E)].
  - unfold disk_at. rewrite Ed. vm_compute. reflexivity.
  - destruct demo_user_ok as [l Hu]. exists l.
    pose proof (uspace_ext demo_user s demo_root 4096 l Hu Em Efl (Hlk kmem_lock) (calm_hart 0 s Hc)) as Hu'.
    constructor; [exact Hu'|unfold proc_at; rewrite Ep; reflexivity|].
    intros q x. apply (demo_apart s demo_root 4096 l); [exact Hu'|]. rewrite Ev. vm_compute. reflexivity.
Qed.

Lemma demo_file_ok D : D 46 = demo_dir -> file_ok D (fun _ => 0) [] demo_root_inode.
Proof.
  intros HD. constructor; [done|vm_compute; split; discriminate|]. intros bn Hbn.
  change ((i_size demo_root_inode + BSIZE - 1) / BSIZE) with 1 in Hbn. assert (bn = 0) as -> by lia.
  unfold block_ok. change (addr_of D demo_root_inode 0) with 46. rewrite HD. split_and!; try done.
  - split_and!; [apply not_elem_of_nil|done|]. right. exists []. split; [lia|]. vm_compute. lia.
Qed.

Lemma demo_dir_byte s i : disk_at s 46 = demo_dir -> 0 <= i < 32 ->
  file_byte (disk_at s) demo_root_inode i = demo_dir !!! Z.to_nat i.
Proof.
  intros HD Hi. unfold file_byte. change BSIZE with 1024. rewrite Z.div_small, Z.mod_small by lia.
  change (addr_of (disk_at s) demo_root_inode 0) with 46. by rewrite HD.
Qed.

(** The second entry is read into the kernel, to the start of the user's page, and to the end of
    it, where there is no room. *)
Lemma readi_correct_witness :
  exists s s' s1 s2, readi 0 (ToKernel 0) 16 100 s = Ret (16, dirent_encode (mkdirent 7 (demo_name "init"))) s' /\
    readi 0 (ToUser 8) 16 100 s = Ret (16, []) s1 /\
    load8 s1.(k_mem) (uaddr s.(k_mem) demo_root 10) = 105 /\
    readi 0 (ToUser 4090) 16 100 s = Ret (-1, []) s2.
Proof.
  destruct demo_mounted as (s & Hbc & Hrd & HD & Hit & _ & Hw & Hend & l & Hu).
  destruct (readi_correct (Nat.lt_0_succ 0) 0 s (disk_at s) (fun _ => 0) [] 0 demo_root_inode 16 100 Hbc Hrd)
    as [(s' & Hr & _) Huser].
  - unfold inode_at. by rewrite Hit.
  - by apply demo_file_ok.
  - lia.
  - lia.
  - change (read_len demo_root_inode 16 100) with 16 in *.
    assert (forall bn, 0 <= bn < (demo_root_inode.(i_size) + BSIZE - 1) / BSIZE ->
      Forall (fun b => 0 <= b < 256) (disk_at s (addr_of (disk_at s) demo_root_inode bn))) as Hby.
    { intros bn Hbn. change ((i_size demo_root_inode + BSIZE - 1) / BSIZE) with 1 in Hbn. assert (bn = 0) as -> by lia.
      change (addr_of (disk_at s) demo_root_inode 0) with 46. rewrite HD. apply (bool_decide_unpack _). by vm_compute. }
    destruct (Huser 8 demo_root 4096 l Hby Hu) as (r1 & s1 & Hr1 & _ & _ & _ & _ & _ & H1 & _); [lia|unfold PGSIZE; lia|].
    destruct (Huser 4090 demo_root 4096 l Hby Hu) as (r2 & s2 & Hr2 & _ & _ & _ & _ & _ & _ & H2); [lia|unfold PGSIZE; lia|].
    destruct H1 as [-> H1]; [intros i Hi; apply Hw; lia|].
    rewrite H2 in Hr2.
    2:{ exists 6. split; [lia|exact Hend]. }
    exists s, s', s1, s2. split_and!; [|exact Hr1| |exact Hr2].
    + etransitivity; [exact Hr|]. f_equal. f_equal. unfold file_bytes.
      transitivity (map (fun i => demo_dir !!! Z.to_nat i) (zrange 16 16)); [|by vm_compute].
      apply map_ext_in. intros i Hi. apply list_elem_of_In, elem_of_zrange in Hi. apply demo_dir_byte; [done|lia].
    + change 10 with (8 + 2). rewrite (H1 2) by lia. rewrite demo_dir_byte by (done || lia). by vm_compute.
Defined.

Lemma iget_correct_witness :
  exists s ip s', iget ROOTDEV 7 s = Ret ip s' /\ is_inode ROOTDEV 7 (inode_at s' ip) /\
    refs s'.(k_itable) ROOTDEV 1 = 1.
Proof.
  destruct demo_mounted as (s & Hbc & Hrd & HD & Hit & Hlk & _).
  assert (itable_ok s.(k_itable)) as Hok.
  { rewrite Hit. constructor.
    - constructor; [simpl; lia|]. apply Forall_replicate. simpl. lia.
    - intros i j x y dev inum Hx Hy Hxd Hyd.
      assert (forall k z, (demo_root_inode :: replicate 49 inhabitant) !! k = Some z ->
        is_inode dev inum z -> k = 0%nat) as H.
      { intros [|k] z Hz Hzd; [done|]. change (replicate 49 inhabitant !! k = Some z) in Hz.
        apply lookup_replicate in Hz as [-> _]. by destruct Hzd as (H0 & _). }
      by rewrite (H i x), (H j y). }
  destruct (iget_correct 0 s ROOTDEV 7 (bc_calm _ _ _ _ _ Hbc) Hlk Hok) as [[Hno _]|(ip & s' & Hr & _ & _ & Hin & Href & _)].
  - exfalso. rewrite Hit in Hno. by destruct (Hno 1%nat inhabitant eq_refl).
  - exists s, ip, s'. split; [done|]. split; [done|]. rewrite Href, Hit. by vm_compute.
Defined.

Lemma dirlookup_correct_witness :
  exists s s' V, did 0 s s' V (fun _ => 0) [] [] /\
    dirlookup 0 (str "init") s = (let! ip := iget ROOTDEV 7 in ret (Some (ip, 16))) s'.
Proof.
  destruct demo_mounted as (s & Hbc & Hrd & HD & Hit & _).
  pose proof (dirlookup_correct (Nat.lt_0_succ 0) 0 s (disk_at s) (fun _ => 0) [] 0 demo_root_inode (str "init")
    Hbc Hrd) as H.
  destruct H as (s' & Hd & Hr).
  - unfold inode_at. by rewrite Hit.
  - by apply demo_file_ok.
  - done.
  - exists s, s', (disk_at s). split; [done|]. etransitivity; [exact Hr|].
    assert (forall k, 0 <= k < 2 -> dir_entry (disk_at s) demo_root_inode k =
      dirent_decode (map (fun i => demo_dir !!! Z.to_nat i) (zrange (16 * k) 16))) as He.
    { intros k Hk. unfold dir_entry, file_bytes. f_equal. apply map_ext_in. intros i Hi.
      apply list_elem_of_In, elem_of_zrange in Hi. change DESIZE with 16 in Hi. unfold file_byte. change BSIZE with 1024.
      rewrite Z.div_small, Z.mod_small by lia. change (addr_of (disk_at s) demo_root_inode 0) with 46. by rewrite HD. }
    assert (dir_lookup (disk_at s) demo_root_inode (str "init") = Some (1, 7)) as ->; [|done].
    unfold dir_lookup. change (Z.to_nat (i_size demo_root_inode / DESIZE)) with 2%nat. cbn [zrange List.find].
    rewrite bool_decide_false by (rewrite He by lia; vm_compute; by intros [_ ?]).
    rewrite bool_decide_true by (rewrite He by lia; by vm_compute).
    rewrite He by lia. by vm_compute.
Defined.
