(* ===== verification/BallocSpec.v ===== *)
(** * Inside a transaction: block updates and the free-block bitmap (fs.c)

    [intxn p start s V bs held]: process [p] has a transaction open; the blocks
    [bs] have been logged, [V] are the current contents of the blocks and the
    buffers of [held] are locked. Until [end_op] the disk does not change. *)

From S2P Require Import Prelude Params Mem State Spinlock CString Kalloc Vm Proc.
From S2P Require Import ProcSpec Sleeplock Uart Printf Bio Dll BioSpec BioProps Log.
From S2P Require Import Block LogSpec LogProps LogTxn Fs FsSpec.

(** The references of the transaction: logged blocks are pinned, held blocks
    are referenced once. *)
Definition trefs (bs : list Z) (held : list (Z * nat)) (n : Z) : Z :=
  pins bs n + (if decide (n ∈ held.*1) then 1 else 0).

Section FsTxn.
Context {F : WaitFuel} {Disk : BlockDev} {DO : DiskOk Disk}.

Record intxn (p : nat) (start : Z) (s : kstate) (V : Z -> list Z) (bs : list Z)
    (held : list (Z * nat)) : Prop := {
  tx_bc : bc p s V (trefs bs held) held;
  tx_ready : ready s;
  tx_lock : s.(k_locks) !! log_lock = None;
  tx_log : open_log s.(k_log) start bs;
  tx_clean : forall n, n ∉ bs -> V n = disk_at s n;
}.

(** What the steps of a transaction leave alone. *)
Definition tframe (p : nat) (s s' : kstate) : Prop :=
  bio_frame p (set_log s'.(k_log) s) s' /\ s'.(k_disk) = s.(k_disk) /\
  s'.(k_diskwrites) = s.(k_diskwrites).

Lemma tframe_refl p s : tframe p s s.
Proof. split; [apply bio_frame_refl|done]. Qed.

Lemma bio_frame_set_log p s s' l : bio_frame p s s' -> bio_frame p (set_log l s) (set_log l s').
Proof. intros (E & Hw & Hm & Hq). split_and!; [|done|done|done]. rewrite E. done. Qed.

Lemma tframe_trans p s1 s2 s3 : tframe p s1 s2 -> tframe p s2 s3 -> tframe p s1 s3.
Proof.
  intros (F1 & D1 & W1) (F2 & D2 & W2). split; [|split; congruence].
  eapply bio_frame_trans; [|exact F2]. apply (bio_frame_set_log p _ _ s3.(k_log)) in F1. exact F1.
Qed.

Lemma did_tframe p s s' V R held : did p s s' V R held [] -> tframe p s s'.
Proof.
  intros [_ Hf Hd Hw]. split; [|done]. by rewrite (bio_frame_log p s s').
Qed.

Lemma tframe_locks p s s' : tframe p s s' -> s'.(k_locks) = s.(k_locks).
Proof. intros [H _]. by apply bio_frame_locks in H. Qed.

Lemma tframe_ready p s s' : tframe p s s' -> ready s -> ready s'.
Proof.
  intros [H _] [H1 H2]. split; [by rewrite (bio_frame_locks p _ _ H)|by rewrite (bio_frame_hart p _ _ H)].
Qed.

Lemma tframe_itable p s s' : tframe p s s' -> s'.(k_itable) = s.(k_itable).
Proof. intros [(E & _) _]. by rewrite E. Qed.

Lemma tframe_sb p s s' : tframe p s s' -> s'.(k_sb) = s.(k_sb).
Proof. intros [(E & _) _]. by rewrite E. Qed.

(** A step that does not log. *)
Lemma intxn_did p start s s' V bs held held' :
  intxn p start s V bs held -> did p s s' V (trefs bs held') held' [] -> intxn p start s' V bs held'.
Proof.
  intros [Hbc Hrd Hlk Hlog Hcl] Hd. constructor.
  - apply Hd.
  - by eapply did_ready.
  - by rewrite (bio_frame_locks p s) by apply Hd.
  - by rewrite (did_log _ _ _ _ _ _ _ Hd).
  - intros n Hn. unfold disk_at. rewrite (did_disk _ _ _ _ _ _ _ Hd). by apply Hcl.
Qed.

Lemma trefs_range bs held n : 0 <= trefs bs held n <= 2.
Proof. unfold trefs, pins. repeat case_decide; lia. Qed.

Lemma trefs_roomy bs held : (length bs + length held < bhead)%nat -> roomy (trefs bs held).
Proof.
  intros H. exists (bs ++ held.*1). split.
  - intros n. unfold trefs, pins. repeat case_decide; try lia; set_solver.
  - rewrite length_app, length_fmap. lia.
Qed.

(** [brelse] *)
Lemma tx_release p start s V bs held held' n b :
  intxn p start s V bs held -> held ≡ₚ (n, b) :: held' ->
  exists s', brelse b s = Ret tt s' /\ intxn p start s' V bs held' /\ tframe p s s'.
Proof.
  intros Htx Hp. pose proof Htx as [Hbc Hrd _ _ Hcl].
  assert (n ∈ held.*1) as Hin by (rewrite Hp; set_solver).
  assert (n ∉ held'.*1) as Hnin.
  { pose proof (bt_nodup _ _ _ _ _ _ (bc_tab _ _ _ _ _ Hbc)) as Hnd. rewrite Hp in Hnd.
    by apply NoDup_cons in Hnd as [? _]. }
  destruct (did_release p s V _ held held' n b Hbc Hrd Hp) as (s' & Hr & Hd).
  { unfold trefs, pins. destruct (decide (n ∈ bs)) as [Hb|Hb]; [rewrite decide_True by done; lia|].
    intros _. by apply Hcl. }
  exists s'. split; [done|]. split; [|by eapply did_tframe].
  eapply intxn_did; [exact Htx|]. eapply did_ext; [| |exact Hd]; [done|]. intros m. unfold zupd.
  destruct (decide (m = n)) as [->|Hm].
  - unfold trefs. rewrite (decide_False (P := n ∈ held'.*1)) by done. rewrite decide_True by done. lia.
  - unfold trefs. f_equal. assert (m ∈ held.*1 <-> m ∈ held'.*1) as E by (rewrite Hp; set_solver).
    destruct (decide (m ∈ held.*1)), (decide (m ∈ held'.*1)); tauto.
Qed.

(** A store into a locked block, logged. *)
Lemma tx_write p start s V bs held n b f :
  intxn p start s V bs held -> (n, b) ∈ held -> (length bs < 29)%nat ->
  exists s', (forall A (k : K A), (setb b (fun x => set_b_data (f x.(b_data)) x) ;; log_write b ;; k) s = k s') /\
    intxn p start s' (zupd V n (f (V n))) (log_add bs n) held /\ tframe p s s'.
Proof.
  intros [Hbc Hrd Hlk [Hlog Hout Hcm Hsz] Hcl] Hin Hlen.
  pose proof (did_set p s V _ held n b f Hbc Hin) as Hd1. set (s1 := upd_buf b _ s) in Hd1.
  assert (n ∈ held.*1) as Hin1 by (apply list_elem_of_fmap; by exists (n, b)).
  destruct (log_write_ok p s1 (zupd V n (f (V n))) (trefs bs held) held n b start bs) as (bl & s2 & Hr2 & Hbc2 & Hlog2 & E2).
  { apply Hd1. } { by apply Hrd. } { done. } { done. } { done. }
  { change (Z.to_nat LOGSIZE) with 30%nat. lia. } { change (k_log s1) with (k_log s). rewrite Hsz. change LOGSIZE with 30. lia. }
  { change (k_log s1) with (k_log s). lia. } { pose proof (trefs_range bs held n). lia. }
  exists s2. split.
  { intros A k. unfold setb. rewrite (bind_Ret _ _ s tt s1) by done. by erewrite bind_Ret by exact Hr2. }
  assert (tframe p s s2) as Hfr.
  { split; [|split; by rewrite E2]. rewrite E2.
    apply (bio_frame_local p (set_log _ s) _ s.(k_bhead)). }
  split; [|done]. constructor.
  - eapply bc_ext; [| |exact Hbc2]; [done|]. intros m. unfold log_ref, log_add, trefs, pins.
    destruct (decide (n ∈ bs)) as [Hn|Hn]; [done|]. unfold zupd.
    destruct (decide (m = n)) as [->|Hm]; repeat case_decide; try lia; set_solver.
  - by eapply tframe_ready.
  - by rewrite (tframe_locks p s).
  - constructor; [done|by rewrite E2|by rewrite E2|by rewrite E2].
  - intros m Hm. unfold log_add in Hm. rewrite E2. change (zupd V n (f (V n)) m = disk_at s m).
    destruct (decide (n ∈ bs)); (rewrite zupd_ne; [apply Hcl; set_solver|set_solver]).
Qed.

Section Reading.
Context (Hfuel : (0 < wait_fuel)%nat).

Lemma tx_read p start s V bs held n :
  intxn p start s V bs held -> n ∉ held.*1 -> (length bs + length held < bhead)%nat ->
  exists b s', bread ROOTDEV n s = Ret b s' /\ intxn p start s' V bs ((n, b) :: held) /\ tframe p s s' /\
    (buf_at s' b).(b_data) = V n.
Proof using All.
  intros Htx Hn Hlen. pose proof Htx as [Hbc Hrd _ _ _].
  destruct (did_read Hfuel p s V _ held n Hbc Hrd Hn) as (b & s' & Hr & Hd).
  { pose proof (trefs_range bs held n). lia. } { right. by apply trefs_roomy. }
  exists b, s'. split; [done|].
  assert (did p s s' V (trefs bs ((n, b) :: held)) ((n, b) :: held) []) as Hd'.
  { eapply did_ext; [| |exact Hd]; [done|]. intros m. unfold zupd, trefs. simpl.
    destruct (decide (m = n)) as [->|Hm].
    - rewrite decide_True by set_solver. rewrite decide_False by done. lia.
    - f_equal. destruct (decide (m ∈ held.*1)); [by rewrite decide_True by set_solver|].
      by rewrite decide_False by set_solver. }
  split; [by eapply intxn_did|]. split; [by eapply did_tframe|].
  eapply held_data; [apply Hd'|set_solver].
Qed.

(** Read-modify-write of a block. *)
Lemma tx_update p start s V bs held n f :
  intxn p start s V bs held -> n ∉ held.*1 -> (length bs < 29)%nat ->
  (length bs + length held < bhead)%nat ->
  exists s', (let! b := bread ROOTDEV n in
      setb b (fun x => set_b_data (f x.(b_data)) x) ;; log_write b ;; brelse b) s = Ret tt s' /\
    intxn p start s' (zupd V n (f (V n))) (log_add bs n) held /\ tframe p s s'.
Proof using All.
  intros Htx Hn Hlen Hroom.
  destruct (tx_read p start s V bs held n) as (b & s1 & Hr1 & Htx1 & Hf1 & _); try done.
  destruct (tx_write p start s1 V bs ((n, b) :: held) n b f Htx1) as (s2 & Hk & Htx2 & Hf2); [set_solver|done|].
  destruct (tx_release p start s2 _ _ _ held n b Htx2) as (s3 & Hr3 & Htx3 & Hf3); [done|].
  exists s3. split; [|split; [done|by eapply tframe_trans; [|eapply tframe_trans]]].
  erewrite bind_Ret by exact Hr1. by rewrite Hk.
Qed.

End Reading.

End FsTxn.

(** * The free-block bitmap (fs.c): balloc and bfree *)

(** ** Bits of a block *)

Definition bit_set (d : list Z) (bi : Z) : bool := Z.testbit (byte_of d bi) (bi mod 8).

Lemma land_bit x k : 0 <= k -> (Z.land x (Z.shiftl 1 k) =? 0) = negb (Z.testbit x k).
Proof.
  intros Hk. assert (Z.land x (Z.shiftl 1 k) = if Z.testbit x k then 2 ^ k else 0) as ->.
  { rewrite Z.shiftl_1_l. apply Z.bits_inj'. intros i Hi. rewrite Z.land_spec, Z.pow2_bits_eqb by done.
    destruct (Z.eqb_spec k i) as [->|Hne].
    - destruct (Z.testbit x i); [rewrite Z.pow2_bits_true by done; done|by rewrite Z.bits_0].
    - rewrite andb_false_r. destruct (Z.testbit x k); [|by rewrite Z.bits_0].
      symmetry. apply Z.pow2_bits_false. done. }
  destruct (Z.testbit x k); [|done]. apply Z.eqb_neq. pose proof (Z.pow_pos_nonneg 2 k). lia.
Qed.

Lemma free_bit_spec d bi : (Z.land (byte_of d bi) (bit_of bi) =? 0) = negb (bit_set d bi).
Proof. apply land_bit. pose proof (Z.mod_pos_bound bi 8). lia. Qed.

(** The stores of [balloc] and [bfree]. *)
Definition mark (bi : Z) (d : list Z) : list Z :=
  <[Z.to_nat (bi / 8) := Z.lor (byte_of d bi) (bit_of bi)]> d.
Definition unmark (bi : Z) (d : list Z) : list Z :=
  <[Z.to_nat (bi / 8) := Z.land (byte_of d bi) (Z.lnot (bit_of bi))]> d.

Lemma byte_of_insert d bi bi' v :
  0 <= bi < 8 * Z.of_nat (length d) -> 0 <= bi' ->
  byte_of (<[Z.to_nat (bi / 8) := v]> d) bi' = if decide (bi' / 8 = bi / 8) then v else byte_of d bi'.
Proof.
  intros Hb Hb'. unfold byte_of. rewrite !list_lookup_total_alt.
  pose proof (Z.div_pos bi 8). pose proof (Z.div_pos bi' 8).
  destruct (decide (bi' / 8 = bi / 8)) as [->|Hne].
  - rewrite list_lookup_insert_eq; [done|]. assert (bi / 8 < Z.of_nat (length d)); [|lia].
    apply Z.div_lt_upper_bound; lia.
  - by rewrite list_lookup_insert_ne by lia.
Qed.

Lemma bit_same bi bi' : bi' / 8 = bi / 8 -> bi' mod 8 = bi mod 8 -> bi' = bi.
Proof. intros H1 H2. rewrite (Z.div_mod bi 8), (Z.div_mod bi' 8) by lia. lia. Qed.

Lemma bit_set_mark d bi bi' :
  0 <= bi < 8 * Z.of_nat (length d) -> 0 <= bi' ->
  bit_set (mark bi d) bi' = if decide (bi' = bi) then true else bit_set d bi'.
Proof.
  intros Hb Hb'. unfold bit_set, mark. rewrite byte_of_insert by done.
  pose proof (Z.mod_pos_bound bi 8). pose proof (Z.mod_pos_bound bi' 8).
  destruct (decide (bi' / 8 = bi / 8)) as [E|E].
  - rewrite Z.lor_spec. unfold bit_of. rewrite Z.shiftl_1_l, Z.pow2_bits_eqb by lia.
    destruct (decide (bi' = bi)) as [->|Hne].
    + by rewrite Z.eqb_refl, orb_true_r.
    + rewrite (proj2 (Z.eqb_neq _ _)), orb_false_r by (intros E'; by apply Hne, bit_same).
      unfold byte_of. by rewrite E.
  - rewrite decide_False; [done|]. by intros ->.
Qed.

Lemma bit_set_unmark d bi bi' :
  0 <= bi < 8 * Z.of_nat (length d) -> 0 <= bi' ->
  bit_set (unmark bi d) bi' = if decide (bi' = bi) then false else bit_set d bi'.
Proof.
  intros Hb Hb'. unfold bit_set, unmark. rewrite byte_of_insert by done.
  pose proof (Z.mod_pos_bound bi 8). pose proof (Z.mod_pos_bound bi' 8).
  destruct (decide (bi' / 8 = bi / 8)) as [E|E].
  - rewrite Z.land_spec, Z.lnot_spec by lia. unfold bit_of. rewrite Z.shiftl_1_l, Z.pow2_bits_eqb by lia.
    destruct (decide (bi' = bi)) as [->|Hne].
    + by rewrite Z.eqb_refl, andb_false_r.
    + rewrite (proj2 (Z.eqb_neq _ _)), andb_true_r by (intros E'; by apply Hne, bit_same).
      unfold byte_of. by rewrite E.
  - rewrite decide_False; [done|]. by intros ->.
Qed.

Lemma balloc_scan_spec d n : forall bi,
  match balloc_scan n bi d with
  | Some b => bi <= b < bi + Z.of_nat n /\ bit_set d b = false /\
      forall b', bi <= b' < b -> bit_set d b' = true
  | None => forall b', bi <= b' < bi + Z.of_nat n -> bit_set d b' = true
  end.
Proof.
  induction n as [|n IH]; intros bi; cbn [balloc_scan]; [lia|].
  rewrite free_bit_spec. destruct (bit_set d bi) eqn:E; cbn [negb].
  - specialize (IH (bi + 1)). destruct (balloc_scan n (bi + 1) d) as [b|].
    + destruct IH as (H1 & H2 & H3). split_and!; [lia|lia|done|]. intros b' Hb'.
      destruct (decide (b' = bi)) as [->|]; [done|]. apply H3. lia.
    + intros b' Hb'. destruct (decide (b' = bi)) as [->|]; [done|]. apply IH. lia.
  - split_and!; [lia|lia|done|]. lia.
Qed.

(** ** The bitmap *)

(** Block [b] is marked as in use. *)
Definition used (V : Z -> list Z) (sb : superblock) (b : Z) : bool :=
  bit_set (V (BBLOCK b sb)) (b mod BPB).

(** The bitmap covers the disk, and its own blocks are in use. *)
Record bitmap_ok (sb : superblock) (V : Z -> list Z) : Prop := {
  bm_start : 0 <= sb.(sb_bmapstart) /\ sb.(sb_bmapstart) + sb.(sb_size) / BPB < 2 ^ 32;
  bm_len : forall b, 0 <= b < sb.(sb_size) -> length (V (BBLOCK b sb)) = Z.to_nat BSIZE;
  bm_used : forall b, 0 <= b < sb.(sb_size) -> used V sb (BBLOCK b sb) = true;
}.

Lemma BBLOCK_eq sb V b :
  bitmap_ok sb V -> 0 <= b < sb.(sb_size) -> BBLOCK b sb = b / BPB + sb.(sb_bmapstart).
Proof.
  intros [Hs _ _] Hb. unfold BBLOCK, u32. apply Z.mod_small.
  pose proof (Z.div_pos b BPB). assert (b / BPB <= sb.(sb_size) / BPB) by (apply Z.div_le_mono; [done|lia]).
  change BPB with 8192 in *. lia.
Qed.

Lemma BBLOCK_add sb b bi : b mod BPB = 0 -> 0 <= bi < BPB -> BBLOCK (b + bi) sb = BBLOCK b sb.
Proof.
  intros Hb Hbi. unfold BBLOCK. do 2 f_equal. change BPB with 8192 in *.
  pose proof (Z.div_mod b 8192 ltac:(lia)). symmetry. apply (Z.div_unique _ _ _ bi); lia.
Qed.

Lemma mod_add_BPB b bi : b mod BPB = 0 -> 0 <= bi < BPB -> (b + bi) mod BPB = bi.
Proof.
  intros Hb Hbi. change BPB with 8192 in *. pose proof (Z.div_mod b 8192 ltac:(lia)).
  symmetry. apply (Z.mod_unique _ _ (b / 8192)); lia.
Qed.

Definition zero_block : list Z := replicate (Z.to_nat BSIZE) 0.

(** The blocks after [balloc] has taken block [f]. *)
Definition taken_block (sb : superblock) (V : Z -> list Z) (f : Z) : Z -> list Z :=
  zupd (zupd V (BBLOCK f sb) (mark (f mod BPB) (V (BBLOCK f sb)))) f zero_block.

(** The blocks after [bfree] has freed block [b]. *)
Definition freed_block (sb : superblock) (V : Z -> list Z) (b : Z) : Z -> list Z :=
  zupd V (BBLOCK b sb) (unmark (b mod BPB) (V (BBLOCK b sb))).

Lemma bit_index_range b (d : list Z) : length d = Z.to_nat BSIZE -> 0 <= b mod BPB < 8 * Z.of_nat (length d).
Proof.
  intros Hl. rewrite Hl. change BPB with 8192. change (8 * Z.of_nat (Z.to_nat BSIZE)) with 8192.
  apply Z.mod_pos_bound. lia.
Qed.

Lemma used_same sb V b b' :
  bitmap_ok sb V -> 0 <= b < sb.(sb_size) -> 0 <= b' < sb.(sb_size) ->
  BBLOCK b sb = BBLOCK b' sb -> b mod BPB = b' mod BPB -> b = b'.
Proof.
  intros Hok Hb Hb' H1 H2. rewrite !(BBLOCK_eq sb V) in H1 by done.
  pose proof (Z.div_mod b BPB ltac:(done)). pose proof (Z.div_mod b' BPB ltac:(done)).
  replace (b / BPB) with (b' / BPB) in * by lia. lia.
Qed.

Lemma used_taken sb V f b :
  bitmap_ok sb V -> 0 <= f < sb.(sb_size) -> 0 <= b < sb.(sb_size) -> used V sb f = false ->
  used (taken_block sb V f) sb b = if decide (b = f) then true else used V sb b.
Proof.
  intros Hok Hf Hb Hfree. unfold used, taken_block.
  rewrite zupd_ne by (intros E; pose proof (bm_used _ _ Hok b Hb) as Hu; rewrite E in Hu; congruence).
  unfold zupd. destruct (decide (BBLOCK b sb = BBLOCK f sb)) as [E|E].
  - rewrite bit_set_mark; [|by apply bit_index_range, Hok|apply Z.mod_pos_bound; done]. rewrite <- E.
    destruct (decide (b mod BPB = f mod BPB)) as [Em|Em].
    + rewrite decide_True; [done|]. by apply (used_same sb V).
    + rewrite decide_False; [done|]. by intros ->.
  - rewrite decide_False; [done|]. by intros ->.
Qed.

Lemma used_freed sb V f b :
  bitmap_ok sb V -> 0 <= f < sb.(sb_size) -> 0 <= b < sb.(sb_size) ->
  used (freed_block sb V f) sb b = if decide (b = f) then false else used V sb b.
Proof.
  intros Hok Hf Hb. unfold used, freed_block, zupd.
  destruct (decide (BBLOCK b sb = BBLOCK f sb)) as [E|E].
  - rewrite bit_set_unmark; [|by apply bit_index_range, Hok|apply Z.mod_pos_bound; done]. rewrite <- E.
    destruct (decide (b mod BPB = f mod BPB)) as [Em|Em].
    + rewrite decide_True; [done|]. by apply (used_same sb V).
    + rewrite decide_False; [done|]. by intros ->.
  - rewrite decide_False; [done|]. by intros ->.
Qed.

Lemma length_log_add bs n : (length (log_add bs n) <= S (length bs))%nat.
Proof. unfold log_add. case_decide; rewrite ?length_app; simpl; lia. Qed.

Lemma length_mark bi d : length (mark bi d) = length d.
Proof. apply length_insert. Qed.

Lemma length_unmark bi d : length (unmark bi d) = length d.
Proof. apply length_insert. Qed.

Lemma BBLOCK_lt sb V b : bitmap_ok sb V -> 0 <= b < sb.(sb_size) -> BBLOCK b sb < sb.(sb_size) ->
  0 <= BBLOCK b sb < sb.(sb_size).
Proof.
  intros H Hb Hlt. split; [|done]. rewrite (BBLOCK_eq sb V) by done.
  pose proof (Z.div_pos b BPB). destruct H as [Hs _ _]. change BPB with 8192 in *. lia.
Qed.

(** The bitmap blocks are blocks of the disk. *)
Definition bitmap_inside (sb : superblock) : Prop :=
  forall b, 0 <= b < sb.(sb_size) -> 0 <= BBLOCK b sb < sb.(sb_size).

Lemma bitmap_ok_taken sb V f :
  bitmap_ok sb V -> bitmap_inside sb -> 0 <= f < sb.(sb_size) -> used V sb f = false ->
  bitmap_ok sb (taken_block sb V f).
Proof.
  intros Hok Hin Hf Hfree. constructor.
  - apply Hok.
  - intros b Hb. unfold taken_block.
    rewrite zupd_ne by (intros E; pose proof (bm_used _ _ Hok b Hb) as Hu; rewrite E in Hu; congruence).
    unfold zupd. destruct (decide (BBLOCK b sb = BBLOCK f sb)) as [E|E]; [rewrite length_mark|]; by apply Hok.
  - intros b Hb. rewrite used_taken by auto. case_decide; [done|]. by apply Hok.
Qed.

Lemma bitmap_ok_freed sb V f :
  bitmap_ok sb V -> bitmap_inside sb -> 0 <= f < sb.(sb_size) ->
  (forall b, 0 <= b < sb.(sb_size) -> BBLOCK b sb <> f) -> bitmap_ok sb (freed_block sb V f).
Proof.
  intros Hok Hin Hf Hne. constructor.
  - apply Hok.
  - intros b Hb. unfold freed_block, zupd.
    destruct (decide (BBLOCK b sb = BBLOCK f sb)) as [E|E]; [rewrite length_unmark|]; by apply Hok.
  - intros b Hb. rewrite used_freed by auto. rewrite decide_False by auto. by apply Hok.
Qed.

(** The message of [balloc]. *)
Definition out_of_blocks : list Z := str "balloc: out of blocks" ++ [10].

Section Balloc.
Context {F : WaitFuel} {Disk : BlockDev} {DO : DiskOk Disk}.
Context (Hfuel : (0 < wait_fuel)%nat).

Lemma bzero_ok p start s V bs held n :
  intxn p start s V bs held -> n ∉ held.*1 -> (length bs < 29)%nat ->
  (length bs + length held < bhead)%nat ->
  exists s', bzero ROOTDEV n s = Ret tt s' /\
    intxn p start s' (zupd V n zero_block) (log_add bs n) held /\ tframe p s s'.
Proof using All. apply (tx_update Hfuel p start s V bs held n (fun _ => zero_block)). Qed.

(** The block that [balloc] will find. *)
Definition next_free (V : Z -> list Z) (sb : superblock) (b f : Z) : Prop :=
  b <= f < sb.(sb_size) /\ used V sb f = false /\ forall b', b <= b' < f -> used V sb b' = true.

Lemma full_or_free V sb :
  (exists f, next_free V sb 0 f) \/ (forall b, 0 <= b < sb.(sb_size) -> used V sb b = true).
Proof using Type.
  clear Hfuel. assert (forall k, (exists f, next_free V sb 0 f) \/
    forall b, 0 <= b < sb.(sb_size) -> b < Z.of_nat k -> used V sb b = true) as H.
  { induction k as [|k [IH|IH]]; [right; lia|by left|].
    destruct (decide (Z.of_nat k < sb.(sb_size))) as [Hk|Hk]; [|right; intros b H1 H2; apply IH; lia].
    destruct (used V sb (Z.of_nat k)) eqn:E.
    - right. intros b H1 H2. destruct (decide (b = Z.of_nat k)) as [->|Hne]; [done|apply IH; lia].
    - left. exists (Z.of_nat k). split_and!; [lia|done|done|]. intros b Hb. apply IH; lia. }
  destruct (H (Z.to_nat sb.(sb_size))) as [Hf|Hf]; [by left|right]. intros b Hb. apply Hf; lia.
Qed.

Lemma balloc_loop_ok p start sb V bs held f fuel : forall s b,
  intxn p start s V bs held -> s.(k_sb) = sb -> bitmap_ok sb V ->
  (length bs + 2 <= 29)%nat -> (length bs + 2 + length held <= bhead)%nat ->
  (forall b, 0 <= b < sb.(sb_size) -> BBLOCK b sb ∉ held.*1) -> f ∉ held.*1 ->
  0 <= b -> b mod BPB = 0 -> next_free V sb b f -> sb.(sb_size) - b <= BPB * Z.of_nat fuel ->
  exists s', balloc_loop fuel ROOTDEV b s = Ret f s' /\
    intxn p start s' (taken_block sb V f) (log_add (log_add bs (BBLOCK f sb)) f) held /\ tframe p s s'.
Proof using All.
  induction fuel as [|fuel IH]; intros s b Htx Hsb Hok Hlen Hroom Hbm Hf Hb Hmod (Hbf & Hfree & Hlow) Hfl; cbn [balloc_loop];
    (rewrite (bind_Ret (get k_sb) _ s sb s) by (unfold get; by rewrite <- Hsb));
    rewrite (proj2 (Z.ltb_lt _ _)) by lia; [change BPB with 8192 in Hfl; lia|].
  destruct (tx_read Hfuel p start s V bs held (BBLOCK b sb)) as (bp & s1 & Hr1 & Htx1 & Hf1 & Hdat);
    [done|apply Hbm; lia|lia|].
  erewrite bind_Ret by exact Hr1.
  rewrite (bind_Ret (getb bp b_data) _ s1 (V (BBLOCK b sb)) s1) by (unfold getb, get; by rewrite <- Hdat).
  pose proof (balloc_scan_spec (V (BBLOCK b sb)) (Z.to_nat (Z.min BPB (sb_size sb - b))) 0) as Hscan.
  assert (forall bi, 0 <= bi < BPB -> used V sb (b + bi) = bit_set (V (BBLOCK b sb)) bi) as Hused.
  { intros bi Hbi. unfold used. by rewrite BBLOCK_add, mod_add_BPB. }
  assert (0 < BPB) as HBPB by done.
  destruct (balloc_scan _ 0 (V (BBLOCK b sb))) as [bi|].
  - destruct Hscan as (Hbi & Hclear & Hbelow). assert (0 <= bi < BPB) as Hbi' by lia.
    assert (b + bi = f) as Ef.
    { destruct (Z.lt_trichotomy (b + bi) f) as [Hl|[E|Hg]]; [|done|].
      - assert (used V sb (b + bi) = true) as Hu by (apply Hlow; lia). rewrite Hused in Hu by done. congruence.
      - assert (bit_set (V (BBLOCK b sb)) (f - b) = true) as Hu by (apply Hbelow; lia).
        rewrite <- Hused in Hu by lia. replace (b + (f - b)) with f in Hu by lia. congruence. }
    assert (BBLOCK f sb = BBLOCK b sb) as EB by (rewrite <- Ef; by apply BBLOCK_add).
    assert (f mod BPB = bi) as Em by (rewrite <- Ef; by apply mod_add_BPB).
    destruct (tx_write p start s1 V bs _ (BBLOCK b sb) bp
      (fun d => <[Z.to_nat (bi / 8) := Z.lor (byte_of d bi) (bit_of bi)]> d) Htx1) as (s2 & Hk & Htx2 & Hf2);
      [set_solver|lia|].
    rewrite Hk. clear Hk. fold (mark bi (V (BBLOCK b sb))) in Htx2.
    destruct (tx_release p start s2 _ _ _ held (BBLOCK b sb) bp Htx2) as (s3 & Hr3 & Htx3 & Hf3); [done|].
    erewrite bind_Ret by exact Hr3. rewrite Ef.
    pose proof (length_log_add bs (BBLOCK b sb)) as Hla.
    destruct (bzero_ok p start s3 _ _ held f Htx3) as (s4 & Hr4 & Htx4 & Hf4); [done|lia|lia|].
    erewrite bind_Ret by exact Hr4. exists s4. split; [done|]. unfold taken_block. rewrite EB, Em.
    split; [done|]. do 3 (eapply tframe_trans; [eassumption|]). done.
  - assert (BPB <= sb.(sb_size) - b) as Hfull.
    { destruct (Z.le_gt_cases BPB (sb.(sb_size) - b)) as [|Hlt]; [done|]. exfalso.
      assert (bit_set (V (BBLOCK b sb)) (f - b) = true) as Hu by (apply Hscan; lia).
      rewrite <- Hused in Hu by lia. replace (b + (f - b)) with f in Hu by lia. congruence. }
    assert (b + BPB <= f) as Hnext.
    { destruct (Z.le_gt_cases (b + BPB) f) as [|Hlt]; [done|]. exfalso.
      assert (bit_set (V (BBLOCK b sb)) (f - b) = true) as Hu by (apply Hscan; lia).
      rewrite <- Hused in Hu by lia. replace (b + (f - b)) with f in Hu by lia. congruence. }
    destruct (tx_release p start s1 _ _ _ held (BBLOCK b sb) bp Htx1) as (s2 & Hr2 & Htx2 & Hf2); [done|].
    erewrite bind_Ret by exact Hr2. assert (tframe p s s2) as Hf12 by (by eapply tframe_trans).
    destruct (IH s2 (b + BPB)) as (s3 & Hr3 & Htx3 & Hf3); try done.
    + by rewrite (tframe_sb p s).
    + lia.
    + change BPB with 8192 in *. replace (b + 8192) with (b + 1 * 8192) by lia. by rewrite Z.mod_add.
    + split_and!; [lia|lia|done|]. intros b' Hb'. apply Hlow. lia.
    + lia.
    + exists s3. split; [done|]. split; [done|]. by eapply tframe_trans.
Qed.

(** With every block in use from [b] on, the bitmap is read and the message printed. *)
Lemma balloc_loop_full p start sb V bs held fuel : forall s b,
  intxn p start s V bs held -> s.(k_sb) = sb ->
  (length bs + length held < bhead)%nat ->
  (forall b, 0 <= b < sb.(sb_size) -> BBLOCK b sb ∉ held.*1) ->
  0 <= b -> b mod BPB = 0 -> (forall c, b <= c < sb.(sb_size) -> used V sb c = true) ->
  sb.(sb_size) - b <= BPB * Z.of_nat fuel ->
  exists s', balloc_loop fuel ROOTDEV b s = (printf out_of_blocks [] ;; ret 0) s' /\
    intxn p start s' V bs held /\ tframe p s s'.
Proof using All.
  induction fuel as [|fuel IH]; intros s b Htx Hsb Hroom Hbm Hb Hmod Hall Hfl; cbn [balloc_loop];
    (rewrite (bind_Ret (get k_sb) _ s sb s) by (unfold get; by rewrite <- Hsb));
    (destruct (Z.ltb_spec b sb.(sb_size)) as [Hlt|Hge];
      [|exists s; split; [done|]; split; [done|apply tframe_refl]]); [change BPB with 8192 in Hfl; lia|].
  destruct (tx_read Hfuel p start s V bs held (BBLOCK b sb)) as (bp & s1 & Hr1 & Htx1 & Hf1 & Hdat);
    [done|apply Hbm; lia|lia|].
  erewrite bind_Ret by exact Hr1.
  rewrite (bind_Ret (getb bp b_data) _ s1 (V (BBLOCK b sb)) s1) by (unfold getb, get; by rewrite <- Hdat).
  pose proof (balloc_scan_spec (V (BBLOCK b sb)) (Z.to_nat (Z.min BPB (sb_size sb - b))) 0) as Hscan.
  assert (0 < BPB) as HBPB by done.
  destruct (balloc_scan _ 0 (V (BBLOCK b sb))) as [bi|].
  { destruct Hscan as (Hbi & Hclear & _). assert (0 <= bi < BPB) as Hbi' by lia.
    assert (used V sb (b + bi) = true) as Hu by (apply Hall; lia). unfold used in Hu.
    rewrite BBLOCK_add, mod_add_BPB in Hu by done. congruence. }
  destruct (tx_release p start s1 _ _ _ held (BBLOCK b sb) bp Htx1) as (s2 & Hr2 & Htx2 & Hf2); [done|].
  erewrite bind_Ret by exact Hr2. assert (tframe p s s2) as Hf12 by (by eapply tframe_trans).
  destruct (IH s2 (b + BPB)) as (s3 & Hr3 & Htx3 & Hf3); try done.
  - by rewrite (tframe_sb p s).
  - lia.
  - change BPB with 8192 in *. replace (b + 8192) with (b + 1 * 8192) by lia. by rewrite Z.mod_add.
  - intros c Hc. apply Hall. lia.
  - lia.
  - exists s3. split; [done|]. split; [done|]. by eapply tframe_trans.
Qed.

Lemma balloc_fuel size : size - 0 <= BPB * Z.of_nat (Z.to_nat (size / BPB + 1)).
Proof using Type.
  clear Hfuel. change BPB with 8192. pose proof (Z.div_mod size 8192 ltac:(lia)).
  pose proof (Z.mod_pos_bound size 8192). lia.
Qed.

(** [C28] [bfree] inside a transaction: it clears the bit of the block and changes nothing else,
    and panics when the block is already free. *)
Theorem bfree_correct p start sb s V bs held b :
  intxn p start s V bs held -> s.(k_sb) = sb -> bitmap_ok sb V -> bitmap_inside sb ->
  (length bs < 29)%nat -> (length bs + length held < bhead)%nat ->
  0 <= b < sb.(sb_size) -> BBLOCK b sb ∉ held.*1 ->
  if used V sb b then
    exists s' V', bfree ROOTDEV b s = Ret tt s' /\
      intxn p start s' V' (log_add bs (BBLOCK b sb)) held /\ tframe p s s' /\
      (forall c, 0 <= c < sb.(sb_size) -> used V' sb c = if decide (c = b) then false else used V sb c) /\
      (forall n, n <> BBLOCK b sb -> V' n = V n)
  else bfree ROOTDEV b s = Panic "freeing free block".
Proof using All.
  intros Htx Hsb Hok Hin Hlen Hroom Hb Hbm. unfold bfree.
  rewrite (bind_Ret (get k_sb) _ s sb s) by (unfold get; by rewrite <- Hsb).
  destruct (tx_read Hfuel p start s V bs held (BBLOCK b sb)) as (bp & s1 & Hr1 & Htx1 & Hf1 & Hdat); try done.
  erewrite bind_Ret by exact Hr1. cbv zeta.
  rewrite (bind_Ret (getb bp b_data) _ s1 (V (BBLOCK b sb)) s1) by (unfold getb, get; by rewrite <- Hdat).
  rewrite free_bit_spec. fold (used V sb b). destruct (used V sb b) eqn:Eu; cbn [negb]; [|done].
  destruct (tx_write p start s1 V bs _ (BBLOCK b sb) bp
    (fun d => <[Z.to_nat (b mod BPB / 8) := Z.land (byte_of d (b mod BPB)) (Z.lnot (bit_of (b mod BPB)))]> d) Htx1)
    as (s2 & Hk & Htx2 & Hf2); [set_solver|lia|].
  rewrite Hk. fold (unmark (b mod BPB) (V (BBLOCK b sb))) in Htx2. fold (freed_block sb V b) in Htx2.
  destruct (tx_release p start s2 _ _ _ held (BBLOCK b sb) bp Htx2) as (s3 & Hr3 & Htx3 & Hf3); [done|].
  exists s3, (freed_block sb V b). split_and!; try done.
  - by do 2 (eapply tframe_trans; [eassumption|]).
  - intros c Hc. by apply used_freed.
  - intros n Hn. unfold freed_block. by apply zupd_ne.
Qed.

(** Printing is not part of the transaction. *)
Context {DL : DiskLocal Disk}.

Lemma intxn_sent p start s V bs held cs l :
  intxn p start s V bs held -> intxn p start (sent cs l s) V bs held.
Proof using DL.
  intros [H1 H2 H3 H4 H5]. constructor; try done. apply (bc_local p s); try done.
  apply (calm_ext p s); try done. apply H1.
Qed.

(** [C27] [balloc] inside a transaction: it returns the first block that is free according to
    the bitmap, marks it and only it as in use, fills it with zeros, and changes no other
    block; both changes are logged, and the disk is not written before the commit. When the
    bitmap has no free block, it changes no block and logs none, prints that it is out of
    blocks, character by character on the UART, and returns 0. One of the two is the case. *)
Theorem balloc_correct p start sb s V bs held :
  intxn p start s V bs held -> s.(k_sb) = sb -> bitmap_ok sb V -> bitmap_inside sb ->
  (length bs + 2 <= 29)%nat -> (length bs + 2 + length held <= bhead)%nat ->
  (forall b, 0 <= b < sb.(sb_size) -> BBLOCK b sb ∉ held.*1) ->
  ((exists f, next_free V sb 0 f) \/ (forall b, 0 <= b < sb.(sb_size) -> used V sb b = true)) /\
  (forall f, f ∉ held.*1 -> next_free V sb 0 f ->
    exists s' V', balloc ROOTDEV s = Ret f s' /\
      intxn p start s' V' (log_add (log_add bs (BBLOCK f sb)) f) held /\ tframe p s s' /\
      bitmap_ok sb V' /\ V' f = zero_block /\
      (forall b, 0 <= b < sb.(sb_size) -> used V' sb b = if decide (b = f) then true else used V sb b) /\
      (forall n, n <> f -> n <> BBLOCK f sb -> V' n = V n)) /\
  ((forall b, 0 <= b < sb.(sb_size) -> used V sb b = true) ->
    exists s1, tframe p s s1 /\ balloc ROOTDEV s = (printf out_of_blocks [] ;; ret 0) s1 /\
      forall l', s.(k_panicked) = false -> (s.(k_pr_locking) = true -> s.(k_locks) !! pr_lock = None) ->
        transmits (length out_of_blocks) s1.(k_mmio_in) = Some l' ->
        balloc ROOTDEV s = Ret 0 (sent out_of_blocks l' s1) /\
        intxn p start (sent out_of_blocks l' s1) V bs held).
Proof using All.
  intros Htx Hsb Hok Hin Hlen Hroom Hbm. pose proof (balloc_fuel sb.(sb_size)) as Hfl.
  unfold balloc. rewrite (bind_Ret (get k_sb) _ s sb s) by (unfold get; by rewrite <- Hsb). split_and!.
  - apply full_or_free.
  - intros f Hf Hnf. pose proof Hnf as (Hfr & Hfree & _).
    destruct (balloc_loop_ok p start sb V bs held f (Z.to_nat (sb.(sb_size) / BPB + 1)) s 0)
      as (s' & Hr & Htx' & Hfr'); try done.
    exists s', (taken_block sb V f). split_and!; try done.
    + by apply bitmap_ok_taken.
    + apply zupd_eq.
    + intros b Hb. by apply used_taken.
    + intros n H1 H2. unfold taken_block. by rewrite !zupd_ne.
  - intros Hall. destruct (balloc_loop_full p start sb V bs held (Z.to_nat (sb.(sb_size) / BPB + 1)) s 0)
      as (s1 & Hr & Htx1 & Hf1); try done; [lia|].
    exists s1. split; [done|]. split; [done|]. intros l' Hp Hlk Ht. split; [|by apply intxn_sent].
    assert (calm p s1) as Hc by apply Htx1. pose proof Hf1 as ((E & _) & _). rewrite Hr.
    erewrite bind_Ret; [done|]. apply printf_plain; [|by rewrite E| |done].
    + split; [apply Hc|apply Hc|by rewrite E].
    + apply (bool_decide_unpack _). by vm_compute.
Qed.

End Balloc.

(** ** A small disk *)

#[local] Instance demo_fuel : WaitFuel := 1%nat.

(** 200 blocks, the bitmap in block 45, blocks 0 to 47 in use. *)
Definition demo_sb : superblock := mksb FSMAGIC 200 150 200 30 2 32 45.
Definition demo_bits : list Z := replicate 6 255 ++ replicate 1018 0.

Lemma demo_txn bits : exists s, intxn 0 2 s (disk_at s) [] [] /\ s.(k_sb) = demo_sb /\ disk_at s 45 = bits /\
  s.(k_panicked) = false /\ s.(k_locks) !! pr_lock = None.
Proof.
  destruct (binit_ok (set_sb demo_sb (set_log (set_l_outstanding 1 demo_log)
    (set_disk {[45 := bits]} demo_boot)))) as (s & _ & Hl & Hring & Ht & E & Hfr); [done|apply demo_bss|].
  assert (forall lk, s.(k_locks) !! lk = None) as Hlk by (intros lk; by apply Hfr).
  exists s. split_and!; [|by rewrite E|unfold disk_at; rewrite E; ksimpl; exact (lookup_total_insert_eq ∅ 45 bits)|by rewrite E|done].
  constructor; [|split; [by constructor|by rewrite E]|done| |done].
  - eapply (bc_ext 0 s (disk_at s) _ (fun _ => 0)); [done|done|].
    constructor; [exact Hl|eexists; exact Hring|apply Ht| |rewrite E; by split|done].
    constructor; [rewrite E; split; simpl; [lia|done]|by rewrite E|by rewrite E|by rewrite E| |].
    + vm_compute. lia.
    + intros i. apply Hlk.
  - rewrite E. by constructor.
Qed.

Lemma demo_BBLOCK b : 0 <= b < 200 -> BBLOCK b demo_sb = 45.
Proof. intros Hb. unfold BBLOCK. change BPB with 8192. by rewrite Z.div_small by lia. Qed.

Lemma demo_used D b : D 45 = demo_bits -> 0 <= b < 200 -> used D demo_sb b = (b <? 48).
Proof.
  intros HD Hb. unfold used. rewrite demo_BBLOCK, HD by done. change BPB with 8192. rewrite Z.mod_small by lia.
  assert (forallb (fun b => Bool.eqb (bit_set demo_bits b) (b <? 48)) (zrange 0 200) = true) as H by (by vm_compute).
  rewrite forallb_forall in H. apply eqb_prop, H, list_elem_of_In, elem_of_zrange. lia.
Qed.

Lemma demo_bitmap D : D 45 = demo_bits -> bitmap_ok demo_sb D.
Proof.
  intros HD. constructor; [done| |]; intros b Hb; change (sb_size demo_sb) with 200 in Hb;
    rewrite demo_BBLOCK by done; [by rewrite HD|]. by rewrite demo_used by (done || lia).
Qed.

Lemma demo_inside : bitmap_inside demo_sb.
Proof. intros b Hb. change (sb_size demo_sb) with 200 in *. by rewrite demo_BBLOCK. Qed.

(** The same disk with every block in use. *)
Definition demo_full : list Z := replicate 1024 255.

Lemma demo_full_used D b : D 45 = demo_full -> 0 <= b < 200 -> used D demo_sb b = true.
Proof.
  intros HD Hb. unfold used. rewrite demo_BBLOCK, HD by done. change BPB with 8192. rewrite Z.mod_small by lia.
  assert (forallb (fun b => bit_set demo_full b) (zrange 0 200) = true) as H by (by vm_compute).
  rewrite forallb_forall in H. apply H, list_elem_of_In, elem_of_zrange. lia.
Qed.

Lemma balloc_correct_witness :
  exists s s' t t1, balloc ROOTDEV s = Ret 48 s' /\ tframe 0 s s' /\
    tframe 0 t t1 /\ balloc ROOTDEV t = (printf out_of_blocks [] ;; ret 0) t1 /\
    forall l', transmits (length out_of_blocks) t1.(k_mmio_in) = Some l' ->
      balloc ROOTDEV t = Ret 0 (sent out_of_blocks l' t1).
Proof.
  destruct (demo_txn demo_bits) as (s & Htx & Hsb & HD & _).
  destruct (demo_txn demo_full) as (t & Htx' & Hsb' & HD' & Hp & Hlk).
  destruct (balloc_correct (Nat.lt_0_succ 0) 0 2 demo_sb s (disk_at s) [] [] Htx Hsb (demo_bitmap _ HD) demo_inside)
    as (_ & H1 & _); [simpl; lia|vm_compute; lia|intros b _; apply not_elem_of_nil|].
  destruct (balloc_correct (Nat.lt_0_succ 0) 0 2 demo_sb t (disk_at t) [] [] Htx' Hsb')
    as (_ & _ & H2).
  - constructor; [done| |]; intros b Hb; change (sb_size demo_sb) with 200 in Hb;
      rewrite demo_BBLOCK by done; [by rewrite HD'|]. by apply demo_full_used.
  - exact demo_inside.
  - simpl. lia.
  - vm_compute. lia.
  - intros b _. apply not_elem_of_nil.
  - destruct (H1 48) as (s' & V' & Hr & _ & Hf & _); [apply not_elem_of_nil| |].
    + unfold next_free. change (sb_size demo_sb) with 200. split_and!; [lia|lia| |].
      * by rewrite demo_used.
      * intros b Hb. rewrite demo_used by (done || lia). apply Z.ltb_lt. lia.
    + destruct H2 as (t1 & Hf1 & Hr1 & Hmsg); [intros b Hb; by apply demo_full_used|].
      exists s, s', t, t1. split_and!; try done. intros l' Hl. by apply Hmsg.
Defined.

Lemma bfree_correct_witness :
  exists s s', s.(k_sb) = demo_sb /\ bfree ROOTDEV 47 s = Ret tt s' /\
    bfree ROOTDEV 48 s = Panic "freeing free block".
Proof.
  destruct (demo_txn demo_bits) as (s & Htx & Hsb & HD & _).
  pose proof (bfree_correct (Nat.lt_0_succ 0) 0 2 demo_sb s (disk_at s) [] [] 47 Htx Hsb (demo_bitmap _ HD) demo_inside
    ltac:(simpl; lia) ltac:(vm_compute; lia) ltac:(done) ltac:(apply not_elem_of_nil)) as H1.
  pose proof (bfree_correct (Nat.lt_0_succ 0) 0 2 demo_sb s (disk_at s) [] [] 48 Htx Hsb (demo_bitmap _ HD) demo_inside
    ltac:(simpl; lia) ltac:(vm_compute; lia) ltac:(done) ltac:(apply not_elem_of_nil)) as H2.
  rewrite demo_used in H1, H2 by done. destruct H1 as (s' & _ & Hr & _).
  exists s, s'. split_and!; [exact Hsb|exact Hr|exact H2].
Defined.
