(* ===== verification/File.v ===== *)
(** * Files and pipes (file.c, pipe.c): definitions

    A [struct file*] is an index into [ftable.file]; a pipe is named by the
    page it lives in. *)

From S2P Require Import Prelude Params Mem State Spinlock CString Kalloc Vm Proc.
From S2P Require Import ProcSpec Sleeplock ProcLife Uart Printf Console Bio Log.
From S2P Require Import Fs.

Definition PIPESIZE : Z := 512.

(** The four padding bytes of a [struct stat] on the kernel stack. *)
Class StatPad := stat_pad : list Z.

Section File.
Context {I : KernelImage} {F : WaitFuel} {Disk : BlockDev} {SP : StatPad}.

Definition getf {A} (f : nat) (g : file -> A) : K A := get (fun s => g (file_at s f)).
Definition setf (f : nat) (g : file -> file) : K unit := modify (upd_file f g).
Definition getpi {A} (pi : Z) (g : pipe -> A) : K A := get (fun s => g (s.(k_pipes) !!! pi)).
Definition setpi (pi : Z) (g : pipe -> pipe) : K unit := modify (upd_pipe pi g).

(** An inode pointer that is followed without a check. *)
Definition deref {A} (ip : option nat) (k : nat -> K A) : K A :=
  match ip with Some ip => k ip | None => panic "kerneltrap" end.

Definition fileinit : K unit := initlock ftable_lock.

Fixpoint filealloc_scan (tbl : list file) (i : nat) : option nat :=
  match tbl with
  | [] => None
  | f :: tbl' => if f.(f_ref) =? 0 then Some i else filealloc_scan tbl' (S i)
  end.

Definition filealloc : K (option nat) :=
  acquire ftable_lock ;;
  let! tbl := get k_ftable in
  match filealloc_scan tbl 0 with
  | Some f =>
      setf f (set_f_ref 1) ;;
      release ftable_lock ;;
      ret (Some f)
  | None =>
      release ftable_lock ;;
      ret None
  end.

Definition filedup (f : nat) : K nat :=
  acquire ftable_lock ;;
  let! r := getf f f_ref in
  if r <? 1 then panic "filedup" else
  setf f (set_f_ref (r + 1)) ;;
  release ftable_lock ;;
  ret f.

Definition pipeclose (pi : Z) (writable : bool) : K unit :=
  acquire (pipe_lock pi) ;;
  (if writable then
     setpi pi (set_pi_writeopen false) ;;
     wakeup (Some (pipe_nread_chan pi))
   else
     setpi pi (set_pi_readopen false) ;;
     wakeup (Some (pipe_nwrite_chan pi))) ;;
  let! p := getpi pi id in
  if negb p.(pi_readopen) && negb p.(pi_writeopen) then
    release (pipe_lock pi) ;;
    modify (fun s => set_pipes (delete pi s.(k_pipes)) s) ;;
    kfree pi
  else release (pipe_lock pi).

Definition fileclose (f : nat) : K unit :=
  acquire ftable_lock ;;
  let! r := getf f f_ref in
  if r <? 1 then panic "fileclose" else
  setf f (set_f_ref (r - 1)) ;;
  if r - 1 >? 0 then release ftable_lock else
  let! ff := getf f id in
  setf f (set_f_ref 0) ;;
  setf f (set_f_type FD_NONE) ;;
  release ftable_lock ;;
  match ff.(f_type) with
  | FD_PIPE => pipeclose ff.(f_pipe) ff.(f_writable)
  | FD_INODE | FD_DEVICE =>
      begin_op ;;
      deref ff.(f_ip) iput ;;
      end_op
  | FD_NONE => ret tt
  end.

(** [pipealloc]: the two files, or [None]. A page from [kalloc] is full of
    fives. *)
Definition pipealloc_bad (f0 f1 : option nat) : K (option (nat * nat)) :=
  match f0 with Some f => fileclose f | None => ret tt end ;;
  match f1 with Some f => fileclose f | None => ret tt end ;;
  ret None.

Definition pipealloc : K (option (nat * nat)) :=
  let! f0 := filealloc in
  match f0 with
  | None => pipealloc_bad None None
  | Some f0 =>
      let! f1 := filealloc in
      match f1 with
      | None => pipealloc_bad (Some f0) None
      | Some f1 =>
          let! pi := kalloc in
          if pi =? 0 then pipealloc_bad (Some f0) (Some f1) else
          modify (fun s => set_pipes
            (<[pi := mkpipe (replicate (Z.to_nat PIPESIZE) 5) 0 0 true true]> s.(k_pipes)) s) ;;
          initlock (pipe_lock pi) ;;
          setf f0 (set_f_type FD_PIPE) ;;
          setf f0 (set_f_readable true) ;;
          setf f0 (set_f_writable false) ;;
          setf f0 (set_f_pipe pi) ;;
          setf f1 (set_f_type FD_PIPE) ;;
          setf f1 (set_f_readable false) ;;
          setf f1 (set_f_writable true) ;;
          setf f1 (set_f_pipe pi) ;;
          ret (Some (f0, f1))
      end
  end.

Definition pipe_index (n : Z) : nat := Z.to_nat (n mod PIPESIZE).

(** Append and take one byte of the ring. *)
Definition pipe_put (ch : Z) (p : pipe) : pipe :=
  set_pi_nwrite (u32 (p.(pi_nwrite) + 1))
    (set_pi_data (<[pipe_index p.(pi_nwrite) := ch]> p.(pi_data)) p).
Definition pipe_full (p : pipe) : bool := p.(pi_nwrite) =? u32 (p.(pi_nread) + PIPESIZE).
Definition pipe_empty (p : pipe) : bool := p.(pi_nread) =? p.(pi_nwrite).

(** The loop of [pipewrite]: [None] when it released the lock and failed. *)
Fixpoint pipewrite_loop (fuel : nat) (pr : nat) (pi addr n i : Z) : K (option Z) :=
  if i <? n then
    match fuel with
    | O => fun _ => OutOfFuel
    | S fuel' =>
        let! ro := getpi pi pi_readopen in
        let! stop := (if negb ro then ret true
                      else let! k := killed pr in ret (cbool k)) in
        if (stop : bool) then release (pipe_lock pi) ;; ret None else
        let! full := getpi pi pipe_full in
        if (full : bool) then
          wakeup (Some (pipe_nread_chan pi)) ;;
          sleep (pipe_nwrite_chan pi) (pipe_lock pi) ;;
          pipewrite_loop fuel' pr pi addr n i
        else
          let! pt := getp pr p_pagetable in
          let! r := copyin pt (u64 (addr + i)) 1 in
          if fst r =? -1 then ret (Some i) else
          setpi pi (pipe_put (hd 0 (snd r))) ;;
          pipewrite_loop fuel' pr pi addr n (i + 1)
    end
  else ret (Some i).

Definition pipewrite (pi addr n : Z) : K Z :=
  let! pr := curproc in
  acquire (pipe_lock pi) ;;
  let! r := pipewrite_loop (Z.to_nat n + wait_fuel) pr pi addr n 0 in
  match r with
  | None => ret (-1)
  | Some i =>
      wakeup (Some (pipe_nread_chan pi)) ;;
      release (pipe_lock pi) ;;
      ret i
  end.

(** [false] when the process was killed; the lock is then released. *)
Fixpoint piperead_wait (fuel : nat) (pr : nat) (pi : Z) : K bool :=
  match fuel with
  | O => fun _ => OutOfFuel
  | S fuel' =>
      let! p := getpi pi id in
      if pipe_empty p && p.(pi_writeopen) then
        let! k := killed pr in
        if cbool k then release (pipe_lock pi) ;; ret false else
        sleep (pipe_nread_chan pi) (pipe_lock pi) ;;
        piperead_wait fuel' pr pi
      else ret true
  end.

Fixpoint piperead_copy (m : nat) (pr : nat) (pi addr i : Z) : K Z :=
  match m with
  | O => ret i
  | S m' =>
      let! p := getpi pi id in
      if pipe_empty p then ret i else
      let ch := p.(pi_data) !!! pipe_index p.(pi_nread) in
      setpi pi (fun p => set_pi_nread (u32 (p.(pi_nread) + 1)) p) ;;
      let! pt := getp pr p_pagetable in
      let! r := copyout pt (u64 (addr + i)) [ch] in
      if r =? -1 then ret i else piperead_copy m' pr pi addr (i + 1)
  end.

Definition piperead (pi addr n : Z) : K Z :=
  let! pr := curproc in
  acquire (pipe_lock pi) ;;
  let! ok := piperead_wait wait_fuel pr pi in
  if negb ok then ret (-1) else
  let! i := piperead_copy (Z.to_nat n) pr pi addr 0 in
  wakeup (Some (pipe_nwrite_chan pi)) ;;
  release (pipe_lock pi) ;;
  ret i.

(** ** file.c: stat, read and write *)

(** The bytes of a [struct stat]. *)
Definition stat_bytes (st : stat) : list Z :=
  le_encode 4 st.(st_dev) ++ le_encode 4 st.(st_ino) ++ le_encode 2 st.(st_type) ++
  le_encode 2 st.(st_nlink) ++ stat_pad ++ le_encode 8 st.(st_size).

Definition filestat (f : nat) (addr : Z) : K Z :=
  let! p := curproc in
  let! ff := getf f id in
  match ff.(f_type) with
  | FD_INODE | FD_DEVICE =>
      ilock ff.(f_ip) ;;
      deref ff.(f_ip) (fun ip =>
        let! st := stati ip in
        iunlock (Some ip) ;;
        let! pt := getp p p_pagetable in
        let! r := copyout pt addr (stat_bytes st) in
        if r <? 0 then ret (-1) else ret 0)
  | _ => ret (-1)
  end.

(** [devsw[major].read], if the device has one. *)
Definition dev_fn (sel : devsw -> option devfn) (major : Z) : K (option devfn) :=
  if (major <? 0) || (major >=? NDEV) then ret None
  else get (fun s => sel (s.(k_devsw) !!! Z.to_nat major)).

Definition fileread (f : nat) (addr n : Z) : K Z :=
  let! ff := getf f id in
  if negb ff.(f_readable) then ret (-1) else
  match ff.(f_type) with
  | FD_PIPE => piperead ff.(f_pipe) addr n
  | FD_DEVICE =>
      let! d := dev_fn d_read ff.(f_major) in
      match d with
      | None => ret (-1)
      | Some DEV_CONSOLE => let! r := consoleread (ToUser addr) n in ret (fst r)
      end
  | FD_INODE =>
      ilock ff.(f_ip) ;;
      deref ff.(f_ip) (fun ip =>
        let! off := getf f f_off in
        let! r := readi ip (ToUser addr) off (u32 n) in
        when (fst r >? 0) (setf f (fun x => set_f_off (u32 (x.(f_off) + fst r)) x)) ;;
        iunlock (Some ip) ;;
        ret (fst r))
  | FD_NONE => panic "fileread"
  end.

(** The number of bytes [filewrite] writes in one transaction. *)
Definition filewrite_max : Z := ((MAXOPBLOCKS - 1 - 1 - 2) / 2) * BSIZE.

Fixpoint filewrite_loop (fuel : nat) (f : nat) (fip : option nat) (addr n i : Z) : K Z :=
  if i <? n then
    match fuel with
    | O => fun _ => OutOfFuel
    | S fuel' =>
        let n1 := Z.min (n - i) filewrite_max in
        begin_op ;;
        ilock fip ;;
        deref fip (fun ip =>
          let! off := getf f f_off in
          let! r := writei ip (FromUser (u64 (addr + i))) off (u32 n1) in
          when (r >? 0) (setf f (fun x => set_f_off (u32 (x.(f_off) + r)) x)) ;;
          iunlock (Some ip) ;;
          end_op ;;
          if negb (r =? n1) then ret i
          else filewrite_loop fuel' f fip addr n (i + r))
    end
  else ret i.

Definition filewrite (f : nat) (addr n : Z) : K Z :=
  let! ff := getf f id in
  if negb ff.(f_writable) then ret (-1) else
  match ff.(f_type) with
  | FD_PIPE => pipewrite ff.(f_pipe) addr n
  | FD_DEVICE =>
      let! d := dev_fn d_write ff.(f_major) in
      match d with
      | None => ret (-1)
      | Some DEV_CONSOLE => consolewrite (FromUser addr) n
      end
  | FD_INODE =>
      (* write a few blocks at a time to avoid exceeding the maximum log
         transaction size. *)
      let! i := filewrite_loop (Z.to_nat (n / filewrite_max + 1)) f ff.(f_ip) addr n 0 in
      ret (if i =? n then n else -1)
  | FD_NONE => panic "filewrite"
  end.

End File.

(** * The table of open files (file.c): reference counts

    [filealloc], [filedup] and [fileclose] on [ftable]; duplicating the open
    files of a process. *)

(** ** Duplicating files *)

Definition ref_file (d : Z) (x : file) : file := set_f_ref (x.(f_ref) + d) x.

(** What [filedup] of the files [ofs] does to the table. *)
Definition dup_file (ft : list file) (o : option nat) : list file :=
  match o with Some f => alter (ref_file 1) f ft | None => ft end.
Definition dup_files (ofs : list (option nat)) (ft : list file) : list file := fold_left dup_file ofs ft.

(** The open files [ofs] are entries of the table that are in use. *)
Definition files_ok (ofs : list (option nat)) (ft : list file) : Prop :=
  forall f, Some f ∈ ofs -> exists x, ft !! f = Some x /\ 1 <= x.(f_ref).

Definition occurs (f : nat) (ofs : list (option nat)) : Z :=
  Z.of_nat (length (filter (fun o => o = Some f) ofs)).

Lemma dup_file_lookup ft o f :
  dup_file ft o !! f = ref_file (if decide (o = Some f) then 1 else 0) <$> ft !! f.
Proof.
  assert (forall x, ref_file 0 x = x) as H0 by (intros x; unfold ref_file; rewrite Z.add_0_r; done).
  destruct o as [g|]; cbn [dup_file].
  - rewrite list_lookup_alter. destruct (decide (g = f)) as [->|Hne].
    + by rewrite decide_True.
    + rewrite decide_False by congruence. destruct (ft !! f); [|done]. cbn. by rewrite H0.
  - destruct (ft !! f); [|done]. cbn. by rewrite H0.
Qed.

(** Each file gains as many references as it occurs. *)
Lemma dup_files_lookup ofs : forall ft f, dup_files ofs ft !! f = ref_file (occurs f ofs) <$> ft !! f.
Proof.
  induction ofs as [|o ofs IH]; intros ft f.
  - cbn. destruct (ft !! f) as [x|]; [|done]. cbn. unfold ref_file. by rewrite Z.add_0_r.
  - change (dup_files (o :: ofs) ft) with (dup_files ofs (dup_file ft o)). rewrite IH, dup_file_lookup.
    destruct (ft !! f) as [x|]; [|done]. cbn. f_equal. unfold occurs. rewrite filter_cons.
    case_decide as E; cbn [length].
    + unfold ref_file. cbn. rewrite Nat2Z.inj_succ, <- Z.add_1_l, Z.add_assoc. done.
    + unfold ref_file. cbn. by rewrite Z.add_0_r.
Qed.

Lemma length_dup_file ft o : length (dup_file ft o) = length ft.
Proof. destruct o; [apply length_alter|done]. Qed.

Lemma files_ok_dup ofs ft o : files_ok ofs ft -> files_ok ofs (dup_file ft o).
Proof.
  intros H f Hf. destruct (H f Hf) as (x & Hx & Hr). rewrite dup_file_lookup, Hx. cbn. eexists. split; [done|].
  unfold ref_file. cbn. case_decide; lia.
Qed.

(** ** The operations *)

Section FileSpec.
Context {I : KernelImage} {F : WaitFuel} {Disk : BlockDev} {SP : StatPad}.

(** [filedup] while another lock is held. *)
Lemma filedup_inside f x s :
  0 < s.(k_hart).(c_noff) -> hart_ok s.(k_hart) -> s.(k_locks) !! ftable_lock = None ->
  s.(k_ftable) !! f = Some x -> 1 <= x.(f_ref) ->
  filedup f s = Ret f (set_ftable (dup_file s.(k_ftable) (Some f)) s).
Proof.
  intros Hn Hok Hl Hx Hr. unfold filedup. erewrite bind_Ret by (by apply acquire_free).
  assert (file_at (acquired ftable_lock s) f = x) as Ex by (by apply list_lookup_total_correct).
  erewrite (bind_Ret (getf f f_ref) _ _ (f_ref x)) by (unfold getf, get; by rewrite Ex).
  rewrite (proj2 (Z.ltb_ge _ _)) by lia.
  set (t := set_ftable (dup_file s.(k_ftable) (Some f)) s).
  erewrite (bind_Ret (setf f _) _ _ tt (acquired ftable_lock t)).
  - erewrite bind_Ret; [done|]. by apply (release_inside ftable_lock t).
  - unfold setf, modify, upd_file. f_equal. unfold t. cbn [dup_file].
    assert (alter (set_f_ref (f_ref x + 1)) f (k_ftable s) = alter (ref_file 1) f (k_ftable s)) as <-; [|done].
    apply alter_agree. intros y Hy. unfold ref_file. congruence.
Qed.

End FileSpec.
