(* ===== verification/PipeSpec.v ===== *)
(** * Pipes (pipe.c): a bounded FIFO of bytes

    [contents q]: the bytes in the ring of [q], oldest first. The counters
    [nread] and [nwrite] wrap around at [2 ^ 32]. *)

From S2P Require Import Prelude Params Mem State Spinlock CString Kalloc Vm PageTable VmSpec UvmSpec.
From S2P Require Import UvmProps CopySpec VmDemo Proc ProcSpec Sleeplock Uart Printf Console.
From S2P Require Import Bio BioSpec Log Fs File.

(** ** The ring *)

Definition fill (q : pipe) : Z := u32 (q.(pi_nwrite) - q.(pi_nread)).

Definition contents (q : pipe) : list Z :=
  map (fun i => q.(pi_data) !!! pipe_index (q.(pi_nread) + i)) (zrange 0 (Z.to_nat (fill q))).

Record pipe_ok (q : pipe) : Prop := {
  po_len : length q.(pi_data) = Z.to_nat PIPESIZE;
  po_bytes : Forall (fun b => 0 <= b < 256) q.(pi_data);
  po_nread : 0 <= q.(pi_nread) < 2 ^ 32;
  po_nwrite : 0 <= q.(pi_nwrite) < 2 ^ 32;
  po_fill : fill q <= PIPESIZE;
}.

Lemma pipe_index_u32 n : pipe_index (u32 n) = pipe_index n.
Proof.
  unfold pipe_index, u32. f_equal. change PIPESIZE with (2 ^ 9).
  rewrite <- (Z.mod_mod_divide n (2 ^ 32) (2 ^ 9)); [done|]. exists (2 ^ 23). done.
Qed.

Lemma pipe_index_lt n : (pipe_index n < Z.to_nat PIPESIZE)%nat.
Proof. unfold pipe_index. pose proof (Z.mod_pos_bound n PIPESIZE ltac:(done)). lia. Qed.

(** Slots that are fewer than [PIPESIZE] apart are different. *)
Lemma pipe_index_ne n i j :
  0 <= i < PIPESIZE -> 0 <= j < PIPESIZE -> i <> j -> pipe_index (n + i) <> pipe_index (n + j).
Proof.
  intros Hi Hj Hne E. unfold pipe_index in E. change PIPESIZE with 512 in *.
  pose proof (Z.mod_pos_bound (n + i) 512). pose proof (Z.mod_pos_bound (n + j) 512).
  assert ((n + i) mod 512 = (n + j) mod 512) as E' by lia.
  pose proof (Z.div_mod (n + i) 512). pose proof (Z.div_mod (n + j) 512).
  assert (i - j = 512 * ((n + i) / 512 - (n + j) / 512)) by lia. lia.
Qed.

Lemma fill_range q : 0 <= fill q < 2 ^ 32.
Proof. apply Z.mod_pos_bound. done. Qed.

Lemma length_contents q : length (contents q) = Z.to_nat (fill q).
Proof. unfold contents. by rewrite length_map, length_zrange. Qed.

Lemma pipe_empty_spec q : pipe_ok q -> pipe_empty q = true <-> contents q = [].
Proof.
  intros [_ _ Hr Hw _]. unfold pipe_empty. rewrite Z.eqb_eq.
  assert (q.(pi_nread) = q.(pi_nwrite) <-> fill q = 0) as ->.
  { unfold fill, u32. split; [intros ->; by rewrite Z.sub_diag|]. intros H.
    apply Z.mod_divide in H as [k H]; [|done]. lia. }
  pose proof (fill_range q). pose proof (length_contents q) as Hl. split.
  - intros E. rewrite E in Hl. by destruct (contents q).
  - intros E. rewrite E in Hl. simpl in Hl. lia.
Qed.

Lemma pipe_full_spec q : pipe_ok q -> pipe_full q = true <-> fill q = PIPESIZE.
Proof.
  intros [_ _ Hr Hw Hf]. unfold pipe_full. rewrite Z.eqb_eq. unfold fill, u32 in *. change PIPESIZE with 512 in *.
  split; intros H.
  - rewrite H. rewrite Zminus_mod_idemp_l. by replace (pi_nread q + 512 - pi_nread q) with 512 by lia.
  - replace (pi_nread q + 512) with (pi_nwrite q + (512 - (pi_nwrite q - pi_nread q))) by lia.
    rewrite <- Zplus_mod_idemp_r, Zminus_mod, H. change ((512 mod 2 ^ 32 - 512) mod 2 ^ 32) with 0.
    rewrite Z.add_0_r. symmetry. by apply Z.mod_small.
Qed.

(** Writing a byte. *)
Lemma pipe_put_ok ch q :
  pipe_ok q -> fill q < PIPESIZE -> 0 <= ch < 256 ->
  pipe_ok (pipe_put ch q) /\ contents (pipe_put ch q) = contents q ++ [ch].
Proof.
  intros [Hl Hb Hr Hw Hf] Hlt Hch. pose proof (fill_range q) as Hfr.
  assert (fill (pipe_put ch q) = fill q + 1) as Ef.
  { unfold fill, pipe_put, u32 in *. cbn. rewrite Zminus_mod_idemp_l.
    replace (pi_nwrite q + 1 - pi_nread q) with (pi_nwrite q - pi_nread q + 1) by lia.
    rewrite <- Zplus_mod_idemp_l. apply Z.mod_small. change PIPESIZE with 512 in *. lia. }
  assert (pipe_index q.(pi_nwrite) = pipe_index (q.(pi_nread) + fill q)) as Ei.
  { unfold fill. rewrite <- (pipe_index_u32 (pi_nread q + _)). unfold u32. rewrite Zplus_mod_idemp_r.
    replace (pi_nread q + (pi_nwrite q - pi_nread q)) with (pi_nwrite q) by lia.
    by rewrite Z.mod_small. }
  split.
  - constructor; [| | | |lia]; unfold pipe_put; cbn.
    + by rewrite length_insert.
    + by apply Forall_insert.
    + done.
    + apply Z.mod_pos_bound. done.
  - unfold contents. rewrite Ef, Z2Nat.inj_add by lia. rewrite Nat.add_1_r, zrange_snoc, map_app. f_equal.
    + apply map_ext_in. intros i Hi. apply list_elem_of_In, elem_of_zrange in Hi.
      unfold pipe_put. cbn. rewrite Ei, !list_lookup_total_alt. rewrite list_lookup_insert_ne; [done|].
      apply pipe_index_ne; lia.
    + cbn [map]. f_equal. unfold pipe_put. cbn. rewrite Ei, Z2Nat.id by lia. rewrite !list_lookup_total_alt.
      rewrite list_lookup_insert_eq; [done|]. rewrite Hl. apply pipe_index_lt.
Qed.

(** Reading a byte. *)
Definition pipe_get (q : pipe) : pipe := set_pi_nread (u32 (q.(pi_nread) + 1)) q.

Lemma pipe_get_ok ch c q :
  pipe_ok q -> contents q = ch :: c ->
  pipe_ok (pipe_get q) /\ contents (pipe_get q) = c /\ 0 <= ch < 256 /\
  q.(pi_data) !!! pipe_index q.(pi_nread) = ch.
Proof.
  intros [Hl Hb Hr Hw Hf] Hc. pose proof (fill_range q) as Hfr. pose proof (length_contents q) as Hlen.
  rewrite Hc in Hlen. simpl in Hlen.
  assert (fill (pipe_get q) = fill q - 1) as Ef.
  { unfold fill, pipe_get, u32 in *. cbn. rewrite Zminus_mod_idemp_r.
    replace (pi_nwrite q - (pi_nread q + 1)) with (pi_nwrite q - pi_nread q - 1) by lia.
    rewrite <- Zminus_mod_idemp_l. apply Z.mod_small. lia. }
  assert (Z.to_nat (fill q) = S (Z.to_nat (fill q - 1))) as En by lia.
  assert (contents q = q.(pi_data) !!! pipe_index q.(pi_nread) ::
    map (fun i => q.(pi_data) !!! pipe_index (q.(pi_nread) + i)) (zrange (0 + 1) (Z.to_nat (fill q - 1)))) as Ec.
  { unfold contents. rewrite En. cbn [zrange map]. by rewrite Z.add_0_r. }
  rewrite Hc in Ec. injection Ec as Ech Ec.
  assert (0 <= ch < 256) as Hch.
  { rewrite Ech. apply (Forall_lookup_1 (fun b => 0 <= b < 256) _ (pipe_index q.(pi_nread)) _ Hb).
    apply list_lookup_lookup_total_lt. rewrite Hl. apply pipe_index_lt. }
  refine (conj _ (conj _ (conj Hch _))).
  - constructor; [done|done| |done|lia]. unfold pipe_get. cbn. apply Z.mod_pos_bound. done.
  - rewrite Ec. unfold contents. rewrite Ef.
    assert (forall m a, map (fun i => q.(pi_data) !!! pipe_index (q.(pi_nread) + i)) (zrange (a + 1) m) =
      map (fun i => (pipe_get q).(pi_data) !!! pipe_index ((pipe_get q).(pi_nread) + i)) (zrange a m)) as Hm; [|by rewrite Hm].
    induction m as [|m IH]; intros a; [done|]. cbn [zrange map]. rewrite IH. f_equal.
    unfold pipe_get. cbn. f_equal. rewrite <- (pipe_index_u32 (u32 _ + a)). unfold u32.
    rewrite Zplus_mod_idemp_l. fold (u32 (pi_nread q + 1 + a)). rewrite pipe_index_u32. f_equal. lia.
  - done.
Qed.

(** ** The operations *)

Section PipeOps.
Context {I : KernelImage} {L : KernelLayout I} {F : WaitFuel} {Disk : BlockDev} {SP : StatPad}.

(** Process [p] with root page table [root] uses pipe [pi]. *)
Record pipe_user (p : nat) (pi root sz : Z) (l : list Z) (q : pipe) (s : kstate) : Prop := {
  pu_calm : calm p s;
  pu_space : uspace s root sz l;
  pu_root : (proc_at s p).(p_pagetable) = root;
  pu_alive : (proc_at s p).(p_killed) = 0;
  pu_pipe : s.(k_pipes) !! pi = Some q;
  pu_ok : pipe_ok q;
}.

Lemma pu_lookup p pi root sz l q s : pipe_user p pi root sz l q s -> s.(k_pipes) !!! pi = q.
Proof. intros H. apply lookup_total_correct, H. Qed.

Lemma getpi_eq {A} p pi root sz l q s (f : pipe -> A) :
  pipe_user p pi root sz l q s -> getpi pi f s = Ret (f q) s.
Proof. intros H. unfold getpi, get. by rewrite (pu_lookup _ _ _ _ _ _ _ H). Qed.

Lemma setpi_eq p pi root sz l q s f :
  pipe_user p pi root sz l q s -> setpi pi f s = Ret tt (set_pipes (<[pi := f q]> s.(k_pipes)) s).
Proof. intros H. unfold setpi, modify, upd_pipe. by rewrite (pu_lookup _ _ _ _ _ _ _ H). Qed.

Lemma pipe_user_set p pi root sz l q q' s :
  pipe_user p pi root sz l q s -> pipe_ok q' ->
  pipe_user p pi root sz l q' (set_pipes (<[pi := q']> s.(k_pipes)) s).
Proof.
  intros [Hc Hs Hr Ha Hp _] Hq'. constructor; [by apply (calm_ext p s)| |done|done| |done].
  - apply (uspace_ext s); try done; [apply (vr_kmem _ _ _ (uv_rep _ _ _ _ (us_uvm _ _ _ _ Hs)))|apply Hc].
  - apply lookup_insert_eq.
Qed.

Lemma pipe_user_mem p pi root sz l q s m :
  pipe_user p pi root sz l q s -> uspace (set_mem m s) root sz l -> pipe_user p pi root sz l q (set_mem m s).
Proof. intros [Hc _ Hr Ha Hp Hq] Hs. constructor; try done. by apply (calm_ext p s). Qed.

Lemma ubyte_range m root va : 0 <= ubyte m root va < 256.
Proof. apply load8_range. Qed.

(** The loop of [pipewrite] while there is room. *)
Lemma pipewrite_loop_ok p pi root sz l addr n k : forall fuel i q s,
  pipe_user p pi root sz l q s -> q.(pi_readopen) = true ->
  0 <= i -> n = i + Z.of_nat k -> (k <= fuel)%nat -> fill q + Z.of_nat k <= PIPESIZE ->
  0 <= addr -> addr + n <= 2 ^ 64 - PGSIZE ->
  (forall j, i <= j < n -> readable s.(k_mem) root (addr + j)) ->
  exists q', pipewrite_loop fuel p pi addr n i s =
      Ret (Some n) (set_pipes (<[pi := q']> s.(k_pipes)) s) /\ pipe_ok q' /\
    contents q' = contents q ++ ubytes s.(k_mem) root (addr + i) k /\
    q'.(pi_readopen) = q.(pi_readopen) /\ q'.(pi_writeopen) = q.(pi_writeopen).
Proof using L.
  induction k as [|k IH]; intros fuel i q s Hu Hro Hi Hn Hf Hroom Ha Hhi Hread.
  - exists q. split; [|split; [apply Hu|]; split; [by rewrite app_nil_r|done]].
    assert (set_pipes (<[pi := q]> s.(k_pipes)) s = s) as ->.
    { rewrite insert_id by apply Hu. done. }
    replace i with n by lia. destruct fuel; cbn [pipewrite_loop]; by rewrite Z.ltb_irrefl.
  - destruct fuel as [|fuel]; [lia|]. cbn [pipewrite_loop]. rewrite (proj2 (Z.ltb_lt _ _)) by lia.
    erewrite bind_Ret by (by eapply getpi_eq). rewrite Hro. cbn [negb].
    erewrite bind_Ret.
    2:{ erewrite bind_Ret by (by eapply killed_calm, Hu). rewrite (pu_alive _ _ _ _ _ _ _ Hu). done. }
    change (cbool 0) with false. cbv iota. erewrite bind_Ret by (by eapply getpi_eq).
    assert (pipe_full q = false) as ->.
    { destruct (pipe_full q) eqn:E; [|done]. apply pipe_full_spec in E; [lia|apply Hu]. }
    rewrite (bind_Ret (getp p p_pagetable) _ s root s).
    2:{ unfold getp, get. by rewrite <- (pu_root _ _ _ _ _ _ _ Hu). }
    assert (u64 (addr + i) = addr + i) as -> by (unfold u64; apply Z.mod_small; unfold PGSIZE in *; lia).
    destruct (copyin_loop_ok 1 root sz (addr + i) 1 [] s l (pu_space _ _ _ _ _ _ _ Hu)) as (r & bs & Hr & Hres);
      [lia|lia|lia|].
    change (Z.of_nat 1) with 1 in Hr. erewrite bind_Ret by exact Hr.
    destruct Hres as [(-> & -> & _)|(-> & j & Hj & Hnr)].
    2:{ exfalso. apply Hnr. replace (addr + i + j) with (addr + i) by lia. apply Hread. lia. }
    cbn [fst snd app]. change (0 =? -1) with false. cbv iota.
    change (ubytes (k_mem s) root (addr + i) 1) with [ubyte (k_mem s) root (addr + i + 0)].
    rewrite Z.add_0_r. cbn [hd]. set (ch := ubyte (k_mem s) root (addr + i)).
    pose proof (length_contents q). pose proof (fill_range q).
    destruct (pipe_put_ok ch q) as [Hok' Hc']; [apply Hu|lia|apply ubyte_range|].
    erewrite bind_Ret by (by eapply setpi_eq).
    pose proof (pipe_user_set p pi root sz l q (pipe_put ch q) s Hu Hok') as Hu'.
    assert (fill (pipe_put ch q) = fill q + 1) as Efill.
    { pose proof (length_contents (pipe_put ch q)) as Hl. rewrite Hc', length_app in Hl. cbn [length] in Hl.
      pose proof (fill_range (pipe_put ch q)). lia. }
    destruct (IH fuel (i + 1) (pipe_put ch q) _ Hu') as (q' & Hr' & Hq' & Hc2 & E1 & E2); try done; try lia.
    { intros j Hj. apply Hread. lia. }
    exists q'. split.
    { etransitivity; [exact Hr'|]. f_equal. kext. ksimpl. by rewrite insert_insert_eq. }
    split; [done|]. split; [|split; [exact (eq_trans E1 Hro)|exact E2]]. rewrite Hc2, Hc', <- app_assoc. f_equal.
    change (S k) with (1 + k)%nat. rewrite ubytes_app.
    change (ubytes (k_mem s) root (addr + i) 1) with [ubyte (k_mem s) root (addr + i + 0)].
    rewrite Z.add_0_r. cbn [app]. f_equal. by rewrite Z.add_assoc.
Qed.

(** The loop of [piperead]. *)
Lemma piperead_copy_ok p pi root sz l addr m : forall i q s,
  pipe_user p pi root sz l q s -> 0 <= i -> 0 <= addr ->
  addr + i + Z.of_nat m <= 2 ^ 64 - PGSIZE ->
  (forall j, (j < length (take m (contents q)))%nat -> writable s.(k_mem) root (addr + i + Z.of_nat j)) ->
  let bs := take m (contents q) in
  exists q' m', piperead_copy m p pi addr i s =
      Ret (i + Z.of_nat (length bs)) (set_mem m' (set_pipes (<[pi := q']> s.(k_pipes)) s)) /\
    pipe_ok q' /\ contents q' = drop m (contents q) /\
    q'.(pi_readopen) = q.(pi_readopen) /\ q'.(pi_writeopen) = q.(pi_writeopen) /\
    uspace (set_mem m' s) root sz l /\ copied_to s.(k_mem) root (addr + i) bs m' /\
    (forall j b, bs !! j = Some b -> load8 m' (uaddr s.(k_mem) root (addr + i + Z.of_nat j)) = b).
Proof using L.
  induction m as [|m IH]; intros i q s Hu Hi Ha Hhi Hw bs.
  { exists q, s.(k_mem). cbn [piperead_copy]. unfold bs. rewrite take_0, drop_0. cbn [length]. rewrite Z.add_0_r.
    split_and!; [|apply Hu|done|done|done|apply Hu|apply changed_in_refl|done].
    unfold ret. by rewrite insert_id by apply Hu. }
  cbn [piperead_copy]. erewrite bind_Ret by (by eapply getpi_eq).
  change (id q) with q. destruct (contents q) as [|ch c] eqn:Ec.
  { rewrite (proj2 (pipe_empty_spec q (pu_ok _ _ _ _ _ _ _ Hu))) by done. exists q, s.(k_mem).
    unfold bs. rewrite take_nil. cbn [length]. rewrite Z.add_0_r.
    split_and!; [|apply Hu|done|done|done|apply Hu|apply changed_in_refl|done].
    unfold ret. by rewrite insert_id by apply Hu. }
  assert (pipe_empty q = false) as ->.
  { destruct (pipe_empty q) eqn:E; [|done]. apply pipe_empty_spec in E; [congruence|apply Hu]. }
  destruct (pipe_get_ok ch c q (pu_ok _ _ _ _ _ _ _ Hu) Ec) as (Hok' & Hc' & Hch & Hd).
  rewrite Hd. erewrite bind_Ret by (by eapply setpi_eq).
  fold (pipe_get q). pose proof (pipe_user_set p pi root sz l q (pipe_get q) s Hu Hok') as Hu1.
  set (s1 := set_pipes (<[pi := pipe_get q]> s.(k_pipes)) s) in *.
  rewrite (bind_Ret (getp p p_pagetable) _ s1 root s1).
  2:{ unfold getp, get. by rewrite <- (pu_root _ _ _ _ _ _ _ Hu1). }
  assert (u64 (addr + i) = addr + i) as -> by (unfold u64; apply Z.mod_small; unfold PGSIZE in *; lia).
  destruct (copyout_loop_ok 1 root sz (addr + i) [ch] s1 l (pu_space _ _ _ _ _ _ _ Hu1))
    as (r & m1 & Hr & Hs1 & Hp1 & Hcp1 & Hres); [lia|simpl; lia|simpl; lia|by apply Forall_singleton|].
  erewrite bind_Ret by exact Hr.
  destruct Hres as [(-> & Hv1)|(-> & j & Hj & Hnw)].
  2:{ exfalso. apply Hnw. apply Hw. cbn [take length] in *. lia. }
  change (0 =? -1) with false. cbv iota. change (k_mem s1) with (k_mem s) in *.
  pose proof (pipe_user_mem p pi root sz l _ s1 m1 Hu1 Hs1) as Hu2.
  destruct (IH (i + 1) (pipe_get q) (set_mem m1 s1) Hu2) as (q' & m2 & Hr2 & Hq' & Hc2 & E1 & E2 & Hs2 & Hcp2 & Hv2);
    [lia|done|lia| |].
  { intros j Hj. rewrite Hc' in Hj. change (k_mem (set_mem m1 s1)) with m1. rewrite (writable_pte _ _ _ _ Hp1).
    replace (addr + (i + 1) + Z.of_nat j) with (addr + i + Z.of_nat (S j)) by lia. apply Hw. cbn [take length]. lia. }
  rewrite Hc' in *. change (k_mem (set_mem m1 s1)) with m1 in *.
  exists q', m2. unfold bs. cbn [take drop length]. split_and!; try done.
  - etransitivity; [exact Hr2|]. replace (i + 1 + Z.of_nat (length (take m c))) with (i + Z.of_nat (S (length (take m c)))) by lia.
    f_equal. kext. unfold s1. ksimpl. by rewrite insert_insert_eq.
  - apply (uspace_ext (set_mem m2 (set_mem m1 s1))); try done; [|apply Hu].
    apply (vr_kmem _ _ _ (uv_rep _ _ _ _ (us_uvm _ _ _ _ (pu_space _ _ _ _ _ _ _ Hu)))).
  - change (ch :: take m c) with ([ch] ++ take m c). eapply copied_to_app; [exact Hp1|exact Hcp1|].
    change (Z.of_nat (length [ch])) with 1. by replace (addr + i + 1) with (addr + (i + 1)) by lia.
  - intros j b Hj. destruct j as [|j].
    + injection Hj as <-. destruct (Hv1 0%nat ch eq_refl) as [Hw0 <-]. apply Hcp2.
      intros (j & Hj & Hwj & E). rewrite (uaddr_pte _ _ _ _ Hp1), (writable_pte _ _ _ _ Hp1) in *.
      apply (uaddr_inj s root sz l (pu_space _ _ _ _ _ _ _ Hu)) in E; [lia|lia|lia|apply Hw0|apply Hwj].
    + rewrite <- (Hv2 j b Hj). rewrite (uaddr_pte _ _ _ _ Hp1). do 2 f_equal. lia.
Qed.

Lemma pipe_user_acquired p pi root sz l q s :
  pipe_user p pi root sz l q s -> pipe_user p pi root sz l q (acquired (pipe_lock pi) s).
Proof using Type.
  intros [Hc Hs Hr Ha Hp Hq]. constructor; try done.
  - by apply calm_acquired.
  - apply (uspace_ext s); try done; [|by apply (calm_acquired p s)].
    unfold acquired. ksimpl. rewrite lookup_insert_ne by done.
    apply (vr_kmem _ _ _ (uv_rep _ _ _ _ (us_uvm _ _ _ _ Hs))).
Qed.

(** How both operations end. *)
Lemma pipe_finish p pi ch (r : Z) s :
  calm p s -> s.(k_locks) !! pipe_lock pi = None ->
  (wakeup ch ;; release (pipe_lock pi) ;; ret r) (acquired (pipe_lock pi) s) =
    Ret r (set_procs (wake_all ch (Some p) s.(k_procs)) s).
Proof using Type.
  intros Hc Hlk. assert (calm p (acquired (pipe_lock pi) s)) as Hc' by (by apply calm_acquired).
  erewrite bind_Ret by (by apply (wakeup_calm p (acquired (pipe_lock pi) s))).
  set (s3 := set_procs (wake_all ch (Some p) s.(k_procs)) s).
  assert (calm p s3) as Hc3 by (apply (calm_ext p s); try done; apply length_wake_all).
  by erewrite bind_Ret by (by apply (release_inner p s3)).
Qed.

(** [C26] A pipe is a FIFO of bytes: [pipewrite] appends the bytes of the user's buffer, in order, when
    there is room for them, and wakes the readers; [piperead] of a pipe that is not empty, or
    whose write end is closed, delivers the oldest bytes to the user's buffer, as many as
    asked for and as there are, removes them, and wakes the writers. *)
Theorem pipe_fifo p pi root sz l q s addr n :
  (0 < wait_fuel)%nat -> pipe_user p pi root sz l q s -> s.(k_locks) !! pipe_lock pi = None ->
  0 <= n -> 0 <= addr -> addr + n <= 2 ^ 64 - PGSIZE ->
  (q.(pi_readopen) = true -> fill q + n <= PIPESIZE ->
   (forall j, 0 <= j < n -> readable s.(k_mem) root (addr + j)) ->
   exists q', pipewrite pi addr n s = Ret n
       (set_procs (wake_all (Some (pipe_nread_chan pi)) (Some p) s.(k_procs))
         (set_pipes (<[pi := q']> s.(k_pipes)) s)) /\
     pipe_ok q' /\ contents q' = contents q ++ ubytes s.(k_mem) root addr (Z.to_nat n)) /\
  (contents q <> [] \/ q.(pi_writeopen) = false ->
   let bs := take (Z.to_nat n) (contents q) in
   (forall j, (j < length bs)%nat -> writable s.(k_mem) root (addr + Z.of_nat j)) ->
   exists q' m', piperead pi addr n s = Ret (Z.of_nat (length bs))
       (set_procs (wake_all (Some (pipe_nwrite_chan pi)) (Some p) s.(k_procs))
         (set_mem m' (set_pipes (<[pi := q']> s.(k_pipes)) s))) /\
     pipe_ok q' /\ contents q = bs ++ contents q' /\ copied_to s.(k_mem) root addr bs m' /\
     forall j b, bs !! j = Some b -> load8 m' (uaddr s.(k_mem) root (addr + Z.of_nat j)) = b).
Proof using L.
  intros Hfuel Hu Hlk Hn Ha Hhi. pose proof (pu_calm _ _ _ _ _ _ _ Hu) as Hc.
  pose proof (pipe_user_acquired _ _ _ _ _ _ _ Hu) as Hu1. set (s1 := acquired (pipe_lock pi) s) in *.
  split.
  - intros Hro Hroom Hread.
    destruct (pipewrite_loop_ok p pi root sz l addr n (Z.to_nat n) (Z.to_nat n + wait_fuel) 0 q s1 Hu1)
      as (q' & Hr & Hq' & Hcq & _); try done; [lia|lia|lia|].
    rewrite Z.add_0_r in Hcq. exists q'. split; [|done]. unfold pipewrite.
    erewrite bind_Ret by (by apply curproc_calm). erewrite bind_Ret by (by apply acquire_free).
    erewrite bind_Ret by exact Hr. cbv beta iota. set (s2 := set_pipes (<[pi := q']> s.(k_pipes)) s).
    assert (calm p s2) as Hc2 by (by apply (calm_ext p s)).
    by apply (pipe_finish p pi _ n s2).
  - intros Hne bs Hw.
    destruct (piperead_copy_ok p pi root sz l addr (Z.to_nat n) 0 q s1 Hu1) as (q' & m' & Hr & Hq' & Hcq & _ & _ & _ & Hcp & Hv);
      [lia|done|lia|by rewrite Z.add_0_r|].
    fold bs in Hr, Hcp, Hv. rewrite Z.add_0_r in Hcp, Hv. rewrite Z.add_0_l in Hr. exists q', m'. split_and!; try done.
    + unfold piperead. erewrite bind_Ret by (by apply curproc_calm). erewrite bind_Ret by (by apply acquire_free).
      erewrite (bind_Ret _ _ _ true s1).
      2:{ destruct wait_fuel as [|f]; [lia|]. cbn [piperead_wait]. erewrite bind_Ret by (by eapply getpi_eq).
          change (id q) with q.
          assert (pipe_empty q && pi_writeopen q = false) as ->; [|done]. apply andb_false_iff.
          destruct Hne as [Hne|Hne]; [left|by right]. destruct (pipe_empty q) eqn:E; [|done].
          by apply pipe_empty_spec in E; [|apply Hu]. }
      cbn [negb]. erewrite bind_Ret by exact Hr. set (s2 := set_mem m' (set_pipes (<[pi := q']> s.(k_pipes)) s)).
      assert (calm p s2) as Hc2 by (by apply (calm_ext p s)).
      by apply (pipe_finish p pi _ _ s2).
    + rewrite Hcq. unfold bs. symmetry. apply take_drop.
Qed.

End PipeOps.

(** ** A concrete pipe *)

#[local] Existing Instance demo_image16.
#[local] Instance demo_layout16 : KernelLayout demo_image16.
Proof. split; vm_compute; repeat split; discriminate. Qed.
#[local] Instance demo_fuel : WaitFuel := 1%nat.

(** Two bytes, on both sides of the wrap-around of the counters and of the ring. *)
Definition demo_pipe : pipe :=
  {| pi_data := 66 :: replicate 510 0 ++ [65]; pi_nread := 2 ^ 32 - 1; pi_nwrite := 1;
     pi_readopen := true; pi_writeopen := true |}.

Definition demo_piped (s : kstate) : kstate :=
  set_pipes {[ 7 := demo_pipe ]}
    (set_procs (set_p_pagetable demo_root (set_p_state RUNNING inhabitant) :: replicate 63 inhabitant)
      (set_locks ∅ (set_hart (set_c_proc (Some 0%nat) inhabitant) s))).

Lemma demo_pipe_ok : pipe_ok demo_pipe.
Proof.
  constructor; try (vm_compute; intuition discriminate).
  - apply Forall_cons. split; [lia|]. apply Forall_app. split; [|repeat constructor; lia].
    apply Forall_replicate. lia.
Qed.

Lemma demo_piped_user s sz l : uspace s demo_root sz l -> pipe_user 0 7 demo_root sz l demo_pipe (demo_piped s).
Proof.
  intros Hs. assert (calm 0 (demo_piped s)) as Hc.
  { constructor; [split; vm_compute; [intuition discriminate|done]|done|done|done|vm_compute; lia|done]. }
  constructor; [done|by apply (uspace_ext s); try done; apply Hc|done|done|done|apply demo_pipe_ok].
Qed.

Lemma demo_user_zeros : ubytes demo_user.(k_mem) demo_root 100 3 = [0; 0; 0].
Proof. vm_compute. reflexivity. Qed.

#[local] Opaque demo_user.

Lemma pipe_fifo_witness :
  (exists q', pipewrite 7 100 3 (demo_piped demo_user) = Ret 3
      (set_procs (wake_all (Some (pipe_nread_chan 7)) (Some 0%nat) (demo_piped demo_user).(k_procs))
        (set_pipes (<[7 := q']> (demo_piped demo_user).(k_pipes)) (demo_piped demo_user))) /\
    contents q' = [65; 66; 0; 0; 0]) /\
  (exists q' s', piperead 7 100 1 (demo_piped demo_user) = Ret 1 s' /\
    s'.(k_pipes) !! 7 = Some q' /\ contents q' = [66] /\
    load8 s'.(k_mem) (uaddr demo_user.(k_mem) demo_root 100) = 65).
Proof.
  destruct demo_user_ok as (l & Hs). pose proof (demo_piped_user demo_user 4096 l Hs) as Hu.
  assert (contents demo_pipe = [65; 66]) as Ec by (vm_compute; reflexivity).
  assert (fill demo_pipe = 2) as Ef by (vm_compute; reflexivity).
  split.
  - destruct (pipe_fifo 0 7 demo_root 4096 l demo_pipe (demo_piped demo_user) 100 3
      (Nat.lt_0_succ 0) Hu eq_refl ltac:(lia) ltac:(lia) ltac:(unfold PGSIZE; lia)) as [H _].
    destruct H as (q' & Hr & _ & Hc).
    { reflexivity. } { rewrite Ef. unfold PIPESIZE. lia. }
    { intros j Hj. change (k_mem (demo_piped demo_user)) with (k_mem demo_user).
      apply (demo_user_writable (100 + j)). lia. }
    exists q'. split; [exact Hr|]. rewrite Hc, Ec. exact (f_equal (app [65; 66]) demo_user_zeros).
  - destruct (pipe_fifo 0 7 demo_root 4096 l demo_pipe (demo_piped demo_user) 100 1
      (Nat.lt_0_succ 0) Hu eq_refl ltac:(lia) ltac:(lia) ltac:(unfold PGSIZE; lia)) as [_ H].
    rewrite Ec in H. change (take (Z.to_nat 1) [65; 66]) with [65] in H. cbv zeta in H.
    destruct H as (q' & m' & Hr & _ & Hc & _ & Hv).
    { by left. }
    { intros j Hj. change (k_mem (demo_piped demo_user)) with (k_mem demo_user).
      apply (demo_user_writable (100 + Z.of_nat j)). cbn in Hj. lia. }
    eexists q', _. split; [exact Hr|]. split; [apply lookup_insert_eq|]. split; [by injection Hc as <-|].
    exact (Hv 0%nat 65 eq_refl).
Defined.
