(* ===== verification/Exec.v ===== *)
(** * exec and the life of a process (exec.c, elf.h, proc.c): definitions

    [exec], and the operations of proc.c that use the file system: [fork],
    [exit] and [userinit]. *)

From S2P Require Import Prelude Params Mem State Spinlock CString Kalloc Vm Proc Sleeplock Uart Printf.
From S2P Require Import Console Bio Log Fs File.

(** ** elf.h *)
Definition ELF_MAGIC : Z := 0x464C457F.
Definition ELF_PROG_LOAD : Z := 1.

Definition get64 (data : list Z) (off : Z) : Z :=
  le_decode (take 8 (drop (Z.to_nat off) data)).

(** [struct elfhdr]: the fields [exec] uses; [sizeof] is 64. *)
Record elfhdr : Type := mkelfhdr { e_magic : Z; e_entry : Z; e_phoff : Z; e_phnum : Z }.
Definition ELFSIZE : Z := 64.
Definition elfhdr_decode (bs : list Z) : elfhdr :=
  mkelfhdr (get32 bs 0) (get64 bs 24) (get64 bs 32) (get16 bs 56).

(** [struct proghdr]; [sizeof] is 56. *)
Record proghdr : Type := mkproghdr {
  ph_type : Z; ph_flags : Z; ph_off : Z; ph_vaddr : Z; ph_paddr : Z; ph_filesz : Z;
  ph_memsz : Z; ph_align : Z }.
Definition PHSIZE : Z := 56.
Definition proghdr_decode (bs : list Z) : proghdr :=
  mkproghdr (get32 bs 0) (get32 bs 4) (get64 bs 8) (get64 bs 16) (get64 bs 24)
    (get64 bs 32) (get64 bs 40) (get64 bs 48).

Definition flags2perm (flags : Z) : Z :=
  let perm := if has flags 0x1 then PTE_X else 0 in
  if has flags 0x2 then Z.lor perm PTE_W else perm.

Section Exec.
Context {I : KernelImage} {F : WaitFuel} {Disk : BlockDev}.

Fixpoint loadseg_loop (fuel : nat) (pagetable va : Z) (ip : nat) (offset sz i : Z) : K Z :=
  if i <? sz then
    match fuel with
    | O => fun _ => OutOfFuel
    | S fuel' =>
        let! pa := walkaddr pagetable (u64 (va + i)) in
        if pa =? 0 then panic "loadseg: address should exist" else
        let n := if sz - i <? PGSIZE then sz - i else PGSIZE in
        let! r := readi ip (ToKernel 0) (u32 (offset + i)) n in
        set_memory (fun m => store_bytes m pa (snd r)) ;;
        if negb (fst r =? n) then ret (-1)
        else loadseg_loop fuel' pagetable va ip offset sz (u32 (i + PGSIZE))
    end
  else ret 0.

Definition loadseg (pagetable va : Z) (ip : nat) (offset sz : Z) : K Z :=
  loadseg_loop (Z.to_nat (sz / PGSIZE + 1)) pagetable va ip offset sz 0.

(** The label [bad] of [exec]. *)
Definition exec_bad (pagetable sz : Z) (ip : option nat) : K Z :=
  when (cbool pagetable) (proc_freepagetable pagetable sz) ;;
  match ip with
  | Some ip => iunlockput ip ;; end_op
  | None => ret tt
  end ;;
  ret (-1).

(** Load program into memory: whether all went well, and the size reached. *)
Fixpoint exec_load (n : nat) (pagetable : Z) (ip : nat) (off sz : Z) : K (bool * Z) :=
  match n with
  | O => ret (true, sz)
  | S n' =>
      let! r := readi ip (ToKernel 0) (u32 off) PHSIZE in
      if negb (fst r =? PHSIZE) then ret (false, sz) else
      let ph := proghdr_decode (snd r) in
      if negb (ph.(ph_type) =? ELF_PROG_LOAD) then exec_load n' pagetable ip (i32 (off + PHSIZE)) sz else
      if ph.(ph_memsz) <? ph.(ph_filesz) then ret (false, sz) else
      if u64 (ph.(ph_vaddr) + ph.(ph_memsz)) <? ph.(ph_vaddr) then ret (false, sz) else
      if negb (ph.(ph_vaddr) mod PGSIZE =? 0) then ret (false, sz) else
      let! sz1 := uvmalloc pagetable sz (u64 (ph.(ph_vaddr) + ph.(ph_memsz)))
                    (flags2perm ph.(ph_flags)) in
      if sz1 =? 0 then ret (false, sz) else
      let! l := loadseg pagetable ph.(ph_vaddr) ip (u32 ph.(ph_off)) (u32 ph.(ph_filesz)) in
      if l <? 0 then ret (false, sz1) else
      exec_load n' pagetable ip (i32 (off + PHSIZE)) sz1
  end.

(** Push argument strings: the stack pointer and [ustack], or [None]. The
    strings are at the addresses [argv], each in a page of its own. *)
Fixpoint exec_args (argv : list Z) (pagetable stackbase argc sp : Z) (ustack : list Z) :
    K (option (Z * list Z)) :=
  match argv with
  | [] => ret (Some (sp, ustack))
  | a :: argv' =>
      if argc >=? MAXARG then ret None else
      let! len := get (fun s => strlen (Z.to_nat PGSIZE) s.(k_mem) a) in
      match len with
      | None => undefined
      | Some len =>
          let sp := u64 (sp - (len + 1)) in
          let sp := sp - sp mod 16 in
          if sp <? stackbase then ret None else
          let! bs := get (fun s => load_bytes s.(k_mem) a (Z.to_nat (len + 1))) in
          let! r := copyout pagetable sp bs in
          if r <? 0 then ret None else
          exec_args argv' pagetable stackbase (argc + 1) sp (ustack ++ [sp])
      end
  end.

(** Save program name for debugging: what follows the last slash. *)
Fixpoint path_last (path last : list Z) : list Z :=
  match path with
  | [] => last
  | c :: path' => path_last path' (if c =? 47 then path' else last)
  end.

(** From the stack on; [pagetable] has the program, of size [sz]. *)
Definition exec_commit (p : nat) (path : list Z) (argv : list Z) (entry pagetable sz : Z) : K Z :=
  let! oldsz := getp p p_sz in
  let sz := PGROUNDUP sz in
  let! sz1 := uvmalloc pagetable sz (u64 (sz + (USERSTACK + 1) * PGSIZE)) PTE_W in
  if sz1 =? 0 then exec_bad pagetable sz None else
  let sz := sz1 in
  uvmclear pagetable (u64 (sz - (USERSTACK + 1) * PGSIZE)) ;;
  let sp := sz in
  let stackbase := u64 (sp - USERSTACK * PGSIZE) in
  let! r := exec_args argv pagetable stackbase 0 sp [] in
  match r with
  | None => exec_bad pagetable sz None
  | Some (sp, ustack) =>
      let argc := Z.of_nat (length ustack) in
      (* push the array of argv[] pointers. *)
      let sp := u64 (sp - (argc + 1) * 8) in
      let sp := sp - sp mod 16 in
      if sp <? stackbase then exec_bad pagetable sz None else
      let! c := copyout pagetable sp (concat (map (le_encode 8) (ustack ++ [0]))) in
      if c <? 0 then exec_bad pagetable sz None else
      (* arguments to user main(argc, argv) *)
      let! tf := getp p p_trapframe in
      write64 (tf + TF_a1) sp ;;
      setp p (fun q => set_p_name (safestrcpy_array q.(p_name) (path_last path path) 16) q) ;;
      (* Commit to the user image. *)
      let! oldpagetable := getp p p_pagetable in
      setp p (set_p_pagetable pagetable) ;;
      setp p (set_p_sz sz) ;;
      write64 (tf + TF_epc) entry ;;
      write64 (tf + TF_sp) sp ;;
      proc_freepagetable oldpagetable oldsz ;;
      ret argc
  end.

Definition exec (path : list Z) (argv : list Z) : K Z :=
  let! p := curproc in
  begin_op ;;
  let! ip := namei path in
  match ip with
  | None => end_op ;; ret (-1)
  | Some ip =>
      ilock (Some ip) ;;
      (* Check ELF header *)
      let! r := readi ip (ToKernel 0) 0 ELFSIZE in
      if negb (fst r =? ELFSIZE) then exec_bad 0 0 (Some ip) else
      let elf := elfhdr_decode (snd r) in
      if negb (elf.(e_magic) =? ELF_MAGIC) then exec_bad 0 0 (Some ip) else
      let! pagetable := proc_pagetable p in
      if pagetable =? 0 then exec_bad 0 0 (Some ip) else
      (* Load program into memory. *)
      let! l := exec_load (Z.to_nat elf.(e_phnum)) pagetable ip (i32 elf.(e_phoff)) 0 in
      if negb (fst l) then exec_bad pagetable (snd l) (Some ip) else
      iunlockput ip ;;
      end_op ;;
      let! p := curproc in
      exec_commit p path argv elf.(e_entry) pagetable (snd l)
  end.

(** ** proc.c: processes and files *)

Definition userinit : K unit :=
  let! p := allocproc in
  modify (set_initproc p) ;;
  match p with
  | None => panic "kerneltrap"
  | Some p =>
      (* allocate one user page and copy initcode into it. *)
      let! pt := getp p p_pagetable in
      uvmfirst pt initcode (Z.of_nat (length initcode)) ;;
      setp p (set_p_sz PGSIZE) ;;
      (* prepare for the very first return from kernel to user. *)
      let! tf := getp p p_trapframe in
      write64 (tf + TF_epc) 0 ;;
      write64 (tf + TF_sp) PGSIZE ;;
      setp p (fun q => set_p_name (safestrcpy_array q.(p_name) (str "initcode") 16) q) ;;
      let! cwd := namei (str "/") in
      setp p (set_p_cwd cwd) ;;
      setp p (set_p_state RUNNABLE) ;;
      release (proc_lock p)
  end.

(** Increment reference counts on open file descriptors. *)
Definition fork_file (p np : nat) (i : nat) : K unit :=
  let! f := getp p (fun q => q.(p_ofile) !!! i) in
  match f with
  | None => ret tt
  | Some f =>
      let! f := filedup f in
      setp np (fun q => set_p_ofile (<[i := Some f]> q.(p_ofile)) q)
  end.

Definition fork : K Z :=
  let! p := curproc in
  (* Allocate process. *)
  let! np := allocproc in
  match np with
  | None => ret (-1)
  | Some np =>
      (* Copy user memory from parent to child. *)
      let! ppt := getp p p_pagetable in
      let! npt := getp np p_pagetable in
      let! psz := getp p p_sz in
      let! r := uvmcopy ppt npt psz in
      if r <? 0 then freeproc np ;; release (proc_lock np) ;; ret (-1) else
      setp np (set_p_sz psz) ;;
      (* copy saved user registers. *)
      let! ptf := getp p p_trapframe in
      let! ntf := getp np p_trapframe in
      set_memory (fun m => memmove m ntf ptf TF_size) ;;
      (* Cause fork to return 0 in the child. *)
      write64 (ntf + TF_a0) 0 ;;
      for_each (seq 0 (Z.to_nat NOFILE)) (fork_file p np) ;;
      let! cwd := getp p p_cwd in
      deref cwd (fun cwd =>
        let! c := idup cwd in
        setp np (set_p_cwd (Some c)) ;;
        let! name := getp p p_name in
        setp np (fun q => set_p_name (safestrcpy_array q.(p_name) (until_nul name) 16) q) ;;
        let! pid := getp np p_pid in
        release (proc_lock np) ;;
        acquire wait_lock ;;
        setp np (set_p_parent (Some p)) ;;
        release wait_lock ;;
        setp np (set_p_state RUNNABLE) ;;
        ret pid)
  end.

Definition exit_file (p : nat) (fd : nat) : K unit :=
  let! f := getp p (fun q => q.(p_ofile) !!! fd) in
  match f with
  | None => ret tt
  | Some f =>
      fileclose f ;;
      setp p (fun q => set_p_ofile (<[fd := None]> q.(p_ofile)) q)
  end.

Definition exit (status : Z) : K unit :=
  let! p := curproc in
  let! ip := get k_initproc in
  if bool_decide (Some p = ip) then panic "init exiting" else
  (* Close all open files. *)
  for_each (seq 0 (Z.to_nat NOFILE)) (exit_file p) ;;
  begin_op ;;
  let! cwd := getp p p_cwd in
  deref cwd iput ;;
  end_op ;;
  setp p (set_p_cwd None) ;;
  acquire wait_lock ;;
  (* Give any children to init. *)
  reparent p ;;
  (* Parent might be sleeping in wait(). *)
  let! par := getp p p_parent in
  wakeup (proc_chan <$> par) ;;
  acquire (proc_lock p) ;;
  setp p (set_p_xstate status) ;;
  setp p (set_p_state ZOMBIE) ;;
  release wait_lock ;;
  (* Jump into the scheduler, never to return. *)
  sched ;;
  panic "zombie exit".

End Exec.
