(* ===== verification/ForkSpec.v ===== *)
(** * fork (proc.c): correctness

    [fork] makes a process whose memory, registers, open files and directory
    are those of the parent, out of free pages and a free slot; it fails only
    when slots or pages run out, and then leaves every free page free. *)

From S2P Require Import Prelude Params Mem State Spinlock CString Kalloc Vm PageTable VmSpec UvmSpec UvmProps.
From S2P Require Import UvmFree CopySpec VmDemo Proc ProcSpec ProcVm Sleeplock ProcLife Uart Printf Console.
From S2P Require Import Bio Log Fs File Exec.

Section Fork.
Context {I : KernelImage} {L : KernelLayout I}.

(** ** Definitions *)

(** A process [p] that may fork: its address space, its open files, and the
    free slots of the table. *)
Record forker (p : nat) (s : kstate) (l : list Z) (root tf sz : Z) (cwd : nat) : Prop := {
  fk_calm : calm p s;
  fk_used : (proc_at s p).(p_state) <> UNUSED;
  fk_pid : s.(k_locks) !! pid_lock = None;
  fk_ftable : s.(k_locks) !! ftable_lock = None;
  fk_itable : s.(k_locks) !! itable_lock = None;
  fk_wait : s.(k_locks) !! wait_lock = None;
  fk_slots : forall i, (i < Z.to_nat NPROC)%nat -> slot_ok (proc_at s i) /\
    ((proc_at s i).(p_state) = UNUSED -> (proc_at s i).(p_ofile) = replicate (Z.to_nat NOFILE) None);
  fk_space : proc_space s root tf sz l;
  fk_root : (proc_at s p).(p_pagetable) = root;
  fk_tf : (proc_at s p).(p_trapframe) = tf;
  fk_sz : (proc_at s p).(p_sz) = sz;
  fk_tf_own : tf ∉ l /\ ~ owned s.(k_mem) root (below sz) tf;
  fk_ofile : length (proc_at s p).(p_ofile) = Z.to_nat NOFILE;
  fk_files : files_ok (proc_at s p).(p_ofile) s.(k_ftable);
  fk_cwd : (proc_at s p).(p_cwd) = Some cwd;
}.

(** The slot of the child. *)
Definition child_proc (p : nat) (q : proc) (pid tf root : Z) (q0 : proc) : proc :=
  set_p_state RUNNABLE (set_p_parent (Some p)
    (set_p_name (safestrcpy_array q0.(p_name) (until_nul q.(p_name)) 16)
      (set_p_cwd q.(p_cwd) (set_p_ofile q.(p_ofile) (set_p_sz q.(p_sz) (alloc_proc pid tf root q0)))))).

(** The registers of the child. *)
Definition child_frame (m : memory) (ntf ptf : Z) : memory :=
  store64 (memmove m ntf ptf TF_size) (ntf + TF_a0) 0.

(** ** Lemmas *)

Lemma child_frame_changed m ntf ptf : changed_in (in_page ntf) m (child_frame m ntf ptf).
Proof.
  unfold child_frame. apply (changed_in_trans _ _ (memmove m ntf ptf TF_size)).
  - intros x Hx. rewrite load8_memmove by done. rewrite decide_False; [done|].
    unfold in_page, TF_size, PGSIZE in *. lia.
  - eapply changed_in_mono, changed_in_store64. unfold in_page, TF_a0, PGSIZE. intros x Hx. cbv beta in Hx. lia.
Qed.

Lemma child_frame_regs m ntf ptf o :
  0 <= o < TF_size -> ~ (TF_a0 <= o < TF_a0 + 8) -> load8 (child_frame m ntf ptf) (ntf + o) = load8 m (ptf + o).
Proof.
  intros Ho Hn. unfold child_frame. rewrite load8_store64_out by lia. rewrite load8_memmove by done.
  rewrite decide_True by lia. f_equal. lia.
Qed.

Lemma child_frame_a0 m ntf ptf : load64 (child_frame m ntf ptf) (ntf + TF_a0) = 0.
Proof. unfold child_frame. by rewrite load64_store64. Qed.

Lemma setup_ne np s f npid m fl i : i <> np -> proc_at (setup np s f npid m fl) i = proc_at s i.
Proof. intros H. exact (proc_at_upd_ne (set_nextpid npid (with_mem m fl s)) np i f (not_eq_sym H)). Qed.

Lemma pages_below sz va : 0 <= sz <= TRAPFRAME -> is_page va -> below sz va <-> va < sz.
Proof.
  intros Hsz [Ha _]. unfold below. pose proof TRAPFRAME_64.
  pose proof (PGROUNDUP_bounds sz ltac:(lia) ltac:(unfold PGSIZE in *; lia)).
  pose proof (PGROUNDUP_aligned sz). unfold PGSIZE in *. Z.to_euclidean_division_equations. lia.
Qed.

(** ** Copying the memory *)

(** The child so far: its trapframe page [ctf], its page table [croot] with
    the user pages [D], and the free pages [l2], all out of [l]. *)
Record child_mem (s : kstate) (l : list Z) (croot ctf sz : Z) (m : memory) (fl : Z) (l2 : list Z) : Prop := {
  cm_space : proc_space (with_mem m fl s) croot ctf sz l2;
  cm_tf : ctf ∉ l2 /\ ~ owned m croot (below sz) ctf;
  cm_pages : forall q, q = ctf \/ owned m croot (below sz) q \/ q ∈ l2 <-> q ∈ l;
  cm_changed : changed_in (fun x => exists q, q ∈ l /\ in_page q x) s.(k_mem) m;
}.

Lemma cm_rep s l croot ctf sz m fl l2 : child_mem s l croot ctf sz m fl l2 -> kmem_rep (with_mem m fl s) l2.
Proof. intros H. apply (vr_kmem _ croot), (uv_rep _ _ (below sz)), (ps_uvm _ _ _ _ _ (cm_space _ _ _ _ _ _ _ _ H)). Qed.

(** The parent is as it was. *)
Lemma parent_kept s l root tf sz croot ctf csz m fl l2 :
  proc_space s root tf sz l -> child_mem s l croot ctf csz m fl l2 ->
  proc_space (with_mem m fl s) root tf sz l2 /\ (forall va, pte m root va = pte s.(k_mem) root va) /\
  (forall q x, owned s.(k_mem) root (below sz) q -> in_page q x -> load8 m x = load8 s.(k_mem) x) /\
  (forall q, owned m root (below sz) q -> ~ owned m croot (below csz) q /\ q <> ctf).
Proof.
  intros Hs Hcm. pose proof (cm_rep _ _ _ _ _ _ _ _ Hcm) as Hk. destruct Hcm as [Hc Htf Hp Hch].
  assert (forall q, q ∈ l -> ~ owned s.(k_mem) root (below sz) q) as Hfree.
  { intros q Hq Ho. eapply owned_not_free; [apply Hs|exact Ho|exact Hq]. }
  assert (forall q, q ∈ l -> page_ok q) as Hpg by (intros q Hq; eapply free_page; [apply Hs|done]).
  destruct (proc_space_other s (with_mem m fl s) root tf sz l l2 (fun q => q ∈ l) Hs Hk) as (H1 & H2 & H3 & H4).
  - intros q Hq. apply Hfree, Hp. auto.
  - done.
  - auto.
  - refine (conj H1 (conj H2 (conj H4 _))). intros q Ho%H3.
    split; [intros Hco|intros ->]; (eapply Hfree; [|exact Ho]); apply Hp; auto.
Qed.

Lemma fork_copy p np s l root tf sz croot ctf f npid m fl l1 :
  calm p s -> s.(k_locks) !! kmem_lock = None ->
  proc_space s root tf sz l -> child_mem s l croot ctf 0 m fl l1 ->
  exists r m2 fl2 l2, uvmcopy root croot sz (setup np s f npid m fl) = Ret r (setup np s f npid m2 fl2) /\
    ((r = 0 /\ child_mem s l croot ctf sz m2 fl2 l2 /\
      forall va, is_page va -> va < sz -> page_copy s.(k_mem) root m2 croot va) \/
     (r = -1 /\ child_mem s l croot ctf 0 m2 fl2 l2 /\ Z.of_nat (length l1) < 3 * (PGROUNDUP sz / PGSIZE))).
Proof.
  intros Hc Hkl Hs Hcm. destruct (parent_kept _ _ _ _ _ _ _ _ _ _ _ Hs Hcm) as (Hs1 & Hpte1 & Hld1 & Hdis').
  assert (forall q, owned m root (below sz) q -> ~ owned m croot (below 0) q) as Hdis by (intros q Hq; by apply Hdis').
  destruct Hcm as [Hcs [Htf1 Htf2] Hp Hch]. set (t := setup np s f npid m fl).
  pose proof (proj1 (setup_space p np s Hc Hkl f npid m fl _ _ _ _) Hs1) as Hs1'.
  pose proof (proj1 (setup_space p np s Hc Hkl f npid m fl _ _ _ _) Hcs) as Hcs'.
  destruct (uvmcopy_ok root croot sz t l1) as (r & s2 & l2 & Hr & Ho2 & Hpte2 & Hld2 & Hres).
  { apply Hs1'. } { eapply uvm_iff; [|apply Hcs']. apply below_0. }
  { intros q Hq Hq'. apply (Hdis q Hq). rewrite (owned_iff _ _ _ (fun _ => False)) by apply below_0. exact Hq'. }
  { apply Hs. }
  assert (exists D csz, (r = 0 /\ csz = sz \/ r = -1 /\ csz = 0) /\ 0 <= csz <= TRAPFRAME /\
    (forall va, is_page va -> D va <-> below csz va) /\
    uvm_op (fun _ => False) croot t (fun _ => False) l1 s2 D l2) as (D & csz & Hcase & Hcsz & HD & Hop).
  { destruct Hres as [(-> & Hop & _)|(-> & Hop & _)].
    - exists (below sz), sz. split_and!; [by left|apply Hs|apply Hs|done|done].
    - exists (fun _ => False), 0. split_and!; [by right|lia|done| |done]. intros va Hva. symmetry. by apply below_0. }
  destruct Hop as [Hu2 Hf2 Hp2 Hc2 _ Hh2]. pose proof (setup_frame p np s Hc f npid m fl s2 Hf2) as E2.
  set (m2 := s2.(k_mem)) in *. set (fl2 := s2.(k_freelist)) in *. clearbody m2 fl2. subst s2.
  change (k_mem t) with m in *.
  assert (forall q, owned m croot (fun _ => False) q <-> owned m croot (below 0) q) as Hf0
    by (intros q; apply owned_iff; intros va Hva; symmetry; by apply below_0).
  assert (forall q, owned m2 croot D q <-> owned m2 croot (below csz) q) as HfD by (intros q; by apply owned_iff).
  change (k_mem (setup np s f npid m2 fl2)) with m2 in *.
  assert (forall q, owned m2 croot (below csz) q \/ q ∈ l2 <-> owned m croot (below 0) q \/ q ∈ l1) as Hp2'
    by (intros q; by rewrite <- HfD, Hp2, Hf0).
  assert (child_mem s l croot ctf csz m2 fl2 l2) as Hcm2.
  { constructor.
    - apply (setup_space p np s Hc Hkl f npid). constructor; [by eapply uvm_iff; [|exact Hu2]|done| | |apply Hcs].
      + exact (eq_trans (Hh2 _ is_page_tramp ltac:(done)) (ps_tramp _ _ _ _ _ Hcs)).
      + exact (eq_trans (Hh2 _ is_page_frame ltac:(done)) (ps_frame _ _ _ _ _ Hcs)).
    - split; intros Hq.
      + destruct (proj1 (Hp2' ctf) (or_intror Hq)); done.
      + destruct (proj1 (Hp2' ctf) (or_introl Hq)); done.
    - intros q. by rewrite Hp2', Hp.
    - eapply changed_in_trans; [exact Hch|]. eapply changed_in_mono, Hc2. intros x (q & Hq & Hx).
      exists q. split; [|done]. apply Hp. rewrite <- Hf0. tauto. }
  exists r, m2, fl2, l2. split; [exact Hr|]. destruct Hres as [(-> & _ & Hcopy)|(-> & _ & Hlen)].
  - left. destruct Hcase as [[_ ->]|[? _]]; [|done]. split; [done|]. split; [done|]. intros va Hva Hlt.
    destruct (Hcopy va Hva Hlt) as [E1 E2']. split; [by rewrite E1, Hpte1|]. intros o Ho. rewrite E2' by done.
    unfold upa. rewrite Hpte1. apply (Hld1 (upa (k_mem s) root va)).
    + right. exists va. split; [done|]. split; [|done]. apply pages_below; [apply Hs|done|done].
    + unfold in_page, upa. lia.
  - right. destruct Hcase as [[? _]|[_ ->]]; [done|]. done.
Qed.

(** ** The open files *)

Lemma ofile_step (ofs : list (option nat)) i o :
  ofs !! i = Some o ->
  <[i := o]> (take i ofs ++ replicate (length ofs - i) None) = take (S i) ofs ++ replicate (length ofs - S i) None.
Proof.
  intros Hi. pose proof (lookup_lt_Some _ _ _ Hi) as Hlen.
  replace (length ofs - i)%nat with (S (length ofs - S i)) by lia. cbn [replicate].
  rewrite insert_app_r_alt by (rewrite length_take; lia). rewrite length_take, Nat.min_l by lia.
  rewrite Nat.sub_diag. cbn. rewrite (take_S_r _ _ _ Hi), <- app_assoc. done.
Qed.

Section Files.
Context (p np : nat) (s : kstate) (Hc : calm p s) (Hne : p <> np).
Context (Hlk : s.(k_locks) !! ftable_lock = None).
Context (f : proc -> proc) (npid : Z) (m : memory) (fl : Z).
Abbreviation ofs := (proc_at s p).(p_ofile).

(** The child after the first [i] descriptors. *)
Definition files_setup (i : nat) (ft : list file) : kstate :=
  setup np (set_ftable ft s)
    (fun q => set_p_ofile (take i ofs ++ replicate (length ofs - i) None) (f q)) npid m fl.

Lemma fork_file_ok i ft :
  (i < length ofs)%nat -> files_ok ofs ft ->
  fork_file p np i (files_setup i ft) = Ret tt (files_setup (S i) (dup_file ft (ofs !!! i))).
Proof using Hc Hlk Hne.
  intros Hi Hok. destruct (lookup_lt_is_Some_2 ofs i Hi) as [o Ho].
  rewrite (list_lookup_total_correct _ _ _ Ho). unfold fork_file.
  erewrite (bind_Ret (getp p _) _ _ o).
  2:{ unfold getp, get, files_setup. rewrite setup_ne by done. by rewrite <- (list_lookup_total_correct _ _ _ Ho). }
  pose proof (ofile_step ofs i o Ho) as Estep. destruct o as [g|].
  - destruct (Hok g) as (x & Hx & Hr); [by eapply list_elem_of_lookup_2|].
    assert (calm p (set_ftable ft s)) as Hc' by (by apply (calm_ext p s)).
    destruct (setup_hart p np (set_ftable ft s) Hc' (fun q => set_p_ofile (take i ofs ++ replicate (length ofs - i) None) (f q)) npid m fl) as [Hh Hn].
    erewrite bind_Ret by (apply (filedup_inside g x); [exact Hn|exact Hh| |exact Hx|exact Hr];
      unfold files_setup, setup, acquired; ksimpl; by rewrite lookup_insert_ne).
    etransitivity; [exact (setup_setp np (set_ftable (dup_file ft (Some g)) s)
      (fun q => set_p_ofile (take i ofs ++ replicate (length ofs - i) None) (f q)) _ npid m fl)|].
    unfold files_setup. rewrite <- Estep. reflexivity.
  - unfold files_setup, ret. rewrite <- Estep. cbn [dup_file]. rewrite list_insert_id; [done|].
    rewrite lookup_app_r by (rewrite length_take; lia). rewrite length_take, Nat.min_l by lia.
    rewrite Nat.sub_diag. replace (length ofs - i)%nat with (S (length ofs - S i)) by lia. done.
Qed.

Lemma fork_files_ok n : forall i ft,
  (i + n = length ofs)%nat -> files_ok ofs ft ->
  for_each (seq i n) (fork_file p np) (files_setup i ft) =
  Ret tt (files_setup (length ofs) (dup_files (drop i ofs) ft)).
Proof using Hc Hlk Hne.
  induction n as [|n IH]; intros i ft Hi Hok.
  - assert (i = length ofs) as -> by lia. cbn. by rewrite drop_all.
  - cbn [seq for_each]. erewrite bind_Ret by (apply fork_file_ok; [lia|done]).
    rewrite IH by (lia || by apply files_ok_dup).
    destruct (lookup_lt_is_Some_2 ofs i ltac:(lia)) as [o Ho].
    rewrite (list_lookup_total_correct _ _ _ Ho). by rewrite (drop_S _ _ _ Ho).
Qed.

End Files.

Lemma idup_inside ip s :
  0 < s.(k_hart).(c_noff) -> hart_ok s.(k_hart) -> s.(k_locks) !! itable_lock = None ->
  idup ip s = Ret ip (upd_inode ip (fun x => set_i_ref (x.(i_ref) + 1) x) s).
Proof.
  intros Hn Hh Hl. unfold idup. erewrite bind_Ret by (by apply acquire_free).
  erewrite (bind_Ret (seti ip _) _ _ tt) by done. erewrite bind_Ret; [done|].
  by apply (release_inside itable_lock (upd_inode ip (fun x => set_i_ref (x.(i_ref) + 1) x) s)).
Qed.

(** ** The end of fork *)

Definition ref_inode (x : inode) : inode := set_i_ref (x.(i_ref) + 1) x.

Definition finish_proc (p : nat) (q : proc) (cwd : nat) (q0 : proc) : proc :=
  set_p_state RUNNABLE (set_p_parent (Some p)
    (set_p_name (safestrcpy_array q0.(p_name) (until_nul q.(p_name)) 16) (set_p_cwd (Some cwd) q0))).

Lemma fork_tail p np s f npid m fl cwd :
  calm p s -> p <> np -> (np < Z.to_nat NPROC)%nat ->
  s.(k_locks) !! itable_lock = None -> s.(k_locks) !! wait_lock = None -> (proc_at s p).(p_cwd) = Some cwd ->
  (let! cwd := getp p p_cwd in
   deref cwd (fun cwd =>
     let! c := idup cwd in
     setp np (set_p_cwd (Some c)) ;;
     let! name := getp p p_name in
     setp np (fun q => set_p_name (safestrcpy_array q.(p_name) (until_nul name) 16) q) ;;
     let! pid := getp np p_pid in
     release (proc_lock np) ;;
     acquire wait_lock ;;
     setp np (set_p_parent (Some p)) ;;
     release wait_lock ;;
     setp np (set_p_state RUNNABLE) ;;
     ret pid)) (setup np s f npid m fl) =
  Ret (f (proc_at s np)).(p_pid)
    (upd_proc np (fun q => finish_proc p (proc_at s p) cwd (f q))
      (set_nextpid npid (upd_inode cwd ref_inode (with_mem m fl s)))).
Proof.
  intros Hc Hne Hnp Hil Hwl Hcwd. destruct (setup_hart p np s Hc f npid m fl) as [Hh Hn].
  erewrite (bind_Ret (getp p p_cwd) _ _ (Some cwd)) by (unfold getp, get; rewrite setup_ne by done; by rewrite <- Hcwd).
  cbn [deref]. erewrite bind_Ret by (apply idup_inside; [exact Hn|exact Hh|];
    unfold setup, acquired; ksimpl; by rewrite lookup_insert_ne).
  set (s1 := upd_inode cwd ref_inode s).
  change (upd_inode cwd (fun x => set_i_ref (i_ref x + 1) x) (setup np s f npid m fl)) with (setup np s1 f npid m fl).
  assert (calm p s1) as Hc1 by (by apply (calm_ext p s)).
  erewrite bind_Ret by apply setup_setp. cbv beta.
  erewrite (bind_Ret (getp p p_name) _ _ (proc_at s p).(p_name)) by (unfold getp, get; by rewrite setup_ne).
  erewrite bind_Ret by apply setup_setp. cbv beta.
  erewrite (bind_Ret (getp np p_pid) _ _ (f (proc_at s np)).(p_pid)) by (unfold getp, get; by rewrite (setup_proc p)).
  set (g1 := fun q => set_p_name (safestrcpy_array (p_name (set_p_cwd (Some cwd) (f q))) (until_nul (p_name (proc_at s p))) 16)
    (set_p_cwd (Some cwd) (f q))).
  set (t := upd_proc np g1 (set_nextpid npid (with_mem m fl s1))).
  assert (calm p t) as Ht by (apply (calm_ext p s); try done; apply length_alter).
  erewrite (bind_Ret (release (proc_lock np)) _ _ tt t) by (apply (release_inner p t); [done|apply (calm_plocks _ _ Hc)]).
  erewrite bind_Ret by (by apply (acquire_free t)).
  set (t2 := upd_proc np (fun q => set_p_parent (Some p) (g1 q)) (set_nextpid npid (with_mem m fl s1))).
  assert (calm p t2) as Ht2 by (apply (calm_ext p s); try done; apply length_alter).
  erewrite (bind_Ret (setp np _) _ _ tt (acquired wait_lock t2)).
  2:{ unfold setp, modify. f_equal. exact (f_equal (acquired wait_lock) (upd_proc_upd np (set_p_parent (Some p)) g1
      (set_nextpid npid (with_mem m fl s1)))). }
  erewrite bind_Ret by (by apply (release_inner p t2)).
  erewrite (bind_Ret (setp np _) _ _ tt) by done. unfold ret. f_equal.
  exact (upd_proc_upd np (set_p_state RUNNABLE) (fun q => set_p_parent (Some p) (g1 q))
    (set_nextpid npid (with_mem m fl s1))).
Qed.

(** ** The registers *)

Lemma fork_regs s l croot ctf sz m fl l2 root tf :
  child_mem s l croot ctf sz m fl l2 -> proc_space s root tf sz l -> page_ok ctf ->
  (forall va, is_page va -> va < sz -> page_copy s.(k_mem) root m croot va) ->
  let m' := child_frame m ctf tf in
  child_mem s l croot ctf sz m' fl l2 /\
  (forall va, is_page va -> va < sz -> page_copy s.(k_mem) root m' croot va).
Proof.
  intros Hcm Hs Hctf Hcopy m'. pose proof (cm_rep _ _ _ _ _ _ _ _ Hcm) as Hk. destruct Hcm as [Hc [Ht1 Ht2] Hp Hch].
  assert (changed_in (fun x => exists q, q = ctf /\ in_page q x) m m') as Hch'.
  { eapply changed_in_mono, child_frame_changed. intros x Hx. by exists ctf. }
  assert (kmem_rep (with_mem m' fl s) l2) as Hk'.
  { eapply (kmem_rep_changed (with_mem m fl s)); [exact Hk|exact Hch'| |done..].
    intros q x Hq Hx (q' & -> & Hx'). assert (page_ok q) as Hqk by (eapply flist_pages; [apply Hk|done]).
    apply (pages_disjoint q ctf x (proj1 Hqk) (proj1 Hctf)); [by intros ->|done|done]. }
  destruct (proc_space_other (with_mem m fl s) (with_mem m' fl s) croot ctf sz l2 l2 (fun q => q = ctf) Hc Hk')
    as (H1 & H2 & H3 & H4); [|exact Hch'|by intros q ->|].
  { intros q Hq Ho. eapply owned_not_free; [apply Hc|exact Ho|exact Hq]. }
  change (k_mem (with_mem m' fl s)) with m' in *. change (k_mem (with_mem m fl s)) with m in *.
  split.
  - constructor; [done|split; [done|by rewrite H3]| |].
    + intros q. by rewrite H3, Hp.
    + eapply changed_in_trans; [exact Hch|]. eapply changed_in_mono, Hch'. intros x (q & -> & Hx).
      exists ctf. split; [apply Hp; by left|done].
  - intros va Hva Hlt. destruct (Hcopy va Hva Hlt) as [E1 E2]. split; [by rewrite H2|].
    intros o Ho. unfold upa. rewrite H2. rewrite <- E2 by done. apply (H4 (upa m croot va)).
    + right. exists va. split; [done|]. split; [|done]. apply pages_below; [apply Hc|done|done].
    + unfold in_page. fold (upa m croot va). lia.
Qed.

Lemma set_ofile_id q v : q.(p_ofile) = v -> set_p_ofile v q = q.
Proof. by intros <-. Qed.

(** What [fork] does after the memory has been copied. *)
Lemma fork_rest p np s l root tf sz cwd pid ctf croot npid m fl :
  forker p s l root tf sz cwd -> p <> np -> (np < Z.to_nat NPROC)%nat ->
  (proc_at s np).(p_ofile) = replicate (Z.to_nat NOFILE) None ->
  let f := alloc_proc pid ctf croot in
  (setp np (set_p_sz sz) ;;
   let! ptf := getp p p_trapframe in
   let! ntf := getp np p_trapframe in
   set_memory (fun m => memmove m ntf ptf TF_size) ;;
   write64 (ntf + TF_a0) 0 ;;
   for_each (seq 0 (Z.to_nat NOFILE)) (fork_file p np) ;;
   let! cwd := getp p p_cwd in
   deref cwd (fun cwd =>
     let! c := idup cwd in
     setp np (set_p_cwd (Some c)) ;;
     let! name := getp p p_name in
     setp np (fun q => set_p_name (safestrcpy_array q.(p_name) (until_nul name) 16) q) ;;
     let! pid := getp np p_pid in
     release (proc_lock np) ;;
     acquire wait_lock ;;
     setp np (set_p_parent (Some p)) ;;
     release wait_lock ;;
     setp np (set_p_state RUNNABLE) ;;
     ret pid)) (setup np s f npid m fl) =
  Ret pid (upd_proc np (child_proc p (proc_at s p) pid ctf croot) (set_nextpid npid
    (set_ftable (dup_files (proc_at s p).(p_ofile) s.(k_ftable))
      (upd_inode cwd ref_inode (with_mem (child_frame m ctf tf) fl s))))).
Proof.
  intros [Hc Hu Hl1 Hl2 Hl3 Hl4 Hsl Hsp Hrt Htf Hsz Hto Hof Hfi Hcw] Hne Hnp Hofn f.
  erewrite bind_Ret by apply setup_setp. cbv beta.
  erewrite (bind_Ret (getp p p_trapframe) _ _ tf) by (unfold getp, get; rewrite setup_ne by done; by rewrite <- Htf).
  erewrite (bind_Ret (getp np p_trapframe) _ _ ctf) by (unfold getp, get; by rewrite (setup_proc p)).
  set (m' := child_frame m ctf tf). set (f2 := fun q => set_p_sz sz (f q)).
  erewrite (bind_Ret (set_memory _) _ _ tt) by done.
  erewrite (bind_Ret (write64 _ _) _ _ tt (files_setup p np s f2 npid m' fl 0 s.(k_ftable))).
  2:{ unfold write64, set_memory, modify. f_equal. unfold files_setup. rewrite take_0, Hof, Nat.sub_0_r.
      transitivity (setup np s f2 npid m' fl); [reflexivity|].
      apply (f_equal (acquired (proc_lock np))). apply upd_proc_agree. symmetry. apply set_ofile_id. exact Hofn. }
  rewrite <- Hof. erewrite bind_Ret by (apply fork_files_ok; done). rewrite drop_0.
  set (s1 := set_ftable (dup_files (p_ofile (proc_at s p)) (k_ftable s)) s).
  assert (calm p s1) as Hc1 by (by apply (calm_ext p s)).
  etransitivity; [exact (fork_tail p np s1 _ npid m' fl cwd Hc1 Hne Hnp Hl3 Hl4 Hcw)|].
  unfold f2, f. rewrite firstn_all, Nat.sub_diag. cbn [replicate]. rewrite app_nil_r.
  apply (f_equal (Ret pid)). apply upd_proc_agree. unfold child_proc, finish_proc. rewrite Hcw, Hsz. reflexivity.
Qed.

(** ** Correctness *)

(** There is no free slot, or there are fewer free pages than a child of [sz]
    bytes can need: six for its slot (the trapframe and five page tables) and
    three for each page of its memory (the copy and two page tables). *)
Definition short_of (s : kstate) (l : list Z) (sz : Z) : Prop :=
  (forall i, (i < Z.to_nat NPROC)%nat -> (proc_at s i).(p_state) <> UNUSED) \/
  Z.of_nat (length l) < 6 + 3 * (PGROUNDUP sz / PGSIZE).

(** A fork that failed: no page is lost, and at most a free slot and the next
    pid have changed. *)
Record fork_failed (s : kstate) (l : list Z) (s' : kstate) : Prop := {
  ff_rep : exists l', kmem_rep s' l' /\ forall q, q ∈ l' <-> q ∈ l;
  ff_changed : changed_in (fun x => exists q, q ∈ l /\ in_page q x) s.(k_mem) s'.(k_mem);
  ff_rest : exists np f npid m fl, s' = upd_proc np f (set_nextpid npid (with_mem m fl s)) /\
    (f = id \/ (proc_at s np).(p_state) = UNUSED /\ (f (proc_at s np)).(p_state) = UNUSED /\ slot_ok (f (proc_at s np)));
}.

(** A fork that succeeded: the child is slot [np]. *)
Record forked (p : nat) (s : kstate) (l : list Z) (root tf sz : Z) (cwd : nat) (np : nat) (croot ctf : Z)
    (s' : kstate) (l' : list Z) : Prop := {
  fd_state : exists m fl, s' = upd_proc np (child_proc p (proc_at s p) s.(k_nextpid) ctf croot)
    (set_nextpid (i32 (s.(k_nextpid) + 1)) (set_ftable (dup_files (proc_at s p).(p_ofile) s.(k_ftable))
      (upd_inode cwd ref_inode (with_mem m fl s))));
  fd_child : proc_space s' croot ctf sz l';
  fd_parent : proc_space s' root tf sz l';
  fd_apart : forall q, owned s'.(k_mem) root (below sz) q -> ~ owned s'.(k_mem) croot (below sz) q;
  fd_tf : ctf ∉ l' /\ ~ owned s'.(k_mem) croot (below sz) ctf /\ ~ owned s'.(k_mem) root (below sz) ctf;
  fd_copy : forall va, is_page va -> va < sz -> page_copy s.(k_mem) root s'.(k_mem) croot va;
  fd_regs : forall o, 0 <= o < TF_size -> ~ (TF_a0 <= o < TF_a0 + 8) ->
    load8 s'.(k_mem) (ctf + o) = load8 s.(k_mem) (tf + o);
  fd_a0 : load64 s'.(k_mem) (ctf + TF_a0) = 0;
  fd_kept : forall q x, owned s.(k_mem) root (below sz) q \/ q = tf -> in_page q x ->
    load8 s'.(k_mem) x = load8 s.(k_mem) x;
  fd_pages : forall q, q = ctf \/ owned s'.(k_mem) croot (below sz) q \/ q ∈ l' <-> q ∈ l;
}.

Lemma alloc_child np s l r s1 :
  alloc_done np s l r s1 -> r <> None ->
  exists m fl l1 ctf croot, r = Some np /\
    s1 = setup np s (alloc_proc s.(k_nextpid) ctf croot) (i32 (s.(k_nextpid) + 1)) m fl /\
    (length l <= length l1 + 6)%nat /\ child_mem s l croot ctf 0 m fl l1.
Proof.
  intros (m & fl & l1 & Hch & [(-> & _)|(-> & Hlen & tf & croot & Hnz & -> & Hs & Ht1 & Ht2 & Hp)]) Hr; [done|].
  exists m, fl, l1, tf, croot. split; [done|]. split; [done|]. split; [done|]. by constructor; [|split| |].
Qed.

(** The trapframe of the parent is not a free page. *)
Lemma tf_kept s l root tf sz cwd p m x :
  forker p s l root tf sz cwd -> changed_in (fun x => exists q, q ∈ l /\ in_page q x) s.(k_mem) m ->
  in_page tf x -> load8 m x = load8 s.(k_mem) x.
Proof.
  intros Hfk Hch Hx. apply Hch. intros (q & Hq & Hx'). pose proof (fk_space _ _ _ _ _ _ _ Hfk) as Hs.
  pose proof (ps_tf _ _ _ _ _ Hs) as Htf. assert (page_ok q) as Hqk by (eapply free_page; [apply Hs|done]).
  apply (pages_disjoint tf q x (proj1 Htf) (proj1 Hqk)); [|done|done].
  intros ->. exact (proj1 (fk_tf_own _ _ _ _ _ _ _ Hfk) Hq).
Qed.

Lemma fork_success p np s l root tf sz cwd croot ctf m fl l2 :
  forker p s l root tf sz cwd -> (np < Z.to_nat NPROC)%nat ->
  child_mem s l croot ctf sz m fl l2 ->
  (forall va, is_page va -> va < sz -> page_copy s.(k_mem) root m croot va) ->
  forked p s l root tf sz cwd np croot ctf
    (upd_proc np (child_proc p (proc_at s p) s.(k_nextpid) ctf croot)
      (set_nextpid (i32 (s.(k_nextpid) + 1)) (set_ftable (dup_files (proc_at s p).(p_ofile) s.(k_ftable))
        (upd_inode cwd ref_inode (with_mem (child_frame m ctf tf) fl s))))) l2.
Proof.
  intros Hfk Hnp Hcm Hcopy. pose proof (fk_space _ _ _ _ _ _ _ Hfk) as Hs.
  assert (page_ok ctf) as Hctf by apply (ps_tf _ _ _ _ _ (cm_space _ _ _ _ _ _ _ _ Hcm)).
  assert (changed_in (fun x => exists q, q ∈ l /\ in_page q x) s.(k_mem) m) as Hch by apply Hcm.
  destruct (fork_regs s l croot ctf sz m fl l2 root tf Hcm Hs Hctf Hcopy) as [Hcm' Hcopy'].
  set (m' := child_frame m ctf tf) in *.
  destruct (parent_kept _ _ _ _ _ _ _ _ _ _ _ Hs Hcm') as (Hp1 & Hp2 & Hp3 & Hp4).
  assert (s.(k_locks) !! kmem_lock = None) as Hkl by apply (rep_lock _ _ (cm_rep _ _ _ _ _ _ _ _ Hcm)).
  assert (hart_ok s.(k_hart)) as Hh by apply (fk_calm _ _ _ _ _ _ _ Hfk).
  constructor.
  - by exists m', fl.
  - apply (proc_space_state (with_mem m' fl s)); try done. apply Hcm'.
  - apply (proc_space_state (with_mem m' fl s)); done.
  - intros q Hq. by apply (Hp4 q).
  - destruct (cm_tf _ _ _ _ _ _ _ _ Hcm') as [H1 H2]. split; [exact H1|]. split; [exact H2|].
    intros Ho. by destruct (Hp4 ctf Ho).
  - exact Hcopy'.
  - intros o Ho Hn. etransitivity; [exact (child_frame_regs m ctf tf o Ho Hn)|].
    eapply tf_kept; [exact Hfk|exact Hch|]. unfold in_page, TF_size, PGSIZE in *. lia.
  - apply child_frame_a0.
  - intros q x [Hq| ->] Hx; [by apply (Hp3 q)|]. eapply tf_kept; [exact Hfk|apply Hcm'|exact Hx].
  - apply Hcm'.
Qed.

(** Giving the child up. *)
Lemma fork_undo p np s l croot ctf m fl l2 pid npid :
  calm p s -> (np < Z.to_nat NPROC)%nat -> s.(k_locks) !! pid_lock = None ->
  (proc_at s np).(p_state) = UNUSED -> (proc_at s np).(p_sz) = 0 -> child_mem s l croot ctf 0 m fl l2 ->
  exists s', (freeproc np ;; release (proc_lock np) ;; ret (-1)) (setup np s (alloc_proc pid ctf croot) npid m fl) =
    Ret (-1) s' /\ fork_failed s l s'.
Proof.
  intros Hc Hnp Hpl Hun Esz Hcm. pose proof (cm_rep _ _ _ _ _ _ _ _ Hcm) as Hk. destruct Hcm as [Hcs [Ht1 Ht2] Hp Hch].
  pose proof (rep_lock _ _ Hk) as Hkl. pose proof (ps_tf _ _ _ _ _ Hcs) as Hctf.
  destruct (setup_fail p np s Hc Hnp Hkl Hpl (alloc_proc pid ctf croot) npid m fl l2 ctf croot 0)
    as (m' & fl' & l' & H); [done|done|exact Esz|done|by right|right; by split|].
  destruct (H Z (-1)) as (Hr & Hk' & Hp' & Hc'). eexists. split; [exact Hr|].
  assert (forall q, q ∈ l' <-> q ∈ l) as Hll.
  { assert (croot <> 0) as Hnz.
    { apply page_ok_nz. eapply owned_page; [apply Hcs|]. left. exists []. split; [apply path_ok_nil|done]. }
    intros q. rewrite Hp', <- Hp. unfold slot_pages. pose proof (page_ok_nz ctf Hctf).
    change (k_mem (with_mem m fl s)) with m. tauto. }
  constructor.
  - exists l'. split; [|done]. destruct Hk'; by constructor.
  - eapply changed_in_trans; [exact Hch|]. eapply changed_in_mono, Hc'. intros x (q & Hq & Hx).
    exists q. split; [by apply Hll, Hp'|done].
  - eexists np, _, npid, m', fl'. split; [reflexivity|]. right. done.
Qed.

Lemma fork_ok p s l root tf sz cwd :
  forker p s l root tf sz cwd ->
  exists r s', fork s = Ret r s' /\
    ((r = -1 /\ short_of s l sz /\ fork_failed s l s') \/
     (r = s.(k_nextpid) /\ exists np croot ctf l', (np < Z.to_nat NPROC)%nat /\
      (proc_at s np).(p_state) = UNUSED /\ (forall i, (i < np)%nat -> (proc_at s i).(p_state) <> UNUSED) /\
      forked p s l root tf sz cwd np croot ctf s' l')).
Proof.
  intros Hfk. pose proof (fk_calm _ _ _ _ _ _ _ Hfk) as Hc. pose proof (fk_space _ _ _ _ _ _ _ Hfk) as Hs.
  assert (kmem_rep s l) as Hk by apply (vr_kmem _ root), (uv_rep _ _ (below sz)), Hs.
  assert (0 <= PGROUNDUP sz / PGSIZE) as Hpos.
  { pose proof (ps_sz _ _ _ _ _ Hs). apply Z.div_pos; [|done]. pose proof TRAPFRAME_64.
    pose proof (PGROUNDUP_bounds sz ltac:(lia) ltac:(unfold PGSIZE in *; lia)). lia. }
  unfold fork. erewrite bind_Ret by (by apply curproc_calm).
  destruct (allocproc_ok p s l Hc Hk (fk_pid _ _ _ _ _ _ _ Hfk)) as [[Hfull Hr]|(np & r & s1 & Hnp & Hun & Hfirst & Hr & Hd)].
  { intros i Hi. by apply (fk_slots _ _ _ _ _ _ _ Hfk). }
  { erewrite bind_Ret by exact Hr. exists (-1), s. split; [done|]. left. split; [done|]. split; [by left|]. constructor.
    - by exists l.
    - apply changed_in_refl.
    - exists 0%nat, id, s.(k_nextpid), s.(k_mem), s.(k_freelist). split; [|by left].
      unfold upd_proc. ksimpl. by rewrite list_alter_id. }
  erewrite bind_Ret by exact Hr. destruct (fk_slots _ _ _ _ _ _ _ Hfk np Hnp) as [Hsl Hof].
  destruct (Hsl Hun) as (Etf & Ept & Esz).
  assert (p <> np) as Hne by (intros ->; by apply (fk_used _ _ _ _ _ _ _ Hfk)).
  destruct r as [r|].
  2:{ destruct Hd as (m & fl & l' & Hch & [(_ & Hlen & -> & Hk' & Hl')|(? & _)]); [|done].
      eexists (-1), _. split; [reflexivity|]. left. split; [done|]. split; [right; lia|]. constructor.
      - exists l'. split; [|done]. destruct Hk'; by constructor.
      - done.
      - exists np, free_proc, (i32 (s.(k_nextpid) + 1)), m, fl. split; [done|]. right. done. }
  destruct (alloc_child _ _ _ _ _ Hd) as (m & fl & l1 & ctf & croot & [= ->] & -> & Hlen & Hcm); [done|].
  set (f := alloc_proc (k_nextpid s) ctf croot). set (npid := i32 (k_nextpid s + 1)).
  pose proof (rep_lock _ _ Hk) as Hkl.
  erewrite (bind_Ret (getp p p_pagetable) _ _ root)
    by (unfold getp, get; rewrite setup_ne by done; by rewrite <- (fk_root _ _ _ _ _ _ _ Hfk)).
  erewrite (bind_Ret (getp np p_pagetable) _ _ croot) by (unfold getp, get; by rewrite (setup_proc p)).
  erewrite (bind_Ret (getp p p_sz) _ _ sz)
    by (unfold getp, get; rewrite setup_ne by done; by rewrite <- (fk_sz _ _ _ _ _ _ _ Hfk)).
  destruct (fork_copy p np s l root tf sz croot ctf f npid m fl l1 Hc Hkl Hs Hcm) as (r & m2 & fl2 & l2 & Hr2 & Hres).
  erewrite bind_Ret by exact Hr2. destruct Hres as [(-> & Hcm2 & Hcopy)|(-> & Hcm2 & Hlen2)]; cbn [Z.ltb Z.compare].
  - eexists _, _. split; [by eapply fork_rest; eauto|]. right. split; [done|].
    exists np, croot, ctf, l2. split_and!; [done|done|done|]. by apply fork_success.
  - destruct (fork_undo p np s l croot ctf m2 fl2 l2 (k_nextpid s) npid) as (s' & Hr3 & Hff); try done;
      [apply (fk_pid _ _ _ _ _ _ _ Hfk)|]. eexists _, s'. split; [exact Hr3|]. left.
    split; [done|]. split; [right; lia|done].
Qed.

(** [C5] [fork] returns. Either it returns the next pid, and the first free slot is a runnable
    child of the caller: its user memory, its flags and its registers are copies of the caller's,
    with 0 in [a0], its open files and its directory are the caller's with their reference counts
    raised, its pages come from the free list and none of them is lost or shared, and the memory of the caller is
    unchanged. Or it returns -1, and then no slot is free or fewer than
    6 + 3 * (pages of the caller) pages are: the free pages are the same, and nothing else but a
    free slot and the next pid has changed. *)
Theorem fork_correct p s l root tf sz cwd :
  forker p s l root tf sz cwd ->
  exists r s', fork s = Ret r s' /\
    ((r = -1 /\ short_of s l sz /\ fork_failed s l s') \/
     (r = s.(k_nextpid) /\ exists np croot ctf l', (np < Z.to_nat NPROC)%nat /\
      (proc_at s np).(p_state) = UNUSED /\ (forall i, (i < np)%nat -> (proc_at s i).(p_state) <> UNUSED) /\
      forked p s l root tf sz cwd np croot ctf s' l')).
Proof. apply fork_ok. Qed.

End Fork.

(** ** A concrete fork *)

#[local] Existing Instance demo_image16.
#[local] Instance demo_layout16 : KernelLayout demo_image16.
Proof. split; vm_compute; repeat split; discriminate. Qed.

(** The memory of the parent: a trapframe page, a page table, one user page. *)
Definition demo_tf : Z := PHYSTOP - 4096.
Definition demo_pt : Z := PHYSTOP - 8192.
Definition demo_procs : list proc :=
  set_p_ofile (Some 3%nat :: replicate 15 None) (set_p_cwd (Some 0%nat) (set_p_sz 4096
    (set_p_trapframe demo_tf (set_p_pagetable demo_pt (set_p_state RUNNING inhabitant))))) :: replicate 63 inhabitant.
Definition demo_with (s : kstate) : kstate :=
  set_ftable (replicate 100 (set_f_ref 1 inhabitant)) (set_itable (replicate 50 (set_i_ref 1 inhabitant))
    (set_nextpid 5 (set_procs demo_procs (set_locks ∅ (set_hart (set_c_proc (Some 0%nat) inhabitant) s))))).
Definition demo_alloc : kstate := ret_state (kalloc demo_free).
Definition demo_table : kstate := ret_state (proc_pagetable 0 (demo_with demo_alloc)).
Definition demo_parent : kstate := ret_state (uvmalloc demo_pt 0 4096 PTE_W demo_table).

Lemma demo_table_ok : exists l, proc_space demo_table demo_pt demo_tf 0 l /\ demo_tf ∉ l /\
  ~ owned demo_table.(k_mem) demo_pt (below 0) demo_tf /\ frame (demo_with demo_alloc) demo_table.
Proof.
  pose proof demo_free_rep as Hk. set (l := (fun i => PHYSTOP - (i + 1) * 4096) <$> zrange 0 16) in Hk.
  change l with (demo_tf :: tail l) in Hk. set (l1 := tail l) in Hk.
  assert (demo_alloc = kalloc_post demo_tf l1 demo_free) as E.
  { unfold demo_alloc. by rewrite (kalloc_cons demo_free demo_tf l1 Hk). }
  assert (demo_tf ∉ l1) as Hn by (by apply NoDup_cons, (rep_nodup _ _ Hk)).
  assert (page_ok demo_tf) as Htf by (split; vm_compute; [done|split; [discriminate|done]]).
  pose proof (kalloc_post_rep _ _ _ Hk) as Hk1. rewrite <- E in Hk1.
  assert (kmem_rep (demo_with demo_alloc) l1) as Hk2 by (destruct Hk1; constructor; try done; split; vm_compute; discriminate).
  destruct (proc_pagetable_ok 0 (demo_with demo_alloc) l1 demo_tf Hk2 eq_refl Htf) as (root & s' & l' & Hr & [Hf _] & Hres).
  assert (ret_value (proc_pagetable 0 (demo_with demo_alloc)) = Some demo_pt) as Hv by (vm_compute; reflexivity).
  rewrite Hr in Hv. injection Hv as ->. assert (demo_table = s') as ->.
  { unfold demo_table. by rewrite Hr. }
  destruct Hres as [[Hz _]|(_ & _ & Hs & Hp)]; [discriminate Hz|]. exists l'. split_and!; [done| | |done].
  - intros Hq. apply Hn, Hp. by right.
  - intros Hq. apply Hn, Hp. by left.
Qed.

(** Growing the process to one page. *)
Lemma grow_page s root tf l :
  proc_space s root tf 0 l -> tf ∉ l -> ~ owned s.(k_mem) root (below 0) tf ->
  ret_value (uvmalloc root 0 4096 PTE_W s) = Some 4096 ->
  let s' := ret_state (uvmalloc root 0 4096 PTE_W s) in
  exists l', proc_space s' root tf 4096 l' /\ tf ∉ l' /\ ~ owned s'.(k_mem) root (below 4096) tf /\ frame s s'.
Proof.
  intros Hs Hn Hno Hv.
  destruct (uvmalloc_loop_ok 1 root 0 0 4096 PTE_W s l s l) as (r & s' & l' & Hr & Hres).
  { split; [|intros; lia|rewrite Z.div_0_l by done; lia]. apply uvm_op_refl. exact (ps_uvm _ _ _ _ _ Hs). }
  { by vm_compute. } { by vm_compute. } { lia. } { by vm_compute. } { by vm_compute. } { by vm_compute. }
  assert (uvmalloc root 0 4096 PTE_W s = Ret r s') as Hr' by exact Hr.
  rewrite Hr' in *. injection Hv as ->. destruct Hres as [[_ Hinv]|[Hz _]]; [|discriminate Hz].
  pose proof (ai_op _ _ _ _ _ _ _ _ Hinv) as [Hu Hf' Hp _ _ Hh]. exists l'. destruct Hs as [Hs1 Hs2 Hs3 Hs4 Hs5].
  refine (conj _ (conj _ (conj _ Hf'))).
  - constructor; [exact Hu|split; vm_compute; discriminate| | |done].
    + exact (eq_trans (Hh _ is_page_tramp ltac:(done)) Hs3).
    + exact (eq_trans (Hh _ is_page_frame ltac:(done)) Hs4).
  - intros Hq. destruct (proj1 (Hp tf) (or_intror Hq)); done.
  - intros Hq. destruct (proj1 (Hp tf) (or_introl Hq)); done.
Qed.

Lemma demo_grows : ret_value (uvmalloc demo_pt 0 4096 PTE_W demo_table) = Some 4096.
Proof. vm_compute. reflexivity. Qed.

Lemma demo_parent_ok : exists l, proc_space demo_parent demo_pt demo_tf 4096 l /\ demo_tf ∉ l /\
  ~ owned demo_parent.(k_mem) demo_pt (below 4096) demo_tf /\ frame (demo_with demo_alloc) demo_parent.
Proof.
  destruct demo_table_ok as (l & Hs & Hn & Hno & Hf).
  destruct (grow_page demo_table demo_pt demo_tf l Hs Hn Hno demo_grows) as (l' & Hs' & Hn' & Hno' & Hf').
  exists l'. split; [exact Hs'|]. split; [exact Hn'|]. split; [exact Hno'|]. exact (frame_trans _ _ _ Hf Hf').
Qed.

Lemma demo_parent_hart : demo_parent.(k_hart) = set_c_proc (Some 0%nat) inhabitant.
Proof. vm_compute. reflexivity. Qed.

Lemma demo_forks : ret_value (fork demo_parent) = Some 5.
Proof. vm_compute. reflexivity. Qed.

Lemma demo_forker_ok s l :
  s.(k_procs) = demo_procs -> s.(k_locks) = ∅ -> s.(k_ftable) = replicate 100 (set_f_ref 1 inhabitant) ->
  s.(k_hart) = set_c_proc (Some 0%nat) inhabitant ->
  proc_space s demo_pt demo_tf 4096 l -> demo_tf ∉ l -> ~ owned s.(k_mem) demo_pt (below 4096) demo_tf ->
  forker 0 s l demo_pt demo_tf 4096 0.
Proof.
  intros Ep El Ef Eh Hs Hn Hno.
  assert (proc_at s 0 = hd inhabitant demo_procs) as E0 by (unfold proc_at; by rewrite Ep).
  constructor; try (rewrite El; apply lookup_empty); try (rewrite E0; reflexivity); try done.
  - constructor; [rewrite Eh; split; vm_compute; [discriminate|done]|by rewrite Eh|by rewrite Eh|by rewrite Ep
      |vm_compute; lia|intros i; by rewrite El, lookup_empty].
  - by rewrite E0.
  - intros i Hi. assert (proc_at s i = if decide (i = 0%nat) then hd inhabitant demo_procs else inhabitant) as ->.
    { unfold proc_at. rewrite Ep. destruct i as [|i]; [done|]. change (Z.to_nat NPROC) with 64%nat in Hi.
      rewrite decide_False by done. change (demo_procs !!! S i) with (replicate 63 (inhabitant : proc) !!! i).
      apply lookup_total_replicate_2. lia. }
    case_decide; by repeat split.
  - intros f Hf. rewrite E0 in Hf. change (p_ofile (hd inhabitant demo_procs)) with (Some 3%nat :: replicate 15 None) in Hf.
    apply elem_of_cons in Hf as [[= ->]|[? _]%elem_of_replicate]; [|done].
    eexists. rewrite Ef. split; [reflexivity|]. done.
Qed.

#[local] Opaque demo_parent demo_alloc.

Lemma fork_correct_witness :
  exists s' np croot ctf l l', fork demo_parent = Ret 5 s' /\
    forked 0 demo_parent l demo_pt demo_tf 4096 0 np croot ctf s' l'.
Proof.
  destruct demo_parent_ok as (l & Hs & Hn & Hno & Hf).
  destruct (fork_correct 0 demo_parent l demo_pt demo_tf 4096 0) as (r & s' & Hr & Hres).
  { apply demo_forker_ok; [exact (frame_procs _ _ Hf)|exact (f_equal k_locks Hf)|exact (f_equal k_ftable Hf)
      |exact demo_parent_hart|exact Hs|exact Hn|exact Hno]. }
  pose proof demo_forks as Hv. rewrite Hr in Hv. injection Hv as ->.
  destruct Hres as [[Hz _]|(_ & np & croot & ctf & l' & _ & _ & _ & Hd)]; [discriminate Hz|].
  exists s', np, croot, ctf, l, l'. split; [exact Hr|exact Hd].
Defined.
