(* ===== verification/LifeSpec.v ===== *)
(** * The life of a process: fork, exit and wait together

    What [exit] does to a process that holds files and a directory together with
    its parent; and the whole life of a child: [fork], the parent asleep in
    [wait], the child in [exit], the parent reaping it. It takes no page, no file
    reference and no slot away from the system. *)

From S2P Require Import Prelude Params Mem State Spinlock CString Kalloc Vm PageTable VmSpec UvmSpec UvmProps.
From S2P Require Import UvmFree CopySpec VmDemo Proc ProcSpec ProcVm Sleeplock ProcLife WaitSpec Uart Printf Console.
From S2P Require Import Bio BioProps Log Fs File Exec ForkSpec.

(** ** Definitions *)

(** The scheduler (proc.c) from the return of [swtch] from process [p] to the
    [swtch] to process [q], when [q] is the next one it runs. *)
Definition resched {I : KernelImage} (p q : nat) : K bool :=
  modify (upd_hart (set_c_proc None)) ;;
  release (proc_lock p) ;;
  scheduler_try q.

(** Process [q] running with all locks released. *)
Definition on_cpu (q : nat) (s : kstate) : kstate :=
  upd_hart (set_c_proc (Some q)) (upd_proc q (set_p_state RUNNING) s).

(** The log lets a system call start at once, and has nothing to commit when no
    system call is under way. *)
Record log_ready (l : logst) : Prop := {
  lr_committing : l.(l_committing) = false;
  lr_room : log_full l = false;
  lr_outstanding : 0 <= l.(l_outstanding);
  lr_clean : l.(l_outstanding) = 0 -> l.(lh_n) = 0;
}.

(** A process [c], child of [p], that may exit: its open files have the references
    of [ft] and its own, and it is not the last user of its directory. *)
Record leaver (c p : nat) (s : kstate) (ft : list file) (cwd : nat) : Prop := {
  lv_calm : calm c s;
  lv_noff : s.(k_hart).(c_noff) = 0;
  lv_init : s.(k_initproc) <> Some c;
  lv_ftable : s.(k_locks) !! ftable_lock = None;
  lv_itable : s.(k_locks) !! itable_lock = None;
  lv_loglock : s.(k_locks) !! log_lock = None;
  lv_wait : s.(k_locks) !! wait_lock = None;
  lv_len : length (proc_at s c).(p_ofile) = Z.to_nat NOFILE;
  lv_refs : s.(k_ftable) = dup_files (proc_at s c).(p_ofile) ft;
  lv_files : files_ok (proc_at s c).(p_ofile) ft;
  lv_cwd : (proc_at s c).(p_cwd) = Some cwd;
  lv_iref : 1 < (inode_at s cwd).(i_ref);
  lv_log : log_ready s.(k_log);
  lv_parent : (proc_at s c).(p_parent) = Some p;
  lv_kids : forall i, (i < Z.to_nat NPROC)%nat -> ~ child_of s c i;
}.

Definition unref_inode (x : inode) : inode := set_i_ref (x.(i_ref) - 1) x.

(** What [exit] makes of the slot of the process. *)
Definition zombie_proc (status : Z) (q : proc) : proc :=
  set_p_state ZOMBIE (set_p_xstate status (set_p_cwd None
    (set_p_ofile (replicate (Z.to_nat NOFILE) None) q))).

(** ** exit *)

Section Exit.
Context {I : KernelImage} {F : WaitFuel} {Disk : BlockDev}.

Definition close_file (ft : list file) (f : nat) : list file := alter (ref_file (-1)) f ft.

Lemma close_dup ofs ft f : close_file (dup_files ofs (dup_file ft (Some f))) f = dup_files ofs ft.
Proof.
  apply list_eq. intros g. unfold close_file. rewrite list_lookup_alter.
  assert (forall (o : option file) a b, ref_file a <$> (ref_file b <$> o) = ref_file (b + a) <$> o) as Hc.
  { intros [x|] a b; [|done]. cbn. f_equal. unfold ref_file. cbn. by rewrite Z.add_assoc. }
  rewrite !dup_files_lookup, !dup_file_lookup.
  destruct (decide (f = g)) as [->|Hne]; rewrite !Hc; [rewrite decide_True by done|rewrite decide_False by congruence];
    destruct (ft !! g) as [x|]; try done; cbn; f_equal; unfold ref_file; f_equal; lia.
Qed.

(** [fileclose] of a file that is open elsewhere too. *)
Lemma fileclose_shared p f x s :
  calm p s -> s.(k_locks) !! ftable_lock = None -> s.(k_ftable) !! f = Some x -> 1 < x.(f_ref) ->
  fileclose f s = Ret tt (set_ftable (close_file s.(k_ftable) f) s).
Proof.
  intros Hc Hl Hx Hr. unfold fileclose. erewrite bind_Ret by (by apply acquire_free).
  assert (file_at (acquired ftable_lock s) f = x) as Ex by (by apply list_lookup_total_correct).
  erewrite (bind_Ret (getf f f_ref) _ _ (f_ref x)) by (unfold getf, get; by rewrite Ex).
  rewrite (proj2 (Z.ltb_ge _ _)) by lia.
  set (t := set_ftable (close_file s.(k_ftable) f) s).
  erewrite (bind_Ret (setf f _) _ _ tt (acquired ftable_lock t)).
  - rewrite (proj2 (Z.gtb_lt _ _)) by lia. apply (release_inner p t); [by apply (calm_ext p s)|done].
  - unfold setf, modify, upd_file. f_equal. unfold t, close_file.
    assert (alter (set_f_ref (f_ref x - 1)) f (k_ftable s) = alter (ref_file (-1)) f (k_ftable s)) as <-; [|done].
    apply alter_agree. intros y Hy. assert (y = x) as -> by congruence. done.
Qed.

(** The process after it has closed its first [i] descriptors. *)
Definition closing (c : nat) (s : kstate) (ft : list file) (i : nat) : kstate :=
  let ofs := (proc_at s c).(p_ofile) in
  upd_proc c (set_p_ofile (replicate i None ++ drop i ofs)) (set_ftable (dup_files (drop i ofs) ft) s).

Lemma exit_file_ok c p s ft cwd i :
  leaver c p s ft cwd -> (i < Z.to_nat NOFILE)%nat ->
  exit_file c i (closing c s ft i) = Ret tt (closing c s ft (S i)).
Proof.
  intros Hlv Hi. pose proof (lv_calm _ _ _ _ _ Hlv) as Hc. rewrite <- (lv_len _ _ _ _ _ Hlv) in Hi.
  set (ofs := (proc_at s c).(p_ofile)) in *. destruct (lookup_lt_is_Some_2 ofs i Hi) as [o Ho].
  assert (c < length (k_procs s))%nat as Hlen by (rewrite (calm_len _ _ Hc); apply Hc).
  pose proof (drop_S _ _ _ Ho) as Ed.
  assert (forall t, calm c t -> calm c (upd_proc c (set_p_ofile (replicate i None ++ drop i ofs)) t)) as Hcu
    by (intros t Ht; apply (calm_ext c t); try done; apply length_alter).
  unfold exit_file. erewrite (bind_Ret (getp c _) _ _ o).
  2:{ unfold getp, get, closing. rewrite proc_at_upd_eq by done. cbn [p_ofile set_p_ofile]. f_equal.
      rewrite lookup_total_app_r; rewrite length_replicate; [|done].
      rewrite Nat.sub_diag. fold ofs. rewrite Ed. done. }
  assert (forall v, <[i := None]> (replicate i None ++ v :: drop (S i) ofs) = replicate (S i) None ++ drop (S i) ofs) as Ei.
  { intros v. rewrite insert_app_r_alt; rewrite length_replicate; [|done]. rewrite Nat.sub_diag. cbn [list_insert].
    change (<[0%nat := None]> (v :: drop (S i) ofs)) with (None :: drop (S i) ofs).
    by rewrite replicate_S_end, <- app_assoc. }
  destruct o as [g|].
  - destruct (lv_files _ _ _ _ _ Hlv g) as (x & Hx & Hr); [by eapply list_elem_of_lookup_2|].
    assert (calm c (closing c s ft i)) as Hcc by (apply Hcu; by apply (calm_ext c s)).
    erewrite bind_Ret.
    2:{ apply (fileclose_shared c g (ref_file (occurs g (drop i ofs)) x)); [exact Hcc|apply Hlv| |].
        - change (dup_files (drop i ofs) ft !! g = Some (ref_file (occurs g (drop i ofs)) x)). by rewrite dup_files_lookup, Hx.
        - cbn. unfold occurs. rewrite Ed, filter_cons, decide_True by done. cbn [length]. lia. }
    transitivity (setp c (fun q => set_p_ofile (<[i := None]> q.(p_ofile)) q)
      (set_ftable (close_file (dup_files (drop i ofs) ft) g) (closing c s ft i))); [done|].
    replace (close_file (dup_files (drop i ofs) ft) g) with (dup_files (drop (S i) ofs) ft)
      by (rewrite Ed; symmetry; apply (close_dup (drop (S i) ofs) ft g)).
    unfold setp, modify, closing. fold ofs. f_equal. unfold upd_proc. kext. ksimpl. rewrite alter_alter.
    apply alter_agree. intros q Hq. cbn. by rewrite Ed, Ei.
  - unfold ret, closing. fold ofs. f_equal. rewrite Ed. rewrite <- (Ei None).
    change (dup_files (None :: drop (S i) ofs) ft) with (dup_files (drop (S i) ofs) ft). rewrite list_insert_id; [done|].
    rewrite lookup_app_r; rewrite length_replicate; [|done]. by rewrite Nat.sub_diag.
Qed.

Lemma exit_files_ok c p s ft cwd n : forall i,
  leaver c p s ft cwd -> (i + n = Z.to_nat NOFILE)%nat ->
  for_each (seq i n) (exit_file c) (closing c s ft i) = Ret tt (closing c s ft (Z.to_nat NOFILE)).
Proof.
  induction n as [|n IH]; intros i Hlv Hi; [by replace i with (Z.to_nat NOFILE) by lia|].
  cbn [seq for_each]. erewrite bind_Ret by (eapply exit_file_ok; [exact Hlv|lia]). by apply IH; [|lia].
Qed.

(** A system call that changes nothing on the disk. *)
Definition opened (s : kstate) : kstate := upd_log (fun l => set_l_outstanding (l.(l_outstanding) + 1) l) s.
Definition wakes (ch : chan) (p : nat) (s : kstate) : kstate :=
  set_procs (wake_all (Some ch) (Some p) s.(k_procs)) s.

Lemma calm_wakes ch p s : calm p s -> calm p (wakes ch p s).
Proof. intros H. apply (calm_ext p s); try done. apply length_wake_all. Qed.

Lemma begin_op_ready p s :
  (0 < wait_fuel)%nat -> calm p s -> s.(k_locks) !! log_lock = None -> log_ready s.(k_log) ->
  begin_op s = Ret tt (opened s).
Proof.
  intros Hf Hc Hl [H1 H2 H3 H4]. unfold begin_op. erewrite bind_Ret by (by apply acquire_free).
  destruct wait_fuel as [|n]; [lia|]. cbn [begin_op_loop].
  erewrite (bind_Ret (get k_log) _ _ (k_log s)) by done. rewrite H1, H2.
  erewrite bind_Ret by done. apply (release_inner p (opened s)); [by apply (calm_ext p s)|done].
Qed.

Lemma end_op_ready p s :
  calm p s -> s.(k_locks) !! log_lock = None -> log_ready s.(k_log) ->
  end_op (opened s) = Ret tt (wakes log_chan p s).
Proof.
  intros Hc Hl Hlr. pose proof Hlr as [H1 H2 H3 H4]. unfold end_op.
  erewrite bind_Ret by (by apply acquire_free).
  assert (upd_log (fun l => set_l_outstanding (l.(l_outstanding) - 1) l) (opened s) = s) as Es.
  { unfold opened, upd_log. ksimpl. replace (l_outstanding (k_log s) + 1 - 1) with (l_outstanding (k_log s)) by lia. done. }
  erewrite (bind_Ret (modify _) _ _ tt (acquired log_lock s)).
  2:{ unfold modify. f_equal. exact (f_equal (acquired log_lock) Es). }
  erewrite (bind_Ret (get k_log) _ _ (k_log s)) by done. rewrite H1.
  assert (calm p (acquired log_lock s)) as Hca by (by apply calm_acquired).
  assert (calm p (wakes log_chan p s)) as Hw by (by apply calm_wakes).
  destruct (Z.eqb_spec (l_outstanding (k_log s)) 0) as [E|E].
  - set (t := upd_log (set_l_committing true) s). assert (calm p t) as Ht by (by apply (calm_ext p s)).
    erewrite (bind_Ret (modify _) _ _ tt (acquired log_lock t)) by done.
    erewrite bind_Ret by (by apply (release_inner p t)). cbn [when].
    erewrite (bind_Ret commit _ _ tt t).
    2:{ unfold commit. erewrite (bind_Ret (get _) _ _ 0) by (unfold get; f_equal; exact (H4 E)). done. }
    erewrite bind_Ret by (by apply acquire_free).
    erewrite (bind_Ret (modify _) _ _ tt (acquired log_lock s)).
    2:{ unfold modify. f_equal. transitivity (acquired log_lock (upd_log (set_l_committing false) t)); [done|]. f_equal.
        unfold t, upd_log. ksimpl. by rewrite <- H1. }
    erewrite bind_Ret by (by apply (wakeup_calm p)).
    by apply (release_inner p (wakes log_chan p s)).
  - erewrite bind_Ret by (by apply (wakeup_calm p)).
    erewrite bind_Ret by (by apply (release_inner p (wakes log_chan p s))). done.
Qed.

(** [iput] of an inode in use elsewhere too. *)
Lemma iput_shared p ip s :
  calm p s -> s.(k_locks) !! itable_lock = None -> 1 < (inode_at s ip).(i_ref) ->
  iput ip s = Ret tt (upd_inode ip unref_inode s).
Proof.
  intros Hc Hl Hr. unfold iput. erewrite bind_Ret by (by apply acquire_free).
  erewrite (bind_Ret (geti ip id) _ _ (inode_at s ip)) by done.
  rewrite (proj2 (Z.eqb_neq (i_ref (inode_at s ip)) 1)) by lia. cbn [andb when].
  erewrite (bind_Ret (ret tt)) by done. erewrite (bind_Ret (seti ip _) _ _ tt) by done.
  apply (release_inner p (upd_inode ip unref_inode s)); [by apply (calm_ext p s)|done].
Qed.

(** [reparent] of a process without children. *)
Lemma reparent_none c n : forall i s,
  (forall j, (i <= j < i + n)%nat -> ~ child_of s c j) ->
  for_each (seq i n) (fun pp =>
    let! par := getp pp p_parent in
    if bool_decide (par = Some c) then
      let! ip := get k_initproc in
      setp pp (set_p_parent ip) ;;
      wakeup (proc_chan <$> ip)
    else ret tt) s = Ret tt s.
Proof.
  induction n as [|n IH]; intros i s Hno; [done|]. cbn [seq for_each]. erewrite bind_Ret; [apply IH|].
  - intros j Hj. apply Hno. lia.
  - erewrite (bind_Ret (getp i p_parent) _ _ (proc_at s i).(p_parent)) by done.
    rewrite bool_decide_false; [done|]. apply Hno. lia.
Qed.

(** The order in which [exit] gives up [wait_lock]: under the lock of the process. *)
Lemma release_under c lk s :
  calm c s -> s.(k_locks) !! lk = None -> lk <> proc_lock c ->
  release lk (acquired (proc_lock c) (acquired lk s)) = Ret tt (acquired (proc_lock c) s).
Proof.
  intros Hc Hl Hne. destruct (calm_hart _ _ Hc) as [Hn Hoff]. rewrite release_eq.
  - f_equal. unfold acquired. kext; ksimpl.
    + apply hart_swap; unfold hart_push; ksimpl; [lia|apply has_clear].
    + rewrite delete_insert_ne by done. by rewrite delete_insert_id.
  - unfold acquired. ksimpl. rewrite lookup_insert_ne by done. by rewrite lookup_insert_eq.
  - unfold acquired, hart_push. ksimpl. lia.
  - unfold acquired, hart_push. ksimpl. apply has_clear.
Qed.

Lemma proc_at_wakes ch p s i :
  (i < length s.(k_procs))%nat ->
  proc_at (wakes ch p s) i = if decide (i = p) then proc_at s i else wake (Some ch) (proc_at s i).
Proof.
  intros Hi. unfold proc_at, wakes. ksimpl. rewrite proc_at_wake_all by done. case_decide as E.
  - subst i. by rewrite bool_decide_true.
  - by rewrite bool_decide_false by congruence.
Qed.

Lemma wake_parent ch q : (wake ch q).(p_parent) = q.(p_parent).
Proof. unfold wake. by destruct (_ && _). Qed.

(** The state in which the process has closed its files and left its directory. *)
Definition left_dir (c : nat) (s : kstate) (ft : list file) (cwd : nat) : kstate :=
  upd_proc c (set_p_cwd None) (wakes log_chan c (upd_inode cwd unref_inode
    (upd_proc c (set_p_ofile (replicate (Z.to_nat NOFILE) None)) (set_ftable ft s)))).

Lemma left_dir_at c p s ft cwd i :
  leaver c p s ft cwd -> (i < Z.to_nat NPROC)%nat ->
  proc_at (left_dir c s ft cwd) i = if decide (i = c)
    then set_p_cwd None (set_p_ofile (replicate (Z.to_nat NOFILE) None) (proc_at s i))
    else wake (Some log_chan) (proc_at s i).
Proof.
  intros Hlv Hi. pose proof (lv_calm _ _ _ _ _ Hlv) as Hc. rewrite <- (calm_len _ _ Hc) in Hi.
  unfold left_dir. set (t := upd_proc c (set_p_ofile _) _). set (t1 := upd_inode cwd unref_inode t).
  assert (forall j, proc_at t1 j = proc_at t j) as Et by done.
  assert (length (k_procs t1) = length (k_procs s)) as El by apply length_alter.
  case_decide as E; [subst i|].
  - rewrite proc_at_upd_eq by (unfold wakes; ksimpl; rewrite length_wake_all; lia).
    rewrite proc_at_wakes, decide_True by (done || lia). rewrite Et. unfold t. by rewrite proc_at_upd_eq.
  - rewrite proc_at_upd_ne, proc_at_wakes, decide_False by (done || lia). rewrite Et. unfold t. by rewrite proc_at_upd_ne.
Qed.

(** The first half of [exit]. *)
Lemma exit_leaves c p s ft cwd (k : K unit) :
  (0 < wait_fuel)%nat -> leaver c p s ft cwd ->
  (for_each (seq 0 (Z.to_nat NOFILE)) (exit_file c) ;;
   begin_op ;;
   let! d := getp c p_cwd in
   deref d iput ;;
   end_op ;;
   setp c (set_p_cwd None) ;; k) s = k (left_dir c s ft cwd).
Proof.
  intros Hf Hlv. pose proof (lv_calm _ _ _ _ _ Hlv) as Hc.
  assert (c < length (k_procs s))%nat as Hlen by (rewrite (calm_len _ _ Hc); apply Hc).
  assert (closing c s ft 0 = s) as E0.
  { unfold closing. rewrite drop_0, <- (lv_refs _ _ _ _ _ Hlv).
    change (set_ftable (k_ftable s) s) with s. by apply upd_proc_id. }
  rewrite <- E0 at 1. erewrite bind_Ret by (eapply exit_files_ok; [exact Hlv|lia]).
  set (s1 := upd_proc c (set_p_ofile (replicate (Z.to_nat NOFILE) None)) (set_ftable ft s)).
  assert (closing c s ft (Z.to_nat NOFILE) = s1) as ->.
  { unfold closing. rewrite drop_ge by (by rewrite (lv_len _ _ _ _ _ Hlv)). by rewrite app_nil_r. }
  assert (calm c s1) as Hc1 by (apply (calm_ext c s); try done; apply length_alter).
  erewrite bind_Ret by (eapply begin_op_ready; [done|exact Hc1|apply Hlv|apply Hlv]).
  erewrite (bind_Ret (getp c p_cwd) _ _ (Some cwd)).
  2:{ unfold getp, get. f_equal. change (proc_at (opened s1) c) with (proc_at s1 c). unfold s1.
      rewrite proc_at_upd_eq by done. exact (lv_cwd _ _ _ _ _ Hlv). }
  cbn [deref]. assert (calm c (opened s1)) as Hc1' by (by apply (calm_ext c s1)).
  erewrite bind_Ret by (eapply iput_shared; [exact Hc1'|apply Hlv|exact (lv_iref _ _ _ _ _ Hlv)]).
  change (upd_inode cwd unref_inode (opened s1)) with (opened (upd_inode cwd unref_inode s1)).
  erewrite bind_Ret by (apply (end_op_ready c); [by apply (calm_ext c s1)|apply Hlv|apply Hlv]).
  by erewrite bind_Ret by done.
Qed.

(** [exit] closes the files, leaves the directory, wakes the parent and gives up
    the cpu as a zombie, with its own lock held. *)
Lemma exit_ok c p s ft cwd status :
  (0 < wait_fuel)%nat -> leaver c p s ft cwd ->
  exists e k, exit status s = Switch (acquired (proc_lock c) e) k /\
    e = set_procs e.(k_procs) (set_ftable ft (upd_inode cwd unref_inode s)) /\
    length e.(k_procs) = length s.(k_procs) /\
    proc_at e c = zombie_proc status (proc_at s c) /\
    forall i, (i < Z.to_nat NPROC)%nat -> i <> c ->
      proc_at e i = wake (Some (proc_chan p)) (wake (Some log_chan) (proc_at s i)).
Proof.
  intros Hf Hlv. pose proof (lv_calm _ _ _ _ _ Hlv) as Hc. unfold exit.
  assert (c < Z.to_nat NPROC)%nat as Hcn by apply Hc.
  erewrite bind_Ret by (by apply curproc_calm). erewrite (bind_Ret (get k_initproc) _ _ (k_initproc s)) by done.
  rewrite bool_decide_false by (intros E; by apply (lv_init _ _ _ _ _ Hlv)).
  rewrite (exit_leaves c p s ft cwd) by done. pose proof (fun i => left_dir_at c p s ft cwd i Hlv) as Hat.
  set (s4 := left_dir c s ft cwd) in *.
  assert (length (k_procs s4) = length (k_procs s)) as El4.
  { unfold s4, left_dir, upd_proc, wakes, upd_inode. ksimpl. by rewrite length_alter, length_wake_all, length_alter. }
  assert (calm c s4) as Hc4 by (by apply (calm_ext c s)).
  assert (k_locks s4 !! wait_lock = None) as Hw by apply Hlv.
  erewrite bind_Ret by (by apply acquire_free).
  assert (forall i, (i < Z.to_nat NPROC)%nat -> p_parent (proc_at s4 i) = p_parent (proc_at s i)) as Hpar.
  { intros i Hi. rewrite Hat by done. case_decide; [done|apply wake_parent]. }
  erewrite (bind_Ret (reparent c)).
  2:{ apply reparent_none. intros j Hj. unfold child_of. change (proc_at (acquired wait_lock s4) j) with (proc_at s4 j).
      rewrite Hpar by lia. apply (lv_kids _ _ _ _ _ Hlv). lia. }
  erewrite (bind_Ret (getp c p_parent) _ _ (Some p)).
  2:{ unfold getp, get. change (proc_at (acquired wait_lock s4) c) with (proc_at s4 c). rewrite Hpar by done.
      by rewrite (lv_parent _ _ _ _ _ Hlv). }
  assert (calm c (acquired wait_lock s4)) as Hca by (by apply calm_acquired).
  set (s5 := wakes (proc_chan p) c s4).
  erewrite (bind_Ret (wakeup _) _ _ tt (acquired wait_lock s5)) by (exact (wakeup_calm c _ _ Hca)).
  assert (calm c s5) as Hc5 by (by apply calm_wakes).
  erewrite bind_Ret by (apply acquire_free, (calm_plocks c); by apply calm_acquired).
  set (e := upd_proc c (set_p_state ZOMBIE) (upd_proc c (set_p_xstate status) s5)).
  erewrite (bind_Ret (setp c _) _ _ tt) by done.
  erewrite (bind_Ret (setp c _) _ _ tt (acquired (proc_lock c) (acquired wait_lock e))) by done.
  assert (length (k_procs e) = length (k_procs s)) as Ele.
  { unfold e, upd_proc, s5, wakes. ksimpl. by rewrite !length_alter, length_wake_all. }
  assert (calm c e) as Hce by (by apply (calm_ext c s)).
  erewrite bind_Ret by (by apply release_under).
  assert (proc_at e c = zombie_proc status (proc_at s c)) as Eself.
  { unfold e. rewrite !proc_at_upd_eq by (rewrite ?(calm_len _ _ Hc5); unfold upd_proc; ksimpl; rewrite ?length_alter; rewrite ?(calm_len _ _ Hc5); done).
    unfold s5. rewrite proc_at_wakes, decide_True by (rewrite ?(calm_len _ _ Hc4); done).
    rewrite Hat, decide_True by done. done. }
  exists e. eexists. split.
  - unfold bind at 1. rewrite (sched_switch c).
    + reflexivity.
    + apply Hce.
    + constructor; unfold acquired, hart_push; ksimpl; [apply lookup_insert_eq| |apply has_clear].
      change (c_noff (k_hart e)) with (c_noff (k_hart s)). rewrite (lv_noff _ _ _ _ _ Hlv). done.
    + change (proc_at (acquired (proc_lock c) e) c) with (proc_at e c). by rewrite Eself.
  - split_and!; [done|done|done|]. intros i Hi Hne. unfold e. rewrite !proc_at_upd_ne by done.
    unfold s5. rewrite proc_at_wakes, decide_False by (rewrite ?(calm_len _ _ Hc4); done).
    by rewrite Hat, decide_False by done.
Qed.

End Exit.

(** ** The life of a child *)

Section Life.
Context {I : KernelImage} {L : KernelLayout I} {F : WaitFuel} {Disk : BlockDev}.

(** A child that starts and exits: [forkret] gives up the lock with which the
    scheduler has switched to it, and the program calls [exit]. *)
Definition start_exit (c : nat) (status : Z) : K unit :=
  release (proc_lock c) ;; exit status.

(** What a parent [p] that forks and then waits needs besides [forker]: it holds no
    lock and is not killed, the log is ready, free slots have no children and are
    not init, and no child of it has ended. *)
Record parent_ok (p : nat) (s : kstate) (cwd : nat) : Prop := {
  pk_noff : s.(k_hart).(c_noff) = 0;
  pk_killed : (proc_at s p).(p_killed) = 0;
  pk_loglock : s.(k_locks) !! log_lock = None;
  pk_log : log_ready s.(k_log);
  pk_init : forall i, s.(k_initproc) = Some i -> (proc_at s i).(p_state) <> UNUSED;
  pk_kids : forall i c, (i < Z.to_nat NPROC)%nat -> child_of s c i -> (proc_at s c).(p_state) <> UNUSED;
  pk_zombies : forall i, (i < Z.to_nat NPROC)%nat -> ~ zombie_of s p i;
  pk_cwd : (cwd < length s.(k_itable))%nat /\ 1 <= (inode_at s cwd).(i_ref);
}.

Lemma resched_ok p q s :
  calm p s -> (proc_at s q).(p_state) = RUNNABLE ->
  exists k, resched p q (acquired (proc_lock p) s) = Switch (dispatched q (upd_hart (set_c_proc None) s)) k.
Proof.
  intros Hc Hq. unfold resched. erewrite (bind_Ret (modify _) _ _ tt) by done.
  set (t := upd_hart (set_c_proc None) s).
  assert (hart_norm (k_hart t) = k_hart t) as Hn.
  { change (hart_norm (k_hart t)) with (set_c_proc None (hart_norm (k_hart s))). by rewrite (calm_norm _ _ Hc). }
  erewrite (bind_Ret (release _) _ _ tt t).
  2:{ rewrite (release_acquired t); [by rewrite Hn|apply Hc|apply Hc|done|done]. }
  destruct (scheduler_try_runnable q t) as (k & Hk & _); [apply Hc|exact Hq|]. by exists k.
Qed.

Lemma calm_on_cpu p q s : calm p s -> (q < Z.to_nat NPROC)%nat -> calm q (on_cpu q s).
Proof.
  intros [H1 H2 H3 H4 H5 H6] Hq. constructor; try done; [|by rewrite <- H4; apply length_alter].
  change (hart_norm (k_hart (on_cpu q s))) with (set_c_proc (Some q) (hart_norm (k_hart s))). by rewrite H2.
Qed.

Lemma release_dispatched p q s :
  calm p s -> (q < Z.to_nat NPROC)%nat ->
  release (proc_lock q) (dispatched q (upd_hart (set_c_proc None) s)) = Ret tt (on_cpu q s).
Proof.
  intros Hc Hq. pose proof (calm_on_cpu p q s Hc Hq) as Hr.
  rewrite (release_calm q (on_cpu q s)); [done|exact Hr|apply Hc|done|done].
Qed.

(** [wait] goes to sleep. *)
Lemma asleep_acquired p ch s :
  s.(k_locks) !! wait_lock = None ->
  asleep p ch wait_lock (acquired wait_lock s) =
  acquired (proc_lock p) (upd_proc p (fun q => set_p_state SLEEPING (set_p_chan (Some ch) q)) s).
Proof. intros Hw. unfold asleep, acquired. kext; ksimpl. by rewrite delete_insert_id. Qed.

(** [wait] goes on in the state in which the scheduler resumes it. *)
Lemma roused_dispatched p c s h :
  calm c s -> s.(k_hart).(c_noff) = 0 -> h.(c_noff) = 0 -> h.(sstatus) = s.(k_hart).(sstatus) ->
  roused p (hart_push h).(c_intena) (dispatched p (upd_hart (set_c_proc None) s)) =
  upd_proc p (set_p_chan None) (on_cpu p s).
Proof.
  intros Hc Hn Hn' Es. unfold roused, dispatched, on_cpu, acquired. kext; ksimpl.
  - assert (set_c_intena (c_intena (hart_push h)) (set_c_proc (Some p) (hart_push (set_c_proc None (k_hart s)))) =
      hart_push (set_c_proc (Some p) (k_hart s))) as ->.
    { unfold hart_push. ksimpl. rewrite Hn, Hn', Es. done. }
    rewrite hart_pop_push by apply Hc.
    change (hart_norm (set_c_proc (Some p) (k_hart s))) with (set_c_proc (Some p) (hart_norm (k_hart s))).
    by rewrite (calm_norm _ _ Hc).
  - by rewrite delete_insert_id by apply Hc.
Qed.

Lemma wake_is ch q : exists st, wake ch q = set_p_state st q /\ (st = ZOMBIE <-> q.(p_state) = ZOMBIE).
Proof.
  unfold wake. destruct (bool_decide (q.(p_state) = SLEEPING)) eqn:E; cbn [andb].
  - apply bool_decide_eq_true in E. case_bool_decide; [exists RUNNABLE; by rewrite E|by exists q.(p_state)].
  - by exists q.(p_state).
Qed.

Lemma wake_on ch q : q.(p_state) = SLEEPING -> q.(p_chan) = ch -> (wake ch q).(p_state) = RUNNABLE.
Proof. intros H1 H2. unfold wake. by rewrite !bool_decide_true. Qed.

(** A sleeper that two wakeups reach, the second on its channel. *)
Lemma wake_wake ch ch' q :
  q.(p_state) = SLEEPING -> q.(p_chan) = ch -> (wake ch (wake ch' q)).(p_state) = RUNNABLE.
Proof.
  intros H1 H2. destruct (decide (ch' = ch)) as [->|Hne].
  - unfold wake at 2. rewrite !bool_decide_true by done. done.
  - unfold wake at 2. rewrite (bool_decide_false (p_chan q = ch')) by congruence. rewrite andb_false_r. by apply wake_on.
Qed.

Section Child.
Context (p : nat) (s : kstate) (l : list Z) (root tf sz : Z) (cwd np : nat) (croot ctf : Z) (s1 : kstate) (l' : list Z).
Context (Hfk : forker p s l root tf sz cwd) (Hpk : parent_ok p s cwd) (Hnp : (np < Z.to_nat NPROC)%nat).
Context (Hun : (proc_at s np).(p_state) = UNUSED).
Context (Hd : forked p s l root tf sz cwd np croot ctf s1 l').

Lemma child_ne : p <> np.
Proof using Hfk Hun. intros E. apply (fk_used _ _ _ _ _ _ _ Hfk). rewrite E. exact Hun. Qed.

Lemma child_at : proc_at s1 np = child_proc p (proc_at s p) s.(k_nextpid) ctf croot (proc_at s np).
Proof using Hfk Hnp Hd.
  destruct (fd_state _ _ _ _ _ _ _ _ _ _ _ _ Hd) as (m & fl & E). rewrite E.
  etransitivity; [apply proc_at_upd_eq|reflexivity].
  change (np < length (k_procs s))%nat. by rewrite (calm_len _ _ (fk_calm _ _ _ _ _ _ _ Hfk)).
Qed.

Lemma others_at i : i <> np -> proc_at s1 i = proc_at s i.
Proof using Hd. intros Hi. destruct (fd_state _ _ _ _ _ _ _ _ _ _ _ _ Hd) as (m & fl & E). rewrite E. by rewrite proc_at_upd_ne. Qed.

Lemma calm_forked : calm p s1.
Proof using Hfk Hd.
  destruct (fd_state _ _ _ _ _ _ _ _ _ _ _ _ Hd) as (m & fl & E). rewrite E. apply (calm_ext p s); try done; [apply Hfk|].
  apply length_alter.
Qed.

(** The parent asleep in [wait]. *)
Definition waiting : kstate :=
  upd_proc p (fun q => set_p_state SLEEPING (set_p_chan (Some (proc_chan p)) q)) s1.

Lemma calm_waiting : calm p waiting.
Proof using Hfk Hd. apply (calm_ext p s1); try done; [apply calm_forked|apply length_alter]. Qed.

Lemma waiting_at i : i <> p -> proc_at waiting i = proc_at s1 i.
Proof using. intros Hi. unfold waiting. by rewrite proc_at_upd_ne. Qed.

Lemma on_cpu_at q t i : i <> q -> proc_at (on_cpu q t) i = proc_at t i.
Proof using. intros Hi. exact (proc_at_upd_ne t q i _ (not_eq_sym Hi)). Qed.

Lemma on_cpu_self q t : (q < length t.(k_procs))%nat -> proc_at (on_cpu q t) q = set_p_state RUNNING (proc_at t q).
Proof using. exact (proc_at_upd_eq t q _). Qed.

Lemma child_on_cpu : proc_at (on_cpu np waiting) np =
  set_p_state RUNNING (child_proc p (proc_at s p) s.(k_nextpid) ctf croot (proc_at s np)).
Proof using Hfk Hnp Hun Hd.
  rewrite on_cpu_self by (by rewrite (calm_len _ _ calm_waiting)).
  rewrite waiting_at by (intros E; by apply child_ne). by rewrite child_at.
Qed.

(** The child may exit. *)
Lemma child_leaver : leaver np p (on_cpu np waiting) s.(k_ftable) cwd.
Proof using Hfk Hpk Hnp Hun Hd.
  pose proof child_ne as Hne. pose proof child_on_cpu as Ec. pose proof (calm_on_cpu p np _ calm_waiting Hnp) as Hc.
  destruct (fd_state _ _ _ _ _ _ _ _ _ _ _ _ Hd) as (m & fl & E1).
  assert (k_locks (on_cpu np waiting) = k_locks s) as El by (unfold on_cpu, waiting; by rewrite E1).
  assert (k_hart (on_cpu np waiting) = set_c_proc (Some np) (k_hart s)) as Eh by (unfold on_cpu, waiting; by rewrite E1).
  assert (k_log (on_cpu np waiting) = k_log s) as Elog by (unfold on_cpu, waiting; by rewrite E1).
  assert (k_initproc (on_cpu np waiting) = k_initproc s) as Ei by (unfold on_cpu, waiting; by rewrite E1).
  constructor; rewrite ?El, ?Elog, ?Ei, ?Ec; [exact Hc|by rewrite Eh; apply Hpk|intros E; by apply (pk_init _ _ _ Hpk np)
    |apply Hfk|apply Hfk|apply Hpk|apply Hfk|exact (fk_ofile _ _ _ _ _ _ _ Hfk)| |exact (fk_files _ _ _ _ _ _ _ Hfk)
    |exact (fk_cwd _ _ _ _ _ _ _ Hfk)| |apply Hpk|done|].
  - unfold on_cpu, waiting. rewrite E1. done.
  - unfold on_cpu, waiting, inode_at. rewrite E1. ksimpl. destruct (pk_cwd _ _ _ Hpk) as [Hlen Hr].
    rewrite lookup_total_alter_eq by done. unfold inode_at in Hr. unfold ref_inode. cbn. lia.
  - intros i Hi Hch. unfold child_of in Hch. destruct (decide (i = np)) as [->|Hin].
    { rewrite Ec in Hch. injection Hch as E. done. }
    rewrite on_cpu_at in Hch by done. destruct (decide (i = p)) as [->|Hip].
    + unfold waiting in Hch. rewrite proc_at_upd_eq in Hch by (rewrite (calm_len _ _ calm_forked); apply Hfk).
      cbn in Hch. rewrite others_at in Hch by done. by apply (pk_kids _ _ _ Hpk p np).
    + rewrite waiting_at, others_at in Hch by done. by apply (pk_kids _ _ _ Hpk i np).
Qed.

(** The state [e] in which the child has ended, as [exit_ok] gives it. *)
Section Ended.
Context (e : kstate) (status : Z).
Context (Ee : e = set_procs e.(k_procs) (set_ftable s.(k_ftable) (upd_inode cwd unref_inode (on_cpu np waiting)))).
Context (Elen : length e.(k_procs) = length (on_cpu np waiting).(k_procs)).
Context (Eself : proc_at e np = zombie_proc status (proc_at (on_cpu np waiting) np)).
Context (Eothers : forall i, (i < Z.to_nat NPROC)%nat -> i <> np ->
  proc_at e i = wake (Some (proc_chan p)) (wake (Some log_chan) (proc_at (on_cpu np waiting) i))).

Lemma calm_ended : calm np e.
Proof using Hfk Hnp Hd Ee Elen.
  apply (calm_ext np (on_cpu np waiting)); [apply (calm_on_cpu p), Hnp; exact calm_waiting| | |exact Elen];
    by rewrite Ee.
Qed.

Lemma parent_woken : exists st, proc_at e p = set_p_state st (proc_at waiting p) /\ st = RUNNABLE.
Proof using Hfk Hun Hd Eothers.
  pose proof child_ne as Hne. assert (p < Z.to_nat NPROC)%nat as Hp by apply Hfk.
  assert (proc_at waiting p = set_p_state SLEEPING (set_p_chan (Some (proc_chan p)) (proc_at s1 p))) as Ew.
  { unfold waiting. apply proc_at_upd_eq. by rewrite (calm_len _ _ calm_forked). }
  pose proof (Eothers p Hp Hne) as E. rewrite on_cpu_at in E by done.
  destruct (wake_is (Some log_chan) (proc_at waiting p)) as (st1 & E1 & _).
  destruct (wake_is (Some (proc_chan p)) (wake (Some log_chan) (proc_at waiting p))) as (st2 & E2 & _).
  pose proof (wake_wake (Some (proc_chan p)) (Some log_chan) (proc_at waiting p)) as Hst.
  rewrite E2 in Hst. specialize (Hst ltac:(by rewrite Ew) ltac:(by rewrite Ew)).
  exists st2. split; [|exact Hst]. by rewrite E, E2, E1.
Qed.

(** The state in which [wait] looks at the table again. *)
Definition rescanning : kstate := upd_proc p (set_p_chan None) (on_cpu p e).

Lemma rescanning_at i : i <> p -> proc_at rescanning i = proc_at e i.
Proof using. intros Hi. unfold rescanning. rewrite proc_at_upd_ne by done. by apply on_cpu_at. Qed.

Lemma rescanning_zombies i :
  (i < Z.to_nat NPROC)%nat -> i <> np -> ~ zombie_of rescanning p i.
Proof using Hfk Hpk Hnp Hun Hd Eothers Ee Elen.
  intros Hi Hin [Hch Hst]. destruct (decide (i = p)) as [->|Hip].
  { assert (p < length (k_procs e))%nat as Hp.
    { rewrite Elen. unfold on_cpu, upd_proc. ksimpl. rewrite length_alter, (calm_len _ _ calm_waiting). apply Hfk. }
    assert (length (k_procs (on_cpu p e)) = length (k_procs e)) as El by apply length_alter.
    unfold rescanning in Hst. rewrite proc_at_upd_eq in Hst by lia. cbn in Hst. by rewrite on_cpu_self in Hst. }
  unfold child_of in Hch. rewrite rescanning_at, Eothers, on_cpu_at, waiting_at, others_at in * by done.
  destruct (wake_is (Some log_chan) (proc_at s i)) as (st1 & E1 & Hz1).
  destruct (wake_is (Some (proc_chan p)) (wake (Some log_chan) (proc_at s i))) as (st2 & E2 & Hz2).
  rewrite E2 in Hch, Hst. rewrite E1 in Hch, Hz2. apply (pk_zombies _ _ _ Hpk i Hi). split; [exact Hch|].
  apply Hz1, Hz2. exact Hst.
Qed.

Lemma rescanning_reaper :
  reaper p np rescanning l' root tf sz croot ctf sz /\ (proc_at rescanning np).(p_pid) = s.(k_nextpid) /\
  (proc_at rescanning np).(p_xstate) = status.
Proof using Hfk Hpk Hnp Hun Hd Ee Elen Eself Eothers.
  pose proof child_ne as Hne. pose proof calm_ended as Hce.
  assert (p < Z.to_nat NPROC)%nat as Hp by apply Hfk.
  assert (calm p rescanning) as Hcr.
  { apply (calm_ext p (on_cpu p e)); try done; [by apply (calm_on_cpu np)|apply length_alter]. }
  assert (proc_at rescanning np = zombie_proc status (set_p_state RUNNING
    (child_proc p (proc_at s p) s.(k_nextpid) ctf croot (proc_at s np)))) as Ec.
  { rewrite rescanning_at by done. by rewrite Eself, child_on_cpu. }
  assert (k_mem rescanning = k_mem s1) as Em by (unfold rescanning, on_cpu at 1; by rewrite Ee).
  assert (k_freelist rescanning = k_freelist s1) as Ef by (unfold rescanning, on_cpu at 1; by rewrite Ee).
  assert (k_locks rescanning = k_locks s1) as El by (unfold rescanning, on_cpu at 1; by rewrite Ee).
  assert (k_locks s1 = k_locks s) as El1.
  { destruct (fd_state _ _ _ _ _ _ _ _ _ _ _ _ Hd) as (m & fl & E). by rewrite E. }
  destruct Hd as [_ Hc Hps Hap Htf _ _ _ _ _].
  assert (k_locks rescanning !! kmem_lock = None) as Hkl.
  { rewrite El. apply (rep_lock _ l'), (vr_kmem _ root), (uv_rep _ _ (below sz)), Hps. }
  split; [|by rewrite Ec]. constructor; rewrite ?Em; try done.
  - rewrite El, El1. apply Hfk.
  - split; [unfold child_of|]; by rewrite Ec.
  - intros i Hi. apply rescanning_zombies; lia.
  - apply (proc_space_state s1); try done. apply Hcr.
  - assert (p < length (k_procs (on_cpu p e)))%nat as Hp' by (rewrite (calm_len _ _ (calm_on_cpu np p e Hce Hp)); done).
    unfold rescanning. rewrite proc_at_upd_eq by done. cbn.
    rewrite on_cpu_self by (by rewrite (calm_len _ _ Hce)). cbn. destruct parent_woken as (st & -> & _). cbn.
    unfold waiting. rewrite proc_at_upd_eq by (by rewrite (calm_len _ _ calm_forked)). cbn.
    rewrite others_at by done. apply (fk_root _ _ _ _ _ _ _ Hfk).
  - apply (proc_space_state s1); try done. apply Hcr.
  - by rewrite Ec.
  - by rewrite Ec.
  - rewrite Ec. exact (fk_sz _ _ _ _ _ _ _ Hfk).
Qed.

End Ended.
End Child.
(** The parent sleeps in [wait], the child runs and exits, and the parent goes on. *)
Lemma life_runs p s l root tf sz cwd np croot ctf s1 l' status addr n :
  wait_fuel = S (S n) -> forker p s l root tf sz cwd -> parent_ok p s cwd ->
  (np < Z.to_nat NPROC)%nat -> (proc_at s np).(p_state) = UNUSED ->
  forked p s l root tf sz cwd np croot ctf s1 l' ->
  exists e k1 k2 k3 k4, let w := waiting p s1 in
    wait addr s1 = Switch (acquired (proc_lock p) w) k1 /\
    resched p np (acquired (proc_lock p) w) = Switch (dispatched np (upd_hart (set_c_proc None) w)) k2 /\
    start_exit np status (dispatched np (upd_hart (set_c_proc None) w)) = Switch (acquired (proc_lock np) e) k3 /\
    e = set_procs e.(k_procs) (set_ftable s.(k_ftable) (upd_inode cwd unref_inode (on_cpu np w))) /\
    proc_at e np = zombie_proc status (proc_at (on_cpu np w) np) /\
    resched np p (acquired (proc_lock np) e) = Switch (dispatched p (upd_hart (set_c_proc None) e)) k4 /\
    k1 (dispatched p (upd_hart (set_c_proc None) e)) = wait (F := S n) addr (rescanning p e) /\
    reaper p np (rescanning p e) l' root tf sz croot ctf sz /\
    (proc_at (rescanning p e) np).(p_pid) = s.(k_nextpid) /\
    (proc_at (rescanning p e) np).(p_xstate) = status.
Proof.
  intros HF Hfk Hpk Hnp Hun Hd. pose proof (calm_forked _ _ _ _ _ _ _ _ _ _ _ _ Hfk Hd) as Hc1.
  pose proof (calm_waiting _ _ _ _ _ _ _ _ _ _ _ _ Hfk Hd) as Hcw. set (w := waiting p s1) in *.
  pose proof (child_ne _ _ _ _ _ _ _ _ Hfk Hun) as Hne. pose proof (child_at _ _ _ _ _ _ _ _ _ _ _ _ Hfk Hnp Hd) as Ec.
  pose proof (fun i => others_at _ _ _ _ _ _ _ _ _ _ _ _ Hd i) as Eo.
  assert (p < Z.to_nat NPROC)%nat as Hp by apply Hfk.
  destruct (fd_state _ _ _ _ _ _ _ _ _ _ _ _ Hd) as (m & fl & E1).
  assert (k_hart s1 = k_hart s /\ k_locks s1 = k_locks s) as [Eh El] by (by rewrite E1).
  assert (k_locks s1 !! wait_lock = None) as Hw by (rewrite El; apply Hfk).
  destruct (wait_alive p s1 addr (S n) HF Hc1 Hw) as [_ Hwait].
  { intros i Hi [Hch Hst]. destruct (decide (i = np)) as [->|Hin]; [by rewrite Ec in Hst|].
    unfold child_of in Hch. rewrite Eo in * by done. by apply (pk_zombies _ _ _ Hpk i Hi). }
  { exists np. split; [done|]. unfold child_of. by rewrite Ec. }
  destruct Hwait as (k1 & Hk1 & Hr1); [rewrite Eo by done; apply Hpk|rewrite Eh; apply Hpk|].
  rewrite asleep_acquired in Hk1 by done. fold (waiting p s1) in Hk1. fold w in Hk1.
  assert (proc_at w np = proc_at s1 np) as Ewn by (apply waiting_at; congruence).
  destruct (resched_ok p np w Hcw) as (k2 & Hk2); [by rewrite Ewn, Ec|].
  destruct (exit_ok np p (on_cpu np w) s.(k_ftable) cwd status) as (e & k3 & Hk3 & Ee & Elen & Eself & Eoth);
    [lia|by eapply child_leaver|].
  pose proof (calm_ended _ _ _ _ _ _ _ _ _ _ _ _ Hfk Hnp Hd e Ee Elen) as Hce.
  destruct (parent_woken _ _ _ _ _ _ _ _ _ _ _ _ Hfk Hun Hd e Eoth) as (st & Ep & ->).
  destruct (resched_ok np p e Hce) as (k4 & Hk4); [by rewrite Ep|].
  assert (k_hart e = set_c_proc (Some np) (k_hart s1) /\ k_locks e = k_locks s1) as [Ehe Ele] by (by rewrite Ee).
  exists e, k1, k2, k3, k4. split; [exact Hk1|]. split; [exact Hk2|]. split.
  { unfold start_exit. by erewrite bind_Ret by (by apply (release_dispatched p)). }
  split; [exact Ee|]. split; [exact Eself|]. split; [exact Hk4|]. split.
  - rewrite Hr1.
    + f_equal. apply (roused_dispatched p np); [exact Hce| | |]; rewrite ?Ehe, ?Eh; cbn; first [done|apply Hpk].
    + constructor; unfold dispatched, acquired, hart_push; ksimpl; [apply lookup_insert_eq| |apply has_clear].
      rewrite Ehe, Eh. cbn. rewrite (pk_noff _ _ _ Hpk). done.
    + unfold dispatched, acquired. ksimpl. rewrite lookup_insert_ne by done. by rewrite Ele.
    + done.
  - by eapply rescanning_reaper.
Qed.

(** [C4] The life of a child takes nothing away. When [fork] has returned the pid of a child, the
    parent's [wait] goes to sleep; the scheduler runs the child, whose [exit] ends as a zombie and wakes
    the parent; the scheduler runs the parent, whose [wait] returns that pid with the exit status stored
    at the user address. Then the free pages are those before the [fork], the slot is free again, the
    parent has its address space, the file table and the inode table have the reference counts
    before the [fork], and the same locks are held. *)
Theorem fork_wait_conserves p s l root tf sz cwd pid s1 status addr n :
  wait_fuel = S (S n) -> forker p s l root tf sz cwd -> parent_ok p s cwd ->
  fork s = Ret pid s1 -> pid <> -1 ->
  0 <= addr -> addr + 4 <= 2 ^ 64 - PGSIZE ->
  (addr <> 0 -> forall i, (i < 4)%nat -> writable s1.(k_mem) root (addr + Z.of_nat i)) ->
  exists np w k1 x k2 z k3 y k4 s2 l2,
    wait addr s1 = Switch w k1 /\ (proc_at w p).(p_state) = SLEEPING /\
    resched p np w = Switch x k2 /\
    start_exit np status x = Switch z k3 /\ (proc_at z np).(p_state) = ZOMBIE /\
    resched np p z = Switch y k4 /\
    k1 y = Ret pid s2 /\
    (addr <> 0 -> forall i v, le_encode 4 status !! i = Some v ->
       load8 s2.(k_mem) (uaddr s1.(k_mem) root (addr + Z.of_nat i)) = v) /\
    (proc_at s2 np).(p_state) = UNUSED /\
    proc_space s2 root tf sz l2 /\ (forall q, q ∈ l2 <-> q ∈ l) /\
    s2.(k_ftable) = s.(k_ftable) /\ s2.(k_itable) = s.(k_itable) /\ s2.(k_locks) = s.(k_locks).
Proof.
  intros HF Hfk Hpk Hr Hpid Ha1 Ha2 Hwr. destruct (fork_ok p s l root tf sz cwd Hfk) as (r & s' & Hr' & Hres).
  rewrite Hr in Hr'. injection Hr' as <- <-.
  destruct Hres as [[? _]|(Er & np & croot & ctf & l' & Hnp & Hun & _ & Hd)]; [done|].
  destruct (life_runs p s l root tf sz cwd np croot ctf s1 l' status addr n HF Hfk Hpk Hnp Hun Hd)
    as (e & k1 & k2 & k3 & k4 & H1 & H2 & H3 & Ee & Ez & H4 & H5 & Hrp & Epid & Ex).
  pose proof (calm_forked _ _ _ _ _ _ _ _ _ _ _ _ Hfk Hd) as Hc1.
  destruct (fd_state _ _ _ _ _ _ _ _ _ _ _ _ Hd) as (m1 & fl1 & E1).
  assert (k_mem (rescanning p e) = k_mem s1) as Em by (unfold rescanning, on_cpu at 1; by rewrite Ee).
  destruct (wait_ok (F := S n) p np _ l' root tf sz croot ctf sz addr ltac:(unfold wait_fuel; lia) Hrp Ha1 Ha2)
    as [(s2 & Hw & [(m & fl & E) (l2 & Hp2 & Hl2) Hst])|(m & i & _ & Hnz & Hi & Hbad & _)].
  2:{ rewrite Em in Hbad. by destruct Hbad; apply Hwr. }
  eexists np, _, k1, _, k2, _, k3, _, k4, s2, l2. split; [exact H1|]. split.
  { change (proc_at (acquired (proc_lock p) (waiting p s1)) p) with (proc_at (waiting p s1) p).
    unfold waiting. rewrite proc_at_upd_eq; [done|]. rewrite (calm_len _ _ Hc1). apply Hc1. }
  split; [exact H2|]. split; [exact H3|]. split.
  { change (proc_at (acquired (proc_lock np) e) np) with (proc_at e np). by rewrite Ez. }
  split; [exact H4|]. split; [by rewrite H5, Hw, Epid, Er|]. split.
  { intros Hnz i v Hv. rewrite <- Em. apply Hst; [done|]. by rewrite Ex. }
  split.
  { rewrite E, proc_at_upd_eq; [done|]. change (np < length (k_procs (rescanning p e)))%nat.
    by rewrite (calm_len _ _ (rp_calm _ _ _ _ _ _ _ _ _ _ Hrp)). }
  split; [exact Hp2|]. split.
  { intros q. rewrite Hl2, <- (fd_pages _ _ _ _ _ _ _ _ _ _ _ _ Hd), Em. tauto. }
  split_and!; rewrite E; unfold rescanning, on_cpu at 1; rewrite Ee; [done| |by rewrite E1].
  unfold on_cpu, waiting. rewrite E1.
  transitivity (alter unref_inode cwd (alter ref_inode cwd (k_itable s))); [done|].
  rewrite alter_alter. apply alter_id_same. intros x _.
  change (set_i_ref (i_ref x + 1 - 1) x = x). by replace (i_ref x + 1 - 1) with (i_ref x) by lia.
Qed.

End Life.

(** ** A concrete life *)

#[local] Existing Instance demo_image16.
#[local] Existing Instance demo_layout16.
#[local] Instance life_fuel : WaitFuel := 2%nat.

Lemma demo_no_kids s : s.(k_procs) = demo_procs -> forall i c, (i < Z.to_nat NPROC)%nat -> ~ child_of s c i.
Proof.
  intros Ep i c Hi Hch. unfold child_of, proc_at in Hch. rewrite Ep in Hch. destruct i as [|i]; [done|].
  change (Z.to_nat NPROC) with 64%nat in Hi. change (demo_procs !!! S i) with (replicate 63 (inhabitant : proc) !!! i) in Hch.
  rewrite lookup_total_replicate_2 in Hch by lia. done.
Qed.

Lemma demo_alloc_kept : demo_alloc.(k_log) = inhabitant /\ demo_alloc.(k_initproc) = None.
Proof. split; vm_compute; reflexivity. Qed.

#[local] Opaque demo_parent demo_alloc.

Lemma demo_forker : exists l, forker 0 demo_parent l demo_pt demo_tf 4096 0 /\ parent_ok 0 demo_parent 0.
Proof.
  destruct demo_parent_ok as (l & Hs & Hn & Hno & Hf). exists l.
  assert (k_procs demo_parent = demo_procs) as Ep by exact (frame_procs _ _ Hf).
  assert (k_locks demo_parent = ∅) as El by exact (f_equal k_locks Hf).
  assert (k_log demo_parent = inhabitant) as Eg by exact (eq_trans (f_equal k_log Hf) (proj1 demo_alloc_kept)).
  assert (k_initproc demo_parent = None) as Ei by exact (eq_trans (f_equal k_initproc Hf) (proj2 demo_alloc_kept)).
  assert (k_itable demo_parent = replicate 50 (set_i_ref 1 inhabitant)) as Et by exact (f_equal k_itable Hf).
  split.
  - apply demo_forker_ok; [exact Ep|exact El|exact (f_equal k_ftable Hf)|exact demo_parent_hart|exact Hs|exact Hn|exact Hno].
  - assert (proc_at demo_parent 0 = hd inhabitant demo_procs) as E0 by (unfold proc_at; by rewrite Ep).
    pose proof (demo_no_kids _ Ep) as Hk. constructor.
    + by rewrite demo_parent_hart.
    + by rewrite E0.
    + rewrite El. apply lookup_empty.
    + rewrite Eg. split; [done|done|done|done].
    + intros i Hi. rewrite Ei in Hi. discriminate Hi.
    + intros i c Hi Hch. by destruct (Hk i c Hi).
    + intros i Hi [Hch _]. by destruct (Hk i 0%nat Hi).
    + unfold inode_at. rewrite Et. split; [rewrite length_replicate; lia|]. by vm_compute.
Qed.

Lemma demo_fork_ret : exists s1, fork demo_parent = Ret 5 s1.
Proof.
  destruct demo_forker as (l & Hfk & _). destruct (fork_ok _ _ _ _ _ _ _ Hfk) as (r & s1 & Hr & _).
  pose proof demo_forks as Hv. exists s1. rewrite Hr in Hv |- *. injection Hv as ->. reflexivity.
Qed.

Lemma fork_wait_conserves_witness :
  exists (l : list Z) s1 np w k1 x k2 z k3 y k4 s2 l2, fork demo_parent = Ret 5 s1 /\
    wait 0 s1 = Switch w k1 /\ resched 0 np w = Switch x k2 /\ start_exit np 7 x = Switch z k3 /\
    resched np 0 z = Switch y k4 /\ k1 y = Ret 5 s2 /\
    proc_space s2 demo_pt demo_tf 4096 l2 /\ forall q, q ∈ l2 <-> q ∈ l.
Proof.
  destruct demo_forker as (l & Hfk & Hpk). destruct demo_fork_ret as (s1 & Hr).
  destruct (fork_wait_conserves 0 demo_parent l demo_pt demo_tf 4096 0 5 s1 7 0 0)
    as (np & w & k1 & x & k2 & z & k3 & y & k4 & s2 & l2 & H1 & _ & H2 & H3 & _ & H4 & H5 & _ & _ & Hs & Hl & _).
  { reflexivity. } { exact Hfk. } { exact Hpk. } { exact Hr. } { discriminate. } { lia. } { vm_compute. discriminate. }
  { intros Hz. destruct (Hz eq_refl). }
  exists l, s1, np, w, k1, x, k2, z, k3, y, k4, s2, l2. split_and!; assumption.
Defined.

(** A state in which [wait] has a child to reap: the one of the life above. *)
Lemma demo_reaper : exists s np l croot ctf,
  reaper 0 np s l demo_pt demo_tf 4096 croot ctf 4096 /\ (proc_at s np).(p_pid) = 5 /\ calm 0 s /\
  s.(k_locks) !! wait_lock = None.
Proof.
  destruct demo_forker as (l & Hfk & Hpk). destruct (fork_ok _ _ _ _ _ _ _ Hfk) as (r & s1 & Hr & Hres).
  destruct demo_fork_ret as (s1' & Hr'). rewrite Hr in Hr'. injection Hr' as -> <-.
  destruct Hres as [[Hz _]|(Er & np & croot & ctf & l' & Hnp & Hun & _ & Hd)]; [discriminate Hz|].
  destruct (life_runs 0 demo_parent l demo_pt demo_tf 4096 0 np croot ctf s1 l' 7 0 0 eq_refl Hfk Hpk Hnp Hun Hd)
    as (e & k1 & k2 & k3 & k4 & _ & _ & _ & _ & _ & _ & _ & Hrp & Epid & _).
  exists (rescanning 0 e), np, l', croot, ctf. split; [exact Hrp|]. split; [exact (eq_trans Epid (eq_sym Er))|]. split; apply Hrp.
Qed.

Lemma wait_correct_witness :
  exists s np l croot ctf s', wait 0 s = Ret 5 s' /\ reaped np s l demo_pt demo_tf 4096 croot ctf 4096 0 s'.
Proof.
  destruct demo_reaper as (s & np & l & croot & ctf & Hrp & Epid & Hc & Hw). exists s, np, l, croot, ctf.
  destruct (wait_correct (F := life_fuel) 0 s 0 1 eq_refl Hc Hw) as [H _].
  destruct (H np l demo_pt demo_tf 4096 croot ctf 4096 Hrp) as [(s' & Hr & Hrd)|Hbad].
  { lia. } { vm_compute. discriminate. }
  - exists s'. split; [|exact Hrd]. exact (eq_trans Hr (f_equal (fun v => Ret v s') Epid)).
  - destruct Hbad as (? & ? & _ & Hz & _). destruct (Hz eq_refl).
Defined.
