(* ===== verification/Syscall.v ===== *)
(** * System calls (syscall.c, sysproc.c, sysfile.c, syscall.h): definitions

    A system call returns a 64-bit value; a negative result is written as a
    negative number and wraps when it is stored in the trapframe. *)

From S2P Require Import Prelude Params Mem State Spinlock CString Kalloc Vm Proc Sleeplock Uart Printf.
From S2P Require Import Console Bio Log Fs File Exec.

(** ** syscall.h *)
Definition SYS_fork : Z := 1.
Definition SYS_exit : Z := 2.
Definition SYS_wait : Z := 3.
Definition SYS_pipe : Z := 4.
Definition SYS_read : Z := 5.
Definition SYS_kill : Z := 6.
Definition SYS_exec : Z := 7.
Definition SYS_fstat : Z := 8.
Definition SYS_chdir : Z := 9.
Definition SYS_dup : Z := 10.
Definition SYS_getpid : Z := 11.
Definition SYS_sbrk : Z := 12.
Definition SYS_sleep : Z := 13.
Definition SYS_uptime : Z := 14.
Definition SYS_open : Z := 15.
Definition SYS_write : Z := 16.
Definition SYS_mknod : Z := 17.
Definition SYS_unlink : Z := 18.
Definition SYS_link : Z := 19.
Definition SYS_mkdir : Z := 20.
Definition SYS_close : Z := 21.

Section Syscall.
Context {I : KernelImage} {F : WaitFuel} {Disk : BlockDev} {SP : StatPad}.

(** ** syscall.c: arguments *)

Definition fetchaddr (addr : Z) : K (option Z) :=
  let! p := curproc in
  let! sz := getp p p_sz in
  if (addr >=? sz) || (u64 (addr + 8) >? sz) then ret None else
  let! pt := getp p p_pagetable in
  let! r := copyin pt addr 8 in
  if negb (fst r =? 0) then ret None else ret (Some (le_decode (snd r))).

(** The length, and the string without its NUL. *)
Definition fetchstr (addr max : Z) : K (Z * list Z) :=
  let! p := curproc in
  let! pt := getp p p_pagetable in
  let! r := copyinstr pt addr max in
  if fst r <? 0 then ret (-1, []) else
  let bs := until_nul (snd r) in
  ret (Z.of_nat (length bs), bs).

Definition argraw (n : Z) : K Z :=
  let! p := curproc in
  let! tf := getp p p_trapframe in
  if n =? 0 then read64 (tf + TF_a0)
  else if n =? 1 then read64 (tf + TF_a1)
  else if n =? 2 then read64 (tf + TF_a2)
  else if n =? 3 then read64 (tf + TF_a3)
  else if n =? 4 then read64 (tf + TF_a4)
  else if n =? 5 then read64 (tf + TF_a5)
  else panic "argraw".

Definition argint (n : Z) : K Z := let! v := argraw n in ret (i32 v).
Definition argaddr (n : Z) : K Z := argraw n.
Definition argstr (n max : Z) : K (Z * list Z) :=
  let! addr := argaddr n in
  fetchstr addr max.

(** ** sysproc.c *)

Definition sys_exit : K Z :=
  let! n := argint 0 in
  exit n ;;
  ret 0.

Definition sys_getpid : K Z :=
  let! p := curproc in
  getp p p_pid.

Definition sys_fork : K Z := fork.

Definition sys_wait : K Z :=
  let! p := argaddr 0 in
  wait p.

Definition sys_sbrk : K Z :=
  let! n := argint 0 in
  let! p := curproc in
  let! addr := getp p p_sz in
  let! r := growproc n in
  if r <? 0 then ret (-1) else ret addr.

Fixpoint sys_sleep_loop (fuel : nat) (ticks0 n : Z) : K Z :=
  match fuel with
  | O => fun _ => OutOfFuel
  | S fuel' =>
      let! t := get k_ticks in
      if u32 (t - ticks0) <? n then
        let! p := curproc in
        let! k := killed p in
        if cbool k then release tickslock ;; ret (-1) else
        sleep ticks_chan tickslock ;;
        sys_sleep_loop fuel' ticks0 n
      else
        release tickslock ;;
        ret 0
  end.

Definition sys_sleep : K Z :=
  let! n := argint 0 in
  let n := if n <? 0 then 0 else n in
  acquire tickslock ;;
  let! ticks0 := get k_ticks in
  sys_sleep_loop wait_fuel ticks0 n.

Definition sys_kill : K Z :=
  let! pid := argint 0 in
  kill pid.

Definition sys_uptime : K Z :=
  acquire tickslock ;;
  let! xticks := get k_ticks in
  release tickslock ;;
  ret xticks.

(** ** sysfile.c *)

(** The descriptor and the file. *)
Definition argfd (n : Z) : K (option (nat * nat)) :=
  let! fd := argint n in
  if (fd <? 0) || (fd >=? NOFILE) then ret None else
  let! p := curproc in
  let! f := getp p (fun q => q.(p_ofile) !!! Z.to_nat fd) in
  match f with
  | None => ret None
  | Some f => ret (Some (Z.to_nat fd, f))
  end.

Fixpoint fdalloc_scan (ofile : list (option nat)) (fd : nat) : option nat :=
  match ofile with
  | [] => None
  | None :: _ => Some fd
  | Some _ :: ofile' => fdalloc_scan ofile' (S fd)
  end.

Definition fdalloc (f : nat) : K (option nat) :=
  let! p := curproc in
  let! ofile := getp p p_ofile in
  match fdalloc_scan ofile 0 with
  | None => ret None
  | Some fd =>
      setp p (fun q => set_p_ofile (<[fd := Some f]> q.(p_ofile)) q) ;;
      ret (Some fd)
  end.

(** [myproc()->ofile[fd] = 0] *)
Definition clear_fd (p fd : nat) : K unit :=
  setp p (fun q => set_p_ofile (<[fd := None]> q.(p_ofile)) q).

Definition sys_dup : K Z :=
  let! a := argfd 0 in
  match a with
  | None => ret (-1)
  | Some (_, f) =>
      let! fd := fdalloc f in
      match fd with
      | None => ret (-1)
      | Some fd => filedup f ;; ret (Z.of_nat fd)
      end
  end.

Definition sys_read : K Z :=
  let! p := argaddr 1 in
  let! n := argint 2 in
  let! a := argfd 0 in
  match a with
  | None => ret (-1)
  | Some (_, f) => fileread f p n
  end.

Definition sys_write : K Z :=
  let! p := argaddr 1 in
  let! n := argint 2 in
  let! a := argfd 0 in
  match a with
  | None => ret (-1)
  | Some (_, f) => filewrite f p n
  end.

Definition sys_close : K Z :=
  let! a := argfd 0 in
  match a with
  | None => ret (-1)
  | Some (fd, f) =>
      let! p := curproc in
      clear_fd p fd ;;
      fileclose f ;;
      ret 0
  end.

Definition sys_fstat : K Z :=
  let! st := argaddr 1 in
  let! a := argfd 0 in
  match a with
  | None => ret (-1)
  | Some (_, f) => filestat f st
  end.

(** [ip->nlink] plus or minus one, a [short]. *)
Definition add_nlink (ip : nat) (d : Z) : K unit :=
  seti ip (fun x => set_i_nlink (i16 (x.(i_nlink) + d)) x).

Definition sys_link_bad (ip : nat) : K Z :=
  ilock (Some ip) ;;
  add_nlink ip (-1) ;;
  iupdate ip ;;
  iunlockput ip ;;
  end_op ;;
  ret (-1).

(** Create the path new as a link to the same inode as old. *)
Definition sys_link : K Z :=
  let! old := argstr 0 MAXPATH in
  if fst old <? 0 then ret (-1) else
  let! new := argstr 1 MAXPATH in
  if fst new <? 0 then ret (-1) else
  begin_op ;;
  let! ip := namei (snd old) in
  match ip with
  | None => end_op ;; ret (-1)
  | Some ip =>
      ilock (Some ip) ;;
      let! type := geti ip i_type in
      if type =? T_DIR then iunlockput ip ;; end_op ;; ret (-1) else
      add_nlink ip 1 ;;
      iupdate ip ;;
      iunlock (Some ip) ;;
      let! d := nameiparent (snd new) in
      match d with
      | None => sys_link_bad ip
      | Some (dp, name) =>
          ilock (Some dp) ;;
          let! ddev := geti dp i_dev in
          let! x := geti ip id in
          let! fail := (if negb (ddev =? x.(i_dev)) then ret true
                        else let! r := dirlink dp name x.(i_inum) in ret (r <? 0)) in
          if (fail : bool) then iunlockput dp ;; sys_link_bad ip else
          iunlockput dp ;;
          iput ip ;;
          end_op ;;
          ret 0
      end
  end.

(** Is the directory dp empty except for . and .. ? *)
Fixpoint isdirempty_loop (fuel : nat) (dp : nat) (off : Z) : K bool :=
  let! size := geti dp i_size in
  if off <? size then
    match fuel with
    | O => fun _ => OutOfFuel
    | S fuel' =>
        let! r := readi dp (ToKernel 0) off DESIZE in
        if negb (fst r =? DESIZE) then panic "isdirempty: readi" else
        if negb ((dirent_decode (snd r)).(de_inum) =? 0) then ret false
        else isdirempty_loop fuel' dp (off + DESIZE)
    end
  else ret true.

Definition isdirempty (dp : nat) : K bool :=
  let! size := geti dp i_size in
  isdirempty_loop (Z.to_nat (size / DESIZE + 1)) dp (2 * DESIZE).

Definition sys_unlink_bad (dp : nat) : K Z :=
  iunlockput dp ;;
  end_op ;;
  ret (-1).

Definition sys_unlink : K Z :=
  let! path := argstr 0 MAXPATH in
  if fst path <? 0 then ret (-1) else
  begin_op ;;
  let! d := nameiparent (snd path) in
  match d with
  | None => end_op ;; ret (-1)
  | Some (dp, name) =>
      ilock (Some dp) ;;
      (* Cannot unlink . or .. *)
      if (namecmp name (str ".") =? 0) || (namecmp name (str "..") =? 0) then
        sys_unlink_bad dp else
      let! found := dirlookup dp name in
      match found with
      | None => sys_unlink_bad dp
      | Some (ip, off) =>
          ilock (Some ip) ;;
          let! x := geti ip id in
          if x.(i_nlink) <? 1 then panic "unlink: nlink < 1" else
          let! full := (if x.(i_type) =? T_DIR
                        then let! e := isdirempty ip in ret (negb e)
                        else ret false) in
          if (full : bool) then iunlockput ip ;; sys_unlink_bad dp else
          let! r := writei dp (FromKernel (replicate (Z.to_nat DESIZE) 0)) off DESIZE in
          if negb (r =? DESIZE) then panic "unlink: writei" else
          when (x.(i_type) =? T_DIR) (add_nlink dp (-1) ;; iupdate dp) ;;
          iunlockput dp ;;
          add_nlink ip (-1) ;;
          iupdate ip ;;
          iunlockput ip ;;
          end_op ;;
          ret 0
      end
  end.

(** [create]: the label [fail]. *)
Definition create_fail (ip dp : nat) : K (option nat) :=
  seti ip (set_i_nlink 0) ;;
  iupdate ip ;;
  iunlockput ip ;;
  iunlockput dp ;;
  ret None.

Definition create (path : list Z) (type major minor : Z) : K (option nat) :=
  let! d := nameiparent path in
  match d with
  | None => ret None
  | Some (dp, name) =>
      ilock (Some dp) ;;
      let! found := dirlookup dp name in
      match found with
      | Some (ip, _) =>
          iunlockput dp ;;
          ilock (Some ip) ;;
          let! t := geti ip i_type in
          if (type =? T_FILE) && ((t =? T_FILE) || (t =? T_DEVICE)) then ret (Some ip)
          else iunlockput ip ;; ret None
      | None =>
          let! ddev := geti dp i_dev in
          let! ip := ialloc ddev type in
          match ip with
          | None => iunlockput dp ;; ret None
          | Some ip =>
              ilock (Some ip) ;;
              seti ip (set_i_major major) ;;
              seti ip (set_i_minor minor) ;;
              seti ip (set_i_nlink 1) ;;
              iupdate ip ;;
              let! inum := geti ip i_inum in
              (* Create . and .. entries. *)
              let! bad := (if type =? T_DIR then
                             let! r := dirlink ip (str ".") inum in
                             if r <? 0 then ret true else
                             let! dinum := geti dp i_inum in
                             let! r := dirlink ip (str "..") dinum in
                             ret (r <? 0)
                           else ret false) in
              if (bad : bool) then create_fail ip dp else
              let! r := dirlink dp name inum in
              if r <? 0 then create_fail ip dp else
              (* now that success is guaranteed: *)
              when (type =? T_DIR) (add_nlink dp 1 ;; iupdate dp) ;;
              iunlockput dp ;;
              ret (Some ip)
          end
      end
  end.

(** The inode [sys_open] opens, locked, or [None]. *)
Definition open_inode (path : list Z) (omode : Z) : K (option nat) :=
  if has omode O_CREATE then create path T_FILE 0 0
  else
    let! ip := namei path in
    match ip with
    | None => ret None
    | Some ip =>
        ilock (Some ip) ;;
        let! t := geti ip i_type in
        if (t =? T_DIR) && negb (omode =? O_RDONLY) then iunlockput ip ;; ret None
        else ret (Some ip)
    end.

(** Allocate a file and a descriptor for it, or neither. *)
Definition open_fd : K (option (nat * nat)) :=
  let! f := filealloc in
  match f with
  | None => ret None
  | Some f =>
      let! fd := fdalloc f in
      match fd with
      | None => fileclose f ;; ret None
      | Some fd => ret (Some (f, fd))
      end
  end.

Definition sys_open : K Z :=
  let! omode := argint 1 in
  let! path := argstr 0 MAXPATH in
  if fst path <? 0 then ret (-1) else
  begin_op ;;
  let! ip := open_inode (snd path) omode in
  match ip with
  | None => end_op ;; ret (-1)
  | Some ip =>
      let! x := geti ip id in
      if (x.(i_type) =? T_DEVICE) && ((x.(i_major) <? 0) || (x.(i_major) >=? NDEV)) then
        iunlockput ip ;; end_op ;; ret (-1) else
      let! o := open_fd in
      match o with
      | None => iunlockput ip ;; end_op ;; ret (-1)
      | Some (f, fd) =>
          (if x.(i_type) =? T_DEVICE then
             setf f (set_f_type FD_DEVICE) ;;
             setf f (set_f_major x.(i_major))
           else
             setf f (set_f_type FD_INODE) ;;
             setf f (set_f_off 0)) ;;
          setf f (set_f_ip (Some ip)) ;;
          setf f (set_f_readable (negb (has omode O_WRONLY))) ;;
          setf f (set_f_writable (has omode O_WRONLY || has omode O_RDWR)) ;;
          when (has omode O_TRUNC && (x.(i_type) =? T_FILE)) (itrunc ip) ;;
          iunlock (Some ip) ;;
          end_op ;;
          ret (Z.of_nat fd)
      end
  end.

(** The common end of [sys_mkdir] and [sys_mknod]. *)
Definition put_created (ip : option nat) : K Z :=
  match ip with
  | None => end_op ;; ret (-1)
  | Some ip => iunlockput ip ;; end_op ;; ret 0
  end.

Definition sys_mkdir : K Z :=
  begin_op ;;
  let! path := argstr 0 MAXPATH in
  if fst path <? 0 then put_created None else
  let! ip := create (snd path) T_DIR 0 0 in
  put_created ip.

Definition sys_mknod : K Z :=
  begin_op ;;
  let! major := argint 1 in
  let! minor := argint 2 in
  let! path := argstr 0 MAXPATH in
  if fst path <? 0 then put_created None else
  let! ip := create (snd path) T_DEVICE (i16 major) (i16 minor) in
  put_created ip.

Definition sys_chdir : K Z :=
  let! p := curproc in
  begin_op ;;
  let! path := argstr 0 MAXPATH in
  if fst path <? 0 then end_op ;; ret (-1) else
  let! ip := namei (snd path) in
  match ip with
  | None => end_op ;; ret (-1)
  | Some ip =>
      ilock (Some ip) ;;
      let! t := geti ip i_type in
      if negb (t =? T_DIR) then iunlockput ip ;; end_op ;; ret (-1) else
      iunlock (Some ip) ;;
      let! cwd := getp p p_cwd in
      deref cwd iput ;;
      end_op ;;
      setp p (set_p_cwd (Some ip)) ;;
      ret 0
  end.

(** Fetch the argument vector; each string goes to a page of its own. Returns
    whether all went well, and the pages. *)
Fixpoint exec_argv (n : nat) (uargv i : Z) (argv : list Z) : K (bool * list Z) :=
  match n with
  | O => ret (false, argv)
  | S n' =>
      let! uarg := fetchaddr (u64 (uargv + 8 * i)) in
      match uarg with
      | None => ret (false, argv)
      | Some uarg =>
          if uarg =? 0 then ret (true, argv) else
          let! pg := kalloc in
          if pg =? 0 then ret (false, argv) else
          let! p := curproc in
          let! pt := getp p p_pagetable in
          let! r := copyinstr pt uarg PGSIZE in
          set_memory (fun m => store_bytes m pg (snd r)) ;;
          if fst r <? 0 then ret (false, argv ++ [pg])
          else exec_argv n' uargv (i + 1) (argv ++ [pg])
      end
  end.

Definition sys_exec : K Z :=
  let! uargv := argaddr 1 in
  let! path := argstr 0 MAXPATH in
  if fst path <? 0 then ret (-1) else
  let! a := exec_argv (Z.to_nat MAXARG) uargv 0 [] in
  if fst a then
    let! r := exec (snd path) (snd a) in
    for_each (snd a) kfree ;;
    ret r
  else
    for_each (snd a) kfree ;;
    ret (-1).

Definition sys_pipe : K Z :=
  let! p := curproc in
  let! fdarray := argaddr 0 in
  let! fs := pipealloc in
  match fs with
  | None => ret (-1)
  | Some (rf, wf) =>
      let! fd0 := fdalloc rf in
      match fd0 with
      | None => fileclose rf ;; fileclose wf ;; ret (-1)
      | Some fd0 =>
          let! fd1 := fdalloc wf in
          match fd1 with
          | None => clear_fd p fd0 ;; fileclose rf ;; fileclose wf ;; ret (-1)
          | Some fd1 =>
              let! pt := getp p p_pagetable in
              let! r0 := copyout pt fdarray (le_encode 4 (Z.of_nat fd0)) in
              let! bad := (if r0 <? 0 then ret true
                           else let! r1 := copyout pt (u64 (fdarray + 4))
                                             (le_encode 4 (Z.of_nat fd1)) in
                                ret (r1 <? 0)) in
              if (bad : bool) then
                clear_fd p fd0 ;; clear_fd p fd1 ;;
                fileclose rf ;; fileclose wf ;; ret (-1)
              else ret 0
          end
      end
  end.

(** ** syscall.c: dispatch *)

Definition syscalls (num : Z) : option (K Z) :=
  if num =? SYS_fork then Some sys_fork
  else if num =? SYS_exit then Some sys_exit
  else if num =? SYS_wait then Some sys_wait
  else if num =? SYS_pipe then Some sys_pipe
  else if num =? SYS_read then Some sys_read
  else if num =? SYS_kill then Some sys_kill
  else if num =? SYS_exec then Some sys_exec
  else if num =? SYS_fstat then Some sys_fstat
  else if num =? SYS_chdir then Some sys_chdir
  else if num =? SYS_dup then Some sys_dup
  else if num =? SYS_getpid then Some sys_getpid
  else if num =? SYS_sbrk then Some sys_sbrk
  else if num =? SYS_sleep then Some sys_sleep
  else if num =? SYS_uptime then Some sys_uptime
  else if num =? SYS_open then Some sys_open
  else if num =? SYS_write then Some sys_write
  else if num =? SYS_mknod then Some sys_mknod
  else if num =? SYS_unlink then Some sys_unlink
  else if num =? SYS_link then Some sys_link
  else if num =? SYS_mkdir then Some sys_mkdir
  else if num =? SYS_close then Some sys_close
  else None.

Definition syscall : K unit :=
  let! p := curproc in
  let! tf := getp p p_trapframe in
  let! a7 := read64 (tf + TF_a7) in
  let num := i32 a7 in
  match (if num >? 0 then syscalls num else None) with
  | Some handler =>
      let! r := handler in
      let! tf := getp p p_trapframe in
      write64 (tf + TF_a0) r
  | None =>
      let! q := getp p id in
      printf (str "%d %s: unknown sys call %d" ++ [10])
        [VInt q.(p_pid); VStr (Some (until_nul q.(p_name))); VInt num] ;;
      let! tf := getp p p_trapframe in
      write64 (tf + TF_a0) (-1)
  end.

End Syscall.
