(* ===== verification/Trap.v ===== *)
(** * Traps, interrupts and start-up (trap.c, main.c, forkret of proc.c)

    The jump to [userret] that ends [usertrapret] is its result: the address
    and the argument. *)

From S2P Require Import Prelude Params Mem State Spinlock CString Kalloc Vm Proc Sleeplock Uart Printf.
From S2P Require Import Console Virtio Bio Log Fs File Exec Syscall.

Section Trap.
Context {I : KernelImage} {F : WaitFuel} {D : DmaLayout} {Disk : BlockDev} {SP : StatPad}.

Definition r_csr {A} (f : hart -> A) : K A := get (fun s => f s.(k_hart)).
Definition w_stvec (x : Z) : K unit := modify (upd_hart (set_stvec x)).
Definition w_sepc (x : Z) : K unit := modify (upd_hart (set_sepc x)).
Definition w_stimecmp (x : Z) : K unit := modify (upd_hart (set_stimecmp x)).

Definition trapinit : K unit := initlock tickslock.

Definition trapinithart : K unit := w_stvec kernelvec.

Definition clockintr : K unit :=
  let! id := cpuid in
  when (id =? 0)
    (acquire tickslock ;;
     modify (fun s => set_ticks (u32 (s.(k_ticks) + 1)) s) ;;
     wakeup (Some ticks_chan) ;;
     release tickslock) ;;
  (* ask for the next timer interrupt. *)
  let! t := r_csr time in
  w_stimecmp (u64 (t + 1000000)).

(** Returns 2 if timer interrupt, 1 if other device, 0 if not recognized. *)
Definition devintr : K Z :=
  let! scause := r_csr scause in
  if scause =? 0x8000000000000009 then
    (* this is a supervisor external interrupt, via PLIC. *)
    let! irq := plic_claim in
    (if irq =? UART0_IRQ then uartintr
     else if irq =? VIRTIO0_IRQ then virtio_disk_intr
     else when (cbool irq)
       (printf (str "unexpected interrupt irq=%d" ++ [10]) [VInt irq] ;; ret tt)) ;;
    when (cbool irq) (plic_complete irq) ;;
    ret 1
  else if scause =? 0x8000000000000005 then
    clockintr ;;
    ret 2
  else ret 0.

Definition usertrapret : K (Z * Z) :=
  let! p := curproc in
  intr_off ;;
  (* send syscalls, interrupts, and exceptions to uservec in trampoline.S *)
  w_stvec (TRAMPOLINE + (uservec - trampoline)) ;;
  (* set up trapframe values that uservec will need *)
  let! q := getp p id in
  let tf := q.(p_trapframe) in
  let! ksatp := r_csr satp in
  write64 (tf + TF_kernel_satp) ksatp ;;
  write64 (tf + TF_kernel_sp) (q.(p_kstack) + PGSIZE) ;;
  write64 (tf + TF_kernel_trap) usertrap_addr ;;
  let! id := cpuid in
  write64 (tf + TF_kernel_hartid) id ;;
  (* set S Previous Privilege mode to User. *)
  let! x := r_csr sstatus in
  let x := Z.land x (Z.lnot SSTATUS_SPP) in
  let x := Z.lor x SSTATUS_SPIE in
  w_sstatus x ;;
  (* set S Exception Program Counter to the saved user pc. *)
  let! epc := read64 (tf + TF_epc) in
  w_sepc epc ;;
  (* tell trampoline.S the user page table to switch to. *)
  ret (TRAMPOLINE + (userret - trampoline), MAKE_SATP q.(p_pagetable)).

Definition usertrap : K (Z * Z) :=
  let! st := r_csr sstatus in
  if has st SSTATUS_SPP then panic "usertrap: not from user mode" else
  (* send interrupts and exceptions to kerneltrap(). *)
  w_stvec kernelvec ;;
  let! p := curproc in
  (* save user program counter. *)
  let! tf := getp p p_trapframe in
  let! pc := r_csr sepc in
  write64 (tf + TF_epc) pc ;;
  let! cause := r_csr scause in
  let! which_dev :=
    (if cause =? 8 then
       (* system call *)
       let! k := killed p in
       when (cbool k) (exit (-1)) ;;
       let! epc := read64 (tf + TF_epc) in
       write64 (tf + TF_epc) (u64 (epc + 4)) ;;
       intr_on ;;
       syscall ;;
       ret 0
     else
       let! d := devintr in
       if negb (d =? 0) then ret d else
       let! cause := r_csr scause in
       let! pid := getp p p_pid in
       printf (str "usertrap(): unexpected scause 0x%lx pid=%d" ++ [10])
         [VInt cause; VInt pid] ;;
       let! pc := r_csr sepc in
       let! val := r_csr stval in
       printf (str "            sepc=0x%lx stval=0x%lx" ++ [10]) [VInt pc; VInt val] ;;
       setkilled p ;;
       ret 0) in
  let! k := killed p in
  when (cbool k) (exit (-1)) ;;
  (* give up the CPU if this is a timer interrupt. *)
  when (which_dev =? 2) yield ;;
  usertrapret.

Definition kerneltrap : K unit :=
  let! epc := r_csr sepc in
  let! st := r_csr sstatus in
  let! cause := r_csr scause in
  if negb (has st SSTATUS_SPP) then panic "kerneltrap: not from supervisor mode" else
  let! on := intr_get in
  if (on : bool) then panic "kerneltrap: interrupts enabled" else
  let! which_dev := devintr in
  if which_dev =? 0 then
    let! pc := r_csr sepc in
    let! val := r_csr stval in
    printf (str "scause=0x%lx sepc=0x%lx stval=0x%lx" ++ [10]) [VInt cause; VInt pc; VInt val] ;;
    panic "kerneltrap"
  else
    (* give up the CPU if this is a timer interrupt. *)
    (if which_dev =? 2 then
       let! me := myproc in
       match me with Some _ => yield | None => ret tt end
     else ret tt) ;;
    (* restore trap registers for use by kernelvec.S's sepc instruction. *)
    w_sepc epc ;;
    w_sstatus st.

(** A fork child's very first scheduling will swtch to forkret. *)
Definition forkret : K (Z * Z) :=
  let! p := curproc in
  release (proc_lock p) ;;
  let! first := get k_first in
  when first
    (* File system initialization must be run in the context of a regular
       process. *)
    (fsinit ROOTDEV ;;
     modify (set_first false)) ;;
  usertrapret.

(** ** main.c *)

(** What hart 0 does before it sets [started]. *)
Definition main_boot : K unit :=
  consoleinit ;;
  printfinit ;;
  printf [10] [] ;;
  printf (str "xv6 kernel is booting" ++ [10]) [] ;;
  printf [10] [] ;;
  kinit ;;
  kvminit ;;
  kvminithart ;;
  procinit ;;
  trapinit ;;
  trapinithart ;;
  plicinit ;;
  plicinithart ;;
  binit ;;
  iinit ;;
  fileinit ;;
  virtio_disk_init ;;
  userinit ;;
  modify (set_started true).

(** [main]; a hart other than 0 waits for [started]. The argument bounds the
    rounds of the scheduler, which never returns. *)
Definition main (rounds : nat) : K unit :=
  let! id := cpuid in
  (if id =? 0 then main_boot
   else
     let! st := get k_started in
     if negb st then fun _ => OutOfFuel else
     printf (str "hart %d starting" ++ [10]) [VInt id] ;;
     kvminithart ;;
     trapinithart ;;
     plicinithart) ;;
  scheduler rounds.

End Trap.
