(* ===== verification/User.v ===== *)
(** * User programs

    A user program is an interaction tree over the system calls of xv6
    (user/user.h): its only effects are system calls, its variables are values
    of the model. A C string is the list of its bytes without the NUL. This
    file has the system calls, the programs' notation, the contract of the
    calls on files, and the rules for proving total correctness. *)

From S2P Require Import Prelude.
From ITree Require Import ITree.

(** ** System calls *)

(** [struct stat] (kernel/stat.h). *)
Record stat : Type := mkStat { st_dev : Z; st_ino : Z; st_type : Z; st_nlink : Z; st_size : Z }.

(** A call that stores through a pointer returns what it stored: [read] the
    bytes it delivered, [pipe] the two descriptors, [fstat] the structure. *)
Inductive sysE : Type -> Type :=
| Sys_fork : sysE Z
| Sys_exit (status : Z) : sysE Empty_set
| Sys_wait : sysE Z
| Sys_pipe : sysE (Z * (Z * Z))
| Sys_write (fd : Z) (bs : list Z) : sysE Z
| Sys_read (fd n : Z) : sysE (Z * list Z)
| Sys_close (fd : Z) : sysE Z
| Sys_kill (pid : Z) : sysE Z
| Sys_exec (path : list Z) (argv : list (list Z)) : sysE Z
| Sys_open (path : list Z) (mode : Z) : sysE Z
| Sys_mknod (path : list Z) (major minor : Z) : sysE Z
| Sys_unlink (path : list Z) : sysE Z
| Sys_fstat (fd : Z) : sysE (Z * stat)
| Sys_link (old new : list Z) : sysE Z
| Sys_mkdir (path : list Z) : sysE Z
| Sys_chdir (path : list Z) : sysE Z
| Sys_dup (fd : Z) : sysE Z
| Sys_getpid : sysE Z
| Sys_sbrk (n : Z) : sysE Z
| Sys_sleep (n : Z) : sysE Z
| Sys_uptime : sysE Z
| Sys_wait_status : sysE (Z * Z).  (* wait with the address of a status *)

Definition prog (R : Type) : Type := itree sysE R.

Definition uret {R} (r : R) : prog R := Ret r.
Definition ubind {A B} (t : prog A) (k : A -> prog B) : prog B := ITree.bind t k.
Definition sys {A} (e : sysE A) : prog A := ITree.trigger e.

(** A loop: the body returns [inl] of the next state of the variables to go
    on, and [inr] of the result to leave. *)
Definition loop {A B} (body : A -> prog (A + B)) (a : A) : prog B := ITree.iter body a.

Declare Scope user_scope.
Delimit Scope user_scope with U.
Notation "'let!' x ':=' m 'in' k" := (ubind m (fun x => k))
  (at level 10, x pattern, m at level 100, k at level 200,
   format "'[v' 'let!'  x  ':='  m  'in' '/' k ']'") : user_scope.
Notation "m ;; k" := (ubind m (fun _ => k))
  (at level 100, k at level 200, right associativity,
   format "'[v' m  ;; '/' k ']'") : user_scope.
Open Scope user_scope.

Definition fork : prog Z := sys Sys_fork.
Definition wait : prog Z := sys Sys_wait.
Definition read (fd n : Z) : prog (Z * list Z) := sys (Sys_read fd n).
Definition write (fd : Z) (bs : list Z) : prog Z := sys (Sys_write fd bs).
Definition close (fd : Z) : prog Z := sys (Sys_close fd).
Definition open (path : list Z) (mode : Z) : prog Z := sys (Sys_open path mode).
(** [exit] does not return. *)
Definition exit {R} (status : Z) : prog R := let! x := sys (Sys_exit status) in match x : Empty_set with end.

(** [for(i = ...; ...; i++)] over the elements of a list. *)
Fixpoint each {A} (l : list A) (f : A -> prog unit) : prog unit :=
  match l with
  | [] => uret tt
  | x :: l' => f x ;; each l' f
  end.

(** The lowest free descriptor of a table of [NOFILE] descriptors. *)
Fixpoint lowest {A} (f : gmap Z A) (fds : list Z) : option Z :=
  match fds with
  | [] => None
  | fd :: fds' => match f !! fd with None => Some fd | Some _ => lowest f fds' end
  end.
Definition free_fd {A} (f : gmap Z A) : option Z := lowest f [0; 1; 2; 3; 4; 5; 6; 7; 8; 9; 10; 11; 12; 13; 14; 15].
Arguments free_fd : simpl never.

(** ** Total correctness

    [step e w a w']: in the world [w] the call [e] may return [a] and leave
    the world [w']. [must Q X t w]: every run of [t] from [w] terminates, by
    returning a result that satisfies [Q] or by exiting with a status that
    satisfies [X]. *)

Section Must.
Context {W : Type} (step : forall A, sysE A -> W -> A -> W -> Prop).

Inductive must {R} (Q : R -> W -> Prop) (X : Z -> W -> Prop) : prog R -> W -> Prop :=
| must_ret t r w : observe t = RetF r -> Q r w -> must Q X t w
| must_tau t t' w : observe t = TauF t' -> must Q X t' w -> must Q X t w
| must_exit t st k w : observe t = VisF (Sys_exit st) k -> X st w -> must Q X t w
| must_call t A (e : sysE A) k w : observe t = VisF e k ->
    (exists a w', step A e w a w') -> (forall a w', step A e w a w' -> must Q X (k a) w') -> must Q X t w.

Lemma observe_ubind {A B} (t : prog A) (k : A -> prog B) :
  observe (ubind t k) = match observe t with
    | RetF r => observe (k r)
    | TauF t' => TauF (ubind t' k)
    | VisF e h => VisF e (fun x => ubind (h x) k)
    end.
Proof. unfold ubind, observe. cbn. unfold observe. by destruct (_observe t). Qed.

Lemma observe_loop {A B} (body : A -> prog (A + B)) a :
  observe (loop body a) = observe (ubind (body a) (fun r => match r with
    | inl a' => Tau (loop body a') | inr b => Ret b end)).
Proof. done. Qed.

Lemma must_observe {R} (Q : R -> W -> Prop) X t t' w :
  observe t = observe t' -> must Q X t w -> must Q X t' w.
Proof. intros E H. destruct H; rewrite E in *; by econstructor. Qed.

Lemma must_mono {R} (Q Q' : R -> W -> Prop) X X' t w :
  must Q X t w -> (forall r w, Q r w -> Q' r w) -> (forall st w, X st w -> X' st w) -> must Q' X' t w.
Proof.
  intros H HQ HX. induction H; [eapply must_ret|eapply must_tau|eapply must_exit|eapply must_call]; eauto.
Qed.

Lemma must_post {R} (Q Q' : R -> W -> Prop) X t w :
  must Q X t w -> (forall r w, Q r w -> Q' r w) -> must Q' X t w.
Proof. intros H HQ. by eapply must_mono. Qed.

Lemma must_uret {R} (Q : R -> W -> Prop) X r w : Q r w -> must Q X (uret r) w.
Proof. by apply must_ret. Qed.

Lemma must_bind {A B} (Q : B -> W -> Prop) X (t : prog A) (k : A -> prog B) w :
  must (fun a w' => must Q X (k a) w') X t w -> must Q X (ubind t k) w.
Proof.
  induction 1 as [t r w E H|t t' w E _ IH|t st h w E H|t C e h w E He _ IH];
    pose proof (observe_ubind t k) as Eb; rewrite E in Eb.
  - by eapply must_observe.
  - by eapply must_tau.
  - by eapply must_exit.
  - eapply must_call; [exact Eb|done|exact IH].
Qed.

Lemma must_sys {A} (Q : A -> W -> Prop) X (e : sysE A) w :
  (exists a w', step A e w a w') -> (forall a w', step A e w a w' -> Q a w') -> must Q X (sys e) w.
Proof.
  intros He H. eapply (must_call _ _ (sys e) A e); [done|done|]. intros a w' Hs. by apply must_ret with a, H.
Qed.

Lemma must_exits {R} (Q : R -> W -> Prop) (X : Z -> W -> Prop) st w : X st w -> must Q X (exit st) w.
Proof. intros H. eapply must_exit; [|exact H]. unfold exit. by rewrite observe_ubind. Qed.

(** A loop with an invariant, whose measure decreases on every turn. *)
Lemma must_loop {A B} (Q : B -> W -> Prop) X (body : A -> prog (A + B)) (I : A -> W -> Prop) (m : A -> W -> nat) :
  (forall a w, I a w -> must (fun r w' => match r with
     | inl a' => I a' w' /\ (m a' w' < m a w)%nat | inr b => Q b w' end) X (body a) w) ->
  forall a w, I a w -> must Q X (loop body a) w.
Proof.
  intros Hb a w. remember (m a w) as n eqn:En. revert a w En.
  induction (lt_wf n) as [n _ IH]. intros a w -> Ha.
  eapply must_observe; [symmetry; apply observe_loop|]. apply must_bind.
  eapply must_mono; [by apply Hb| |done]. intros [a'|b] w'.
  - intros [Ha' Hm]. eapply must_tau; [done|]. by eapply IH.
  - intros HQ. by apply must_ret with b.
Qed.

Lemma must_each {A} (l : list A) (f : A -> prog unit) X (I : nat -> W -> Prop) w :
  I 0%nat w ->
  (forall i x w, l !! i = Some x -> I i w -> must (fun _ w' => I (S i) w') X (f x) w) ->
  must (fun _ w' => I (length l) w') X (each l f) w.
Proof.
  revert I w. induction l as [|x l IH]; intros I w H0 Hs; [by apply must_uret|].
  cbn [each]. apply must_bind.
  apply (must_mono (fun _ w' => I 1%nat w') _ X X); [by apply (Hs 0%nat)| |done]. intros _ w' H1. apply (IH (fun i => I (S i))); [done|]. intros i y. apply (Hs (S i)).
Qed.

End Must.

(** ** The contract of the calls on files

    The state of the files as a program sees it: the bytes still to be read
    from each descriptor open for reading, the bytes written to each one open
    for writing, and the contents of the files by path. [read] may deliver
    less than it was asked for, but something unless the file is at its end. *)

Record world : Type := mkWorld {
  w_in : gmap Z (list Z);
  w_out : gmap Z (list Z);
  w_files : gmap (list Z) (list Z);
}.

Definition set_in (f : gmap Z (list Z) -> gmap Z (list Z)) (w : world) : world :=
  mkWorld (f w.(w_in)) w.(w_out) w.(w_files).
Definition set_out (f : gmap Z (list Z) -> gmap Z (list Z)) (w : world) : world :=
  mkWorld w.(w_in) (f w.(w_out)) w.(w_files).

Definition file_step (A : Type) (e : sysE A) : world -> A -> world -> Prop :=
  match e in sysE A return world -> A -> world -> Prop with
  | Sys_read fd n => fun w r w' =>
      match w.(w_in) !! fd with
      | Some rest => exists k, (k <= length rest)%nat /\ Z.of_nat k <= Z.max 0 n /\ (k = 0%nat -> n <= 0 \/ rest = []) /\
          r = (Z.of_nat k, take k rest) /\ w' = set_in <[fd := drop k rest]> w
      | None => r = (-1, []) /\ w' = w
      end
  | Sys_write fd bs => fun w r w' =>
      match w.(w_out) !! fd with
      | Some old => r = Z.of_nat (length bs) /\ w' = set_out <[fd := old ++ bs]> w
      | None => r = -1 /\ w' = w
      end
  | Sys_open path mode => fun w r w' =>
      match w.(w_files) !! path with
      | Some bs => 0 <= r /\ w.(w_in) !! r = None /\ w.(w_out) !! r = None /\ w' = set_in <[r := bs]> w
      | None => r = -1 /\ w' = w
      end
  | Sys_close fd => fun w r w' => r = 0 /\ w' = set_in (delete fd) w
  | _ => fun _ _ _ => False
  end.

Lemma must_read Q X fd n rest w :
  w.(w_in) !! fd = Some rest ->
  (forall k, (k <= length rest)%nat -> Z.of_nat k <= Z.max 0 n -> (k = 0%nat -> n <= 0 \/ rest = []) ->
     Q (Z.of_nat k, take k rest) (set_in <[fd := drop k rest]> w)) ->
  must file_step Q X (read fd n) w.
Proof.
  intros Hfd HQ. apply must_sys; cbn [file_step]; rewrite Hfd.
  - eexists _, _, (length rest `min` Z.to_nat n)%nat. split_and!; [lia|lia| |reflexivity|reflexivity].
    intros H0. destruct rest; [by right|]. left. cbn [length] in H0. lia.
  - intros r w' (k & H1 & H2 & H3 & -> & ->). by apply HQ.
Qed.

Lemma must_write Q X fd bs old w :
  w.(w_out) !! fd = Some old -> Q (Z.of_nat (length bs)) (set_out <[fd := old ++ bs]> w) ->
  must file_step Q X (write fd bs) w.
Proof.
  intros Hfd HQ. apply must_sys; cbn [file_step]; rewrite Hfd; [by eauto|]. by intros r w' [-> ->].
Qed.

Lemma must_open Q X path mode bs w :
  w.(w_files) !! path = Some bs ->
  (forall fd, 0 <= fd -> w.(w_in) !! fd = None -> w.(w_out) !! fd = None -> Q fd (set_in <[fd := bs]> w)) ->
  must file_step Q X (open path mode) w.
Proof.
  intros Hp HQ. apply must_sys; cbn [file_step]; rewrite Hp.
  - set (ks := dom w.(w_in) ∪ dom w.(w_out)).
    assert (exists fd, 0 <= fd /\ fd ∉ ks) as (fd & Hfd & Hn).
    { exists (Z.of_nat (fresh (set_map Z.to_nat ks : gset nat))). split; [lia|]. intros Hin.
      apply (is_fresh (set_map Z.to_nat ks : gset nat)). apply elem_of_map. eexists. split; [|exact Hin]. lia. }
    exists fd, (set_in <[fd := bs]> w). split_and!; [done| | |done]; apply not_elem_of_dom; set_solver.
  - intros r w' (H0 & Hi & Ho & ->). by apply HQ.
Qed.

Lemma must_close Q X fd w : Q 0 (set_in (delete fd) w) -> must file_step Q X (close fd) w.
Proof. intros HQ. apply must_sys; cbn [file_step]; [by eauto|]. by intros r w' [-> ->]. Qed.
