(* ===== verification/Ulib.v ===== *)
(** * The user library (user/ulib.c)

    The functions on memory, as in the file, and the functions on C strings as
    byte lists that the models of the programs use; the lemmas relate the two.
    [char] is unsigned on RISC-V. Loops that run to a NUL take fuel. *)

From S2P Require Import Prelude Params Mem CString User.

(** ** On memory *)

Fixpoint strcpy_loop (fuel : nat) (m : memory) (s t : Z) : option memory :=
  match fuel with
  | O => None
  | S fuel' =>
      let c := load8 m t in
      let m' := store8 m s c in
      if c =? 0 then Some m' else strcpy_loop fuel' m' (s + 1) (t + 1)
  end.

Definition strcpy (fuel : nat) (m : memory) (s t : Z) : option memory := strcpy_loop fuel m s t.

Fixpoint strcmp (fuel : nat) (m : memory) (p q : Z) : option Z :=
  match fuel with
  | O => None
  | S fuel' =>
      if cbool (load8 m p) && (load8 m p =? load8 m q)
      then strcmp fuel' m (p + 1) (q + 1)
      else Some (load8 m p - load8 m q)
  end.

Fixpoint strchr (fuel : nat) (m : memory) (s c : Z) : option Z :=
  match fuel with
  | O => None
  | S fuel' =>
      if load8 m s =? 0 then Some 0
      else if load8 m s =? c then Some s
      else strchr fuel' m (s + 1) c
  end.

(** [n = n*10 + *s++ - '0'] in [int] arithmetic. *)
Fixpoint atoi_loop (fuel : nat) (m : memory) (s n : Z) : option Z :=
  match fuel with
  | O => None
  | S fuel' =>
      if (48 <=? load8 m s) && (load8 m s <=? 57)
      then atoi_loop fuel' m (s + 1) (i32 (n * 10 + load8 m s - 48))
      else Some n
  end.

Definition atoi (fuel : nat) (m : memory) (s : Z) : option Z := atoi_loop fuel m s 0.

Definition memmove (m : memory) (vdst vsrc n : Z) : memory :=
  if vsrc >? vdst then copy_up (Z.to_nat n) m vdst vsrc
  else copy_down (Z.to_nat n) m (vdst + n) (vsrc + n).

(** ** On byte lists *)

(** The position of [c] in a C string. *)
Fixpoint index_of (c : Z) (l : list Z) : option nat :=
  match l with
  | [] => None
  | b :: l' => if b =? 0 then None else if b =? c then Some O else S <$> index_of c l'
  end.

(** Whether [strchr(l, c)] is not 0. *)
Definition in_str (c : Z) (l : list Z) : bool := match index_of c l with Some _ => true | None => false end.

Fixpoint numeral_loop (l : list Z) (n : Z) : Z :=
  match l with
  | [] => n
  | b :: l' => if (48 <=? b) && (b <=? 57) then numeral_loop l' (i32 (n * 10 + b - 48)) else n
  end.

(** The value [atoi] computes. *)
Definition numeral (l : list Z) : Z := numeral_loop l 0.

(** ** The functions that make system calls *)

(** [gets]: the string it leaves in the buffer of [max] bytes; [i] is the
    number of bytes stored so far. *)
Definition gets (max : Z) : prog (list Z) :=
  loop (fun line : list Z =>
    if Z.of_nat (length line) + 1 <? max then
      let! (cc, bs) := read 0 1 in
      if cc <? 1 then uret (inr line) else
      let c := default 0 (head bs) in
      let line' := line ++ [c] in
      if (c =? 10) || (c =? 13) then uret (inr line') else uret (inl line')
    else uret (inr line)) [].

(** [stat]: the result, and what it stores through its pointer, if anything. *)
Definition stat_path (n : list Z) : prog (Z * option stat) :=
  let! fd := open n O_RDONLY in
  if fd <? 0 then uret (-1, None) else
  let! (r, st) := sys (Sys_fstat fd) in
  close fd ;;
  uret (r, if r <? 0 then None else Some st).

(** ** The functions on memory compute those on lists *)

Lemma strcpy_loop_ok l : forall fuel m s t,
  cstr m t l -> s + Z.of_nat (length l) < t \/ t + Z.of_nat (length l) < s -> (length l < fuel)%nat ->
  strcpy_loop fuel m s t = Some (store_bytes m s (l ++ [0])).
Proof.
  induction l as [|b l IH]; intros fuel m s t Hc Hd Hf; (destruct fuel as [|fuel]; [simpl in Hf; lia|]); cbn [strcpy_loop].
  - apply cstr_empty in Hc. by rewrite Hc.
  - apply cstr_cons in Hc as (Hb & Hnz & Hc). rewrite Hb, (proj2 (Z.eqb_neq b 0) Hnz). simpl in Hd, Hf.
    rewrite (IH fuel); [done| |lia|lia]. apply cstr_store8; [lia|done].
Qed.

Lemma strcmp_ok : forall fuel m p q a b,
  cstr m p a -> cstr m q b -> (length a < fuel)%nat -> strcmp fuel m p q = Some (str_diff fuel a b).
Proof.
  induction fuel as [|fuel IH]; intros m p q a b Ha Hb Hf; [lia|]. cbn [strcmp str_diff]. destruct a as [|x a], b as [|y b].
  - apply cstr_empty in Ha, Hb. by rewrite Ha, Hb.
  - apply cstr_empty in Ha. apply cstr_cons in Hb as (Hb & _ & _). by rewrite Ha, Hb.
  - apply cstr_empty in Hb. apply cstr_cons in Ha as (Ha & Hnz & _). rewrite Ha, Hb.
    rewrite cbool_true by done. rewrite (proj2 (Z.eqb_neq x 0) Hnz). simpl. f_equal. lia.
  - apply cstr_cons in Ha as (Ha & Hnz & Ha'). apply cstr_cons in Hb as (Hb & _ & Hb').
    rewrite Ha, Hb, cbool_true by done. simpl in Hf |- *. destruct (x =? y); [apply IH; [done|done|lia]|done].
Qed.

Lemma strchr_ok l : forall fuel m s c,
  cstr m s l -> (length l < fuel)%nat ->
  strchr fuel m s c = Some (match index_of c l with Some i => s + Z.of_nat i | None => 0 end).
Proof.
  induction l as [|b l IH]; intros fuel m s c Hc Hf; (destruct fuel as [|fuel]; [simpl in Hf; lia|]); cbn [strchr index_of].
  - apply cstr_empty in Hc. by rewrite Hc.
  - apply cstr_cons in Hc as (Hb & Hnz & Hc). rewrite Hb, (proj2 (Z.eqb_neq b 0) Hnz). simpl in Hf.
    destruct (b =? c); [f_equal; lia|]. rewrite (IH fuel m (s + 1) c Hc) by lia.
    destruct (index_of c l); [|done]. simpl. f_equal. lia.
Qed.

Lemma atoi_loop_ok l : forall fuel m s n,
  cstr m s l -> (length l < fuel)%nat -> atoi_loop fuel m s n = Some (numeral_loop l n).
Proof.
  induction l as [|b l IH]; intros fuel m s n Hc Hf; (destruct fuel as [|fuel]; [simpl in Hf; lia|]); cbn [atoi_loop numeral_loop].
  - apply cstr_empty in Hc. by rewrite Hc.
  - apply cstr_cons in Hc as (Hb & Hnz & Hc). simpl in Hf. rewrite Hb. destruct (_ && _); [|done]. apply IH; [done|lia].
Qed.

(** The position found is the first one. *)
Lemma index_of_Some c l i : index_of c l = Some i ->
  l !! i = Some c /\ c <> 0 /\ Forall (fun b => b <> c /\ b <> 0) (take i l).
Proof.
  revert i. induction l as [|b l IH]; intros i; cbn [index_of]; [done|].
  destruct (Z.eqb_spec b 0) as [|Hb]; [done|]. destruct (Z.eqb_spec b c) as [->|Hbc]; [by intros [= <-]|].
  intros (j & Hj & ->)%fmap_Some. destruct (IH j Hj) as (H1 & H2 & H3). split_and!; [done|done|]. by constructor.
Qed.

Lemma index_of_None c l : c <> 0 -> Forall (fun b => b <> 0) l -> index_of c l = None <-> c ∉ l.
Proof.
  intros Hc. induction 1 as [|b l Hb Hl IH]; cbn [index_of]; [split; [set_solver|done]|].
  rewrite (proj2 (Z.eqb_neq b 0) Hb). destruct (Z.eqb_spec b c) as [->|Hbc]; [split; [done|set_solver]|].
  etransitivity; [apply fmap_None|]. etransitivity; [exact IH|]. rewrite not_elem_of_cons. naive_solver.
Qed.

Lemma in_str_true c l : Forall (fun b => b <> 0) l -> in_str c l = true <-> c ∈ l.
Proof.
  intros Hl. unfold in_str. destruct (index_of c l) as [i|] eqn:E.
  - destruct (index_of_Some c l i E) as (Hi & _). split; [|done]. intros _. by eapply list_elem_of_lookup_2.
  - split; [done|]. intros Hc. assert (c <> 0) as Hc0 by (rewrite Forall_forall in Hl; by apply Hl).
    by apply (index_of_None c l Hc0 Hl) in E.
Qed.

Lemma until_nul_app l junk : 0 ∉ l -> until_nul (l ++ 0 :: junk) = l.
Proof.
  induction l as [|c l IH]; intros H0; cbn [app until_nul]; [done|].
  apply not_elem_of_cons in H0 as [? ?]. rewrite (proj2 (Z.eqb_neq c 0)) by done. by rewrite IH.
Qed.

Definition digits_value (l : list Z) : Z := foldl (fun n b => n * 10 + (b - 48)) 0 l.

Lemma digits_value_bound l n : 0 <= n -> Forall (fun b => 48 <= b <= 57) l ->
  n <= foldl (fun n b => n * 10 + (b - 48)) n l.
Proof. intros Hn Hl. revert n Hn. induction Hl as [|b l Hb _ IH]; intros n Hn; [done|]. simpl. etransitivity; [|apply IH]; lia. Qed.

Lemma numeral_loop_ok l rest n :
  0 <= n -> Forall (fun b => 48 <= b <= 57) l -> (forall b, head rest = Some b -> ~ 48 <= b <= 57) ->
  foldl (fun n b => n * 10 + (b - 48)) n l < 2 ^ 31 ->
  numeral_loop (l ++ rest) n = foldl (fun n b => n * 10 + (b - 48)) n l.
Proof.
  intros Hn Hl Hr. revert n Hn. induction Hl as [|b l Hb Hl IH]; intros n Hn Hlt.
  - destruct rest as [|c rest]; [done|]. simpl in *. specialize (Hr c eq_refl).
    destruct (Z.leb_spec 48 c), (Z.leb_spec c 57); try done. lia.
  - simpl in *. rewrite (proj2 (Z.leb_le 48 b)), (proj2 (Z.leb_le b 57)) by lia. cbn [andb].
    pose proof (digits_value_bound l (n * 10 + (b - 48)) ltac:(lia) Hl) as Hge.
    replace (i32 (n * 10 + b - 48)) with (n * 10 + (b - 48)); [apply IH; [lia|exact Hlt]|].
    unfold i32, signed. change (2 ^ (32 - 1)) with (2 ^ 31).
    rewrite Z.mod_small by (change (2 ^ 32) with (2 * 2 ^ 31); lia). rewrite (proj2 (Z.ltb_lt _ _)) by lia. lia.
Qed.

(** The string functions of the library on C strings in memory: [strlen] returns the length,
    [strcmp] the difference of the first bytes that differ, so 0 exactly for equal strings, [strchr]
    the address of the first occurrence or 0, [strcpy] writes the string and its NUL and nothing
    else, and [atoi] returns the value of the leading digits when it fits an [int]. *)
Theorem ulib_strings m p a q b fuel :
  cstr m p a -> cstr m q b -> (length a + length b < fuel)%nat ->
  strlen fuel m p = Some (Z.of_nat (length a)) /\
  (exists d, strcmp fuel m p q = Some d /\ (d = 0 <-> a = b)) /\
  (forall c, c <> 0 -> exists r, strchr fuel m p c = Some r /\
     ((exists i, a !! i = Some c /\ c ∉ take i a /\ r = p + Z.of_nat i) \/ (c ∉ a /\ r = 0))) /\
  (q + Z.of_nat (length b) < p \/ p + Z.of_nat (length b) < q ->
     exists m', strcpy fuel m p q = Some m' /\ cstr m' p b /\
       changed_in (fun x => p <= x <= p + Z.of_nat (length b)) m m') /\
  (forall ds rest, a = ds ++ rest -> Forall (fun c => 48 <= c <= 57) ds ->
     (forall c, head rest = Some c -> ~ 48 <= c <= 57) -> digits_value ds < 2 ^ 31 ->
     atoi fuel m p = Some (digits_value ds)).
Proof.
  intros Ha Hb Hf. refine (conj _ (conj _ (conj _ (conj _ _)))).
  - unfold strlen. rewrite (strlen_loop_cstr fuel m p 0 a); [done|by rewrite Z.add_0_r|lia].
  - exists (str_diff fuel a b). split; [apply strcmp_ok; [done|done|lia]|].
    rewrite str_diff_eq by (apply Ha || apply Hb). rewrite !take_ge by lia. done.
  - intros c Hc. eexists. split; [apply strchr_ok; [done|lia]|]. destruct (index_of c a) as [i|] eqn:E.
    + left. exists i. destruct (index_of_Some c a i E) as (H1 & _ & H2). split_and!; [done| |done].
      intros Hin. rewrite Forall_forall in H2. by destruct (H2 c Hin).
    + right. split; [|done]. by apply index_of_None; [|apply Ha|].
  - intros Hd. eexists. split; [apply (strcpy_loop_ok b); [done|lia|lia]|]. split.
    + split; [|apply Hb]. replace (length b + 1)%nat with (length (b ++ [0])) by (rewrite length_app; simpl; lia).
      apply load_bytes_store_bytes. destruct Hb as [<- _]. apply load_bytes_range.
    + intros x Hx. symmetry. rewrite load8_store_bytes_out; [done|]. rewrite length_app. simpl. lia.
  - intros ds rest -> Hds Hr Hlt. unfold atoi. rewrite (atoi_loop_ok (ds ++ rest)) by (done || lia). f_equal.
    apply numeral_loop_ok; [lia|done|done|exact Hlt].
Qed.

Lemma ulib_strings_witness :
  let m := store_bytes ∅ 0 (str "42x" ++ [0] ++ str "ls" ++ [0]) in
  atoi 10 m 0 = Some 42 /\ exists d, strcmp 10 m 0 4 = Some d /\ d <> 0.
Proof.
  intros m. destruct (ulib_strings m 0 (str "42x") 4 (str "ls") 10) as (_ & (d & Hd & Hz) & _ & _ & Hat);
    [split; [by vm_compute|by repeat constructor]|split; [by vm_compute|by repeat constructor]|vm_compute; lia|].
  split.
  - apply (Hat (str "42") (str "x")); [done|repeat constructor; by vm_compute| |by vm_compute].
    intros c [= <-]. lia.
  - exists d. split; [exact Hd|]. rewrite Hz. done.
Defined.
