(* ===== verification/UPrintf.v ===== *)
(** * Formatted output of user programs (user/printf.c)

    [vprintf] has no effect but its calls of [putc], so that it is modelled by
    the bytes it passes to [putc], in order. An argument is a 64-bit value or a
    string; reading one that was not passed, or of the other kind, is undefined
    behaviour, modelled as reading 0. *)

From S2P Require Import Prelude Params User Ulib.

Inductive uarg : Type := UInt (v : Z) | UStr (s : option (list Z)).

Definition va_val (ap : list uarg) : Z := match ap with UInt v :: _ => v | _ => 0 end.
Definition va_ptr (ap : list uarg) : option (list Z) := match ap with UStr s :: _ => s | _ => None end.

Definition putc (fd c : Z) : prog Z := write fd [c].

Definition digits : list Z := str "0123456789ABCDEF".
Definition digit (d : Z) : Z := digits !!! Z.to_nat d.

(** [do{ buf[i++] = digits[x % base]; }while((x /= base) != 0);] for a 32-bit [x] *)
Fixpoint printint_loop (fuel : nat) (x base : Z) (buf : list Z) : list Z :=
  match fuel with
  | O => buf
  | S fuel' =>
      let buf := buf ++ [digit (x mod base)] in
      if x / base =? 0 then buf else printint_loop fuel' (x / base) base buf
  end.

(** The parameter [xx] is an [int]. *)
Definition printint (xx base : Z) (sgn : bool) : list Z :=
  let xx := i32 xx in
  let neg := sgn && (xx <? 0) in
  let x := if neg then u32 (- xx) else u32 xx in
  let buf := printint_loop 32 x base [] in
  let buf := if neg then buf ++ [45] else buf in
  reverse buf.

(** [for (i = 0; i < (sizeof(uint64) * 2); i++, x <<= 4)] *)
Fixpoint printptr_loop (n : nat) (x : Z) : list Z :=
  match n with
  | O => []
  | S n' => digit (Z.shiftr x (8 * 8 - 4)) :: printptr_loop n' (u64 (Z.shiftl x 4))
  end.

Definition printptr (x : Z) : list Z := [48; 120] ++ printptr_loop 16 x.

(** The loop of [vprintf] in state 0, over the rest of the format. *)
Fixpoint vprintf_bytes (fmt : list Z) (ap : list uarg) : list Z :=
  match fmt with
  | [] => []
  | c :: fmt' =>
      if negb (c =? 37) then c :: vprintf_bytes fmt' ap else
      match fmt' with
      | [] => []
      | c0 :: f0 =>
          let c1 := hd 0 f0 in
          let f1 := match f0 with [] => f0 | _ :: f => f end in
          let c2 := if c1 =? 0 then 0 else hd 0 f1 in
          let f2 := match f1 with [] => f1 | _ :: f => f end in
          if c0 =? 100 then printint (i32 (va_val ap)) 10 true ++ vprintf_bytes f0 (tl ap)
          else if (c0 =? 108) && (c1 =? 100) then printint (u64 (va_val ap)) 10 true ++ vprintf_bytes f1 (tl ap)
          else if (c0 =? 108) && (c1 =? 108) && (c2 =? 100) then printint (u64 (va_val ap)) 10 true ++ vprintf_bytes f2 (tl ap)
          else if c0 =? 117 then printint (i32 (va_val ap)) 10 false ++ vprintf_bytes f0 (tl ap)
          else if (c0 =? 108) && (c1 =? 117) then printint (u64 (va_val ap)) 10 false ++ vprintf_bytes f1 (tl ap)
          else if (c0 =? 108) && (c1 =? 108) && (c2 =? 117) then printint (u64 (va_val ap)) 10 false ++ vprintf_bytes f2 (tl ap)
          else if c0 =? 120 then printint (i32 (va_val ap)) 16 false ++ vprintf_bytes f0 (tl ap)
          else if (c0 =? 108) && (c1 =? 120) then printint (u64 (va_val ap)) 16 false ++ vprintf_bytes f1 (tl ap)
          else if (c0 =? 108) && (c1 =? 108) && (c2 =? 120) then printint (u64 (va_val ap)) 16 false ++ vprintf_bytes f2 (tl ap)
          else if c0 =? 112 then printptr (u64 (va_val ap)) ++ vprintf_bytes f0 (tl ap)
          else if c0 =? 115 then
            match va_ptr ap with Some s => s | None => str "(null)" end ++ vprintf_bytes f0 (tl ap)
          else if c0 =? 37 then [37] ++ vprintf_bytes f0 ap
          else [37; c0] ++ vprintf_bytes f0 ap
      end
  end.

Definition vprintf (fd : Z) (fmt : list Z) (ap : list uarg) : prog unit :=
  each (vprintf_bytes fmt ap) (fun c => putc fd c ;; uret tt).

Definition fprintf (fd : Z) (fmt : list Z) (ap : list uarg) : prog unit := vprintf fd fmt ap.
Definition printf (fmt : list Z) (ap : list uarg) : prog unit := vprintf 1 fmt ap.

(** ** What is written *)

Lemma set_out_snoc w fd old a b :
  set_out <[fd := (old ++ a) ++ b]> (set_out <[fd := old ++ a]> w) = set_out <[fd := old ++ a ++ b]> w.
Proof. unfold set_out. cbn. by rewrite insert_insert_eq, (assoc_L (++)). Qed.

Lemma set_out_same w fd old : w.(w_out) !! fd = Some old -> set_out <[fd := old ++ []]> w = w.
Proof. intros H. destruct w as [i o f]. unfold set_out. cbn in *. by rewrite app_nil_r, insert_id. Qed.

Lemma must_puts X fd bs : forall old w,
  w.(w_out) !! fd = Some old ->
  must file_step (fun _ w' => w' = set_out <[fd := old ++ bs]> w) X (each bs (fun c => putc fd c ;; uret tt)) w.
Proof.
  induction bs as [|c bs IH]; intros old w Ho; cbn [each].
  - apply must_uret. by rewrite set_out_same.
  - apply must_bind, must_bind. eapply must_write; [exact Ho|]. apply must_uret.
    eapply must_post; [apply (IH (old ++ [c])); apply lookup_insert_eq|]. intros _ w' ->. by rewrite set_out_snoc.
Qed.

Lemma must_printf X Q fmt ap old w :
  w.(w_out) !! 1 = Some old -> Q tt (set_out <[1 := old ++ vprintf_bytes fmt ap]> w) -> must file_step Q X (printf fmt ap) w.
Proof. intros Ho HQ. eapply must_post; [by apply must_puts|]. by intros [] w' ->. Qed.

Lemma must_fprintf X Q fd fmt ap old w :
  w.(w_out) !! fd = Some old -> Q tt (set_out <[fd := old ++ vprintf_bytes fmt ap]> w) ->
  must file_step Q X (fprintf fd fmt ap) w.
Proof. intros Ho HQ. eapply must_post; [by apply must_puts|]. by intros [] w' ->. Qed.

(** ** Numbers *)

Lemma printint_loop_app fuel x base : forall buf, printint_loop fuel x base buf = buf ++ printint_loop fuel x base [].
Proof.
  revert x. induction fuel as [|fuel IH]; intros x buf; cbn [printint_loop]; [by rewrite app_nil_r|].
  destruct (_ =? 0); [done|]. rewrite IH, (IH _ ([] ++ _)). by rewrite <- (assoc_L (++)).
Qed.

Lemma digit_10 d : 0 <= d < 10 -> digit d = 48 + d.
Proof.
  intros H. assert (d = 0 \/ d = 1 \/ d = 2 \/ d = 3 \/ d = 4 \/ d = 5 \/ d = 6 \/ d = 7 \/ d = 8 \/ d = 9) as Hd by lia.
  repeat (destruct Hd as [->|Hd]; [done|]). by subst.
Qed.

(** The decimal digits of [x], printed most significant first, have the value [x]. *)
Lemma printint_loop_value fuel : forall x,
  0 <= x < 10 ^ Z.of_nat fuel -> (0 < fuel)%nat ->
  Forall (fun c => 48 <= c <= 57) (printint_loop fuel x 10 []) /\
  digits_value (reverse (printint_loop fuel x 10 [])) = x.
Proof.
  induction fuel as [|fuel IH]; intros x Hx Hf; [lia|]. cbn [printint_loop].
  pose proof (Z.mod_pos_bound x 10 ltac:(lia)) as Hm. pose proof (Z.div_mod x 10 ltac:(lia)) as Hdm. cbn [app].
  destruct (Z.eqb_spec (x / 10) 0) as [E|E].
  - rewrite digit_10 by lia. split; [repeat constructor; lia|]. cbn. lia.
  - rewrite printint_loop_app. rewrite Nat2Z.inj_succ, Z.pow_succ_r in Hx by lia.
    destruct (decide (fuel = 0%nat)) as [->|Hf0]; [simpl in Hx; lia|].
    destruct (IH (x / 10)) as [H1 H2]; [split; [apply Z.div_pos; lia|apply Z.div_lt_upper_bound; lia]|lia|].
    rewrite digit_10 by lia. split; [constructor; [lia|done]|]. cbn [app]. rewrite reverse_cons.
    unfold digits_value in *. rewrite foldl_snoc, H2. lia.
Qed.

(** Printing a number and reading it back: the bytes [printf] writes for [%d] of a non-negative [int]
    are decimal digits of which [atoi] returns the number. *)
Theorem printf_atoi n fmt rest :
  0 <= n < 2 ^ 31 -> fmt = str "%d" ->
  (forall c, head rest = Some c -> ~ 48 <= c <= 57) ->
  numeral (vprintf_bytes fmt [UInt n] ++ rest) = n.
Proof.
  intros Hn -> Hr. unfold numeral.
  assert (vprintf_bytes (str "%d") [UInt n] = printint (i32 n) 10 true) as -> by (cbn; by rewrite app_nil_r).
  assert (i32 n = n) as En.
  { unfold i32, signed. change (2 ^ (32 - 1)) with (2 ^ 31). rewrite Z.mod_small by lia. by rewrite (proj2 (Z.ltb_lt _ _)) by lia. }
  unfold printint. rewrite !En. rewrite (proj2 (Z.ltb_ge n 0)) by lia. cbn [andb].
  unfold u32. rewrite Z.mod_small by lia.
  destruct (printint_loop_value 32 n) as [H1 H2]; [split; [lia|]; apply Z.lt_le_trans with (2 ^ 31); [lia|vm_compute; discriminate]|lia|].
  rewrite numeral_loop_ok; [exact H2|lia| |done|].
  - by apply Forall_reverse.
  - fold (digits_value (reverse (printint_loop 32 n 10 []))). lia.
Qed.

Lemma printf_atoi_witness : numeral (vprintf_bytes (str "%d") [UInt 2024] ++ str " ok") = 2024.
Proof. apply printf_atoi; [lia|reflexivity|]. intros c [= <-]. lia. Defined.

(** The formats for [long] arguments print only the low 32 bits: [printint] takes an [int]. *)
Lemma long_truncated v : vprintf_bytes (str "%ld") [UInt v] = vprintf_bytes (str "%d") [UInt v].
Proof.
  cbn. rewrite !app_nil_r. unfold printint. assert (i32 (u64 v) = i32 (i32 v)) as ->; [|done].
  assert (forall a b, a mod 2 ^ 32 = b mod 2 ^ 32 -> i32 a = i32 b) as Hi by (intros a b E; unfold i32, signed; by rewrite E).
  apply Hi. transitivity (v mod 2 ^ 32).
  - unfold u64. apply Z.mod_mod_divide. by exists (2 ^ 32).
  - unfold i32, signed. destruct (_ <? _); [by rewrite Z.mod_mod|].
    rewrite <- (Z_mod_plus_full (v mod 2 ^ 32 - 2 ^ 32) 1). rewrite Z.mul_1_l, Z.sub_add. by rewrite Z.mod_mod.
Qed.
