(* ===== verification/Grep.v ===== *)
(** * grep (user/grep.c)

    The regular-expression matcher, proved equivalent to the language of the
    pattern as a regular expression, and the filter, proved to print exactly
    the matching lines whatever sizes the reads have. *)

From S2P Require Import Prelude Params User Ulib UPrintf.

(** ** The matcher *)

(** [matchhere] is the call [matchhere(re, .)] of the loop. *)
Fixpoint matchstar (matchhere : list Z -> bool) (c : Z) (text : list Z) : bool :=
  if matchhere text then true else
  match text with
  | [] => false
  | t :: text' => if (t =? c) || (c =? 46) then matchstar matchhere c text' else false
  end.

Fixpoint matchhere (re text : list Z) {struct re} : bool :=
  match re with
  | [] => true
  | r0 :: re' =>
      let one :=
        match text with
        | [] => false
        | t :: text' => if (r0 =? 46) || (r0 =? t) then matchhere re' text' else false
        end in
      match re' with
      | r1 :: re'' => if r1 =? 42 then matchstar (matchhere re'') r0 text else one
      | [] => if r0 =? 36 then match text with [] => true | _ => false end else one
      end
  end.

Fixpoint match_any (re text : list Z) : bool :=
  if matchhere re text then true else
  match text with
  | [] => false
  | _ :: text' => match_any re text'
  end.

Definition grep_match (re text : list Z) : bool :=
  match re with
  | r0 :: re' => if r0 =? 94 then matchhere re' text else match_any re text
  | [] => match_any re text
  end.

(** ** The filter *)

Definition BUFSIZE : Z := 1024.

(** [bs] copied into [buf] at [i]. *)
Definition blit (buf : list Z) (i : nat) (bs : list Z) : list Z :=
  take i buf ++ bs ++ drop (i + length bs) buf.

(** The inner loop, over the lines of [buf] from [p] on. *)
Fixpoint grep_lines (fuel : nat) (pattern buf : list Z) (p : nat) : prog (list Z * nat) :=
  match fuel with
  | O => uret (buf, p)
  | S fuel' =>
      match index_of 10 (drop p buf) with
      | None => uret (buf, p)
      | Some i =>
          let q := (p + i)%nat in
          let buf := <[q := 0]> buf in
          let! buf := (if grep_match pattern (until_nul (drop p buf)) then
                         let buf := <[q := 10]> buf in
                         write 1 (take (q + 1 - p) (drop p buf)) ;;
                         uret buf
                       else uret buf) in
          grep_lines fuel' pattern buf (q + 1)
      end
  end.

Definition grep_body (pattern : list Z) (fd : Z) (v : nat * list Z) : prog (nat * list Z + list Z) :=
  let '(m, buf) := v in
  let! (n, bs) := read fd (i32 (BUFSIZE - Z.of_nat m - 1)) in
  if n >? 0 then
    let buf := blit buf m bs in
    let m := (m + Z.to_nat n)%nat in
    let buf := <[m := 0]> buf in
    let! (buf, p) := grep_lines (length buf) pattern buf 0 in
    if (0 <? m)%nat then
      let m := (m - p)%nat in
      uret (inl (m, blit buf 0 (take m (drop p buf))))
    else uret (inl (m, buf))
  else uret (inr buf).

(** The buffer is a global variable. *)
Definition grep (pattern : list Z) (fd : Z) (buf : list Z) : prog (list Z) :=
  loop (grep_body pattern fd) (0%nat, buf).

Definition grep_file (pattern : list Z) (path : list Z) (buf : list Z) : prog (list Z) :=
  let! fd := open path O_RDONLY in
  if fd <? 0 then
    printf (str "grep: cannot open %s" ++ [10]) [UStr (Some path)] ;;
    exit 1
  else
    let! buf := grep pattern fd buf in
    close fd ;;
    uret buf.

Fixpoint grep_files (pattern : list Z) (paths : list (list Z)) (buf : list Z) : prog (list Z) :=
  match paths with
  | [] => uret buf
  | path :: paths' =>
      let! buf := grep_file pattern path buf in
      grep_files pattern paths' buf
  end.

Definition grep_main (argv : list (list Z)) : prog Z :=
  let buf := replicate (Z.to_nat BUFSIZE) 0 in
  match argv with
  | [] | [_] =>
      fprintf 2 (str "usage: grep pattern [file ...]" ++ [10]) [] ;;
      exit 1
  | [_; pattern] =>
      grep pattern 0 buf ;;
      exit 0
  | _ :: pattern :: paths =>
      grep_files pattern paths buf ;;
      exit 0
  end.

(** ** Regular expressions *)

Inductive regex : Type :=
| Eps
| Any
| Chr (c : Z)
| Cat (r s : regex)
| Star (r : regex).

Inductive lang : regex -> list Z -> Prop :=
| lang_eps : lang Eps []
| lang_any c : lang Any [c]
| lang_chr c : lang (Chr c) [c]
| lang_cat r s u v : lang r u -> lang s v -> lang (Cat r s) (u ++ v)
| lang_star_nil r : lang (Star r) []
| lang_star_app r u v : lang r u -> lang (Star r) v -> lang (Star r) (u ++ v).

Definition sym (c : Z) : regex := if c =? 46 then Any else Chr c.

(** The expression a pattern without its [^] denotes, and whether it ends in
    the anchor [$]. *)
Fixpoint pattern_body (re : list Z) : regex * bool :=
  match re with
  | [] => (Eps, false)
  | r0 :: re' =>
      let one := (Cat (sym r0) (fst (pattern_body re')), snd (pattern_body re')) in
      match re' with
      | r1 :: re'' => if r1 =? 42 then (Cat (Star (sym r0)) (fst (pattern_body re'')), snd (pattern_body re'')) else one
      | [] => if r0 =? 36 then (Eps, true) else one
      end
  end.

Definition anchored (re : list Z) : bool := match re with r0 :: _ => r0 =? 94 | [] => false end.
Definition unanchored (re : list Z) : list Z := if anchored re then tail re else re.

(** ** Correctness of the matcher *)

Lemma lang_sym c u : lang (sym c) u <-> exists t, u = [t] /\ (c = 46 \/ c = t).
Proof.
  unfold sym. destruct (Z.eqb_spec c 46) as [->|Hc]; split.
  - intros H. inversion H. eauto.
  - intros (t & -> & _). constructor.
  - intros H. inversion H. eauto.
  - intros (t & -> & [?| ->]); [done|constructor].
Qed.

Lemma lang_star_sym c u : lang (Star (sym c)) u <-> Forall (fun t => t = c \/ c = 46) u.
Proof.
  split.
  - intros H. remember (Star (sym c)) as r eqn:Er. induction H; try done.
    injection Er as ->. apply lang_sym in H as (t & -> & Ht). constructor; [naive_solver|auto].
  - induction 1 as [|t u Ht _ IH]; [constructor|]. apply (lang_star_app _ [t]); [|done].
    apply lang_sym. exists t. naive_solver.
Qed.

Lemma lang_cat_inv r s w : lang (Cat r s) w <-> exists u v, w = u ++ v /\ lang r u /\ lang s v.
Proof. split; [intros H; inversion H; eauto 6|intros (u & v & -> & ? & ?); by constructor]. Qed.

Lemma matchstar_spec mh c text :
  matchstar mh c text = true <->
  exists u v, text = u ++ v /\ Forall (fun t => t = c \/ c = 46) u /\ mh v = true.
Proof.
  induction text as [|t text IH]; cbn [matchstar]; destruct (mh _) eqn:E.
  - split; [|done]. intros _. by exists [], [].
  - split; [done|]. intros (u & v & Huv & _ & Hv). symmetry in Huv. apply app_eq_nil in Huv as [-> ->]. congruence.
  - split; [|done]. intros _. by exists [], (t :: text).
  - transitivity ((t = c \/ c = 46) /\ matchstar mh c text = true).
    { destruct (Z.eqb_spec t c), (Z.eqb_spec c 46); cbn [orb]; naive_solver. }
    rewrite IH. split.
    + intros (Ht & u & v & -> & Hu & Hv). exists (t :: u), v. split_and!; [done|by constructor|done].
    + intros (u & v & Huv & Hu & Hv). destruct Hu as [|t' u Ht Hu]; [simpl in Huv; subst v; congruence|].
      injection Huv as -> ->. split; [done|]. by exists u, v.
Qed.

(** What a pattern body matches at the beginning of a text. *)
Definition matches_at (p : regex * bool) (text : list Z) : Prop :=
  exists mid post, text = mid ++ post /\ lang (fst p) mid /\ (snd p = true -> post = []).

Lemma matches_at_cat r p text :
  matches_at (Cat r (fst p), snd p) text <-> exists u v, text = u ++ v /\ lang r u /\ matches_at p v.
Proof.
  unfold matches_at. cbn [fst snd]. setoid_rewrite lang_cat_inv. split.
  - intros (mid & post & -> & (u & v & -> & Hu & Hv) & Hp). exists u, (v ++ post). rewrite (assoc_L (++)).
    split_and!; [done|done|]. by exists v, post.
  - intros (u & v & -> & Hu & mid & post & -> & Hm & Hp). exists (u ++ mid), post. rewrite (assoc_L (++)).
    split_and!; [done| |done]. by exists u, mid.
Qed.

Lemma matchhere_one (P : list Z -> Prop) (f : list Z -> bool) c text :
  (forall t, f t = true <-> P t) ->
  match text with [] => false | t :: text' => if (c =? 46) || (c =? t) then f text' else false end = true <->
  exists u v, text = u ++ v /\ lang (sym c) u /\ P v.
Proof.
  intros Hf. setoid_rewrite lang_sym. destruct text as [|t text].
  - split; [done|]. intros (u & v & Huv & (t & -> & _) & _). done.
  - destruct ((c =? 46) || (c =? t)) eqn:E.
    + rewrite Hf. split.
      * intros HP. exists [t], text. split_and!; [done| |done]. exists t. split; [done|]. lia.
      * intros (u & v & Huv & (t' & -> & _) & HP). injection Huv as -> ->. done.
    + split; [done|]. intros (u & v & Huv & (t' & -> & Ht) & HP). injection Huv as -> ->. lia.
Qed.

Lemma matchhere_spec re : forall text, matchhere re text = true <-> matches_at (pattern_body re) text.
Proof.
  induction re as [re IH] using (induction_ltof1 _ (@length Z)). unfold ltof in IH. intros text.
  destruct re as [|r0 re]; cbn [matchhere pattern_body].
  { split; [|done]. intros _. exists [], text. split_and!; [done|constructor|done]. }
  assert (forall text, matchhere re text = true <-> matches_at (pattern_body re) text) as IH1 by (apply IH; simpl; lia).
  destruct re as [|r1 re].
  - destruct (Z.eqb_spec r0 36) as [->|Hr].
    + unfold matches_at. cbn [fst snd]. destruct text as [|t text].
      * split; [|done]. intros _. exists [], []. split_and!; [done|constructor|done].
      * split; [done|]. intros (mid & post & Ht & Hm & Hp). inversion Hm; subst. by rewrite Hp in Ht.
    + rewrite (matches_at_cat (sym r0) (pattern_body [])). by apply matchhere_one.
  - destruct (Z.eqb_spec r1 42) as [->|Hr].
    + rewrite (matches_at_cat _ (pattern_body re)), matchstar_spec. setoid_rewrite lang_star_sym.
      assert (forall text, matchhere re text = true <-> matches_at (pattern_body re) text) as IH2 by (apply IH; simpl; lia).
      by setoid_rewrite IH2.
    + rewrite (matches_at_cat (sym r0) (pattern_body (r1 :: re))). by apply matchhere_one.
Qed.

Lemma match_any_spec re text :
  match_any re text = true <-> exists pre rest, text = pre ++ rest /\ matchhere re rest = true.
Proof.
  induction text as [|t text IH]; cbn [match_any]; destruct (matchhere re _) eqn:E.
  - split; [|done]. intros _. by exists [], [].
  - split; [done|]. intros (pre & rest & H & Hr). symmetry in H. apply app_eq_nil in H as [-> ->]. congruence.
  - split; [|done]. intros _. by exists [], (t :: text).
  - rewrite IH. split; [intros (pre & rest & -> & Hr); by exists (t :: pre), rest|].
    intros (pre & rest & H & Hr). destruct pre as [|t' pre]; simpl in H; [subst; congruence|].
    injection H as -> ->. by exists pre, rest.
Qed.

Lemma grep_match_unfold re text :
  grep_match re text = if anchored re then matchhere (unanchored re) text else match_any (unanchored re) text.
Proof. unfold unanchored, anchored. destruct re as [|r0 re]; [done|]. simpl. by destruct (r0 =? 94). Qed.

(** [C23] [match] decides whether the text has a part in the language of the pattern: the part is at
    the beginning if the pattern starts with [^] and at the end if it ends in [$]. *)
Theorem grep_match_correct re text :
  grep_match re text = true <->
  exists pre mid post, text = pre ++ mid ++ post /\ lang (fst (pattern_body (unanchored re))) mid /\
    (anchored re = true -> pre = []) /\ (snd (pattern_body (unanchored re)) = true -> post = []).
Proof.
  rewrite grep_match_unfold. destruct (anchored re).
  - rewrite matchhere_spec. split.
    + intros (mid & post & -> & Hm & Hp). exists [], mid, post. by split_and!.
    + intros (pre & mid & post & -> & Hm & Hb & Hp). rewrite Hb by done. by exists mid, post.
  - rewrite match_any_spec. setoid_rewrite matchhere_spec. split.
    + intros (pre & rest & -> & mid & post & -> & Hm & Hp). exists pre, mid, post. by split_and!.
    + intros (pre & mid & post & -> & Hm & _ & Hp). exists pre, (mid ++ post). split; [done|]. by exists mid, post.
Qed.

(** ** Lines *)

(** The lines of a text, without their newlines, and what follows the last newline. *)
Fixpoint split_lines (text : list Z) : list (list Z) * list Z :=
  match text with
  | [] => ([], [])
  | c :: text' =>
      let '(ls, tl) := split_lines text' in
      if c =? 10 then ([] :: ls, tl)
      else match ls with [] => ([], c :: tl) | l :: ls' => ((c :: l) :: ls', tl) end
  end.

Fixpoint keep_while {A} (P : A -> bool) (l : list A) : list A :=
  match l with
  | [] => []
  | x :: l' => if P x then x :: keep_while P l' else []
  end.

(** The line as it is printed, if it matches. *)
Definition print_line (pattern l : list Z) : list Z := if grep_match pattern l then l ++ [10] else [].

(** A line fits the buffer, with its newline and the NUL. *)
Definition line_fits (l : list Z) : bool := Z.of_nat (length l) <=? BUFSIZE - 2.

Definition grep_output (pattern text : list Z) : list Z :=
  concat (map (print_line pattern) (keep_while line_fits (fst (split_lines text)))).

Lemma split_lines_line l text :
  10 ∉ l -> split_lines (l ++ 10 :: text) = (l :: fst (split_lines text), snd (split_lines text)).
Proof.
  induction l as [|c l IH]; intros Hl; cbn [app split_lines].
  - by destruct (split_lines text).
  - apply not_elem_of_cons in Hl as [Hc Hl]. rewrite IH by done. by rewrite (proj2 (Z.eqb_neq c 10)) by done.
Qed.

Lemma split_lines_none l : 10 ∉ l -> split_lines l = ([], l).
Proof.
  induction l as [|c l IH]; intros Hl; cbn [split_lines]; [done|].
  apply not_elem_of_cons in Hl as [Hc Hl]. rewrite IH by done. by rewrite (proj2 (Z.eqb_neq c 10)) by done.
Qed.

Lemma split_lines_ind (P : list Z -> Prop) :
  (forall l, 10 ∉ l -> P l) -> (forall l text, 10 ∉ l -> P text -> P (l ++ 10 :: text)) -> forall text, P text.
Proof.
  intros H0 H1 text. induction text as [text IH] using (induction_ltof1 _ (@length Z)). unfold ltof in IH.
  destruct (decide (10 ∈ text)) as [Hin|]; [|by apply H0].
  apply list_elem_of_split_l in Hin as (l & r & -> & Hl). apply H1; [done|]. apply IH. rewrite length_app. simpl. lia.
Qed.

Lemma split_lines_app a : forall b,
  split_lines (a ++ b) = (fst (split_lines a) ++ fst (split_lines (snd (split_lines a) ++ b)),
                          snd (split_lines (snd (split_lines a) ++ b))).
Proof.
  induction a as [l Hl|l a Hl IH] using split_lines_ind; intros b.
  - rewrite (split_lines_none l) by done. cbn [fst snd app]. by destruct (split_lines _).
  - rewrite <- (assoc_L (++)). cbn [app]. rewrite !split_lines_line by done. cbn [fst snd]. by rewrite IH.
Qed.

(** A text is its lines and the rest. *)
Lemma split_lines_tail text : 10 ∉ snd (split_lines text) /\ snd (split_lines text) `suffix_of` text /\
  Forall (fun l => (length l < length text)%nat) (fst (split_lines text)) /\ Forall (fun l => l ⊆ text) (fst (split_lines text)).
Proof.
  induction text as [l Hl|l a Hl (IH1 & IH2 & IH3 & IH4)] using split_lines_ind.
  - rewrite split_lines_none by done. by split_and!.
  - rewrite split_lines_line by done. cbn [fst snd]. split_and!; [done| | |].
    + destruct IH2 as (k & E). exists (l ++ 10 :: k). rewrite <- (assoc_L (++)). cbn [app]. by rewrite <- E.
    + rewrite length_app. constructor; [simpl; lia|]. eapply Forall_impl; [exact IH3|]. simpl. intros. lia.
    + constructor; [set_solver|]. eapply Forall_impl; [exact IH4|]. set_solver.
Qed.

Lemma keep_while_app {A} (P : A -> bool) (l l' : list A) :
  Forall (fun x => P x = true) l -> keep_while P (l ++ l') = l ++ keep_while P l'.
Proof. induction 1 as [|x l Hx _ IH]; cbn [app keep_while]; [done|]. by rewrite Hx, IH. Qed.

(** The output for a text of which the part [a] has been read. *)
Lemma grep_output_app pattern a b :
  Z.of_nat (length a) < BUFSIZE ->
  grep_output pattern (a ++ b) =
    concat (map (print_line pattern) (fst (split_lines a))) ++ grep_output pattern (snd (split_lines a) ++ b).
Proof.
  intros Hlen. unfold grep_output. rewrite split_lines_app. cbn [fst].
  rewrite keep_while_app, map_app, concat_app; [done|].
  destruct (split_lines_tail a) as (_ & _ & Hl & _). eapply Forall_impl; [exact Hl|]. intros l Hlt. apply Z.leb_le. unfold BUFSIZE in *. lia.
Qed.

Lemma grep_output_long pattern a b : 10 ∉ a -> BUFSIZE - 1 <= Z.of_nat (length a) -> grep_output pattern (a ++ b) = [].
Proof.
  intros Ha Hl. unfold grep_output. rewrite split_lines_app. rewrite (split_lines_none a) by done. cbn [fst snd app].
  induction b as [l' Hl'|l' b Hl' _] using split_lines_ind.
  - rewrite split_lines_none; [done|]. rewrite elem_of_app. naive_solver.
  - rewrite (assoc_L (++)), split_lines_line by (rewrite elem_of_app; naive_solver). cbn [fst keep_while].
    unfold line_fits. rewrite (proj2 (Z.leb_gt _ _)); [done|]. rewrite length_app. lia.
Qed.

Lemma grep_output_none pattern a : 10 ∉ a -> grep_output pattern a = [].
Proof. intros Ha. unfold grep_output. by rewrite split_lines_none. Qed.

(** ** Correctness of the filter *)

Lemma index_of_newline l r junk : 10 ∉ l -> 0 ∉ l -> index_of 10 ((l ++ 10 :: r) ++ junk) = Some (length l).
Proof.
  induction l as [|c l IH]; intros H1 H0; cbn [app index_of length]; [done|].
  apply not_elem_of_cons in H1 as [? ?], H0 as [? ?].
  rewrite (proj2 (Z.eqb_neq c 0)), (proj2 (Z.eqb_neq c 10)) by done. by rewrite IH.
Qed.

Lemma index_of_end l junk : 10 ∉ l -> 0 ∉ l -> index_of 10 (l ++ 0 :: junk) = None.
Proof.
  induction l as [|c l IH]; intros H1 H0; cbn [app index_of]; [done|].
  apply not_elem_of_cons in H1 as [? ?], H0 as [? ?].
  rewrite (proj2 (Z.eqb_neq c 0)), (proj2 (Z.eqb_neq c 10)) by done. by rewrite IH.
Qed.

Lemma insert_mid (pre l rest : list Z) x y :
  <[(length pre + length l)%nat := y]> (pre ++ l ++ x :: rest) = pre ++ l ++ y :: rest.
Proof. rewrite !(assoc_L (++)), <- length_app, insert_app_r_alt by done. by rewrite Nat.sub_diag. Qed.

(** One line: what the body does to the buffer and the output. *)
Lemma grep_line_ok pattern (pre l rest : list Z) X w o :
  0 ∉ l -> w.(w_out) !! 1 = Some o ->
  let q := (length pre + length l)%nat in
  let buf := pre ++ l ++ 0 :: rest in
  must file_step (fun b w' => (exists x, b = pre ++ l ++ x :: rest) /\ w' = set_out <[1 := o ++ print_line pattern l]> w) X
    (if grep_match pattern (until_nul (drop (length pre) buf)) then
       let buf := <[q := 10]> buf in
       write 1 (take (q + 1 - length pre) (drop (length pre) buf)) ;;
       uret buf
     else uret buf) w.
Proof.
  intros H0 Ho q buf. unfold buf. rewrite drop_app_length, until_nul_app by done. unfold print_line.
  destruct (grep_match pattern l).
  - unfold q. cbv zeta. rewrite insert_mid, drop_app_length.
    replace (length pre + length l + 1 - length pre)%nat with (length (l ++ [10])) by (rewrite length_app; simpl; lia).
    replace (l ++ 10 :: rest) with ((l ++ [10]) ++ rest) by (by rewrite <- (assoc_L (++))). rewrite take_app_length.
    apply must_bind. eapply must_write; [exact Ho|]. apply must_uret. split; [|done]. exists 10. by rewrite <- (assoc_L (++)).
  - apply must_uret. split; [by exists 0|]. rewrite app_nil_r. destruct w as [i ow f]. unfold set_out. cbn in *. by rewrite insert_id.
Qed.

(** The inner loop prints the matching lines of the bytes in the buffer. *)
Lemma grep_lines_ok pattern junk X content : forall fuel buf p w o,
  drop p buf = content ++ 0 :: junk -> 0 ∉ content -> (length content < fuel)%nat -> w.(w_out) !! 1 = Some o ->
  must file_step (fun r w' => length r.1 = length buf /\
      drop r.2 r.1 = snd (split_lines content) ++ 0 :: junk /\
      (r.2 + length (snd (split_lines content)) = p + length content)%nat /\
      w' = set_out <[1 := o ++ concat (map (print_line pattern) (fst (split_lines content)))]> w) X
    (grep_lines fuel pattern buf p) w.
Proof.
  induction content as [l Hl|l content Hl IH] using split_lines_ind; intros fuel buf p w o Hb H0 Hf Ho;
    (destruct fuel as [|fuel]; [lia|]); cbn [grep_lines]; rewrite Hb.
  - rewrite index_of_end by done. apply must_uret. rewrite split_lines_none by done. cbn [fst snd].
    split_and!; [done|done|done|]. destruct w as [i ow f]. unfold set_out. cbn in *. rewrite app_nil_r. by rewrite insert_id.
  - apply not_elem_of_app in H0 as [Hl0 [_ Hc0]%not_elem_of_cons]. rewrite index_of_newline by done.
    set (pre := take p buf). set (rest := content ++ 0 :: junk).
    assert (buf = pre ++ l ++ 10 :: rest) as Eb.
    { rewrite <- (take_drop p buf) at 1. rewrite Hb. unfold rest. by rewrite <- (assoc_L (++)). }
    assert (length pre = p) as Ep.
    { unfold pre. apply length_take_le. apply Nat.lt_le_incl, Nat.nle_gt. intros Hge. rewrite drop_ge in Hb by done.
      by destruct l. }
    cbv zeta. clearbody pre. subst buf. rewrite <- Ep, insert_mid. apply must_bind.
    eapply must_post; [apply (grep_line_ok pattern pre l rest X w o Hl0 Ho)|].
    intros b w1 [[x ->] ->].
    replace (length pre + length l + 1)%nat with (length (pre ++ l ++ [x])) by (rewrite !length_app; simpl; lia).
    eapply must_post; [apply (IH fuel _ _ _ (o ++ print_line pattern l))|].
    + replace (pre ++ l ++ x :: rest) with ((pre ++ l ++ [x]) ++ rest) by (by rewrite <- !(assoc_L (++))).
      by rewrite drop_app_length.
    + done.
    + rewrite length_app in Hf. simpl in Hf. lia.
    + apply lookup_insert_eq.
    + intros r w' (H1 & H2 & H3 & ->). rewrite split_lines_line by done. cbn [fst snd]. split_and!; [|exact H2| |].
      * rewrite H1, !length_app. simpl. lia.
      * rewrite !length_app in *. simpl in *. lia.
      * destruct w as [i ow f]. unfold set_out. cbn. by rewrite insert_insert_eq, <- (assoc_L (++)).
Qed.

(** The world after reading from [fd] and printing. *)
Definition world_at (w : world) (fd : Z) (rest out : list Z) : world :=
  set_in <[fd := rest]> (set_out <[1 := out]> w).

Record grep_inv (pattern text : list Z) (fd : Z) (w0 : world) (o : list Z) (v : nat * list Z) (w : world) : Prop := {
  gi_buf : length v.2 = Z.to_nat BUFSIZE;
  gi_m : (v.1 < Z.to_nat BUFSIZE)%nat;
  gi_line : 10 ∉ take v.1 v.2 /\ 0 ∉ take v.1 v.2;
  gi_world : exists rest o1, w = world_at w0 fd rest o1 /\ 0 ∉ rest /\
    o1 ++ grep_output pattern (take v.1 v.2 ++ rest) = o ++ grep_output pattern text;
}.

Lemma length_blit buf i bs : (i + length bs <= length buf)%nat -> length (blit buf i bs) = length buf.
Proof. intros H. unfold blit. rewrite !length_app, length_take, length_drop. lia. Qed.

(** The buffer after a read of [bs]. *)
Lemma blit_nul buf m bs : (m + length bs < length buf)%nat ->
  <[(m + length bs)%nat := 0]> (blit buf m bs) = (take m buf ++ bs) ++ 0 :: drop (m + length bs + 1) buf.
Proof.
  intros H. unfold blit. rewrite (assoc_L (++)).
  assert (length (take m buf ++ bs) = (m + length bs)%nat) as El by (rewrite length_app, length_take; lia).
  rewrite insert_app_r_alt by lia. rewrite El, Nat.sub_diag. f_equal.
  destruct (drop (m + length bs) buf) as [|x r] eqn:E.
  - apply (f_equal length) in E. rewrite length_drop in E. simpl in E. lia.
  - simpl. f_equal. transitivity (drop 1 (drop (m + length bs) buf)); [by rewrite E|]. by rewrite drop_drop.
Qed.

Lemma grep_body_ok pattern text fd w0 o X v w :
  grep_inv pattern text fd w0 o v w ->
  must file_step (fun r w' => match r with
      | inl v' => grep_inv pattern text fd w0 o v' w' /\
          (length (default [] (w'.(w_in) !! fd)) < length (default [] (w.(w_in) !! fd)))%nat
      | inr buf => length buf = Z.to_nat BUFSIZE /\ exists rest, w' = world_at w0 fd rest (o ++ grep_output pattern text)
      end) X (grep_body pattern fd v) w.
Proof.
  destruct v as [m buf]. intros [Hb Hm [Hl1 Hl0] (rest & o1 & -> & Hr0 & Eo)]. cbn [fst snd] in *. cbn [grep_body].
  change (Z.to_nat BUFSIZE) with 1024%nat in *.
  assert (i32 (BUFSIZE - Z.of_nat m - 1) = BUFSIZE - Z.of_nat m - 1) as ->.
  { unfold i32, signed, BUFSIZE. rewrite Z.mod_small by lia. rewrite (proj2 (Z.ltb_lt _ _)) by lia. done. }
  apply must_bind. eapply must_read; [apply lookup_insert_eq|]. intros k Hk Hn Hz.
  destruct (Z.gtb_spec (Z.of_nat k) 0) as [Hpos|Hk0].
  2:{ assert (k = 0%nat) as -> by lia. apply must_uret. split; [done|]. exists rest.
      assert (grep_output pattern (take m buf ++ rest) = []) as E0.
      { destruct (Hz eq_refl) as [Hfull| ->].
        - apply grep_output_long; [done|]. rewrite length_take, Hb. unfold BUFSIZE in *. lia.
        - rewrite app_nil_r. by apply grep_output_none. }
      rewrite <- Eo, E0, app_nil_r. unfold world_at, set_in. cbn. by rewrite insert_insert_eq. }
  set (bs := take k rest). assert (length bs = k) as Hbs by (unfold bs; rewrite length_take; lia).
  rewrite Nat2Z.id, <- Hbs. rewrite blit_nul by (unfold BUFSIZE in *; lia).
  set (content := take m buf ++ bs). set (junk := drop (m + length bs + 1) buf).
  assert (0 ∉ content) as Hc0.
  { apply not_elem_of_app. split; [done|]. intros Hin. apply Hr0. rewrite <- (take_drop k rest). apply elem_of_app. by left. }
  assert (length content = m + length bs)%nat as Hlc by (unfold content; rewrite length_app, length_take; lia).
  assert (content ++ drop k rest = take m buf ++ rest) as Hcr
    by (unfold content, bs; by rewrite <- (assoc_L (++)), take_drop).
  assert (length (content ++ 0 :: junk) = 1024%nat) as Hlb.
  { rewrite length_app, Hlc. unfold junk. simpl. rewrite length_drop, Hb. unfold BUFSIZE in *. lia. }
  destruct (split_lines_tail content) as (Ht1 & Hsuf & _ & _).
  apply must_bind. eapply must_post; [eapply (grep_lines_ok pattern junk X content)|]; [done|done|rewrite Hlb; unfold BUFSIZE in *; lia|apply lookup_insert_eq|].
  intros [buf2 p2] w2 (H1 & H2 & H3 & ->). cbn [fst snd] in *. set (tl := snd (split_lines content)) in *.
  rewrite (proj2 (Nat.ltb_lt 0 _)) by lia. apply must_uret.
  replace (m + length bs - p2)%nat with (length tl) by lia. rewrite H2, take_app_length.
  assert (take (length tl) (blit buf2 0 tl) = tl) as Ht by (unfold blit; rewrite take_0, app_nil_l; apply take_app_length).
  rewrite Hbs.
  assert (0 ∉ tl) as Ht0 by (destruct Hsuf as (l0 & El); rewrite El in Hc0; by apply not_elem_of_app in Hc0 as [_ ?]).
  split; [constructor; cbn [fst snd]|].
  - rewrite length_blit by (rewrite H1, length_app; lia). rewrite H1. exact Hlb.
  - unfold BUFSIZE in *. lia.
  - rewrite Ht. done.
  - rewrite Ht. exists (drop k rest), (o1 ++ concat (map (print_line pattern) (fst (split_lines content)))). split_and!.
    + unfold world_at, set_in, set_out. cbn. by rewrite !insert_insert_eq.
    + intros Hin. apply Hr0. rewrite <- (take_drop k rest). apply elem_of_app. by right.
    + rewrite <- Eo, <- Hcr, <- (assoc_L (++)). f_equal. symmetry. apply grep_output_app. unfold BUFSIZE in *. lia.
  - unfold world_at. cbn. rewrite !lookup_insert_eq. cbn. rewrite length_drop. lia.
Qed.

Lemma grep_ok pattern fd text o buf X w :
  w.(w_in) !! fd = Some text -> w.(w_out) !! 1 = Some o -> 0 ∉ text -> length buf = Z.to_nat BUFSIZE ->
  must file_step (fun buf' w' => length buf' = Z.to_nat BUFSIZE /\
      exists rest, w' = world_at w fd rest (o ++ grep_output pattern text)) X (grep pattern fd buf) w.
Proof.
  intros Hi Ho Hz Hb.
  apply (must_loop file_step _ X (grep_body pattern fd) (grep_inv pattern text fd w o)
    (fun _ w' => length (default [] (w'.(w_in) !! fd)))); [apply grep_body_ok|].
  constructor; cbn [fst snd]; [done|by vm_compute; lia|by split; apply not_elem_of_nil|].
  exists text, o. split_and!; [|done|done]. destruct w as [i ow f]. unfold world_at, set_in, set_out. cbn in *.
  by rewrite !insert_id.
Qed.

Lemma grep_files_ok pattern X paths : forall texts o buf w,
  Forall2 (fun path text => w.(w_files) !! path = Some text /\ 0 ∉ text) paths texts ->
  w.(w_out) !! 1 = Some o -> length buf = Z.to_nat BUFSIZE ->
  must file_step (fun _ w' => w' = set_out <[1 := o ++ concat (map (grep_output pattern) texts)]> w) X
    (grep_files pattern paths buf) w.
Proof.
  induction paths as [|path paths IH]; intros texts o buf w Hp Ho Hb;
    [apply Forall2_nil_inv_l in Hp as ->|apply Forall2_cons_inv_l in Hp as (text & texts' & [Hp Hz] & Hps & ->)].
  - apply must_uret. cbn. rewrite app_nil_r. destruct w as [i ow f]. unfold set_out. cbn in *. by rewrite insert_id.
  - cbn [grep_files]. apply must_bind. unfold grep_file. apply must_bind. eapply must_open; [exact Hp|].
    intros fd Hfd Hi _. rewrite (proj2 (Z.ltb_ge fd 0)) by lia. apply must_bind.
    eapply must_post; [apply (grep_ok pattern fd text o)|]; [apply lookup_insert_eq|exact Ho|done|done|].
    intros buf' w' [Hb' (rest & ->)]. apply must_bind. apply must_close, must_uret.
    assert (set_in (delete fd) (world_at (set_in <[fd := text]> w) fd rest (o ++ grep_output pattern text)) =
      set_out <[1 := o ++ grep_output pattern text]> w) as ->.
    { unfold world_at, set_in, set_out. cbn. f_equal. rewrite insert_insert_eq. by apply delete_insert_id. }
    eapply must_post; [apply (IH texts' (o ++ grep_output pattern text)); [done|apply lookup_insert_eq|done]|].
    intros _ w' ->. unfold set_out. cbn. by rewrite insert_insert_eq, <- (assoc_L (++)).
Qed.

(** [C24] [grep pattern file ...] terminates with status 0 however the reads are cut, and prints the lines
    of the files, or of the standard input when no file is named, that match the pattern, each with
    its newline and in their order; of a file with a line that does not fit the buffer it prints
    only lines before that line. *)
Theorem grep_main_correct name pattern paths texts o w :
  w.(w_out) !! 1 = Some o ->
  (if paths is [] then exists text, w.(w_in) !! 0 = Some text /\ 0 ∉ text /\ texts = [text]
   else Forall2 (fun path text => w.(w_files) !! path = Some text /\ 0 ∉ text) paths texts) ->
  must file_step (fun _ _ => False)
    (fun status w' => status = 0 /\ w'.(w_out) = <[1 := o ++ concat (map (grep_output pattern) texts)]> w.(w_out))
    (grep_main (name :: pattern :: paths)) w.
Proof.
  intros Ho Hp. cbn [grep_main]. destruct paths as [|path paths]; apply must_bind.
  - destruct Hp as (text & Hi & Hz & ->). eapply must_post; [by apply (grep_ok pattern 0 text o)|].
    intros buf w' [_ (rest & ->)]. apply must_exits. split; [done|]. cbn. by rewrite app_nil_r.
  - eapply must_post; [by apply (grep_files_ok pattern _ (path :: paths) texts o)|].
    intros buf w' ->. apply must_exits. done.
Qed.

Lemma grep_main_correct_witness :
  let w := mkWorld ∅ {[1 := []]} {[str "notes" := str "one
two
three
"]} in
  must file_step (fun _ _ => False)
    (fun status w' => status = 0 /\ w'.(w_out) !! 1 = Some (str "two
three
")) (grep_main [str "grep"; str "^t.*"; str "notes"]) w.
Proof.
  intros w. eapply must_mono.
  - apply (grep_main_correct (str "grep") (str "^t.*") [str "notes"] [str "one
two
three
"] []); [reflexivity|]. constructor; [split; [reflexivity|]|constructor].
    apply (bool_decide_unpack _). vm_compute. exact I.
  - done.
  - intros st w' [-> ->]. split; [done|]. vm_compute. reflexivity.
Defined.
