(* ===== verification/Sh.v ===== *)
(** * The shell (user/sh.c)

    The parser works on the bytes of the line; a [char*] into the line is an
    index. A command node holds the strings of its arguments as values of a
    type [A]: pairs of pointers while parsing, byte lists once the tokens have
    been terminated. Allocation of the nodes succeeds. *)

From S2P Require Import Prelude Params User Ulib.

(** ** Commands *)

Definition MAXARGS : nat := 10.

(** [O_WRONLY|O_CREATE|O_TRUNC] and [O_WRONLY|O_CREATE] *)
Definition MODE_OUT : Z := Z.lor (Z.lor O_WRONLY O_CREATE) O_TRUNC.
Definition MODE_APPEND : Z := Z.lor O_WRONLY O_CREATE.

Inductive cmd (A : Type) : Type :=
| ExecCmd (argv : list A)
| RedirCmd (c : cmd A) (file : A) (mode fd : Z)
| PipeCmd (left right : cmd A)
| ListCmd (left right : cmd A)
| BackCmd (c : cmd A).
Arguments ExecCmd {A} argv.
Arguments RedirCmd {A} c file mode fd.
Arguments PipeCmd {A} left right.
Arguments ListCmd {A} left right.
Arguments BackCmd {A} c.

Fixpoint cmd_map {A B} (f : A -> B) (c : cmd A) : cmd B :=
  match c with
  | ExecCmd argv => ExecCmd (map f argv)
  | RedirCmd c file mode fd => RedirCmd (cmd_map f c) (f file) mode fd
  | PipeCmd l r => PipeCmd (cmd_map f l) (cmd_map f r)
  | ListCmd l r => ListCmd (cmd_map f l) (cmd_map f r)
  | BackCmd c => BackCmd (cmd_map f c)
  end.

(** ** Tokens *)

Definition whitespace : list Z := [32; 9; 13; 10; 11].
Definition symbols : list Z := str "<|>&;()".

(** [*s], with the NUL at the end of the line. *)
Definition char_at (buf : list Z) (s : nat) : Z := default 0 (buf !! s).

(** [while(s < es && P) s++] *)
Fixpoint skip_from (P : Z -> bool) (l : list Z) : nat :=
  match l with
  | [] => 0
  | c :: l' => if P c then S (skip_from P l') else 0
  end.
Definition skip (P : Z -> bool) (buf : list Z) (s : nat) : nat := s + skip_from P (drop s buf).

Definition is_space (c : Z) : bool := in_str c whitespace.
Definition is_symbol (c : Z) : bool := in_str c symbols.

(** The token, its bounds [q] and [eq], and the new position. *)
Definition gettoken (buf : list Z) (ps : nat) : Z * nat * nat * nat :=
  let q := skip is_space buf ps in
  let c := char_at buf q in
  let '(ret, eq) :=
    if c =? 0 then (0, q)
    else if in_str c (str "|();&<") then (c, (q + 1)%nat)
    else if c =? 62 then
      if char_at buf (q + 1) =? 62 then (43, (q + 2)%nat) else (62, (q + 1)%nat)
    else (97, skip (fun c => negb (is_space c) && negb (is_symbol c)) buf q) in
  (ret, q, eq, skip is_space buf eq).

Definition peek (buf : list Z) (ps : nat) (toks : list Z) : bool * nat :=
  let s := skip is_space buf ps in
  (negb (char_at buf s =? 0) && in_str (char_at buf s) toks, s).

(** ** The parser

    A parser returns a value and the new position, or panics with a message,
    or runs out of fuel. *)

Inductive presult (A : Type) : Type :=
| POk (a : A) (ps : nat)
| PPanic (msg : list Z)
| PFuel.
Arguments POk {A} a ps.
Arguments PPanic {A} msg.
Arguments PFuel {A}.

Definition pbind {A B} (r : presult A) (k : A -> nat -> presult B) : presult B :=
  match r with
  | POk a ps => k a ps
  | PPanic msg => PPanic msg
  | PFuel => PFuel
  end.

Definition token : Type := (nat * nat)%type.

(** A redirection: file, mode, descriptor. *)
Definition redir : Type := (token * Z * Z)%type.

(** [redircmd] around a command, innermost first. *)
Definition wrap {A} (c : cmd A) (rs : list (A * Z * Z)) : cmd A :=
  foldl (fun c '(file, mode, fd) => RedirCmd c file mode fd) c rs.

(** The redirections are returned as a list, to be wrapped around the command:
    the node of [parseexec] gets its arguments after it has been wrapped. *)
Fixpoint parseredirs (fuel : nat) (buf : list Z) (ps : nat) : presult (list redir) :=
  match fuel with
  | O => PFuel
  | S fuel' =>
      let '(b, ps) := peek buf ps (str "<>") in
      if b then
        let '(tok, _, _, ps) := gettoken buf ps in
        let '(tok2, q, eq, ps) := gettoken buf ps in
        if negb (tok2 =? 97) then PPanic (str "missing file for redirection") else
        let r :=
          if tok =? 60 then [((q, eq), O_RDONLY, 0)]
          else if tok =? 62 then [((q, eq), MODE_OUT, 1)]
          else if tok =? 43 then [((q, eq), MODE_APPEND, 1)]
          else [] in
        pbind (parseredirs fuel' buf ps) (fun rs ps => POk (r ++ rs) ps)
      else POk [] ps
  end.

(** The loop of [parseexec] on the arguments [argv] and redirections [rs] so far. *)
Fixpoint parseargs (fuel : nat) (buf : list Z) (argv : list token) (rs : list redir) (ps : nat) : presult (cmd token) :=
  match fuel with
  | O => PFuel
  | S fuel' =>
      let '(b, ps) := peek buf ps (str "|)&;") in
      if b then POk (wrap (ExecCmd argv) rs) ps else
      let '(tok, q, eq, ps) := gettoken buf ps in
      if tok =? 0 then POk (wrap (ExecCmd argv) rs) ps else
      if negb (tok =? 97) then PPanic (str "syntax") else
      let argv := argv ++ [(q, eq)] in
      if (MAXARGS <=? length argv)%nat then PPanic (str "too many args") else
      pbind (parseredirs fuel' buf ps) (fun rs' ps => parseargs fuel' buf argv (rs ++ rs') ps)
  end.

(** [while(peek(ps, es, "&")){ ... cmd = backcmd(cmd); }] *)
Fixpoint parseback (fuel : nat) (buf : list Z) (c : cmd token) (ps : nat) : presult (cmd token) :=
  match fuel with
  | O => PFuel
  | S fuel' =>
      let '(b, ps) := peek buf ps (str "&") in
      if b then
        let '(_, _, _, ps) := gettoken buf ps in
        parseback fuel' buf (BackCmd c) ps
      else POk c ps
  end.

Fixpoint parseline (fuel : nat) (buf : list Z) (ps : nat) : presult (cmd token) :=
  match fuel with
  | O => PFuel
  | S fuel' =>
      pbind (parsepipe fuel' buf ps) (fun c ps =>
      pbind (parseback fuel' buf c ps) (fun c ps =>
      let '(b, ps) := peek buf ps (str ";") in
      if b then
        let '(_, _, _, ps) := gettoken buf ps in
        pbind (parseline fuel' buf ps) (fun r ps => POk (ListCmd c r) ps)
      else POk c ps))
  end
with parsepipe (fuel : nat) (buf : list Z) (ps : nat) : presult (cmd token) :=
  match fuel with
  | O => PFuel
  | S fuel' =>
      pbind (parseexec fuel' buf ps) (fun c ps =>
      let '(b, ps) := peek buf ps (str "|") in
      if b then
        let '(_, _, _, ps) := gettoken buf ps in
        pbind (parsepipe fuel' buf ps) (fun r ps => POk (PipeCmd c r) ps)
      else POk c ps)
  end
with parseexec (fuel : nat) (buf : list Z) (ps : nat) : presult (cmd token) :=
  match fuel with
  | O => PFuel
  | S fuel' =>
      let '(b, ps) := peek buf ps (str "(") in
      if b then parseblock fuel' buf ps else
      pbind (parseredirs fuel' buf ps) (fun rs ps => parseargs fuel' buf [] rs ps)
  end
with parseblock (fuel : nat) (buf : list Z) (ps : nat) : presult (cmd token) :=
  match fuel with
  | O => PFuel
  | S fuel' =>
      let '(b, ps) := peek buf ps (str "(") in
      if negb b then PPanic (str "parseblock") else
      let '(_, _, _, ps) := gettoken buf ps in
      pbind (parseline fuel' buf ps) (fun c ps =>
      let '(b, ps) := peek buf ps (str ")") in
      if negb b then PPanic (str "syntax - missing )") else
      let '(_, _, _, ps) := gettoken buf ps in
      pbind (parseredirs fuel' buf ps) (fun rs ps => POk (wrap c rs) ps))
  end.

(** [*eq = 0] for every token; [buf] has the NUL of the line as its last byte. *)
Fixpoint nulterminate (c : cmd token) (buf : list Z) : list Z :=
  match c with
  | ExecCmd argv => foldl (fun buf (t : token) => <[snd t := 0]> buf) buf argv
  | RedirCmd c file _ _ => <[snd file := 0]> (nulterminate c buf)
  | PipeCmd l r | ListCmd l r => nulterminate r (nulterminate l buf)
  | BackCmd c => nulterminate c buf
  end.

(** The command and the line after [nulterminate]. Before the panic the
    leftovers are printed, here as part of the message. *)
Definition parsecmd (s : list Z) : presult (cmd token * list Z) :=
  pbind (parseline (4 * length s + 4) s 0) (fun c ps =>
  let '(_, ps) := peek s ps [] in
  if negb (ps =? length s)%nat then PPanic (str "leftovers: " ++ drop ps s ++ [10] ++ str "syntax")
  else POk (c, nulterminate c (s ++ [0])) ps).

(** The C string at a token. *)
Definition arg_string (buf : list Z) (t : token) : list Z := until_nul (drop (fst t) buf).
