(* ===== verification/ShPrint.v ===== *)
(** * The parser of the shell: printing and parsing

    A printer for commands, with parentheses where the grammar needs them, and
    the theorem that [parsecmd] gives back the command that was printed. *)

From S2P Require Import Prelude Params User Ulib Sh ShSpec.

(** ** Printing *)

Definition print_word (w : list Z) : list Z := w ++ [32].

Definition print_redir (r : list Z * Z * Z) : list Z :=
  let '(file, mode, fd) := r in
  (if mode =? O_RDONLY then str "< " else if mode =? MODE_OUT then str "> " else str ">> ") ++ print_word file.

Definition paren (b : bool) (text : list Z) : list Z := if b then str "( " ++ text ++ str ") " else text.

(** The levels are those of [parseexec], [parsepipe], the commands with [&], and [parseline]. *)
Fixpoint print (lvl : nat) (c : cmd (list Z)) : list Z :=
  match c with
  | ExecCmd argv => concat (map print_word argv)
  | RedirCmd c file mode fd => print 0 c ++ print_redir (file, mode, fd)
  | PipeCmd l r => paren (lvl <? 1)%nat (print 0 l ++ str "| " ++ print 1 r)
  | BackCmd c => paren (lvl <? 2)%nat (print 2 c ++ str "& ")
  | ListCmd l r => paren (lvl <? 3)%nat (print 2 l ++ str "; " ++ print 3 r)
  end.

Definition word_ok (w : list Z) : Prop := w <> [] /\ Forall (fun c => word_char c = true) w.

Definition redir_kind (mode fd : Z) : Prop :=
  (mode = O_RDONLY /\ fd = 0) \/ (mode = MODE_OUT /\ fd = 1) \/ (mode = MODE_APPEND /\ fd = 1).

(** The commands that can be written. *)
Fixpoint cmd_ok (c : cmd (list Z)) : Prop :=
  match c with
  | ExecCmd argv => (length argv < MAXARGS)%nat /\ Forall word_ok argv
  | RedirCmd c file mode fd => cmd_ok c /\ word_ok file /\ redir_kind mode fd
  | PipeCmd l r | ListCmd l r => cmd_ok l /\ cmd_ok r
  | BackCmd c => cmd_ok c
  end.

(** ** Tokens of a printed text *)

(** The text from [ps] on. *)
Definition at_text (buf : list Z) (ps : nat) (text : list Z) : Prop := drop ps buf = text /\ (ps <= length buf)%nat.

(** The text does not start with a space or a NUL. *)
Definition solid (text : list Z) : Prop := match text with [] => True | c :: _ => is_space c = false /\ c <> 0 end.

Lemma at_app buf ps a b n : at_text buf ps (a ++ b) -> n = length a -> at_text buf (ps + n) b.
Proof.
  intros [H1 H2] ->. split; [by rewrite <- drop_drop, H1, drop_app_length|].
  apply (f_equal length) in H1. rewrite length_drop, length_app in H1. lia.
Qed.

Lemma at_cons buf ps c b : at_text buf ps (c :: b) -> at_text buf (S ps) b /\ char_at buf ps = c.
Proof.
  intros H. split.
  - rewrite <- Nat.add_1_r. by apply (at_app buf ps [c] b).
  - destruct H as [H _]. pose proof (char_at_drop buf ps 0) as E. rewrite Nat.add_0_r in E. by rewrite E, H.
Qed.

Lemma at_nil buf ps : at_text buf ps [] -> char_at buf ps = 0.
Proof. intros [H _]. pose proof (char_at_drop buf ps 0) as E. rewrite Nat.add_0_r in E. by rewrite E, H. Qed.

Lemma skip_solid buf ps text : at_text buf ps text -> solid text -> skip is_space buf ps = ps.
Proof. intros [H _] Hs. unfold skip. rewrite H. destruct text as [|c text]; simpl; [lia|]. destruct Hs as [-> _]. lia. Qed.

Lemma skip_space buf ps text : at_text buf ps (32 :: text) -> solid text -> skip is_space buf ps = S ps.
Proof.
  intros [H _] Hs. unfold skip. rewrite H. change (skip_from is_space (32 :: text)) with (S (skip_from is_space text)).
  destruct text as [|c text]; simpl; [lia|]. destruct Hs as [-> _]. lia.
Qed.

Definition head_in (text toks : list Z) : bool := match text with [] => false | c :: _ => in_str c toks end.

Lemma peek_at buf ps text toks : at_text buf ps text -> solid text -> peek buf ps toks = (head_in text toks, ps).
Proof.
  intros H Hs. unfold peek. rewrite (skip_solid _ _ _ H Hs). destruct text as [|c text]; cbn [head_in].
  - by rewrite (at_nil _ _ H).
  - destruct (at_cons _ _ _ _ H) as [_ ->]. destruct Hs as [_ Hc]. by rewrite (proj2 (Z.eqb_neq c 0) Hc).
Qed.

Lemma symbol_cases (P : Z -> Prop) c :
  c ∈ str "|();&<>" -> P 124 -> P 40 -> P 41 -> P 59 -> P 38 -> P 60 -> P 62 -> P c.
Proof.
  change (str "|();&<>") with [124; 40; 41; 59; 38; 60; 62]. intros Hc ???????.
  repeat (apply elem_of_cons in Hc as [->|Hc]; [done|]). by apply elem_of_nil in Hc.
Qed.

Lemma gettoken_sym buf ps c text :
  at_text buf ps (c :: 32 :: text) -> c ∈ str "|();&<>" -> solid text ->
  gettoken buf ps = (c, ps, S ps, S (S ps)) /\ at_text buf (S (S ps)) text.
Proof.
  intros H Hc Hs. destruct (at_cons _ _ _ _ H) as [H1 Ec]. destruct (at_cons _ _ _ _ H1) as [H2 Ec2]. split; [|done].
  assert (solid (c :: 32 :: text)) as Hsol by (by apply (symbol_cases (fun c => solid (c :: 32 :: text)))).
  unfold gettoken. rewrite (skip_solid _ _ _ H Hsol), Ec. rewrite Nat.add_1_r, Ec2.
  pose proof (skip_space _ _ _ H1 Hs) as Hsk.
  match goal with |- (let '(_, _) := ?x in _) = _ => assert (x = (c, S ps)) as -> end; [|by rewrite Hsk].
  clear -Hc. by pattern c; apply symbol_cases.
Qed.

Lemma gettoken_append buf ps text :
  at_text buf ps (62 :: 62 :: 32 :: text) -> solid text ->
  gettoken buf ps = (43, ps, (ps + 2)%nat, (ps + 3)%nat) /\ at_text buf (ps + 3) text.
Proof.
  intros H Hs. destruct (at_cons _ _ _ _ H) as [H1 Ec]. destruct (at_cons _ _ _ _ H1) as [H2 Ec2].
  destruct (at_cons _ _ _ _ H2) as [H3 _]. replace (ps + 3)%nat with (S (S (S ps))) by lia. split; [|done].
  unfold gettoken. rewrite (skip_solid _ _ _ H ltac:(done)), Ec. rewrite Nat.add_1_r, Ec2.
  replace (ps + 2)%nat with (S (S ps)) by lia. change (in_str 62 (str "|();&<")) with false. change (62 =? 0) with false. change (62 =? 62) with true.
  cbv beta iota zeta. by rewrite (skip_space _ _ _ H2 Hs).
Qed.

Lemma word_char_facts c : word_char c = true -> is_space c = false /\ is_symbol c = false /\ c <> 0.
Proof.
  unfold word_char. intros [[H1 H2]%andb_true_iff H3]%andb_true_iff.
  apply negb_true_iff in H1, H2, H3. by apply Z.eqb_neq in H1.
Qed.

Lemma symbol_false c toks : is_symbol c = false -> toks ⊆ symbols -> Forall (fun b => b <> 0) toks -> in_str c toks = false.
Proof.
  intros Hc Hsub Hz. apply not_true_iff_false. rewrite in_str_true by done. intros Hin.
  apply not_true_iff_false in Hc. apply Hc. unfold is_symbol. apply in_str_true; [by repeat constructor|]. by apply Hsub.
Qed.

Lemma gettoken_word buf ps w text :
  at_text buf ps (print_word w ++ text) -> word_ok w -> solid text ->
  let t := (ps, (ps + length w)%nat) in
  gettoken buf ps = (97, ps, snd t, (ps + length (print_word w))%nat) /\ tok_text buf t = w.
Proof.
  intros H [Hne Hw] Hs t. unfold print_word in *. rewrite <- (assoc_L (++)) in H. cbn [app] in H.
  pose proof (at_app _ _ _ _ _ H eq_refl) as H1.
  split.
  2:{ unfold tok_text, t. cbn [fst snd]. rewrite (proj1 H). replace (ps + length w - ps)%nat with (length w) by lia.
      by rewrite take_app_length. }
  destruct Hw as [|c w Hc Hw]; [done|]. destruct (word_char_facts c Hc) as (Hc1 & Hc2 & Hc3).
  assert (solid ((c :: w) ++ 32 :: text)) as Hsol by done.
  destruct (at_cons _ _ _ _ H) as [_ Ec].
  unfold gettoken. rewrite (skip_solid _ _ _ H Hsol), Ec, (proj2 (Z.eqb_neq c 0) Hc3).
  rewrite (symbol_false c) by (done || (by vm_compute; set_solver) || by repeat constructor).
  destruct (Z.eqb_spec c 62) as [->|_]; [done|].
  assert (skip (fun c => negb (is_space c) && negb (is_symbol c)) buf ps = (ps + length (c :: w))%nat) as ->.
  { unfold skip. rewrite (proj1 H). f_equal. clear -Hc Hw. assert (Forall (fun c => word_char c = true) (c :: w)) as Hf by by constructor.
    induction Hf as [|x l Hx _ IH]; [done|]. cbn. destruct (word_char_facts x Hx) as (H1 & H2 & _). rewrite H1, H2. cbn. by rewrite IH. }
  rewrite (skip_space _ _ _ H1 Hs). rewrite length_app. simpl. repeat f_equal; lia.
Qed.

(** ** Redirections and arguments *)

Definition print_redirs (rs : list (list Z * Z * Z)) : list Z := concat (map print_redir rs).
Definition print_words (ws : list (list Z)) : list Z := concat (map print_word ws).

Definition text_redir (buf : list Z) (r : redir) : list Z * Z * Z := (tok_text buf r.1.1, r.1.2, r.2).

Definition redir_wf (r : list Z * Z * Z) : Prop := word_ok r.1.1 /\ redir_kind r.1.2 r.2.

Lemma solid_word w text : word_ok w -> solid (print_word w ++ text).
Proof.
  intros [Hne Hw]. unfold print_word. destruct Hw as [|c w Hc _]; [done|]. simpl.
  by destruct (word_char_facts c Hc) as (? & _ & ?).
Qed.

Lemma solid_redir r text : solid (print_redir r ++ text).
Proof. destruct r as [[file mode] fd]. unfold print_redir. by destruct (mode =? O_RDONLY), (mode =? MODE_OUT). Qed.

Lemma solid_redirs rs text : solid text -> solid (print_redirs rs ++ text).
Proof.
  intros H. destruct rs as [|r rs]; [done|]. unfold print_redirs. simpl. rewrite <- (assoc_L (++)). apply solid_redir.
Qed.

Lemma in_lit (s : string) (i : nat) (c : Z) : str s !! i = Some c -> c ∈ str s.
Proof. apply list_elem_of_lookup_2. Qed.

(** One redirection. *)
Lemma redir_token buf ps file mode fd text :
  at_text buf ps (print_redir (file, mode, fd) ++ text) -> redir_wf (file, mode, fd) -> solid text ->
  exists tok q eq ps1 t, peek buf ps (str "<>") = (true, ps) /\ gettoken buf ps = (tok, q, eq, ps1) /\
    gettoken buf ps1 = (97, fst t, snd t, (ps + length (print_redir (file, mode, fd)))%nat) /\ tok_text buf t = file /\
    (if tok =? 60 then [(t, O_RDONLY, 0)] else if tok =? 62 then [(t, MODE_OUT, 1)]
     else if tok =? 43 then [(t, MODE_APPEND, 1)] else []) = [(t, mode, fd)].
Proof.
  intros H [Hf Hk] Hs. cbn [fst snd] in *.
  assert (forall c rest, c ∈ str "<>" -> at_text buf ps (c :: rest) -> peek buf ps (str "<>") = (true, ps)) as Hpeek.
  { intros c rest Hc Ha. change (str "<>") with [60; 62] in Hc. rewrite (peek_at _ _ _ _ Ha).
    - f_equal. cbn [head_in]. apply in_str_true; [by repeat constructor|done].
    - repeat (apply elem_of_cons in Hc as [->|Hc]; [done|]). by apply elem_of_nil in Hc. }
  pose proof (solid_word file text Hf) as Hsf. unfold print_redir in *.
  destruct Hk as [[-> ->]|[[-> ->]|[-> ->]]].
  - change ((if O_RDONLY =? O_RDONLY then str "< " else _) ++ print_word file) with (60 :: 32 :: print_word file) in *.
    destruct (gettoken_sym buf ps 60 (print_word file ++ text) H (in_lit "|();&<>" 5 60 eq_refl) Hsf) as [E1 H1].
    destruct (gettoken_word _ _ _ _ H1 Hf Hs) as [E2 E3].
    eexists 60, ps, (S ps), (S (S ps)), _.
    split_and!; [exact (Hpeek 60 _ (in_lit "<>" 0 60 eq_refl) H)|done| |exact E3|done].
    rewrite E2. f_equal. simpl. lia.
  - change ((if MODE_OUT =? O_RDONLY then str "< " else _) ++ print_word file) with (62 :: 32 :: print_word file) in *.
    destruct (gettoken_sym buf ps 62 (print_word file ++ text) H (in_lit "|();&<>" 6 62 eq_refl) Hsf) as [E1 H1].
    destruct (gettoken_word _ _ _ _ H1 Hf Hs) as [E2 E3].
    eexists 62, ps, (S ps), (S (S ps)), _.
    split_and!; [exact (Hpeek 62 _ (in_lit "<>" 1 62 eq_refl) H)|done| |exact E3|done].
    rewrite E2. f_equal. simpl. lia.
  - change ((if MODE_APPEND =? O_RDONLY then str "< " else _) ++ print_word file) with (62 :: 62 :: 32 :: print_word file) in *.
    destruct (gettoken_append buf ps (print_word file ++ text) H Hsf) as [E1 H1].
    destruct (gettoken_word _ _ _ _ H1 Hf Hs) as [E2 E3].
    eexists 43, ps, (ps + 2)%nat, (ps + 3)%nat, _.
    split_and!; [exact (Hpeek 62 _ (in_lit "<>" 1 62 eq_refl) H)|done| |exact E3|done].
    rewrite E2. f_equal. simpl. lia.
Qed.

(** The text does not go on with a redirection. *)
Lemma parseredirs_print buf rs : forall fuel ps text,
  at_text buf ps (print_redirs rs ++ text) -> Forall redir_wf rs -> solid text -> head_in text (str "<>") = false ->
  (length buf - ps < fuel)%nat ->
  exists rs', parseredirs fuel buf ps = POk rs' (ps + length (print_redirs rs)) /\ map (text_redir buf) rs' = rs.
Proof.
  induction rs as [|[[file mode] fd] rs IH]; intros fuel ps text H Hrs Hs Hh Hf; (destruct fuel as [|fuel]; [lia|]); cbn [parseredirs].
  - exists []. change (print_redirs [] ++ text) with text in H. rewrite (peek_at _ _ _ _ H Hs), Hh. split; [|done]. f_equal. simpl. lia.
  - apply Forall_cons in Hrs as [Hr Hrs]. unfold print_redirs in *. cbn [map concat] in *. rewrite <- (assoc_L (++)) in H.
    destruct (redir_token _ _ _ _ _ _ H Hr (solid_redirs rs text Hs)) as (tok & q & eq & ps1 & t & E1 & E2 & E3 & E4 & E5).
    pose proof (at_app _ _ _ _ _ H eq_refl) as H1.
    rewrite E1, E2, E3. cbn [negb Z.eqb Pos.eqb]. destruct t as [tq te]. cbn [fst snd] in *. rewrite E5.
    destruct (IH fuel _ _ H1 Hrs Hs Hh) as (rs' & -> & Hrs').
    { assert (0 < length (print_redir (file, mode, fd)))%nat by (unfold print_redir; repeat case_match; simpl; lia).
      destruct H1 as [_ H1]. lia. }
    exists ((tq, te, mode, fd) :: rs'). cbn [pbind]. split; [|by rewrite <- Hrs', <- E4].
    cbn [app]. f_equal. rewrite length_app. lia.
Qed.

(** The text ends or goes on with one of [toks]. *)
Definition follows (toks text : list Z) : Prop := match text with [] => True | c :: _ => c ∈ toks end.

Lemma follows_mono toks toks' text : follows toks text -> toks ⊆ toks' -> follows toks' text.
Proof. destruct text as [|c text]; [done|]. intros H Hs. by apply Hs. Qed.

Lemma follows_stop text : follows (str "|&;)") text ->
  solid text /\ head_in text (str "<>") = false /\ head_in text (str "(") = false /\
  (text = [] \/ head_in text (str "|)&;") = true).
Proof.
  destruct text as [|c text]; [intros _; split_and!; try done; by left|]. cbn [follows solid head_in].
  change (str "|&;)") with [124; 38; 59; 41]. intros Hc.
  repeat (apply elem_of_cons in Hc as [->|Hc]; [split_and!; try done; by right|]). by apply elem_of_nil in Hc.
Qed.

Lemma gettoken_end buf ps : at_text buf ps [] -> gettoken buf ps = (0, ps, ps, ps).
Proof. intros H. unfold gettoken. rewrite (skip_solid _ _ _ H ltac:(done)), (at_nil _ _ H). cbn [Z.eqb]. by rewrite (skip_solid _ _ _ H). Qed.

Lemma parseargs_stop buf ps text fuel a rs :
  at_text buf ps text -> follows (str "|&;)") text -> (0 < fuel)%nat ->
  parseargs fuel buf a rs ps = POk (wrap (ExecCmd a) rs) ps.
Proof.
  intros H Hf Hn. destruct fuel as [|fuel]; [lia|]. cbn [parseargs]. destruct (follows_stop text Hf) as (Hs & _ & _ & Hstop).
  rewrite (peek_at _ _ _ _ H Hs). destruct Hstop as [->| ->]; [|done]. cbn [head_in]. by rewrite (gettoken_end _ _ H).
Qed.

Lemma word_head w text toks : word_ok w -> toks ⊆ symbols -> Forall (fun b => b <> 0) toks -> head_in (print_word w ++ text) toks = false.
Proof.
  intros [Hne Hw] Hsub Hz. destruct Hw as [|c w Hc _]; [done|]. cbn.
  destruct (word_char_facts c Hc) as (_ & Hs & _). by apply symbol_false.
Qed.

Lemma parseargs_print buf rs text ws : forall w fuel a rs0 ps,
  at_text buf ps (print_words (w :: ws) ++ print_redirs rs ++ text) ->
  Forall word_ok (w :: ws) -> Forall redir_wf rs -> follows (str "|&;)") text ->
  (length a + length (w :: ws) < MAXARGS)%nat -> (length buf - ps < fuel)%nat ->
  exists a' rs', parseargs fuel buf a rs0 ps =
      POk (wrap (ExecCmd (a ++ a')) (rs0 ++ rs')) (ps + length (print_words (w :: ws)) + length (print_redirs rs)) /\
    map (tok_text buf) a' = w :: ws /\ map (text_redir buf) rs' = rs.
Proof.
  induction ws as [|w2 ws IH]; intros w fuel a rs0 ps H Hw Hrs Hf Hlen Hfuel; (destruct fuel as [|fuel]; [lia|]);
    cbn [parseargs]; apply Forall_cons in Hw as [Hw Hws]; destruct (follows_stop text Hf) as (Hs & Hh & _ & _);
    unfold print_words in *; cbn [map concat] in *; rewrite <- (assoc_L (++)) in H;
    pose proof (solid_word w) as Hsw; pose proof (at_app _ _ _ _ _ H eq_refl) as H1.
  - assert (solid (print_redirs rs ++ text)) as Hs1 by (by apply solid_redirs).
    rewrite (peek_at _ _ _ _ H) by (by apply Hsw). rewrite word_head by (done || (by vm_compute; set_solver) || by repeat constructor).
    cbn [app] in *. destruct (gettoken_word _ _ _ _ H Hw Hs1) as [E1 E2]. rewrite E1. cbn [Z.eqb Pos.eqb negb].
    rewrite (proj2 (Nat.leb_gt MAXARGS _)) by (rewrite length_app; cbn [length] in *; lia).
    destruct (parseredirs_print buf rs fuel _ text H1 Hrs Hs Hh) as (rs' & -> & Hrs').
    { destruct H1 as [_ H1]. unfold print_word in *. rewrite length_app in *. simpl in *. lia. }
    cbn [pbind]. pose proof (at_app _ _ _ _ _ H1 eq_refl) as H2.
    rewrite (parseargs_stop buf _ text) by (done || (destruct H1 as [_ H1]; unfold print_word in *; rewrite length_app in *; simpl in *; lia)).
    eexists [_], rs'. split_and!; [f_equal; cbn [map concat]; rewrite ?app_nil_r; lia|by simpl; rewrite E2|done].
  - rewrite <- (assoc_L (++)) in H1. pose proof (Forall_inv Hws) as Hw2.
    assert (forall text, solid (print_word w2 ++ text)) as Hs2 by (intros; by apply solid_word).
    rewrite (peek_at _ _ _ _ H) by (by apply Hsw). rewrite word_head by (done || (by vm_compute; set_solver) || by repeat constructor).
    rewrite <- !(assoc_L (++)) in H. destruct (gettoken_word _ _ _ _ H Hw (Hs2 _)) as [E1 E2]. rewrite E1. cbn [Z.eqb Pos.eqb negb].
    rewrite (proj2 (Nat.leb_gt MAXARGS _)) by (rewrite length_app; cbn [length] in *; lia).
    assert (length buf - (ps + length (print_word w)) < fuel)%nat as Hfuel'.
    { destruct H1 as [_ H1]. unfold print_word in *. rewrite length_app in *. simpl in *. lia. }
    destruct (parseredirs_print buf [] fuel _ _ H1) as (rs' & Er & Hrs');
      [done|by apply Hs2|apply word_head; [done|by vm_compute; set_solver|by repeat constructor]|done|].
    cbn [print_redirs map concat length] in Er. rewrite Nat.add_0_r in Er. rewrite Er. cbn [pbind].
    destruct rs' as [|]; [|done].
    destruct (IH w2 fuel (a ++ [(ps, (ps + length w)%nat)]) (rs0 ++ []) (ps + length (print_word w))%nat)
      as (a' & rs2 & E3 & Ha' & Hrs2); [cbn [map concat]; by rewrite <- (assoc_L (++))|done|done|done
        |rewrite length_app; cbn [length] in *; lia|done|].
    exists ((ps, (ps + length w)%nat) :: a'), rs2.
    split_and!; [|by simpl; rewrite Ha', E2|done]. etransitivity; [exact E3|].
    rewrite app_nil_r, <- (assoc_L (++)). f_equal. cbn [map concat]. rewrite !length_app. lia.
Qed.

(** ** Commands *)

Definition parse_at (lvl fuel : nat) (buf : list Z) (ps : nat) : presult (cmd token) :=
  match lvl with
  | 0%nat => parseexec fuel buf ps
  | 1%nat => parsepipe fuel buf ps
  | 2%nat => pbind (parsepipe fuel buf ps) (parseback fuel buf)
  | _ => parseline fuel buf ps
  end.

Definition follow_set (lvl : nat) : list Z :=
  match lvl with 0%nat => str "|&;)" | 1%nat => str "&;)" | 2%nat => str ";)" | _ => str ")" end.

Definition cost (lvl : nat) : nat := match lvl with 0%nat => 2 | 1%nat => 3 | 2%nat => 3 | _ => 4 end.

(** The parser of the level reads the printed command back. *)
Definition reads (lvl : nat) (c : cmd (list Z)) : Prop :=
  forall fuel buf ps text, at_text buf ps (print lvl c ++ text) -> follows (follow_set lvl) text ->
    (4 * (length buf - ps) + cost lvl <= fuel)%nat ->
    exists c', parse_at lvl fuel buf ps = POk c' (ps + length (print lvl c)) /\ cmd_map (tok_text buf) c' = c.

(** A command without its redirections, and these. *)
Fixpoint base (c : cmd (list Z)) : cmd (list Z) := match c with RedirCmd c _ _ _ => base c | _ => c end.
Fixpoint redirs (c : cmd (list Z)) : list (list Z * Z * Z) :=
  match c with RedirCmd c file mode fd => redirs c ++ [(file, mode, fd)] | _ => [] end.
(** A command without its [&], and their number. *)
Fixpoint strip (c : cmd (list Z)) : cmd (list Z) := match c with BackCmd c => strip c | _ => c end.
Fixpoint backs (c : cmd (list Z)) : nat := match c with BackCmd c => S (backs c) | _ => 0 end.

Lemma wrap_base c : c = wrap (base c) (redirs c).
Proof.
  induction c as [|c IH file mode fd| | |]; try done. simpl. unfold wrap in *. rewrite foldl_snoc. by rewrite <- IH.
Qed.

Lemma print_base c : print 0 c = print 0 (base c) ++ print_redirs (redirs c).
Proof.
  induction c as [|c IH file mode fd| | |]; cbn [base redirs]; try (by rewrite app_nil_r).
  unfold print_redirs. rewrite map_app, concat_app. cbn [map concat print]. by rewrite IH, (assoc_L (++)), app_nil_r.
Qed.

Lemma redirs_wf c : cmd_ok c -> Forall redir_wf (redirs c) /\ cmd_ok (base c).
Proof.
  induction c as [|c IH file mode fd| | |]; try done. simpl. intros (Hc & Hf & Hk). destruct (IH Hc) as [H1 H2].
  split; [|done]. apply Forall_app. split; [done|]. by constructor.
Qed.

Lemma cmd_map_wrap buf rs : forall c,
  cmd_map (tok_text buf) (wrap c rs) = wrap (cmd_map (tok_text buf) c) (map (text_redir buf) rs).
Proof. unfold wrap. induction rs as [|[[t mode] fd] rs IH]; intros c; simpl; [done|]. by rewrite IH. Qed.

Lemma solid_print lvl c text : cmd_ok c -> solid text -> solid (print lvl c ++ text).
Proof.
  revert lvl text. induction c as [argv|c IH file mode fd|l IHl r IHr|l IHl r IHr|c IH]; intros lvl text Hc Hs; cbn [print].
  - destruct argv as [|w argv]; [done|]. simpl. rewrite <- (assoc_L (++)). apply solid_word. by apply (Forall_inv (proj2 Hc)).
  - rewrite <- (assoc_L (++)). apply IH; [apply Hc|apply solid_redir].
  - destruct Hc as [Hl Hr]. unfold paren. destruct (_ <? _)%nat; [done|]. rewrite <- (assoc_L (++)). by apply IHl.
  - destruct Hc as [Hl Hr]. unfold paren. destruct (_ <? _)%nat; [done|]. rewrite <- (assoc_L (++)). by apply IHl.
  - unfold paren. destruct (_ <? _)%nat; [done|]. rewrite <- (assoc_L (++)). by apply IH.
Qed.

Lemma pbind_assoc {A B C} (r : presult A) (f : A -> nat -> presult B) (g : B -> nat -> presult C) :
  pbind r (fun a ps => pbind (f a ps) g) = pbind (pbind r f) g.
Proof. by destruct r. Qed.

(** No operator of the level follows. *)
Lemma follows_none lvl text toks :
  follows (follow_set lvl) text ->
  (forall c, c ∈ follow_set lvl -> in_str c toks = false) -> solid text /\ head_in text toks = false.
Proof.
  intros Hf Hn. split.
  - apply (follows_stop text). apply (follows_mono (follow_set lvl)); [done|].
    destruct lvl as [|[|[|lvl]]]; vm_compute; set_solver.
  - destruct text as [|c text]; [done|]. by apply Hn.
Qed.

Lemma reads_exec c argv : base c = ExecCmd argv -> cmd_ok c -> reads 0 c.
Proof.
  intros Eb Hok fuel buf ps text H Hf Hfuel. destruct (redirs_wf c Hok) as [Hrs Hb]. rewrite Eb in Hb. destruct Hb as [Hlen Hws].
  rewrite print_base, Eb, <- (assoc_L (++)) in H. change (print 0 (ExecCmd argv)) with (print_words argv) in H.
  destruct (follows_stop text Hf) as (Hs & Hh & Hp & _). cbn [cost] in Hfuel. destruct fuel as [|fuel]; [lia|].
  cbn [parse_at parseexec].
  assert (length (print 0 c) = length (print_words argv) + length (print_redirs (redirs c)))%nat as El
    by (rewrite print_base, Eb, length_app; done).
  assert (solid (print_words argv ++ print_redirs (redirs c) ++ text)) as Hs0.
  { destruct argv as [|w ws]; [by apply solid_redirs|]. unfold print_words. simpl. rewrite <- (assoc_L (++)).
    apply solid_word, (Forall_inv Hws). }
  assert (head_in (print_words argv ++ print_redirs (redirs c) ++ text) (str "(") = false) as Hh0.
  { destruct argv as [|w ws].
    - destruct (redirs c) as [|[[file mode] fd] rs]; [done|]. unfold print_redirs, print_redir. cbn [map concat print_words app].
      by destruct (mode =? O_RDONLY), (mode =? MODE_OUT).
    - unfold print_words. cbn [map concat]. rewrite <- (assoc_L (++)).
      apply word_head; [apply (Forall_inv Hws)|by vm_compute; set_solver|by repeat constructor]. }
  rewrite (peek_at _ _ _ _ H Hs0), Hh0.
  assert (c = wrap (ExecCmd argv) (redirs c)) as Ec by (rewrite <- Eb; apply wrap_base). destruct argv as [|w ws].
  - destruct (parseredirs_print buf (redirs c) fuel ps text H Hrs Hs Hh ltac:(lia)) as (rs' & -> & Hrs'). cbn [pbind].
    rewrite (parseargs_stop buf _ text); [|by apply (at_app buf ps (print_redirs (redirs c)) text)|done|lia].
    exists (wrap (ExecCmd []) rs'). split; [by rewrite El|]. etransitivity; [|symmetry; exact Ec]. by rewrite cmd_map_wrap, Hrs'.
  - destruct (parseredirs_print buf [] fuel ps _ H ltac:(done) Hs0) as (rs' & E & Hrs').
    { unfold print_words. cbn [map concat]. rewrite <- (assoc_L (++)).
      apply word_head; [apply (Forall_inv Hws)|by vm_compute; set_solver|by repeat constructor]. }
    { lia. }
    destruct rs' as [|]; [|done]. rewrite E. cbn [pbind print_redirs map concat length]. rewrite Nat.add_0_r.
    destruct (parseargs_print buf (redirs c) text ws w fuel [] [] ps H Hws Hrs Hf) as (a' & rs2 & -> & Ha & Hr2); [done|lia|].
    exists (wrap (ExecCmd a') rs2). split; [f_equal; lia|]. etransitivity; [|symmetry; exact Ec]. rewrite cmd_map_wrap, Hr2. simpl. by rewrite Ha.
Qed.

(** A command in parentheses, with redirections. *)
Lemma reads_block c : cmd_ok c -> print 0 (base c) = str "( " ++ print 3 (base c) ++ str ") " -> reads 3 (base c) -> reads 0 c.
Proof.
  intros Hok Ep Hr fuel buf ps text H Hf Hfuel. destruct (redirs_wf c Hok) as [Hrs Hb].
  destruct (follows_stop text Hf) as (Hs & Hh & _ & _). cbn [cost] in Hfuel.
  set (rest := print_redirs (redirs c) ++ text). assert (solid rest) as Hsr by (by apply solid_redirs).
  assert (print 0 c ++ text = 40 :: 32 :: print 3 (base c) ++ 41 :: 32 :: rest) as Et.
  { rewrite print_base, Ep. change (str "( ") with [40; 32]. change (str ") ") with [41; 32]. unfold rest.
    cbn [app]. by rewrite <- !(assoc_L (++)). }
  assert (length (print 0 c) = 2 + length (print 3 (base c)) + 2 + length (print_redirs (redirs c)))%nat as El
    by (rewrite print_base, Ep, !length_app; simpl; lia).
  rewrite Et in H. set (b := base c) in *. destruct fuel as [|[|fuel]]; [lia|lia|]. cbn [parse_at parseexec parseblock].
  assert (peek buf ps (str "(") = (true, ps)) as Ek by (by rewrite (peek_at _ _ _ _ H)).
  rewrite Ek, Ek. cbn [negb]. set (rest1 := 41 :: 32 :: rest) in *.
  destruct (gettoken_sym buf ps 40 (print 3 b ++ rest1) H (in_lit "|();&<>" 1 40 eq_refl)) as [-> H1];
    [by apply solid_print|].
  destruct (Hr fuel buf (S (S ps)) rest1 H1) as (c' & E1 & Ec'); [by apply (in_lit ")" 0)| |].
  { destruct H1 as [_ H1]. cbn [cost]. lia. }
  cbn [parse_at] in E1. rewrite E1. cbn [pbind].
  pose proof (at_app _ _ _ _ _ H1 eq_refl) as H2. rewrite (peek_at _ _ _ _ H2) by done. cbn [head_in rest1].
  change (in_str 41 (str ")")) with true. cbn [negb].
  destruct (gettoken_sym buf _ 41 rest H2 (in_lit "|();&<>" 2 41 eq_refl) Hsr) as [-> H3].
  destruct (parseredirs_print buf (redirs c) fuel _ text H3 Hrs Hs Hh) as (rs' & -> & Hrs').
  { destruct H3 as [_ H3]. lia. }
  exists (wrap c' rs'). cbn [pbind]. split; [f_equal; lia|]. rewrite cmd_map_wrap, Hrs', Ec'. symmetry. apply wrap_base.
Qed.

Lemma follow_set_mono lvl lvl' text : (lvl' <= lvl)%nat -> follows (follow_set lvl) text -> follows (follow_set lvl') text.
Proof.
  intros Hle Hf. eapply follows_mono; [exact Hf|].
  destruct lvl as [|[|[|lvl]]], lvl' as [|[|[|lvl']]]; try lia; vm_compute; set_solver.
Qed.

Lemma follows_solid lvl text : follows (follow_set lvl) text -> solid text.
Proof. intros Hf. apply (follows_stop text). apply (follow_set_mono lvl 0); [lia|done]. Qed.

Lemma follow_peek lvl toks buf ps text :
  follows (follow_set lvl) text -> forallb (fun c => negb (in_str c toks)) (follow_set lvl) = true ->
  at_text buf ps text -> peek buf ps toks = (false, ps).
Proof.
  intros Hf Hn H. destruct (follows_none lvl text toks Hf) as [Hs Hh]; [|by rewrite (peek_at _ _ _ _ H Hs), Hh].
  intros c Hc. rewrite forallb_forall in Hn. apply negb_true_iff, Hn. by apply list_elem_of_In.
Qed.

Lemma reads_up1 c : print 1 c = print 0 c -> reads 0 c -> reads 1 c.
Proof.
  intros Ep Hr fuel buf ps text H Hf Hfuel. rewrite Ep in *. cbn [cost] in Hfuel. destruct fuel as [|fuel]; [lia|].
  cbn [parse_at parsepipe].
  destruct (Hr fuel buf ps text H) as (c' & E & Ec); [by apply (follow_set_mono 1); [lia|]|cbn [cost]; lia|].
  cbn [parse_at] in E. rewrite E. cbn [pbind]. exists c'. split; [|done].
  by rewrite (follow_peek 1 (str "|") buf _ text Hf ltac:(done) (at_app _ _ _ _ _ H eq_refl)).
Qed.

(** An operator and the rest. *)
Lemma operator_token buf ps c toks text :
  at_text buf ps (c :: 32 :: text) -> c ∈ str "|();&<>" -> in_str c toks = true -> solid text ->
  peek buf ps toks = (true, ps) /\ gettoken buf ps = (c, ps, S ps, S (S ps)) /\ at_text buf (S (S ps)) text.
Proof.
  intros H Hc Ht Hs. destruct (gettoken_sym _ _ _ _ H Hc Hs) as [E1 E2]. refine (conj _ (conj E1 E2)).
  rewrite (peek_at _ _ _ _ H); [by cbn [head_in]; rewrite Ht|]. by pattern c; apply symbol_cases.
Qed.

Lemma reads_pipe l r : cmd_ok r -> reads 0 l -> reads 1 r -> reads 1 (PipeCmd l r).
Proof.
  intros Hok Hl Hr fuel buf ps text H Hf Hfuel. cbn [cost] in Hfuel. destruct fuel as [|fuel]; [lia|].
  change (print 1 (PipeCmd l r)) with (print 0 l ++ [124; 32] ++ print 1 r) in *. rewrite <- !(assoc_L (++)) in H.
  cbn [parse_at parsepipe].
  destruct (Hl fuel buf ps _ H) as (l' & E1 & El); [by apply (in_lit "|&;)" 0)|cbn [cost]; lia|]. cbn [parse_at] in E1.
  rewrite E1. cbn [pbind]. pose proof (at_app _ _ _ _ _ H eq_refl) as H1. cbn [app] in H1.
  destruct (operator_token _ _ _ (str "|") _ H1 (in_lit "|();&<>" 0 124 eq_refl) eq_refl) as (-> & -> & H2).
  { apply solid_print; [done|]. by apply (follows_solid 1). }
  destruct (Hr fuel buf _ text H2 Hf) as (r' & E2 & Er); [destruct H2 as [_ H2]; cbn [cost]; lia|]. cbn [parse_at] in E2.
  rewrite E2. cbn [pbind]. exists (PipeCmd l' r'). split; [|simpl; by rewrite El, Er]. f_equal. rewrite !length_app. simpl. lia.
Qed.

Lemma parseback_print buf text n : forall fuel c ps,
  at_text buf ps (concat (replicate n [38; 32]) ++ text) -> follows (follow_set 2) text -> (length buf - ps < fuel)%nat ->
  parseback fuel buf c ps = POk (Nat.iter n BackCmd c) (ps + 2 * n).
Proof.
  induction n as [|n IH]; intros fuel c ps H Hf Hfuel; (destruct fuel as [|fuel]; [lia|]); cbn [parseback].
  - rewrite (follow_peek 2 (str "&") buf ps text Hf ltac:(done) H). f_equal. lia.
  - cbn [replicate concat app] in H.
    destruct (operator_token _ _ _ (str "&") _ H (in_lit "|();&<>" 4 38 eq_refl) eq_refl) as (-> & -> & H1).
    { destruct n; [by apply (follows_solid 2)|done]. }
    rewrite (IH fuel); [|done|done|destruct H1 as [_ H1]; lia]. f_equal; [|lia]. by rewrite Nat.iter_succ_r.
Qed.

Lemma strip_backs c : c = Nat.iter (backs c) BackCmd (strip c).
Proof. induction c as [| | | |c IH]; try done. simpl. by rewrite <- IH. Qed.

Lemma print_strip c : print 2 c = print 1 (strip c) ++ concat (replicate (backs c) [38; 32]).
Proof.
  induction c as [| | | |c IH]; cbn [strip backs replicate concat]; try (by rewrite app_nil_r).
  change (print 2 (BackCmd c)) with (print 2 c ++ [38; 32]). rewrite IH, <- (assoc_L (++)). f_equal.
  clear. induction (backs c) as [|n IH]; [done|]. cbn [replicate concat]. by rewrite <- (assoc_L (++)), IH.
Qed.

Lemma cmd_map_backs buf n c : cmd_map (tok_text buf) (Nat.iter n BackCmd c) = Nat.iter n BackCmd (cmd_map (tok_text buf) c).
Proof. induction n as [|n IH]; [done|]. simpl. by rewrite IH. Qed.

Lemma reads_back c : reads 1 (strip c) -> reads 2 c.
Proof.
  intros Hr fuel buf ps text H Hf Hfuel. rewrite print_strip in *. rewrite <- (assoc_L (++)) in H. cbn [cost] in Hfuel.
  cbn [parse_at]. destruct (Hr fuel buf ps _ H) as (c' & E & Ec); [|cbn [cost]; lia|].
  { destruct (backs c); [by apply (follow_set_mono 2); [lia|]|by apply (in_lit "&;)" 0)]. }
  cbn [parse_at] in E. rewrite E. cbn [pbind]. pose proof (at_app _ _ _ _ _ H eq_refl) as H1.
  rewrite (parseback_print buf text (backs c)); [|done|done|lia]. eexists. split; [|by rewrite cmd_map_backs, Ec, <- strip_backs].
  f_equal. rewrite length_app. assert (forall n, length (concat (replicate n [38; 32])) = (2 * n)%nat) as ->; [|lia].
  induction n as [|n IH]; [done|]. cbn [replicate concat]. rewrite length_app, IH. simpl. lia.
Qed.

Lemma reads_up3 c : print 3 c = print 2 c -> reads 2 c -> reads 3 c.
Proof.
  intros Ep Hr fuel buf ps text H Hf Hfuel. rewrite Ep in *. cbn [cost] in Hfuel. destruct fuel as [|fuel]; [lia|].
  cbn [parse_at parseline]. rewrite pbind_assoc.
  destruct (Hr fuel buf ps text H) as (c' & E & Ec); [by apply (follow_set_mono 3); [lia|]|cbn [cost]; lia|].
  cbn [parse_at] in E. rewrite E. cbn [pbind]. exists c'. split; [|done].
  by rewrite (follow_peek 3 (str ";") buf _ text Hf ltac:(done) (at_app _ _ _ _ _ H eq_refl)).
Qed.

Lemma reads_list l r : cmd_ok r -> reads 2 l -> reads 3 r -> reads 3 (ListCmd l r).
Proof.
  intros Hok Hl Hr fuel buf ps text H Hf Hfuel. cbn [cost] in Hfuel. destruct fuel as [|fuel]; [lia|].
  change (print 3 (ListCmd l r)) with (print 2 l ++ [59; 32] ++ print 3 r) in *. rewrite <- !(assoc_L (++)) in H.
  cbn [parse_at parseline]. rewrite pbind_assoc.
  destruct (Hl fuel buf ps _ H) as (l' & E1 & El); [by apply (in_lit ";)" 0)|cbn [cost]; lia|]. cbn [parse_at] in E1.
  rewrite E1. cbn [pbind]. pose proof (at_app _ _ _ _ _ H eq_refl) as H1. cbn [app] in H1.
  destruct (operator_token _ _ _ (str ";") _ H1 (in_lit "|();&<>" 3 59 eq_refl) eq_refl) as (-> & -> & H2).
  { apply solid_print; [done|]. by apply (follows_solid 3). }
  destruct (Hr fuel buf _ text H2 Hf) as (r' & E2 & Er); [destruct H2 as [_ H2]; cbn [cost]; lia|]. cbn [parse_at] in E2.
  rewrite E2. cbn [pbind]. exists (ListCmd l' r'). split; [|simpl; by rewrite El, Er]. f_equal. rewrite !length_app. simpl. lia.
Qed.

(** Every command is read back at every level. *)
Lemma reads_all c : cmd_ok c ->
  reads 0 c /\ reads 1 c /\ reads 2 c /\ reads 3 c /\ reads 1 (strip c) /\
  (reads 3 (base c) /\ print 0 (base c) = str "( " ++ print 3 (base c) ++ str ") " \/ exists argv, base c = ExecCmd argv).
Proof.
  induction c as [argv|c IH file mode fd|l IHl r IHr|l IHl r IHr|c IH]; intros Hok.
  - assert (reads 0 (ExecCmd argv)) as H0 by (by apply (reads_exec _ argv)).
    assert (reads 1 (ExecCmd argv)) as H1 by (by apply reads_up1).
    assert (reads 2 (ExecCmd argv)) as H2 by (by apply reads_back). refine (conj H0 (conj H1 (conj H2 (conj _ (conj H1 _))))).
    + by apply reads_up3.
    + right. by exists argv.
  - destruct (IH (proj1 Hok)) as (_ & _ & _ & _ & _ & Hb).
    assert (reads 0 (RedirCmd c file mode fd)) as H0.
    { destruct Hb as [[Hb Ep]|(argv & Hb)]; [by apply reads_block|by apply (reads_exec _ argv)]. }
    assert (reads 1 (RedirCmd c file mode fd)) as H1 by (by apply reads_up1).
    assert (reads 2 (RedirCmd c file mode fd)) as H2 by (by apply reads_back).
    refine (conj H0 (conj H1 (conj H2 (conj _ (conj H1 Hb))))). by apply reads_up3.
  - destruct Hok as [Hl Hr]. destruct (IHl Hl) as (Hl0 & _), (IHr Hr) as (_ & Hr1 & _).
    assert (reads 1 (PipeCmd l r)) as H1 by (by apply reads_pipe).
    assert (reads 2 (PipeCmd l r)) as H2 by (by apply reads_back).
    assert (reads 3 (PipeCmd l r)) as H3 by (by apply reads_up3).
    assert (reads 0 (PipeCmd l r)) as H0 by (by apply reads_block).
    refine (conj H0 (conj H1 (conj H2 (conj H3 (conj H1 _))))). by left.
  - destruct Hok as [Hl Hr]. destruct (IHl Hl) as (_ & _ & Hl2 & _), (IHr Hr) as (_ & _ & _ & Hr3 & _).
    assert (reads 3 (ListCmd l r)) as H3 by (by apply reads_list).
    assert (reads 0 (ListCmd l r)) as H0 by (by apply reads_block).
    assert (reads 1 (ListCmd l r)) as H1 by (by apply reads_up1).
    assert (reads 2 (ListCmd l r)) as H2 by (by apply reads_back).
    refine (conj H0 (conj H1 (conj H2 (conj H3 (conj H1 _))))). by left.
  - destruct (IH Hok) as (_ & _ & _ & _ & Hs & _).
    assert (reads 2 (BackCmd c)) as H2 by (by apply reads_back).
    assert (reads 3 (BackCmd c)) as H3 by (by apply reads_up3).
    assert (reads 0 (BackCmd c)) as H0 by (by apply reads_block).
    assert (reads 1 (BackCmd c)) as H1 by (by apply reads_up1).
    refine (conj H0 (conj H1 (conj H2 (conj H3 (conj Hs _))))). by left.
Qed.

(** The printed text has no NUL. *)
Lemma print_no_nul lvl c : cmd_ok c -> 0 ∉ print lvl c.
Proof.
  assert (forall w, word_ok w -> 0 ∉ print_word w) as Hw.
  { intros w [_ Hw] Hin. apply elem_of_app in Hin as [Hin|Hin]; [|set_solver]. rewrite Forall_forall in Hw. by specialize (Hw _ Hin). }
  assert (forall b text, 0 ∉ text -> 0 ∉ paren b text) as Hp.
  { intros [|] text Ht; [|done]. unfold paren. change (str "( ") with [40; 32]. change (str ") ") with [41; 32]. set_solver. }
  revert lvl. induction c as [argv|c IH file mode fd|l IHl r IHr|l IHl r IHr|c IH]; intros lvl Hok; cbn [print].
  - destruct Hok as [_ Hok]. induction Hok as [|w argv H1 _ IH]; simpl; [set_solver|]. apply not_elem_of_app. by split; [apply Hw|].
  - destruct Hok as (Hc & Hf & _). apply not_elem_of_app. split; [by apply IH|]. unfold print_redir.
    apply not_elem_of_app. split; [|by apply Hw]. repeat case_match; apply (bool_decide_unpack _); by vm_compute.
  - destruct Hok as [Hl Hr]. apply Hp. rewrite !not_elem_of_app. split; [by apply IHl|]. split; [|by apply IHr].
    apply (bool_decide_unpack _); by vm_compute.
  - destruct Hok as [Hl Hr]. apply Hp. rewrite !not_elem_of_app. split; [by apply IHl|]. split; [|by apply IHr].
    apply (bool_decide_unpack _); by vm_compute.
  - apply Hp. rewrite !not_elem_of_app. split; [by apply IH|]. apply (bool_decide_unpack _); by vm_compute.
Qed.

(** [C17] Parsing a printed command gives the command back: for every command that can be written (at
    most 9 arguments in an [exec] node, words without spaces, symbols and NULs), [parsecmd] of
    its text succeeds, and the command with the strings it points to in the terminated line is the
    one that was printed. *)
Theorem parse_print c :
  cmd_ok c -> exists c' buf ps, parsecmd (print 3 c) = POk (c', buf) ps /\ cmd_map (arg_string buf) c' = c.
Proof.
  intros Hok. set (s := print 3 c). assert (0 ∉ s) as H0 by (by apply print_no_nul).
  destruct (reads_all c Hok) as (_ & _ & _ & H3 & _).
  assert (at_text s 0 (print 3 c ++ [])) as Hat by (split; [by rewrite app_nil_r|lia]).
  destruct (H3 (4 * length s + 4)%nat s 0%nat [] Hat) as (c' & E & Ec); [done|cbn [cost]; lia|]. cbn [parse_at] in E.
  destruct (parse_returns s H0 (4 * length s + 4) 0 ltac:(lia)) as (Hl & _). specialize (Hl ltac:(lia)). rewrite E in Hl.
  destruct Hl as [_ Ht]. unfold parsecmd. rewrite E. cbn [pbind].
  assert (at_text s (0 + length (print 3 c)) []) as Hend by (by apply (at_app s 0 (print 3 c) [])).
  rewrite (peek_at _ _ _ _ Hend ltac:(done)). fold s. cbn [Nat.add]. rewrite Nat.eqb_refl. cbn [negb].
  eexists c', _, _. split; [reflexivity|]. by rewrite nulterminate_strings.
Qed.

Lemma parse_print_witness :
  exists c' buf ps, parsecmd (str "cat < in | ( grep a & ; wc ) > out ") = POk (c', buf) ps /\
    cmd_map (arg_string buf) c' =
      PipeCmd (RedirCmd (ExecCmd [str "cat"]) (str "in") O_RDONLY 0)
        (RedirCmd (ListCmd (BackCmd (ExecCmd [str "grep"; str "a"])) (ExecCmd [str "wc"])) (str "out") MODE_OUT 1).
Proof.
  apply (parse_print (PipeCmd (RedirCmd (ExecCmd [str "cat"]) (str "in") O_RDONLY 0)
    (RedirCmd (ListCmd (BackCmd (ExecCmd [str "grep"; str "a"])) (ExecCmd [str "wc"])) (str "out") MODE_OUT 1))).
  cbn. repeat split; try (repeat constructor; fail); try (vm_compute; lia); try discriminate; repeat constructor; try discriminate.
Defined.
