(* ===== verification/ShRun.v ===== *)
(** * Running commands (user/sh.c)

    [runcmd] and the main loop of the shell as programs, and the theorem on what
    [runcmd] makes the processes of a command execute, with which files on
    which descriptors. *)

From ITree Require Import ITree.
From S2P Require Import Prelude Params User Ulib UPrintf Sh.

Definition sh_panic {R} (s : list Z) : prog R :=
  fprintf 2 (str "%s" ++ [10]) [UStr (Some s)] ;;
  exit 1.

Definition fork1 : prog Z :=
  let! pid := fork in
  if pid =? -1 then sh_panic (str "fork") else uret pid.

(** [runcmd] never returns; its argument has its strings terminated. *)
Fixpoint runcmd {R} (c : cmd (list Z)) : prog R :=
  match c with
  | ExecCmd argv =>
      match argv with
      | [] => exit 1
      | a0 :: _ =>
          sys (Sys_exec a0 argv) ;;
          fprintf 2 (str "exec %s failed" ++ [10]) [UStr (Some a0)] ;;
          exit 0
      end
  | RedirCmd c file mode fd =>
      close fd ;;
      let! r := open file mode in
      if r <? 0 then
        fprintf 2 (str "open %s failed" ++ [10]) [UStr (Some file)] ;;
        exit 1
      else runcmd c
  | ListCmd l r =>
      let! pid := fork1 in
      if pid =? 0 then runcmd l else
      wait ;;
      runcmd r
  | PipeCmd l r =>
      let! (res, (p0, p1)) := sys Sys_pipe in
      if res <? 0 then sh_panic (str "pipe") else
      let! pid := fork1 in
      if pid =? 0 then
        close 1 ;;
        sys (Sys_dup p1) ;;
        close p0 ;;
        close p1 ;;
        runcmd l
      else
      let! pid := fork1 in
      if pid =? 0 then
        close 0 ;;
        sys (Sys_dup p0) ;;
        close p0 ;;
        close p1 ;;
        runcmd r
      else
      close p0 ;;
      close p1 ;;
      wait ;;
      wait ;;
      exit 0
  | BackCmd c =>
      let! pid := fork1 in
      if pid =? 0 then runcmd c else exit 0
  end.

(** [getcmd]: the line, or [None] at the end of the input. *)
Definition getcmd (nbuf : Z) : prog (option (list Z)) :=
  write 2 (str "$ ") ;;
  let! buf := gets nbuf in
  uret (match buf with [] => None | _ => Some buf end).

(** [runcmd(parsecmd(buf))] *)
Definition parse_and_run {R} (buf : list Z) : prog R :=
  match parsecmd buf with
  | POk (c, buf) _ => runcmd (cmd_map (arg_string buf) c)
  | PPanic msg => sh_panic msg
  | PFuel => exit 1
  end.

Definition sh_line (buf : list Z) : prog unit :=
  if bool_decide (take 3 buf = str "cd ") then
    (* Chdir must be called by the parent, not the child. *)
    let path := drop 3 (take (length buf - 1) buf) in
    let! r := sys (Sys_chdir path) in
    if r <? 0 then fprintf 2 (str "cannot cd %s" ++ [10]) [UStr (Some path)] else uret tt
  else
    let! pid := fork1 in
    if pid =? 0 then parse_and_run buf else
    wait ;;
    uret tt.

Definition sh_main : prog Z :=
  (* Ensure that three file descriptors are open. *)
  loop (fun _ : unit =>
    let! fd := open (str "console") O_RDWR in
    if fd <? 0 then uret (inr tt)
    else if 3 <=? fd then close fd ;; uret (inr tt)
    else uret (inl tt)) tt ;;
  (* Read and run input commands. *)
  loop (fun _ : unit =>
    let! buf := getcmd 100 in
    match buf with
    | None => uret (inr tt)
    | Some buf => sh_line buf ;; uret (inl tt)
    end) tt ;;
  exit 0.

(** ** What a command executes *)

(** What a descriptor refers to. *)
Inductive object : Type :=
| OFile (path : list Z) (mode : Z)
| OPipeR (id : nat)
| OPipeW (id : nat)
| OOther (id : nat).

Notation fdtable := (gmap Z object).

(** An [exec]: the path, the arguments, the descriptors. *)
Definition launch : Type := (list Z * list (list Z) * fdtable)%type.

(** The [exec] calls of a process and its descendants, when every call
    succeeds: [exec] does not return, [fork] returns 0 in the child and
    [pid > 0] in the parent, and descriptors are allocated lowest first. [n]
    is the number of the next pipe. *)
Fixpoint launches {R} (fuel : nat) (pid : Z) (t : prog R) (f : fdtable) (n : nat) : option (list launch * nat) :=
  match fuel with
  | O => None
  | S fuel' =>
      match observe t with
      | RetF _ => Some ([], n)
      | TauF t' => launches fuel' pid t' f n
      | @VisF _ _ _ A e k =>
          match e in sysE A return (A -> prog R) -> option (list launch * nat) with
          | Sys_exit _ => fun _ => Some ([], n)
          | Sys_exec path argv => fun _ => Some ([(path, argv, f)], n)
          | Sys_fork => fun k =>
              match launches fuel' pid (k 0) f n with
              | Some (ls, n) =>
                  match launches fuel' pid (k pid) f n with
                  | Some (ls', n) => Some (ls ++ ls', n)
                  | None => None
                  end
              | None => None
              end
          | Sys_wait => fun k => launches fuel' pid (k pid) f n
          | Sys_close fd => fun k => launches fuel' pid (k 0) (delete fd f) n
          | Sys_dup fd => fun k =>
              match f !! fd, free_fd f with
              | Some o, Some fd' => launches fuel' pid (k fd') (<[fd' := o]> f) n
              | _, _ => None
              end
          | Sys_open path mode => fun k =>
              match free_fd f with
              | Some fd => launches fuel' pid (k fd) (<[fd := OFile path mode]> f) n
              | None => None
              end
          | Sys_pipe => fun k =>
              match free_fd f with
              | Some p0 =>
                  match free_fd (<[p0 := OPipeR n]> f) with
                  | Some p1 => launches fuel' pid (k (0, (p0, p1))) (<[p1 := OPipeW n]> (<[p0 := OPipeR n]> f)) (S n)
                  | None => None
                  end
              | None => None
              end
          | _ => fun _ => None
          end k
      end
  end.

(** The same, by the meaning of the command. *)
Fixpoint plan (c : cmd (list Z)) (f : fdtable) (n : nat) : list launch * nat :=
  match c with
  | ExecCmd [] => ([], n)
  | ExecCmd (a0 :: argv) => ([(a0, a0 :: argv, f)], n)
  | RedirCmd c file mode fd => plan c (<[fd := OFile file mode]> f) n
  | ListCmd l r => let '(ls, n) := plan l f n in let '(ls', n) := plan r f n in (ls ++ ls', n)
  | PipeCmd l r =>
      let '(ls, m) := plan l (<[1 := OPipeW n]> f) (S n) in
      let '(ls', m) := plan r (<[0 := OPipeR n]> f) m in (ls ++ ls', m)
  | BackCmd c => plan c f n
  end.

(** The redirections the parser makes are of descriptors 0 and 1. *)
Fixpoint std_redirs {A} (c : cmd A) : Prop :=
  match c with
  | ExecCmd _ => True
  | RedirCmd c _ _ fd => (fd = 0 \/ fd = 1) /\ std_redirs c
  | PipeCmd l r | ListCmd l r => std_redirs l /\ std_redirs r
  | BackCmd c => std_redirs c
  end.

(** ** Correctness of [runcmd] *)

Section Runs.
Context {R : Type} (pid : Z) (Hpid : 0 < pid).

Definition runs (t : prog R) (f : fdtable) (n : nat) (r : list launch * nat) : Prop :=
  exists fuel, forall fuel', (fuel <= fuel')%nat -> launches fuel' pid t f n = Some r.

Lemma runs_intro t f n r :
  (exists fuel, forall fuel', (fuel <= fuel')%nat -> launches (S fuel') pid t f n = Some r) -> runs t f n r.
Proof.
  intros [fuel H]. exists (S fuel). intros [|fuel'] Hle; [lia|]. apply H. lia.
Qed.

Lemma runs_observe t t' f n r : observe t = observe t' -> runs t' f n r -> runs t f n r.
Proof.
  intros E [fuel H]. apply runs_intro. exists fuel. intros fuel' Hle. rewrite <- (H (S fuel')) by lia. cbn [launches]. by rewrite E.
Qed.

(** One system call. *)
Lemma runs_close fd (k : Z -> prog R) f n r : runs (k 0) (delete fd f) n r -> runs (ubind (close fd) k) f n r.
Proof.
  intros H. apply (runs_observe (ubind (uret 0) k)) in H; [|apply observe_ubind]. destruct H as [fuel H].
  apply runs_intro. exists fuel. intros fuel' Hle. cbn [launches]. rewrite observe_ubind. exact (H fuel' Hle).
Qed.

Lemma runs_wait (k : Z -> prog R) f n r : runs (k pid) f n r -> runs (ubind wait k) f n r.
Proof.
  intros H. apply (runs_observe (ubind (uret pid) k)) in H; [|apply observe_ubind]. destruct H as [fuel H].
  apply runs_intro. exists fuel. intros fuel' Hle. cbn [launches]. rewrite observe_ubind. exact (H fuel' Hle).
Qed.

Lemma runs_open path mode (k : Z -> prog R) f n fd r :
  free_fd f = Some fd -> runs (k fd) (<[fd := OFile path mode]> f) n r -> runs (ubind (open path mode) k) f n r.
Proof.
  intros Hfd H. apply (runs_observe (ubind (uret fd) k)) in H; [|apply observe_ubind]. destruct H as [fuel H].
  apply runs_intro. exists fuel. intros fuel' Hle. cbn [launches]. rewrite observe_ubind. cbn. rewrite Hfd. exact (H fuel' Hle).
Qed.

Lemma runs_dup fd (k : Z -> prog R) f n o fd' r :
  f !! fd = Some o -> free_fd f = Some fd' -> runs (k fd') (<[fd' := o]> f) n r -> runs (ubind (sys (Sys_dup fd)) k) f n r.
Proof.
  intros Ho Hfd H. apply (runs_observe (ubind (uret fd') k)) in H; [|apply observe_ubind]. destruct H as [fuel H].
  apply runs_intro. exists fuel. intros fuel' Hle. cbn [launches]. rewrite observe_ubind. cbn. rewrite Ho, Hfd. exact (H fuel' Hle).
Qed.

Lemma runs_pipe (k : Z * (Z * Z) -> prog R) f n p0 p1 r :
  free_fd f = Some p0 -> free_fd (<[p0 := OPipeR n]> f) = Some p1 ->
  runs (k (0, (p0, p1))) (<[p1 := OPipeW n]> (<[p0 := OPipeR n]> f)) (S n) r -> runs (ubind (sys Sys_pipe) k) f n r.
Proof.
  intros H0 H1 H. apply (runs_observe (ubind (uret (0, (p0, p1))) k)) in H; [|apply observe_ubind]. destruct H as [fuel H].
  apply runs_intro. exists fuel. intros fuel' Hle. cbn [launches]. rewrite observe_ubind. cbn. rewrite H0, H1. exact (H fuel' Hle).
Qed.

Lemma runs_fork1 (k : Z -> prog R) f n ls n1 ls' n2 :
  runs (k 0) f n (ls, n1) -> runs (k pid) f n1 (ls', n2) -> runs (ubind fork1 k) f n (ls ++ ls', n2).
Proof.
  intros H1 H2.
  assert (forall x, x <> -1 -> observe (ubind (ubind (uret x) (fun pid => if pid =? -1 then sh_panic (str "fork") else uret pid)) k)
    = observe (k x)) as Ex.
  { intros x Hx. rewrite !observe_ubind. cbn. by rewrite (proj2 (Z.eqb_neq x (-1)) Hx). }
  apply (runs_observe _ _ _ _ _ (Ex 0 ltac:(lia))) in H1. apply (runs_observe _ _ _ _ _ (Ex pid ltac:(lia))) in H2.
  destruct H1 as [fuel1 H1], H2 as [fuel2 H2]. apply runs_intro. exists (fuel1 + fuel2)%nat. intros fuel' Hle.
  cbn [launches].
  assert (observe (ubind fork1 k) = VisF Sys_fork (fun x => ubind (ubind (uret x) (fun pid =>
    if pid =? -1 then sh_panic (str "fork") else uret pid)) k)) as E by done.
  rewrite E. rewrite (H1 fuel') by lia. by rewrite (H2 fuel') by lia.
Qed.

Lemma runs_exec path argv (k : Z -> prog R) f n : runs (ubind (sys (Sys_exec path argv)) k) f n ([(path, argv, f)], n).
Proof. apply runs_intro. exists 0%nat. intros fuel' _. cbn [launches]. by rewrite observe_ubind. Qed.

Lemma runs_exit st f n : runs (exit st) f n ([], n).
Proof. apply runs_intro. exists 0%nat. intros fuel' _. cbn [launches]. unfold exit. by rewrite observe_ubind. Qed.

End Runs.

Lemma free_std (f : fdtable) fd : dom f = {[0; 1; 2]} -> fd = 0 \/ fd = 1 -> free_fd (delete fd f) = Some fd.
Proof.
  intros Hd Hfd. assert (is_Some (f !! 0)) as [o0 H0] by (apply elem_of_dom; set_solver).
  unfold free_fd. destruct Hfd as [-> | ->]; cbn [lowest].
  - by rewrite lookup_delete_eq.
  - by rewrite lookup_delete_ne, H0, lookup_delete_eq.
Qed.

Lemma dom_std (f : fdtable) fd o : dom f = {[0; 1; 2]} -> fd = 0 \/ fd = 1 -> dom (<[fd := o]> f) = {[0; 1; 2]}.
Proof. intros Hd Hfd. rewrite dom_insert_L, Hd. set_solver. Qed.

(** The descriptors of a pipe. *)
Lemma free_pipe (f : fdtable) o : dom f = {[0; 1; 2]} -> free_fd f = Some 3 /\ free_fd (<[3 := o]> f) = Some 4.
Proof.
  intros Hd. assert (forall i, i ∈ ({[0; 1; 2]} : gset Z) -> is_Some (f !! i)) as H by (intros i Hi; apply elem_of_dom; by rewrite Hd).
  destruct (H 0 ltac:(set_solver)) as [o0 H0], (H 1 ltac:(set_solver)) as [o1 H1], (H 2 ltac:(set_solver)) as [o2 H2].
  assert (f !! 3 = None) as H3 by (apply not_elem_of_dom; rewrite Hd; set_solver).
  assert (f !! 4 = None) as H4 by (apply not_elem_of_dom; rewrite Hd; set_solver).
  unfold free_fd. cbn [lowest]. rewrite lookup_insert_eq, !lookup_insert_ne by done.
  by rewrite H0, H1, H2, H3, H4.
Qed.

(** The descriptors of a process at the end of a pipe: one end in place of a
    standard descriptor, and the originals closed. *)
Lemma pipe_end (f : fdtable) fd o o3 o4 :
  dom f = {[0; 1; 2]} -> fd = 0 \/ fd = 1 ->
  delete 4 (delete 3 (<[fd := o]> (delete fd (<[4 := o4]> (<[3 := o3]> f))))) = <[fd := o]> f.
Proof.
  intros Hd Hfd. assert (f !! 3 = None) as H3 by (apply not_elem_of_dom; rewrite Hd; set_solver).
  assert (f !! 4 = None) as H4 by (apply not_elem_of_dom; rewrite Hd; set_solver).
  apply map_eq. intros i. destruct (decide (i = 4)) as [->|]; [|destruct (decide (i = 3)) as [->|]].
  - rewrite lookup_delete_eq, lookup_insert_ne by lia. done.
  - rewrite lookup_delete_ne, lookup_delete_eq, lookup_insert_ne by lia. done.
  - rewrite !lookup_delete_ne by done. destruct (decide (i = fd)) as [->|]; [by rewrite !lookup_insert_eq|].
    rewrite !lookup_insert_ne by done. rewrite lookup_delete_ne by done. by rewrite !lookup_insert_ne by done.
Qed.

Lemma free_pipe_std (f : fdtable) fd o3 o4 :
  dom f = {[0; 1; 2]} -> fd = 0 \/ fd = 1 -> free_fd (delete fd (<[4 := o4]> (<[3 := o3]> f))) = Some fd.
Proof.
  intros Hd Hfd. assert (is_Some (f !! 0)) as [o0 H0] by (apply elem_of_dom; set_solver).
  unfold free_fd. destruct Hfd as [-> | ->]; cbn [lowest].
  - by rewrite lookup_delete_eq.
  - rewrite lookup_delete_ne, !lookup_insert_ne by done. by rewrite H0, lookup_delete_eq.
Qed.

(** One end of a pipeline. *)
Lemma runs_pipe_end {R} pid (k : prog R) (f : fdtable) fd p o3 o4 o n r :
  dom f = {[0; 1; 2]} -> fd = 0 \/ fd = 1 -> (p = 3 /\ o = o3) \/ (p = 4 /\ o = o4) ->
  runs pid k (<[fd := o]> f) n r ->
  runs pid (close fd ;; sys (Sys_dup p) ;; close 3 ;; close 4 ;; k) (<[4 := o4]> (<[3 := o3]> f)) n r.
Proof.
  intros Hd Hfd Hp Hk. apply runs_close. apply (runs_dup pid p _ _ n o fd).
  - destruct Hp as [[-> ->]|[-> ->]]; rewrite lookup_delete_ne by lia.
    + by rewrite lookup_insert_ne, lookup_insert_eq.
    + by rewrite lookup_insert_eq.
  - by apply free_pipe_std.
  - apply runs_close, runs_close. by rewrite pipe_end.
Qed.

(** [C18] What a command line makes the system execute: the processes that [runcmd] forks call [exec] with
    the programs and arguments of the command in their order, each with the standard descriptors its
    place in the command calls for: redirected files, and the two ends of each pipe in place of the
    standard output of the left side and the standard input of the right side. No other
    descriptor stays open in them. *)
Theorem runcmd_launches pid c f n :
  0 < pid -> std_redirs c -> dom f = {[0; 1; 2]} ->
  exists fuel, forall fuel', (fuel <= fuel')%nat -> launches fuel' pid (runcmd (R := Empty_set) c) f n = Some (plan c f n).
Proof.
  intros Hpid. change (std_redirs c -> dom f = {[0; 1; 2]} -> runs pid (runcmd (R := Empty_set) c) f n (plan c f n)).
  revert f n. induction c as [argv|c IH file mode fd|l IHl r IHr|l IHl r IHr|c IH]; intros f n Hc Hd; cbn [runcmd plan].
  - destruct argv as [|a0 argv]; [apply runs_exit|apply runs_exec].
  - destruct Hc as [Hfd Hc]. apply runs_close. apply (runs_open pid file mode _ _ n fd); [by apply free_std|].
    rewrite (proj2 (Z.ltb_ge fd 0)) by lia. rewrite insert_delete_eq. apply IH; [done|by apply dom_std].
  - destruct Hc as [Hl Hr]. destruct (free_pipe f (OPipeR n) Hd) as [F3 F4].
    apply (runs_pipe pid _ f n 3 4); [done|done|]. cbn [Z.ltb Z.compare].
    specialize (IHl (<[1 := OPipeW n]> f) (S n) Hl (dom_std f 1 _ Hd ltac:(lia))).
    destruct (plan l _ _) as [ls m]. specialize (IHr (<[0 := OPipeR n]> f) m Hr (dom_std f 0 _ Hd ltac:(lia))).
    destruct (plan r _ _) as [ls' m']. apply (runs_fork1 pid Hpid _ _ _ ls m); cbn [Z.eqb].
    + apply (runs_pipe_end pid _ f 1 4 _ _ (OPipeW n)); [done|lia|by right|exact IHl].
    + rewrite (proj2 (Z.eqb_neq pid 0)) by lia. rewrite <- (app_nil_r ls'). apply (runs_fork1 pid Hpid _ _ _ ls' m'); cbn [Z.eqb].
      * apply (runs_pipe_end pid _ f 0 3 _ _ (OPipeR n)); [done|lia|by left|exact IHr].
      * rewrite (proj2 (Z.eqb_neq pid 0)) by lia. apply runs_close, runs_close, runs_wait, runs_wait, runs_exit.
  - destruct Hc as [Hl Hr]. specialize (IHl f n Hl Hd). destruct (plan l f n) as [ls m]. specialize (IHr f m Hr Hd).
    destruct (plan r f m) as [ls' m']. apply (runs_fork1 pid Hpid _ _ _ ls m); cbn [Z.eqb]; [exact IHl|].
    rewrite (proj2 (Z.eqb_neq pid 0)) by lia. by apply runs_wait.
  - specialize (IH f n Hc Hd). destruct (plan c f n) as [ls m]. rewrite <- (app_nil_r ls).
    apply (runs_fork1 pid Hpid _ _ _ ls m); cbn [Z.eqb]; [exact IH|]. rewrite (proj2 (Z.eqb_neq pid 0)) by lia. apply runs_exit.
Qed.

Lemma runcmd_launches_witness :
  let f : fdtable := {[0 := OOther 0; 1 := OOther 1; 2 := OOther 2]} in
  let ls := ExecCmd [str "ls"] in
  let wc := RedirCmd (ExecCmd [str "wc"; str "-l"]) (str "out") MODE_OUT 1 in
  exists fuel, forall fuel', (fuel <= fuel')%nat -> launches fuel' 7 (runcmd (R := Empty_set) (PipeCmd ls wc)) f 0 =
    Some ([(str "ls", [str "ls"], <[1 := OPipeW 0]> f);
           (str "wc", [str "wc"; str "-l"], <[1 := OFile (str "out") MODE_OUT]> (<[0 := OPipeR 0]> f))], 1%nat).
Proof.
  intros f ls wc. apply (runcmd_launches 7 (PipeCmd ls wc) f 0); [lia|by repeat split; right|by vm_compute].
Defined.
