(* ===== verification/Utils.v ===== *)
(** * Small user programs

    cat, echo, wc, ls, rm, mkdir, ln, kill, sleep, zombie, init, find, xargs
    and pingpong as programs over the system calls. [argv] is the vector of
    arguments, its head the name of the program; a [main] that returns [n]
    is followed by [exit(0)] in [start] (ulib.c). *)

From S2P Require Import Prelude Params User Ulib UPrintf.

(** [start] (ulib.c): [main] and then [exit(0)]. *)
Definition start (main : prog Z) : prog Z :=
  main ;;
  exit 0.

(** ** cat (user/cat.c) *)

Definition cat_body (fd : Z) (_ : unit) : prog (unit + unit) :=
  let! (n, buf) := read fd 512 in
  if n >? 0 then
    let! m := write 1 (take (Z.to_nat n) buf) in
    if negb (m =? n) then
      fprintf 2 (str "cat: write error" ++ [10]) [] ;;
      exit 1
    else uret (inl tt)
  else if n <? 0 then
    fprintf 2 (str "cat: read error" ++ [10]) [] ;;
    exit 1
  else uret (inr tt).

Definition cat (fd : Z) : prog unit := loop (cat_body fd) tt.

Definition cat_main (argv : list (list Z)) : prog Z :=
  match argv with
  | [] | [_] => cat 0 ;; exit 0
  | _ :: paths =>
      each paths (fun path =>
        let! fd := open path O_RDONLY in
        if fd <? 0 then
          fprintf 2 (str "cat: cannot open %s" ++ [10]) [UStr (Some path)] ;;
          exit 1
        else
          cat fd ;;
          close fd ;;
          uret tt) ;;
      exit 0
  end.

(** ** echo (user/echo.c) *)

Fixpoint echo_args (args : list (list Z)) : prog unit :=
  match args with
  | [] => uret tt
  | arg :: args' =>
      write 1 arg ;;
      match args' with
      | [] => write 1 [10] ;; uret tt
      | _ => write 1 [32] ;; echo_args args'
      end
  end.

Definition echo_main (argv : list (list Z)) : prog Z :=
  echo_args (tl argv) ;;
  exit 0.

(** ** wc (user/wc.c) *)

(** The counters [l], [w], [c] and [inword]. *)
Record counts : Type := mkCounts { c_lines : Z; c_words : Z; c_chars : Z; c_inword : bool }.

Definition wc_char (k : counts) (b : Z) : counts :=
  let c := i32 (k.(c_chars) + 1) in
  let l := if b =? 10 then i32 (k.(c_lines) + 1) else k.(c_lines) in
  if in_str b [32; 13; 9; 10; 11] then mkCounts l k.(c_words) c false
  else if negb k.(c_inword) then mkCounts l (i32 (k.(c_words) + 1)) c true
  else mkCounts l k.(c_words) c k.(c_inword).

Definition wc_body (fd : Z) (k : counts) : prog (counts + counts) :=
  let! (n, buf) := read fd 512 in
  if n >? 0 then uret (inl (foldl wc_char k (take (Z.to_nat n) buf)))
  else if n <? 0 then
    printf (str "wc: read error" ++ [10]) [] ;;
    exit 1
  else uret (inr k).

Definition wc (fd : Z) (name : list Z) : prog unit :=
  let! k := loop (wc_body fd) (mkCounts 0 0 0 false) in
  printf (str "%d %d %d %s" ++ [10]) [UInt k.(c_lines); UInt k.(c_words); UInt k.(c_chars); UStr (Some name)].

Definition wc_main (argv : list (list Z)) : prog Z :=
  match argv with
  | [] | [_] => wc 0 [] ;; exit 0
  | _ :: paths =>
      each paths (fun path =>
        let! fd := open path O_RDONLY in
        if fd <? 0 then
          printf (str "wc: cannot open %s" ++ [10]) [UStr (Some path)] ;;
          exit 1
        else
          wc fd path ;;
          close fd ;;
          uret tt) ;;
      exit 0
  end.

(** ** rm, mkdir, ln, kill, sleep, zombie *)

(** The loops of rm and mkdir stop at the first failure. *)
Fixpoint rm_files (paths : list (list Z)) : prog unit :=
  match paths with
  | [] => uret tt
  | path :: paths' =>
      let! r := sys (Sys_unlink path) in
      if r <? 0 then fprintf 2 (str "rm: %s failed to delete" ++ [10]) [UStr (Some path)]
      else rm_files paths'
  end.

Definition rm_main (argv : list (list Z)) : prog Z :=
  match argv with
  | [] | [_] =>
      fprintf 2 (str "Usage: rm files..." ++ [10]) [] ;;
      exit 1
  | _ :: paths => rm_files paths ;; exit 0
  end.

Fixpoint mkdir_files (paths : list (list Z)) : prog unit :=
  match paths with
  | [] => uret tt
  | path :: paths' =>
      let! r := sys (Sys_mkdir path) in
      if r <? 0 then fprintf 2 (str "mkdir: %s failed to create" ++ [10]) [UStr (Some path)]
      else mkdir_files paths'
  end.

Definition mkdir_main (argv : list (list Z)) : prog Z :=
  match argv with
  | [] | [_] =>
      fprintf 2 (str "Usage: mkdir files..." ++ [10]) [] ;;
      exit 1
  | _ :: paths => mkdir_files paths ;; exit 0
  end.

Definition ln_main (argv : list (list Z)) : prog Z :=
  match argv with
  | [_; old; new] =>
      let! r := sys (Sys_link old new) in
      (if r <? 0 then fprintf 2 (str "link %s %s: failed" ++ [10]) [UStr (Some old); UStr (Some new)] else uret tt) ;;
      exit 0
  | _ =>
      fprintf 2 (str "Usage: ln old new" ++ [10]) [] ;;
      exit 1
  end.

Definition kill_main (argv : list (list Z)) : prog Z :=
  match argv with
  | [] | [_] =>
      fprintf 2 (str "usage: kill pid..." ++ [10]) [] ;;
      exit 1
  | _ :: args =>
      each args (fun arg => sys (Sys_kill (numeral arg)) ;; uret tt) ;;
      exit 0
  end.

Definition sleep_main (argv : list (list Z)) : prog Z :=
  match argv with
  | [] | [_] =>
      printf (str "Usage: sleep num" ++ [10]) [] ;;
      uret (-1)
  | _ :: arg :: _ =>
      sys (Sys_sleep (numeral arg)) ;;
      uret 0
  end.

Definition zombie_main : prog Z :=
  let! pid := fork in
  (if pid >? 0 then sys (Sys_sleep 5) ;; uret tt else uret tt) ;;
  exit 0.

(** ** init (user/init.c) *)

(** The inner loop: wait for the shell with pid [pid]. *)
Definition init_wait (pid : Z) : prog unit :=
  loop (fun _ : unit =>
    let! wpid := wait in
    if wpid =? pid then uret (inr tt)
    else if wpid <? 0 then
      printf (str "init: wait returned an error" ++ [10]) [] ;;
      exit 1
    else uret (inl tt)) tt.

Definition init_main : prog Z :=
  let! fd := open (str "console") O_RDWR in
  (if fd <? 0 then
     sys (Sys_mknod (str "console") CONSOLE 0) ;;
     open (str "console") O_RDWR ;;
     uret tt
   else uret tt) ;;
  sys (Sys_dup 0) ;;
  sys (Sys_dup 0) ;;
  loop (fun _ : unit =>
    printf (str "init: starting sh" ++ [10]) [] ;;
    let! pid := fork in
    if pid <? 0 then
      printf (str "init: fork failed" ++ [10]) [] ;;
      exit 1
    else if pid =? 0 then
      sys (Sys_exec (str "sh") [str "sh"]) ;;
      printf (str "init: exec sh failed" ++ [10]) [] ;;
      exit 1
    else
      init_wait pid ;;
      uret (inl tt)) tt.

(** ** initcode (user/initcode.S): exec init, and exit with what exec returned *)

Definition initcode_start : prog Z :=
  let! r := sys (Sys_exec (str "/init") [str "/init"]) in
  exit r.

(** ** ls (user/ls.c) *)

(** The part of a path after its last slash. *)
Fixpoint after_slash (path : list Z) : list Z :=
  match path with
  | [] => []
  | c :: path' => if in_str 47 path' then after_slash path' else if c =? 47 then path' else path
  end.

(** Blank-padded to DIRSIZ. *)
Definition fmtname (path : list Z) : list Z :=
  let p := after_slash path in
  if Z.of_nat (length p) >=? DIRSIZ then p
  else p ++ replicate (Z.to_nat DIRSIZ - length p) 32.

(** [struct dirent] (kernel/fs.h) as it is read from a directory. *)
Definition dirent_inum (de : list Z) : Z := le_decode (take 2 de).
Definition dirent_name (de : list Z) : list Z := take (Z.to_nat DIRSIZ) (drop 2 de).
Definition DIRENT_SIZE : Z := 2 + DIRSIZ.

Definition ls_print (path : list Z) (st : stat) : prog unit :=
  printf (str "%s %d %d %d" ++ [10])
    [UStr (Some (fmtname path)); UInt st.(st_type); UInt st.(st_ino); UInt (i32 st.(st_size))].

(** [stat] leaves [st] alone when it fails, but then nothing is printed from it. *)
Definition ls_entry (path : list Z) (fd : Z) (_ : unit) : prog (unit + unit) :=
  let! (n, de) := read fd DIRENT_SIZE in
  if negb (n =? DIRENT_SIZE) then uret (inr tt)
  else if dirent_inum de =? 0 then uret (inl tt)
  else
    let buf := path ++ [47] ++ until_nul (dirent_name de) in
    let! (r, st) := stat_path buf in
    match r <? 0, st with
    | false, Some st => ls_print buf st ;; uret (inl tt)
    | _, _ => printf (str "ls: cannot stat %s" ++ [10]) [UStr (Some buf)] ;; uret (inl tt)
    end.

Definition ls (path : list Z) : prog unit :=
  let! fd := open path O_RDONLY in
  if fd <? 0 then fprintf 2 (str "ls: cannot open %s" ++ [10]) [UStr (Some path)] else
  let! (r, st) := sys (Sys_fstat fd) in
  if r <? 0 then
    fprintf 2 (str "ls: cannot stat %s" ++ [10]) [UStr (Some path)] ;;
    close fd ;;
    uret tt
  else
  (if (st.(st_type) =? T_DEVICE) || (st.(st_type) =? T_FILE) then ls_print path st
   else if st.(st_type) =? T_DIR then
     if Z.of_nat (length path) + 1 + DIRSIZ + 1 >? 512 then printf (str "ls: path too long" ++ [10]) []
     else loop (ls_entry path fd) tt
   else uret tt) ;;
  close fd ;;
  uret tt.

Definition ls_main (argv : list (list Z)) : prog Z :=
  match argv with
  | [] | [_] => ls (str ".") ;; exit 0
  | _ :: paths => each paths ls ;; exit 0
  end.

(** ** find (user/find.c) *)

(** [fuel] is the depth of the recursion the stack allows. A name of DIRSIZ
    bytes has no NUL: [strcmp] and [strcpy] go on in [after], the bytes that
    follow [de] in memory. [stat] leaves [st] as it was when it fails; [st0] is
    its value before the first call. *)
Section Find.
Context (after : list Z) (st0 : stat).

Fixpoint find (fuel : nat) (location filename : list Z) : prog unit :=
  match fuel with
  | O => uret tt
  | S fuel' =>
      let loc := if bool_decide (last location = Some 47) then location else location ++ [47] in
      let! fd := open location O_RDONLY in
      loop (fun st : stat =>
        let! (n, de) := read fd DIRENT_SIZE in
        if negb (n =? DIRENT_SIZE) then uret (inr tt)
        else if dirent_inum de =? 0 then uret (inl st)
        else
          let name := until_nul (dirent_name de ++ after) in
          if bool_decide (name = str ".") || bool_decide (name = str "..") then uret (inl st)
          else
            (if bool_decide (filename = name)
             then printf (str "%s%s" ++ [10]) [UStr (Some loc); UStr (Some filename)] else uret tt) ;;
            let! (_, r) := stat_path (loc ++ name) in
            let st := default st r in
            (if st.(st_type) =? T_DIR then find fuel' (loc ++ name) filename else uret tt) ;;
            uret (inl st)) st0
  end.

(** With fewer than two arguments [argv[1]] is the null pointer that ends the vector. *)
Definition find_main (fuel : nat) (argv : list (list Z)) : prog Z :=
  match argv with
  | _ :: location :: filename :: _ => find fuel location filename ;; uret 0
  | _ :: filename :: _ => find fuel (str ".") filename ;; uret 0
  | _ => find fuel (str ".") [] ;; uret 0
  end.

End Find.

(** ** xargs (user/xargs.c) *)

(** The vector is not terminated: [exec] reads it up to a null pointer, so
    that the strings [garbage] which the uninitialized entries of
    [command_argv] point to follow the line. *)
Definition xargs_body (command : list Z) (args garbage : list (list Z)) (_ : unit) : prog (unit + unit) :=
  let! line := gets 32 in
  match line with
  | [] => uret (inr tt)
  | _ =>
      let line := if bool_decide (last line = Some 10) || bool_decide (last line = Some 13)
                  then take (length line - 1) line else line in
      let! pid := fork in
      (if pid =? 0 then
         sys (Sys_exec command ((command :: args) ++ [line] ++ garbage)) ;;
         printf (str "exec" ++ [10]) []
       else uret tt) ;;
      wait ;;
      uret (inl tt)
  end.

Definition xargs_main (garbage : list (list Z)) (argv : list (list Z)) : prog Z :=
  match argv with
  | [] | [_] =>
      printf (str "usage: xargs <command> [args]" ++ [10]) [] ;;
      exit (-1)
  | _ :: command :: args =>
      loop (xargs_body command args garbage) tt ;;
      uret 0
  end.

(** ** pingpong (user/pingpong.c) *)

(** A read of one byte into [data]. *)
Definition read_byte (fd data : Z) : prog (Z * Z) :=
  let! (n, bs) := read fd 1 in
  uret (n, if n >? 0 then default data (head bs) else data).

Definition pingpong_main : prog Z :=
  let! ppid := sys Sys_getpid in
  let data := 65 in
  let! (r, (p0, p1)) := sys Sys_pipe in
  if r =? -1 then
    printf (str "pipe" ++ [10]) [] ;;
    uret (-1)
  else
  let! pid := fork in
  if pid =? 0 then
    let! cpid := sys Sys_getpid in
    let! (n, data) := read_byte p0 data in
    (if n =? -1 then printf (str "child read" ++ [10]) []
     else if n =? 0 then printf (str "parent closed the pipe prematurely" ++ [10]) [] else uret tt) ;;
    printf (str "%d: received ping" ++ [10]) [UInt cpid] ;;
    let! m := write p1 [data] in
    if m =? -1 then
      printf (str "child write" ++ [10]) [] ;;
      uret (-1)
    else uret 0
  else
    let! m := write p1 [data] in
    if m =? -1 then
      printf (str "parent write" ++ [10]) [] ;;
      uret (-1)
    else
    wait ;;
    let! (n, data) := read_byte p0 data in
    (if n =? -1 then printf (str "parent read" ++ [10]) []
     else if n =? 0 then printf (str "child closed the pipe prematurely" ++ [10]) [] else uret tt) ;;
    printf (str "%d: received pong" ++ [10]) [UInt ppid] ;;
    uret 0.
