(* ===== verification/UtilsSpec.v ===== *)
(** * cat, echo and wc: correctness

    The programs terminate, however the reads are cut, and write what they
    promise. *)

From S2P Require Import Prelude Params User Ulib UPrintf Utils.

(** The rest of what descriptor [fd] delivers. *)
Definition unread (fd : Z) (w : world) : nat := length (default [] (w.(w_in) !! fd)).

(** ** cat *)

Definition cat_inv (fd : Z) (text : list Z) (w0 : world) (o : list Z) (_ : unit) (w : world) : Prop :=
  exists done rest, text = done ++ rest /\ w = set_in <[fd := rest]> (set_out <[1 := o ++ done]> w0).

Lemma cat_ok fd text o X w :
  w.(w_in) !! fd = Some text -> w.(w_out) !! 1 = Some o ->
  must file_step (fun _ w' => w' = set_in <[fd := []]> (set_out <[1 := o ++ text]> w)) X (cat fd) w.
Proof.
  intros Hi Ho. apply (must_loop file_step _ X (cat_body fd) (cat_inv fd text w o) (fun _ => unread fd)).
  2:{ exists [], text. split; [done|]. destruct w as [i ow f]. unfold set_in, set_out. cbn in *.
      by rewrite app_nil_r, !insert_id. }
  intros u w1 (dn & rest & Et & ->). unfold cat_body. apply must_bind. eapply must_read; [apply lookup_insert_eq|].
  intros k Hk Hn Hz. destruct (Z.gtb_spec (Z.of_nat k) 0) as [Hpos|Hk0].
  - apply must_bind. eapply must_write; [apply lookup_insert_eq|]. rewrite Nat2Z.id, take_take, Nat.min_id.
    rewrite length_take, Nat.min_l, Z.eqb_refl by done. cbn [negb]. apply must_uret. split.
    + exists (dn ++ take k rest), (drop k rest). rewrite <- (assoc_L (++)), take_drop. split; [done|].
      unfold set_in, set_out. cbn. by rewrite !insert_insert_eq, (assoc_L (++)).
    + unfold unread. cbn. rewrite !lookup_insert_eq. cbn. rewrite length_drop. lia.
  - assert (k = 0%nat) as -> by lia. rewrite (proj2 (Z.ltb_ge _ 0)) by lia. apply must_uret.
    destruct (Hz eq_refl) as [?| ->]; [lia|]. rewrite app_nil_r in Et. subst dn.
    unfold set_in, set_out. cbn. by rewrite insert_insert_eq.
Qed.

(** [cat file ...] terminates with status 0 and writes the contents of the files, or of the standard
    input when no file is named, to the standard output, in order and unchanged, whatever sizes the
    reads have. *)
Theorem cat_main_correct name paths texts o w :
  w.(w_out) !! 1 = Some o ->
  (if paths is [] then exists text, w.(w_in) !! 0 = Some text /\ texts = [text]
   else Forall2 (fun path text => w.(w_files) !! path = Some text) paths texts) ->
  must file_step (fun _ _ => False)
    (fun status w' => status = 0 /\ w'.(w_out) = <[1 := o ++ concat texts]> w.(w_out)) (cat_main (name :: paths)) w.
Proof.
  intros Ho Hp. destruct paths as [|path0 paths]; cbn [cat_main].
  - destruct Hp as (text & Hi & ->). apply must_bind. eapply must_post; [by apply (cat_ok 0 text o)|].
    intros _ w' ->. apply must_exits. split; [done|]. cbn. by rewrite app_nil_r.
  - revert Hp. generalize (path0 :: paths). clear path0 paths. intros paths Hp. apply must_bind.
    set (out i := o ++ concat (take i texts)).
    eapply must_post; [apply (must_each file_step paths _ _ (fun i w' => w' = set_out <[1 := out i]> w))|].
    + unfold out. cbn. destruct w as [i ow f]. unfold set_out. cbn in *. by rewrite app_nil_r, insert_id.
    + intros i path w1 Hl ->. destruct (Forall2_lookup_l _ _ _ _ _ Hp Hl) as (text & Ht & Hf).
      apply must_bind. eapply must_open; [exact Hf|]. intros fd Hfd Hi _. rewrite (proj2 (Z.ltb_ge fd 0)) by lia.
      apply must_bind. eapply must_post; [apply (cat_ok fd text (out i)); apply lookup_insert_eq|].
      intros _ w' ->. apply must_bind, must_close, must_uret. unfold out.
      rewrite (take_S_r _ _ _ Ht), concat_app. cbn [concat]. rewrite app_nil_r.
      unfold set_in, set_out. cbn. by rewrite !insert_insert_eq, delete_insert_id, (assoc_L (++)).
    + intros _ w' ->. apply must_exits. split; [done|]. unfold out. rewrite (Forall2_length _ _ _ Hp), take_ge by done. done.
Qed.

Lemma cat_main_correct_witness :
  let w := mkWorld ∅ {[1 := []]} {[str "a" := str "one"; str "b" := str "two"]} in
  must file_step (fun _ _ => False) (fun status w' => status = 0 /\ w'.(w_out) !! 1 = Some (str "onetwoone"))
    (cat_main [str "cat"; str "a"; str "b"; str "a"]) w.
Proof.
  intros w. eapply must_mono.
  - apply (cat_main_correct (str "cat") [str "a"; str "b"; str "a"] [str "one"; str "two"; str "one"] []); [reflexivity|].
    repeat constructor.
  - done.
  - intros st w' [-> ->]. split; [done|]. vm_compute. reflexivity.
Defined.

(** ** wc *)

Definition separator (b : Z) : bool := in_str b [32; 13; 9; 10; 11].

(** The parts of a text between separators. *)
Fixpoint pieces (text : list Z) : list (list Z) :=
  match text with
  | [] => [[]]
  | c :: text' =>
      if separator c then [] :: pieces text'
      else match pieces text' with p :: ps => (c :: p) :: ps | [] => [[c]] end
  end.

Definition word_count (text : list Z) : Z := Z.of_nat (length (filter (fun p => p <> []) (pieces text))).
Definition line_count (text : list Z) : Z := Z.of_nat (length (filter (fun b => b = 10) text)).

(** The words that start in [text], after a part that ends [inword] or not. *)
Fixpoint new_words (inword : bool) (text : list Z) : Z :=
  match text with
  | [] => 0
  | c :: text' => if separator c then new_words false text' else (if inword then 0 else 1) + new_words true text'
  end.

Lemma new_words_nonneg text : forall b, 0 <= new_words b text <= Z.of_nat (length text).
Proof.
  induction text as [|c text IH]; intros b; cbn [new_words length]; [lia|].
  destruct (separator c); [specialize (IH false); lia|]. specialize (IH true). destruct b; lia.
Qed.

Lemma pieces_cons text : exists p ps, pieces text = p :: ps.
Proof. destruct text as [|c text]; cbn; [eauto|]. destruct (separator c); [eauto|]. destruct (pieces text); eauto. Qed.

Lemma new_words_count text :
  new_words false text = word_count text /\
  exists p ps, pieces text = p :: ps /\ new_words true text = Z.of_nat (length (filter (fun p => p <> []) ps)).
Proof.
  unfold word_count. induction text as [|c text [IH1 (p & ps & Ep & IH2)]]; cbn [new_words pieces].
  - split; [done|]. by exists [], [].
  - rewrite Ep in IH1. destruct (separator c); rewrite ?Ep.
    + rewrite filter_cons_False by naive_solver. split; [done|]. eexists [], _. by split.
    + rewrite filter_cons_True by done. split; [rewrite IH2; cbn [length]; lia|]. eexists (c :: p), ps. by rewrite Z.add_0_l.
Qed.

Lemma i32_small x : - 2 ^ 31 <= x < 2 ^ 31 -> i32 x = x.
Proof.
  intros H. unfold i32, signed. change (2 ^ (32 - 1)) with (2 ^ 31). destruct (Z.lt_ge_cases x 0).
  - replace (x mod 2 ^ 32) with (x + 2 ^ 32) by (rewrite <- (Z_mod_plus_full x 1), Z.mod_small; lia).
    rewrite (proj2 (Z.ltb_ge _ _)) by lia. lia.
  - rewrite Z.mod_small by lia. rewrite (proj2 (Z.ltb_lt _ _)) by lia. done.
Qed.

Lemma wc_chars text : forall k,
  0 <= k.(c_lines) -> k.(c_lines) + Z.of_nat (length text) < 2 ^ 31 ->
  0 <= k.(c_words) -> k.(c_words) + Z.of_nat (length text) < 2 ^ 31 ->
  0 <= k.(c_chars) -> k.(c_chars) + Z.of_nat (length text) < 2 ^ 31 ->
  exists b, foldl wc_char k text = mkCounts (k.(c_lines) + line_count text) (k.(c_words) + new_words k.(c_inword) text)
    (k.(c_chars) + Z.of_nat (length text)) b.
Proof.
  unfold line_count. induction text as [|c text IH]; intros [l w n inw] Hl Hl' Hw Hw' Hn Hn'; cbn [c_lines c_words c_chars c_inword foldl new_words length app] in *.
  - exists inw. by rewrite !Z.add_0_r.
  - assert (exists l1, l1 = (if c =? 10 then i32 (l + 1) else l) /\ 0 <= l1 <= l + 1 /\
      l1 + Z.of_nat (length (filter (fun b => b = 10) text)) = l + Z.of_nat (length (filter (fun b => b = 10) (c :: text))))
      as (l1 & El & Hl1 & Hc).
    { eexists. split; [reflexivity|]. destruct (Z.eqb_spec c 10) as [->|Hne].
      - rewrite filter_cons_True by done. rewrite i32_small by lia. cbn [length]. lia.
      - rewrite filter_cons_False by done. lia. }
    unfold wc_char at 2. cbn [c_lines c_words c_chars c_inword]. rewrite <- El. fold (separator c).
    rewrite (i32_small (n + 1)) by lia. destruct (separator c).
    + destruct (IH (mkCounts l1 w (n + 1) false)) as (b & ->); cbn [c_lines c_words c_chars c_inword] in *; try lia.
      exists b. f_equal; lia.
    + destruct inw; cbn [negb].
      * destruct (IH (mkCounts l1 w (n + 1) true)) as (b & ->); cbn [c_lines c_words c_chars c_inword] in *; try lia.
        exists b. f_equal; lia.
      * rewrite (i32_small (w + 1)) by lia.
        destruct (IH (mkCounts l1 (w + 1) (n + 1) true)) as (b & ->); cbn [c_lines c_words c_chars c_inword] in *; try lia.
        exists b. f_equal; lia.
Qed.

Lemma wc_loop_ok fd text X w :
  w.(w_in) !! fd = Some text ->
  must file_step (fun k w' => k = foldl wc_char (mkCounts 0 0 0 false) text /\ w' = set_in <[fd := []]> w) X
    (loop (wc_body fd) (mkCounts 0 0 0 false)) w.
Proof.
  intros Hi. apply (must_loop file_step _ X (wc_body fd) (fun k w1 => exists dn rest, text = dn ++ rest /\
    k = foldl wc_char (mkCounts 0 0 0 false) dn /\ w1 = set_in <[fd := rest]> w) (fun _ => unread fd)).
  2:{ exists [], text. split_and!; [done|done|]. destruct w as [i ow f]. unfold set_in. cbn in *. by rewrite insert_id. }
  intros k w1 (dn & rest & Et & -> & ->). unfold wc_body. apply must_bind. eapply must_read; [apply lookup_insert_eq|].
  intros n Hn Hle Hz. destruct (Z.gtb_spec (Z.of_nat n) 0) as [Hpos|Hn0].
  - apply must_uret. rewrite Nat2Z.id, take_take, Nat.min_id. split.
    + exists (dn ++ take n rest), (drop n rest). rewrite <- (assoc_L (++)), take_drop, foldl_app. split_and!; [done|done|].
      unfold set_in. cbn. by rewrite insert_insert_eq.
    + unfold unread. cbn. rewrite !lookup_insert_eq. cbn. rewrite length_drop. lia.
  - assert (n = 0%nat) as -> by lia. rewrite (proj2 (Z.ltb_ge _ 0)) by lia. apply must_uret.
    destruct (Hz eq_refl) as [?| ->]; [lia|]. rewrite app_nil_r in Et. subst dn. split; [done|].
    unfold set_in. cbn. by rewrite insert_insert_eq.
Qed.

(** The line [wc] prints. *)
Definition wc_line (path text : list Z) : list Z :=
  vprintf_bytes (str "%d %d %d %s" ++ [10])
    [UInt (line_count text); UInt (word_count text); UInt (Z.of_nat (length text)); UStr (Some path)].

#[local] Opaque vprintf_bytes.

Lemma wc_ok fd path text o X w :
  w.(w_in) !! fd = Some text -> w.(w_out) !! 1 = Some o -> Z.of_nat (length text) < 2 ^ 31 ->
  must file_step (fun _ w' => w' = set_in <[fd := []]> (set_out <[1 := o ++ wc_line path text]> w)) X (wc fd path) w.
Proof.
  intros Hi Ho Hlen. unfold wc. apply must_bind. eapply must_post; [by apply (wc_loop_ok fd text)|].
  intros k w' [-> ->]. eapply must_printf; [exact Ho|].
  destruct (wc_chars text (mkCounts 0 0 0 false)) as (b & ->); cbn [c_lines c_words c_chars c_inword]; try lia.
  rewrite !Z.add_0_l. destruct (new_words_count text) as [-> _]. reflexivity.
Qed.

(** [wc file ...] terminates with status 0 and prints for each file, or for the standard input when no file
    is named, a line with its numbers of newlines, words and bytes, where a word is a non-empty part
    between separators; the files are shorter than 2^31 bytes, however the reads cut them. *)
Theorem wc_main_correct name paths texts o w :
  w.(w_out) !! 1 = Some o -> Forall (fun text => Z.of_nat (length text) < 2 ^ 31) texts ->
  (if paths is [] then exists text, w.(w_in) !! 0 = Some text /\ texts = [text]
   else Forall2 (fun path text => w.(w_files) !! path = Some text) paths texts) ->
  must file_step (fun _ _ => False)
    (fun status w' => status = 0 /\
       w'.(w_out) = <[1 := o ++ concat (zip_with wc_line (if paths is [] then [[]] else paths) texts)]> w.(w_out))
    (wc_main (name :: paths)) w.
Proof.
  intros Ho Hlen Hp. destruct paths as [|path0 paths]; cbn [wc_main].
  - destruct Hp as (text & Hi & ->). apply must_bind. eapply must_post; [apply (wc_ok 0 [] text o); try done; by apply (Forall_inv Hlen)|].
    intros _ w' ->. apply must_exits. split; [done|]. cbn [zip_with concat set_in set_out w_out]. by rewrite app_nil_r.
  - revert Hp. generalize (path0 :: paths). clear path0 paths. intros paths Hp. apply must_bind.
    set (out i := o ++ concat (zip_with wc_line (take i paths) (take i texts))).
    eapply must_post; [apply (must_each file_step paths _ _ (fun i w' => w' = set_out <[1 := out i]> w))|].
    + unfold out. cbn [take zip_with concat]. destruct w as [i ow f]. unfold set_out. cbn [w_in w_out w_files] in *. by rewrite app_nil_r, insert_id.
    + intros i path w1 Hl ->. destruct (Forall2_lookup_l _ _ _ _ _ Hp Hl) as (text & Ht & Hf).
      apply must_bind. eapply must_open; [exact Hf|]. intros fd Hfd Hi _. rewrite (proj2 (Z.ltb_ge fd 0)) by lia.
      apply must_bind. eapply must_post; [apply (wc_ok fd path text (out i)); try apply lookup_insert_eq|].
      { rewrite Forall_forall in Hlen. apply Hlen. by eapply list_elem_of_lookup_2. }
      intros _ w' ->. apply must_bind, must_close, must_uret. unfold out.
      rewrite (take_S_r _ _ _ Ht), (take_S_r _ _ _ Hl), zip_with_app, concat_app.
      2:{ rewrite !length_take, (Forall2_length _ _ _ Hp). lia. }
      cbn [zip_with concat]. rewrite app_nil_r.
      unfold set_in, set_out. cbn [w_in w_out w_files]. by rewrite !insert_insert_eq, delete_insert_id, (assoc_L (++)).
    + intros _ w' ->. apply must_exits. split; [done|]. unfold out.
      rewrite !take_ge by (rewrite ?(Forall2_length _ _ _ Hp); done). by destruct Hp.
Qed.

Lemma wc_main_correct_witness :
  let w := mkWorld {[0 := str "two words
"]} {[1 := []]} ∅ in
  must file_step (fun _ _ => False) (fun status w' => status = 0 /\ w'.(w_out) !! 1 = Some (str "1 2 10 
")) (wc_main [str "wc"]) w.
Proof.
  intros w. eapply must_mono.
  - apply (wc_main_correct (str "wc") [] [str "two words
"] []); [reflexivity|repeat constructor|]. eexists. split; reflexivity.
  - done.
  - intros st w' [-> ->]. split; [done|]. vm_compute. reflexivity.
Defined.
