(* ===== verification/Net.v ===== *)
(** * Several processes and pipes

    The system calls of a set of processes that run concurrently: [fork],
    [exit], [wait], pipes and the console. A step is one system call of any
    process that is not blocked, so that the runs are all interleavings. The
    calls do what the theorems on the kernel state of them: a pipe is a queue
    of at most [PIPESIZE] bytes, a [write] to it puts in what fits and waits
    for room for the rest, a [read] waits for bytes or for the end of all
    writers, [wait] waits for a child that has exited.

    [nproc] and [nfile] are the numbers of processes and of open files that
    the system has room for. *)

From Stdlib Require Import Eqdep.
From ITree Require Import ITree.
From S2P Require Import Prelude Params User.

(** What a descriptor refers to. *)
Inductive end_of : Type := Cons | Rd (id : nat) | Wr (id : nat).
#[global] Instance end_of_eq_dec : EqDecision end_of.
Proof. solve_decision. Defined.

(** [us_sent]: the bytes already sent of the [write] the process is in. *)
Record uproc : Type := mkUproc {
  us_prog : prog Z;
  us_fds : gmap Z end_of;
  us_parent : Z;
  us_sent : nat;
  us_status : option Z;   (* of a zombie *)
}.

Record net : Type := mkNet {
  n_procs : gmap Z uproc;
  n_pipes : gmap nat (list Z);
  n_out : list Z;           (* what was written to the console *)
  n_pid : Z;                (* the next pid *)
  n_pipe : nat;             (* the next pipe *)
}.

(** The calls a program makes next. *)
Inductive calls {A} (e : sysE A) (k : A -> prog Z) : prog Z -> Prop :=
| calls_vis t : observe t = VisF e k -> calls e k t
| calls_tau t t' : observe t = TauF t' -> calls e k t' -> calls e k t.

Definition has_end (o : end_of) (u : uproc) : bool := bool_decide (map_Exists (fun _ o' => o' = o) u.(us_fds)).
Definition in_use (o : end_of) (s : net) : bool := bool_decide (map_Exists (fun _ u => has_end o u = true) s.(n_procs)).

(** The open files that are ends of pipes. *)
Definition pipe_files (s : net) : nat :=
  list_sum (map (fun id => Nat.b2n (in_use (Rd id) s) + Nat.b2n (in_use (Wr id) s))%nat (seq 0 s.(n_pipe))).

Definition set_procs (f : gmap Z uproc -> gmap Z uproc) (s : net) : net :=
  mkNet (f s.(n_procs)) s.(n_pipes) s.(n_out) s.(n_pid) s.(n_pipe).
Definition set_pipes (f : gmap nat (list Z) -> gmap nat (list Z)) (s : net) : net :=
  mkNet s.(n_procs) (f s.(n_pipes)) s.(n_out) s.(n_pid) s.(n_pipe).
Definition put_out (bs : list Z) (s : net) : net :=
  mkNet s.(n_procs) s.(n_pipes) (s.(n_out) ++ bs) s.(n_pid) s.(n_pipe).

(** pipe.c *)
Definition PIPESIZE : nat := 512.

Section Net.
Context (nproc nfile : nat).

Section Call.
Context (s : net) (i : Z) (u : uproc).

(** The process goes on as [t], with the descriptors [f]. *)
Definition go_fds (t : prog Z) (f : gmap Z end_of) (s : net) : net :=
  set_procs <[i := mkUproc t f u.(us_parent) 0 None]> s.
Definition go (t : prog Z) (s : net) : net := go_fds t u.(us_fds) s.

(** The children of a process that exits become children of init. *)
Definition orphan (v : uproc) : uproc :=
  if v.(us_parent) =? i then mkUproc v.(us_prog) v.(us_fds) 1 v.(us_sent) v.(us_status) else v.

Definition call_step {A} (e : sysE A) : (A -> prog Z) -> net -> Prop :=
  match e in sysE A return (A -> prog Z) -> net -> Prop with
  | Sys_getpid => fun k s' => s' = go (k i) s
  | Sys_fork => fun k s' =>
      s' = if decide (size s.(n_procs) < nproc)%nat then
             let s1 := go (k s.(n_pid)) s in
             mkNet (<[s.(n_pid) := mkUproc (k 0) u.(us_fds) i 0 None]> s1.(n_procs)) s.(n_pipes) s.(n_out) (s.(n_pid) + 1) s.(n_pipe)
           else go (k (-1)) s
  | Sys_exit st => fun _ s' => s' = set_procs (fun ps => <[i := mkUproc u.(us_prog) ∅ u.(us_parent) 0 (Some st)]> (orphan <$> ps)) s
  | Sys_wait => fun k s' =>
      (exists j v st, s.(n_procs) !! j = Some v /\ v.(us_parent) = i /\ v.(us_status) = Some st /\ s' = set_procs (delete j) (go (k j) s)) \/
      ((forall j v, s.(n_procs) !! j = Some v -> v.(us_parent) <> i) /\ s' = go (k (-1)) s)
  | Sys_pipe => fun k s' =>
      s' = match free_fd u.(us_fds) with
           | Some p0 =>
               match free_fd (<[p0 := Rd s.(n_pipe)]> u.(us_fds)) with
               | Some p1 =>
                   if decide (pipe_files s + 2 <= nfile)%nat then
                     let s1 := go_fds (k (0, (p0, p1))) (<[p1 := Wr s.(n_pipe)]> (<[p0 := Rd s.(n_pipe)]> u.(us_fds))) s in
                     mkNet s1.(n_procs) (<[s.(n_pipe) := []]> s.(n_pipes)) s.(n_out) s.(n_pid) (S s.(n_pipe))
                   else go (k (-1, (-1, -1))) s
               | None => go (k (-1, (-1, -1))) s
               end
           | None => go (k (-1, (-1, -1))) s
           end
  | Sys_close fd => fun k s' =>
      s' = match u.(us_fds) !! fd with
           | Some _ => go_fds (k 0) (delete fd u.(us_fds)) s
           | None => go (k (-1)) s
           end
  | Sys_dup fd => fun k s' =>
      s' = match u.(us_fds) !! fd, free_fd u.(us_fds) with
           | Some o, Some fd' => go_fds (k fd') (<[fd' := o]> u.(us_fds)) s
           | _, _ => go (k (-1)) s
           end
  | Sys_write fd bs => fun k s' =>
      match u.(us_fds) !! fd with
      | Some Cons => s' = put_out bs (go (k (Z.of_nat (length bs))) s)
      | Some (Wr id) =>
          if in_use (Rd id) s then
            let buf := default [] (s.(n_pipes) !! id) in
            let room := (PIPESIZE - length buf)%nat in
            let rest := drop u.(us_sent) bs in
            if decide (length rest <= room)%nat then
              s' = set_pipes <[id := buf ++ rest]> (go (k (Z.of_nat (length bs))) s)
            else
              room <> 0%nat /\
              s' = set_pipes <[id := buf ++ take room rest]> (set_procs
                <[i := mkUproc u.(us_prog) u.(us_fds) u.(us_parent) (u.(us_sent) + room) None]> s)
          else s' = go (k (-1)) s
      | _ => s' = go (k (-1)) s
      end
  | Sys_read fd n => fun k s' =>
      match u.(us_fds) !! fd with
      | Some (Rd id) =>
          let buf := default [] (s.(n_pipes) !! id) in
          (buf <> [] \/ in_use (Wr id) s = false) /\
          let m := (length buf `min` Z.to_nat n)%nat in
          s' = set_pipes <[id := drop m buf]> (go (k (Z.of_nat m, take m buf)) s)
      | Some Cons => False
      | _ => s' = go (k (-1, [])) s
      end
  | _ => fun _ _ => False
  end.

End Call.

(** One system call of one process. *)
Inductive nstep (s : net) : net -> Prop :=
| nstep_call i u A (e : sysE A) k s' :
    s.(n_procs) !! i = Some u -> u.(us_status) = None -> calls e k u.(us_prog) ->
    call_step s i u e k s' -> nstep s s'.

Inductive nsteps : nat -> net -> net -> Prop :=
| nsteps_refl s : nsteps 0 s s
| nsteps_step n s1 s2 s3 : nsteps n s1 s2 -> nstep s2 s3 -> nsteps (S n) s1 s3.

End Net.

(** The program as the only process, with the console as its standard input
    and outputs. *)
Definition boot (pid : Z) (t : prog Z) : net :=
  mkNet {[pid := mkUproc t {[0 := Cons; 1 := Cons; 2 := Cons]} 1 0 None]} ∅ [] (pid + 1) 0.

Lemma calls_inj {A B} (e : sysE A) k (e' : sysE B) k' t :
  calls e k t -> calls e' k' t ->
  existT A (e, k) = existT (P := fun A => (sysE A * (A -> prog Z))%type) B (e', k').
Proof.
  induction 1 as [t E|t t' E _ IH]; intros H; destruct H as [t E'|t t'' E' H]; rewrite E in E'; try discriminate E'.
  - injection E' as H1 H2 H3. subst. apply inj_pair2 in H2, H3. by subst.
  - injection E' as ->. by apply IH.
Qed.

Lemma in_use_intro o s j u fd : s.(n_procs) !! j = Some u -> u.(us_fds) !! fd = Some o -> in_use o s = true.
Proof.
  intros Hj Hfd. apply bool_decide_eq_true. exists j, u. split; [exact Hj|]. apply bool_decide_eq_true. exists fd, o. by split.
Qed.

(** Two files for each pipe at most. *)
Lemma pipe_files_bound s : (pipe_files s <= 2 * s.(n_pipe))%nat.
Proof.
  unfold pipe_files, list_sum. generalize 0%nat at 2. generalize s.(n_pipe). intros n. induction n as [|n IH]; intros i; [cbn; lia|].
  cbn [seq map fold_right]. specialize (IH (S i)).
  assert (forall b, Nat.b2n b <= 1)%nat as Hb by (intros []; cbn; lia).
  pose proof (Hb (in_use (Rd i) s)). pose proof (Hb (in_use (Wr i) s)). lia.
Qed.
