(* ===== verification/Script.v ===== *)
(** * Scripts of processes

    The calls of a process when its reads deliver known bytes and its other
    calls succeed, as a finite tree: a branch for each of the two returns of
    [fork]. That a program follows a script is proved on the program alone;
    the interleavings of several processes are then those of their scripts. *)

From Stdlib Require Import Eqdep.
From ITree Require Import ITree ITreeFacts.
From S2P Require Import Prelude Params User UPrintf Net.

(** The results of the calls without an answer here do not matter to the
    program. *)
Inductive script : Type :=
| DoExit (st : Z)
| DoGetpid (k : script)
| DoRead (fd n : Z) (bs : list Z) (k : script)
| DoWrite (fd : Z) (bs : list Z) (k : script)
| DoClose (fd : Z) (k : script)
| DoPipe (p0 p1 : Z) (k : script)
| DoFork (child parent : script)
| DoWait (k : script).

Fixpoint follows (s : script) (t : prog Z) : Prop :=
  match s with
  | DoExit st => exists k, calls (Sys_exit st) k t /\ True
  | DoGetpid s => exists k, calls Sys_getpid k t /\ forall r, follows s (k r)
  | DoRead fd n bs s => exists k, calls (Sys_read fd n) k t /\ follows s (k (Z.of_nat (length bs), bs))
  | DoWrite fd bs s => exists k, calls (Sys_write fd bs) k t /\ forall r, follows s (k r)
  | DoClose fd s => exists k, calls (Sys_close fd) k t /\ forall r, follows s (k r)
  | DoPipe p0 p1 s => exists k, calls Sys_pipe k t /\ follows s (k (0, (p0, p1)))
  | DoFork c s => exists k, calls Sys_fork k t /\ follows c (k 0) /\ forall pid, 0 < pid -> follows s (k pid)
  | DoWait s => exists k, calls Sys_wait k t /\ forall r, follows s (k r)
  end.

(** The number of calls. *)
Fixpoint length_s (s : script) : nat :=
  match s with
  | DoExit _ => 1
  | DoGetpid k | DoRead _ _ _ k | DoWrite _ _ k | DoClose _ k | DoPipe _ _ k | DoWait k => S (length_s k)
  | DoFork c k => S (length_s c + length_s k)
  end.

(** ** Bisimilar programs follow the same scripts *)

Lemma calls_bisim {A} (e : sysE A) k t' : calls e k t' -> forall t, eq_itree eq t t' ->
  exists k', calls e k' t /\ forall x, eq_itree eq (k' x) (k x).
Proof.
  induction 1 as [t' E|t' u E _ IH]; intros t Ht.
  - rewrite (itree_eta t'), E in Ht. apply eqitree_inv_Vis_r in Ht as (k' & E' & Hk). exists k'. split; [by apply calls_vis|done].
  - rewrite (itree_eta t'), E in Ht. apply eqitree_inv_Tau_r in Ht as (v & E' & Hv).
    destruct (IH v Hv) as (k' & Hc & Hk). exists k'. split; [by eapply calls_tau|done].
Qed.

Lemma follows_bisim s : forall t t', eq_itree eq t t' -> follows s t' -> follows s t.
Proof.
  induction s; cbn [follows]; intros t t' Ht (k & Hc & Hk);
    destruct (calls_bisim _ _ _ Hc t Ht) as (k' & Hc' & Hk'); exists k'; (split; [exact Hc'|]); naive_solver.
Qed.

Lemma follows_tau s t t' : observe t = TauF t' -> follows s t' -> follows s t.
Proof.
  intros E. destruct s; cbn [follows]; intros (k & Hc & Hk); exists k; (split; [|exact Hk]); by eapply calls_tau.
Qed.

(** ** Rules *)

Lemma follows_ret {A} s (a : A) (k : A -> prog Z) : follows s (k a) -> follows s (ubind (uret a) k).
Proof. apply follows_bisim. apply bind_ret_l. Qed.

Lemma follows_assoc {A B} s (t : prog A) (h : A -> prog B) (k : B -> prog Z) :
  follows s (ubind t (fun a => ubind (h a) k)) -> follows s (ubind (ubind t h) k).
Proof. apply follows_bisim. apply bind_bind. Qed.

Lemma calls_sys {A} (e : sysE A) (k : A -> prog Z) : calls e (fun a => ubind (uret a) k) (ubind (sys e) k).
Proof. by apply calls_vis. Qed.

Lemma follows_exit {R} st (k : R -> prog Z) : follows (DoExit st) (ubind (exit st) k).
Proof. eexists. split; [|done]. apply calls_vis. unfold exit. by rewrite !observe_ubind. Qed.

Lemma follows_exit_end st : follows (DoExit st) (exit st).
Proof. eexists. split; [|done]. apply calls_vis. unfold exit. by rewrite !observe_ubind. Qed.

Lemma follows_getpid s k : (forall r, follows s (k r)) -> follows (DoGetpid s) (ubind (sys Sys_getpid) k).
Proof. intros H. eexists. split; [apply calls_sys|]. intros r. by apply follows_ret. Qed.

Lemma follows_read fd n bs s k :
  follows s (k (Z.of_nat (length bs), bs)) -> follows (DoRead fd n bs s) (ubind (read fd n) k).
Proof. intros H. eexists. split; [apply calls_sys|]. by apply follows_ret. Qed.

Lemma follows_write fd bs s k : (forall r, follows s (k r)) -> follows (DoWrite fd bs s) (ubind (write fd bs) k).
Proof. intros H. eexists. split; [apply calls_sys|]. intros r. by apply follows_ret. Qed.

Lemma follows_close fd s k : (forall r, follows s (k r)) -> follows (DoClose fd s) (ubind (close fd) k).
Proof. intros H. eexists. split; [apply calls_sys|]. intros r. by apply follows_ret. Qed.

Lemma follows_pipe p0 p1 s k : follows s (k (0, (p0, p1))) -> follows (DoPipe p0 p1 s) (ubind (sys Sys_pipe) k).
Proof. intros H. eexists. split; [apply calls_sys|]. by apply follows_ret. Qed.

Lemma follows_fork c s k :
  follows c (k 0) -> (forall pid, 0 < pid -> follows s (k pid)) -> follows (DoFork c s) (ubind fork k).
Proof.
  intros Hc Hs. eexists. split; [apply calls_sys|]. split; [by apply follows_ret|]. intros pid Hpid. apply follows_ret. by apply Hs.
Qed.

Lemma follows_wait s k : (forall r, follows s (k r)) -> follows (DoWait s) (ubind wait k).
Proof. intros H. eexists. split; [apply calls_sys|]. intros r. by apply follows_ret. Qed.

(** Loops: one turn. *)
Lemma follows_loop {A B} s (body : A -> prog (A + B)) a (k : B -> prog Z) :
  follows s (ubind (body a) (fun r => match r with
    | inl a' => ubind (Tau (loop body a')) k | inr b => k b end)) ->
  follows s (ubind (loop body a) k).
Proof.
  apply follows_bisim. unfold ubind, loop. rewrite unfold_iter, bind_bind. apply eqit_bind; [reflexivity|].
  intros [a'|b]; [reflexivity|]. rewrite bind_ret_l. reflexivity.
Qed.

Lemma follows_again {A B} s (body : A -> prog (A + B)) a (k : B -> prog Z) :
  follows s (ubind (loop body a) k) -> follows s (ubind (Tau (loop body a)) k).
Proof. by apply follows_tau. Qed.

(** Loops over lists that write. *)
Definition writes {A} (fd : Z) (enc : A -> list Z) (l : list A) (s : script) : script :=
  foldr (fun x s => DoWrite fd (enc x) s) s l.

Lemma follows_each {A} fd (enc : A -> list Z) l s (k : unit -> prog Z) :
  follows s (k tt) -> follows (writes fd enc l s) (ubind (each l (fun x => write fd (enc x) ;; uret tt)) k).
Proof.
  intros H. induction l as [|x l IH]; cbn [writes foldr each]; [by apply follows_ret|].
  apply follows_assoc, follows_assoc, follows_write. intros r. by apply follows_ret.
Qed.

Definition prints (bs : list Z) (s : script) : script := writes 1 (fun b => [b]) bs s.

Lemma follows_printf fmt ap s (k : unit -> prog Z) :
  follows s (k tt) -> follows (prints (vprintf_bytes fmt ap) s) (ubind (printf fmt ap) k).
Proof. apply follows_each. Qed.

(** ** The steps of a process that follows a script *)

Lemma calls_elim {A} (e : sysE A) k t (Q : forall B, sysE B -> (B -> prog Z) -> Prop) :
  calls e k t -> Q A e k -> forall B (e' : sysE B) k', calls e' k' t -> Q B e' k'.
Proof.
  intros Hc HQ B e' k' Hc'. pose proof (calls_inj e k e' k' t Hc Hc') as E.
  set (f := fun x : {A & (sysE A * (A -> prog Z))%type} => Q (projT1 x) (fst (projT2 x)) (snd (projT2 x))).
  change (f (existT B (e', k'))). rewrite <- E. exact HQ.
Qed.

Section Steps.
Context (nproc nfile : nat) (s : net) (i : Z) (u : uproc) (s' : net).

(** The process makes its next call. *)
Definition turn : Prop :=
  exists B (e : sysE B) k, calls e k u.(us_prog) /\ call_step nproc nfile s i u e k s'.

Local Ltac head :=
  intros (k & Hc & Hk) (B & e & k' & Hc' & Hs); revert B e k' Hc' Hs;
  match goal with |- forall (B : Type) (e : sysE B) (k' : B -> prog Z), _ -> _ -> ?G =>
    apply (calls_elim _ _ _ (fun B e k' => call_step nproc nfile s i u e k' s' -> G) Hc) end;
  cbn [call_step].

Lemma turn_getpid sc : turn -> follows (DoGetpid sc) u.(us_prog) -> exists t, follows sc t /\ s' = go i u t s.
Proof. intros Ht H. revert H Ht. head. intros ->. eauto. Qed.

Lemma turn_close fd sc : turn -> follows (DoClose fd sc) u.(us_prog) ->
  exists t, follows sc t /\ s' = go_fds i u t (delete fd u.(us_fds)) s.
Proof.
  intros Ht H. revert H Ht. head. destruct (u.(us_fds) !! fd) eqn:E; intros ->; [by eauto|]. unfold go. rewrite delete_id by done. eauto.
Qed.

Lemma turn_print fd bs sc : turn -> follows (DoWrite fd bs sc) u.(us_prog) -> u.(us_fds) !! fd = Some Cons ->
  exists t, follows sc t /\ s' = put_out bs (go i u t s).
Proof. intros Ht H Hfd. revert H Ht. head. rewrite Hfd. intros ->. eauto. Qed.

(** A [write] to a pipe whose buffer has room for all of it or is full. *)
Lemma turn_write fd id bs buf sc :
  turn -> follows (DoWrite fd bs sc) u.(us_prog) -> u.(us_fds) !! fd = Some (Wr id) -> u.(us_sent) = 0%nat ->
  in_use (Rd id) s = true -> s.(n_pipes) !! id = Some buf ->
  (length buf + length bs <= PIPESIZE \/ PIPESIZE <= length buf)%nat ->
  exists t, follows sc t /\ s' = set_pipes <[id := buf ++ bs]> (go i u t s) /\
    (length buf + length bs <= PIPESIZE \/ bs = [])%nat.
Proof.
  intros Ht H Hfd Hsent Hin Hbuf Hroom. revert H Ht. head. rewrite Hfd, Hin, Hbuf, Hsent, drop_0. change (default [] (Some buf)) with buf.
  case_decide as Hd.
  - intros ->. eexists. split; [apply Hk|]. split; [done|]. destruct bs; [by right|left; cbn [length] in *; lia].
  - intros [Hr _]. lia.
Qed.

Lemma turn_read fd id n bs buf sc :
  turn -> follows (DoRead fd n bs sc) u.(us_prog) -> u.(us_fds) !! fd = Some (Rd id) -> s.(n_pipes) !! id = Some buf ->
  (buf <> [] \/ in_use (Wr id) s = false -> take (Z.to_nat n) buf = bs) ->
  (buf <> [] \/ in_use (Wr id) s = false) /\
  exists t, follows sc t /\ s' = set_pipes <[id := drop (Z.to_nat n) buf]> (go i u t s).
Proof.
  intros Ht H Hfd Hbuf Hbs. revert H Ht. head. rewrite Hfd, Hbuf. change (default [] (Some buf)) with buf. intros [Hr ->]. split; [done|].
  specialize (Hbs Hr). subst bs. rewrite length_take in Hk.
  assert (take (length buf `min` Z.to_nat n) buf = take (Z.to_nat n) buf /\ drop (length buf `min` Z.to_nat n) buf = drop (Z.to_nat n) buf) as [-> ->].
  { destruct (decide (Z.to_nat n <= length buf)%nat); [by rewrite Nat.min_r|]. rewrite Nat.min_l by lia.
    by rewrite !take_ge, !drop_ge by lia. }
  rewrite (Nat.min_comm (length buf)). eauto.
Qed.

(** [fork] with room for a process. *)
Lemma turn_fork c sc :
  turn -> follows (DoFork c sc) u.(us_prog) -> (size s.(n_procs) < nproc)%nat -> 0 < s.(n_pid) ->
  exists tc t, follows c tc /\ follows sc t /\
    s' = mkNet (<[s.(n_pid) := mkUproc tc u.(us_fds) i 0 None]> (<[i := mkUproc t u.(us_fds) u.(us_parent) 0 None]> s.(n_procs)))
      s.(n_pipes) s.(n_out) (s.(n_pid) + 1) s.(n_pipe).
Proof.
  intros Ht H Hsz Hpid. revert H Ht. head. rewrite decide_True by done. intros ->. destruct Hk as [Hc' Hk]. eauto 10.
Qed.

(** [pipe] with room for two files. *)
Lemma turn_pipe p0 p1 sc :
  turn -> follows (DoPipe p0 p1 sc) u.(us_prog) -> free_fd u.(us_fds) = Some p0 -> free_fd (<[p0 := Rd s.(n_pipe)]> u.(us_fds)) = Some p1 ->
  (pipe_files s + 2 <= nfile)%nat ->
  exists t, follows sc t /\
    s' = mkNet (<[i := mkUproc t (<[p1 := Wr s.(n_pipe)]> (<[p0 := Rd s.(n_pipe)]> u.(us_fds))) u.(us_parent) 0 None]> s.(n_procs))
      (<[s.(n_pipe) := []]> s.(n_pipes)) s.(n_out) s.(n_pid) (S s.(n_pipe)).
Proof. intros Ht H H0 H1 Hf. revert H Ht. head. rewrite H0, H1, decide_True by done. intros ->. eauto. Qed.

Lemma turn_wait sc :
  turn -> follows (DoWait sc) u.(us_prog) ->
  exists t, follows sc t /\
    ((exists j v, s.(n_procs) !! j = Some v /\ v.(us_parent) = i /\ v.(us_status) <> None /\ s' = set_procs (delete j) (go i u t s)) \/
     (forall j v, s.(n_procs) !! j = Some v -> v.(us_parent) <> i) /\ s' = go i u t s).
Proof.
  intros Ht H. revert H Ht. head. intros [(j & v & st & H1 & H2 & H3 & ->)|[Hno ->]]; [|by eauto 10].
  eexists. split; [apply Hk|]. left. exists j, v. split_and!; [done|done|congruence|done].
Qed.

Lemma turn_exit st :
  turn -> follows (DoExit st) u.(us_prog) ->
  s' = set_procs (fun ps => <[i := mkUproc u.(us_prog) ∅ u.(us_parent) 0 (Some st)]> (orphan i <$> ps)) s.
Proof. intros Ht H. revert H Ht. head. done. Qed.

End Steps.

Arguments follows : simpl never.
Arguments writes : simpl never.
