(* ===== verification/Primes.v ===== *)
(** * primes (user/primes.c)

    The concurrent prime sieve. The global variables [pipe_p] and [pipe_c] are
    an argument of the loops; the recursive call of [primes] in the child is a
    further turn of a loop. An [int] variable that [read] fills is kept as its
    bytes; [junk] are those of the variables that are not initialized. *)

From ITree Require Import ITree.
From S2P Require Import Prelude Params User UPrintf Utils Net Script.

Record globals : Type := mkGlobals { pipe_p : Z * Z; pipe_c : Z * Z }.

Section Primes.
Context (junk : list Z).

(** [read(fd, &v, sizeof(int))] with [old] the bytes of [v] before. *)
Definition read_int (fd : Z) (old : list Z) : prog (Z * list Z) :=
  let! (r, bs) := read fd 4 in
  uret (r, bs ++ drop (length bs) old).

Definition int_of (bs : list Z) : Z := i32 (le_decode bs).

(** The body of the [while] in [primes]; the loop is left with [true] in the
    child, which calls [primes]. *)
Definition primes_while (mypid p : Z) (v : globals * list Z) : prog (globals * list Z + globals * bool) :=
  let '(g, n) := v in
  let! (r, n) := read_int (fst g.(pipe_p)) n in
  if r >? 0 then
    if negb (Z.rem (int_of n) p =? 0) then
      if snd g.(pipe_c) =? -1 then
        let! (r, (c0, c1)) := sys Sys_pipe in
        if r =? -1 then
          printf (str "%d: pipe error" ++ [10]) [UInt mypid] ;;
          exit (-1)
        else
        let! pid := fork in
        if pid =? 0 then
          close c1 ;;
          close (fst g.(pipe_p)) ;;
          uret (inr (mkGlobals (c0, -1) (-1, -1), true))
        else if pid =? -1 then
          printf (str "fork error" ++ [10]) [] ;;
          write c1 n ;;
          uret (inl (mkGlobals g.(pipe_p) (c0, c1), n))
        else
          close c0 ;;
          write c1 n ;;
          uret (inl (mkGlobals g.(pipe_p) (-1, c1), n))
      else
        write (snd g.(pipe_c)) n ;;
        uret (inl (g, n))
    else uret (inl (g, n))
  else uret (inr (g, false)).

(** One call of [primes]. *)
Definition primes_body (g : globals) : prog (globals + Z) :=
  let! mypid := sys Sys_getpid in
  let! (_, p) := read_int (fst g.(pipe_p)) junk in
  printf (str "prime %d" ++ [10]) [UInt (int_of p)] ;;
  let! (g, child) := loop (primes_while mypid (int_of p)) (g, junk) in
  if child : bool then uret (inl g) else
  close (snd g.(pipe_c)) ;;
  wait ;;
  exit 0.

Definition primes (g : globals) : prog Z := loop primes_body g.

Definition primes_main : prog Z :=
  let! (r, (c0, c1)) := sys Sys_pipe in
  let '(c0, c1) := if r =? -1 then (-1, -1) else (c0, c1) in
  let! pid := fork in
  if pid =? 0 then
    close c1 ;;
    primes (mkGlobals (c0, -1) (-1, -1))
  else
    close c0 ;;
    each (zrange 2 279) (fun i => write c1 (le_encode 4 i) ;; uret tt) ;;
    close c1 ;;
    wait ;;
    uret 0.

End Primes.

(** * The scripts of the processes of primes

    Stage [rd inp] of the sieve reads [inp] from descriptor [rd], which is 3
    and 4 in turn along the chain of processes; the write end of the pipe to
    the next stage is descriptor 5. *)

Definition enc (n : Z) : list Z := le_encode 4 n.
Definition line (p : Z) : list Z := vprintf_bytes (str "prime %d" ++ [10]) [UInt p].
Arguments line : simpl never.

(** What a stage passes on. *)
Definition keep (p : Z) (l : list Z) : list Z := filter (fun n => n mod p <> 0) l.

Definition write_end (kid : bool) : Z := if kid then 5 else -1.
Definition finish (kid : bool) : script := DoClose (write_end kid) (DoWait (DoExit 0)).

(** The loop of a stage, with the script of the next stage; [kid]: the next
    stage has been started. *)
Fixpoint loop_s (child : Z -> list Z -> script) (rd p : Z) (kid : bool) (todo : list Z) : script :=
  match todo with
  | [] => DoRead rd 4 [] (finish kid)
  | n :: l =>
      DoRead rd 4 (enc n)
        (if n mod p =? 0 then loop_s child rd p kid l
         else if kid then DoWrite 5 (enc n) (loop_s child rd p true l)
         else DoPipe (7 - rd) 5
           (DoFork (DoClose 5 (DoClose rd (child (7 - rd) (n :: keep p l))))
              (DoClose (7 - rd) (DoWrite 5 (enc n) (loop_s child rd p true l)))))
  end.

Fixpoint stage_s (fuel : nat) (rd : Z) (inp : list Z) : script :=
  match fuel, inp with
  | S fuel', p :: l => DoGetpid (DoRead rd 4 (enc p) (prints (line p) (loop_s (stage_s fuel') rd p false l)))
  | _, _ => DoExit 0
  end.

Definition stage (rd : Z) (inp : list Z) : script := stage_s (length inp) rd inp.

Lemma length_keep p l : (length (keep p l) <= length l)%nat.
Proof. apply length_filter. Qed.

Lemma loop_s_ext c c' rd p kid l :
  (forall rd inp, (length inp <= length l)%nat -> c rd inp = c' rd inp) -> loop_s c rd p kid l = loop_s c' rd p kid l.
Proof.
  revert kid. induction l as [|n l IH]; intros kid H; cbn [loop_s]; [done|].
  assert (forall kid, loop_s c rd p kid l = loop_s c' rd p kid l) as E by (intros kid'; apply IH; intros rd' inp' Hl; apply H; cbn; lia).
  rewrite !E, H; [done|]. cbn. pose proof (length_keep p l). lia.
Qed.

Lemma stage_s_fuel fuel : forall fuel' rd inp, (length inp <= fuel)%nat -> (length inp <= fuel')%nat ->
  stage_s fuel rd inp = stage_s fuel' rd inp.
Proof.
  induction fuel as [|fuel IH]; intros [|fuel'] rd [|p l] H1 H2; cbn [stage_s length] in *; try done; try lia.
  do 3 f_equal. apply loop_s_ext. intros. apply IH; lia.
Qed.

(** The stage without the bound on the number of stages. *)
Lemma stage_eq rd p l : stage rd (p :: l) = DoGetpid (DoRead rd 4 (enc p) (prints (line p) (loop_s stage rd p false l))).
Proof.
  unfold stage at 1. cbn [stage_s length]. do 3 f_equal. apply loop_s_ext. intros rd' inp Hl. apply stage_s_fuel; lia.
Qed.

(** ** The program follows the script *)

(** The numbers in the pipes. *)
Definition num (n : Z) : Prop := 0 < n < 2 ^ 31.

Lemma length_enc n : length (enc n) = 4%nat.
Proof. apply length_le_encode. Qed.

Lemma int_of_enc n : num n -> int_of (enc n) = n.
Proof.
  intros [H1 H2]. unfold int_of, enc. rewrite le_decode_encode. change (8 * Z.of_nat 4) with 32. unfold i32, signed. cbv zeta.
  rewrite (Z.mod_small n), (Z.mod_small n) by lia. case_match; lia.
Qed.

Lemma keep_num p l : Forall num l -> Forall num (keep p l).
Proof. rewrite !Forall_forall. intros H n [_ Hn]%list_elem_of_filter. by apply H. Qed.

Section Follows.
Context (junk : list Z) (Hjunk : length junk = 4%nat).

Lemma follows_read_int {n fd old s k} :
  length old = 4%nat -> follows s (k (4, enc n)) -> follows (DoRead fd 4 (enc n) s) (ubind (read_int fd old) k).
Proof.
  intros Ho H. apply follows_assoc, follows_read, follows_ret. rewrite length_enc, drop_ge, app_nil_r by lia. exact H.
Qed.

Lemma follows_read_eof {fd old s k} :
  follows s (k (0, old)) -> follows (DoRead fd 4 [] s) (ubind (read_int fd old) k).
Proof. intros H. by apply follows_assoc, follows_read, follows_ret. Qed.

Definition vars (rd : Z) (kid : bool) : globals := mkGlobals (rd, -1) (-1, write_end kid).

Lemma loop_follows rd p mypid (child : Z -> list Z -> script) (k : globals * bool -> prog Z) todo : forall kid n0,
  0 < p -> Forall num todo -> length n0 = 4%nat ->
  (forall kid, follows (finish kid) (k (vars rd kid, false))) ->
  (forall n l, (length l < length todo)%nat -> Forall num (n :: l) ->
     follows (child (7 - rd) (n :: keep p l)) (k (vars (7 - rd) false, true))) ->
  follows (loop_s child rd p kid todo) (ubind (loop (primes_while mypid p) (vars rd kid, n0)) k).
Proof.
  induction todo as [|n l IH]; intros kid n0 Hp Hnum Hn0 Hend Hchild; cbn [loop_s].
  - apply follows_loop, follows_assoc, follows_read_eof. cbn. by apply follows_ret.
  - apply Forall_cons in Hnum as [Hn Hnum].
    assert (forall kid, follows (loop_s child rd p kid l) (ubind (Tau (loop (primes_while mypid p) (vars rd kid, enc n))) k)) as Hnext.
    { intros kid'. apply follows_again, IH; try done. intros n' l' Hl'. apply Hchild. cbn. lia. }
    apply follows_loop, follows_assoc. eapply follows_read_int; [done|]. cbn [fst snd Z.gtb Z.compare].
    rewrite int_of_enc, Z.rem_mod_nonneg by (unfold num in Hn; lia || done).
    destruct (n mod p =? 0); cbn [negb]; [by apply follows_ret|].
    cbn [vars pipe_c snd]. destruct kid; cbn [write_end Z.eqb].
    + apply follows_assoc, follows_write. intros _. by apply follows_ret.
    + apply follows_assoc, follows_pipe. cbn [Z.eqb]. apply follows_assoc, follows_fork.
      * cbn [Z.eqb]. apply follows_assoc, follows_close. intros _. apply follows_assoc, follows_close. intros _.
        apply follows_ret. apply Hchild; [cbn; lia|by constructor].
      * intros pid Hpid. rewrite (proj2 (Z.eqb_neq pid 0)), (proj2 (Z.eqb_neq pid (-1))) by lia.
        apply follows_assoc, follows_close. intros _. apply follows_assoc, follows_write. intros _. apply follows_ret. exact (Hnext true).
Qed.

Lemma stage_follows len : forall rd inp (k : Z -> prog Z),
  (length inp <= len)%nat -> inp <> [] -> Forall num inp ->
  follows (stage rd inp) (ubind (primes junk (vars rd false)) k).
Proof.
  induction len as [|len IH]; intros rd [|p l] k Hlen Hne Hnum; try done; [cbn in Hlen; lia|].
  apply Forall_cons in Hnum as [Hp Hnum]. rewrite stage_eq. apply follows_loop. unfold primes_body at 1.
  apply follows_assoc, follows_getpid. intros mypid.
  apply follows_assoc. eapply follows_read_int; [done|]. rewrite int_of_enc by done.
  apply follows_assoc, follows_printf, follows_assoc.
  apply loop_follows; [apply Hp|done|done| |].
  - intros kid. cbn [vars pipe_c snd]. apply follows_assoc, follows_close. intros _.
    apply follows_assoc, follows_wait. intros _. apply follows_exit.
  - intros n l' Hl' Hn. apply follows_ret, follows_again. apply IH; [|done|].
    + cbn [length] in *. pose proof (length_keep p l'). lia.
    + apply Forall_cons in Hn as [? ?]. constructor; [done|]. by apply keep_num.
Qed.

(** The whole program, which feeds the first stage. *)
Definition main_s (nums : list Z) : script :=
  DoPipe 3 4 (DoFork (DoClose 4 (stage 3 nums))
    (DoClose 3 (writes 4 enc nums (DoClose 4 (DoWait (DoExit 0)))))).

Lemma main_follows : follows (main_s (zrange 2 279)) (start (primes_main junk)).
Proof.
  apply follows_assoc, follows_pipe. cbn [Z.eqb]. apply follows_assoc, follows_fork.
  - cbn [Z.eqb]. apply follows_assoc, follows_close. intros _.
    apply (stage_follows 279); [by rewrite length_zrange|done|]. apply Forall_forall. intros n Hn%elem_of_zrange. unfold num. lia.
  - intros pid Hpid. rewrite (proj2 (Z.eqb_neq pid 0)) by lia. apply follows_assoc, follows_close. intros _.
    apply follows_assoc. apply (follows_each 4 enc). apply follows_assoc, follows_close. intros _.
    apply follows_assoc, follows_wait. intros _. apply follows_ret, follows_exit_end.
Qed.

End Follows.
