(* ===== verification/PrimesNet.v ===== *)
(** * The chain of processes of primes

    An abstract state of the whole system: for each process of the chain the
    place in its script and the numbers it has still to read. Process 0 is
    [main], process [S i] is the stage that reads pipe [i] and prints the
    [i]-th prime. The invariant ties the pipes to what the two processes at
    their ends have still to do, and holds in every reachable state. *)

From ITree Require Import ITree.
From S2P Require Import Prelude Params User UPrintf Utils Primes Net Script.

(** ** The numbers that the chain prints *)

Fixpoint sieve_f (fuel : nat) (l : list Z) : list Z :=
  match fuel, l with
  | S fuel', p :: l' => p :: sieve_f fuel' (keep p l')
  | _, _ => []
  end.
Definition sieve (l : list Z) : list Z := sieve_f (length l) l.

Lemma sieve_f_fuel fuel : forall fuel' l, (length l <= fuel)%nat -> (length l <= fuel')%nat -> sieve_f fuel l = sieve_f fuel' l.
Proof.
  induction fuel as [|fuel IH]; intros [|fuel'] [|p l] H1 H2; cbn [sieve_f length] in *; try done; try lia.
  f_equal. pose proof (length_keep p l). apply IH; lia.
Qed.

Lemma sieve_cons p l : sieve (p :: l) = p :: sieve (keep p l).
Proof. unfold sieve. cbn [sieve_f length]. f_equal. apply sieve_f_fuel; [apply length_keep|done]. Qed.

(** ** Abstract states *)

(** [Init cl]: a new stage that has the descriptors [cl] to close. The phases
    from [Pipe] to [Put] are those of a stage with a number to pass on. *)
Inductive phase : Type :=
| MPipe | MFork | MDrop | Feed
| Init (cl : list Z) | First | Print (bs : list Z) | Loop
| Pipe (n : Z) | Fork (n : Z) | Drop (n : Z) | Put (n : Z)
| Shut | Await | Leave | Dead | Gone.

(** [todo]: the numbers still to read, those still to write for [main]. *)
Record astate : Type := mkA { ph : phase; prime : Z; todo : list Z; kid : bool }.

(** The descriptors: a stage reads from 3 and 4 in turn. *)
Fixpoint rd (i : nat) : Z := match i with O => 4 | S j => 7 - rd j end.
Definition wfd (i : nat) : Z := match i with O => 4 | S _ => 5 end.

Lemma rd_cases i : rd i = 3 \/ rd i = 4.
Proof. induction i; cbn [rd]; lia. Qed.

Definition script_of (i : nat) (a : astate) : script :=
  let main_end := DoClose 4 (DoWait (DoExit 0)) in
  let next := loop_s stage (rd i) a.(prime) true a.(todo) in
  match a.(ph) with
  | MPipe => main_s a.(todo)
  | MFork => DoFork (DoClose 4 (stage 3 a.(todo))) (DoClose 3 (writes 4 enc a.(todo) main_end))
  | MDrop => DoClose 3 (writes 4 enc a.(todo) main_end)
  | Feed => writes 4 enc a.(todo) main_end
  | Init cl => foldr DoClose (stage (rd i) a.(todo)) cl
  | First =>
      match a.(todo) with
      | p :: l => DoRead (rd i) 4 (enc p) (prints (line p) (loop_s stage (rd i) p false l))
      | [] => DoExit 0
      end
  | Print bs => prints bs (loop_s stage (rd i) a.(prime) false a.(todo))
  | Loop => loop_s stage (rd i) a.(prime) a.(kid) a.(todo)
  | Pipe n =>
      DoPipe (7 - rd i) 5 (DoFork (DoClose 5 (DoClose (rd i) (stage (7 - rd i) (n :: keep a.(prime) a.(todo)))))
        (DoClose (7 - rd i) (DoWrite 5 (enc n) next)))
  | Fork n =>
      DoFork (DoClose 5 (DoClose (rd i) (stage (7 - rd i) (n :: keep a.(prime) a.(todo)))))
        (DoClose (7 - rd i) (DoWrite 5 (enc n) next))
  | Drop n => DoClose (7 - rd i) (DoWrite 5 (enc n) next)
  | Put n => DoWrite 5 (enc n) next
  | Shut => finish a.(kid)
  | Await => DoWait (DoExit 0)
  | Leave => DoExit 0
  | Dead | Gone => DoExit 0
  end.

(** The descriptors of a process. *)
Definition std : gmap Z end_of := {[0 := Cons; 1 := Cons; 2 := Cons]}.
Definition own (i : nat) : gmap Z end_of := match i with O => std | S j => <[rd i := Rd j]> std end.
Definition with_out (i : nat) : gmap Z end_of := <[wfd i := Wr i]> (own i).

Definition fds_of (i : nat) (a : astate) : gmap Z end_of :=
  match a.(ph) with
  | MPipe => std
  | MFork | MDrop => <[4 := Wr 0]> (<[3 := Rd 0]> std)
  | Feed | Put _ => with_out i
  | Init cl =>
      match cl, i with
      | [_; _], S (S j) => <[5 := Wr (S j)]> (<[rd (S j) := Rd j]> (own i))
      | [_], S (S j) => <[rd (S j) := Rd j]> (own i)
      | [_], S O => <[4 := Wr 0]> (own i)
      | _, _ => own i
      end
  | First | Print _ | Pipe _ | Await | Leave => own i
  | Loop | Shut => if a.(kid) then with_out i else own i
  | Fork _ | Drop _ => <[5 := Wr i]> (<[7 - rd i := Rd i]> (own i))
  | Dead | Gone => ∅
  end.

(** The numbers it has still to write. *)
Definition to_write (a : astate) : list Z :=
  match a.(ph) with
  | MPipe | MFork | MDrop | Feed => a.(todo)
  | Init _ | First => match a.(todo) with p :: l => keep p l | [] => [] end
  | Print _ | Loop => keep a.(prime) a.(todo)
  | Pipe n | Fork n | Drop n | Put n => n :: keep a.(prime) a.(todo)
  | _ => []
  end.

(** What it has still to print, and the prime it is for. *)
Definition to_print (a : astate) : list Z :=
  match a.(ph) with
  | Init _ | First => match a.(todo) with p :: _ => line p | [] => [] end
  | Print bs => bs
  | _ => []
  end.
Definition prime_of (a : astate) : Z :=
  match a.(ph) with Init _ | First => hd 0 a.(todo) | _ => a.(prime) end.

(** It has the write end of its pipe. *)
Definition writing (a : astate) : bool :=
  match a.(ph) with
  | MFork | MDrop | Feed | Fork _ | Drop _ | Put _ => true
  | Loop | Shut => a.(kid)
  | _ => false
  end.

Definition weight (i : nat) (a : astate) : nat :=
  match a.(ph) with Dead | Gone => 0 | _ => length_s (script_of i a) end.

(** ** The invariant *)

(** A single process: [main] is number 0, and what each phase says of the
    numbers and of the next stage. *)
Definition phase_ok (i : nat) (a : astate) : Prop :=
  match a.(ph) with
  | MPipe | MFork => i = 0%nat /\ a.(kid) = false /\ a.(todo) <> []
  | MDrop | Feed => i = 0%nat /\ a.(kid) = true
  | Init cl => i <> 0%nat /\ a.(kid) = false /\ a.(todo) <> [] /\
      match cl with
      | [] => True
      | [c] => c = (if i is 1%nat then 4 else 7 - rd i)
      | [c1; c2] => c1 = 5 /\ c2 = 7 - rd i /\ i <> 1%nat
      | _ => False
      end
  | First => i <> 0%nat /\ a.(kid) = false /\ a.(todo) <> []
  | Print bs => i <> 0%nat /\ a.(kid) = false /\ 0 < a.(prime) /\ bs <> []
  | Loop => i <> 0%nat /\ 0 < a.(prime)
  | Pipe n | Fork n => i <> 0%nat /\ a.(kid) = false /\ num n /\ 0 < a.(prime)
  | Drop n | Put n => i <> 0%nat /\ a.(kid) = true /\ num n /\ 0 < a.(prime)
  | Shut => i <> 0%nat /\ a.(todo) = []
  | Await | Leave | Dead => a.(todo) = []
  | Gone => i <> 0%nat /\ a.(todo) = []
  end.

Record one_ok (i : nat) (a : astate) : Prop := {
  oo_phase : phase_ok i a;
  oo_num : Forall num a.(todo);
}.

(** Two neighbours and the pipe between them. *)
Record link (a b : astate) (buf : option (list Z)) : Prop := {
  ln_kid : a.(kid) = true;
  ln_gone : b.(ph) = Gone <-> a.(ph) = Leave \/ a.(ph) = Dead \/ a.(ph) = Gone;
  ln_end : b.(ph) = Shut \/ b.(ph) = Await \/ b.(ph) = Leave \/ b.(ph) = Dead -> a.(ph) = Await;
  ln_buf : exists l, buf = Some (concat (map enc l)) /\ b.(todo) = l ++ to_write a /\ (4 * length l <= PIPESIZE)%nat;
}.

Section Chain.
Context (nproc nfile : nat) (P : Z) (nums : list Z).

Definition parent_of (i : nat) : Z := match i with O => 1 | S j => P + Z.of_nat j end.

Definition proc_ok (i : nat) (a : astate) (ou : option uproc) : Prop :=
  match a.(ph) with
  | Gone => ou = None
  | Dead => exists u, ou = Some u /\ u.(us_status) <> None /\ u.(us_fds) = ∅ /\ u.(us_parent) = parent_of i
  | _ => exists t, ou = Some (mkUproc t (fds_of i a) (parent_of i) 0 None) /\ follows (script_of i a) t
  end.

(** The state of the last process of the chain. *)
Definition pipes_of (n : nat) (a : astate) : nat :=
  match a.(ph) with MFork | Fork _ => S n | _ => n end.

Record inv (A : list astate) (s : net) (done : nat) : Prop := {
  iv_proc : forall i a, A !! i = Some a -> proc_ok i a (s.(n_procs) !! (P + Z.of_nat i));
  iv_none : forall j, (j < P \/ P + Z.of_nat (length A) <= j) -> s.(n_procs) !! j = None;
  iv_one : forall i a, A !! i = Some a -> one_ok i a;
  iv_link : forall i a b, A !! i = Some a -> A !! S i = Some b -> link a b (s.(n_pipes) !! i);
  iv_pid : s.(n_pid) = P + Z.of_nat (length A);
  iv_last : exists a, last A = Some a /\ a.(kid) = false /\
    s.(n_pipe) = pipes_of (length A - 1) a /\
    (writing a = true -> s.(n_pipes) !! (length A - 1)%nat = Some []) /\
    sieve nums = map prime_of (tail A) ++ sieve (to_write a) /\
    s.(n_out) ++ to_print a = concat (map line (map prime_of (tail A)));
  iv_weight : (done + list_sum (imap weight A) = length_s (main_s nums))%nat;
}.

(** ** Steps of one process *)

Lemma sum_insert {B} (f : nat -> B -> nat) (A : list B) : forall i a a',
  A !! i = Some a -> (list_sum (imap f (<[i := a']> A)) + f i a = list_sum (imap f A) + f i a')%nat.
Proof.
  revert f. induction A as [|b A IH]; intros f [|i] a a' H; cbn in H; try discriminate H.
  - injection H as ->. cbn. lia.
  - specialize (IH (f ∘ S) i a a' H). change (<[S i := a']> (b :: A)) with (b :: <[i := a']> A).
    rewrite !imap_cons. unfold list_sum in *. cbn [fold_right]. unfold compose in IH at 2 4. lia.
Qed.

Lemma tail_insert (A : list astate) i a a' :
  A !! i = Some a -> (i <> 0%nat -> prime_of a' = prime_of a) -> map prime_of (tail (<[i := a']> A)) = map prime_of (tail A).
Proof.
  destruct A as [|b A]; [done|]. destruct i as [|i]; [done|]. intros H Hp. specialize (Hp ltac:(done)).
  change (tail (<[S i := a']> (b :: A))) with (<[i := a']> A). change (A !! i = Some a) in H. cbn [tail].
  revert i H. induction A as [|c A IH]; intros [|i] H; cbn in H; try discriminate H.
  - injection H as ->. cbn. by rewrite Hp.
  - change (<[S i := a']> (c :: A)) with (c :: <[i := a']> A). cbn [map]. by rewrite IH.
Qed.

Lemma last_at (A : list astate) a : last A = Some a -> A !! (length A - 1)%nat = Some a.
Proof. rewrite last_lookup. by replace (pred (length A)) with (length A - 1)%nat by lia. Qed.

(** A step that changes the state of one process, one or both of its pipes,
    and the output. *)
Lemma inv_update A s k i a a' t s' :
  inv A s k -> A !! i = Some a ->
  s'.(n_procs) = <[P + Z.of_nat i := mkUproc t (fds_of i a') (parent_of i) 0 None]> s.(n_procs) ->
  a'.(ph) <> Dead -> a'.(ph) <> Gone -> follows (script_of i a') t -> one_ok i a' -> a'.(kid) = a.(kid) ->
  (forall j, j <> i -> S j <> i -> s'.(n_pipes) !! j = s.(n_pipes) !! j) ->
  (forall j p, i = S j -> A !! j = Some p -> link p a (s.(n_pipes) !! j) -> link p a' (s'.(n_pipes) !! j)) ->
  (forall b, A !! S i = Some b -> link a b (s.(n_pipes) !! i) -> link a' b (s'.(n_pipes) !! i)) ->
  s'.(n_pid) = s.(n_pid) ->
  (i <> 0%nat -> prime_of a' = prime_of a) ->
  (S i <> length A -> s'.(n_pipe) = s.(n_pipe) /\ s'.(n_out) = s.(n_out)) ->
  (S i = length A -> s'.(n_pipe) = pipes_of i a' /\ (writing a' = true -> s'.(n_pipes) !! i = Some []) /\
     sieve (to_write a') = sieve (to_write a) /\ s'.(n_out) ++ to_print a' = s.(n_out) ++ to_print a) ->
  weight i a = S (weight i a') ->
  inv (<[i := a']> A) s' (S k).
Proof.
  intros [Hproc Hnone Hone Hlink Hpid (z & Hz & Hzk & Hzp & Hzb & Hzs & Hzo) Hw] Hi Ep Hd Hg Hfol Hok Hk Hpipes Hl Hr Epid Hprime Hmid Hlast Hwt.
  assert (i < length A)%nat as Hlt by (by apply lookup_lt_Some in Hi).
  assert (forall j x, <[i := a']> A !! j = Some x -> j = i /\ x = a' \/ j <> i /\ A !! j = Some x) as Hget.
  { intros j x Hj. destruct (decide (j = i)) as [->|]; [rewrite list_lookup_insert_eq in Hj by done; left; by injection Hj|].
    rewrite list_lookup_insert_ne in Hj by done. by right. }
  constructor.
  - intros j x [[-> ->]|[Hj Hx]]%Hget; rewrite Ep.
    + rewrite lookup_insert_eq. unfold proc_ok. destruct (ph a'); try done; eauto.
    + rewrite lookup_insert_ne by lia. by apply Hproc.
  - intros j Hj. rewrite length_insert in Hj. rewrite Ep, lookup_insert_ne by lia. by apply Hnone.
  - intros j x [[-> ->]|[Hj Hx]]%Hget; [done|]. by apply Hone.
  - intros j x y Hx Hy. apply Hget in Hx as [[-> ->]|[Hj Hx]], Hy as [[E ->]|[Hj' Hy]]; try lia.
    + apply Hr; [done|]. by apply Hlink.
    + subst i. apply (Hl j); [done|done|]. by apply Hlink.
    + rewrite Hpipes by done. by apply Hlink.
  - by rewrite Epid, length_insert.
  - rewrite length_insert, (tail_insert A i a) by done. destruct (decide (S i = length A)) as [E|E].
    + destruct (Hlast E) as (H1 & H2 & H3 & H4). exists a'.
      assert (z = a) as ->. { apply last_at in Hz. replace (length A - 1)%nat with i in Hz by lia. rewrite Hi in Hz. by injection Hz. }
      replace (length A - 1)%nat with i in * by lia. split_and!; [|congruence|done|done|by rewrite H3|by rewrite H4].
      rewrite last_lookup, length_insert. replace (pred (length A)) with i by lia. by rewrite list_lookup_insert_eq.
    + destruct (Hmid E) as (H1 & H2). exists z. apply last_at in Hz as Hz'. rewrite H1, H2.
      split_and!; [|done|done| |done|done].
      * rewrite last_lookup, length_insert in *. rewrite list_lookup_insert_ne by lia. done.
      * intros Hwr. rewrite Hpipes; [by apply Hzb|lia|lia].
  - pose proof (sum_insert weight A i a a' Hi). lia.
Qed.

(** ** What neighbours know of each other *)

Lemma inv_alive A s k i a : inv A s k -> A !! i = Some a -> a.(ph) <> Dead -> a.(ph) <> Gone ->
  exists t, s.(n_procs) !! (P + Z.of_nat i) = Some (mkUproc t (fds_of i a) (parent_of i) 0 None) /\ follows (script_of i a) t.
Proof.
  intros Hinv Hi Hd Hg. pose proof (iv_proc _ _ _ Hinv i a Hi) as H. unfold proc_ok in H. by destruct (ph a).
Qed.

Lemma writing_fd i a : phase_ok i a -> writing a = true -> fds_of i a !! wfd i = Some (Wr i).
Proof.
  unfold phase_ok, writing, fds_of, with_out. destruct (ph a); try done; try (intros [-> _] _; done); intros Hok Hw;
    rewrite ?Hw; try (by rewrite lookup_insert_eq); destruct i; try (by destruct Hok); by rewrite lookup_insert_eq.
Qed.

Lemma reading_fd j b : b.(ph) <> Dead -> b.(ph) <> Gone -> phase_ok (S j) b -> fds_of (S j) b !! rd (S j) = Some (Rd j).
Proof.
  intros Hd Hg. assert (own (S j) !! rd (S j) = Some (Rd j)) as Ho by apply lookup_insert_eq.
  assert (rd (S j) <> 5 /\ rd (S j) <> 7 - rd (S j)) as [H5 H7] by (destruct (rd_cases (S j)); lia).
  assert (rd (S j) <> rd j) as Hj by (cbn [rd]; destruct (rd_cases j); lia).
  unfold phase_ok, fds_of, with_out. destruct (ph b) as [| | | |cl| | | | | | | | | | | |]; try done; cbn [wfd]; intros Hok;
    try (by destruct Hok as [? _]); try done; try (case_match; [|done]); try (by rewrite !lookup_insert_ne by done).
  destruct cl as [|c [|c2 [|]]]; try done; destruct j as [|j]; try done; try (by rewrite !lookup_insert_ne by (cbn [rd] in *; lia)).
Qed.

Lemma writer_in_use A s k j p : inv A s k -> A !! j = Some p -> writing p = true -> in_use (Wr j) s = true.
Proof.
  intros Hinv Hj Hw. assert (p.(ph) <> Dead /\ p.(ph) <> Gone) as [Hd Hg] by (unfold writing in Hw; by destruct (ph p)).
  destruct (inv_alive A s k j p Hinv Hj Hd Hg) as (t & Hp & _). eapply in_use_intro; [exact Hp|].
  apply writing_fd; [by apply (iv_one _ _ _ Hinv)|done].
Qed.

Lemma reader_in_use A s k j b : inv A s k -> A !! S j = Some b -> b.(ph) <> Dead -> b.(ph) <> Gone -> in_use (Rd j) s = true.
Proof.
  intros Hinv Hj Hd Hg. destruct (inv_alive A s k (S j) b Hinv Hj Hd Hg) as (t & Hp & _). eapply in_use_intro; [exact Hp|].
  apply reading_fd; [done|done|]. by apply (iv_one _ _ _ Hinv).
Qed.

(** Who has the write end of a pipe. *)
Lemma writer_is i a fd j : phase_ok i a -> fds_of i a !! fd = Some (Wr j) ->
  (i = j /\ writing a = true) \/ (i = S j /\ exists cl, a.(ph) = Init cl).
Proof.
  assert (forall fd, std !! fd <> Some (Wr j)) as Hstd.
  { intros fd' H. unfold std in H. rewrite !lookup_insert_Some, lookup_singleton_Some in H. naive_solver. }
  assert (forall i fd, own i !! fd <> Some (Wr j)) as Hown.
  { intros [|i'] fd' H; cbn [own] in H; [by apply (Hstd fd')|]. apply lookup_insert_Some in H as [[_ [=]]|[_ H]]. by apply (Hstd fd'). }
  unfold phase_ok, fds_of, with_out, writing. destruct (ph a) as [| | | |cl| | | | | | | | | | | |]; intros Hok H;
    repeat match goal with
    | H : <[_ := _]> _ !! _ = Some _ |- _ => apply lookup_insert_Some in H as [[_ ?]|[_ H]]; simplify_eq
    | H : own _ !! _ = Some _ |- _ => by apply Hown in H
    | H : std !! _ = Some _ |- _ => by apply Hstd in H
    | H : (if ?b then _ else _) !! _ = Some _ |- _ => destruct b
    | H : ∅ !! _ = Some _ |- _ => by rewrite lookup_empty in H
    end; try (by left; naive_solver).
  right. destruct cl as [|c [|c2 [|]]]; try (by apply Hown in H); destruct i as [|[|i]]; try (by apply Hown in H); try (by destruct Hok);
    repeat match goal with
    | H : <[_ := _]> _ !! _ = Some _ |- _ => apply lookup_insert_Some in H as [[_ ?]|[_ H]]; simplify_eq
    | H : own _ !! _ = Some _ |- _ => by apply Hown in H
    end; by eauto.
Qed.

(** A process that has closed its pipe to a stage that still runs waits for it. *)
Lemma link_closed j p b buf : phase_ok j p -> link p b buf -> b.(ph) <> Gone -> writing p = false -> p.(ph) = Await.
Proof.
  intros Hok [Hk Hg _ _] Hb Hw. unfold phase_ok, writing in *. destruct (ph p) eqn:E; try done; try naive_solver congruence.
Qed.

(** How the links of a process change with its state. *)
Definition ending (a : astate) : Prop := a.(ph) = Shut \/ a.(ph) = Await \/ a.(ph) = Leave \/ a.(ph) = Dead.
Definition leaving (a : astate) : Prop := a.(ph) = Leave \/ a.(ph) = Dead \/ a.(ph) = Gone.

Lemma link_left p a a' buf :
  link p a buf -> a'.(todo) = a.(todo) -> a.(ph) <> Gone -> a'.(ph) <> Gone -> (ending a' -> ending a) -> link p a' buf.
Proof.
  intros [H1 H2 H3 H4] Et Hg Hg' He. constructor; [done|tauto| |by rewrite Et]. intros He'. by apply H3, He.
Qed.

Lemma link_right a a' b buf :
  link a b buf -> to_write a' = to_write a -> a'.(kid) = a.(kid) -> ~ leaving a -> ~ leaving a' ->
  (a'.(ph) = Await \/ a.(ph) <> Await) -> link a' b buf.
Proof.
  intros [H1 H2 H3 H4] Et Hk Hl Hl' Ha. constructor; [congruence| | |by rewrite Et].
  - unfold leaving in *. tauto.
  - intros He. destruct Ha as [Ha|Ha]; [done|]. by apply H3 in He.
Qed.

Lemma link_put a a' b l n :
  link a b (Some l) -> to_write a = n :: to_write a' -> a'.(kid) = a.(kid) -> ~ leaving a -> ~ leaving a' -> ~ ending a ->
  (length l + 4 <= PIPESIZE)%nat -> link a' b (Some (l ++ enc n)).
Proof.
  intros [H1 H2 H3 (ns & Ens & Et & Hl)] Ew Hk Hla Hl' He Hroom. injection Ens as ->. constructor; [congruence| | |].
  - unfold leaving, ending in *. tauto.
  - intros Hb. exfalso. apply He. right. left. by apply H3.
  - exists (ns ++ [n]). split; [by rewrite map_app, concat_app; cbn [map concat]; rewrite app_nil_r|].
    split; [by rewrite Et, Ew, <- (assoc_L (++))|]. rewrite length_app. cbn [length].
    assert (forall ns, length (concat (map enc ns)) = 4 * length ns)%nat as Hlen.
    { intros l. induction l as [|x l IH]; [done|]. cbn [map concat length]. rewrite length_app, IH, length_enc. lia. }
    rewrite Hlen in Hroom. lia.
Qed.

Lemma link_get p a a' l n :
  link p a (Some l) -> l <> [] -> a.(todo) = n :: a'.(todo) -> a.(ph) <> Gone -> a'.(ph) <> Gone -> ~ ending a' ->
  take 4 l = enc n /\ link p a' (Some (drop 4 l)).
Proof.
  intros [H1 H2 H3 (ns & Ens & Et & Hl)] Hne Ea Hg Hg' He. injection Ens as ->. destruct ns as [|n' ns]; [done|].
  rewrite Ea in Et. cbn [app] in Et. injection Et as -> Et. cbn [map concat].
  rewrite take_app_length', drop_app_length' by (by rewrite length_enc). split; [done|]. constructor; [done|tauto| |].
  - by intros ?.
  - exists ns. split_and!; [done|done|]. cbn [length] in Hl. lia.
Qed.

(** A stage at the end of its input, and the one before it. *)
Lemma link_eof p a l : link p a (Some l) -> a.(todo) = [] -> l = [] /\ to_write p = [].
Proof.
  intros [H1 H2 H3 (ns & Ens & Et & Hl)] Ea. injection Ens as ->. rewrite Ea in Et. symmetry in Et. apply app_eq_nil in Et as [-> ->]. done.
Qed.

End Chain.
