(* ===== verification/PrimesSteps.v ===== *)
(** * Steps of the processes of primes

    Every system call of every process preserves the invariant of the chain,
    one lemma for each phase. *)

From ITree Require Import ITree.
From S2P Require Import Prelude Params User UPrintf Utils Primes Net Script PrimesNet.

(** The phase after a character is printed. *)
Definition after_print (bs : list Z) : phase := match bs with [] => Loop | _ => Print bs end.

(** Conditions on the phase. *)
Ltac shape := lazymatch goal with
  | |- context [weight] => fail
  | |- _ => unfold leaving, ending; cbn [ph kid todo to_write to_print prime_of pipes_of writing after_print]; naive_solver
  end.

(** The room for processes and files that the chain needs. *)
Definition enough (nproc nfile : nat) (P : Z) (nums : list Z) : Prop :=
  1 < P /\ (1 + length (sieve nums) <= nproc)%nat /\ (2 * length (sieve nums) <= nfile)%nat.

Section Steps.
Context (nproc nfile : nat) (P : Z) (nums : list Z) (Henough : enough nproc nfile P nums).

Notation inv := (inv P nums).

(** A call that changes only the descriptors. *)
Lemma inv_go A s k i a a' u t :
  inv A s k -> A !! i = Some a -> u.(us_parent) = parent_of P i ->
  follows (script_of i a') t -> one_ok i a' -> a'.(kid) = a.(kid) -> a'.(todo) = a.(todo) -> to_write a' = to_write a ->
  ~ leaving a -> ~ leaving a' -> (i <> 0%nat -> ending a' -> ending a) -> (a'.(ph) = Await \/ a.(ph) <> Await) ->
  (i <> 0%nat -> prime_of a' = prime_of a) -> to_print a' = to_print a ->
  pipes_of i a' = pipes_of i a -> (writing a' = true -> writing a = true) ->
  weight i a = S (weight i a') ->
  inv (<[i := a']> A) (go_fds (P + Z.of_nat i) u t (fds_of i a') s) (S k).
Proof.
  intros Hinv Hi Hu Hfol Hone Hk Ht Hw Hl Hl' He Ha Hp Hpr Hpi Hwr Hwt.
  destruct (iv_last _ _ _ _ _ Hinv) as (z & Hz & _ & Hzp & Hzb & _).
  apply (inv_update P nums A s k i a a' t); try done.
  - unfold go_fds. cbn [set_procs n_procs]. by rewrite Hu.
  - unfold leaving in Hl'. tauto.
  - unfold leaving in Hl'. tauto.
  - intros j p -> Hj Hlk. eapply link_left; [exact Hlk|done|unfold leaving in *; tauto|unfold leaving in *; tauto|by apply He].
  - intros b Hb Hlk. by eapply link_right.
  - intros Hlast. apply last_at in Hz. replace (length A - 1)%nat with i in * by lia. rewrite Hi in Hz. injection Hz as <-.
    split_and!; [cbn; congruence|intros H; apply Hzb, Hwr, H|by rewrite Hw|cbn; by rewrite Hpr].
Qed.

(** The descriptors of a stage. *)
Lemma std_none fd : 3 <= fd \/ fd < 0 -> std !! fd = None.
Proof. intros H. unfold std. rewrite !lookup_insert_ne by lia. apply lookup_singleton_ne. lia. Qed.

Lemma own_none i fd : 3 <= fd \/ fd < 0 -> (i <> 0%nat -> fd <> rd i) -> own i !! fd = None.
Proof.
  intros H Hrd. destruct i as [|j]; cbn [own]; [by apply std_none|]. rewrite lookup_insert_ne by (specialize (Hrd ltac:(done)); lia).
  by apply std_none.
Qed.

(** Process [i] makes its next call. *)
Record at_turn (A : list astate) (s : net) (k i : nat) (a : astate) (s' : net) : Prop := {
  at_inv : inv A s k;
  at_i : A !! i = Some a;
  at_call : exists t, follows (script_of i a) t /\
    turn nproc nfile s (P + Z.of_nat i) (mkUproc t (fds_of i a) (parent_of P i) 0 None) s';
}.

Lemma at_phase A s k i a s' : at_turn A s k i a s' -> phase_ok i a.
Proof. intros [Hinv Hi _]. by apply (iv_one _ _ _ _ _ Hinv). Qed.

Lemma weight_alive i a : ~ leaving a \/ a.(ph) = Leave -> weight i a = length_s (script_of i a).
Proof. intros H. unfold weight, leaving in *. destruct (ph a); naive_solver. Qed.

(** Phases that close a descriptor. *)
Lemma step_close A s k i a s' fd a' : at_turn A s k i a s' ->
  script_of i a = DoClose fd (script_of i a') -> delete fd (fds_of i a) = fds_of i a' ->
  phase_ok i a' -> a'.(kid) = a.(kid) -> a'.(todo) = a.(todo) -> to_write a' = to_write a ->
  ~ leaving a -> ~ leaving a' -> (i <> 0%nat -> ending a' -> ending a) -> a.(ph) <> Await ->
  (i <> 0%nat -> prime_of a' = prime_of a) -> to_print a' = to_print a ->
  pipes_of i a' = pipes_of i a -> (writing a' = true -> writing a = true) ->
  exists A', inv A' s' (S k).
Proof.
  intros [Hinv Hi (t & Hfol & Hturn)] Es Ef Hok Hk Ht Hw Hl Hl' He Ha Hp Hpr Hpi Hwr. rewrite Es in Hfol.
  destruct (turn_close _ _ _ _ _ _ _ _ Hturn Hfol) as (t' & Hfol' & ->). cbn [us_fds]. rewrite Ef.
  exists (<[i := a']> A). eapply inv_go; try done; [|by right|].
  - constructor; [done|]. rewrite Ht. by apply (iv_one _ _ _ _ _ Hinv i a).
  - rewrite !weight_alive by auto. by rewrite Es.
Qed.

Lemma step_MDrop A s k i a s' : at_turn A s k i a s' -> a.(ph) = MDrop -> exists A', inv A' s' (S k).
Proof.
  intros H E. pose proof (at_phase _ _ _ _ _ _ H) as Hphase. destruct a as [pa p l kd]. cbn in E. subst pa. destruct Hphase as [-> Hkd]. cbn in Hkd. subst kd.
  eapply (step_close _ _ _ _ _ _ 3 (mkA Feed p l true)); [exact H|..]; try done; shape.
Qed.

Lemma step_Init A s k i a s' c cl : at_turn A s k i a s' -> a.(ph) = Init (c :: cl) -> exists A', inv A' s' (S k).
Proof.
  intros H E. pose proof (at_phase _ _ _ _ _ _ H) as Hphase. destruct a as [pa p l kd]. cbn in E. subst pa. destruct Hphase as (Hi0 & Hkd & Hne & Hcl). cbn in Hkd, Hne, Hcl. subst kd.
  eapply (step_close _ _ _ _ _ _ c (mkA (Init cl) p l false)); [exact H|..]; try done; try (shape).
  - unfold fds_of. cbn [ph]. destruct cl as [|c2 [|]]; [| |done].
    + destruct i as [|[|j]]; [done|by subst c|]. assert (c = rd (S j)) as -> by (subst c; cbn [rd]; lia).
      apply delete_insert_id, own_none; [destruct (rd_cases (S j)); lia|]. intros _. cbn [rd]. destruct (rd_cases j); lia.
    + destruct Hcl as (-> & -> & Hi1). destruct i as [|[|j]]; [done|done|]. apply delete_insert_id.
      rewrite lookup_insert_ne by (destruct (rd_cases (S j)); lia). apply own_none; [lia|]. destruct (rd_cases (S (S j))); lia.
  - unfold phase_ok. cbn [ph kid todo]. split_and!; try done. destruct cl as [|c2 [|]]; try done.
    destruct Hcl as (-> & -> & Hi1). destruct i as [|[|j]]; done.
Qed.

Lemma step_Drop A s k i a s' n : at_turn A s k i a s' -> a.(ph) = Drop n -> exists A', inv A' s' (S k).
Proof.
  intros H E. pose proof (at_phase _ _ _ _ _ _ H) as Hphase. destruct a as [pa p l kd]. cbn in E. subst pa. destruct Hphase as (Hi0 & Hkd & Hn & Hp). cbn in Hkd, Hp. subst kd.
  eapply (step_close _ _ _ _ _ _ (7 - rd i) (mkA (Put n) p l true)); [exact H|..]; try done; try (shape).
  unfold fds_of. cbn [ph]. rewrite delete_insert_ne by (destruct (rd_cases i); lia).
  rewrite delete_insert_id by (apply own_none; destruct (rd_cases i); lia). by destruct i.
Qed.

Lemma step_Shut A s k i a s' : at_turn A s k i a s' -> a.(ph) = Shut -> exists A', inv A' s' (S k).
Proof.
  intros H E. pose proof (at_phase _ _ _ _ _ _ H) as Hphase. destruct a as [pa p l kd]. cbn in E. subst pa. destruct Hphase as (Hi0 & Hl). cbn in Hl. subst l.
  eapply (step_close _ _ _ _ _ _ (write_end kd) (mkA Await p [] kd)); [exact H|..]; try done; try (shape).
  unfold fds_of, with_out. cbn [ph kid]. destruct i as [|j]; [done|]. destruct kd; cbn [write_end wfd].
  - apply delete_insert_id, own_none; [lia|]. destruct (rd_cases (S j)); lia.
  - apply delete_id, own_none; [lia|]. destruct (rd_cases (S j)); lia.
Qed.

Lemma step_Feed_end A s k i a s' : at_turn A s k i a s' -> a.(ph) = Feed -> a.(todo) = [] -> exists A', inv A' s' (S k).
Proof.
  intros H E El. pose proof (at_phase _ _ _ _ _ _ H) as Hphase. destruct a as [pa p l kd]. cbn in E, El. subst pa l. destruct Hphase as (-> & Hkd). cbn in Hkd. subst kd.
  eapply (step_close _ _ _ _ _ _ 4 (mkA Await p [] true)); [exact H|..]; try done; try (shape).
Qed.

(** The last process of the chain is the one without a next stage. *)
Lemma kid_last A s k i a : inv A s k -> A !! i = Some a -> a.(kid) = false -> S i = length A.
Proof.
  intros Hinv Hi Hk. assert (i < length A)%nat by (by apply lookup_lt_Some in Hi).
  destruct (decide (S i = length A)) as [|Hne]; [done|]. destruct (lookup_lt_is_Some_2 A (S i)) as [b Hb]; [lia|].
  pose proof (ln_kid _ _ _ (iv_link _ _ _ _ _ Hinv i a b Hi Hb)). congruence.
Qed.

Lemma kid_next A s k i a : inv A s k -> A !! i = Some a -> a.(kid) = true -> exists b, A !! S i = Some b.
Proof.
  intros Hinv Hi Hk. assert (i < length A)%nat by (by apply lookup_lt_Some in Hi).
  apply lookup_lt_is_Some_2. destruct (iv_last _ _ _ _ _ Hinv) as (z & Hz & Hzk & _). apply last_at in Hz.
  destruct (decide (S i = length A)) as [E|]; [|lia]. replace (length A - 1)%nat with i in Hz by lia. congruence.
Qed.

Lemma last_is A s k i a : inv A s k -> A !! i = Some a -> S i = length A ->
  s.(n_pipe) = pipes_of i a /\ (writing a = true -> s.(n_pipes) !! i = Some []).
Proof.
  intros Hinv Hi E. destruct (iv_last _ _ _ _ _ Hinv) as (z & Hz & _ & Hzp & Hzb & _). apply last_at in Hz.
  replace (length A - 1)%nat with i in * by lia. rewrite Hi in Hz. injection Hz as <-. done.
Qed.

Lemma step_getpid A s k i a s' : at_turn A s k i a s' -> a.(ph) = Init [] -> exists A', inv A' s' (S k).
Proof.
  intros H E. pose proof (at_phase _ _ _ _ _ _ H) as Hphase. destruct H as [Hinv Hi (t & Hfol & Hturn)].
  pose proof (iv_one _ _ _ _ _ Hinv i a Hi) as Hone.
  destruct a as [pa p l kd]. cbn in E. subst pa. destruct Hphase as (Hi0 & Hkd & Hne & _). cbn in Hkd, Hne. subst kd.
  destruct l as [|q l]; [done|].
  assert (script_of i (mkA (Init []) p (q :: l) false) = DoGetpid (script_of i (mkA First p (q :: l) false))) as Es by apply stage_eq.
  rewrite Es in Hfol. destruct (turn_getpid _ _ _ _ _ _ _ Hturn Hfol) as (t' & Hfol' & ->).
  exists (<[i := mkA First p (q :: l) false]> A).
  eapply inv_go; [exact Hinv|exact Hi|..]; try done; try (shape).
  - constructor; [done|apply Hone].
  - rewrite !weight_alive by (left; shape). by rewrite Es.
Qed.

Lemma step_Print A s k i a s' bs : at_turn A s k i a s' -> a.(ph) = Print bs -> exists A', inv A' s' (S k).
Proof.
  intros H E. pose proof (at_phase _ _ _ _ _ _ H) as Hphase. destruct H as [Hinv Hi (t & Hfol & Hturn)].
  pose proof (iv_one _ _ _ _ _ Hinv i a Hi) as Hone.
  destruct a as [pa p l kd]. cbn in E. subst pa. destruct Hphase as (Hi0 & Hkd & Hp & Hne). cbn in Hkd, Hp. subst kd.
  destruct bs as [|b bs]; [done|]. set (a' := mkA (after_print bs) p l false).
  assert (script_of i (mkA (Print (b :: bs)) p l false) = DoWrite 1 [b] (script_of i a')) as Es by (by destruct bs).
  assert (fds_of i a' = own i) as Ef by (by destruct bs).
  rewrite Es in Hfol. destruct (turn_print _ _ _ _ _ _ _ _ _ Hturn Hfol) as (t' & Hfol' & ->).
  { cbn. destruct i as [|j]; [done|]. cbn [own]. by rewrite lookup_insert_ne by (destruct (rd_cases (S j)); lia). }
  pose proof (kid_last _ _ _ _ _ Hinv Hi eq_refl) as Hlast. destruct (last_is _ _ _ _ _ Hinv Hi Hlast) as [Hnp _].
  assert (~ leaving a' /\ ~ ending a') as [Hl He] by (destruct bs; shape).
  exists (<[i := a']> A). apply (inv_update P nums A s k i _ a' t' _ Hinv Hi); try done.
  - cbn [put_out go go_fds set_procs n_procs us_fds us_parent]. by rewrite Ef.
  - unfold leaving in Hl. tauto.
  - unfold leaving in Hl. tauto.
  - constructor; [|apply Hone]. unfold phase_ok. by destruct bs.
  - intros j q -> Hj Hlk. eapply link_left; [exact Hlk|done|done|by destruct bs|done].
  - intros c Hc. apply lookup_lt_Some in Hc. lia.
  - intros _. by destruct bs.
  - intros _. split_and!; [rewrite <- (Hnp : _ = i); by destruct bs|by destruct bs|by destruct bs|].
    cbn [put_out n_out to_print ph]. rewrite <- (assoc_L (++)). by destruct bs.
  - rewrite !weight_alive by (left; shape). by rewrite Es.
Qed.

(** Phases that write a number to the next stage. *)
Lemma length_ints ns : length (concat (map enc ns)) = (4 * length ns)%nat.
Proof. induction ns as [|n ns IH]; [done|]. cbn [map concat length]. rewrite length_app, IH, length_enc. lia. Qed.

Lemma step_write A s k i a s' a' n :
  at_turn A s k i a s' -> script_of i a = DoWrite (wfd i) (enc n) (script_of i a') ->
  fds_of i a = with_out i -> fds_of i a' = with_out i -> to_write a = n :: to_write a' ->
  a.(kid) = true -> a'.(kid) = true -> one_ok i a' -> (i <> 0%nat -> a'.(todo) = a.(todo) /\ prime_of a' = prime_of a) ->
  ~ leaving a -> ~ leaving a' -> ~ ending a -> ~ ending a' ->
  exists A', inv A' s' (S k).
Proof.
  intros [Hinv Hi (t & Hfol & Hturn)] Es Ef Ef' Hw Hk Hk' Hone Hsame Hl Hl' He He'. rewrite Es in Hfol. rewrite Ef in Hturn.
  destruct (kid_next _ _ _ _ _ Hinv Hi Hk) as [b Hb]. pose proof (iv_link _ _ _ _ _ Hinv i a b Hi Hb) as Hlk.
  destruct (ln_buf _ _ _ Hlk) as (ns & Ebuf & Etodo & Hlen).
  assert (b.(ph) <> Dead /\ b.(ph) <> Gone) as [Hbd Hbg].
  { pose proof (oo_phase _ _ (iv_one _ _ _ _ _ Hinv _ _ Hb)) as Hok. unfold phase_ok in Hok.
    rewrite Hw in Etodo. assert (b.(todo) <> []) by (rewrite Etodo; by destruct ns). destruct (ph b); naive_solver. }
  destruct (turn_write _ _ _ _ _ _ _ i _ (concat (map enc ns)) _ Hturn Hfol) as (t' & Hfol' & -> & Hroom).
  - cbn. unfold with_out. apply lookup_insert_eq.
  - done.
  - by eapply reader_in_use.
  - done.
  - rewrite length_ints, length_enc. unfold PIPESIZE in *. lia.
  - rewrite Ebuf in Hlk. exists (<[i := a']> A). apply (inv_update P nums A s k i a a' t'); try done.
    + cbn [go go_fds set_pipes set_procs n_procs us_fds us_parent]. by rewrite Ef'.
    + unfold leaving in Hl'. tauto.
    + unfold leaving in Hl'. tauto.
    + congruence.
    + intros j Hj _. cbn [set_pipes n_pipes]. by rewrite lookup_insert_ne.
    + intros j p -> Hj Hlkp. cbn [set_pipes n_pipes]. rewrite lookup_insert_ne by lia. destruct (Hsame ltac:(done)) as [Ht _].
      eapply link_left; [exact Hlkp|done|unfold leaving in *; tauto|unfold leaving in *; tauto|done].
    + intros b' Hb' _. rewrite Hb in Hb'. injection Hb' as <-. cbn [set_pipes n_pipes]. rewrite lookup_insert_eq.
      eapply (link_put a); try done; [congruence|]. rewrite length_enc in Hroom. destruct Hroom as [|Hnil]; [done|].
      apply (f_equal length) in Hnil. by rewrite length_enc in Hnil.
    + intros Hi0. by apply Hsame.
    + intros Hlast. apply lookup_lt_Some in Hb. lia.
    + rewrite !weight_alive by auto. by rewrite Es.
Qed.

Lemma step_Feed A s k i a s' n l : at_turn A s k i a s' -> a.(ph) = Feed -> a.(todo) = n :: l -> exists A', inv A' s' (S k).
Proof.
  intros H E El. pose proof (at_phase _ _ _ _ _ _ H) as Hphase. pose proof (iv_one _ _ _ _ _ (at_inv _ _ _ _ _ _ H) i a (at_i _ _ _ _ _ _ H)) as [_ Hnum].
  destruct a as [pa p l0 kd]. cbn in E, El. subst pa l0. destruct Hphase as (-> & Hkd). cbn in Hkd. subst kd.
  eapply (step_write _ _ _ _ _ _ (mkA Feed p l true) n); [exact H|..]; try done; try shape.
  constructor; [done|]. by apply Forall_cons in Hnum as [_ Hnum].
Qed.

Lemma step_Put A s k i a s' n : at_turn A s k i a s' -> a.(ph) = Put n -> exists A', inv A' s' (S k).
Proof.
  intros H E. pose proof (at_phase _ _ _ _ _ _ H) as Hphase. pose proof (iv_one _ _ _ _ _ (at_inv _ _ _ _ _ _ H) i a (at_i _ _ _ _ _ _ H)) as [_ Hnum].
  destruct a as [pa p l kd]. cbn in E. subst pa. destruct Hphase as (Hi0 & Hkd & Hn & Hp). cbn in Hkd, Hp. subst kd.
  eapply (step_write _ _ _ _ _ _ (mkA Loop p l true) n); [exact H|..]; try done; try shape.
  by destruct i.
Qed.

(** The process before a stage that runs, and the pipe between them. *)
Lemma stage_prev A s k j a : inv A s k -> A !! S j = Some a -> a.(ph) <> Dead -> a.(ph) <> Gone ->
  exists p l, A !! j = Some p /\ s.(n_pipes) !! j = Some l /\ link p a (Some l) /\ phase_ok j p /\
    (in_use (Wr j) s = false -> p.(ph) = Await).
Proof.
  intros Hinv Hi Hd Hg. destruct (lookup_lt_is_Some_2 A j) as [p Hp]; [apply lookup_lt_Some in Hi; lia|].
  pose proof (iv_link _ _ _ _ _ Hinv j p a Hp Hi) as Hlk. destruct (ln_buf _ _ _ Hlk) as (ns & Ebuf & _). rewrite Ebuf in Hlk.
  pose proof (oo_phase _ _ (iv_one _ _ _ _ _ Hinv j p Hp)) as Hok. exists p, (concat (map enc ns)).
  refine (conj Hp (conj Ebuf (conj Hlk (conj Hok _)))). intros Hin. eapply link_closed; [exact Hok|exact Hlk|done|].
  destruct (writing p) eqn:Ew; [|done]. rewrite (writer_in_use _ _ _ _ _ _ _ Hinv Hp Ew) in Hin. done.
Qed.

Lemma step_read A s k j a s' a' n :
  at_turn A s k (S j) a s' -> script_of (S j) a = DoRead (rd (S j)) 4 (enc n) (script_of (S j) a') ->
  fds_of (S j) a' = fds_of (S j) a -> a.(todo) = n :: a'.(todo) -> to_write a' = to_write a ->
  a'.(kid) = a.(kid) -> phase_ok (S j) a' -> prime_of a' = prime_of a -> to_print a' = to_print a ->
  pipes_of (S j) a' = pipes_of (S j) a -> (writing a' = true -> writing a = true) ->
  ~ leaving a -> ~ leaving a' -> ~ ending a -> ~ ending a' ->
  exists A', inv A' s' (S k).
Proof.
  intros [Hinv Hi (t & Hfol & Hturn)] Es Ef Et Hw Hk Hok' Hp Hpr Hpi Hwr Hl Hl' He He'. rewrite Es in Hfol.
  assert (a.(ph) <> Dead /\ a.(ph) <> Gone) as [Hd Hg] by (unfold leaving in Hl; tauto).
  destruct (stage_prev _ _ _ _ _ Hinv Hi Hd Hg) as (p & l & Hj & Hl0 & Hlk & Hokp & Hclosed).
  pose proof (iv_one _ _ _ _ _ Hinv _ _ Hi) as [Hok Hnum].
  assert (a'.(ph) <> Gone) as Hg' by (unfold leaving in Hl'; tauto).
  assert (l <> [] \/ in_use (Wr j) s = false -> l <> []) as Hne.
  { intros [|Hin]; [done|]. intros ->. specialize (Hclosed Hin). destruct (ln_buf _ _ _ Hlk) as (ns & Ens & Etd & _).
    assert (to_write p = []) as Ew by (unfold to_write; by rewrite Hclosed). rewrite Et, Ew, app_nil_r in Etd. by subst ns. }
  destruct (turn_read _ _ _ _ _ _ _ j _ _ l _ Hturn Hfol) as (Hready & t' & Hfol' & ->).
  - cbn. by apply reading_fd.
  - done.
  - intros Hready. by eapply link_get; [exact Hlk|apply Hne|exact Et|..].
  - destruct (link_get p a a' l n Hlk (Hne Hready) Et Hg Hg' He') as [_ Hlk'].
    exists (<[S j := a']> A). destruct (iv_last _ _ _ _ _ Hinv) as (z & Hz & _ & Hzp & Hzb & _).
    apply (inv_update P nums A s k (S j) a a' t'); try done.
    + cbn [go go_fds set_pipes set_procs n_procs us_fds us_parent]. by rewrite Ef.
    + unfold leaving in Hl'. tauto.
    + constructor; [done|]. rewrite Et in Hnum. by apply Forall_cons in Hnum as [_ Hnum].
    + intros j' Hj1 Hj2. cbn [set_pipes n_pipes]. by rewrite lookup_insert_ne by lia.
    + intros j' p' [= <-] Hp' _. rewrite Hj in Hp'. injection Hp' as <-. cbn [set_pipes n_pipes]. by rewrite lookup_insert_eq.
    + intros b Hb Hlkb. cbn [set_pipes n_pipes]. rewrite lookup_insert_ne by lia.
      eapply link_right; [exact Hlkb|done..|]. right. unfold ending in He. tauto.
    + intros Hlast. destruct (last_is _ _ _ _ _ Hinv Hi Hlast) as [Hnp Hnb]. cbn [set_pipes go go_fds set_procs n_pipe n_pipes n_out].
      split_and!; [congruence| |by rewrite Hw|by rewrite Hpr]. intros H. rewrite lookup_insert_ne by lia. by apply Hnb, Hwr.
    + rewrite !weight_alive by auto. by rewrite Es.
Qed.

Lemma step_First A s k i a s' : at_turn A s k i a s' -> a.(ph) = First -> exists A', inv A' s' (S k).
Proof.
  intros H E. pose proof (at_phase _ _ _ _ _ _ H) as Hphase. pose proof (iv_one _ _ _ _ _ (at_inv _ _ _ _ _ _ H) i a (at_i _ _ _ _ _ _ H)) as [_ Hnum].
  destruct a as [pa p l kd]. cbn in E. subst pa. destruct Hphase as (Hi0 & Hkd & Hne). cbn in Hkd, Hne, Hnum. subst kd.
  destruct i as [|j]; [done|]. destruct l as [|q l]; [done|]. apply Forall_cons in Hnum as [Hq Hnum].
  eapply (step_read _ _ _ _ _ _ (mkA (Print (line q)) q l false) q); [exact H|..]; try done; try shape.
  unfold phase_ok. cbn [ph kid prime]. split_and!; try done. apply Hq.
Qed.

Lemma keep_cons p n l : keep p (n :: l) = if n mod p =? 0 then keep p l else n :: keep p l.
Proof. unfold keep. rewrite filter_cons. destruct (Z.eqb_spec (n mod p) 0) as [E|E]; case_decide; done. Qed.

Lemma step_Loop A s k i a s' n l : at_turn A s k i a s' -> a.(ph) = Loop -> a.(todo) = n :: l -> exists A', inv A' s' (S k).
Proof.
  intros H E El. pose proof (at_phase _ _ _ _ _ _ H) as Hphase. pose proof (iv_one _ _ _ _ _ (at_inv _ _ _ _ _ _ H) i a (at_i _ _ _ _ _ _ H)) as [_ Hnum].
  destruct a as [pa p l0 kd]. cbn in E, El. subst pa l0. destruct Hphase as (Hi0 & Hp). cbn in Hp, Hnum.
  destruct i as [|j]; [done|]. apply Forall_cons in Hnum as [Hn Hnum].
  pose proof (keep_cons p n l) as Ek. destruct (n mod p =? 0) eqn:Em.
  - eapply (step_read _ _ _ _ _ _ (mkA Loop p l kd) n); [exact H|..]; try done; try shape.
    unfold script_of. cbn [ph prime kid todo loop_s]. by rewrite Em.
  - destruct kd.
    + eapply (step_read _ _ _ _ _ _ (mkA (Put n) p l true) n); [exact H|..]; try done; try shape.
      unfold script_of. cbn [ph prime kid todo loop_s]. by rewrite Em.
    + eapply (step_read _ _ _ _ _ _ (mkA (Pipe n) p l false) n); [exact H|..]; try done; try shape.
      unfold script_of. cbn [ph prime kid todo loop_s]. by rewrite Em.
Qed.

(** The end of the input. *)
Lemma step_eof A s k i a s' : at_turn A s k i a s' -> a.(ph) = Loop -> a.(todo) = [] -> exists A', inv A' s' (S k).
Proof.
  intros H E El. pose proof (at_phase _ _ _ _ _ _ H) as Hphase. destruct H as [Hinv Hi (t & Hfol & Hturn)].
  destruct a as [pa p l kd]. cbn in E, El. subst pa l. destruct Hphase as (Hi0 & Hp). destruct i as [|j]; [done|].
  destruct (stage_prev _ _ _ _ _ Hinv Hi ltac:(done) ltac:(done)) as (q & l & Hj & Hl0 & Hlk & Hokp & Hclosed).
  destruct (link_eof _ _ _ Hlk eq_refl) as [-> Hw]. set (a' := mkA Shut p [] kd).
  destruct (turn_read _ _ _ _ _ _ _ j _ [] [] _ Hturn Hfol) as (Hready & t' & Hfol' & ->); [|done|done|].
  { by apply reading_fd. }
  assert (q.(ph) = Await) as Hq by (by destruct Hready as [?|?]; [|apply Hclosed]).
  exists (<[S j := a']> A). destruct (iv_last _ _ _ _ _ Hinv) as (z & Hz & _ & Hzp & Hzb & _).
  eapply (inv_update P nums A s k (S j) _ a' t'); [exact Hinv|exact Hi|..]; try done.
  - intros j' Hj1 Hj2. cbn [set_pipes n_pipes]. by rewrite lookup_insert_ne by lia.
  - intros j' q' [= <-] Hq' _. rewrite Hj in Hq'. injection Hq' as <-. cbn [set_pipes n_pipes]. rewrite lookup_insert_eq.
    destruct Hlk as [H1 H2 H3 H4]. constructor; [done| |done|done]. rewrite Hq. cbn. naive_solver.
  - intros b Hb Hlkb. cbn [set_pipes n_pipes]. rewrite lookup_insert_ne by lia. eapply link_right; [exact Hlkb|done|done|shape|shape|shape].
  - intros Hlast. destruct (last_is _ _ _ _ _ Hinv Hi Hlast) as [Hnp Hnb]. cbn [set_pipes go go_fds set_procs n_pipe n_pipes n_out].
    split_and!; [done| |done|done]. intros Hwr. rewrite lookup_insert_ne by lia. by apply Hnb.
Qed.

(** Phases that make a pipe: two more files are open. *)
Lemma files_left A s k i a n l : inv A s k -> A !! i = Some a -> S i = length A -> to_write a = n :: l -> s.(n_pipe) = i ->
  (pipe_files s + 2 <= nfile)%nat.
Proof.
  intros Hinv Hi Hlast Hw Hn. destruct Henough as (_ & _ & Hnfile). pose proof (pipe_files_bound s) as Hb. rewrite Hn in Hb.
  destruct (iv_last _ _ _ _ _ Hinv) as (z & Hz & _ & _ & _ & Hs & _). apply last_at in Hz.
  replace (length A - 1)%nat with i in Hz by lia. rewrite Hi in Hz. injection Hz as <-. rewrite Hw, sieve_cons in Hs.
  apply (f_equal length) in Hs. rewrite length_app, length_map in Hs. cbn [length] in Hs.
  destruct A as [|? A]; [done|]. cbn [tail length] in *. lia.
Qed.

Lemma step_pipe A s k i a s' p0 p1 a' n l :
  at_turn A s k i a s' -> script_of i a = DoPipe p0 p1 (script_of i a') -> a.(kid) = false -> a'.(kid) = false ->
  free_fd (fds_of i a) = Some p0 -> free_fd (<[p0 := Rd i]> (fds_of i a)) = Some p1 ->
  fds_of i a' = <[p1 := Wr i]> (<[p0 := Rd i]> (fds_of i a)) -> to_write a = n :: l -> to_write a' = n :: l ->
  one_ok i a' -> a'.(todo) = a.(todo) -> prime_of a' = prime_of a -> to_print a' = to_print a ->
  pipes_of i a = i -> pipes_of i a' = S i -> ~ leaving a -> ~ leaving a' -> ~ ending a' ->
  exists A', inv A' s' (S k).
Proof.
  intros [Hinv Hi (t & Hfol & Hturn)] Es Hk Hk' H0 H1 Ef Hw Hw' Hone Ht Hp Hpr Hpi Hpi' Hl Hl' He. rewrite Es in Hfol.
  pose proof (kid_last _ _ _ _ _ Hinv Hi Hk) as Hlast. destruct (last_is _ _ _ _ _ Hinv Hi Hlast) as [Hnp _]. rewrite Hpi in Hnp.
  pose proof (files_left _ _ _ _ _ _ _ Hinv Hi Hlast Hw Hnp) as Hfiles.
  destruct (turn_pipe _ _ _ _ _ _ _ p1 _ Hturn Hfol H0) as (t' & Hfol' & ->); [by rewrite Hnp|done|].
  exists (<[i := a']> A). apply (inv_update P nums A s k i a a' t'); try done.
  - cbn [n_procs us_fds us_parent]. by rewrite Ef, Hnp.
  - unfold leaving in Hl'. tauto.
  - unfold leaving in Hl'. tauto.
  - congruence.
  - intros j Hj _. cbn [n_pipes]. by rewrite lookup_insert_ne by lia.
  - intros j q -> Hj Hlk. cbn [n_pipes]. rewrite lookup_insert_ne by lia.
    eapply link_left; [exact Hlk|done|unfold leaving in *; tauto|unfold leaving in *; tauto|done].
  - intros b Hb. apply lookup_lt_Some in Hb. lia.
  - intros _. cbn [n_pipe n_pipes n_out]. rewrite Hnp, lookup_insert_eq, Hw, Hw', Hpr. done.
  - rewrite !weight_alive by auto. by rewrite Es.
Qed.

Lemma step_MPipe A s k i a s' : at_turn A s k i a s' -> a.(ph) = MPipe -> exists A', inv A' s' (S k).
Proof.
  intros H E. pose proof (at_phase _ _ _ _ _ _ H) as Hphase. pose proof (iv_one _ _ _ _ _ (at_inv _ _ _ _ _ _ H) i a (at_i _ _ _ _ _ _ H)) as [_ Hnum].
  destruct a as [pa p l kd]. cbn in E. subst pa. destruct Hphase as (-> & Hkd & Hne). cbn in Hkd, Hne. subst kd.
  destruct l as [|n l]; [done|].
  eapply (step_pipe _ _ _ _ _ _ 3 4 (mkA MFork p (n :: l) false) n l); [exact H|..]; try done; try shape.
Qed.

Lemma free_own i : i <> 0%nat -> free_fd (own i) = Some (7 - rd i) /\ free_fd (<[7 - rd i := Rd i]> (own i)) = Some 5.
Proof. intros Hi. destruct i as [|j]; [done|]. cbn [own]. destruct (rd_cases (S j)) as [-> | ->]; done. Qed.

Lemma step_Pipe A s k i a s' n : at_turn A s k i a s' -> a.(ph) = Pipe n -> exists A', inv A' s' (S k).
Proof.
  intros H E. pose proof (at_phase _ _ _ _ _ _ H) as Hphase. pose proof (iv_one _ _ _ _ _ (at_inv _ _ _ _ _ _ H) i a (at_i _ _ _ _ _ _ H)) as [_ Hnum].
  destruct a as [pa p l kd]. cbn in E. subst pa. destruct Hphase as (Hi0 & Hkd & Hn & Hp). cbn in Hkd, Hp. subst kd.
  destruct (free_own i Hi0) as [H0 H1].
  eapply (step_pipe _ _ _ _ _ _ (7 - rd i) 5 (mkA (Fork n) p l false) n (keep p l)); [exact H|..]; try done; try shape.
Qed.
End Steps.
