(* ===== verification/PrimesLife.v ===== *)
(** * The start and the end of the processes of primes

    The steps that make a process or take one away: [fork], [wait] and
    [exit]. *)

From ITree Require Import ITree.
From S2P Require Import Prelude Params User UPrintf Utils Primes Net Script PrimesNet PrimesSteps.

Section Life.
Context (nproc nfile : nat) (P : Z) (nums : list Z) (Henough : enough nproc nfile P nums).

Notation inv := (inv P nums).
Notation at_turn := (at_turn nproc nfile P nums).

(** The number of processes. *)
Lemma procs_size A s k : inv A s k -> (size s.(n_procs) <= length A)%nat.
Proof.
  intros Hinv. rewrite <- size_dom. set (ids := list_to_set (C := gset Z) (map (fun i => P + Z.of_nat i) (seq 0 (length A)))).
  transitivity (size ids).
  - apply subseteq_size. intros j Hj. apply elem_of_dom in Hj as [u Hu]. apply elem_of_list_to_set, list_elem_of_fmap.
    destruct (decide (j < P \/ P + Z.of_nat (length A) <= j)) as [Hout|Hin].
    + rewrite (iv_none _ _ _ _ _ Hinv j Hout) in Hu. done.
    + exists (Z.to_nat (j - P)). split; [lia|]. apply elem_of_seq. lia.
  - unfold ids. rewrite size_list_to_set; [by rewrite length_map, length_seq|].
    apply (NoDup_fmap_2_strong (fun i => P + Z.of_nat i)); [intros; lia|apply NoDup_seq].
Qed.

Lemma tail_snoc (A : list astate) b : A <> [] -> tail (A ++ [b]) = tail A ++ [b].
Proof. by destruct A. Qed.

Lemma imap_snoc {B} (f : nat -> B -> nat) (A : list B) b : (list_sum (imap f (A ++ [b])) = list_sum (imap f A) + f (length A) b)%nat.
Proof. rewrite imap_app, list_sum_app. cbn. rewrite Nat.add_0_r. by rewrite Nat.add_0_r. Qed.

(** The chain gets a new last process. *)
Lemma inv_grow A s k i a a' b t tc :
  inv A s k -> A !! i = Some a -> S i = length A -> s.(n_pipes) !! i = Some [] -> s.(n_pipe) = S i ->
  follows (script_of i a') t -> follows (script_of (S i) b) tc ->
  fds_of i a' = fds_of i a -> fds_of (S i) b = fds_of i a ->
  one_ok i a' -> one_ok (S i) b -> a'.(kid) = true -> b.(kid) = false -> a'.(todo) = a.(todo) -> b.(todo) = to_write a' ->
  ~ leaving a -> ~ leaving a' -> ~ leaving b -> ~ ending a' -> ~ ending b -> (i <> 0%nat -> prime_of a' = prime_of a) ->
  sieve (to_write a) = prime_of b :: sieve (to_write b) -> to_print a = [] -> to_print b = line (prime_of b) ->
  pipes_of (S i) b = S i -> writing b = false -> weight i a = S (weight i a' + weight (S i) b) ->
  inv (<[i := a']> A ++ [b])
    (mkNet (<[s.(n_pid) := mkUproc tc (fds_of i a) (P + Z.of_nat i) 0 None]>
       (<[P + Z.of_nat i := mkUproc t (fds_of i a) (parent_of P i) 0 None]> s.(n_procs)))
      s.(n_pipes) s.(n_out) (s.(n_pid) + 1) s.(n_pipe)) (S k).
Proof.
  intros Hinv Hi Hlast Hbuf Hnp Hft Hftc Ef Efb Hone Honeb Hk Hkb Ht Htb Hl Hl' Hlb He Heb Hp Hs Hpr Hprb Hpi Hwr Hwt.
  destruct Hinv as [Hproc Hnone Hones Hlink Hpid (z & Hz & _ & _ & _ & Hzs & Hzo) Hw].
  assert (z = a) as -> by (apply last_at in Hz; replace (length A - 1)%nat with i in Hz by lia; congruence).
  assert (forall j x, (<[i := a']> A ++ [b]) !! j = Some x ->
    (j = S i /\ x = b) \/ (j = i /\ x = a') \/ ((j < i)%nat /\ A !! j = Some x)) as Hget.
  { intros j x [Hx|[Hge Hx]]%lookup_app_Some.
    - right. destruct (decide (j = i)) as [->|]; [rewrite list_lookup_insert_eq in Hx by lia; left; by injection Hx|].
      rewrite list_lookup_insert_ne in Hx by done. right. apply lookup_lt_Some in Hx as Hlt. split; [lia|done].
    - left. rewrite length_insert in *. apply list_lookup_singleton_Some in Hx as [E ->]. split; [lia|done]. }
  assert (forall i x, ~ leaving x -> forall ou, (exists t, ou = Some (mkUproc t (fds_of i x) (parent_of P i) 0 None) /\ follows (script_of i x) t) -> proc_ok P i x ou) as Hmk.
  { intros i' x Hx ou H. unfold proc_ok. unfold leaving in Hx. destruct (ph x); try done; naive_solver. }
  constructor; cbn [n_procs n_pipes n_out n_pid n_pipe].
  - intros j x [[-> ->]|[[-> ->]|[Hlt Hx]]]%Hget; rewrite Hpid.
    + replace (P + Z.of_nat (length A)) with (P + Z.of_nat (S i)) by lia. rewrite lookup_insert_eq.
      apply Hmk; [done|]. exists tc. by rewrite Efb.
    + rewrite lookup_insert_ne by lia. rewrite lookup_insert_eq. apply Hmk; [done|]. exists t. by rewrite Ef.
    + rewrite !lookup_insert_ne by lia. by apply Hproc.
  - intros j Hj. rewrite length_app, length_insert in Hj. cbn [length] in Hj. rewrite Hpid, !lookup_insert_ne by lia. apply Hnone. lia.
  - intros j x [[-> ->]|[[-> ->]|[Hlt Hx]]]%Hget; [done|done|by apply Hones].
  - intros j x y Hx Hy. apply Hget in Hx as [[-> ->]|[[-> ->]|[Hlt Hx]]], Hy as [[E ->]|[[E ->]|[Hlt' Hy]]]; try lia.
    + rewrite Hbuf. constructor; [done|unfold leaving in *; tauto|intros H; exfalso; by apply Heb|].
      exists []. split_and!; [done|by rewrite Htb|cbn; unfold PIPESIZE; lia].
    + subst i. eapply link_left; [by apply Hlink|done|unfold leaving in *; tauto|unfold leaving in *; tauto|done].
    + by apply Hlink.
  - rewrite length_app, length_insert. cbn [length]. lia.
  - exists b. rewrite last_snoc, length_app, length_insert. cbn [length].
    replace (length A + 1 - 1)%nat with (S i) by lia.
    rewrite tail_snoc by (intros E; apply (f_equal length) in E; rewrite length_insert in E; cbn in E; lia).
    rewrite map_app, (tail_insert A i a) by done. cbn [map]. split_and!; try done.
    + by rewrite Hpi.
    + by rewrite Hwr.
    + by rewrite Hzs, Hs, <- (assoc_L (++)).
    + rewrite Hpr, app_nil_r in Hzo. rewrite map_app, concat_app, Hprb, Hzo. cbn [map concat]. by rewrite app_nil_r.
  - rewrite imap_snoc, length_insert. pose proof (sum_insert weight A i a a' Hi). rewrite <- Hlast. lia.
Qed.

(** The chain is not longer than the list of primes. *)
Lemma chain_room A s k i a n l : inv A s k -> A !! i = Some a -> S i = length A -> to_write a = n :: l ->
  (length A <= length (sieve nums))%nat.
Proof.
  intros Hinv Hi Hlast Hw. destruct (iv_last _ _ _ _ _ Hinv) as (z & Hz & _ & _ & _ & Hs & _). apply last_at in Hz.
  replace (length A - 1)%nat with i in Hz by lia. rewrite Hi in Hz. injection Hz as <-. rewrite Hw, sieve_cons in Hs.
  apply (f_equal length) in Hs. rewrite length_app, length_map in Hs. cbn [length] in Hs.
  destruct A as [|? A]; [done|]. cbn [tail length] in *. lia.
Qed.

Lemma step_fork A s k i a s' a' b n l :
  at_turn A s k i a s' -> script_of i a = DoFork (script_of (S i) b) (script_of i a') -> a.(kid) = false ->
  writing a = true -> pipes_of i a = S i -> to_write a = n :: l -> to_write a' = n :: l ->
  fds_of i a' = fds_of i a -> fds_of (S i) b = fds_of i a ->
  phase_ok i a' -> phase_ok (S i) b -> Forall num (n :: l) -> a'.(kid) = true -> b.(kid) = false ->
  a'.(todo) = a.(todo) -> b.(todo) = n :: l -> (exists cl, b.(ph) = Init cl) ->
  ~ leaving a -> ~ leaving a' -> ~ ending a' -> (i <> 0%nat -> prime_of a' = prime_of a) -> to_print a = [] ->
  exists A', inv A' s' (S k).
Proof.
  intros [Hinv Hi (t & Hfol & Hturn)] Es Hk Hwr Hpi Hw Hw' Ef Efb Hok Hokb Hnum Hk' Hkb Ht Htb (cl & Hcl) Hl Hl' He Hp Hpr.
  rewrite Es in Hfol. assert (S i = length A) as Hlast by (by eapply kid_last).
  destruct (last_is _ _ _ _ _ _ _ Hinv Hi Hlast) as [Hnp Hnb]. pose proof (procs_size _ _ _ Hinv) as Hsz.
  pose proof (chain_room _ _ _ _ _ _ _ Hinv Hi Hlast Hw) as Hroom. pose proof (iv_pid _ _ _ _ _ Hinv) as Hpid.
  destruct (turn_fork _ _ _ _ _ _ _ _ Hturn Hfol) as (tc & t' & Hftc & Hft & ->); [destruct Henough; lia|destruct Henough; lia|].
  eexists. cbn [us_fds us_parent].
  assert (~ leaving b /\ ~ ending b) as [Hlb Heb] by (unfold leaving, ending; rewrite Hcl; naive_solver).
  eapply (inv_grow A s k i a a' b t' tc); try done; [by apply Hnb|congruence| | |congruence| | | | |].
  - constructor; [done|]. rewrite Ht. apply (oo_num _ _ (iv_one _ _ _ _ _ Hinv i a Hi)).
  - constructor; [done|]. by rewrite Htb.
  - unfold prime_of, to_write. rewrite Hcl, Htb. cbn [hd]. fold (to_write a). rewrite Hw. apply sieve_cons.
  - unfold to_print, prime_of. by rewrite Hcl, Htb.
  - unfold pipes_of. by rewrite Hcl.
  - unfold writing. by rewrite Hcl.
  - rewrite !weight_alive by auto. rewrite Es. cbn [length_s]. lia.
Qed.

Lemma step_MFork A s k i a s' : at_turn A s k i a s' -> a.(ph) = MFork -> exists A', inv A' s' (S k).
Proof.
  intros H E. pose proof (at_phase _ _ _ _ _ _ _ _ _ _ H) as Hphase.
  pose proof (iv_one _ _ _ _ _ (at_inv _ _ _ _ _ _ _ _ _ _ H) i a (at_i _ _ _ _ _ _ _ _ _ _ H)) as [_ Hnum].
  destruct a as [pa p l kd]. cbn in E. subst pa. destruct Hphase as (-> & Hkd & Hne). cbn in Hkd, Hne. subst kd.
  destruct l as [|n l]; [done|].
  eapply (step_fork _ _ _ _ _ _ (mkA MDrop p (n :: l) true) (mkA (Init [4]) 0 (n :: l) false) n l); [exact H|..]; try done; try shape.
Qed.

Lemma step_Fork A s k i a s' n : at_turn A s k i a s' -> a.(ph) = Fork n -> exists A', inv A' s' (S k).
Proof.
  intros H E. pose proof (at_phase _ _ _ _ _ _ _ _ _ _ H) as Hphase.
  pose proof (iv_one _ _ _ _ _ (at_inv _ _ _ _ _ _ _ _ _ _ H) i a (at_i _ _ _ _ _ _ _ _ _ _ H)) as [_ Hnum].
  destruct a as [pa p l kd]. cbn in E. subst pa. destruct Hphase as (Hi0 & Hkd & Hn & Hp). cbn in Hkd, Hp, Hnum. subst kd.
  eapply (step_fork _ _ _ _ _ _ (mkA (Drop n) p l true) (mkA (Init [5; rd i]) 0 (n :: keep p l) false) n (keep p l));
    [exact H|..]; try done; try shape.
  - destruct i as [|j]; [done|]. unfold fds_of. cbn [ph]. cbn [own]. f_equal. cbn [rd].
    rewrite insert_insert_ne; [done|]. destruct (rd_cases j); lia.
  - unfold phase_ok. cbn [ph kid todo]. split_and!; try done; [cbn [rd]; lia|lia].
  - constructor; [done|]. by apply keep_num.
Qed.

(** Every process of the system is one of the chain. *)
Lemma procs_chain A s k j v : inv A s k -> s.(n_procs) !! j = Some v ->
  exists i x, j = P + Z.of_nat i /\ A !! i = Some x /\ v.(us_parent) = parent_of P i /\ x.(ph) <> Gone /\
    (v.(us_status) <> None -> x.(ph) = Dead).
Proof.
  intros Hinv Hv. destruct (decide (j < P \/ P + Z.of_nat (length A) <= j)) as [Hout|Hin].
  { rewrite (iv_none _ _ _ _ _ Hinv j Hout) in Hv. done. }
  destruct (lookup_lt_is_Some_2 A (Z.to_nat (j - P))) as [x Hx]; [lia|]. exists (Z.to_nat (j - P)), x.
  pose proof (iv_proc _ _ _ _ _ Hinv _ _ Hx) as Hp. replace (P + Z.of_nat (Z.to_nat (j - P))) with j in Hp by lia.
  rewrite Hv in Hp. unfold proc_ok in Hp. split; [lia|]. split; [done|]. destruct (ph x); naive_solver.
Qed.

(** The child of a process is the next one. *)
Lemma child_next A s k i j v : inv A s k -> s.(n_procs) !! j = Some v -> v.(us_parent) = P + Z.of_nat i ->
  exists x, j = P + Z.of_nat (S i) /\ A !! S i = Some x /\ x.(ph) <> Gone /\ (v.(us_status) <> None -> x.(ph) = Dead).
Proof.
  intros Hinv Hv Hpar. destruct (procs_chain _ _ _ _ _ Hinv Hv) as (i' & x & -> & Hx & Ep & Hg & Hd).
  destruct Henough as [HP _]. rewrite Hpar in Ep. destruct i' as [|i']; cbn [parent_of] in Ep; [lia|]. assert (i' = i) as -> by lia. eauto.
Qed.

(** [wait] takes the next process away when it has exited. *)
Definition gone (a : astate) : astate := mkA Gone a.(prime) a.(todo) a.(kid).

Definition departs (a : astate) : astate := mkA Leave a.(prime) a.(todo) a.(kid).

Definition reaped (A : list astate) (i : nat) (a b : astate) : list astate := <[S i := gone b]> (<[i := departs a]> A).

Lemma length_reaped A i a b : length (reaped A i a b) = length A.
Proof. unfold reaped. by rewrite !length_insert. Qed.

Lemma lookup_reaped A i a b j x : (S i < length A)%nat -> reaped A i a b !! j = Some x ->
  (j = S i /\ x = gone b) \/ (j = i /\ x = departs a) \/ (j <> i /\ j <> S i /\ A !! j = Some x).
Proof.
  intros Hlt Hx. unfold reaped in Hx. destruct (decide (j = S i)) as [->|].
  { rewrite list_lookup_insert_eq in Hx by (by rewrite length_insert). left. by injection Hx. }
  rewrite list_lookup_insert_ne in Hx by done. destruct (decide (j = i)) as [->|].
  - rewrite list_lookup_insert_eq in Hx by lia. right. left. by injection Hx.
  - rewrite list_lookup_insert_ne in Hx by done. auto.
Qed.

Section Reap.
Context (A : list astate) (s : net) (k i : nat) (a b : astate).
Context (Hinv : inv A s k) (Hi : A !! i = Some a) (Hb : A !! S i = Some b) (Ea : a.(ph) = Await) (Eb : b.(ph) = Dead).

Lemma reap_lt : (S i < length A)%nat.
Proof using Hb. by eapply lookup_lt_Some. Qed.

Lemma reap_one j x : reaped A i a b !! j = Some x -> one_ok j x.
Proof using Hinv Hi Hb Ea Eb.
  intros [[-> ->]|[[-> ->]|[Hj1 [Hj2 Hx]]]]%lookup_reaped; [| |by apply (iv_one _ _ _ _ _ Hinv)|apply reap_lt].
  - destruct (iv_one _ _ _ _ _ Hinv _ _ Hb) as [Hok Hn]. constructor; [|done]. unfold phase_ok in *. rewrite Eb in Hok. by split.
  - destruct (iv_one _ _ _ _ _ Hinv _ _ Hi) as [Hok Hn]. constructor; [|done]. unfold phase_ok in *. by rewrite Ea in Hok.
Qed.

Lemma reap_link j x y : reaped A i a b !! j = Some x -> reaped A i a b !! S j = Some y -> link x y (s.(n_pipes) !! j).
Proof using Hinv Hi Hb Ea Eb.
  pose proof (iv_link _ _ _ _ _ Hinv) as Hlink. pose proof reap_lt as Hlt. intros Hx Hy.
  apply lookup_reaped in Hx as [[-> ->]|[[-> ->]|[Hj1 [Hj2 Hx]]]], Hy as [[E ->]|[[E ->]|[Hj3 [Hj4 Hy]]]]; try done; try lia.
  - destruct (Hlink _ _ _ Hb Hy) as [H1 H2 H3 H4]. constructor; [done| | |].
    + rewrite H2, Eb. cbn. naive_solver.
    + intros H%H3. congruence.
    + unfold to_write in H4 |- *. by rewrite Eb in H4.
  - destruct (Hlink _ _ _ Hi Hb) as [H1 H2 H3 (l & Hl1 & Hl2 & Hl3)]. constructor; [done|cbn; naive_solver|cbn; naive_solver|].
    exists l. split_and!; [done| |done]. cbn [gone todo]. rewrite Hl2. f_equal. unfold to_write. by rewrite Ea.
  - subst i. destruct (Hlink _ _ _ Hx Hi) as [H1 H2 H3 H4]. constructor; [done| |intros _; apply H3; by right; left|exact H4].
    rewrite Ea in H2. cbn. rewrite <- H2. done.
  - by apply Hlink.
Qed.

Lemma reap_primes : map prime_of (tail (reaped A i a b)) = map prime_of (tail A).
Proof using Hi Hb Ea Eb.
  unfold reaped. rewrite (tail_insert (<[i := departs a]> A) (S i) b); [| |intros _; unfold prime_of; by rewrite Eb].
  - apply (tail_insert A i a); [done|]. intros _. unfold prime_of. by rewrite Ea.
  - by rewrite list_lookup_insert_ne by lia.
Qed.

(** The last process of the chain: the one taken away, or the same. *)
Lemma reap_last z : last A = Some z -> exists z', last (reaped A i a b) = Some z' /\ z'.(kid) = z.(kid) /\
  (forall n, pipes_of n z' = pipes_of n z) /\ writing z' = writing z /\ to_write z' = to_write z /\ to_print z' = to_print z.
Proof using Hi Hb Ea Eb.
  intros Hz. pose proof (last_at _ _ Hz) as Hz'. pose proof reap_lt as Hlt. rewrite last_lookup, length_reaped.
  replace (pred (length A)) with (length A - 1)%nat by lia. unfold reaped.
  destruct (decide (S i = length A - 1)%nat) as [E|E].
  - exists (gone b). rewrite <- E in Hz' |- *. rewrite Hb in Hz'. injection Hz' as <-.
    unfold pipes_of, writing, to_write, to_print. rewrite Eb. split_and!; try done.
    by rewrite list_lookup_insert_eq by (by rewrite length_insert).
  - exists z. split_and!; try done. by rewrite !list_lookup_insert_ne by lia.
Qed.

Lemma inv_reap t : follows (DoExit 0) t ->
  inv (reaped A i a b)
    (set_procs (delete (P + Z.of_nat (S i))) (go_fds (P + Z.of_nat i) (mkUproc t (fds_of i a) (parent_of P i) 0 None) t (fds_of i a) s)) (S k).
Proof using Hinv Hi Hb Ea Eb.
  intros Hft. pose proof reap_lt as Hlt.
  constructor; cbn [set_procs go_fds n_procs n_pipes n_out n_pid n_pipe us_parent]; rewrite ?length_reaped.
  - intros j x [[-> ->]|[[-> ->]|[Hj1 [Hj2 Hx]]]]%lookup_reaped; [| | |done].
    + by rewrite lookup_delete_eq.
    + rewrite lookup_delete_ne, lookup_insert_eq by lia. exists t. unfold fds_of. by rewrite Ea.
    + rewrite lookup_delete_ne, lookup_insert_ne by lia. by apply (iv_proc _ _ _ _ _ Hinv).
  - intros j Hj. rewrite lookup_delete_ne, lookup_insert_ne by lia. by apply (iv_none _ _ _ _ _ Hinv).
  - apply reap_one.
  - apply reap_link.
  - apply (iv_pid _ _ _ _ _ Hinv).
  - rewrite reap_primes. destruct (iv_last _ _ _ _ _ Hinv) as (z & Hz & Hzr).
    destruct (reap_last z Hz) as (z' & Hz' & Ek & Ep & Ew & Et & Epr). exists z'. rewrite Ek, Ep, Ew, Et, Epr. done.
  - pose proof (iv_weight _ _ _ _ _ Hinv) as Hw. pose proof (sum_insert weight A i a (departs a) Hi) as W1.
    pose proof (sum_insert weight (<[i := departs a]> A) (S i) b (gone b)) as W2. fold (reaped A i a b) in W2.
    rewrite list_lookup_insert_ne in W2 by lia. specialize (W2 Hb).
    assert (weight i a = 2 /\ weight i (departs a) = 1 /\ weight (S i) b = 0 /\ weight (S i) (gone b) = 0)%nat as (E1 & E2 & E3 & E4).
    { unfold weight, script_of. by rewrite Ea, Eb. }
    lia.
Qed.
End Reap.

Lemma step_Await A s k i a s' : at_turn A s k i a s' -> a.(ph) = Await -> exists A', inv A' s' (S k).
Proof.
  intros [Hinv Hi (t & Hfol & Hturn)] E. assert (script_of i a = DoWait (DoExit 0)) as Es by (unfold script_of; by rewrite E).
  rewrite Es in Hfol. destruct (turn_wait _ _ _ _ _ _ _ Hturn Hfol) as (t' & Hfol' & [(j & v & Hv & Hpar & Hst & ->)|[Hno ->]]).
  - destruct (child_next _ _ _ _ _ _ Hinv Hv Hpar) as (b & -> & Hb & _ & Hd).
    eexists. by apply (inv_reap A s k i a b Hinv Hi Hb E (Hd Hst) t').
  - set (a' := departs a). exists (<[i := a']> A).
    pose proof (iv_one _ _ _ _ _ Hinv i a Hi) as [Hok Hnum].
    assert (A !! S i = None) as Hnext.
    { destruct (A !! S i) as [b|] eqn:Hb; [|done]. exfalso.
      destruct (iv_link _ _ _ _ _ Hinv i a b Hi Hb) as [_ Hg _ _]. pose proof (iv_proc _ _ _ _ _ Hinv _ _ Hb) as Hp.
      assert (b.(ph) <> Gone) as Hbg by (rewrite Hg, E; naive_solver). unfold proc_ok in Hp.
      assert (exists u, s.(n_procs) !! (P + Z.of_nat (S i)) = Some u /\ u.(us_parent) = P + Z.of_nat i) as (u & Hu & Hpar)
        by (destruct (ph b); naive_solver).
      by apply (Hno _ _ Hu). }
    assert (fds_of i a = own i) as Ef by (unfold fds_of; by rewrite E).
    apply (inv_update P nums A s k i a a' t'); try done.
    + unfold go, go_fds. cbn [set_procs n_procs us_fds us_parent]. by rewrite Ef.
    + constructor; [|done]. unfold phase_ok in *. by rewrite E in Hok.
    + intros j p -> Hj Hlk. eapply link_left; [exact Hlk|done|congruence|done|]. intros _. right. by left.
    + intros b Hb. congruence.
    + intros _. unfold prime_of. by rewrite E.
    + intros Hlast. destruct (last_is _ _ _ _ _ _ _ Hinv Hi Hlast) as [Hnp Hnb]. cbn [go go_fds set_procs n_pipe n_pipes n_out].
      unfold to_write, to_print, pipes_of in *. rewrite E in *. split_and!; done.
    + rewrite !weight_alive by (unfold leaving; rewrite ?E; cbn; naive_solver). by rewrite Es.
Qed.

(** [exit]: the process has no children left. *)
Lemma orphan_none A s k i a : inv A s k -> A !! i = Some a -> a.(ph) = Leave -> orphan (P + Z.of_nat i) <$> s.(n_procs) = s.(n_procs).
Proof.
  intros Hinv Hi E. apply map_eq. intros j. rewrite lookup_fmap. destruct (s.(n_procs) !! j) as [v|] eqn:Hv; [|done]. cbn. f_equal.
  unfold orphan. destruct (Z.eqb_spec v.(us_parent) (P + Z.of_nat i)) as [Hp|]; [|done]. exfalso.
  destruct (child_next _ _ _ _ _ _ Hinv Hv Hp) as (b & _ & Hb & Hg & _). apply Hg.
  apply (ln_gone _ _ _ (iv_link _ _ _ _ _ Hinv i a b Hi Hb)). by left.
Qed.

Lemma step_Leave A s k i a s' : at_turn A s k i a s' -> a.(ph) = Leave -> exists A', inv A' s' (S k).
Proof.
  intros [Hinv Hi (t & Hfol & Hturn)] E. assert (script_of i a = DoExit 0) as Es by (unfold script_of; by rewrite E).
  rewrite Es in Hfol. rewrite (turn_exit _ _ _ _ _ _ _ Hturn Hfol). set (a' := mkA Dead a.(prime) a.(todo) a.(kid)).
  exists (<[i := a']> A). pose proof (orphan_none _ _ _ _ _ Hinv Hi E) as Ho.
  destruct Hinv as [Hproc Hnone Hones Hlink Hpid (z & Hz & Hzk & Hzp & Hzb & Hzs & Hzo) Hw].
  assert (i < length A)%nat as Hlt by (by eapply lookup_lt_Some).
  assert (forall j x, <[i := a']> A !! j = Some x -> j = i /\ x = a' \/ j <> i /\ A !! j = Some x) as Hget.
  { intros j x Hj. destruct (decide (j = i)) as [->|]; [rewrite list_lookup_insert_eq in Hj by done; left; by injection Hj|].
    rewrite list_lookup_insert_ne in Hj by done. by right. }
  constructor; cbn [set_procs n_procs n_pipes n_out n_pid n_pipe us_parent]; rewrite ?Ho.
  - intros j x [[-> ->]|[Hj Hx]]%Hget.
    + rewrite lookup_insert_eq. by eexists.
    + rewrite lookup_insert_ne by lia. by apply Hproc.
  - intros j Hj. rewrite length_insert in Hj. rewrite lookup_insert_ne by lia. by apply Hnone.
  - intros j x [[-> ->]|[Hj Hx]]%Hget; [|by apply Hones]. destruct (Hones _ _ Hi) as [Hok Hn]. constructor; [|done].
    unfold phase_ok in *. by rewrite E in Hok.
  - intros j x y Hx Hy. apply Hget in Hx as [[-> ->]|[Hj Hx]], Hy as [[E' ->]|[Hj' Hy]]; try lia.
    + destruct (Hlink _ _ _ Hi Hy) as [H1 H2 H3 H4]. rewrite E in H2, H3. unfold to_write in H4. rewrite E in H4.
      constructor; [done|rewrite H2; cbn; naive_solver|intros H%H3; done|done].
    + subst i. destruct (Hlink _ _ _ Hx Hi) as [H1 H2 H3 H4]. rewrite E in H2, H3. constructor; [done| |intros _; apply H3; naive_solver|done].
      cbn. rewrite <- H2. done.
    + by apply Hlink.
  - by rewrite length_insert.
  - rewrite length_insert, (tail_insert A i a); [|done|intros _; unfold prime_of; by rewrite E].
    pose proof (last_at _ _ Hz) as Hz'. destruct (decide (i = length A - 1)%nat) as [E'|E'].
    + rewrite <- E', Hi in Hz'. injection Hz' as <-. exists a'. unfold to_write, to_print, pipes_of in *. rewrite E in *.
      split_and!; try done. rewrite last_lookup, length_insert. replace (pred (length A)) with i by lia. by rewrite list_lookup_insert_eq.
    + exists z. split_and!; try done. rewrite last_lookup, length_insert, list_lookup_insert_ne by lia. by rewrite <- last_lookup.
  - pose proof (sum_insert weight A i a a' Hi) as W. assert (weight i a = 1 /\ weight i a' = 0)%nat as [E1 E2] by (unfold weight, script_of; by rewrite E). lia.
Qed.

(** Every step preserves the invariant. *)
Lemma inv_step A s k s' : inv A s k -> nstep nproc nfile s s' -> exists A', inv A' s' (S k).
Proof.
  intros Hinv [j u B e kk s2 Hu Hst Hc Hs]. destruct (procs_chain _ _ _ _ _ Hinv Hu) as (i & a & -> & Hi & _ & Hg & _).
  assert (a.(ph) <> Dead) as Hd.
  { intros E. pose proof (iv_proc _ _ _ _ _ Hinv i a Hi) as Hp. unfold proc_ok in Hp. rewrite E, Hu in Hp. naive_solver. }
  destruct (inv_alive _ _ _ _ _ _ _ Hinv Hi Hd Hg) as (t & Hp & Hfol). rewrite Hu in Hp. injection Hp as ->.
  assert (at_turn A s k i a s2) as Hat by (constructor; [done|done|]; exists t; split; [done|]; by exists B, e, kk).
  destruct (ph a) as [| | | |cl| | | |n|n|n|n| | | | |] eqn:E; [eapply step_MPipe|eapply step_MFork|eapply step_MDrop| | | | | |
    eapply step_Pipe|eapply step_Fork|eapply step_Drop|eapply step_Put|eapply step_Shut|eapply step_Await|eapply step_Leave|done|done]; try done.
  - destruct (todo a) as [|n l] eqn:El; [by eapply step_Feed_end|by eapply step_Feed].
  - destruct cl as [|c cl]; [by eapply step_getpid|by eapply step_Init].
  - by eapply step_First.
  - by eapply step_Print.
  - destruct (todo a) as [|n l] eqn:El; [by eapply step_eof|by eapply step_Loop].
Qed.
End Life.
