(* ===== verification/PrimesSpec.v ===== *)
(** * primes in every interleaving

    The system never stops before all processes have ended, it ends after a
    bounded number of system calls, and what is printed is the list of primes
    in order, whatever the order in which the processes run. *)

From ITree Require Import ITree.
From stdpp Require Import pretty.
From S2P Require Import Prelude Params User UPrintf Utils Primes Net Script PrimesNet PrimesSteps PrimesLife.

Section Progress.
Context (nproc nfile : nat) (P : Z) (nums : list Z) (Henough : enough nproc nfile P nums).

Notation inv := (inv P nums).
Notation step s := (exists s', nstep nproc nfile s s').

(** Calls that are never blocked. *)
Lemma can_call A s k i a :
  inv A s k -> A !! i = Some a -> a.(ph) <> Dead -> a.(ph) <> Gone ->
  match script_of i a with
  | DoExit _ | DoGetpid _ | DoClose _ _ | DoPipe _ _ _ | DoFork _ _ => True
  | DoWrite fd _ _ => fds_of i a !! fd = Some Cons
  | _ => False
  end -> step s.
Proof.
  intros Hinv Hi Hd Hg Hs. destruct (inv_alive _ _ _ _ _ _ _ Hinv Hi Hd Hg) as (t & Hu & Hfol).
  destruct (script_of i a) eqn:E; try done; destruct Hfol as (kk & Hc & _); eexists; (eapply nstep_call; [exact Hu|done|exact Hc|]);
    cbn [call_step us_fds]; try reflexivity.
  rewrite Hs. reflexivity.
Qed.

(** A write to a pipe that is empty. *)
Lemma can_write A s k i a fd bs sc :
  inv A s k -> A !! i = Some a -> a.(ph) <> Dead -> a.(ph) <> Gone ->
  script_of i a = DoWrite fd bs sc -> fds_of i a !! fd = Some (Wr i) -> (length bs <= PIPESIZE)%nat ->
  s.(n_pipes) !! i = Some [] -> in_use (Rd i) s = true -> step s.
Proof.
  intros Hinv Hi Hd Hg E Hfd Hlen Hbuf Hin. destruct (inv_alive _ _ _ _ _ _ _ Hinv Hi Hd Hg) as (t & Hu & Hfol).
  rewrite E in Hfol. destruct Hfol as (kk & Hc & _). eexists. eapply nstep_call; [exact Hu|done|exact Hc|].
  cbn [call_step us_fds us_sent]. rewrite Hfd, Hin, Hbuf, drop_0. change (default [] (Some [])) with (@nil Z). cbn [length].
  rewrite decide_True by lia. reflexivity.
Qed.

Lemma can_read A s k j a n bs sc l :
  inv A s k -> A !! S j = Some a -> a.(ph) <> Dead -> a.(ph) <> Gone ->
  script_of (S j) a = DoRead (rd (S j)) n bs sc -> s.(n_pipes) !! j = Some l -> l <> [] \/ in_use (Wr j) s = false -> step s.
Proof.
  intros Hinv Hi Hd Hg E Hbuf Hr. destruct (inv_alive _ _ _ _ _ _ _ Hinv Hi Hd Hg) as (t & Hu & Hfol).
  rewrite E in Hfol. destruct Hfol as (kk & Hc & _). eexists. eapply nstep_call; [exact Hu|done|exact Hc|].
  cbn [call_step us_fds]. rewrite reading_fd by (done || apply (iv_one _ _ _ _ _ Hinv _ _ Hi)). rewrite Hbuf. split; [exact Hr|reflexivity].
Qed.

(** A stage that waits for its input while the one before it can still write. *)
Definition blocked (A : list astate) (s : net) (i : nat) : Prop :=
  exists j p, i = S j /\ A !! j = Some p /\ s.(n_pipes) !! j = Some [] /\ writing p = true.

Lemma read_or_blocked A s k i a n bs sc :
  inv A s k -> A !! i = Some a -> a.(ph) = First \/ a.(ph) = Loop -> script_of i a = DoRead (rd i) n bs sc ->
  step s \/ blocked A s i.
Proof.
  intros Hinv Hi Hph E. pose proof (oo_phase _ _ (iv_one _ _ _ _ _ Hinv i a Hi)) as Hok.
  assert (a.(ph) <> Dead /\ a.(ph) <> Gone) as [Hd Hg] by (destruct Hph as [-> | ->]; done).
  destruct i as [|j]; [exfalso; unfold phase_ok in Hok; destruct Hph as [Hx|Hx]; rewrite Hx in Hok; by destruct Hok|].
  destruct (stage_prev _ _ _ _ _ _ _ Hinv Hi Hd Hg) as (p & l & Hj & Hl0 & Hlk & Hokp & _).
  destruct l as [|x l]; [|left; eapply can_read; [exact Hinv|exact Hi|done|done|exact E|exact Hl0|by left]].
  destruct (in_use (Wr j) s) eqn:Hin; [|left; eapply can_read; [exact Hinv|exact Hi|done|done|exact E|exact Hl0|by right]].
  right. exists j, p. split_and!; try done.
  unfold in_use in Hin. apply bool_decide_eq_true in Hin as (pid & u & Hu & Hend).
  apply bool_decide_eq_true in Hend as (fd & o & Ho & ->).
  destruct (procs_chain _ _ _ _ _ _ _ Hinv Hu) as (i' & x & -> & Hx & _ & Hxg & _).
  pose proof (iv_proc _ _ _ _ _ Hinv i' x Hx) as Hp. rewrite Hu in Hp.
  assert (fds_of i' x !! fd = Some (Wr j)) as Hfd.
  { unfold proc_ok in Hp. destruct (ph x) eqn:Ex; try (destruct Hp as (t & [= ->] & _); exact Ho); [|done].
    destruct Hp as (v & [= <-] & _ & Ev & _). by rewrite Ev in Ho. }
  destruct (writer_is i' x fd j) as [[-> Hw]|[-> [cl Hcl]]]; [by apply (iv_one _ _ _ _ _ Hinv)|done|congruence|].
  rewrite Hi in Hx. injection Hx as <-. destruct Hph; congruence.
Qed.

(** [wait] returns when the next process has exited or there is none. *)
Lemma can_wait A s k i a :
  inv A s k -> A !! i = Some a -> a.(ph) = Await ->
  (forall b, A !! S i = Some b -> b.(ph) = Dead) -> step s.
Proof.
  intros Hinv Hi E Hnext. destruct (inv_alive _ _ _ _ _ _ _ Hinv Hi ltac:(by rewrite E) ltac:(by rewrite E)) as (t & Hu & Hfol).
  unfold script_of in Hfol. rewrite E in Hfol. destruct Hfol as (kk & Hc & _). destruct (A !! S i) as [b|] eqn:Hb.
  - pose proof (iv_proc _ _ _ _ _ Hinv _ _ Hb) as Hp. unfold proc_ok in Hp. rewrite (Hnext b eq_refl) in Hp.
    destruct Hp as (v & Hv & Hst & _ & Hpar). destruct (us_status v) as [st|] eqn:Est; [|done].
    eexists. eapply nstep_call; [exact Hu|done|exact Hc|]. left. exists (P + Z.of_nat (S i)), v, st. done.
  - eexists. eapply nstep_call; [exact Hu|done|exact Hc|]. right. split; [|reflexivity]. intros j v Hv Hpar.
    destruct (child_next _ _ _ _ Henough _ _ _ _ _ _ Hinv Hv Hpar) as (b & _ & Hb' & _). congruence.
Qed.

(** What is known of the next process when its state is looked at first. *)
Definition settled (A : list astate) (s : net) (i : nat) (a : astate) : Prop :=
  step s \/ a.(ph) = Dead \/ a.(ph) = Gone \/ blocked A s i.

(** A number can be written when the next stage has no input left. *)
Lemma can_put A s k i a n sc :
  inv A s k -> A !! i = Some a -> (forall b, A !! S i = Some b -> settled A s (S i) b) ->
  a.(kid) = true -> writing a = true -> script_of i a = DoWrite (wfd i) (enc n) sc -> to_write a <> [] -> step s.
Proof.
  intros Hinv Hi Hnext Hk Hw Es Hne. assert (a.(ph) <> Dead /\ a.(ph) <> Gone) as [Had Hag] by (unfold writing in Hw; by destruct (ph a)).
  destruct (kid_next _ _ _ _ _ _ _ Hinv Hi Hk) as [b Hb]. pose proof (iv_link _ _ _ _ _ Hinv i a b Hi Hb) as Hlk.
  pose proof (oo_phase _ _ (iv_one _ _ _ _ _ Hinv _ b Hb)) as Hokb. unfold phase_ok in Hokb.
  destruct (ln_buf _ _ _ Hlk) as (ns & _ & Et & _). assert (b.(todo) <> []) as Hbt by (rewrite Et; by intros [_ ?]%app_eq_nil).
  assert (b.(ph) <> Dead /\ b.(ph) <> Gone) as [Hbd Hbg] by (destruct (ph b); naive_solver).
  destruct (Hnext b Hb) as [|[?|[?|(j & p & [= <-] & _ & Hbuf & _)]]]; [done|done|done|].
  eapply can_write; [exact Hinv|exact Hi|done|done|exact Es| | |exact Hbuf|by eapply reader_in_use].
  - apply writing_fd; [|done]. apply (iv_one _ _ _ _ _ Hinv i a Hi).
  - rewrite length_enc. unfold PIPESIZE. lia.
Qed.

Lemma can_reap A s k i a :
  inv A s k -> A !! i = Some a -> (forall b, A !! S i = Some b -> settled A s (S i) b) -> a.(ph) = Await -> step s.
Proof.
  intros Hinv Hi Hnext E. destruct (A !! S i) as [b|] eqn:Hb; [|eapply can_wait; [exact Hinv|exact Hi|done|congruence]].
  destruct (iv_link _ _ _ _ _ Hinv i a b Hi Hb) as [_ Hg _ _].
  destruct (Hnext b eq_refl) as [|[?|[Hbg|(j & p & [= <-] & Hp & _ & Hw)]]]; [done| | |].
  - eapply can_wait; [exact Hinv|exact Hi|done|congruence].
  - exfalso. rewrite Hg, E in Hbg. naive_solver.
  - exfalso. rewrite Hi in Hp. injection Hp as <-. unfold writing in Hw. by rewrite E in Hw.
Qed.

Lemma own_console i : own i !! 1 = Some Cons.
Proof. destruct i as [|j]; [done|]. cbn [own]. by rewrite lookup_insert_ne by (destruct (rd_cases (S j)); lia). Qed.

(** A process can go on, has ended, or waits for its input. *)
Lemma settle A s k i a : inv A s k -> A !! i = Some a ->
  (forall b, A !! S i = Some b -> settled A s (S i) b) -> settled A s i a.
Proof.
  intros Hinv Hi Hnext. pose proof (oo_phase _ _ (iv_one _ _ _ _ _ Hinv i a Hi)) as Hok. unfold phase_ok in Hok.
  assert (forall n bs sc, a.(ph) = First \/ a.(ph) = Loop -> script_of i a = DoRead (rd i) n bs sc -> settled A s i a) as Hread.
  { intros n bs sc Hph Es. destruct (read_or_blocked A s k i a n bs sc Hinv Hi Hph Es); [by left|by right; right; right]. }
  destruct (ph a) as [| | | |cl| |bs| |n|n|n|n| | | | |] eqn:E;
    try (left; eapply can_call; [exact Hinv|exact Hi|by rewrite E|by rewrite E|]; unfold script_of; rewrite E; exact I).
  - destruct Hok as [-> Hk]. left. destruct (todo a) as [|n l] eqn:El.
    + eapply can_call; [exact Hinv|exact Hi|by rewrite E|by rewrite E|]. unfold script_of. rewrite E, El. exact I.
    + eapply (can_put _ _ _ _ _ n _ Hinv Hi Hnext Hk); [unfold writing; by rewrite E|unfold script_of; by rewrite E, El|unfold to_write; by rewrite E, El].
  - left. destruct Hok as (_ & _ & Hne & _). eapply can_call; [exact Hinv|exact Hi|by rewrite E|by rewrite E|].
    unfold script_of. rewrite E. destruct cl; [|done]. cbn [foldr]. destruct (todo a) as [|q l]; [done|]. by rewrite stage_eq.
  - destruct Hok as (_ & _ & Hne). destruct (todo a) as [|q l] eqn:El; [done|].
    eapply Hread; [by left|]. unfold script_of. by rewrite E, El.
  - left. destruct Hok as (Hi0 & _ & _ & Hne). destruct bs as [|b bs]; [done|].
    eapply can_call; [exact Hinv|exact Hi|by rewrite E|by rewrite E|]. unfold script_of, fds_of. rewrite E. apply own_console.
  - assert (exists bs sc, script_of i a = DoRead (rd i) 4 bs sc) as (bs & sc & Es).
    { unfold script_of. rewrite E. destruct (todo a); cbn [loop_s]; eauto. }
    eapply Hread; [by right|exact Es].
  - left. destruct Hok as (Hi0 & Hk & _).
    eapply (can_put _ _ _ _ _ n _ Hinv Hi Hnext Hk); [unfold writing; by rewrite E|unfold script_of; rewrite E; by destruct i|unfold to_write; by rewrite E].
  - left. by eapply can_reap.
  - right. by left.
  - right. right. by left.
Qed.

Lemma settle_all A s k : inv A s k -> forall d i a, (length A - i <= d)%nat -> A !! i = Some a -> settled A s i a.
Proof.
  intros Hinv d. induction d as [|d IH]; intros i a Hd Hi; [apply lookup_lt_Some in Hi; lia|].
  eapply settle; [exact Hinv|exact Hi|]. intros b Hb. apply IH; [|done]. apply lookup_lt_Some in Hi. lia.
Qed.

(** When no process can go on, [main] has exited and all others are gone. *)
Lemma all_gone A s k : inv A s k -> (exists a, A !! 0%nat = Some a /\ a.(ph) = Dead) ->
  forall i a, A !! S i = Some a -> a.(ph) = Gone.
Proof.
  intros Hinv (a0 & H0 & E0) i. induction i as [|i IH]; intros a Ha.
  - apply (ln_gone _ _ _ (iv_link _ _ _ _ _ Hinv 0%nat a0 a H0 Ha)). auto.
  - destruct (lookup_lt_is_Some_2 A (S i)) as [b Hb]; [apply lookup_lt_Some in Ha; lia|].
    apply (ln_gone _ _ _ (iv_link _ _ _ _ _ Hinv (S i) b a Hb Ha)). right. right. by apply IH.
Qed.

Lemma progress A s k : inv A s k ->
  step s \/ (s.(n_out) = concat (map line (sieve nums)) /\
    forall j u, s.(n_procs) !! j = Some u -> j = P /\ u.(us_status) <> None).
Proof.
  intros Hinv. destruct (iv_last _ _ _ _ _ Hinv) as (z & Hz & _ & _ & _ & Hs & Ho). apply last_at in Hz.
  destruct (lookup_lt_is_Some_2 A 0) as [a0 H0]; [apply lookup_lt_Some in Hz; lia|].
  destruct (settle_all A s k Hinv (length A) 0 a0 ltac:(lia) H0) as [|[E0|[E0|(j & p & ? & _)]]]; [by left| | |done].
  - right. assert (z.(ph) = Dead \/ z.(ph) = Gone) as Hzp.
    { destruct (length A - 1)%nat as [|i] eqn:El; [rewrite H0 in Hz; injection Hz as <-; by left|].
      right. eapply all_gone; [exact Hinv|by exists a0|exact Hz]. }
    assert (to_write z = [] /\ to_print z = []) as [Ew Ep] by (unfold to_write, to_print; destruct Hzp as [-> | ->]; done).
    rewrite Ew, app_nil_r in Hs. rewrite Ep, app_nil_r in Ho. split; [by rewrite Ho, Hs|].
    intros j u Hu. destruct (procs_chain _ _ _ _ _ _ _ Hinv Hu) as (i & x & -> & Hx & _ & Hg & _).
    destruct i as [|i]; [|exfalso; apply Hg; eapply all_gone; [exact Hinv|by exists a0|exact Hx]].
    rewrite H0 in Hx. injection Hx as <-. split; [lia|]. pose proof (iv_proc _ _ _ _ _ Hinv 0%nat a0 H0) as Hp.
    unfold proc_ok in Hp. rewrite E0, Hu in Hp. destruct Hp as (v & [= <-] & Hst & _). done.
  - exfalso. pose proof (oo_phase _ _ (iv_one _ _ _ _ _ Hinv _ _ H0)) as Hok. unfold phase_ok in Hok. rewrite E0 in Hok. by destruct Hok.
Qed.
End Progress.

(** ** The theorem *)

Lemma inv_boot P nums t : nums <> [] -> Forall num nums -> follows (main_s nums) t -> inv P nums [mkA MPipe 0 nums false] (boot P t) 0.
Proof.
  intros Hne Hnum Hfol. assert (forall i (a : astate), [mkA MPipe 0 nums false] !! i = Some a -> i = 0%nat /\ a = mkA MPipe 0 nums false) as Hget
    by (by intros i a [-> ->]%list_lookup_singleton_Some).
  constructor.
  - intros i a [-> ->]%Hget. exists t. split; [|done]. cbn [boot n_procs]. rewrite Z.add_0_r. by rewrite lookup_singleton_eq.
  - intros j Hj. cbn in *. apply lookup_singleton_ne. lia.
  - intros i a [-> ->]%Hget. by constructor.
  - intros i a b _ [? _]%Hget. done.
  - done.
  - exists (mkA MPipe 0 nums false). split_and!; done.
  - exact (Nat.add_0_r _).
Qed.

Lemma inv_steps nproc nfile P nums t : enough nproc nfile P nums -> nums <> [] -> Forall num nums -> follows (main_s nums) t ->
  forall k s, nsteps nproc nfile k (boot P t) s -> exists A, inv P nums A s k.
Proof.
  intros Hen Hne Hnum Hfol k s H. remember (boot P t) as s0 eqn:E. induction H as [s0|k s0 s1 s2 H1 IH Hstep].
  - subst s0. eexists. by apply inv_boot.
  - destruct (IH E) as [A Hinv]. by eapply inv_step.
Qed.

(** No number between 2 and [n - 1] divides [n]. *)
Definition is_prime (n : Z) : bool := forallb (fun d => negb (n mod d =? 0)) (zrange 2 (Z.to_nat (n - 2))).
Definition prime_line (p : Z) : list Z := str "prime " ++ str (pretty p) ++ [10].

Definition primes_280 : list Z := List.filter is_prime (zrange 2 279).

Lemma sieve_primes : concat (map line (sieve (zrange 2 279))) = concat (map prime_line primes_280).
Proof. by vm_compute. Qed.

Lemma length_sieve : length (sieve (zrange 2 279)) = 59%nat.
Proof. by vm_compute. Qed.

Lemma length_main : length_s (main_s (zrange 2 279)) = 5421%nat.
Proof. by vm_compute. Qed.

(** [C19] The prime sieve in every interleaving of its processes, with room for 60 processes and for
    118 open files: no run has more than 5421 system calls; what has been printed at any time is a
    beginning of the list of the primes up to 280, in order and one on a line; and when no process can
    go on, the whole list has been printed, the first process has exited, and all others have
    exited and been waited for. *)
Theorem primes_every_interleaving nproc nfile pid junk k s :
  1 < pid -> length junk = 4%nat -> (60 <= nproc)%nat -> (118 <= nfile)%nat ->
  nsteps nproc nfile k (boot pid (start (primes_main junk))) s ->
  (k <= 5421)%nat /\
  s.(n_out) `prefix_of` concat (map prime_line primes_280) /\
  ((exists s', nstep nproc nfile s s') \/
   s.(n_out) = concat (map prime_line primes_280) /\
   forall j u, s.(n_procs) !! j = Some u -> j = pid /\ u.(us_status) <> None).
Proof.
  intros HP Hjunk Hnproc Hnfile H. set (nums := zrange 2 279).
  assert (enough nproc nfile pid nums) as Hen by (unfold enough, nums; rewrite length_sieve; lia).
  assert (Forall num nums) as Hnum by (apply Forall_forall; intros n Hn%elem_of_zrange; unfold num; lia).
  destruct (inv_steps nproc nfile pid nums _ Hen ltac:(done) Hnum (main_follows junk Hjunk) k s H) as [A Hinv].
  split; [pose proof (iv_weight _ _ _ _ _ Hinv) as Hw; unfold nums in Hw; rewrite length_main in Hw; lia|].
  rewrite <- sieve_primes. split; [|by eapply progress].
  destruct (iv_last _ _ _ _ _ Hinv) as (z & _ & _ & _ & _ & Hs & Ho). fold nums. rewrite Hs, map_app, concat_app, <- Ho.
  exists (to_print z ++ concat (map line (sieve (to_write z)))). by rewrite <- !(assoc_L (++)).
Qed.

Lemma primes_every_interleaving_witness :
  let s := boot 3 (start (primes_main [0; 0; 0; 0])) in
  nsteps 60 118 0 s s /\ exists s', nstep 60 118 s s'.
Proof.
  cbv zeta. split; [apply nsteps_refl|].
  destruct (primes_every_interleaving 60 118 3 [0; 0; 0; 0] 0 (boot 3 (start (primes_main [0; 0; 0; 0])))) as (_ & _ & [H|[H _]]);
    [lia|reflexivity|lia|lia|apply nsteps_refl|exact H|].
  exfalso. cbn [boot n_out] in H. apply (f_equal (@length Z)) in H. vm_compute in H. discriminate H.
Defined.
