(* ===== verification/PrimesFiles.v ===== *)
(** * Running several processes

    The step of one process of [Net] as a function, and a run of the processes:
    the next call is that of the process after the last one that ran, or of
    that one, or of the nearest one before it, by pid. *)

From Stdlib Require Import Eqdep.
From ITree Require Import ITree.
From S2P Require Import Prelude Params User UPrintf Utils Net Primes PrimesNet PrimesSpec.

Section Run.
Context (nproc nfile : nat).

(** The zombie child with the lowest pid. *)
Definition zombie_child (s : net) (i : Z) : option Z :=
  List.find (fun j => match s.(n_procs) !! j with
    | Some v => (v.(us_parent) =? i) && bool_decide (v.(us_status) <> None) | None => false end)
    (map fst (map_to_list s.(n_procs))).

Definition has_child (s : net) (i : Z) : bool := bool_decide (map_Exists (fun _ v => v.(us_parent) = i) s.(n_procs)).

Definition run_call (s : net) (i : Z) (u : uproc) {A} (e : sysE A) : (A -> prog Z) -> option net :=
  match e in sysE A return (A -> prog Z) -> option net with
  | Sys_getpid => fun k => Some (go i u (k i) s)
  | Sys_fork => fun k => Some (
      if decide (size s.(n_procs) < nproc)%nat then
        let s1 := go i u (k s.(n_pid)) s in
        mkNet (<[s.(n_pid) := mkUproc (k 0) u.(us_fds) i 0 None]> s1.(n_procs)) s.(n_pipes) s.(n_out) (s.(n_pid) + 1) s.(n_pipe)
      else go i u (k (-1)) s)
  | Sys_exit st => fun _ =>
      Some (set_procs (fun ps => <[i := mkUproc u.(us_prog) ∅ u.(us_parent) 0 (Some st)]> (orphan i <$> ps)) s)
  | Sys_wait => fun k =>
      match zombie_child s i with
      | Some j => Some (set_procs (delete j) (go i u (k j) s))
      | None => if has_child s i then None else Some (go i u (k (-1)) s)
      end
  | Sys_pipe => fun k => Some (
      match free_fd u.(us_fds) with
      | Some p0 =>
          match free_fd (<[p0 := Rd s.(n_pipe)]> u.(us_fds)) with
          | Some p1 =>
              if decide (pipe_files s + 2 <= nfile)%nat then
                let s1 := go_fds i u (k (0, (p0, p1))) (<[p1 := Wr s.(n_pipe)]> (<[p0 := Rd s.(n_pipe)]> u.(us_fds))) s in
                mkNet s1.(n_procs) (<[s.(n_pipe) := []]> s.(n_pipes)) s.(n_out) s.(n_pid) (S s.(n_pipe))
              else go i u (k (-1, (-1, -1))) s
          | None => go i u (k (-1, (-1, -1))) s
          end
      | None => go i u (k (-1, (-1, -1))) s
      end)
  | Sys_close fd => fun k => Some (
      match u.(us_fds) !! fd with
      | Some _ => go_fds i u (k 0) (delete fd u.(us_fds)) s
      | None => go i u (k (-1)) s
      end)
  | Sys_write fd bs => fun k =>
      match u.(us_fds) !! fd with
      | Some Cons => Some (put_out bs (go i u (k (Z.of_nat (length bs))) s))
      | Some (Wr id) =>
          if in_use (Rd id) s then
            let buf := default [] (s.(n_pipes) !! id) in
            if decide (length (drop u.(us_sent) bs) <= PIPESIZE - length buf)%nat then
              Some (set_pipes <[id := buf ++ drop u.(us_sent) bs]> (go i u (k (Z.of_nat (length bs))) s))
            else None
          else Some (go i u (k (-1)) s)
      | _ => Some (go i u (k (-1)) s)
      end
  | Sys_read fd n => fun k =>
      match u.(us_fds) !! fd with
      | Some (Rd id) =>
          let buf := default [] (s.(n_pipes) !! id) in
          let m := (length buf `min` Z.to_nat n)%nat in
          if bool_decide (buf = []) && in_use (Wr id) s then None
          else Some (set_pipes <[id := drop m buf]> (go i u (k (Z.of_nat m, take m buf)) s))
      | Some Cons => None
      | _ => Some (go i u (k (-1, [])) s)
      end
  | _ => fun _ => None
  end.

Lemma run_call_sound s i u {A} (e : sysE A) k s' : run_call s i u e k = Some s' -> call_step nproc nfile s i u e k s'.
Proof.
  destruct e; cbn [run_call call_step]; try done; try (by intros [= <-]).
  - unfold zombie_child. destruct (List.find _ _) as [j|] eqn:Hf.
    + intros [= <-]. left. apply List.find_some in Hf as [_ Hf]. destruct (s.(n_procs) !! j) as [v|] eqn:Hv; [|done].
      apply andb_true_iff in Hf as [Hp%Z.eqb_eq Hst%bool_decide_eq_true]. destruct (us_status v) as [st|] eqn:Est; [|done].
      exists j, v, st. done.
    + unfold has_child. case_bool_decide as Hc; [done|]. intros [= <-]. right. split; [|done]. intros j v Hv Hp. apply Hc. by exists j, v.
  - destruct (us_fds u !! fd) as [[]|]; try (by intros [= <-]). destruct (in_use (Rd id) s); [|by intros [= <-]].
    case_decide; [by intros [= <-]|done].
  - destruct (us_fds u !! fd) as [[]|]; try done; try (by intros [= <-]).
    destruct (bool_decide (default [] (n_pipes s !! id) = []) && in_use (Wr id) s) eqn:Eb; [done|]. intros [= <-]. split; [|done].
    apply andb_false_iff in Eb as [Eb%bool_decide_eq_false|Eb]; [by left|by right].
Qed.

(** The next call of a program, after at most [fuel] internal steps. *)
Fixpoint run_prog (fuel : nat) (s : net) (i : Z) (u : uproc) (t : prog Z) : option net :=
  match fuel with
  | O => None
  | S fuel' =>
      match observe t with
      | RetF _ => None
      | TauF t' => run_prog fuel' s i u t'
      | VisF e k => run_call s i u e k
      end
  end.

Lemma run_prog_sound fuel s i u t s' : run_prog fuel s i u t = Some s' ->
  exists A (e : sysE A) k, calls e k t /\ call_step nproc nfile s i u e k s'.
Proof.
  revert t. induction fuel as [|fuel IH]; intros t; cbn [run_prog]; [done|].
  destruct (observe t) as [r|t'|A e k] eqn:E; [done| |].
  - intros (A & e & k & Hc & Hs)%IH. exists A, e, k. split; [|done]. by eapply calls_tau.
  - intros H%run_call_sound. exists A, e, k. split; [|done]. by apply calls_vis.
Qed.

Definition run_proc (s : net) (i : Z) : option net :=
  match s.(n_procs) !! i with
  | Some u => match u.(us_status) with None => run_prog 10 s i u u.(us_prog) | Some _ => None end
  | None => None
  end.

Lemma run_proc_sound s i s' : run_proc s i = Some s' -> nstep nproc nfile s s'.
Proof.
  unfold run_proc. destruct (s.(n_procs) !! i) as [u|] eqn:Hu; [|done]. destruct (us_status u) eqn:Hst; [done|].
  intros (A & e & k & Hc & Hs)%run_prog_sound. by eapply nstep_call.
Qed.

(** The first of the processes that can go on. *)
Fixpoint run_first (s : net) (pids : list Z) : option (Z * net) :=
  match pids with
  | [] => None
  | i :: pids' => match run_proc s i with Some s' => Some (i, s') | None => run_first s pids' end
  end.

Fixpoint run (fuel : nat) (base last : Z) (s : net) : nat * net :=
  match fuel with
  | O => (O, s)
  | S fuel' =>
      match run_first s (last + 1 :: rev (zrange base (Z.to_nat (last - base + 1)))) with
      | Some (i, s') => let '(n, s'') := run fuel' base i s' in (S n, s'')
      | None => (O, s)
      end
  end.

Lemma nsteps_left n s1 s2 s3 : nstep nproc nfile s1 s2 -> nsteps nproc nfile n s2 s3 -> nsteps nproc nfile (S n) s1 s3.
Proof.
  intros H1 H2. induction H2 as [s|n s2 s3 s4 H2 IH H3]; [eapply nsteps_step; [apply nsteps_refl|done]|].
  eapply nsteps_step; [by apply IH|done].
Qed.

Lemma run_sound fuel base : forall last s n s', run fuel base last s = (n, s') -> nsteps nproc nfile n s s'.
Proof.
  assert (forall pids s i s', run_first s pids = Some (i, s') -> nstep nproc nfile s s') as Hfirst.
  { intros pids s i s'. induction pids as [|j pids IH]; cbn [run_first]; [done|].
    destruct (run_proc s j) eqn:E; [intros [= <- <-]; by eapply run_proc_sound|done]. }
  induction fuel as [|fuel IH]; intros last s n s'; cbn [run]; [intros [= <- <-]; apply nsteps_refl|].
  destruct (run_first s _) as [[i s1]|] eqn:E; [|intros [= <- <-]; apply nsteps_refl].
  destruct (run fuel base i s1) as [m s2] eqn:Er. intros [= <- <-]. eapply nsteps_left; [by eapply Hfirst|by eapply IH].
Qed.
End Run.

(** * primes and the file table

    Along the chain of processes every pipe keeps two files open until its
    writer is done. When the later processes always run first, the numbers
    pass through the chain before [main] is done, and the [NFILE] files of the
    system do not suffice. *)

(** Two processes, init and the shell, and one open file, the console, are
    there before. *)
Definition free_procs : nat := Z.to_nat NPROC - 2.
Definition free_files : nat := Z.to_nat NFILE - 1.

Definition failing_run : nat * net := run free_procs free_files 6000 3 3 (boot 3 (start (primes_main [0; 0; 0; 0]))).

Definition failing_output : list Z :=
  concat (map prime_line (List.filter (fun p => p <=? 227) primes_280)) ++ str "52: pipe error" ++ [10].

(** Only process [i] is left, and it has exited with status [st]. *)
Definition only_zombie (i st : Z) (s : net) : bool :=
  bool_decide (map (fun x : Z * uproc => (fst x, us_status (snd x))) (map_to_list s.(n_procs)) = [(i, Some st)]).

Lemma failing_run_eq :
  bool_decide (n_out (snd failing_run) = failing_output) && only_zombie 3 0 (snd failing_run) &&
  (n_pid (snd failing_run) =? 53) = true.
Proof. vm_compute. reflexivity. Qed.

Lemma only_zombie_procs i st s : only_zombie i st s = true ->
  (exists u, s.(n_procs) !! i = Some u) /\ forall j u, s.(n_procs) !! j = Some u -> j = i /\ us_status u = Some st.
Proof.
  intros H%bool_decide_eq_true.
  assert (forall j u, s.(n_procs) !! j = Some u -> (j, us_status u) = (i, Some st)) as Hin.
  { intros j u Hu. apply elem_of_map_to_list in Hu.
    apply (list_elem_of_fmap_2 (fun x : Z * uproc => (fst x, us_status (snd x)))) in Hu as Hm.
    change (_ <$> _) with (map (fun x : Z * uproc => (fst x, us_status (snd x))) (map_to_list s.(n_procs))) in Hm.
    rewrite H in Hm. by apply list_elem_of_singleton in Hm. }
  split; [|by intros j u [= -> ->]%Hin].
  destruct (map_to_list s.(n_procs)) as [|[j u] l] eqn:E; [done|]. injection H as -> _ _.
  exists u. apply elem_of_map_to_list. rewrite E. by left.
Qed.

(** [C20] With the file table of the system, of [NFILE] entries, the prime sieve has a run that prints
    the primes up to 227 only, because the call of [pipe] of the process 52 fails: it prints
    the error as the last line. After it the processes 4 to 52 have exited and been waited for,
    and the first process has exited, with status 0: the failure goes unnoticed. *)
Theorem primes_out_of_files :
  exists k s, nsteps free_procs free_files k (boot 3 (start (primes_main [0; 0; 0; 0]))) s /\
    s.(n_pid) = 53 /\ (exists u, s.(n_procs) !! 3 = Some u) /\
    (forall j u, s.(n_procs) !! j = Some u -> j = 3 /\ us_status u = Some 0) /\
    (forall s', ~ nstep free_procs free_files s s') /\ s.(n_out) = failing_output.
Proof.
  pose proof failing_run_eq as H. apply andb_true_iff in H as [[Ho%bool_decide_eq_true Hex]%andb_true_iff Hp%Z.eqb_eq].
  destruct (only_zombie_procs _ _ _ Hex) as [H3 Hall].
  exists (fst failing_run), (snd failing_run). split_and!; [|done|done|done| |done].
  - apply (run_sound _ _ 6000 3 3). apply surjective_pairing.
  - intros s' [j u B e k s2 Hu Hst _ _]. destruct (Hall j u Hu) as [_ E]. by rewrite E in Hst.
Qed.
