(* ===== verification/Umalloc.v ===== *)
(** * The memory allocator of user programs (user/umalloc.c)

    A [Header] takes 16 bytes: the pointer to the next block and, 8 bytes on,
    the size of the block in units of 16 bytes. [base] is the address of the
    static header the circular free list starts with; the heap is between it
    and the break. [sbrk] extends the heap up to [limit]. Loops on the list
    take fuel. *)

From S2P Require Import Prelude Params Mem.

Definition sizeof_Header : Z := 16.

(** [p->s.ptr] and [p->s.size] *)
Definition hptr (m : memory) (p : Z) : Z := load64 m p.
Definition hsize (m : memory) (p : Z) : Z := load32 m (p + 8).
Definition set_ptr (m : memory) (p v : Z) : memory := store64 m p v.
Definition set_size (m : memory) (p v : Z) : memory := store32 m (p + 8) v.

(** [freep] is 0 before the first call. *)
Record ustate : Type := mkUstate { u_mem : memory; u_freep : Z; u_brk : Z }.

Section Umalloc.
Context (base limit : Z).

(** The system call: the old break, or -1 when the heap cannot grow. A
    negative [n] shrinks it, except when the new break is negative, that is,
    as an unsigned number, larger than the old one. *)
Definition sbrk (n : Z) (st : ustate) : Z * ustate :=
  let new := mkUstate st.(u_mem) st.(u_freep) (st.(u_brk) + n) in
  if n >? 0 then (if st.(u_brk) + n <=? limit then (st.(u_brk), new) else (-1, st))
  else (st.(u_brk), if u64 (st.(u_brk) + n) <? st.(u_brk) then new else st).

(** [for(p = freep; !(bp > p && bp < p->s.ptr); p = p->s.ptr) ...] *)
Fixpoint free_find (fuel : nat) (m : memory) (bp p : Z) : option Z :=
  match fuel with
  | O => None
  | S fuel' =>
      if (bp >? p) && (bp <? hptr m p) then Some p
      else if (p >=? hptr m p) && ((bp >? p) || (bp <? hptr m p)) then Some p
      else free_find fuel' m bp (hptr m p)
  end.

Definition free (fuel : nat) (ap : Z) (st : ustate) : option ustate :=
  let bp := ap - sizeof_Header in
  let m := st.(u_mem) in
  match free_find fuel m bp st.(u_freep) with
  | None => None
  | Some p =>
      let m :=
        if bp + sizeof_Header * hsize m bp =? hptr m p then
          let m := set_size m bp (u32 (hsize m bp + hsize m (hptr m p))) in
          set_ptr m bp (hptr m (hptr m p))
        else set_ptr m bp (hptr m p) in
      let m :=
        if p + sizeof_Header * hsize m p =? bp then
          let m := set_size m p (u32 (hsize m p + hsize m bp)) in
          set_ptr m p (hptr m bp)
        else set_ptr m p bp in
      Some (mkUstate m p st.(u_brk))
  end.

(** 0 when [sbrk] fails. *)
Definition morecore (fuel : nat) (nu : Z) (st : ustate) : option (Z * ustate) :=
  let nu := if nu <? 4096 then 4096 else nu in
  let '(p, st) := sbrk (i32 (nu * sizeof_Header)) st in
  if p =? -1 then Some (0, st) else
  let st := mkUstate (set_size st.(u_mem) p nu) st.(u_freep) st.(u_brk) in
  match free fuel (p + sizeof_Header) st with
  | None => None
  | Some st => Some (st.(u_freep), st)
  end.

Fixpoint malloc_loop (fuel : nat) (nunits prevp p : Z) (st : ustate) : option (Z * ustate) :=
  match fuel with
  | O => None
  | S fuel' =>
      let m := st.(u_mem) in
      if hsize m p >=? nunits then
        if hsize m p =? nunits then
          Some (p + sizeof_Header, mkUstate (set_ptr m prevp (hptr m p)) prevp st.(u_brk))
        else
          let m := set_size m p (hsize m p - nunits) in
          let p := p + sizeof_Header * hsize m p in
          let m := set_size m p nunits in
          Some (p + sizeof_Header, mkUstate m prevp st.(u_brk))
      else if p =? st.(u_freep) then
        match morecore fuel' nunits st with
        | None => None
        | Some (p, st) => if p =? 0 then Some (0, st) else malloc_loop fuel' nunits p (hptr st.(u_mem) p) st
        end
      else malloc_loop fuel' nunits p (hptr m p) st
  end.

Definition units (nbytes : Z) : Z := u32 ((nbytes + sizeof_Header - 1) / sizeof_Header + 1).

(** The first call makes the list of the static header alone. *)
Definition malloc_init (st : ustate) : ustate :=
  if st.(u_freep) =? 0 then
    mkUstate (set_size (set_ptr st.(u_mem) base base) base 0) base st.(u_brk)
  else st.

Definition malloc (fuel : nat) (nbytes : Z) (st : ustate) : option (Z * ustate) :=
  let nunits := units nbytes in
  let st := malloc_init st in
  malloc_loop fuel nunits st.(u_freep) (hptr st.(u_mem) st.(u_freep)) st.

End Umalloc.

(** ** Headers *)

Lemma load32_range m a : 0 <= load32 m a < 2 ^ 32.
Proof. unfold load32. pose proof (le_decode_bound (load_bytes m a 4)) as H. by rewrite length_load_bytes in H. Qed.

Lemma load32_store32 m a v : load32 (store32 m a v) a = u32 v.
Proof.
  unfold load32, store32, u32. replace 4%nat with (length (le_encode 4 v)) at 1 by apply length_le_encode.
  rewrite load_bytes_store_bytes by apply le_encode_range. by rewrite le_decode_encode.
Qed.

Lemma load32_ext m m' a : (forall x, a <= x < a + 4 -> load8 m' x = load8 m x) -> load32 m' a = load32 m a.
Proof. intros H. unfold load32. f_equal. apply load_bytes_ext. intros x Hx. apply H. lia. Qed.

Lemma load8_store32_out m a v x : ~ (a <= x < a + 4) -> load8 (store32 m a v) x = load8 m x.
Proof. intros H. apply load8_store_bytes_out. rewrite length_le_encode. lia. Qed.

(** Two headers do not overlap. *)
Definition apart (p q : Z) : Prop := p + 16 <= q \/ q + 16 <= p.

Lemma hptr_set_ptr m p v : hptr (set_ptr m p v) p = u64 v.
Proof. apply load64_store64. Qed.
Lemma hptr_set_size m p q v : p = q \/ apart p q -> hptr (set_size m p v) q = hptr m q.
Proof. intros H. apply load64_ext. intros x Hx. apply load8_store32_out. unfold apart in H. lia. Qed.
Lemma hptr_set_ptr_ne m p q v : apart p q -> hptr (set_ptr m p v) q = hptr m q.
Proof. intros H. apply load64_store64_ne. unfold apart in H. lia. Qed.
Lemma hsize_set_size m p v : hsize (set_size m p v) p = u32 v.
Proof. apply load32_store32. Qed.
Lemma hsize_set_ptr m p q v : p = q \/ apart p q -> hsize (set_ptr m p v) q = hsize m q.
Proof. intros H. apply load32_ext. intros x Hx. apply load8_store64_out. unfold apart in H. lia. Qed.
Lemma hsize_set_size_ne m p q v : apart p q -> hsize (set_size m p v) q = hsize m q.
Proof. intros H. apply load32_ext. intros x Hx. apply load8_store32_out. unfold apart in H. lia. Qed.
Lemma hsize_range m p : 0 <= hsize m p < 2 ^ 32.
Proof. apply load32_range. Qed.

Lemma changed_set_ptr m p v : changed_in (fun x => p <= x < p + 16) m (set_ptr m p v).
Proof. intros x Hx. apply load8_store64_out. lia. Qed.
Lemma changed_set_size m p v : changed_in (fun x => p <= x < p + 16) m (set_size m p v).
Proof. intros x Hx. apply load8_store32_out. lia. Qed.
