(* ===== verification/UmallocSpec.v ===== *)
(** * The memory allocator: correctness

    The free list is a circular list of disjoint blocks in the order of their
    addresses. [free] adds the block it is given to the free memory and joins it
    with its neighbours; [malloc]
    takes a block of the size it is asked for out of the free memory, extended by the
    system if needed. *)

From S2P Require Import Prelude Params Mem Umalloc.

(** ** The free list *)

(** A block: its address and its size in units. *)
Definition block : Type := (Z * Z)%type.

Definition hd_addr (l : list block) (z : Z) : Z := match l with [] => z | b :: _ => fst b end.

(** The blocks are linked in order, the last one to [z]. *)
Fixpoint chain (m : memory) (l : list block) (z : Z) : Prop :=
  match l with
  | [] => True
  | (a, s) :: l' => hptr m a = hd_addr l' z /\ hsize m a = s /\ chain m l' z
  end.

(** The bytes of a block; its header has 16 even if the size is 0. *)
Definition extent (s : Z) : Z := 16 * Z.max 1 s.

(** The blocks are disjoint, ascending, and between [lo] and [hi]. *)
Fixpoint ordered (lo : Z) (l : list block) (hi : Z) : Prop :=
  match l with
  | [] => lo <= hi
  | (a, s) :: l' => lo <= a /\ 0 <= s /\ ordered (a + extent s) l' hi
  end.

(** No block ends where the next one starts: neighbours are joined. *)
Fixpoint merged (l : list block) : Prop :=
  match l with
  | (a, s) :: (((b, _) :: _) as l') => a + 16 * s <> b /\ merged l'
  | _ => True
  end.

(** The memory that is free. *)
Definition covers (l : list block) (x : Z) : Prop := exists a s, (a, s) ∈ l /\ a <= x < a + 16 * s.

(** The bytes the allocator may use: the free blocks and their headers. *)
Definition owned (l : list block) (x : Z) : Prop := exists a s, (a, s) ∈ l /\ a <= x < a + extent s.

Record heap (base : Z) (st : ustate) (L : list block) : Prop := {
  hp_head : exists l, L = (base, 0) :: l /\ Forall (fun b => 1 <= snd b) l;
  hp_chain : chain st.(u_mem) L base;
  hp_order : ordered base L st.(u_brk);
  hp_freep : exists s, (st.(u_freep), s) ∈ L;
  hp_brk : 0 < base /\ st.(u_brk) < 2 ^ 36;
}.

Lemma extent_pos s : 16 <= extent s /\ 16 * s <= extent s.
Proof. unfold extent. lia. Qed.

Lemma free_chain_app m l1 l2 z : chain m (l1 ++ l2) z <-> chain m l1 (hd_addr l2 z) /\ chain m l2 z.
Proof.
  induction l1 as [|[a s] l1 IH]; simpl; [naive_solver|]. rewrite IH.
  destruct l1; simpl; naive_solver.
Qed.

Lemma ordered_mono lo lo' l hi : lo' <= lo -> ordered lo l hi -> ordered lo' l hi.
Proof. destruct l as [|[a s] l]; simpl; [lia|]. intros H (? & ? & ?). split_and!; [lia|done|done]. Qed.

Lemma ordered_app lo l1 l2 hi : ordered lo (l1 ++ l2) hi <-> exists mid, ordered lo l1 mid /\ ordered mid l2 hi.
Proof.
  revert lo. induction l1 as [|[a s] l1 IH]; intros lo; simpl.
  - split; [intros H; exists lo; split; [lia|done]|]. intros (mid & H1 & H2). by eapply ordered_mono.
  - rewrite IH. naive_solver.
Qed.

Lemma ordered_hi lo l hi hi' : ordered lo l hi -> hi <= hi' -> ordered lo l hi'.
Proof. revert lo. induction l as [|[a s] l IH]; intros lo; simpl; [lia|]. intros (? & ? & ?) ?. split_and!; [done|done|by apply IH]. Qed.

Lemma ordered_le lo l hi : ordered lo l hi -> lo <= hi.
Proof.
  revert lo. induction l as [|[a s] l IH]; intros lo; simpl; [done|]. intros (? & ? & H%IH).
  pose proof (extent_pos s). lia.
Qed.

Lemma ordered_in lo l hi a s : ordered lo l hi -> (a, s) ∈ l -> lo <= a /\ a + extent s <= hi /\ 0 <= s.
Proof.
  revert lo. induction l as [|[a' s'] l IH]; intros lo; simpl; [by intros _ ?%elem_of_nil|].
  intros (H1 & H2 & H3) [[= -> ->]|Hin]%elem_of_cons.
  - split_and!; [lia|by apply (ordered_le _ _ _ H3)|done].
  - destruct (IH _ H3 Hin) as (? & ? & ?). pose proof (extent_pos s'). split_and!; [lia|done|done].
Qed.

(** Blocks of an ordered list are apart. *)
Lemma ordered_apart lo l1 a s l2 hi b t :
  ordered lo (l1 ++ (a, s) :: l2) hi -> (b, t) ∈ l1 \/ (b, t) ∈ l2 -> apart a b.
Proof.
  intros (mid & H1 & H2)%ordered_app Hin. simpl in H2. destruct H2 as (H2 & H3 & H4). unfold apart.
  pose proof (extent_pos s). pose proof (extent_pos t).
  destruct Hin as [Hin|Hin].
  - destruct (ordered_in _ _ _ _ _ H1 Hin) as (? & ? & ?). lia.
  - destruct (ordered_in _ _ _ _ _ H4 Hin) as (? & ? & ?). lia.
Qed.

Lemma merged_cons a s l : merged ((a, s) :: l) <-> (forall b t l', l = (b, t) :: l' -> a + 16 * s <> b) /\ merged l.
Proof. destruct l as [|[b t] l]; cbn [merged]; naive_solver. Qed.

(** What comes before a block only sees its address. *)
Lemma merged_app l1 a s s' l2 l3 :
  merged (l1 ++ (a, s) :: l2) -> merged ((a, s') :: l3) -> merged (l1 ++ (a, s') :: l3).
Proof.
  intros H H'. induction l1 as [|[b t] l1 IH]; [done|]. cbn [app] in *. apply merged_cons in H as [Hb H].
  apply merged_cons. split; [|by apply IH]. intros c u l' E. destruct l1 as [|d l1].
  - injection E as -> _ _. by eapply Hb.
  - injection E as -> _. by eapply Hb.
Qed.

Lemma merged_drop l1 l2 : merged (l1 ++ l2) -> merged l2.
Proof. induction l1 as [|[b t] l1 IH]; [done|]. cbn [app]. intros [_ H]%merged_cons. by apply IH. Qed.

(** The links only depend on the headers. *)
Lemma free_chain_ext m m' l z :
  chain m l z -> (forall a s, (a, s) ∈ l -> hptr m' a = hptr m a /\ hsize m' a = hsize m a) -> chain m' l z.
Proof.
  induction l as [|[a s] l IH]; simpl; [done|]. intros (H1 & H2 & H3) Hext.
  destruct (Hext a s ltac:(by left)) as [-> ->]. split_and!; [done|done|]. apply IH; [done|]. intros b t Hb. apply (Hext b t). by right.
Qed.

(** ** Searching the place of a block *)

Section Search.
Context (m : memory) (base bp : Z).

Lemma free_find_mono fuel fuel' p r : free_find fuel m bp p = Some r -> (fuel <= fuel')%nat -> free_find fuel' m bp p = Some r.
Proof.
  revert fuel' p. induction fuel as [|fuel IH]; intros [|fuel'] p; simpl; try done; [lia|].
  intros H Hle. destruct (_ && _); [done|]. destruct (_ && _); [done|]. apply IH; [done|lia].
Qed.

(** Blocks below the place, up to [a]. *)
Lemma search_low l a : forall lo fuel, chain m l a -> ordered lo l a -> a < bp ->
  free_find (length l + fuel) m bp (hd_addr l a) = free_find fuel m bp a.
Proof.
  induction l as [|[b s] l IH]; intros lo fuel Hc Ho Ha; [done|]. simpl in Hc, Ho. destruct Hc as (Hp & _ & Hc), Ho as (_ & Hs & Ho).
  assert (b < hptr m b <= a) as Hn.
  { rewrite Hp. pose proof (extent_pos s). destruct l as [|[b' s'] l]; simpl in *; [lia|].
    destruct Ho as (? & ? & Ho%ordered_le). pose proof (extent_pos s'). lia. }
  cbn [length Nat.add free_find hd_addr fst].
  rewrite (proj2 (Z.ltb_ge bp (hptr m b))) by lia. rewrite andb_false_r, orb_false_r.
  assert ((b >=? hptr m b) = false) as -> by lia. cbn [andb]. rewrite Hp. by apply (IH (b + extent s)).
Qed.

(** Blocks above the place, up to the end of the list. *)
Lemma search_high l : forall lo hi fuel, chain m l base -> ordered lo l hi -> bp < lo -> base < bp ->
  free_find (length l + fuel) m bp (hd_addr l base) = free_find fuel m bp base.
Proof.
  induction l as [|[b s] l IH]; intros lo hi fuel Hc Ho Hlo Hb; [done|]. simpl in Hc, Ho. destruct Hc as (Hp & _ & Hc), Ho as (? & Hs & Ho).
  pose proof (extent_pos s). cbn [length Nat.add free_find hd_addr fst].
  assert ((bp >? b) = false) as -> by lia. cbn [andb orb].
  assert ((b >=? hptr m b) && (bp <? hptr m b) = false) as ->.
  { rewrite Hp. destruct l as [|[b' s'] l]; simpl in *; [lia|]. destruct Ho as (? & _). lia. }
  rewrite Hp. apply (IH (b + extent s) hi); [done|done|lia|done].
Qed.

Lemma search_stop a s B fuel lo hi :
  chain m ((a, s) :: B) base -> ordered lo ((a, s) :: B) hi -> base <= a < bp -> bp < hd_addr B hi ->
  (B = [] -> bp < hi) -> free_find (S fuel) m bp a = Some a.
Proof.
  simpl. intros (Hp & _ & _) _ Ha Hb _. destruct B as [|[b t] B]; simpl in *; rewrite Hp.
  - assert ((bp >? a) && (bp <? base) = false) as -> by lia. by assert ((a >=? base) && ((bp >? a) || (bp <? base)) = true) as -> by lia.
  - by assert ((bp >? a) && (bp <? b) = true) as -> by lia.
Qed.

(** The search finds the block before the place from wherever it starts. *)
Lemma free_find_ok A a s B hi q t :
  (exists l, A ++ (a, s) :: B = (base, 0) :: l) ->
  chain m (A ++ (a, s) :: B) base -> ordered base (A ++ (a, s) :: B) hi -> a < bp -> bp < hd_addr B hi ->
  (q, t) ∈ A ++ (a, s) :: B ->
  free_find (2 * length (A ++ (a, s) :: B)) m bp q = Some a.
Proof.
  intros (l & El) Hc Ho Ha Hb Hq. pose proof Hc as [HcA HcB]%free_chain_app. cbn [hd_addr fst] in HcA.
  pose proof Ho as (mid & HoA & HoB)%ordered_app. pose proof (proj1 HoB) as Hmid.
  pose proof (ordered_hi _ _ _ a HoA Hmid) as HoA'.
  pose proof (ordered_le _ _ _ HoA') as Hba.
  assert (forall fuel, free_find (S fuel) m bp a = Some a) as Hstop.
  { intros fuel. apply (search_stop a s B fuel mid hi); try done. by intros ->. }
  rewrite length_app in *. cbn [length]. apply elem_of_app in Hq as [Hq|Hq].
  - apply list_elem_of_split in Hq as (A1 & A2 & ->). apply free_chain_app in HcA as [_ HcA].
    apply ordered_app in HoA' as (mid' & _ & HoA').
    apply (free_find_mono (length ((q, t) :: A2) + 1)); [|rewrite length_app; cbn [length]; lia].
    etransitivity; [exact (search_low ((q, t) :: A2) a mid' 1 HcA HoA' Ha)|apply Hstop].
  - apply elem_of_cons in Hq as [[= -> ->]|Hq]; [apply (free_find_mono 1); [apply Hstop|lia]|].
    apply list_elem_of_split in Hq as (B1 & B2 & ->). cbn [chain] in HcB. destruct HcB as (_ & _ & HcB).
    apply free_chain_app in HcB as [_ HcB]. cbn [ordered] in HoB. destruct HoB as (_ & _ & HoB).
    assert (bp < q) as Hbq.
    { apply ordered_app in HoB as (mid' & H1 & H2). destruct B1 as [|[b1 s1] B1]; simpl in *; [lia|].
      destruct H1 as (? & ? & H1%ordered_le). pose proof (extent_pos s1). lia. }
    apply ordered_app in HoB as (mid' & _ & HoB).
    apply (free_find_mono (length ((q, t) :: B2) + (length A + 1))); [|rewrite length_app; cbn [length]; lia].
    assert (ordered q ((q, t) :: B2) hi) as HoB' by (simpl in HoB |- *; split_and!; [lia|apply HoB|apply HoB]).
    etransitivity; [exact (search_high ((q, t) :: B2) q hi (length A + 1) HcB HoB' Hbq ltac:(lia))|].
    destruct A as [|[a0 s0] A]; [injection El as -> -> _; apply Hstop|]. injection El as -> -> _.
    etransitivity; [exact (search_low ((base, 0) :: A) a base 1 HcA HoA' Ha)|apply Hstop].
Qed.

End Search.

(** ** Inserting a block *)

Lemma u64_addr v : 0 <= v < 2 ^ 36 -> u64 v = v.
Proof. intros H. unfold u64. apply Z.mod_small. lia. Qed.

Lemma u32_size v : 0 <= 16 * v < 2 ^ 36 -> u32 v = v.
Proof. intros H. unfold u32. apply Z.mod_small. lia. Qed.

Lemma covers_cons a s l x : covers ((a, s) :: l) x <-> a <= x < a + 16 * s \/ covers l x.
Proof.
  unfold covers. split.
  - intros (b & t & [[= -> ->]|Hin]%elem_of_cons & Hx); [by left|right; eauto].
  - intros [Hx|(b & t & Hin & Hx)]; [exists a, s; split; [by left|done]|exists b, t; split; [by right|done]].
Qed.

Lemma covers_app l1 l2 x : covers (l1 ++ l2) x <-> covers l1 x \/ covers l2 x.
Proof.
  induction l1 as [|[a s] l1 IH]; simpl; [|rewrite !covers_cons, IH; tauto].
  split; [by right|]. intros [(b & t & ?%elem_of_nil & _)|?]; done.
Qed.

(** The end of the list after a block is joined with it or put before it. *)
Definition join (bp s : Z) (B : list block) : list block :=
  match B with
  | (b, t) :: B' => if bp + 16 * s =? b then (bp, s + t) :: B' else (bp, s) :: B
  | [] => [(bp, s)]
  end.

Lemma join_covers bp s B x :
  1 <= s -> (forall b t, (b, t) ∈ B -> 0 <= t) -> covers (join bp s B) x <-> bp <= x < bp + 16 * s \/ covers B x.
Proof.
  intros Hs HB. unfold join. destruct B as [|[b t] B]; [by rewrite covers_cons|].
  pose proof (HB b t ltac:(by left)). destruct (Z.eqb_spec (bp + 16 * s) b) as [<-|]; rewrite !covers_cons; [|tauto].
  split; [intros [?|?]|intros [?|[?|?]]]; try tauto; [|left; lia|left; lia].
  destruct (Z.lt_ge_cases x (bp + 16 * s)); [left; lia|right; left; lia].
Qed.

Lemma join_ordered bp s B hi : 1 <= s -> ordered (bp + 16 * s) B hi -> (forall b t, (b, t) ∈ B -> 1 <= t) -> ordered bp (join bp s B) hi.
Proof.
  intros Hs Ho HB. assert (extent s = 16 * s) as Es by (unfold extent; lia). unfold join.
  destruct B as [|[b t] B]; simpl in *; [rewrite Es; split_and!; lia|].
  destruct (Z.eqb_spec (bp + 16 * s) b) as [<-|]; simpl; rewrite ?Es; [|split_and!; [lia|lia|apply Ho|apply Ho|apply Ho]].
  destruct Ho as (_ & ? & Ho). pose proof (HB (bp + 16 * s) t ltac:(by left)). split_and!; [lia|lia|].
  unfold extent in *. replace (bp + 16 * Z.max 1 (s + t)) with (bp + 16 * s + 16 * Z.max 1 t) by lia. done.
Qed.

Lemma join_merged bp s B : merged B -> merged (join bp s B).
Proof.
  intros H. unfold join. destruct B as [|[b t] B]; [done|]. destruct (Z.eqb_spec (bp + 16 * s) b) as [E|E]; [|done].
  apply merged_cons in H as [H1 H2]. apply merged_cons. split; [|done]. intros c u l' El. specialize (H1 c u l' El). lia.
Qed.

(** The first half of [free]. *)
Lemma join_chain m base p bp B hi :
  hptr m p = hd_addr B base -> 0 < base -> base < bp -> hi < 2 ^ 36 -> 1 <= hsize m bp ->
  chain m B base -> ordered (bp + 16 * hsize m bp) B hi ->
  let m1 :=
    if bp + sizeof_Header * hsize m bp =? hptr m p then
      let m := set_size m bp (u32 (hsize m bp + hsize m (hptr m p))) in
      set_ptr m bp (hptr m (hptr m p))
    else set_ptr m bp (hptr m p) in
  apart bp p ->
  chain m1 (join bp (hsize m bp) B) base /\
  (forall q, apart bp q -> hptr m1 q = hptr m q /\ hsize m1 q = hsize m q) /\
  changed_in (fun x => bp <= x < bp + 16) m m1.
Proof.
  intros Hp Hb Hbp Hhi Hs Hc Ho m1 Hap. subst m1. rewrite Hp. unfold sizeof_Header.
  assert (forall v q, apart bp q -> hptr (set_ptr m bp v) q = hptr m q /\ hsize (set_ptr m bp v) q = hsize m q) as Hset.
  { intros v q Hq. split; [by apply hptr_set_ptr_ne|by apply hsize_set_ptr; right]. }
  pose proof (ordered_le _ _ _ Ho) as Hle. unfold join. destruct B as [|[b t] B]; cbn [hd_addr fst].
  - rewrite (proj2 (Z.eqb_neq _ base)) by lia. split_and!; [|apply Hset|apply changed_set_ptr].
    cbn [chain hd_addr]. rewrite hptr_set_ptr, u64_addr by lia. rewrite hsize_set_ptr by (by left). done.
  - cbn [chain ordered] in Hc, Ho. destruct Hc as (Hpb & Hsb & Hc), Ho as (Hlo & Ht & Ho).
    pose proof (extent_pos t). pose proof (ordered_le _ _ _ Ho) as Hle'.
    assert (forall c u, (c, u) ∈ B -> apart bp c) as HapB.
    { intros c u Hin. destruct (ordered_in _ _ _ _ _ Ho Hin) as (? & ? & ?). left. lia. }
    destruct (Z.eqb_spec (bp + 16 * hsize m bp) b) as [Eb|Eb].
    + cbv zeta. set (m' := set_size m bp _). assert (apart bp b) as Hab by (left; lia).
      assert (hptr m' p = b) as -> by (unfold m'; by rewrite hptr_set_size by (by right)).
      assert (hptr m' b = hd_addr B base) as -> by (unfold m'; by rewrite hptr_set_size by (by right)).
      assert (forall q, apart bp q -> hptr (set_ptr m' bp (hd_addr B base)) q = hptr m q /\
        hsize (set_ptr m' bp (hd_addr B base)) q = hsize m q) as Hset'.
      { intros q Hq. rewrite hptr_set_ptr_ne, hsize_set_ptr by (done || by right). unfold m'.
        rewrite hptr_set_size by (by right). by rewrite hsize_set_size_ne. }
      split_and!; [|done|eapply changed_in_trans; [apply changed_set_size|apply changed_set_ptr]].
      cbn [chain]. split_and!.
      * rewrite hptr_set_ptr, u64_addr; [done|]. destruct B as [|[c u] B]; cbn [hd_addr fst]; [lia|].
        cbn [ordered] in Ho. destruct Ho as (? & ? & Ho%ordered_le). pose proof (extent_pos u). lia.
      * rewrite hsize_set_ptr by (by left). unfold m'. rewrite hsize_set_size, Hsb, !u32_size by (rewrite ?u32_size; lia). done.
      * eapply free_chain_ext; [exact Hc|]. intros c u Hin. apply Hset'. by eapply HapB.
    + split_and!; [|apply Hset|apply changed_set_ptr]. cbn [chain hd_addr fst]. split_and!.
      * rewrite hptr_set_ptr, u64_addr by lia. done.
      * by rewrite hsize_set_ptr by (by left).
      * rewrite (proj1 (Hset b b ltac:(left; lia))). done.
      * rewrite (proj2 (Hset b b ltac:(left; lia))). done.
      * eapply free_chain_ext; [exact Hc|]. intros c u Hin. apply Hset. by eapply HapB.
Qed.

(** The list after the block before the place is joined with the rest or linked to it. *)
Definition attach (a sa bp s1 : Z) (B1 : list block) : list block :=
  if a + 16 * sa =? bp then (a, sa + s1) :: B1 else (a, sa) :: (bp, s1) :: B1.

Lemma attach_covers a sa bp s1 B1 x :
  0 <= sa -> 0 <= s1 -> covers (attach a sa bp s1 B1) x <-> covers ((a, sa) :: (bp, s1) :: B1) x.
Proof.
  intros H1 H2. unfold attach. destruct (Z.eqb_spec (a + 16 * sa) bp) as [<-|]; [|done]. rewrite !covers_cons.
  split; [intros [?|?]|intros [?|[?|?]]]; try tauto; [|left; lia|left; lia].
  destruct (Z.lt_ge_cases x (a + 16 * sa)); [left; lia|right; left; lia].
Qed.

Lemma attach_ordered lo a sa bp s1 B1 hi :
  0 <= sa -> 1 <= s1 -> ordered lo ((a, sa) :: (bp, s1) :: B1) hi -> ordered lo (attach a sa bp s1 B1) hi.
Proof.
  intros H1 H2 Ho. unfold attach. destruct (Z.eqb_spec (a + 16 * sa) bp) as [<-|]; [|done].
  cbn [ordered] in *. destruct Ho as (? & ? & ? & ? & Ho). unfold extent in *. split_and!; [done|lia|].
  by replace (a + 16 * Z.max 1 (sa + s1)) with (a + 16 * sa + 16 * Z.max 1 s1) by lia.
Qed.

Lemma attach_merged A a sa bp s1 B B1 :
  merged (A ++ (a, sa) :: B) -> merged ((bp, s1) :: B1) -> merged (A ++ attach a sa bp s1 B1).
Proof.
  intros H HJ. unfold attach. destruct (Z.eqb_spec (a + 16 * sa) bp) as [E|E]; (eapply merged_app; [exact H|]).
  - apply merged_cons in HJ as [H1 H2]. apply merged_cons. split; [|done]. intros c u l' El. specialize (H1 c u l' El). lia.
  - by split.
Qed.

(** The second half of [free]. *)
Lemma attach_chain m1 base A a sa bp s1 B1 lo hi :
  chain m1 A a -> hsize m1 a = sa -> chain m1 ((bp, s1) :: B1) base -> 0 <= s1 ->
  ordered lo (A ++ (a, sa) :: (bp, s1) :: B1) hi -> 0 < base < hi -> hi < 2 ^ 36 -> 0 <= lo ->
  let m2 :=
    if a + sizeof_Header * hsize m1 a =? bp then
      let m := set_size m1 a (u32 (hsize m1 a + hsize m1 bp)) in
      set_ptr m a (hptr m bp)
    else set_ptr m1 a bp in
  chain m2 (A ++ attach a sa bp s1 B1) base /\ changed_in (fun x => a <= x < a + 16) m1 m2.
Proof.
  intros HcA Hsa HcJ Hs1 Ho Hb Hhi Hlo m2. subst m2. unfold sizeof_Header, attach. rewrite Hsa.
  assert (forall b t, (b, t) ∈ A \/ (b, t) ∈ (bp, s1) :: B1 -> apart a b) as Hap
    by (intros b t Hin; by apply (ordered_apart _ _ _ _ _ _ _ _ Ho Hin)).
  cbn [chain] in HcJ. destruct HcJ as (Hpb & Hsb & HcB).
  apply ordered_app in Ho as (mid & HoA & HoB). pose proof (ordered_le _ _ _ HoA) as Hle. cbn [ordered] in HoB.
  destruct HoB as (? & ? & ? & ? & HoB). pose proof (ordered_le _ _ _ HoB) as HleB.
  pose proof (extent_pos sa). pose proof (extent_pos s1).
  assert (forall c u, (c, u) ∈ B1 -> apart a c) as HapB by (intros c u Hin; apply (Hap c u); right; by right).
  destruct (Z.eqb_spec (a + 16 * sa) bp) as [Eb|Eb].
  - cbv zeta. set (m := set_size m1 a _). set (m2 := set_ptr m a (hptr m bp)).
    assert (hptr m bp = hd_addr B1 base) as Ehp by (unfold m; by rewrite hptr_set_size by (right; apply (Hap bp s1); right; by left)).
    assert (forall q, apart a q -> hptr m2 q = hptr m1 q /\ hsize m2 q = hsize m1 q) as Hset.
    { intros q Hq. unfold m2. rewrite hptr_set_ptr_ne, hsize_set_ptr by (done || by right). unfold m.
      rewrite hptr_set_size by (by right). by rewrite hsize_set_size_ne. }
    split; [|eapply changed_in_trans; [apply changed_set_size|apply changed_set_ptr]].
    apply free_chain_app. cbn [hd_addr fst chain]. split; [|split_and!].
    + eapply free_chain_ext; [exact HcA|]. intros c u Hin. apply Hset, (Hap c u). by left.
    + unfold m2. rewrite hptr_set_ptr, Ehp. apply u64_addr. destruct B1 as [|[c u] B1]; cbn [hd_addr fst]; [lia|].
      cbn [ordered] in HoB. destruct HoB as (? & ? & HoB%ordered_le). pose proof (extent_pos u). lia.
    + unfold m2. rewrite hsize_set_ptr by (by left). unfold m. rewrite hsize_set_size, Hsb, !u32_size by (rewrite ?u32_size; lia). done.
    + eapply free_chain_ext; [exact HcB|]. intros c u Hin. apply Hset. by eapply HapB.
  - assert (forall q, apart a q -> hptr (set_ptr m1 a bp) q = hptr m1 q /\ hsize (set_ptr m1 a bp) q = hsize m1 q) as Hset.
    { intros q Hq. split; [by apply hptr_set_ptr_ne|by apply hsize_set_ptr; right]. }
    split; [|apply changed_set_ptr]. destruct (Hset bp) as [E1 E2]; [apply (Hap bp s1); right; by left|].
    apply free_chain_app. cbn [hd_addr fst chain]. rewrite E1, E2. split; [|split_and!; [|by rewrite hsize_set_ptr by (by left)|done|done|]].
    + eapply free_chain_ext; [exact HcA|]. intros c u Hin. apply Hset, (Hap c u). by left.
    + rewrite hptr_set_ptr. apply u64_addr. lia.
    + eapply free_chain_ext; [exact HcB|]. intros c u Hin. apply Hset. by eapply HapB.
Qed.

(** ** free *)

(** A block in use: outside of the free blocks, with its size in its header. *)
Record in_use (base : Z) (st : ustate) (L : list block) (bp s : Z) : Prop := {
  iu_size : hsize st.(u_mem) bp = s;
  iu_pos : 1 <= s;
  iu_low : base + 16 <= bp;
  iu_high : bp + 16 * s <= st.(u_brk);
  iu_apart : forall a t, (a, t) ∈ L -> a + extent t <= bp \/ bp + 16 * s <= a;
}.

(** The block before the place of a block in use. *)
Lemma split_place L bp s hi : forall lo a0 s0,
  ordered lo ((a0, s0) :: L) hi -> 1 <= s -> a0 + extent s0 <= bp -> bp + 16 * s <= hi ->
  (forall a t, (a, t) ∈ L -> a + extent t <= bp \/ bp + 16 * s <= a) ->
  exists A a sa B, (a0, s0) :: L = A ++ (a, sa) :: B /\ a + extent sa <= bp /\ ordered (bp + 16 * s) B hi.
Proof.
  induction L as [|[a1 s1] L IH]; intros lo a0 s0 Ho Hs Ha Hhi Hap.
  - by exists [], a0, s0, [].
  - cbn [ordered] in Ho. destruct Ho as (H1 & H2 & H3 & H4 & H5). destruct (Hap a1 s1 ltac:(by left)) as [Hl|Hr].
    + destruct (IH (a0 + extent s0) a1 s1) as (A & a & sa & B & E & Ha' & HB); [by split_and!|done|done|done| |].
      { intros a t Hin. apply Hap. by right. }
      exists ((a0, s0) :: A), a, sa, B. split; [by rewrite E|]. by split.
    + exists [], a0, s0, ((a1, s1) :: L). split_and!; [done|done|]. cbn [ordered]. by split_and!.
Qed.

Lemma join_shape bp s B :
  1 <= s -> Forall (fun b => 1 <= snd b) B ->
  exists s1 B1, join bp s B = (bp, s1) :: B1 /\ s <= s1 /\ Forall (fun b => 1 <= snd b) B1 /\ (length B1 <= length B)%nat.
Proof.
  intros Hs HB. unfold join. destruct HB as [|[b t] B Ht HB]; cbn [snd] in *; [by exists s, []|].
  destruct (_ =? _).
  - exists (s + t), B. split_and!; [done|lia|done|simpl; lia].
  - exists s, ((b, t) :: B). split_and!; [done|lia|by constructor|done].
Qed.

Lemma attach_shape a sa bp s1 B1 :
  0 <= sa -> 1 <= s1 -> Forall (fun b => 1 <= snd b) B1 ->
  exists s2 B2, attach a sa bp s1 B1 = (a, s2) :: B2 /\ (sa = s2 \/ 1 <= s2) /\ Forall (fun b => 1 <= snd b) B2 /\
    (length B2 <= S (length B1))%nat /\ (a + 16 * sa <> bp -> s2 = sa) /\ exists c u, (c, u) ∈ attach a sa bp s1 B1 /\ s1 <= u.
Proof.
  intros Hsa Hs1 HB. unfold attach. destruct (Z.eqb_spec (a + 16 * sa) bp) as [E|E].
  - exists (sa + s1), B1. split_and!; [done|lia|done|lia|done|]. exists a, (sa + s1). split; [by left|lia].
  - exists sa, ((bp, s1) :: B1). split_and!; [done|by left|by constructor|simpl; lia|done|].
    exists bp, s1. split; [right; by left|lia].
Qed.

Lemma free_ok base st L bp s fuel :
  heap base st L -> in_use base st L bp s -> (2 * length L <= fuel)%nat ->
  exists st' L', free fuel (bp + sizeof_Header) st = Some st' /\ heap base st' L' /\ st'.(u_brk) = st.(u_brk) /\
    (forall x, covers L' x <-> covers L x \/ bp <= x < bp + 16 * s) /\
    changed_in (fun x => owned L x \/ bp <= x < bp + 16) st.(u_mem) st'.(u_mem) /\
    (exists a t, (a, t) ∈ L' /\ s <= t) /\ (length L' <= S (length L))%nat /\ (merged L -> merged L').
Proof.
  intros [(l & -> & Hl) Hc Ho (sf & Hf) [Hb Hbrk]] [Hsz Hs Hlow Hhigh Hap] Hfuel. set (m := st.(u_mem)) in *.
  destruct (split_place l bp s st.(u_brk) base base 0 Ho Hs) as (A & a & sa & B & E & Ha & HoB); [unfold extent; lia|lia| |].
  { intros a t Hin. apply Hap. by right. }
  rewrite E in *. pose proof (extent_pos sa) as Hext.
  assert (free_find fuel m bp st.(u_freep) = Some a) as Hfind.
  { apply (free_find_mono m bp (2 * length (A ++ (a, sa) :: B))); [|done].
    apply (free_find_ok m base bp A a sa B st.(u_brk) st.(u_freep) sf); [by exists l|done|done|lia| |done].
    destruct B as [|[b t] B]; cbn [hd_addr fst ordered] in *; lia. }
  apply free_chain_app in Hc as [HcA HcB]. cbn [hd_addr fst chain] in HcA, HcB. destruct HcB as (Hpa & Hsa & HcB).
  apply ordered_app in Ho as (mid & HoA & HoB'). cbn [ordered] in HoB'. destruct HoB' as (Hmid & Hsa0 & _).
  pose proof (ordered_le _ _ _ HoA) as Hle.
  assert (Forall (fun b => 1 <= snd b) B /\ ((a, sa) = (base, 0) /\ A = [] \/ 1 <= sa /\ exists A', A = (base, 0) :: A' /\ Forall (fun b => 1 <= snd b) A')) as [HB HA].
  { destruct A as [|b0 A]; [injection E as E1 E2 E3; rewrite <- E1, <- E2, <- E3; split; [done|left; done]|]. injection E as <- ->.
    apply Forall_app in Hl as [HA [Hsa1 HB]%Forall_cons]. split; [done|]. right. split; [done|by exists A]. }
  assert (apart bp a) as Hapa by (right; lia).
  destruct (join_chain m base a bp B st.(u_brk) Hpa Hb ltac:(lia) Hbrk ltac:(lia) HcB) as (HcJ & Hkeep & Hch1);
    [by rewrite Hsz|done|].
  unfold free. fold m. replace (bp + sizeof_Header - sizeof_Header) with bp by lia. rewrite Hfind.
  set (m1 := if bp + sizeof_Header * hsize m bp =? hptr m a then _ else _) in *. rewrite Hsz in HcJ.
  destruct (join_shape bp s B Hs HB) as (s1 & B1 & EJ & Hs1 & HB1 & Hlen1). rewrite EJ in HcJ.
  assert (ordered bp ((bp, s1) :: B1) st.(u_brk)) as HoJ.
  { rewrite <- EJ. apply join_ordered; [done|done|]. intros b t Hin. rewrite Forall_forall in HB. by apply (HB (b, t)). }
  destruct (attach_shape a sa bp s1 B1 Hsa0 ltac:(lia) HB1) as (s2 & B2 & EA & Hs2 & HB2 & Hlen2 & Hs2' & Hbig).
  assert (ordered base (A ++ (a, sa) :: (bp, s1) :: B1) st.(u_brk)) as HoL.
  { apply ordered_app. exists mid. split; [done|]. cbn [ordered] in HoJ |- *.
    split_and!; [done|done|lia|apply HoJ|apply HoJ]. }
  assert (chain m1 A a) as HcA1.
  { eapply free_chain_ext; [exact HcA|]. intros c u Hin. apply Hkeep. right. destruct (ordered_in _ _ _ _ _ HoA Hin) as (_ & ? & _).
    pose proof (extent_pos u). lia. }
  destruct (attach_chain m1 base A a sa bp s1 B1 base st.(u_brk)) as [HcL Hch2]; try done; try lia.
  { by rewrite (proj2 (Hkeep a Hapa)). }
  set (m2 := if a + sizeof_Header * hsize m1 a =? bp then _ else _) in *.
  eexists _, (A ++ attach a sa bp s1 B1). split; [reflexivity|]. split; [|split_and!].
  - constructor; cbn [u_mem u_freep u_brk].
    + rewrite EA. destruct HA as [[[= -> ->] ->]|[Hsa1 (A' & -> & HA')]].
      * rewrite Hs2' by lia. by exists B2.
      * exists (A' ++ (a, s2) :: B2). split; [done|]. apply Forall_app. split; [done|]. constructor; [cbn; lia|done].
    + exact HcL.
    + apply ordered_app. apply ordered_app in HoL as (mid' & ? & ?). exists mid'. split; [done|]. apply attach_ordered; [done|lia|done].
    + exists s2. apply elem_of_app. right. rewrite EA. by left.
    + done.
  - done.
  - intros x. rewrite covers_app, attach_covers by lia. rewrite (covers_app A), !covers_cons.
    rewrite <- covers_cons with (l := B1), <- EJ, join_covers; [|done|].
    + tauto.
    + intros b t Hin. rewrite Forall_forall in HB. specialize (HB (b, t) Hin). cbn in HB. lia.
  - eapply changed_in_trans; [eapply changed_in_mono, Hch1; by right|]. eapply changed_in_mono, Hch2. intros x [Hx1 Hx2]. left.
    exists a, sa. split; [apply elem_of_app; right; by left|]. lia.
  - destruct Hbig as (c & u & Hin & Hu). exists c, u. split; [apply elem_of_app; by right|lia].
  - rewrite EA, !length_app. cbn [length]. lia.
  - intros Hm. eapply attach_merged; [exact Hm|]. rewrite <- EJ. apply join_merged. by apply merged_drop, merged_cons in Hm as [_ ?].
Qed.

(** ** malloc *)

(** What an allocation of [n] units at [bp] does to a heap. *)
Record allocated (base : Z) (st : ustate) (L : list block) (bp n : Z) (st' : ustate) (L' : list block) : Prop := {
  al_heap : heap base st' L';
  al_block : in_use base st' L' bp n;
  al_free : forall x, covers L x <-> covers L' x \/ bp <= x < bp + 16 * n;
  al_changed : changed_in (owned L) st.(u_mem) st'.(u_mem);
  al_brk : st'.(u_brk) = st.(u_brk);
  al_merged : merged L -> merged L';
}.

Lemma owned_in (L : list block) a s x : (a, s) ∈ L -> a <= x < a + extent s -> owned L x.
Proof. intros. by exists a, s. Qed.

(** What is left of a block of [s] units when [n] are taken from its end. *)
Definition rest_of (p s n : Z) : list block := if s =? n then [] else [(p, s - n)].

Lemma rest_covers p s n x : 1 <= n <= s ->
  p <= x < p + 16 * s <-> covers (rest_of p s n) x \/ p + 16 * (s - n) <= x < p + 16 * (s - n) + 16 * n.
Proof.
  intros Hn. unfold rest_of. assert (covers [] x <-> False) as Hnil by (split; [intros (a & t & ?%elem_of_nil & _); done|done]).
  destruct (Z.eqb_spec s n) as [->|]; rewrite ?covers_cons, Hnil; lia.
Qed.

Lemma rest_ordered p s n B hi lo : 1 <= n <= s ->
  ordered lo ((p, s) :: B) hi -> ordered lo (rest_of p s n ++ B) hi /\ ordered (p + 16 * (s - n) + 16 * n) B hi.
Proof.
  intros Hn Ho. cbn [ordered] in Ho. destruct Ho as (H1 & H2 & H3). assert (extent s = 16 * s) as Es by (unfold extent; lia).
  rewrite Es in H3. unfold rest_of. split; [|eapply ordered_mono, H3; lia].
  destruct (Z.eqb_spec s n) as [->|]; cbn [app ordered]; [eapply ordered_mono, H3; lia|].
  assert (extent (s - n) = 16 * (s - n)) as -> by (unfold extent; lia). split_and!; [lia|lia|]. eapply ordered_mono, H3. lia.
Qed.

(** Taking [n] units from a block of an ordered list that is not its first one. *)
Lemma carve base P p s n B l hi :
  P ++ (p, s) :: B = (base, 0) :: l -> P <> [] -> Forall (fun b => 1 <= snd b) l ->
  ordered base (P ++ (p, s) :: B) hi -> 1 <= n <= s ->
  let L' := P ++ rest_of p s n ++ B in
  let bp := p + 16 * (s - n) in
  (exists l', L' = (base, 0) :: l' /\ Forall (fun b => 1 <= snd b) l') /\ ordered base L' hi /\
  (forall x, covers (P ++ (p, s) :: B) x <-> covers L' x \/ bp <= x < bp + 16 * n) /\
  base + 16 <= bp /\ bp + 16 * n <= hi /\
  (forall a t, (a, t) ∈ L' -> a + extent t <= bp \/ bp + 16 * n <= a).
Proof.
  intros E Hne Hl Ho Hn L' bp. destruct P as [|b0 P]; [done|]. injection E as -> <-. clear Hne.
  apply Forall_app in Hl as [HP [Hs HB]%Forall_cons]. cbn [snd] in Hs.
  apply ordered_app in Ho as (mid & Ho1 & Ho2). destruct (rest_ordered p s n B hi mid Hn Ho2) as [Ho3 Ho4].
  assert (mid <= p) as Hmid by apply Ho2.
  assert (base + 16 <= mid) as Hbm by (apply ordered_in with (a := base) (s := 0) in Ho1 as (_ & H & _); [unfold extent in H; lia|by left]).
  split_and!.
  - exists (P ++ rest_of p s n ++ B). split; [done|]. rewrite !Forall_app. split_and!; [done| |done].
    unfold rest_of. destruct (Z.eqb_spec s n); constructor; [cbn; lia|done].
  - apply ordered_app. by exists mid.
  - intros x. unfold L'. rewrite !covers_app, (covers_cons p s B). pose proof (rest_covers p s n x Hn) as Hr. unfold bp. tauto.
  - unfold bp. lia.
  - apply ordered_le in Ho4. unfold bp. lia.
  - intros a t Hin. unfold L' in Hin. apply elem_of_app in Hin as [Hin|Hin]; [|apply elem_of_app in Hin as [Hin|Hin]].
    + left. destruct (ordered_in _ _ _ _ _ Ho1 Hin) as (_ & ? & _). unfold bp. lia.
    + left. unfold rest_of in Hin. destruct (Z.eqb_spec s n); [by apply elem_of_nil in Hin|].
      apply list_elem_of_singleton in Hin as [= -> ->]. unfold extent, bp. lia.
    + right. destruct (ordered_in _ _ _ _ _ Ho4 Hin) as (? & _ & _). unfold bp. lia.
Qed.

(** [n] units are taken from the block [p]; [q] is the block before it. *)
Definition take_mem (m : memory) (q p s n : Z) : memory :=
  if s =? n then set_ptr m q (hptr m p)
  else set_size (set_size m p (s - n)) (p + 16 * (s - n)) n.

Lemma take_chain m base brk A q t p s n B :
  chain m ((A ++ [(q, t)]) ++ (p, s) :: B) base -> ordered base ((A ++ [(q, t)]) ++ (p, s) :: B) brk ->
  0 < base -> brk < 2 ^ 36 -> 1 <= n <= s ->
  chain (take_mem m q p s n) ((A ++ [(q, t)]) ++ rest_of p s n ++ B) base /\
  hsize (take_mem m q p s n) (p + 16 * (s - n)) = n /\
  changed_in (owned ((A ++ [(q, t)]) ++ (p, s) :: B)) m (take_mem m q p s n).
Proof.
  intros Hc Ho Hb Hbrk Hn. set (L := (A ++ [(q, t)]) ++ (p, s) :: B) in *.
  assert (forall b u, (b, u) ∈ A ++ [(q, t)] \/ (b, u) ∈ B -> apart p b) as Happ
    by (intros b u Hin; by apply (ordered_apart _ _ _ _ _ _ _ _ Ho Hin)).
  pose proof Hc as [HcP HcB]%free_chain_app. cbn [hd_addr fst chain] in HcP, HcB. destruct HcB as (Hpp & Hsp & HcB).
  assert ((p, s) ∈ L /\ (q, t) ∈ L) as [HinP HinQ] by (unfold L; set_solver).
  pose proof (extent_pos t) as Het. unfold take_mem, rest_of. destruct (Z.eqb_spec s n) as [->|Hne]; cbn [app].
  - rewrite Z.sub_diag, Z.mul_0_r, Z.add_0_r. unfold L in Hc, Ho. rewrite <- !(assoc_L (++)) in Hc, Ho. cbn [app] in Hc, Ho.
    assert (forall b u, (b, u) ∈ A \/ (b, u) ∈ (p, n) :: B -> apart q b) as Hapq
      by (intros b u Hin; by apply (ordered_apart _ _ _ _ _ _ _ _ Ho Hin)).
    assert (forall b, apart q b -> hptr (set_ptr m q (hptr m p)) b = hptr m b /\ hsize (set_ptr m q (hptr m p)) b = hsize m b) as Hset
      by (intros b Hb'; split; [by apply hptr_set_ptr_ne|by apply hsize_set_ptr; right]).
    apply free_chain_app in Hc as [HcA HcQ]. cbn [hd_addr fst chain] in HcA, HcQ. destruct HcQ as (Hpq & Hsq & _).
    assert (0 <= hptr m p < 2 ^ 36) as Hr.
    { rewrite Hpp. destruct B as [|[c u] B]; cbn [hd_addr fst]; [apply ordered_le in Ho; lia|].
      destruct (ordered_in _ _ _ c u Ho ltac:(set_solver)) as (? & ? & ?). pose proof (extent_pos u). lia. }
    split_and!.
    + rewrite <- (assoc_L (++)). apply free_chain_app. cbn [app hd_addr fst chain]. split; [|split_and!].
      * eapply free_chain_ext; [exact HcA|]. intros c u Hin. apply Hset, (Hapq c u). by left.
      * rewrite hptr_set_ptr, u64_addr by done. exact Hpp.
      * by rewrite hsize_set_ptr by (by left).
      * eapply free_chain_ext; [exact HcB|]. intros c u Hin. apply Hset, (Hapq c u). right. by right.
    + rewrite (proj2 (Hset p (Hapq p n ltac:(right; by left)))). exact Hsp.
    + eapply changed_in_mono, changed_set_ptr. intros x [Hx1 Hx2]. apply (owned_in _ q t); [done|lia].
  - set (bp := p + 16 * (s - n)). set (m2 := set_size (set_size m p (s - n)) bp n).
    destruct (ordered_in _ _ _ _ _ Ho HinP) as (Hp1 & Hp2 & _). assert (extent s = 16 * s) as Es by (unfold extent; lia).
    assert (apart bp p) as Hbp by (right; unfold bp; lia).
    assert (forall b u, (b, u) ∈ A ++ [(q, t)] \/ (b, u) ∈ B -> apart bp b) as Hapb.
    { apply ordered_app in Ho as (mid & Ho1 & Ho2). cbn [ordered] in Ho2. destruct Ho2 as (? & ? & Ho2).
      intros b u [Hin|Hin].
      - destruct (ordered_in _ _ _ _ _ Ho1 Hin) as (? & ? & ?). pose proof (extent_pos u). right. unfold bp. lia.
      - destruct (ordered_in _ _ _ _ _ Ho2 Hin) as (? & ? & ?). left. unfold bp. lia. }
    assert (forall b, apart p b -> apart bp b -> hptr m2 b = hptr m b /\ hsize m2 b = hsize m b) as Hset.
    { intros b H1 H2. unfold m2. rewrite !hptr_set_size by (by right). by rewrite !hsize_set_size_ne. }
    split_and!.
    + apply free_chain_app. cbn [app hd_addr fst chain]. split; [|split_and!].
      * eapply free_chain_ext; [exact HcP|]. intros c u Hin. apply Hset; [apply (Happ c u)|apply (Hapb c u)]; by left.
      * unfold m2. rewrite !hptr_set_size by (by (left; done) || (right; done)). exact Hpp.
      * unfold m2. rewrite hsize_set_size_ne by done. rewrite hsize_set_size. apply u32_size. lia.
      * eapply free_chain_ext; [exact HcB|]. intros c u Hin. apply Hset; [apply (Happ c u)|apply (Hapb c u)]; by right.
    + unfold m2. rewrite hsize_set_size. apply u32_size. lia.
    + eapply changed_in_trans; [eapply changed_in_mono, changed_set_size|eapply changed_in_mono, changed_set_size];
        intros x [Hx1 Hx2]; apply (owned_in _ p s); try done; unfold bp in *; lia.
Qed.

Lemma take_merged lo hi A q t p s n B :
  ordered lo (A ++ (q, t) :: (p, s) :: B) hi -> 1 <= n <= s ->
  merged (A ++ (q, t) :: (p, s) :: B) -> merged (A ++ (q, t) :: rest_of p s n ++ B).
Proof.
  intros (mid & _ & Ho)%ordered_app Hn Hm. eapply merged_app; [exact Hm|]. apply merged_drop in Hm.
  apply merged_cons in Hm as [H1 [H2 H3]%merged_cons]. cbn [ordered] in Ho. destruct Ho as (_ & _ & Hp & _ & Ho).
  pose proof (extent_pos t). pose proof (extent_pos s).
  assert (forall b u l', B = (b, u) :: l' -> p + 16 * s <= b) as HB.
  { intros b u l' ->. cbn [ordered] in Ho. lia. }
  unfold rest_of. destruct (Z.eqb_spec s n) as [->|Hne]; cbn [app]; apply merged_cons.
  - split; [|done]. intros b u l' E. specialize (HB b u l' E). lia.
  - split; [intros b u l' [= <- _ _]; by eapply H1|]. apply merged_cons. split; [|done].
    intros b u l' E. specialize (HB b u l' E). lia.
Qed.

Lemma take_ok base st A q t p s n B :
  heap base st (A ++ (q, t) :: (p, s) :: B) -> 1 <= n <= s ->
  allocated base st (A ++ (q, t) :: (p, s) :: B) (p + 16 * (s - n)) n
    (mkUstate (take_mem st.(u_mem) q p s n) q st.(u_brk)) (A ++ (q, t) :: rest_of p s n ++ B).
Proof.
  intros [(l & El & Hl) Hc Ho (sf & Hf) [Hb Hbrk]] Hn. set (m := st.(u_mem)) in *. set (L := A ++ (q, t) :: (p, s) :: B) in *.
  assert (L = (A ++ [(q, t)]) ++ (p, s) :: B) as EL by (unfold L; by rewrite <- (assoc_L (++))).
  assert (A ++ (q, t) :: rest_of p s n ++ B = (A ++ [(q, t)]) ++ rest_of p s n ++ B) as -> by (by rewrite <- (assoc_L (++))).
  destruct (carve base (A ++ [(q, t)]) p s n B l st.(u_brk)) as (Hhd & Ho' & Hcov & Hlow & Hhigh & Hap);
    [by rewrite <- EL|by destruct A|done|by rewrite <- EL|done|]. rewrite <- EL in Hcov.
  assert (chain (take_mem m q p s n) ((A ++ [(q, t)]) ++ rest_of p s n ++ B) base /\
    hsize (take_mem m q p s n) (p + 16 * (s - n)) = n /\ changed_in (owned L) m (take_mem m q p s n)) as (HcL & Hsz & Hch).
  { rewrite EL in Hc, Ho |- *. by apply (take_chain m base st.(u_brk)). }
  constructor; cbn [u_mem u_freep u_brk]; [|by constructor; [|lia| | |]|done|done|done
    |by rewrite EL in Ho |- *; rewrite <- !(assoc_L (++)) in *; eapply take_merged].
  constructor; [done|done|done| |done]. exists t. cbn [u_freep]. set_solver.
Qed.

(** ** The search of [malloc] *)

Fixpoint last_addr (d : Z) (l : list block) : Z := match l with [] => d | b :: l' => last_addr (fst b) l' end.

Lemma last_addr_snoc l : forall a s, exists A t, (a, s) :: l = A ++ [(last_addr a l, t)].
Proof.
  induction l as [|[b t] l IH]; intros a s; [by exists [], s|]. destruct (IH b t) as (A & u & E).
  exists ((a, s) :: A), u. cbn [last_addr fst app]. by rewrite E.
Qed.

Lemma split_first (P : block -> Prop) `{!forall b, Decision (P b)} l :
  Exists P l -> exists l1 b l2, l = l1 ++ b :: l2 /\ P b /\ Forall (fun x => ~ P x) l1.
Proof.
  induction l as [|b l IH]; [by intros ?%Exists_nil|]. intros Hx.
  destruct (decide (P b)) as [Hb|Hb]; [by exists [], b, l|].
  apply Exists_cons in Hx as [Hx|Hx]; [done|]. destruct (IH Hx) as (l1 & c & l2 & -> & Hc & Hl1).
  exists (b :: l1), c, l2. split_and!; [done|done|by constructor].
Qed.

Section Malloc.
Context (base limit : Z) (n : Z) (Hn : 1 <= n < 2 ^ 27).

(** A part of the list without a block that is large enough. *)
Lemma malloc_seg st seg z : forall prevp fuel,
  chain st.(u_mem) seg z -> Forall (fun b => ~ n <= snd b) seg -> Forall (fun b => fst b <> st.(u_freep)) seg ->
  malloc_loop limit (length seg + fuel) n prevp (hd_addr seg z) st = malloc_loop limit fuel n (last_addr prevp seg) z st.
Proof.
  induction seg as [|[a s] seg IH]; intros prevp fuel Hc Hs Hf; [done|].
  cbn [chain] in Hc. destruct Hc as (Hp & Hsz & Hc). apply Forall_cons in Hs as [Hs1 Hs], Hf as [Hf1 Hf]. cbn [fst snd] in *.
  cbn [length Nat.add malloc_loop hd_addr fst last_addr]. rewrite Hsz.
  assert ((s >=? n) = false) as -> by lia. rewrite (proj2 (Z.eqb_neq a _) Hf1), Hp. by apply IH.
Qed.

Lemma malloc_take st prevp p s fuel :
  hsize st.(u_mem) p = s -> n <= s ->
  malloc_loop limit (S fuel) n prevp p st =
    Some (p + 16 * (s - n) + 16, mkUstate (take_mem st.(u_mem) prevp p s n) prevp st.(u_brk)).
Proof.
  intros Hs Hle. cbn [malloc_loop]. rewrite Hs. assert ((s >=? n) = true) as -> by lia. unfold take_mem, sizeof_Header.
  pose proof (hsize_range st.(u_mem) p) as Hr. rewrite Hs in Hr.
  destruct (Z.eqb_spec s n) as [->|Hne]; [by rewrite Z.sub_diag, Z.mul_0_r, Z.add_0_r|].
  rewrite hsize_set_size. unfold u32. by rewrite Z.mod_small by lia.
Qed.

Lemma heap_split st L : heap base st L -> exists (P : list block) sf (S : list block), L = P ++ (st.(u_freep), sf) :: S /\
  hptr st.(u_mem) st.(u_freep) = hd_addr S base /\ hsize st.(u_mem) st.(u_freep) = sf /\
  chain st.(u_mem) S base /\ chain st.(u_mem) P st.(u_freep) /\
  Forall (fun b => fst b <> st.(u_freep)) (P ++ S).
Proof.
  intros [_ Hc Ho (sf & Hf) _]. apply list_elem_of_split in Hf as (P & S & ->). exists P, sf, S.
  apply free_chain_app in Hc as [HcP HcS]. cbn [hd_addr fst chain] in HcP, HcS. destruct HcS as (H1 & H2 & H3).
  split_and!; try done. apply Forall_forall. intros [b t] Hin%elem_of_app.
  pose proof (ordered_apart _ _ _ _ _ _ b t Ho ltac:(tauto)) as Hap. cbn. intros ->. unfold apart in Hap. lia.
Qed.

(** The next block of the list that is large enough, looked for from [d]. *)
Lemma malloc_next st d sd T z fuel :
  chain st.(u_mem) T z -> (forall T1 b T2, T = T1 ++ b :: T2 -> Forall (fun b => fst b <> st.(u_freep)) T1) ->
  Exists (fun b => n <= snd b) T -> (length T < fuel)%nat ->
  exists A q t p s B, (d, sd) :: T = A ++ (q, t) :: (p, s) :: B /\ n <= s /\
    malloc_loop limit fuel n d (hd_addr T z) st =
      Some (p + 16 * (s - n) + 16, mkUstate (take_mem st.(u_mem) q p s n) q st.(u_brk)).
Proof.
  intros Hc Hne HT Hfuel. destruct (split_first _ T HT) as (T1 & [p s] & T2 & -> & Hps & Hs1). cbn [snd] in Hps.
  destruct (last_addr_snoc T1 d sd) as (A & t & EA). exists A, (last_addr d T1), t, p, s, T2.
  split. { change ((d, sd) :: T1 ++ (p, s) :: T2) with (((d, sd) :: T1) ++ (p, s) :: T2). by rewrite EA, <- (assoc_L (++)). }
  split; [done|]. apply free_chain_app in Hc as [Hc1 Hc2]. cbn [hd_addr fst chain] in Hc1, Hc2.
  specialize (Hne _ _ _ eq_refl). rewrite length_app in Hfuel. cbn [length] in Hfuel.
  transitivity (malloc_loop limit (length T1 + S (fuel - length T1 - 1)) n d (hd_addr T1 p) st).
  { f_equal; [lia|by destruct T1]. }
  rewrite (malloc_seg st T1 p) by done. apply malloc_take; [apply Hc2|done].
Qed.

(** A block that is large enough is found. *)
Lemma malloc_found st L fuel :
  heap base st L -> Exists (fun b => n <= snd b) L -> (length L < fuel)%nat ->
  exists A q t p s B, L = A ++ (q, t) :: (p, s) :: B /\ n <= s /\
    malloc_loop limit fuel n st.(u_freep) (hptr st.(u_mem) st.(u_freep)) st =
      Some (p + 16 * (s - n) + 16, mkUstate (take_mem st.(u_mem) q p s n) q st.(u_brk)).
Proof.
  intros Hh Hex Hfuel. destruct (heap_split st L Hh) as (P & sf & T & -> & Hpf & Hsf & HcT & HcP & Hne).
  apply Forall_app in Hne as [HneP HneT]. rewrite Hpf. rewrite length_app in Hfuel. cbn [length] in Hfuel.
  destruct (decide (Exists (fun b => n <= snd b) T)) as [HT|HT%not_Exists_Forall]; [| |apply _].
  { destruct (malloc_next st st.(u_freep) sf T base fuel) as (A & q & t & p & s & B & EA & Hs & E); [done| |done|lia|].
    - intros T1 b T2 ->. by apply Forall_app in HneT as [? _].
    - exists (P ++ A), q, t, p, s, B. by rewrite EA, <- (assoc_L (++)). }
  assert (malloc_loop limit fuel n st.(u_freep) (hd_addr T base) st =
    malloc_loop limit (fuel - length T) n (last_addr st.(u_freep) T) base st) as Eseg.
  { rewrite <- (malloc_seg st T base) by done. f_equal. lia. }
  rewrite Eseg. destruct Hh as [(l & El & Hl) Hc _ _ _]. destruct P as [|[b0 s0] P]; injection El as -> -> El.
  { exfalso. apply Exists_cons in Hex as [Hb|Hb]; cbn in Hb; [lia|].
    apply Exists_exists in Hb as (x & Hx & Hxn). rewrite Forall_forall in HT. by apply (HT x). }
  subst l. set (Q := P ++ [(st.(u_freep), sf)]).
  assert (P ++ (st.(u_freep), sf) :: T = Q ++ T) as EQ by (unfold Q; by rewrite <- (assoc_L (++))).
  destruct (malloc_next st base 0 Q (hd_addr T base) (fuel - length T - 1)) as (A & q & t & p & s & B & EA & Hs & E).
  - apply free_chain_app. cbn [hd_addr fst chain] in HcP |- *. tauto.
  - intros T1 b T2 E. assert (exists T3, P = T1 ++ T3) as (T3 & ->).
    { destruct (exists_last (l := b :: T2)) as (T3 & c & E3); [done|]. exists T3. rewrite E3, (assoc_L (++)) in E.
      by apply app_inj_tail in E as [-> _]. }
    apply Forall_cons in HneP as [_ HneP]. by apply Forall_app in HneP as [? _].
  - cbn [app] in Hex. rewrite EQ in Hex. apply Exists_cons in Hex as [Hb|Hb]; [cbn in Hb; lia|]. apply Exists_app in Hb as [?|Hb]; [done|].
    apply Exists_exists in Hb as (x & Hx & Hxn). rewrite Forall_forall in HT. by destruct (HT x).
  - unfold Q. rewrite length_app. cbn [length] in *. lia.
  - exists A, q, t, p, s, (B ++ T). split; [|split; [done|]].
    + cbn [app]. rewrite EQ. change ((base, 0) :: Q ++ T) with (((base, 0) :: Q) ++ T). by rewrite EA, <- (assoc_L (++)).
    + cbn [length] in Hfuel. replace (fuel - length T)%nat with (length [(base, 0)] + (fuel - length T - 1))%nat by (cbn; lia).
      etransitivity; [apply (malloc_seg st [(base, 0)] (hd_addr Q (hd_addr T base)))|exact E]; [|by repeat constructor; cbn; lia|].
      * cbn [chain app hd_addr fst] in Hc |- *. rewrite EQ in Hc. destruct Hc as (H1 & H2 & _). split_and!; [|done|done]. rewrite H1. unfold Q. by destruct P.
      * apply Forall_cons in HneP as [? _]. by repeat constructor.
Qed.

(** No block is large enough: the heap is to grow. *)
Lemma malloc_none st L fuel :
  heap base st L -> ~ Exists (fun b => n <= snd b) L -> (length L <= fuel)%nat ->
  malloc_loop limit fuel n st.(u_freep) (hptr st.(u_mem) st.(u_freep)) st =
    match morecore limit (fuel - length L) n st with
    | None => None
    | Some (p, st') => if p =? 0 then Some (0, st') else malloc_loop limit (fuel - length L) n p (hptr st'.(u_mem) p) st'
    end.
Proof.
  intros Hh Hall%not_Exists_Forall Hfuel; [|apply _].
  destruct (heap_split st L Hh) as (P & sf & T & -> & Hpf & Hsf & HcT & HcP & Hne). rewrite Hpf.
  apply Forall_app in Hne as [HneP HneT], Hall as [HallP Hall]. apply Forall_cons in Hall as [Hf HallT]. cbn in Hf.
  rewrite length_app in *. cbn [length] in *. set (k := (fuel - (length P + S (length T)))%nat).
  transitivity (malloc_loop limit (length T + (length P + S k)) n st.(u_freep) (hd_addr T base) st); [f_equal; lia|].
  rewrite malloc_seg by done. assert (base = hd_addr P st.(u_freep)) as E.
  { destruct Hh as [(l & El & _) _ _ _ _]. destruct P as [|[]]; by injection El. }
  rewrite E, malloc_seg by done. cbn [malloc_loop]. rewrite Hsf, Z.eqb_refl. assert ((sf >=? n) = false) as Hlt by lia. by rewrite Hlt.
Qed.

Definition more : Z := if n <? 4096 then 4096 else n.

(** The heap with the new block that [morecore] frees. *)
Definition grown (st : ustate) : ustate :=
  mkUstate (set_size st.(u_mem) st.(u_brk) more) st.(u_freep) (st.(u_brk) + 16 * more).

Lemma grown_ok st L : heap base st L -> st.(u_brk) + 16 * more < 2 ^ 36 ->
  heap base (grown st) L /\ in_use base (grown st) L st.(u_brk) more.
Proof.
  intros [Hl Hc Ho Hf [Hb Hbrk]] Hhi. assert (1 <= more) by (unfold more; case_match; lia).
  pose proof (ordered_le _ _ _ Ho). assert (forall a t, (a, t) ∈ L -> a + extent t <= st.(u_brk)) as Hlow.
  { intros a t Hin. by destruct (ordered_in _ _ _ _ _ Ho Hin) as (_ & ? & _). }
  assert (heap base (grown st) L) as Hg.
  { constructor; cbn [grown u_mem u_freep u_brk]; [done| |by eapply ordered_hi; [exact Ho|lia]|done|lia].
    apply (free_chain_ext st.(u_mem)); [done|]. intros a t Hin. specialize (Hlow a t Hin). pose proof (extent_pos t).
    split; [apply hptr_set_size|apply hsize_set_size_ne]; unfold apart; lia. }
  split; [done|]. destruct Hl as (l & -> & _). constructor; cbn [grown u_mem u_freep u_brk]; [|done| |lia|].
  - rewrite hsize_set_size. apply u32_size. lia.
  - apply (Hlow base 0). by left.
  - intros a t Hin. left. by apply Hlow.
Qed.

Lemma morecore_ok st L fuel : heap base st L -> limit < 2 ^ 36 -> (2 * length L <= fuel)%nat ->
  (morecore limit fuel n st = Some (0, st) /\ limit < st.(u_brk) + 16 * more) \/
  (exists st' L', morecore limit fuel n st = Some (st'.(u_freep), st') /\ heap base st' L' /\
    st'.(u_brk) = st.(u_brk) + 16 * more /\ st'.(u_brk) <= limit /\
    (forall x, covers L' x <-> covers L x \/ st.(u_brk) <= x < st'.(u_brk)) /\
    changed_in (fun x => owned L x \/ st.(u_brk) <= x < st'.(u_brk)) st.(u_mem) st'.(u_mem) /\
    Exists (fun b => n <= snd b) L' /\ (length L' <= S (length L))%nat /\ (merged L -> merged L')).
Proof.
  intros Hh Hlim Hfuel. assert (1 <= more < 2 ^ 27 /\ n <= more) as [Hmore Hnm] by (unfold more; case_match; lia).
  unfold morecore. fold more. unfold sizeof_Header, sbrk. pose proof (hp_brk _ _ _ Hh) as [Hb Hbrk].
  pose proof (ordered_le _ _ _ (hp_order _ _ _ Hh)) as Hle.
  assert (i32 (more * 16) = 16 * more) as -> by (unfold i32, signed; rewrite Z.mod_small by lia; case_match; lia).
  assert ((16 * more >? 0) = true) as -> by lia. cbv zeta.
  destruct (Z.leb_spec (st.(u_brk) + 16 * more) limit) as [Hle2|Hgt]; [right|left; by split].
  rewrite (proj2 (Z.eqb_neq st.(u_brk) (-1))) by lia. cbn [u_mem u_freep u_brk]. fold (grown st).
  destruct (grown_ok st L Hh ltac:(lia)) as [Hg Hu].
  destruct (free_ok base (grown st) L st.(u_brk) more fuel Hg Hu Hfuel) as (st' & L' & E & Hh' & Eb & Hcov & Hch & (a & t & Hin & Ht) & HL & HM).
  exists st', L'. unfold sizeof_Header in E. rewrite E. cbn [grown u_brk] in Eb. rewrite Eb. split_and!; try done.
  - apply (changed_in_trans _ _ (grown st).(u_mem)).
    + intros x Hx. apply changed_set_size. intros H. apply Hx. right. lia.
    + intros x Hx. apply Hch. intros [H|H]; apply Hx; [by left|right; lia].
  - apply Exists_exists. exists (a, t). split; [done|]. cbn. lia.
Qed.

End Malloc.
