(* ===== verification/UmallocProps.v ===== *)
(** * What [malloc] and [free] promise to a program

    The blocks a program holds are disjoint, are outside of the free list and
    keep their contents, over every [malloc] and [free]. *)

From S2P Require Import Prelude Params Mem Umalloc UmallocSpec.

Fixpoint disjoint (U : list block) : Prop :=
  match U with
  | [] => True
  | (b, s) :: U' => (forall c t, (c, t) ∈ U' -> b + 16 * s <= c \/ c + 16 * t <= b) /\ disjoint U'
  end.

(** The free list [L] and the blocks [U] that the program holds. *)
Record live (base : Z) (st : ustate) (L U : list block) : Prop := {
  lv_heap : heap base st L;
  lv_use : forall b s, (b, s) ∈ U -> in_use base st L b s;
  lv_disjoint : disjoint U;
}.

(** The bytes of the blocks [U], the headers included. *)
Definition kept (U : list block) (st st' : ustate) : Prop :=
  forall x, covers U x -> load8 st'.(u_mem) x = load8 st.(u_mem) x.

Lemma in_use_out base st L b s x : in_use base st L b s -> b <= x < b + 16 * s -> ~ owned L x.
Proof. intros Hu Hx (a & t & Hin & Ha). destruct (iu_apart _ _ _ _ _ Hu a t Hin); lia. Qed.

Lemma covers_owned L x : covers L x -> owned L x.
Proof. intros (a & s & Hin & Hx). exists a, s. split; [done|]. pose proof (extent_pos s). lia. Qed.

(** A block in use stays so when the free list only takes other memory. *)
Lemma in_use_kept base st L st' L' b s :
  in_use base st L b s -> heap base st' L' -> st.(u_brk) <= st'.(u_brk) ->
  (forall x, b <= x < b + 16 * s -> load8 st'.(u_mem) x = load8 st.(u_mem) x) ->
  (forall x, b <= x < b + 16 * s -> ~ covers L' x) -> in_use base st' L' b s.
Proof.
  intros [Hsz Hs Hlow Hhigh _] Hh Hbrk Hm Hc. constructor; [|done|done|lia|].
  - rewrite <- Hsz. apply load32_ext. intros x Hx. apply Hm. lia.
  - intros a t Hin. destruct (hp_head _ _ _ Hh) as (l & -> & Hl).
    apply elem_of_cons in Hin as [[= -> ->]|Hin]; [left; unfold extent; lia|].
    rewrite Forall_forall in Hl. specialize (Hl _ Hin). cbn in Hl.
    assert (extent t = 16 * t) as -> by (unfold extent; lia).
    specialize (Hc (Z.max a b)). destruct (decide (a + 16 * t <= b \/ b + 16 * s <= a)); [done|].
    exfalso. apply Hc; [lia|]. exists a, t. split; [by right|lia].
Qed.

Lemma disjoint_in U b s c t : disjoint ((b, s) :: U) -> (c, t) ∈ U -> b + 16 * s <= c \/ c + 16 * t <= b.
Proof. intros [H _]. apply H. Qed.

Lemma free_live base st L U bp s fuel :
  live base st L ((bp, s) :: U) -> (2 * length L <= fuel)%nat ->
  exists st' L', free fuel (bp + sizeof_Header) st = Some st' /\ live base st' L' U /\ kept U st st' /\
    (forall x, covers L' x <-> covers L x \/ bp <= x < bp + 16 * s) /\ (merged L -> merged L').
Proof.
  intros [Hh Hu Hd] Hfuel. pose proof (Hu bp s ltac:(by left)) as Hbp.
  destruct (free_ok base st L bp s fuel Hh Hbp Hfuel) as (st' & L' & E & Hh' & Eb & Hcov & Hch & _ & _ & HM).
  assert (forall b t x, (b, t) ∈ U -> b <= x < b + 16 * t -> ~ owned L x /\ ~ bp <= x < bp + 16 * s) as Hout.
  { intros b t x Hin Hx. split; [by eapply in_use_out; [apply Hu; by right|]|].
    destruct (disjoint_in _ _ _ _ _ Hd Hin); lia. }
  assert (kept U st st') as Hk.
  { intros x (b & t & Hin & Hx). destruct (Hout b t x Hin Hx) as [H1 H2]. apply Hch.
    intros [H|H]; [done|]. pose proof (iu_pos _ _ _ _ _ Hbp). lia. }
  exists st', L'. refine (conj E (conj _ (conj Hk (conj Hcov HM)))). constructor; [done| |apply Hd].
  intros b t Hin. apply (in_use_kept base st L); [apply Hu; by right|done|lia| |].
  - intros x Hx. apply Hk. by exists b, t.
  - intros x Hx [H%covers_owned|H]%Hcov; by destruct (Hout b t x Hin Hx).
Qed.

(** ** [malloc] *)

Lemma units_range nbytes : 0 <= nbytes < 2 ^ 31 - 64 -> 1 <= units nbytes < 2 ^ 27 /\ nbytes <= 16 * (units nbytes - 1).
Proof. intros H. unfold units, sizeof_Header, u32. rewrite Z.mod_small; [|split]; Z.to_euclidean_division_equations; lia. Qed.

(** The block of [n] units is taken from the free list, which may have grown. *)
Record given (base : Z) (st : ustate) (L : list block) (r n : Z) (st' : ustate) (L' : list block) : Prop := {
  gv_heap : heap base st' L';
  gv_block : in_use base st' L' (r - sizeof_Header) n;
  gv_merged : merged L -> merged L';
  gv_brk : st.(u_brk) <= st'.(u_brk);
  gv_free : forall x, covers L x \/ st.(u_brk) <= x < st'.(u_brk) <->
    covers L' x \/ r - sizeof_Header <= x < r - sizeof_Header + 16 * n;
  gv_changed : changed_in (fun x => owned L x \/ st.(u_brk) <= x < st'.(u_brk)) st.(u_mem) st'.(u_mem);
}.

Section Given.
Context (base limit n : Z) (Hn : 1 <= n < 2 ^ 27) (Hlim : limit < 2 ^ 36).

Lemma malloc_given st L fuel :
  heap base st L -> Exists (fun b => n <= snd b) L -> (length L < fuel)%nat ->
  exists r st' L', malloc_loop limit fuel n st.(u_freep) (hptr st.(u_mem) st.(u_freep)) st = Some (r, st') /\
    allocated base st L (r - sizeof_Header) n st' L'.
Proof.
  intros Hh Hex Hfuel. destruct (malloc_found base limit n Hn st L fuel Hh Hex Hfuel) as (A & q & t & p & s & B & -> & Hs & E).
  eexists _, _, _. split; [exact E|]. replace (_ - sizeof_Header) with (p + 16 * (s - n)) by (unfold sizeof_Header; lia).
  apply take_ok; [done|lia].
Qed.

Lemma owned_covers L st x : heap base st L -> owned L x -> covers L x \/ base <= x < base + 16.
Proof.
  intros Hh (a & t & Hin & Hx). destruct (hp_head _ _ _ Hh) as (l & -> & Hl).
  apply elem_of_cons in Hin as [[= -> ->]|Hin]; [right; unfold extent in Hx; lia|left].
  rewrite Forall_forall in Hl. specialize (Hl _ Hin). cbn in Hl. exists a, t. split; [by right|]. unfold extent in Hx. lia.
Qed.

Lemma owned_base L st x : heap base st L -> base <= x < base + 16 -> owned L x.
Proof. intros Hh Hx. destruct (hp_head _ _ _ Hh) as (l & -> & Hl). exists base, 0. split; [by left|]. unfold extent. lia. Qed.

Lemma malloc_loop_ok st L fuel : heap base st L -> (3 * length L + 2 <= fuel)%nat ->
  exists r st', malloc_loop limit fuel n st.(u_freep) (hptr st.(u_mem) st.(u_freep)) st = Some (r, st') /\
    ((r = 0 /\ st' = st /\ ~ Exists (fun b => n <= snd b) L /\ limit < st.(u_brk) + 16 * Z.max 4096 n) \/
     (exists L', given base st L r n st' L')).
Proof.
  intros Hh Hfuel. destruct (decide (Exists (fun b => n <= snd b) L)) as [Hex|Hex].
  { destruct (malloc_given st L fuel Hh Hex ltac:(lia)) as (r & st' & L' & E & [H1 H2 H3 H4 H5 H6]).
    exists r, st'. split; [done|]. right. exists L'. constructor; [done|done|done|lia| |].
    - intros x. rewrite <- H3. rewrite H5. intuition lia.
    - intros x Hx. apply H4. intros H. apply Hx. by left. }
  pose proof (malloc_none base limit n Hn st L fuel Hh Hex ltac:(lia)) as E.
  assert (more n = Z.max 4096 n) as Em by (unfold more; destruct (Z.ltb_spec n 4096); lia).
  destruct (morecore_ok base limit n Hn st L (fuel - length L) Hh Hlim ltac:(lia))
    as [[E1 Hl]|(st1 & L1 & E1 & Hh1 & Eb & Hbl & Hcov & Hch & Hex1 & HL & HM)]; rewrite E1 in E.
  { exists 0, st. split; [done|]. left. rewrite <- Em. done. }
  assert ((st1.(u_freep) =? 0) = false) as Hf.
  { destruct (hp_freep _ _ _ Hh1) as (s & Hin). pose proof (ordered_in _ _ _ _ _ (hp_order _ _ _ Hh1) Hin).
    pose proof (hp_brk _ _ _ Hh1). lia. }
  rewrite Hf in E. destruct (malloc_given st1 L1 (fuel - length L) Hh1 Hex1 ltac:(lia)) as (r & st' & L' & E' & [H1 H2 H3 H4 H5 H6]).
  rewrite E' in E. exists r, st'. split; [done|]. right. exists L'. constructor; [done|done|by auto|lia| |].
  - intros x. rewrite <- H3, Hcov, H5. done.
  - rewrite H5. apply (changed_in_trans _ _ st1.(u_mem)); [done|]. intros x Hx. apply H4. intros Ho. apply Hx.
    apply (owned_covers L1 st1) in Ho as [Hc%Hcov|Hb]; [| |done].
    + destruct Hc as [Hc|Hc]; [left; by apply covers_owned|by right].
    + left. by apply (owned_base L st).
Qed.
End Given.

(** The new block among those the program holds. *)
Lemma given_live base st L U r n st' L' : live base st L U -> given base st L r n st' L' ->
  live base st' L' ((r - sizeof_Header, n) :: U) /\ kept U st st'.
Proof.
  intros [Hh Hu Hd] [H1 H2 _ H3 H4 H5].
  assert (forall b t x, (b, t) ∈ U -> b <= x < b + 16 * t -> ~ (owned L x \/ st.(u_brk) <= x < st'.(u_brk))) as Hout.
  { intros b t x Hin Hx [H|H]; [by eapply in_use_out; [apply Hu| |]|]. pose proof (iu_high _ _ _ _ _ (Hu b t Hin)). lia. }
  assert (forall b t x, (b, t) ∈ U -> b <= x < b + 16 * t -> ~ (covers L' x \/ r - sizeof_Header <= x < r - sizeof_Header + 16 * n)) as Hout'.
  { intros b t x Hin Hx H%H4. apply (Hout b t x Hin Hx). destruct H; [left; by apply covers_owned|by right]. }
  assert (kept U st st') as Hk. { intros x (b & t & Hin & Hx). apply H5. by apply (Hout b t). }
  split; [constructor|]; [done| |split|]; try done.
  - intros b t [[= -> ->]|Hin]%elem_of_cons; [done|]. apply (in_use_kept base st L); [by apply Hu|done|done| |].
    + intros x Hx. apply Hk. by exists b, t.
    + intros x Hx Hc. apply (Hout' b t x Hin Hx). by left.
  - intros c t Hin. pose proof (iu_pos _ _ _ _ _ H2). pose proof (iu_pos _ _ _ _ _ (Hu c t Hin)).
    specialize (Hout' c t (Z.max c (r - sizeof_Header)) Hin). lia.
Qed.

(** The state at the first call is that of an empty list. *)
Lemma malloc_init_heap base st : st.(u_freep) = 0 -> 0 < base -> base + 16 <= st.(u_brk) < 2 ^ 36 ->
  heap base (malloc_init base st) [(base, 0)].
Proof.
  intros Hf Hb Hbrk. unfold malloc_init. rewrite Hf, Z.eqb_refl. constructor; cbn [u_mem u_freep u_brk].
  - by exists [].
  - cbn [chain hd_addr fst snd]. rewrite hptr_set_size, hptr_set_ptr, hsize_set_size by (by left). rewrite u64_addr by lia. done.
  - cbn. unfold extent. lia.
  - exists 0. by left.
  - lia.
Qed.

(** [C21] The state is that after the start of [malloc], which makes the list
    of the static header at the first call. [malloc] returns: either 0, the
    state unchanged, when no free block is large enough and the heap cannot
    grow by what it asks for; or a block of at least [nbytes] bytes that is
    disjoint from every block the program holds. All blocks held keep their
    contents, and the free memory and the new block are together the free
    memory before and the memory by which the heap has grown. No free block ends
    where the next one starts, if none did before. *)
Theorem malloc_correct base limit st L U nbytes fuel :
  live base (malloc_init base st) L U -> 0 <= nbytes < 2 ^ 31 - 64 -> limit < 2 ^ 36 -> (3 * length L + 2 <= fuel)%nat ->
  exists r st', malloc base limit fuel nbytes st = Some (r, st') /\
    let st0 := malloc_init base st in
    let n := units nbytes in
    let bp := r - sizeof_Header in
    nbytes <= 16 * n - sizeof_Header /\
    ((r = 0 /\ st' = st0 /\ (forall a s, (a, s) ∈ L -> s < n) /\ limit < st.(u_brk) + 16 * Z.max 4096 n) \/
     exists L', live base st' L' ((bp, n) :: U) /\ kept U st0 st' /\
       (forall x, covers L x \/ st0.(u_brk) <= x < st'.(u_brk) <-> covers L' x \/ bp <= x < bp + 16 * n) /\
       (merged L -> merged L')).
Proof.
  intros [Hh Hu Hd] Hnb Hlim Hfuel. destruct (units_range nbytes Hnb) as [Hn Hen]. cbv zeta.
  destruct (malloc_loop_ok base limit (units nbytes) Hn Hlim _ L fuel Hh Hfuel) as (r & st' & E & Hcase).
  exists r, st'. split; [exact E|]. split; [unfold sizeof_Header; lia|].
  destruct Hcase as [(-> & -> & Hex & Hl)|(L' & [H1 H2 HM H3 H4 H5])]; [left|right].
  { refine (conj eq_refl (conj eq_refl (conj _ _))).
    - intros a s Hin. apply Z.nle_gt. intros Hs. apply Hex, Exists_exists. by exists (a, s).
    - unfold malloc_init in Hl. by destruct (st.(u_freep) =? 0). }
  exists L'. destruct (given_live base (malloc_init base st) L U r (units nbytes) st' L') as [Hlive Hk]; by constructor.
Qed.

(** [C22] [free] of a block the program holds returns; the block joins the free
    memory, and the other blocks stay disjoint, in use, and as they are. The block
    is joined with its neighbours: no free block ends where the next one starts, if
    none did before. *)
Theorem free_correct base st L U bp s fuel :
  live base st L ((bp, s) :: U) -> (2 * length L <= fuel)%nat ->
  exists st' L', free fuel (bp + sizeof_Header) st = Some st' /\ live base st' L' U /\ kept U st st' /\
    (forall x, covers L' x <-> covers L x \/ bp <= x < bp + 16 * s) /\ (merged L -> merged L').
Proof. apply free_live. Qed.

(** ** Witnesses *)

Definition demo_st : ustate := mkUstate ∅ 0 8192.

Lemma demo_live : live 4096 (malloc_init 4096 demo_st) [(4096, 0)] [].
Proof.
  constructor; [|intros b s H%elem_of_nil; destruct H|exact I]. apply malloc_init_heap; [reflexivity|lia|cbn [demo_st u_brk]; lia].
Qed.

Lemma malloc_correct_witness :
  exists r st' L', malloc 4096 (2 ^ 30) 8 100 demo_st = Some (r, st') /\ live 4096 st' L' [(r - sizeof_Header, 8)].
Proof.
  destruct (malloc_correct 4096 (2 ^ 30) demo_st [(4096, 0)] [] 100 8 demo_live) as (r & st' & E & _ & [(_ & _ & _ & H)|(L' & H & _)]);
    [lia|lia|cbn; lia|exfalso|exists r, st', L'; exact (conj E H)].
  cbn [demo_st u_brk] in H. change (units 100) with 8 in H. lia.
Defined.

Definition demo_st1 : ustate :=
  mkUstate (set_size (malloc_init 4096 demo_st).(u_mem) 5000 3) 4096 8192.

Lemma free_correct_witness :
  exists st' L', free 2 (5000 + sizeof_Header) demo_st1 = Some st' /\ live 4096 st' L' [] /\ covers L' 5040 /\ merged L'.
Proof.
  destruct (free_correct 4096 demo_st1 [(4096, 0)] [] 5000 3 2) as (st' & L' & E & H & _ & Hc & Hm).
  - constructor; [| |split; [|exact I]; intros ? ? H%elem_of_nil; destruct H].
    + pose proof (lv_heap _ _ _ _ demo_live) as [H1 H2 H3 H4 H5].
      constructor; [exact H1| |exact H3|exists 0; by left|exact H5].
      apply (free_chain_ext (malloc_init 4096 demo_st).(u_mem)); [exact H2|]. intros a s [= -> ->]%list_elem_of_singleton.
      split; [apply hptr_set_size|apply hsize_set_size_ne]; unfold apart; lia.
    + intros b s [= -> ->]%list_elem_of_singleton. constructor; cbn [demo_st1 u_mem u_brk]; [rewrite hsize_set_size; reflexivity|lia|lia|lia|].
      intros a t [= -> ->]%list_elem_of_singleton. unfold extent. lia.
  - cbn. lia.
  - exists st', L'. refine (conj E (conj H (conj _ (Hm Logic.I)))). apply Hc. right. lia.
Defined.

(** A request of 2^31 bytes: [sbrk] gets a negative number and the heap does
    not grow, but the block, which is beyond the break, is given out. *)
Lemma malloc_huge :
  match malloc 4096 (2 ^ 30) 8 (2 ^ 31) demo_st with
  | Some (r, st') => r = 8192 + 16 /\ st'.(u_brk) = 8192
  | None => False
  end.
Proof. vm_compute. done. Qed.
