(* ===== verification/Mkfs.v ===== *)
(** * The image builder (mkfs/mkfs.c): definitions

    The image is the list of its sectors: a write past its end extends it
    with zeroes, a read past its end fails. The program ends with [Panic] where
    it calls [die], where an assertion fails and where the arguments are
    missing. The host is little endian. On it, [opens] tells whether the image
    file can be made, and [host] gives for the name of a file what the
    successive calls of [read] on it deliver up to the first that returns 0. *)

From S2P Require Import Prelude Params Mem State Spinlock CString Kalloc Vm Proc Sleeplock Uart Printf.
From S2P Require Import Bio Log Fs.

Definition NINODES : Z := 200.

(** Disk layout:
    [ boot block | sb block | log | inode blocks | free bit map | data blocks ] *)
Definition nbitmap : Z := FSSIZE / BPB + 1.
Definition ninodeblocks : Z := NINODES / IPB + 1.
Definition nlog : Z := LOGSIZE.
Definition nmeta : Z := 2 + nlog + ninodeblocks + nbitmap.  (* boot, sb, nlog, inode, bitmap *)
Definition nblocks : Z := FSSIZE - nmeta.                   (* Number of data blocks *)

Record mkst : Type := mkMkst {
  image : list (list Z);  (* the file behind [fsfd] *)
  freeinode : Z;
  freeblock : Z;
}.

#[global] Instance mkst_inhabited : Inhabited mkst := populate (mkMkst [] 1 0).

Definition zeroes : list Z := replicate (Z.to_nat BSIZE) 0.

(** Convert to riscv byte order: the bytes of the result are those of [x],
    the lowest first. *)
Definition xshort (x : Z) : Z := le_decode (le_encode 2 x).
Definition xint (x : Z) : Z := le_decode (le_encode 4 x).

Definition sb : superblock :=
  {| sb_magic := FSMAGIC; sb_size := xint FSSIZE; sb_nblocks := xint nblocks;
     sb_ninodes := xint NINODES; sb_nlog := xint nlog; sb_logstart := xint 2;
     sb_inodestart := xint (2 + nlog); sb_bmapstart := xint (2 + nlog + ninodeblocks) |}.

(** The bytes of the structure in memory. *)
Definition sb_encode (x : superblock) : list Z :=
  concat (map (le_encode 4) [x.(sb_magic); x.(sb_size); x.(sb_nblocks); x.(sb_ninodes);
    x.(sb_nlog); x.(sb_logstart); x.(sb_inodestart); x.(sb_bmapstart)]).

(** The sector at the offset [sec * BSIZE], an unsigned product. *)
Definition sector (sec : Z) : nat := Z.to_nat (u32 (sec * BSIZE) / BSIZE).

Definition put_sector (n : nat) (buf : list Z) (l : list (list Z)) : list (list Z) :=
  if decide (n < length l)%nat then <[n := buf]> l
  else l ++ replicate (n - length l) zeroes ++ [buf].

Definition wsect (sec : Z) (buf : list Z) : M mkst unit :=
  modify (fun s => mkMkst (put_sector (sector sec) buf s.(image)) s.(freeinode) s.(freeblock)).

Definition rsect (sec : Z) : M mkst (list Z) :=
  let! l := get image in
  match l !! sector sec with
  | Some buf => ret buf
  | None => panic "read"
  end.

Definition winode (inum : Z) (ip : dinode) : M mkst unit :=
  let bn := IBLOCK inum sb in
  let! buf := rsect bn in
  wsect bn (splice buf (dinode_off inum) (dinode_encode ip)).

Definition rinode (inum : Z) : M mkst dinode :=
  let bn := IBLOCK inum sb in
  let! buf := rsect bn in
  ret (dinode_decode buf (dinode_off inum)).

(** [freeinode++] and [freeblock++] *)
Definition next_inode : M mkst Z :=
  fun s => Ret s.(freeinode) (mkMkst s.(image) (u32 (s.(freeinode) + 1)) s.(freeblock)).
Definition next_block : M mkst Z :=
  fun s => Ret s.(freeblock) (mkMkst s.(image) s.(freeinode) (u32 (s.(freeblock) + 1))).

Definition ialloc (type : Z) : M mkst Z :=
  let! inum := next_inode in
  winode inum (mkdinode (xshort type) 0 0 (xshort 1) (xint 0) (replicate 13 0)) ;;
  ret inum.

(** The loop of [balloc] over the bits of the first [used] blocks. *)
Definition set_bits (n : nat) (buf : list Z) : list Z :=
  fold_left (fun buf i => <[Z.to_nat (i / 8) := Z.lor (byte_of buf i) (bit_of i)]> buf)
    (zrange 0 n) buf.

Definition balloc (used : Z) : M mkst unit :=
  if negb (i32 used <? BPB) then panic "used < BPB" else
  wsect sb.(sb_bmapstart) (set_bits (Z.to_nat (i32 used)) zeroes).

Definition set_addr (k v : Z) (din : dinode) : dinode :=
  mkdinode din.(di_type) din.(di_major) din.(di_minor) din.(di_nlink) din.(di_size)
    (<[Z.to_nat k := v]> din.(di_addrs)).
Definition set_size (v : Z) (din : dinode) : dinode :=
  mkdinode din.(di_type) din.(di_major) din.(di_minor) din.(di_nlink) v din.(di_addrs).
Definition addr (din : dinode) (k : Z) : Z := din.(di_addrs) !!! Z.to_nat k.

(** Allocate block address [k] of the inode unless it is there. *)
Definition need_addr (k : Z) (din : dinode) : M mkst dinode :=
  if xint (addr din k) =? 0 then
    let! b := next_block in
    ret (set_addr k (xint b) din)
  else ret din.

(** Entry [i] of the indirect block [ind], allocated when it is new. *)
Definition indirect_addr (ind i : Z) : M mkst Z :=
  let! indirect := rsect ind in
  if get32 indirect (4 * i) =? 0 then
    let! b := next_block in
    let indirect := set32 indirect (4 * i) (xint b) in
    wsect ind indirect ;;
    ret (xint (get32 indirect (4 * i)))
  else ret (xint (get32 indirect (4 * i))).

(** The address of block [fbn] of the file, allocated when it is new, and the inode. *)
Definition iappend_addr (fbn : Z) (din : dinode) : M mkst (Z * dinode) :=
  if fbn <? NDIRECT then
    let! din := need_addr fbn din in
    ret (xint (addr din fbn), din)
  else
    let! din := need_addr NDIRECT din in
    let! x := indirect_addr (xint (addr din NDIRECT)) (fbn - NDIRECT) in
    ret (x, din).

(** The loop of [iappend]: [p] holds the [n] bytes that are left. *)
Fixpoint iappend_loop (fuel : nat) (off : Z) (p : list Z) (din : dinode) : M mkst (Z * dinode) :=
  if 0 <? Z.of_nat (length p) then
    match fuel with
    | O => fun _ => OutOfFuel
    | S fuel' =>
        let fbn := off / BSIZE in
        if negb (fbn <? MAXFILE) then panic "fbn < MAXFILE" else
        let! (x, din) := iappend_addr fbn din in
        let n1 := Z.min (Z.of_nat (length p)) (u32 (u32 ((fbn + 1) * BSIZE) - off)) in
        let! buf := rsect x in
        wsect x (splice buf (off - fbn * BSIZE) (take (Z.to_nat n1) p)) ;;
        iappend_loop fuel' (u32 (off + n1)) (drop (Z.to_nat n1) p) din
    end
  else ret (off, din).

Definition iappend (inum : Z) (p : list Z) : M mkst unit :=
  let! din := rinode inum in
  let! (off, din) := iappend_loop (length p) (xint din.(di_size)) p din in
  winode inum (set_size (xint off) din).

(** [for(i = 0; i < FSSIZE; i++) wsect(i, zeroes)] *)
Fixpoint zero_image (n : nat) (i : Z) : M mkst unit :=
  match n with
  | O => ret tt
  | S n' => wsect i zeroes ;; zero_image n' (i + 1)
  end.

(** The directory entry with a name copied by [strcpy], or by [strncpy]. *)
Definition dot_entry (inum : Z) (name : list Z) : list Z :=
  dirent_encode (mkdirent (xshort inum) (splice (replicate (Z.to_nat DIRSIZ) 0) 0 (name ++ [0]))).
Definition file_entry (inum : Z) (name : list Z) : list Z :=
  dirent_encode (mkdirent (xshort inum) (strncpy_list name (Z.to_nat DIRSIZ))).

(** Get rid of "user/", and of a leading _. *)
Definition base_name (arg : list Z) : list Z :=
  if strncmp_list 5 arg (str "user/") =? 0 then drop 5 arg else arg.
Definition skip_underscore (name : list Z) : list Z :=
  if hd 0 name =? 95 then drop 1 name else name.

Section Mkfs.
Context (opens : list Z -> bool) (host : list Z -> option (list (list Z))).

Fixpoint append_all (inum : Z) (chunks : list (list Z)) : M mkst unit :=
  match chunks with
  | [] => ret tt
  | buf :: rest => iappend inum buf ;; append_all inum rest
  end.

Definition add_file (rootino : Z) (arg : list Z) : M mkst unit :=
  let shortname := base_name arg in
  if existsb (Z.eqb 47) shortname then panic "index(shortname, '/') == 0" else
  match host arg with
  | None => panic "open"
  | Some chunks =>
      let shortname := skip_underscore shortname in
      if negb (Z.of_nat (length shortname) <=? DIRSIZ) then panic "strlen(shortname) <= DIRSIZ" else
      let! inum := ialloc T_FILE in
      iappend rootino (file_entry inum shortname) ;;
      append_all inum chunks
  end.

Fixpoint add_files (rootino : Z) (args : list (list Z)) : M mkst unit :=
  match args with
  | [] => ret tt
  | arg :: rest => add_file rootino arg ;; add_files rootino rest
  end.

Definition mkfs_main (argv : list (list Z)) : M mkst unit :=
  match argv with
  | _ :: img :: files =>
      if negb (opens img) then panic "open" else
      modify (fun s => mkMkst [] s.(freeinode) nmeta) ;;
      zero_image (Z.to_nat FSSIZE) 0 ;;
      wsect 1 (splice zeroes 0 (sb_encode sb)) ;;
      let! rootino := ialloc T_DIR in
      if negb (rootino =? ROOTINO) then panic "rootino == ROOTINO" else
      iappend rootino (dot_entry rootino (str ".")) ;;
      iappend rootino (dot_entry rootino (str "..")) ;;
      add_files rootino files ;;
      (* fix size of root inode dir *)
      let! din := rinode rootino in
      let off := u32 ((xint din.(di_size) / BSIZE + 1) * BSIZE) in
      winode rootino (set_size (xint off) din) ;;
      let! b := get freeblock in
      balloc b
  | _ => panic "Usage: mkfs fs.img files..."
  end.

End Mkfs.

(** The globals when the program starts. *)
Definition mk_start : mkst := mkMkst [] 1 0.
