(* ===== verification/MkfsDisk.v ===== *)
(** * The image builder: sectors and inodes of the image *)

From S2P Require Import Prelude Params Mem State Spinlock CString Kalloc Vm Proc Sleeplock Uart Printf.
From S2P Require Import Bio Log Block Fs Mkfs.

(** ** Sectors *)

(** The contents of sector [b]. *)
Definition sect (s : mkst) (b : Z) : list Z := s.(image) !!! Z.to_nat b.

(** The image has all its sectors, of the right size. *)
Record image_ok (s : mkst) : Prop := {
  im_len : length s.(image) = Z.to_nat FSSIZE;
  im_sect : Forall (fun d : list Z => length d = Z.to_nat BSIZE) s.(image);
}.

Definition put (b : Z) (d : list Z) (s : mkst) : mkst :=
  mkMkst (<[Z.to_nat b := d]> s.(image)) s.(freeinode) s.(freeblock).

Lemma sector_id b : 0 <= b < 2 ^ 22 -> sector b = Z.to_nat b.
Proof.
  intros H. unfold sector, u32. change BSIZE with 1024. f_equal.
  rewrite Z.mod_small by lia. by rewrite Z.div_mul.
Qed.

Lemma sect_lookup s b : image_ok s -> 0 <= b < FSSIZE -> s.(image) !! Z.to_nat b = Some (sect s b).
Proof.
  intros [Hl _] Hb. unfold sect. apply list_lookup_lookup_total_lt. rewrite Hl. change FSSIZE with 2000 in *. lia.
Qed.

Lemma length_sect s b : image_ok s -> 0 <= b < FSSIZE -> length (sect s b) = Z.to_nat BSIZE.
Proof.
  intros Hok Hb. pose proof (im_sect s Hok) as Hf. rewrite Forall_lookup in Hf.
  apply (Hf _ _ (sect_lookup s b Hok Hb)).
Qed.

Lemma sect_put s b d b' :
  image_ok s -> 0 <= b < FSSIZE -> 0 <= b' -> sect (put b d s) b' = if decide (b' = b) then d else sect s b'.
Proof.
  intros [Hl _] Hb Hb'. unfold sect, put. simpl. destruct (decide (b' = b)) as [->|Hne].
  - rewrite list_lookup_total_insert_eq; [done|]. rewrite Hl. change FSSIZE with 2000 in *. lia.
  - apply list_lookup_total_insert_ne. lia.
Qed.

Lemma image_ok_put s b d : image_ok s -> length d = Z.to_nat BSIZE -> image_ok (put b d s).
Proof. intros [Hl Hf] Hd. split; simpl; [by rewrite length_insert|by apply Forall_insert]. Qed.

Lemma rsect_eq s b : image_ok s -> 0 <= b < FSSIZE -> rsect b s = Ret (sect s b) s.
Proof.
  intros Hok Hb. unfold rsect, get, bind. simpl. change FSSIZE with 2000 in Hb.
  rewrite sector_id by lia. by rewrite sect_lookup.
Qed.

Lemma wsect_eq s b d : image_ok s -> 0 <= b < FSSIZE -> wsect b d s = Ret tt (put b d s).
Proof.
  intros [Hl _] Hb. unfold wsect, modify, put, put_sector. change FSSIZE with 2000 in *.
  rewrite sector_id by lia. by rewrite decide_True by lia.
Qed.

(** ** The byte order *)

Lemma xint_id x : 0 <= x < 2 ^ 32 -> xint x = x.
Proof. intros H. unfold xint. rewrite le_decode_encode. by apply Z.mod_small. Qed.
Lemma xshort_id x : 0 <= x < 2 ^ 16 -> xshort x = x.
Proof. intros H. unfold xshort. rewrite le_decode_encode. by apply Z.mod_small. Qed.

(** ** Inodes inside a block *)

Record dinode_ok (d : dinode) : Prop := {
  dk_type : 0 <= d.(di_type) < 2 ^ 15;
  dk_major : 0 <= d.(di_major) < 2 ^ 15;
  dk_minor : 0 <= d.(di_minor) < 2 ^ 15;
  dk_nlink : 0 <= d.(di_nlink) < 2 ^ 15;
  dk_size : 0 <= d.(di_size) < 2 ^ 32;
  dk_len : length d.(di_addrs) = 13%nat;
  dk_addrs : Forall (fun a => 0 <= a < 2 ^ 32) d.(di_addrs);
}.

Lemma field_splice_inside d off bs o n :
  (Z.to_nat off + length bs <= length d)%nat -> (o + n <= length bs)%nat ->
  field (splice d off bs) (Z.to_nat off + o) n = field bs o n.
Proof.
  intros H Ho. unfold field, splice.
  rewrite drop_app_ge by (rewrite length_take; lia). rewrite length_take.
  replace (Z.to_nat off + o - Z.to_nat off `min` length d)%nat with o by lia.
  rewrite drop_app_le by lia. rewrite take_app_le; [done|]. rewrite length_drop. lia.
Qed.

Lemma field_app_l a b o n : (o + n <= length a)%nat -> field (a ++ b) o n = field a o n.
Proof.
  intros H. unfold field. rewrite drop_app_le by lia. apply take_app_le. rewrite length_drop. lia.
Qed.
Lemma field_app_r a b o n : (length a <= o)%nat -> field (a ++ b) o n = field b (o - length a) n.
Proof. intros H. unfold field. by rewrite drop_app_ge. Qed.
Lemma field_all a n : length a = n -> field a 0 n = a.
Proof. intros <-. apply firstn_all. Qed.

Lemma length_words l : length (concat (map (le_encode 4) l)) = (4 * length l)%nat.
Proof. induction l as [|x l IH]; [done|]. cbn [map concat]. rewrite length_app, IH, length_le_encode. simpl. lia. Qed.

Lemma field_words l i x :
  l !! i = Some x -> field (concat (map (le_encode 4) l)) (4 * i) 4 = le_encode 4 x.
Proof.
  revert i. induction l as [|y l IH]; intros [|i]; [done|done| |]; intros H; cbn [map concat].
  - injection H as ->. change (4 * 0)%nat with 0%nat.
    rewrite field_app_l by (by rewrite length_le_encode). by apply field_all, length_le_encode.
  - rewrite field_app_r by (rewrite length_le_encode; lia). rewrite length_le_encode.
    replace (4 * S i - 4)%nat with (4 * i)%nat by lia. by apply IH.
Qed.

Lemma length_dinode_encode d : length d.(di_addrs) = 13%nat -> length (dinode_encode d) = 64%nat.
Proof. intros H. unfold dinode_encode. rewrite !length_app, !length_le_encode, length_words, H. done. Qed.

Lemma i16_id v : 0 <= v < 2 ^ 15 -> i16 v = v.
Proof. intros H. unfold i16, signed. rewrite Z.mod_small by lia. case_cmp; lia. Qed.

Lemma le_decode_small n v : 0 <= v < 2 ^ (8 * Z.of_nat n) -> le_decode (le_encode n v) = v.
Proof. intros H. rewrite le_decode_encode. by apply Z.mod_small. Qed.

(** The fields of the encoded structure. *)
Lemma dinode_fields d : length d.(di_addrs) = 13%nat ->
  let e := dinode_encode d in
  field e 0 2 = le_encode 2 d.(di_type) /\ field e 2 2 = le_encode 2 d.(di_major) /\
  field e 4 2 = le_encode 2 d.(di_minor) /\ field e 6 2 = le_encode 2 d.(di_nlink) /\
  field e 8 4 = le_encode 4 d.(di_size) /\
  forall i a, d.(di_addrs) !! i = Some a -> field e (12 + 4 * i) 4 = le_encode 4 a.
Proof.
  intros Hl e. unfold e, dinode_encode. repeat match goal with |- _ /\ _ => split end.
  1-5: repeat (rewrite field_app_r by (rewrite length_le_encode; lia); rewrite length_le_encode; cbn [Nat.sub]);
    rewrite field_app_l by (by rewrite length_le_encode); by apply field_all, length_le_encode.
  intros i a Ha. repeat (rewrite field_app_r by (rewrite length_le_encode; lia); rewrite length_le_encode).
  replace (12 + 4 * i - 2 - 2 - 2 - 2 - 4)%nat with (4 * i)%nat by lia. by apply field_words.
Qed.

Lemma dinode_off_range inum : 0 <= dinode_off inum <= 960.
Proof. unfold dinode_off. change IPB with 16. pose proof (Z.mod_pos_bound inum 16 ltac:(lia)). lia. Qed.

Lemma get_field n (data : list Z) off o : 0 <= off -> 0 <= o ->
  take n (drop (Z.to_nat (off + o)) data) = field data (Z.to_nat off + Z.to_nat o) n.
Proof. intros H1 H2. unfold field. by rewrite Z2Nat.inj_add. Qed.

(** Writing an inode and reading it back. *)
Lemma dinode_decode_same data off d :
  length data = Z.to_nat BSIZE -> 0 <= off <= 960 -> dinode_ok d ->
  dinode_decode (splice data off (dinode_encode d)) off = d.
Proof.
  intros Hl Hoff Hd. destruct Hd as [H1 H2 H3 H4 H5 H6 H7]. change (Z.to_nat BSIZE) with 1024%nat in Hl.
  pose proof (length_dinode_encode d H6) as He. destruct (dinode_fields d H6) as (F1 & F2 & F3 & F4 & F5 & F6).
  assert (forall o n, 0 <= o -> (Z.to_nat o + n <= 64)%nat ->
    take n (drop (Z.to_nat (off + o)) (splice data off (dinode_encode d))) =
    field (dinode_encode d) (Z.to_nat o) n) as Hg.
  { intros o n H0 Ho. rewrite get_field by lia. apply field_splice_inside; lia. }
  destruct d as [ty ma mi nl sz ads]. unfold dinode_decode, get16, get32.
  cbn [di_type di_major di_minor di_nlink di_size di_addrs] in *.
  pose proof (Hg 0 2%nat ltac:(lia) ltac:(lia)) as G1. rewrite Z.add_0_r in G1.
  rewrite G1, (Hg 2 2%nat), (Hg 4 2%nat), (Hg 6 2%nat), (Hg 8 4%nat) by lia.
  change (Z.to_nat 0) with 0%nat. change (Z.to_nat 2) with 2%nat. change (Z.to_nat 4) with 4%nat.
  change (Z.to_nat 6) with 6%nat. change (Z.to_nat 8) with 8%nat. rewrite F1, F2, F3, F4, F5.
  rewrite !le_decode_small by (simpl; lia). rewrite !i16_id by lia. f_equal.
  apply list_eq. intros i. destruct (decide (i < 13)%nat) as [Hi|Hi].
  - destruct (lookup_lt_is_Some_2 ads i) as [a Ha]; [lia|]. rewrite Ha.
    rewrite list_lookup_fmap, lookup_zrange by done. cbn [fmap option_fmap option_map].
    rewrite <- Z.add_assoc, Hg by lia. replace (Z.to_nat (12 + 4 * (0 + Z.of_nat i))) with (12 + 4 * i)%nat by lia.
    rewrite (F6 i a Ha). rewrite Forall_lookup in H7. rewrite le_decode_small; [done|]. by apply (H7 i).
  - rewrite !lookup_ge_None_2; [done|lia|]. rewrite length_map, length_zrange. lia.
Qed.

(** The other inodes of the block are kept. *)
Lemma dinode_decode_other data off off' d :
  length data = Z.to_nat BSIZE -> 0 <= off <= 960 -> 0 <= off' -> length d.(di_addrs) = 13%nat ->
  off + 64 <= off' \/ off' + 64 <= off ->
  dinode_decode (splice data off (dinode_encode d)) off' = dinode_decode data off'.
Proof.
  intros Hl Hoff Hoff' Hd Hne. change (Z.to_nat BSIZE) with 1024%nat in Hl.
  pose proof (length_dinode_encode d Hd) as He.
  assert (forall o n, 0 <= o -> (Z.to_nat o + n <= 64)%nat ->
    take n (drop (Z.to_nat (off' + o)) (splice data off (dinode_encode d))) =
    take n (drop (Z.to_nat (off' + o)) data)) as Hg.
  { intros o n H0 Ho. rewrite !get_field by lia. apply field_splice_other; lia. }
  pose proof (Hg 0 2%nat ltac:(lia) ltac:(lia)) as G1. rewrite Z.add_0_r in G1.
  unfold dinode_decode, get16, get32. rewrite G1, !Hg by lia. f_equal.
  apply map_ext_in. intros i Hi. apply list_elem_of_In, elem_of_zrange in Hi.
  rewrite <- !Z.add_assoc. rewrite Hg; [done|lia|lia].
Qed.

(** ** Inodes of the image *)

(** The blocks of inodes hold this many of them. *)
Definition ninode_slots : Z := ninodeblocks * IPB.

Definition dinode_at (s : mkst) (inum : Z) : dinode :=
  dinode_decode (sect s (IBLOCK inum sb)) (dinode_off inum).

Definition put_dinode (inum : Z) (d : dinode) (s : mkst) : mkst :=
  put (IBLOCK inum sb) (splice (sect s (IBLOCK inum sb)) (dinode_off inum) (dinode_encode d)) s.

Lemma IBLOCK_range inum : 0 <= inum < ninode_slots -> IBLOCK inum sb = inum / 16 + 32 /\ 32 <= IBLOCK inum sb < 45.
Proof.
  intros H. change ninode_slots with 208 in H. unfold IBLOCK. change (sb_inodestart sb) with 32. change IPB with 16.
  assert (0 <= inum / 16 < 13) by (split; [apply Z.div_pos; lia|apply Z.div_lt_upper_bound; lia]).
  unfold u32. rewrite Z.mod_small by lia. lia.
Qed.

Lemma rinode_eq s inum :
  image_ok s -> 0 <= inum < ninode_slots -> rinode inum s = Ret (dinode_at s inum) s.
Proof.
  intros Hok Hi. destruct (IBLOCK_range inum Hi) as [_ Hb]. unfold rinode.
  by rewrite (bind_Ret _ _ _ _ _ (rsect_eq s (IBLOCK inum sb) Hok ltac:(change FSSIZE with 2000; lia))).
Qed.

Lemma winode_eq s inum d :
  image_ok s -> 0 <= inum < ninode_slots -> winode inum d s = Ret tt (put_dinode inum d s).
Proof.
  intros Hok Hi. destruct (IBLOCK_range inum Hi) as [_ Hb].
  assert (0 <= IBLOCK inum sb < FSSIZE) as Hb' by (change FSSIZE with 2000; lia). unfold winode.
  rewrite (bind_Ret _ _ _ _ _ (rsect_eq s (IBLOCK inum sb) Hok Hb')). by apply wsect_eq.
Qed.

Section PutDinode.
Context (s : mkst) (inum : Z) (d : dinode).
Context (Hok : image_ok s) (Hi : 0 <= inum < ninode_slots) (Hd : dinode_ok d).

Lemma put_dinode_len :
  length (splice (sect s (IBLOCK inum sb)) (dinode_off inum) (dinode_encode d)) = Z.to_nat BSIZE.
Proof using Hok Hi Hd.
  destruct (IBLOCK_range inum Hi) as [_ Hb]. pose proof (dinode_off_range inum) as Ho.
  assert (length (sect s (IBLOCK inum sb)) = Z.to_nat BSIZE) as Hl
    by (apply length_sect; [done|change FSSIZE with 2000; lia]).
  rewrite length_splice; [done|]. rewrite Hl, length_dinode_encode by apply Hd.
  change (Z.to_nat BSIZE) with 1024%nat. lia.
Qed.

Lemma image_ok_put_dinode : image_ok (put_dinode inum d s).
Proof using Hok Hi Hd. apply image_ok_put; [done|]. apply put_dinode_len. Qed.

Lemma sect_put_dinode b : 0 <= b -> ~ 32 <= b < 45 -> sect (put_dinode inum d s) b = sect s b.
Proof using Hok Hi.
  intros H0 Hb. destruct (IBLOCK_range inum Hi) as [_ Hb'].
  unfold put_dinode. rewrite sect_put; [|done|change FSSIZE with 2000; lia|done]. rewrite decide_False; [done|lia].
Qed.

Lemma dinode_at_put i : 0 <= i < ninode_slots ->
  dinode_at (put_dinode inum d s) i = if decide (i = inum) then d else dinode_at s i.
Proof using Hok Hi Hd.
  intros H. destruct (IBLOCK_range inum Hi) as [E Hb], (IBLOCK_range i H) as [E' Hb'].
  assert (0 <= IBLOCK inum sb < FSSIZE) as Hr by (change FSSIZE with 2000; lia).
  unfold dinode_at, put_dinode. rewrite sect_put by (try done; lia).
  pose proof (dinode_off_range inum) as Ho. pose proof (dinode_off_range i) as Ho'.
  destruct (decide (i = inum)) as [->|Hne].
  - rewrite decide_True by done. apply dinode_decode_same; [by apply length_sect|done|done].
  - destruct (decide (IBLOCK i sb = IBLOCK inum sb)) as [Eb|Hb2]; [|done]. rewrite Eb.
    apply dinode_decode_other; [by apply length_sect|done|lia|apply Hd|].
    unfold dinode_off in *. change IPB with 16 in *.
    pose proof (Z.div_mod i 16 ltac:(lia)). pose proof (Z.div_mod inum 16 ltac:(lia)). lia.
Qed.

End PutDinode.
