(* ===== verification/MkfsFile.v ===== *)
(** * The image builder: the blocks of a file, and [iappend]

    Every data block in use has an owner: the inode and the position of the
    block in the file, -1 for the indirect block. That no block is in two
    files is then a consequence of the owner being a function of the block. *)

From S2P Require Import Prelude Params Mem State Spinlock CString Kalloc Vm Proc Sleeplock Uart Printf.
From S2P Require Import Bio Log Block Fs Mkfs MkfsDisk.

Notation owners := (gmap Z (Z * Z)).

(** The address of block [bn] of a file with the block addresses [a]. *)
Definition blk (V : Z -> list Z) (a : list Z) (bn : Z) : Z :=
  if bn <? NDIRECT then a !!! Z.to_nat bn else get32 (V (a !!! 12%nat)) (4 * (bn - NDIRECT)).

(** The addresses [a] hold the first [nb] blocks of inode [inum], and with [ind]
    an indirect block; the blocks hold [data], followed by zeroes. *)
Record frep (V : Z -> list Z) (own : owners) (inum : Z) (a : list Z) (nb : Z) (ind : bool) (data : list Z) : Prop := {
  fr_len : length a = 13%nat;
  fr_nb : 0 <= nb <= MAXFILE;
  fr_fit : Z.of_nat (length data) <= nb * BSIZE;
  fr_own : forall bn, 0 <= bn < nb -> own !! blk V a bn = Some (inum, bn);
  fr_free : forall bn, nb <= bn < NDIRECT -> 0 <= bn -> a !!! Z.to_nat bn = 0;
  fr_ind : if ind then own !! (a !!! 12%nat) = Some (inum, -1) /\
             forall bn, NDIRECT <= bn < MAXFILE -> nb <= bn -> blk V a bn = 0
           else a !!! 12%nat = 0 /\ nb <= NDIRECT;
  fr_bytes : forall i, 0 <= i < nb * BSIZE ->
    V (blk V a (i / BSIZE)) !!! Z.to_nat (i mod BSIZE) = nth (Z.to_nat i) data 0;
}.

Lemma fr_ind_true V own inum a nb ind data :
  frep V own inum a nb ind data -> NDIRECT < nb -> own !! (a !!! 12%nat) = Some (inum, -1).
Proof. intros [? ? ? ? ? H ?] Hnb. destruct ind; [apply H|]. destruct H as [_ H]. lia. Qed.

(** The file depends only on its own blocks. *)
Lemma frep_frame V V' own own' inum a nb ind data :
  frep V own inum a nb ind data -> own ⊆ own' ->
  (forall b r, own !! b = Some (inum, r) -> V' b = V b) ->
  frep V' own' inum a nb ind data.
Proof.
  intros Hf Hsub HV.
  assert (forall bn, bn < NDIRECT \/ ind = true -> blk V' a bn = blk V a bn) as Hb.
  { intros bn Hbn. unfold blk. destruct (Z.ltb_spec bn NDIRECT); [done|].
    destruct Hbn as [Hlt| ->]; [lia|]. destruct (fr_ind _ _ _ _ _ _ _ Hf) as [Ho _]. by rewrite (HV _ _ Ho). }
  assert (forall bn, bn < nb -> bn < NDIRECT \/ ind = true) as Hc.
  { intros bn Hbn. destruct ind; [by right|]. destruct (fr_ind _ _ _ _ _ _ _ Hf) as [_ H]. left. lia. }
  destruct Hf as [H1 H2 H3 H4 H5 H6 H7]. split; [done|done|done| |done| |].
  - intros bn Hbn. rewrite Hb by (apply Hc; lia). eapply lookup_weaken; [by apply H4|done].
  - destruct ind; [|done]. destruct H6 as [Ho Hz]. split; [by eapply lookup_weaken|].
    intros bn Hbn Hnb. rewrite Hb by (by right). by apply Hz.
  - intros i Hi. assert (0 <= i / BSIZE < nb) as Hbn.
    { change BSIZE with 1024 in *. split; [apply Z.div_pos; lia|apply Z.div_lt_upper_bound; lia]. }
    rewrite Hb by (apply Hc; lia). rewrite (HV _ _ (H4 _ Hbn)). by apply H7.
Qed.

(** ** Allocation *)

Record alloc_ok (s : mkst) (own : owners) : Prop := {
  al_im : image_ok s;
  al_free : nmeta <= s.(freeblock) <= FSSIZE;
  al_own : forall b o, own !! b = Some o -> nmeta <= b < s.(freeblock);
  al_zero : forall b, s.(freeblock) <= b < FSSIZE -> sect s b = zeroes;
}.

(** Inode [inum] gets blocks: the blocks that were in use by others are as before. *)
Record grows (inum : Z) (s : mkst) (own : owners) (s' : mkst) (own' : owners) : Prop := {
  gr_inode : s'.(freeinode) = s.(freeinode);
  gr_own : own ⊆ own';
  gr_mono : s.(freeblock) <= s'.(freeblock);
  gr_keep : forall b, 0 <= b < s.(freeblock) -> (forall r, own !! b <> Some (inum, r)) ->
    sect s' b = sect s b /\ own' !! b = own !! b;
}.

Lemma grows_refl inum s own : grows inum s own s own.
Proof. by split. Qed.

Lemma grows_trans inum s1 own1 s2 own2 s3 own3 :
  grows inum s1 own1 s2 own2 -> grows inum s2 own2 s3 own3 -> grows inum s1 own1 s3 own3.
Proof.
  intros [A1 A2 A3 A4] [B1 B2 B3 B4]. split; [congruence|by transitivity own2|lia|].
  intros b Hb Ho. destruct (A4 b Hb Ho) as [E1 E2]. destruct (B4 b) as [E3 E4]; [lia| |].
  - intros r. rewrite E2. apply Ho.
  - split; congruence.
Qed.

(** A fresh block. *)
Definition bump (s : mkst) : mkst := mkMkst s.(image) s.(freeinode) (s.(freeblock) + 1).

Lemma next_block_eq s own : alloc_ok s own -> s.(freeblock) < FSSIZE -> next_block s = Ret s.(freeblock) (bump s).
Proof.
  intros [_ Hf _ _] Hlt. unfold next_block, bump. change FSSIZE with 2000 in *. change nmeta with 46 in *.
  by unfold u32; rewrite Z.mod_small by lia.
Qed.

Lemma alloc_ok_bump s own o : alloc_ok s own -> s.(freeblock) < FSSIZE ->
  alloc_ok (bump s) (<[s.(freeblock) := o]> own).
Proof.
  intros [[H1 H1'] H2 H3 H4] Hlt. split; [by split|simpl; lia| |].
  - intros b o'. rewrite lookup_insert_Some. intros [[<- _]|[_ Hb]]; simpl; [lia|]. specialize (H3 b o' Hb). lia.
  - intros b Hb. simpl in Hb. apply (H4 b). lia.
Qed.

Lemma fresh_None s own : alloc_ok s own -> own !! s.(freeblock) = None.
Proof.
  intros [_ _ H _]. destruct (own !! s.(freeblock)) as [o|] eqn:E; [|done]. apply H in E. lia.
Qed.

Lemma grows_bump inum s own r : alloc_ok s own ->
  grows inum s own (bump s) (<[s.(freeblock) := (inum, r)]> own).
Proof.
  intros Hs. split; [done|by apply insert_subseteq, fresh_None|simpl; lia|].
  intros b Hb Ho. split; [done|]. apply lookup_insert_ne. lia.
Qed.

(** Writing a block of the file. *)
Lemma alloc_ok_put s own b o d :
  alloc_ok s own -> own !! b = Some o -> length d = Z.to_nat BSIZE -> alloc_ok (put b d s) own.
Proof.
  intros Hs Ho Hd. pose proof Hs as [H1 H2 H3 H4]. pose proof (H3 b o Ho) as Hb. change nmeta with 46 in *.
  split; [by apply image_ok_put|done|done|].
  intros b' Hb'. simpl in Hb'. rewrite sect_put by (try done; lia). rewrite decide_False by lia. by apply H4.
Qed.

Lemma grows_put inum s own b r d : alloc_ok s own -> own !! b = Some (inum, r) ->
  grows inum s own (put b d s) own.
Proof.
  intros Hs Ho. pose proof Hs as [H1 H2 H3 H4]. pose proof (H3 b _ Ho) as Hb. change nmeta with 46 in *.
  split; [done|done|simpl; lia|]. intros b' Hb' Ho'. split; [|done].
  rewrite sect_put by (try done; lia). rewrite decide_False; [done|]. intros ->. by apply (Ho' r).
Qed.

Lemma owned_range s own b o : alloc_ok s own -> own !! b = Some o -> 46 <= b < FSSIZE.
Proof. intros Hs Ho. pose proof (al_own s own Hs b o Ho) as Hb. pose proof (al_free s own Hs). change nmeta with 46 in *. lia. Qed.

Lemma owned_xint s own b o : alloc_ok s own -> own !! b = Some o -> xint b = b /\ b <> 0.
Proof.
  intros Hs Ho. pose proof (owned_range s own b o Hs Ho) as Hb. change FSSIZE with 2000 in Hb.
  split; [|lia]. apply xint_id. lia.
Qed.

(** ** New blocks *)

Section Grow.
Context (inum : Z).

Lemma get32_zeroes k : 0 <= k -> get32 zeroes k = 0.
Proof using Type.
  intros Hk. unfold get32, zeroes. rewrite drop_replicate, take_replicate.
  generalize (4 `min` (Z.to_nat BSIZE - Z.to_nat k))%nat. intros n. induction n as [|n IH]; [done|].
  cbn [replicate le_decode]. rewrite IH. done.
Qed.

Lemma lookup_zeroes j : (j < 1024)%nat -> zeroes !!! j = 0.
Proof using Type. intros H. unfold zeroes. rewrite list_lookup_total_alt, lookup_replicate_2; [done|exact H]. Qed.

(** The bytes of a file that gets a block of zeroes. *)
Lemma frep_bytes_new V V' own a a' nb ind data x :
  frep V own inum a nb ind data -> (forall bn, 0 <= bn < nb -> blk V' a' bn = blk V a bn) ->
  (forall bn, 0 <= bn < nb -> V' (blk V a bn) = V (blk V a bn)) ->
  blk V' a' nb = x -> V' x = zeroes ->
  forall i, 0 <= i < (nb + 1) * BSIZE ->
    V' (blk V' a' (i / BSIZE)) !!! Z.to_nat (i mod BSIZE) = nth (Z.to_nat i) data 0.
Proof using Type.
  intros Hf Hb HV Hx Hz i Hi. change BSIZE with 1024 in *.
  pose proof (Z.div_mod i 1024 ltac:(lia)). pose proof (Z.mod_pos_bound i 1024 ltac:(lia)).
  destruct (decide (i < nb * 1024)) as [Hlt|Hge].
  - assert (0 <= i / 1024 < nb) as Hbn by (split; [apply Z.div_pos; lia|apply Z.div_lt_upper_bound; lia]).
    rewrite Hb, HV by done. apply (fr_bytes _ _ _ _ _ _ _ Hf). change BSIZE with 1024. lia.
  - assert (i / 1024 = nb) as -> by (symmetry; apply (Z.div_unique _ _ _ (i - nb * 1024)); lia).
    rewrite Hx, Hz, lookup_zeroes by lia. symmetry. apply nth_overflow.
    pose proof (fr_fit _ _ _ _ _ _ _ Hf) as Hfit. change BSIZE with 1024 in Hfit. lia.
Qed.

Section Step.
Context (s : mkst) (own : owners) (din : dinode) (nb : Z) (data : list Z).
Context (Hs : alloc_ok s own).

Lemma need_there ind k :
  frep (sect s) own inum din.(di_addrs) nb ind data ->
  0 <= k < nb /\ k < NDIRECT \/ k = NDIRECT /\ ind = true ->
  need_addr k din s = Ret din s.
Proof using Hs.
  intros Hf Hk. unfold need_addr, addr.
  assert (exists r, own !! (din.(di_addrs) !!! Z.to_nat k) = Some (inum, r)) as [r Hr].
  { destruct Hk as [[Hk Hlt]|[-> ->]].
    - exists k. rewrite <- (fr_own _ _ _ _ _ _ _ Hf k Hk). unfold blk. by rewrite (proj2 (Z.ltb_lt _ _) Hlt).
    - exists (-1). apply (fr_ind _ _ _ _ _ _ _ Hf). }
  destruct (owned_xint _ _ _ _ Hs Hr) as [-> Hne]. by rewrite (proj2 (Z.eqb_neq _ _) Hne).
Qed.

Hypothesis (Hroom : s.(freeblock) < FSSIZE).

Lemma need_new k :
  din.(di_addrs) !!! Z.to_nat k = 0 -> need_addr k din s = Ret (set_addr k s.(freeblock) din) (bump s).
Proof using Hs Hroom.
  intros H. unfold need_addr, addr. rewrite H. change (xint 0 =? 0) with true. cbv iota.
  rewrite (bind_Ret _ _ _ _ _ (next_block_eq s own Hs Hroom)). unfold ret. do 2 f_equal.
  pose proof (al_free s own Hs). change FSSIZE with 2000 in *. change nmeta with 46 in *. apply xint_id. lia.
Qed.

(** A direct block. *)
Lemma frep_direct :
  nb < NDIRECT -> frep (sect s) own inum din.(di_addrs) nb false data ->
  frep (sect (bump s)) (<[s.(freeblock) := (inum, nb)]> own) inum
    (<[Z.to_nat nb := s.(freeblock)]> din.(di_addrs)) (nb + 1) false data.
Proof using Hs Hroom.
  intros Hnb Hf. set (a := din.(di_addrs)) in *. pose proof (fr_len _ _ _ _ _ _ _ Hf) as Hl.
  pose proof (fr_nb _ _ _ _ _ _ _ Hf) as Hn. change NDIRECT with 12 in *.
  assert (forall V bn, 0 <= bn < 12 -> blk V (<[Z.to_nat nb := s.(freeblock)]> a) bn =
    if decide (bn = nb) then s.(freeblock) else blk (sect s) a bn) as Hb.
  { intros V bn Hbn. unfold blk. change NDIRECT with 12. rewrite (proj2 (Z.ltb_lt bn 12)) by lia.
    destruct (decide (bn = nb)) as [->|Hne].
    - apply list_lookup_total_insert_eq. lia.
    - apply list_lookup_total_insert_ne. lia. }
  split.
  - by rewrite length_insert.
  - change MAXFILE with 268 in *. lia.
  - pose proof (fr_fit _ _ _ _ _ _ _ Hf). change BSIZE with 1024 in *. lia.
  - intros bn Hbn. rewrite Hb by lia. destruct (decide (bn = nb)) as [->|Hne]; [apply lookup_insert_eq|].
    pose proof (fr_own _ _ _ _ _ _ _ Hf bn ltac:(lia)) as Ho. rewrite lookup_insert_ne; [done|].
    intros E. rewrite <- E, (fresh_None s own Hs) in Ho. done.
  - intros bn Hbn H0. rewrite list_lookup_total_insert_ne by lia. apply (fr_free _ _ _ _ _ _ _ Hf); lia.
  - destruct (fr_ind _ _ _ _ _ _ _ Hf) as [H12 _]. change NDIRECT with 12. split; [|lia].
    rewrite list_lookup_total_insert_ne by lia. done.
  - apply (frep_bytes_new (sect s) (sect (bump s)) own a _ nb false data s.(freeblock) Hf).
    + intros bn Hbn. rewrite Hb by lia. by rewrite decide_False by lia.
    + done.
    + rewrite Hb by lia. by rewrite decide_True.
    + apply (al_zero s own Hs). lia.
Qed.

(** The indirect block. *)
Lemma frep_indirect :
  nb = NDIRECT -> frep (sect s) own inum din.(di_addrs) nb false data ->
  frep (sect (bump s)) (<[s.(freeblock) := (inum, -1)]> own) inum
    (<[12%nat := s.(freeblock)]> din.(di_addrs)) nb true data.
Proof using Hs Hroom.
  intros -> Hf. set (a := din.(di_addrs)) in *. pose proof (fr_len _ _ _ _ _ _ _ Hf) as Hl.
  assert (forall V bn, 0 <= bn < NDIRECT -> blk V (<[12%nat := s.(freeblock)]> a) bn = blk (sect s) a bn) as Hb.
  { intros V bn Hbn. unfold blk. rewrite (proj2 (Z.ltb_lt bn NDIRECT)) by lia.
    apply list_lookup_total_insert_ne. change NDIRECT with 12 in Hbn. lia. }
  split; [by rewrite length_insert|apply Hf|apply Hf| | | |].
  - intros bn Hbn. rewrite Hb by lia. pose proof (fr_own _ _ _ _ _ _ _ Hf bn ltac:(lia)) as Ho.
    rewrite lookup_insert_ne; [done|]. intros E. rewrite <- E, (fresh_None s own Hs) in Ho. done.
  - intros bn Hbn H0. lia.
  - rewrite list_lookup_total_insert_eq by lia. split; [apply lookup_insert_eq|].
    intros bn Hbn _. unfold blk. rewrite (proj2 (Z.ltb_ge bn NDIRECT)) by lia.
    rewrite list_lookup_total_insert_eq by lia. change (sect (bump s)) with (sect s).
    rewrite (al_zero s own Hs) by lia. apply get32_zeroes. lia.
  - intros i Hi. assert (0 <= i / BSIZE < NDIRECT) as Hbn.
    { change BSIZE with 1024 in *. split; [apply Z.div_pos; lia|apply Z.div_lt_upper_bound; lia]. }
    rewrite Hb by done. by apply (fr_bytes _ _ _ _ _ _ _ Hf).
Qed.

(** A block in the indirect block. *)
Definition with_indirect : mkst :=
  put (din.(di_addrs) !!! 12%nat)
    (set32 (sect s (din.(di_addrs) !!! 12%nat)) (4 * (nb - NDIRECT)) s.(freeblock)) (bump s).

Section Indirect.
Context (Hnb : NDIRECT <= nb < MAXFILE) (Hf : frep (sect s) own inum din.(di_addrs) nb true data).
Let a : list Z := din.(di_addrs).

Lemma indirect_owned : own !! (a !!! 12%nat) = Some (inum, -1).
Proof using Hf. apply (fr_ind _ _ _ _ _ _ _ Hf). Qed.

Lemma indirect_not_fresh : s.(freeblock) <> a !!! 12%nat.
Proof using Hs Hf.
  intros E. pose proof indirect_owned as H. rewrite <- E, (fresh_None s own Hs) in H. done.
Qed.

Lemma indirect_len : length (sect s (a !!! 12%nat)) = 1024%nat.
Proof using Hs Hf.
  pose proof (owned_range _ _ _ _ Hs indirect_owned). apply (length_sect s); [apply Hs|lia].
Qed.

Lemma indirect_off : 0 <= 4 * (nb - NDIRECT) <= 1020.
Proof using Hnb. change NDIRECT with 12 in *. change MAXFILE with 268 in *. lia. Qed.

Lemma sect_with_indirect b : 0 <= b -> sect with_indirect b =
  if decide (b = a !!! 12%nat) then set32 (sect s (a !!! 12%nat)) (4 * (nb - NDIRECT)) s.(freeblock) else sect s b.
Proof using Hs Hf.
  intros Hb. pose proof (owned_range _ _ _ _ Hs indirect_owned) as Hr. unfold with_indirect.
  rewrite sect_put; [done|destruct (al_im s own Hs); by split|fold a; lia|done].
Qed.

Lemma blk_with_indirect bn : 0 <= bn < MAXFILE ->
  blk (sect with_indirect) a bn = if decide (bn = nb) then s.(freeblock) else blk (sect s) a bn.
Proof using Hs Hf Hnb Hroom.
  intros Hbn. pose proof (owned_range _ _ _ _ Hs indirect_owned) as Hr. pose proof indirect_off as Ho.
  pose proof indirect_len as Hl. pose proof (al_free s own Hs) as Hfb.
  change FSSIZE with 2000 in *. change nmeta with 46 in *. unfold blk.
  destruct (Z.ltb_spec bn NDIRECT) as [Hlt|Hge]; [by rewrite decide_False by lia|].
  rewrite sect_with_indirect, decide_True by (done || lia).
  destruct (decide (bn = nb)) as [->|Hne].
  - apply get32_set32; [rewrite Hl; lia|lia].
  - change NDIRECT with 12 in *. apply get32_set32_ne; [lia|lia|rewrite Hl; lia|lia].
Qed.

Lemma alloc_ok_with_indirect : alloc_ok with_indirect (<[s.(freeblock) := (inum, nb)]> own).
Proof using Hs Hf Hnb Hroom.
  apply alloc_ok_put with (o := (inum, -1)); [by apply alloc_ok_bump| |].
  - rewrite lookup_insert_ne; [apply indirect_owned|exact indirect_not_fresh].
  - fold a. rewrite length_set32; [exact indirect_len|]. rewrite indirect_len. pose proof indirect_off. lia.
Qed.

Lemma grows_with_indirect : grows inum s own with_indirect (<[s.(freeblock) := (inum, nb)]> own).
Proof using Hs Hf Hnb Hroom.
  eapply grows_trans; [by apply grows_bump|]. apply grows_put with (r := -1); [by apply alloc_ok_bump|].
  rewrite lookup_insert_ne; [apply indirect_owned|exact indirect_not_fresh].
Qed.

Lemma frep_with_indirect :
  frep (sect with_indirect) (<[s.(freeblock) := (inum, nb)]> own) inum a (nb + 1) true data.
Proof using Hs Hf Hnb Hroom.
  pose proof (fr_nb _ _ _ _ _ _ _ Hf) as Hn. pose proof indirect_owned as Ho12.
  assert (forall bn, 0 <= bn < nb -> s.(freeblock) <> blk (sect s) a bn /\ blk (sect s) a bn <> a !!! 12%nat) as Hne.
  { intros bn Hbn. pose proof (fr_own _ _ _ _ _ _ _ Hf bn Hbn) as Ho. fold a in Ho. split; intros E.
    - rewrite <- E, (fresh_None s own Hs) in Ho. done.
    - rewrite E, Ho12 in Ho. injection Ho. lia. }
  split; [apply Hf|lia| | | | |].
  - pose proof (fr_fit _ _ _ _ _ _ _ Hf). change BSIZE with 1024 in *. lia.
  - intros bn Hbn. rewrite blk_with_indirect by lia. destruct (decide (bn = nb)) as [->|Hd]; [apply lookup_insert_eq|].
    rewrite lookup_insert_ne by (apply Hne; lia). apply (fr_own _ _ _ _ _ _ _ Hf). lia.
  - intros bn Hbn H0. lia.
  - split.
    + rewrite lookup_insert_ne; [done|exact indirect_not_fresh].
    + intros bn Hbn Hge. rewrite blk_with_indirect by (change NDIRECT with 12 in *; lia).
      rewrite decide_False by lia. apply (fr_ind _ _ _ _ _ _ _ Hf); lia.
  - pose proof (al_free s own Hs) as Hfb. change nmeta with 46 in Hfb.
    apply (frep_bytes_new (sect s) _ own a a nb true data s.(freeblock) Hf).
    + intros bn Hbn. rewrite blk_with_indirect by lia. by rewrite decide_False by lia.
    + intros bn Hbn. pose proof (owned_range _ _ _ _ Hs (fr_own _ _ _ _ _ _ _ Hf bn Hbn)) as Hr. fold a in Hr.
      rewrite sect_with_indirect by lia. rewrite decide_False by (by apply Hne). done.
    + rewrite blk_with_indirect by lia. by rewrite decide_True.
    + rewrite sect_with_indirect by lia. rewrite decide_False; [apply (al_zero s own Hs); lia|exact indirect_not_fresh].
Qed.

End Indirect.
End Step.
End Grow.
