(* ===== verification/MkfsAppend.v ===== *)
(** * The image builder: [iappend] appends to a file *)

From S2P Require Import Prelude Params Mem State Spinlock CString Kalloc Vm Proc Sleeplock Uart Printf.
From S2P Require Import Bio Log Block Fs Mkfs MkfsDisk MkfsFile.

(** The number of blocks that hold [n] bytes, and with the indirect block. *)
Definition nblk (n : Z) : Z := (n + BSIZE - 1) / BSIZE.
Definition cost (nb : Z) : Z := nb + (if NDIRECT <? nb then 1 else 0).

Definition set_addrs (a : list Z) (din : dinode) : dinode :=
  mkdinode din.(di_type) din.(di_major) din.(di_minor) din.(di_nlink) din.(di_size) a.

(** A file whose indirect block is there exactly when it needs one. *)
Notation file_rep s own inum din nb data :=
  (frep (sect s) own inum din.(di_addrs) nb (NDIRECT <? nb) data).

Section Append.
Context (inum : Z).

Lemma blk_owned_ne s own din nb ind data bn :
  alloc_ok s own -> frep (sect s) own inum din.(di_addrs) nb ind data -> 0 <= bn < nb ->
  46 <= blk (sect s) din.(di_addrs) bn < FSSIZE /\
  xint (blk (sect s) din.(di_addrs) bn) = blk (sect s) din.(di_addrs) bn.
Proof using Type.
  intros Hs Hf Hbn. pose proof (fr_own _ _ _ _ _ _ _ Hf bn Hbn) as Ho.
  split; [by eapply owned_range|]. by eapply owned_xint.
Qed.

Section Addr.
Context (s : mkst) (own : owners) (din : dinode) (nb : Z) (data : list Z).
Context (Hs : alloc_ok s own).

(** The block is there. *)
Lemma iappend_addr_there bn :
  file_rep s own inum din nb data -> 0 <= bn < nb ->
  iappend_addr bn din s = Ret (blk (sect s) din.(di_addrs) bn, din) s.
Proof using Hs.
  intros Hf Hbn. destruct (blk_owned_ne s own din nb _ data bn Hs Hf Hbn) as [Hr Hx]. unfold iappend_addr.
  destruct (Z.ltb_spec bn NDIRECT) as [Hlt|Hge].
  - rewrite (bind_Ret _ _ _ _ _ (need_there inum s own din nb data Hs _ bn Hf (or_introl (conj Hbn Hlt)))).
    unfold blk in *. rewrite (proj2 (Z.ltb_lt _ _) Hlt) in *. unfold addr, ret. by rewrite Hx.
  - assert (NDIRECT < nb) as Hnb by lia. rewrite (proj2 (Z.ltb_lt _ _) Hnb) in Hf.
    rewrite (bind_Ret _ _ _ _ _ (need_there inum s own din nb data Hs _ NDIRECT Hf (or_intror (conj eq_refl eq_refl)))).
    pose proof (fr_ind_true _ _ _ _ _ _ _ Hf Hnb) as Ho. destruct (owned_xint _ _ _ _ Hs Ho) as [Hx12 _].
    unfold addr. change (Z.to_nat NDIRECT) with 12%nat. rewrite Hx12.
    assert (indirect_addr (di_addrs din !!! 12%nat) (bn - NDIRECT) s = Ret (blk (sect s) din.(di_addrs) bn) s) as Hi.
    { unfold indirect_addr. destruct (owned_range _ _ _ _ Hs Ho) as [H1 H2].
      assert (0 <= di_addrs din !!! 12%nat < FSSIZE) as H12 by lia.
      rewrite (bind_Ret _ _ _ _ _ (rsect_eq s _ (al_im s own Hs) H12)).
      unfold blk in *. rewrite (proj2 (Z.ltb_ge _ _) Hge) in *. rewrite (proj2 (Z.eqb_neq _ 0)) by lia. by rewrite Hx. }
    by rewrite (bind_Ret _ _ _ _ _ Hi).
Qed.

Hypothesis (Hroom : s.(freeblock) < FSSIZE).

Lemma freeblock_xint : xint s.(freeblock) = s.(freeblock).
Proof using Hs Hroom.
  pose proof (al_free s own Hs). change FSSIZE with 2000 in *. change nmeta with 46 in *. apply xint_id. lia.
Qed.

(** A new direct block. *)
Lemma iappend_addr_direct :
  frep (sect s) own inum din.(di_addrs) nb false data -> nb < NDIRECT ->
  iappend_addr nb din s = Ret (s.(freeblock), set_addr nb s.(freeblock) din) (bump s).
Proof using Hs Hroom.
  intros Hf Hnb. unfold iappend_addr. rewrite (proj2 (Z.ltb_lt _ _) Hnb).
  pose proof (fr_nb _ _ _ _ _ _ _ Hf). pose proof (fr_len _ _ _ _ _ _ _ Hf).
  rewrite (bind_Ret _ _ _ _ _ (need_new s own din Hs Hroom nb (fr_free _ _ _ _ _ _ _ Hf nb ltac:(lia) ltac:(lia)))).
  unfold addr, set_addr, ret. cbn [di_addrs]. rewrite list_lookup_total_insert_eq by (change NDIRECT with 12 in *; lia).
  by rewrite freeblock_xint.
Qed.

(** A new block in the indirect block. *)
Lemma indirect_addr_new :
  frep (sect s) own inum din.(di_addrs) nb true data -> NDIRECT <= nb < MAXFILE ->
  indirect_addr (xint (addr din NDIRECT)) (nb - NDIRECT) s = Ret s.(freeblock) (with_indirect s din nb).
Proof using Hs Hroom.
  intros Hf Hnb. pose proof (indirect_owned _ _ _ _ _ _ Hf) as Ho. unfold addr. change (Z.to_nat NDIRECT) with 12%nat.
  destruct (owned_xint _ _ _ _ Hs Ho) as [-> _]. destruct (owned_range _ _ _ _ Hs Ho) as [H1 H2].
  assert (0 <= di_addrs din !!! 12%nat < FSSIZE) as H12 by lia. unfold indirect_addr.
  rewrite (bind_Ret _ _ _ _ _ (rsect_eq s _ (al_im s own Hs) H12)).
  pose proof (fr_ind _ _ _ _ _ _ _ Hf) as [_ Hz]. specialize (Hz nb Hnb ltac:(lia)). unfold blk in Hz.
  rewrite (proj2 (Z.ltb_ge _ _)) in Hz by lia. rewrite Hz. change (0 =? 0) with true. cbv iota.
  rewrite (bind_Ret _ _ _ _ _ (next_block_eq s own Hs Hroom)). rewrite freeblock_xint.
  assert (image_ok (bump s)) as Him by (destruct (al_im s own Hs); by split).
  cbv zeta. rewrite (bind_Ret _ _ _ _ _ (wsect_eq (bump s) _ _ Him H12)). unfold ret. f_equal.
  rewrite get32_set32; [apply freeblock_xint| |].
  - rewrite (indirect_len _ _ _ _ _ _ Hs Hf). pose proof (indirect_off nb Hnb). lia.
  - pose proof (al_free s own Hs). change FSSIZE with 2000 in *. change nmeta with 46 in *. lia.
Qed.

End Addr.

Lemma cost_succ nb : cost (nb + 1) - cost nb = if nb =? NDIRECT then 2 else 1.
Proof using Type. unfold cost. change NDIRECT with 12. repeat case_cmp; lia. Qed.

(** The outcome of finding the block for the next byte. *)
Record grown (s : mkst) (own : owners) (din : dinode) (nb nb' : Z) (data : list Z) (x : Z)
    (s' : mkst) (own' : owners) (din' : dinode) : Prop := {
  gn_ok : alloc_ok s' own';
  gn_grows : grows inum s own s' own';
  gn_rep : file_rep s' own' inum din' nb' data;
  gn_addr : x = blk (sect s') din'.(di_addrs) (nb' - 1);
  gn_meta : din' = set_addrs din'.(di_addrs) din;
  gn_free : s'.(freeblock) = s.(freeblock) + cost nb' - cost nb;
}.

Section New.
Context (s : mkst) (own : owners) (din : dinode) (nb : Z) (data : list Z).
Context (Hs : alloc_ok s own) (Hf : file_rep s own inum din nb data) (Hmax : nb < MAXFILE).
Context (Hroom : s.(freeblock) + cost (nb + 1) - cost nb <= FSSIZE).

Lemma append_direct : nb < NDIRECT ->
  exists x din' s' own', iappend_addr nb din s = Ret (x, din') s' /\
    grown s own din nb (nb + 1) data x s' own' din'.
Proof using Hs Hf Hmax Hroom.
  intros Hlt. pose proof (cost_succ nb) as Hc. pose proof (fr_nb _ _ _ _ _ _ _ Hf) as Hnb.
  pose proof (fr_len _ _ _ _ _ _ _ Hf) as Hlen. pose proof Hf as Hf'.
  rewrite (proj2 (Z.eqb_neq _ _)) in Hc by lia. rewrite (proj2 (Z.ltb_ge NDIRECT nb)) in Hf' by lia.
  exists s.(freeblock), (set_addr nb s.(freeblock) din), (bump s), (<[s.(freeblock) := (inum, nb)]> own).
  split; [by apply iappend_addr_direct with own data; [|lia|..]|]. split.
  - apply alloc_ok_bump; [done|lia].
  - by apply grows_bump.
  - rewrite (proj2 (Z.ltb_ge NDIRECT (nb + 1))) by lia. apply frep_direct; [done|lia|done|done].
  - unfold blk, set_addr. cbn [di_addrs]. rewrite Z.add_simpl_r, (proj2 (Z.ltb_lt _ _) Hlt).
    symmetry. apply list_lookup_total_insert_eq. change NDIRECT with 12 in *. lia.
  - done.
  - simpl. lia.
Qed.

Lemma append_first_indirect : nb = NDIRECT ->
  exists x din' s' own', iappend_addr nb din s = Ret (x, din') s' /\
    grown s own din nb (nb + 1) data x s' own' din'.
Proof using Hs Hf Hmax Hroom.
  intros E. pose proof (cost_succ nb) as Hc. pose proof Hf as Hf'. pose proof Hroom as Hr.
  rewrite E in Hc, Hf', Hr |- *. rewrite Z.eqb_refl in Hc. change (NDIRECT <? NDIRECT) with false in Hf'.
  assert (frep (sect (bump s)) (<[s.(freeblock) := (inum, -1)]> own) inum
    (set_addr NDIRECT s.(freeblock) din).(di_addrs) NDIRECT true data) as Hf2
    by (apply frep_indirect; [done|lia|done|done]).
  assert (alloc_ok (bump s) (<[s.(freeblock) := (inum, -1)]> own)) as Hs2 by (apply alloc_ok_bump; [done|lia]).
  set (din2 := set_addr NDIRECT s.(freeblock) din) in *.
  assert ((bump s).(freeblock) < FSSIZE) as Hr2 by (simpl; lia).
  assert (NDIRECT <= NDIRECT < MAXFILE) as Hn by done.
  exists (bump s).(freeblock), din2, (with_indirect (bump s) din2 NDIRECT),
    (<[(bump s).(freeblock) := (inum, NDIRECT)]> (<[s.(freeblock) := (inum, -1)]> own)). split.
  - unfold iappend_addr. change (NDIRECT <? NDIRECT) with false. cbv iota.
    rewrite (bind_Ret _ _ _ _ _ (need_new s own din Hs ltac:(lia) NDIRECT (proj1 (fr_ind _ _ _ _ _ _ _ Hf')))).
    by rewrite (bind_Ret _ _ _ _ _ (indirect_addr_new (bump s) _ din2 NDIRECT data Hs2 Hr2 Hf2 Hn)).
  - split.
    + by eapply alloc_ok_with_indirect.
    + eapply grows_trans; [by apply grows_bump|]. by eapply grows_with_indirect.
    + by eapply frep_with_indirect.
    + rewrite Z.add_simpl_r. erewrite blk_with_indirect by done. by rewrite decide_True.
    + done.
    + simpl. lia.
Qed.

Lemma append_indirect : NDIRECT < nb ->
  exists x din' s' own', iappend_addr nb din s = Ret (x, din') s' /\
    grown s own din nb (nb + 1) data x s' own' din'.
Proof using Hs Hf Hmax Hroom.
  intros Hgt. pose proof (cost_succ nb) as Hc. pose proof Hf as Hf'.  pose proof (fr_nb _ _ _ _ _ _ _ Hf) as Hnb.
  rewrite (proj2 (Z.eqb_neq _ _)) in Hc by lia. rewrite (proj2 (Z.ltb_lt _ _) Hgt) in Hf'.
  assert (s.(freeblock) < FSSIZE) as Hr by lia. assert (NDIRECT <= nb < MAXFILE) as Hn by lia.
  exists s.(freeblock), din, (with_indirect s din nb), (<[s.(freeblock) := (inum, nb)]> own). split.
  - unfold iappend_addr. rewrite (proj2 (Z.ltb_ge nb NDIRECT)) by lia.
    rewrite (bind_Ret _ _ _ _ _ (need_there inum s own din nb data Hs _ NDIRECT Hf' (or_intror (conj eq_refl eq_refl)))).
    by rewrite (bind_Ret _ _ _ _ _ (indirect_addr_new s own din nb data Hs Hr Hf' Hn)).
  - split.
    + by eapply alloc_ok_with_indirect.
    + by eapply grows_with_indirect.
    + rewrite (proj2 (Z.ltb_lt NDIRECT (nb + 1))) by lia. by eapply frep_with_indirect.
    + rewrite Z.add_simpl_r. erewrite blk_with_indirect by (done || lia). by rewrite decide_True.
    + by destruct din.
    + simpl. lia.
Qed.

Lemma append_new :
  exists x din' s' own', iappend_addr nb din s = Ret (x, din') s' /\
    grown s own din nb (nb + 1) data x s' own' din'.
Proof using Hs Hf Hmax Hroom.
  destruct (Z.lt_trichotomy nb NDIRECT) as [H|[H|H]];
    [by apply append_direct|by apply append_first_indirect|by apply append_indirect].
Qed.

End New.

(** ** The bytes *)

Lemma splice_lookup (d : list Z) off bs j :
  0 <= off -> (Z.to_nat off + length bs <= length d)%nat ->
  splice d off bs !!! j =
  if decide (Z.to_nat off <= j < Z.to_nat off + length bs)%nat then bs !!! (j - Z.to_nat off)%nat else d !!! j.
Proof using Type.
  intros H0 Hl. unfold splice. rewrite !list_lookup_total_alt. f_equal.
  destruct (decide (j < Z.to_nat off)%nat) as [Hj|Hj].
  - rewrite decide_False by lia. rewrite lookup_app_l by (rewrite length_take; lia). by rewrite lookup_take_lt.
  - rewrite lookup_app_r by (rewrite length_take; lia). rewrite length_take.
    replace (j - Z.to_nat off `min` length d)%nat with (j - Z.to_nat off)%nat by lia.
    destruct (decide _) as [H|H].
    + by rewrite lookup_app_l by lia.
    + rewrite lookup_app_r, lookup_drop by lia. do 2 f_equal. lia.
Qed.

Section Put.
Context (s : mkst) (own : owners) (a : list Z) (nb : Z) (ind : bool) (data bs : list Z).
Context (Hs : alloc_ok s own) (Hf : frep (sect s) own inum a nb ind data).
Let off : Z := Z.of_nat (length data).
Let fbn : Z := off / BSIZE.
Let x : Z := blk (sect s) a fbn.
Context (Hfbn : fbn < nb) (Hbs : off + Z.of_nat (length bs) <= (fbn + 1) * BSIZE).
Let s' : mkst := put x (splice (sect s x) (off - fbn * BSIZE) bs) s.

Lemma off_bounds : 0 <= fbn /\ 0 <= off - fbn * BSIZE < BSIZE.
Proof using All.
  unfold fbn. assert (0 <= off) by (unfold off; lia). change BSIZE with 1024.
  pose proof (Z.div_mod off 1024 ltac:(lia)). pose proof (Z.mod_pos_bound off 1024 ltac:(lia)).
  split; [apply Z.div_pos; lia|lia].
Qed.

Lemma put_owned : own !! x = Some (inum, fbn).
Proof using All. apply (fr_own _ _ _ _ _ _ _ Hf). pose proof off_bounds. lia. Qed.

Lemma put_len : length (splice (sect s x) (off - fbn * BSIZE) bs) = Z.to_nat BSIZE.
Proof using All.
  pose proof (owned_range _ _ _ _ Hs put_owned). pose proof off_bounds.
  assert (length (sect s x) = Z.to_nat BSIZE) as Hl by (apply length_sect; [apply Hs|lia]).
  rewrite length_splice; [done|]. rewrite Hl. change BSIZE with 1024 in *. lia.
Qed.

Lemma sect_put_block b : 0 <= b ->
  sect s' b = if decide (b = x) then splice (sect s x) (off - fbn * BSIZE) bs else sect s b.
Proof using All.
  intros Hb. pose proof (owned_range _ _ _ _ Hs put_owned).
  apply sect_put; [apply Hs|lia|done].
Qed.

(** Only the last block changes. *)
Lemma put_blk bn : bn < nb \/ ind = true -> blk (sect s') a bn = blk (sect s) a bn.
Proof using All.
  intros Hbn. unfold blk. destruct (Z.ltb_spec bn NDIRECT); [done|].
  assert (own !! (a !!! 12%nat) = Some (inum, -1)) as Ho.
  { destruct Hbn as [Hlt| ->]; [apply (fr_ind_true _ _ _ _ _ _ _ Hf); lia|apply (fr_ind _ _ _ _ _ _ _ Hf)]. }
  pose proof (owned_range _ _ _ _ Hs Ho). rewrite sect_put_block by lia. rewrite decide_False; [done|].
  intros E. rewrite E, put_owned in Ho. injection Ho as Ho. pose proof off_bounds. lia.
Qed.

Lemma frep_put : frep (sect s') own inum a nb ind (data ++ bs).
Proof using All.
  pose proof off_bounds as [Hb0 Hb1]. pose proof Hf as [H1 H2 H3 H4 H5 H6 H7].
  pose proof (owned_range _ _ _ _ Hs put_owned) as Hx.
  assert (length (sect s x) = 1024%nat) as Hl by (apply (length_sect s x); [apply Hs|lia]).
  split; [done|done| | |done| |].
  - rewrite length_app. fold off. change BSIZE with 1024 in *. lia.
  - intros bn Hbn. rewrite put_blk by lia. by apply H4.
  - pose proof put_blk as Hpb. destruct ind; [|done]. destruct H6 as [Ho Hz]. split; [done|].
    intros bn Hbn Hge. rewrite Hpb by (by right). by apply Hz.
  - intros i Hi. assert (0 <= i / BSIZE < nb) as Hbn.
    { change BSIZE with 1024 in *. split; [apply Z.div_pos; lia|apply Z.div_lt_upper_bound; lia]. }
    rewrite put_blk by lia. pose proof (owned_range _ _ _ _ Hs (H4 _ Hbn)).
    rewrite sect_put_block by lia. specialize (H7 i Hi).
    pose proof (Z.div_mod i BSIZE ltac:(done)) as Hdm. pose proof (Z.mod_pos_bound i BSIZE ltac:(done)) as Hmb.
    destruct (decide (blk (sect s) a (i / BSIZE) = x)) as [E|E].
    + rewrite E in H7. assert (i / BSIZE = fbn) as Ei.
      { pose proof (H4 _ Hbn) as Ho. rewrite E, put_owned in Ho. by injection Ho. }
      rewrite splice_lookup by (try rewrite Hl; change BSIZE with 1024 in *; lia). change BSIZE with 1024 in *.
      destruct (decide _) as [Hd|Hd].
      * rewrite app_nth2 by (unfold off in *; lia).
        replace (Z.to_nat i - length data)%nat with (Z.to_nat (i mod 1024) - Z.to_nat (off - fbn * 1024))%nat
          by (unfold off in *; lia).
        erewrite nth_lookup_Some; [reflexivity|]. apply list_lookup_lookup_total_lt. lia.
      * rewrite H7. destruct (decide (i < off)) as [Hio|Hio].
        -- by rewrite app_nth1 by (unfold off in *; lia).
        -- rewrite !nth_overflow; [done|rewrite length_app|]; unfold off in *; lia.
    + rewrite H7. destruct (decide (i < off)) as [Hio|Hio].
      * by rewrite app_nth1 by (unfold off in *; lia).
      * assert (fbn <> i / BSIZE) as Hne by (intros E'; apply E; unfold x; by rewrite E').
        assert (fbn <= i / BSIZE) as Hle by (apply Z.div_le_mono; [done|lia]). change BSIZE with 1024 in *.
        rewrite !nth_overflow; [done|rewrite length_app|]; unfold off in *; lia.
Qed.

End Put.
(** ** Counting blocks *)

Lemma nblk_block n q : q * BSIZE < n <= (q + 1) * BSIZE -> nblk n = q + 1.
Proof using Type.
  intros H. unfold nblk. change BSIZE with 1024 in *.
  symmetry. apply (Z.div_unique _ _ _ (n - 1 - q * 1024)); lia.
Qed.

Lemma nblk_bounds n : 0 <= n -> 0 <= nblk n /\ (nblk n - 1) * BSIZE < n <= nblk n * BSIZE.
Proof using Type.
  intros H. unfold nblk. change BSIZE with 1024 in *.
  pose proof (Z.div_mod (n + 1024 - 1) 1024 ltac:(lia)). pose proof (Z.mod_pos_bound (n + 1024 - 1) 1024 ltac:(lia)).
  pose proof (Z.div_pos (n + 1024 - 1) 1024). lia.
Qed.

Lemma nblk_mono n m : n <= m -> nblk n <= nblk m.
Proof using Type. intros H. unfold nblk. apply Z.div_le_mono; [done|lia]. Qed.

Lemma cost_mono n m : n <= m -> cost n <= cost m.
Proof using Type. intros H. unfold cost. change NDIRECT with 12. repeat case_cmp; lia. Qed.

(** The result of appending [p] to a file that holds [data]. *)
Record appended (s : mkst) (own : owners) (din : dinode) (data p : list Z)
    (s' : mkst) (own' : owners) (din' : dinode) : Prop := {
  ap_ok : alloc_ok s' own';
  ap_grows : grows inum s own s' own';
  ap_rep : file_rep s' own' inum din' (nblk (Z.of_nat (length (data ++ p)))) (data ++ p);
  ap_meta : din' = set_addrs din'.(di_addrs) din;
  ap_free : s'.(freeblock) = s.(freeblock) + cost (nblk (Z.of_nat (length (data ++ p)))) -
    cost (nblk (Z.of_nat (length data)));
}.

(** The block for the next byte. *)
Lemma next_byte s own din data n :
  alloc_ok s own -> file_rep s own inum din (nblk (Z.of_nat (length data))) data ->
  let fbn := Z.of_nat (length data) / BSIZE in
  0 < n -> fbn < MAXFILE ->
  s.(freeblock) + cost (nblk (Z.of_nat (length data) + n)) - cost (nblk (Z.of_nat (length data))) <= FSSIZE ->
  exists x din' s' own', iappend_addr fbn din s = Ret (x, din') s' /\
    grown s own din (nblk (Z.of_nat (length data))) (fbn + 1) data x s' own' din'.
Proof using Type.
  intros Hs Hf fbn Hn Hmax Hroom. set (L := Z.of_nat (length data)) in *. assert (0 <= L) as HL by lia.
  assert (L = BSIZE * fbn + L mod BSIZE) as Hdm by (apply Z.div_mod; done).
  pose proof (Z.mod_pos_bound L BSIZE ltac:(done)) as Hmb. destruct (nblk_bounds L HL) as [Hb0 Hb].
  assert (0 <= fbn) as H0 by (apply Z.div_pos; [lia|done]).
  assert (fbn + 1 <= nblk (L + n)) as Hge.
  { destruct (nblk_bounds (L + n)); [lia|]. change BSIZE with 1024 in *. lia. }
  pose proof (cost_mono _ _ Hge). destruct (decide (L mod BSIZE = 0)) as [E|E].
  - assert (nblk L = fbn) as Eb by (change BSIZE with 1024 in *; lia). rewrite Eb in *.
    destruct (append_new s own din fbn data Hs Hf Hmax ltac:(lia)) as (x & din' & s' & own' & H1 & H2).
    by exists x, din', s', own'.
  - assert (nblk L = fbn + 1) as Eb by (change BSIZE with 1024 in *; lia). rewrite Eb in *.
    exists (blk (sect s) din.(di_addrs) fbn), din, s, own. split; [apply (iappend_addr_there s own din (fbn + 1) data Hs fbn Hf); lia|].
    split; [done|apply grows_refl|done|by rewrite Z.add_simpl_r|by destruct din|lia].
Qed.

Lemma appended_trans s1 own1 d1 data p q s2 own2 d2 s3 own3 d3 :
  appended s1 own1 d1 data p s2 own2 d2 -> appended s2 own2 d2 (data ++ p) q s3 own3 d3 ->
  appended s1 own1 d1 data (p ++ q) s3 own3 d3.
Proof using Type.
  intros [A1 A2 A3 A4 A5] [B1 B2 B3 B4 B5]. rewrite <- app_assoc in B3, B5.
  split; [done|by eapply grows_trans|done| |lia]. rewrite B4 at 1. by rewrite A4.
Qed.

Lemma appended_nil s own din data :
  alloc_ok s own -> file_rep s own inum din (nblk (Z.of_nat (length data))) data ->
  appended s own din data [] s own din.
Proof using Type.
  intros Hs Hf. split; rewrite ?app_nil_r; [done|apply grows_refl|done|by destruct din|lia].
Qed.

(** A piece that fits the block. *)
Lemma append_piece s own din data bs x s1 own1 d1 :
  let L := Z.of_nat (length data) in
  let fbn := L / BSIZE in
  grown s own din (nblk L) (fbn + 1) data x s1 own1 d1 ->
  fbn * BSIZE < L + Z.of_nat (length bs) <= (fbn + 1) * BSIZE ->
  0 <= x < FSSIZE /\
  appended s own din data bs (put x (splice (sect s1 x) (L - fbn * BSIZE) bs) s1) own1 d1.
Proof using Type.
  intros L fbn [G1 G2 G3 G4 G5 G6] Hbs. rewrite Z.add_simpl_r in G4.
  assert (0 <= fbn) as H0 by (apply Z.div_pos; [lia|done]).
  assert (own1 !! x = Some (inum, fbn)) as Ho by (rewrite G4; apply (fr_own _ _ _ _ _ _ _ G3); lia).
  assert (0 <= x < FSSIZE) as Hx by (pose proof (owned_range _ _ _ _ G1 Ho); lia).
  assert (fbn < fbn + 1) as Hlt by lia. destruct Hbs as [Hpos Hfit].
  pose proof (frep_put s1 own1 d1.(di_addrs) (fbn + 1) _ data bs G1 G3 Hlt Hfit) as HP.
  pose proof (put_len s1 own1 d1.(di_addrs) (fbn + 1) _ data bs G1 G3 Hlt Hfit) as HPl.
  fold L in HP, HPl. fold fbn in HP, HPl. rewrite <- G4 in HP, HPl.
  assert (nblk (Z.of_nat (length (data ++ bs))) = fbn + 1) as Hnb
    by (apply nblk_block; rewrite length_app, Nat2Z.inj_add; fold L; lia).
  split; [done|]. split.
  - by eapply alloc_ok_put.
  - eapply grows_trans; [done|]. by eapply grows_put.
  - by rewrite Hnb.
  - done.
  - rewrite Hnb. simpl. exact G6.
Qed.

Lemma iappend_loop_step fuel p s own din data :
  alloc_ok s own -> file_rep s own inum din (nblk (Z.of_nat (length data))) data ->
  (0 < length p)%nat -> Z.of_nat (length data + length p) <= MAXFILE * BSIZE ->
  s.(freeblock) + cost (nblk (Z.of_nat (length data) + Z.of_nat (length p))) -
    cost (nblk (Z.of_nat (length data))) <= FSSIZE ->
  exists k din' s' own', (0 < k <= length p)%nat /\
    iappend_loop (S fuel) (Z.of_nat (length data)) p din s =
    iappend_loop fuel (Z.of_nat (length (data ++ take k p))) (drop k p) din' s' /\
    appended s own din data (take k p) s' own' din'.
Proof using Type.
  intros Hs Hf Hp Hmax Hroom. set (L := Z.of_nat (length data)) in *. set (fbn := L / BSIZE).
  assert (0 <= L) as HL by lia. assert (L = BSIZE * fbn + L mod BSIZE) as Hdm by (apply Z.div_mod; done).
  pose proof (Z.mod_pos_bound L BSIZE ltac:(done)) as Hmb. assert (0 <= fbn) as H0 by (apply Z.div_pos; [lia|done]).
  assert (fbn < MAXFILE) as Hfm by (change BSIZE with 1024 in *; change MAXFILE with 268 in *; lia).
  destruct (next_byte s own din data (Z.of_nat (length p)) Hs Hf ltac:(lia) Hfm Hroom)
    as (x & d1 & s1 & own1 & Hrun & Hg).
  set (n1 := Z.min (Z.of_nat (length p)) ((fbn + 1) * BSIZE - L)).
  assert (0 < n1 <= Z.of_nat (length p)) as Hn1 by (change BSIZE with 1024 in *; lia).
  assert (length (take (Z.to_nat n1) p) = Z.to_nat n1) as Hlt by (rewrite length_take; lia).
  destruct (append_piece s own din data (take (Z.to_nat n1) p) x s1 own1 d1 Hg) as [Hx Ha].
  { fold L. fold fbn. rewrite Hlt. change BSIZE with 1024 in *. lia. }
  pose proof (al_im _ _ (gn_ok _ _ _ _ _ _ _ _ _ _ Hg)) as Him.
  eexists (Z.to_nat n1), d1, _, own1. split; [lia|]. split; [|exact Ha].
  cbn [iappend_loop]. rewrite (proj2 (Z.ltb_lt 0 (Z.of_nat (length p)))) by lia. fold fbn.
  rewrite (proj2 (Z.ltb_lt _ _) Hfm). cbn [negb]. rewrite (bind_Ret _ _ _ _ _ Hrun). cbv beta iota.
  assert (u32 (u32 ((fbn + 1) * BSIZE) - L) = (fbn + 1) * BSIZE - L) as ->.
  { change BSIZE with 1024 in *. change MAXFILE with 268 in *. unfold u32. rewrite (Z.mod_small ((fbn + 1) * 1024)) by lia. apply Z.mod_small. lia. }
  fold n1. rewrite (bind_Ret _ _ _ _ _ (rsect_eq s1 x Him Hx)).
  rewrite (bind_Ret _ _ _ _ _ (wsect_eq s1 x _ Him Hx)). f_equal.
  rewrite length_app, Nat2Z.inj_add. fold L. rewrite Hlt.
  change BSIZE with 1024 in *. change MAXFILE with 268 in *. unfold u32. rewrite Z.mod_small; lia.
Qed.

Lemma iappend_loop_ok fuel : forall p s own din data,
  alloc_ok s own -> file_rep s own inum din (nblk (Z.of_nat (length data))) data ->
  (length p <= fuel)%nat -> Z.of_nat (length data + length p) <= MAXFILE * BSIZE ->
  s.(freeblock) + cost (nblk (Z.of_nat (length data) + Z.of_nat (length p))) -
    cost (nblk (Z.of_nat (length data))) <= FSSIZE ->
  exists din' s' own',
    iappend_loop fuel (Z.of_nat (length data)) p din s = Ret (Z.of_nat (length (data ++ p)), din') s' /\
    appended s own din data p s' own' din'.
Proof using Type.
  induction fuel as [|fuel IH]; intros p s own din data Hs Hf Hp Hmax Hroom.
  - destruct p; [|simpl in Hp; lia]. exists din, s, own. rewrite app_nil_r.
    split; [done|by apply appended_nil].
  - destruct (decide (length p = 0)%nat) as [E|E].
    + destruct p; [|done]. exists din, s, own. rewrite app_nil_r. split; [done|by apply appended_nil].
    + destruct (iappend_loop_step fuel p s own din data) as (k & d1 & s1 & own1 & Hk & -> & Ha); [done|done|lia|done|done|].
      assert (length (data ++ take k p) = (length data + k)%nat) as Hl by (rewrite length_app, length_take; lia).
      assert (length (drop k p) = (length p - k)%nat) as Hd by apply length_drop.
      destruct (IH (drop k p) s1 own1 d1 (data ++ take k p)) as (d2 & s2 & own2 & -> & Hb).
      * apply Ha.
      * apply Ha.
      * lia.
      * rewrite Hl, Hd. lia.
      * rewrite (ap_free _ _ _ _ _ _ _ _ Ha), Hl, Hd.
        replace (Z.of_nat (length data + k) + Z.of_nat (length p - k)) with
          (Z.of_nat (length data) + Z.of_nat (length p)) by lia. lia.
      * exists d2, s2, own2. rewrite <- app_assoc, take_drop. split; [done|].
        rewrite <- (take_drop k p). by eapply appended_trans.
Qed.

End Append.
