(* ===== verification/MkfsSpec.v ===== *)
(** * The image builder: the files of the image *)

From S2P Require Import Prelude Params Mem State Spinlock CString Kalloc Vm Proc.
From S2P Require Import Sleeplock Uart Printf Bio Log Block Fs Mkfs MkfsDisk.
From S2P Require Import MkfsFile MkfsAppend.

(** A file as the type of its inode and its contents. *)
Notation file := (Z * list Z)%type.

(** The blocks that the files need. *)
Definition file_cost (g : file) : Z := cost (nblk (Z.of_nat (length (snd g)))).
Definition total (gs : list file) : Z := foldr (fun g n => file_cost g + n) 0 gs.

Definition file_at (s : mkst) (own : owners) (inum : Z) (g : file) : Prop :=
  exists a, dinode_at s inum = mkdinode (fst g) 0 0 1 (Z.of_nat (length (snd g))) a /\
    let nb := nblk (Z.of_nat (length (snd g))) in
    frep (sect s) own inum a nb (NDIRECT <? nb) (snd g).

(** The image holds the files [gs], of inodes 1, 2, and so on. *)
Record fs_rep (s : mkst) (own : owners) (gs : list file) : Prop := {
  fs_alloc : alloc_ok s own;
  fs_inode : s.(freeinode) = Z.of_nat (length gs) + 1;
  fs_slots : Z.of_nat (length gs) < ninode_slots;
  fs_free : s.(freeblock) = nmeta + total gs;
  fs_type : Forall (fun g => 0 <= fst g < 2 ^ 15) gs;
  fs_file : forall k g, gs !! k = Some g -> file_at s own (Z.of_nat k + 1) g;
  fs_unused : forall i, Z.of_nat (length gs) < i < ninode_slots -> (dinode_at s i).(di_type) = 0;
  fs_sb : sect s 1 = splice zeroes 0 (sb_encode sb);
  fs_log : forall b, b = 0 \/ 2 <= b < 32 -> sect s b = zeroes;
}.

(** ** Counting *)

Lemma cost_nonneg nb : 0 <= nb -> 0 <= cost nb.
Proof. intros H. unfold cost. case_cmp; lia. Qed.

Lemma file_cost_nonneg g : 0 <= file_cost g.
Proof. apply cost_nonneg. apply nblk_bounds. lia. Qed.

Lemma total_cons g gs : total (g :: gs) = file_cost g + total gs.
Proof. done. Qed.

Lemma total_app gs hs : total (gs ++ hs) = total gs + total hs.
Proof. induction gs as [|g gs IH]; [done|]. cbn [app]. rewrite !total_cons, IH. lia. Qed.

Lemma total_nonneg gs : 0 <= total gs.
Proof. induction gs as [|g gs IH]; [done|]. rewrite total_cons. pose proof (file_cost_nonneg g). lia. Qed.

Lemma total_insert gs k g g' :
  gs !! k = Some g -> total (<[k := g']> gs) = total gs + file_cost g' - file_cost g.
Proof.
  revert k. induction gs as [|h gs IH]; intros [|k]; [done|done| |]; intros H.
  - injection H as ->. change (<[0%nat := g']> (g :: gs)) with (g' :: gs). rewrite !total_cons. lia.
  - change (<[S k := g']> (h :: gs)) with (h :: <[k := g']> gs). rewrite !total_cons, (IH k H). lia.
Qed.

(** ** Frames *)

(** The addresses of a file are block numbers. *)
Lemma frep_addrs s own inum a nb ind data :
  alloc_ok s own -> frep (sect s) own inum a nb ind data -> Forall (fun b => 0 <= b < 2 ^ 32) a.
Proof.
  intros Hs Hf. apply Forall_lookup. intros i b Hi.
  assert (forall b' r, own !! b' = Some (inum, r) -> 0 <= b' < 2 ^ 32) as Ho.
  { intros b' r Hb'. pose proof (owned_range _ _ _ _ Hs Hb') as Hr. change FSSIZE with 2000 in Hr. lia. }
  pose proof (fr_len _ _ _ _ _ _ _ Hf) as Hl. pose proof (lookup_lt_Some _ _ _ Hi) as Hlt.
  assert (a !!! i = b) as <- by by apply list_lookup_total_correct.
  destruct (decide (i = 12)%nat) as [->|Hne].
  - pose proof (fr_ind _ _ _ _ _ _ _ Hf) as H. destruct ind; destruct H as [H _]; [by eapply Ho|rewrite H; lia].
  - destruct (decide (Z.of_nat i < nb)) as [Hnb|Hnb].
    + apply (Ho _ (Z.of_nat i)). rewrite <- (fr_own _ _ _ _ _ _ _ Hf (Z.of_nat i)) by lia. f_equal. unfold blk.
      rewrite (proj2 (Z.ltb_lt (Z.of_nat i) NDIRECT)) by (change NDIRECT with 12; lia). by rewrite Nat2Z.id.
    + pose proof (fr_free _ _ _ _ _ _ _ Hf (Z.of_nat i)) as H. rewrite Nat2Z.id in H.
      rewrite H; [lia|change NDIRECT with 12; lia|lia].
Qed.

(** What an inode that gets blocks leaves alone. *)
Lemma grows_meta inum s own s' own' b :
  alloc_ok s own -> grows inum s own s' own' -> 0 <= b < 46 -> sect s' b = sect s b.
Proof.
  intros Hs Hg Hb. pose proof (al_free _ _ Hs) as Hf. change nmeta with 46 in Hf.
  apply (gr_keep _ _ _ _ _ Hg b); [lia|]. intros r Ho. pose proof (owned_range _ _ _ _ Hs Ho). lia.
Qed.

Lemma grows_dinode inum s own s' own' i :
  alloc_ok s own -> grows inum s own s' own' -> 0 <= i < ninode_slots -> dinode_at s' i = dinode_at s i.
Proof.
  intros Hs Hg Hi. destruct (IBLOCK_range i Hi) as [_ Hb]. unfold dinode_at.
  by rewrite (grows_meta inum s own s' own' _ Hs Hg) by lia.
Qed.

Lemma alloc_ok_put_dinode s own inum d :
  alloc_ok s own -> 0 <= inum < ninode_slots -> dinode_ok d -> alloc_ok (put_dinode inum d s) own.
Proof.
  intros Hs Hi Hd. pose proof Hs as [H1 H2 H3 H4]. change nmeta with 46 in *.
  split; [by apply image_ok_put_dinode|done|done|].
  intros b Hb. simpl in Hb. rewrite sect_put_dinode by (done || lia). by apply H4.
Qed.

Lemma frep_put_dinode s own inum d i a nb ind data :
  alloc_ok s own -> 0 <= inum < ninode_slots ->
  frep (sect s) own i a nb ind data -> frep (sect (put_dinode inum d s)) own i a nb ind data.
Proof.
  intros Hs Hi Hf. eapply frep_frame; [done|done|]. intros b r Ho.
  pose proof (owned_range _ _ _ _ Hs Ho). apply sect_put_dinode; [apply Hs|done|lia|lia].
Qed.

(** Another file is kept when inode [inum] grows and is then written. *)
Lemma file_at_other s own s1 own1 inum d i g :
  alloc_ok s own -> alloc_ok s1 own1 -> grows inum s own s1 own1 -> i <> inum ->
  0 <= inum < ninode_slots -> 0 <= i < ninode_slots -> dinode_ok d ->
  file_at s own i g -> file_at (put_dinode inum d s1) own1 i g.
Proof.
  intros Hs Hs1 Hg Hne Hi Hi' Hd (a & Ha & Hf). exists a. split.
  - rewrite dinode_at_put by (done || apply Hs1). rewrite decide_False by done.
    by rewrite (grows_dinode inum s own s1 own1).
  - apply frep_put_dinode; [done|done|]. eapply frep_frame; [done|apply Hg|]. intros b r Ho.
    pose proof (owned_range _ _ _ _ Hs Ho). pose proof (al_own _ _ Hs _ _ Ho).
    apply (gr_keep _ _ _ _ _ Hg b); [lia|]. intros r' Ho'. rewrite Ho in Ho'. congruence.
Qed.

(** ** The operations *)

Lemma dinode_ok_file t n a :
  0 <= t < 2 ^ 15 -> 0 <= n < 2 ^ 32 -> length a = 13%nat -> Forall (fun b => 0 <= b < 2 ^ 32) a ->
  dinode_ok (mkdinode t 0 0 1 n a).
Proof. intros. split; simpl; try done; lia. Qed.

Lemma lookup_slot s own gs k g :
  fs_rep s own gs -> gs !! k = Some g -> 0 <= Z.of_nat k + 1 < ninode_slots.
Proof. intros Hs Hk. pose proof (fs_slots _ _ _ Hs). apply lookup_lt_Some in Hk. lia. Qed.

(** File [k] becomes [g]. *)
Lemma fs_rep_replace s own gs k g0 g s1 own1 a :
  let inum := Z.of_nat k + 1 in
  let nb := nblk (Z.of_nat (length (snd g))) in
  let d := mkdinode (fst g) 0 0 1 (Z.of_nat (length (snd g))) a in
  fs_rep s own gs -> gs !! k = Some g0 -> alloc_ok s1 own1 -> grows inum s own s1 own1 ->
  frep (sect s1) own1 inum a nb (NDIRECT <? nb) (snd g) -> dinode_ok d ->
  s1.(freeblock) = s.(freeblock) + file_cost g - file_cost g0 ->
  fs_rep (put_dinode inum d s1) own1 (<[k := g]> gs).
Proof.
  intros inum nb d Hs Hk Hal Hg Hf Hd Hfree. pose proof (fs_alloc _ _ _ Hs) as Hal0.
  pose proof (lookup_slot _ _ _ _ _ Hs Hk) as Hi. fold inum in Hi. pose proof (al_im _ _ Hal) as Him.
  assert (forall b, 0 <= b < 32 -> sect (put_dinode inum d s1) b = sect s b) as Hmeta.
  { intros b Hb. rewrite sect_put_dinode; [|done|done|lia|lia]. apply (grows_meta inum s own s1 own1); [done|done|lia]. }
  split.
  - by apply alloc_ok_put_dinode.
  - rewrite length_insert. simpl. rewrite (gr_inode _ _ _ _ _ Hg). apply Hs.
  - rewrite length_insert. apply Hs.
  - rewrite (total_insert gs k g0) by done. simpl. pose proof (fs_free _ _ _ Hs). lia.
  - apply Forall_insert; [apply Hs|]. apply Hd.
  - intros j h Hj. destruct (decide (j = k)) as [->|Hne].
    + rewrite list_lookup_insert_eq in Hj by (by eapply lookup_lt_Some). injection Hj as <-.
      exists a. fold inum. split; [|by apply frep_put_dinode].
      rewrite dinode_at_put by done. by rewrite decide_True.
    + rewrite list_lookup_insert_ne in Hj by done. pose proof (lookup_slot _ _ _ _ _ Hs Hj) as Hj'.
      apply (file_at_other s own s1 own1); try done; [unfold inum; lia|]. by apply (fs_file _ _ _ Hs).
  - rewrite length_insert. intros i Hi'. rewrite dinode_at_put; [|done|done|done|lia].
    pose proof (lookup_lt_Some _ _ _ Hk). rewrite decide_False by lia.
    rewrite (grows_dinode inum s own s1 own1); [|done|done|lia]. by apply (fs_unused _ _ _ Hs).
  - rewrite Hmeta by lia. apply Hs.
  - intros b Hb. rewrite Hmeta by lia. by apply (fs_log _ _ _ Hs).
Qed.

(** [iappend] appends to one file. *)
Lemma iappend_ok s own gs k t data p :
  fs_rep s own gs -> gs !! k = Some (t, data) ->
  Z.of_nat (length data + length p) <= MAXFILE * BSIZE ->
  nmeta + total (<[k := (t, data ++ p)]> gs) <= FSSIZE ->
  exists s' own', iappend (Z.of_nat k + 1) p s = Ret tt s' /\ fs_rep s' own' (<[k := (t, data ++ p)]> gs).
Proof.
  intros Hs Hk Hmax Hroom. pose proof (fs_alloc _ _ _ Hs) as Hal. pose proof (lookup_slot _ _ _ _ _ Hs Hk) as Hi.
  destruct (fs_file _ _ _ Hs k _ Hk) as (a & Ha & Hf). cbn [fst snd] in *.
  rewrite (total_insert gs k (t, data)) in Hroom by done. pose proof (fs_free _ _ _ Hs) as Hfree.
  unfold file_cost in Hroom. cbn [snd] in Hroom. pose proof (length_app data p) as Hla.
  set (din := mkdinode t 0 0 1 (Z.of_nat (length data)) a) in *.
  destruct (iappend_loop_ok (Z.of_nat k + 1) (length p) p s own din data) as (d1 & s1 & own1 & Hrun & Hap);
    [done|exact Hf|done|done|rewrite <- Nat2Z.inj_add, <- Hla; lia|].
  destruct Hap as [P1 P2 P3 P4 P5]. pose proof (Forall_lookup_1 _ _ _ _ (fs_type _ _ _ Hs) Hk) as Ht.
  assert (set_size (Z.of_nat (length (data ++ p))) d1 =
    mkdinode t 0 0 1 (Z.of_nat (length (data ++ p))) d1.(di_addrs)) as Hd1 by (rewrite P4; done).
  change MAXFILE with 268 in Hmax. change BSIZE with 1024 in Hmax. cbn [fst] in Ht.
  exists (put_dinode (Z.of_nat k + 1) (mkdinode t 0 0 1 (Z.of_nat (length (data ++ p))) d1.(di_addrs)) s1), own1. split.
  - unfold iappend. rewrite (bind_Ret _ _ _ _ _ (rinode_eq s _ (al_im _ _ Hal) Hi)). rewrite Ha.
    change (di_size din) with (Z.of_nat (length data)). rewrite xint_id by lia.
    rewrite (bind_Ret _ _ _ _ _ Hrun). cbv beta iota. rewrite xint_id, Hd1 by lia. apply winode_eq; [apply P1|done].
  - apply (fs_rep_replace s own gs k (t, data) (t, data ++ p) s1 own1); try done.
    apply dinode_ok_file; [done|cbn [snd]; lia|by apply P3|by eapply frep_addrs].
Qed.

Definition empty_dinode (t : Z) : dinode := mkdinode t 0 0 1 0 (replicate 13 0).

Lemma frep_empty V own inum : frep V own inum (replicate 13 0) 0 false [].
Proof.
  split; try done.
  - intros bn Hbn. lia.
  - intros bn Hbn H0. change NDIRECT with 12 in Hbn. rewrite list_lookup_total_alt, lookup_replicate_2 by lia. done.
  - intros i Hi. lia.
Qed.

(** [ialloc] makes an empty file. *)
Lemma ialloc_ok s own gs t :
  fs_rep s own gs -> Z.of_nat (length gs) + 1 < ninode_slots -> 0 <= t < 2 ^ 15 ->
  exists s', ialloc t s = Ret (Z.of_nat (length gs) + 1) s' /\ fs_rep s' own (gs ++ [(t, [])]).
Proof.
  intros Hs Hslot Ht. set (inum := Z.of_nat (length gs) + 1) in *. pose proof (fs_alloc _ _ _ Hs) as Hal.
  set (s1 := mkMkst s.(image) (inum + 1) s.(freeblock)).
  assert (alloc_ok s1 own) as Hal1 by (destruct Hal as [[? ?] ? ? ?]; by split).
  assert (0 <= inum < ninode_slots) as Hi by lia. pose proof (al_im _ _ Hal1) as Him.
  assert (dinode_ok (empty_dinode t)) as Hd by (apply dinode_ok_file; [done|lia|done|by apply Forall_replicate]).
  pose proof (grows_refl inum s1 own) as Hg.
  exists (put_dinode inum (empty_dinode t) s1). split.
  - unfold ialloc. assert (next_inode s = Ret inum s1) as Hn.
    { unfold next_inode. rewrite (fs_inode _ _ _ Hs). change ninode_slots with 208 in *.
      unfold u32. rewrite Z.mod_small by lia. done. }
    rewrite (bind_Ret _ _ _ _ _ Hn). rewrite (xshort_id t), (xshort_id 1), (xint_id 0) by lia.
    fold (empty_dinode t). by rewrite (bind_Ret _ _ _ _ _ (winode_eq s1 inum (empty_dinode t) Him Hi)).
  - split.
    + by apply alloc_ok_put_dinode.
    + rewrite length_app. simpl. unfold inum. lia.
    + rewrite length_app. simpl. lia.
    + rewrite total_app. change (total [(t, [])]) with 0. simpl. rewrite (fs_free _ _ _ Hs). lia.
    + apply Forall_app. split; [apply Hs|]. by constructor.
    + intros k g Hk. apply lookup_app_Some in Hk as [Hk|[Hge Hk]].
      * pose proof (lookup_lt_Some _ _ _ Hk). apply (file_at_other s1 own s1 own); try done; [lia|lia|].
        exact (fs_file _ _ _ Hs k g Hk).
      * apply list_lookup_singleton_Some in Hk as [Hz <-]. replace (Z.of_nat k + 1) with inum by (unfold inum; lia).
        exists (replicate 13 0). cbn [fst snd]. split; [|apply frep_empty].
        rewrite dinode_at_put by done. by rewrite decide_True.
    + rewrite length_app. cbn [length]. intros i Hi'. rewrite dinode_at_put; [|done|done|done|lia].
      rewrite decide_False by lia. change (dinode_at s1 i) with (dinode_at s i). apply (fs_unused _ _ _ Hs). lia.
    + rewrite sect_put_dinode; [apply Hs|done|done|lia|lia].
    + intros b Hb. rewrite sect_put_dinode; [by apply (fs_log _ _ _ Hs)|done|done|lia|lia].
Qed.

(** * The image builder: [main] makes the image of a list of files *)

(** ** The empty file system *)

Lemma zero_image_eq n : forall i s,
  length s.(image) = Z.to_nat i -> 0 <= i -> i + Z.of_nat n <= 2 ^ 22 ->
  zero_image n i s = Ret tt (mkMkst (s.(image) ++ replicate n zeroes) s.(freeinode) s.(freeblock)).
Proof.
  induction n as [|n IH]; intros i s Hl H0 Hn; cbn [zero_image].
  - rewrite app_nil_r. by destruct s.
  - unfold wsect at 1. rewrite (bind_Ret (modify _) _ s tt
      (mkMkst (s.(image) ++ [zeroes]) s.(freeinode) s.(freeblock))).
    + rewrite IH; simpl; [|rewrite length_app; simpl; lia|lia|lia]. by rewrite <- app_assoc.
    + unfold modify, put_sector. rewrite sector_id by lia. rewrite decide_False by lia.
      replace (Z.to_nat i - length s.(image))%nat with 0%nat by lia. done.
Qed.

(** The image when the files are to be made. *)
Definition blank : mkst :=
  put 1 (splice zeroes 0 (sb_encode sb)) (mkMkst (replicate (Z.to_nat FSSIZE) zeroes) 1 nmeta).

Lemma image_ok_zero : image_ok (mkMkst (replicate (Z.to_nat FSSIZE) zeroes) 1 nmeta).
Proof. split; cbn [image]; [apply length_replicate|]. by apply Forall_replicate. Qed.

Lemma sect_blank b : 0 <= b < FSSIZE -> b <> 1 -> sect blank b = zeroes.
Proof.
  intros Hb Hne. unfold blank. rewrite sect_put; [|apply image_ok_zero|done|lia]. rewrite decide_False by done.
  unfold sect. cbn [image]. rewrite list_lookup_total_alt, lookup_replicate_2; [done|].
  change FSSIZE with 2000 in *. lia.
Qed.

Lemma image_ok_blank : image_ok blank.
Proof. apply image_ok_put; [apply image_ok_zero|done]. Qed.

Lemma blank_rep : fs_rep blank ∅ [].
Proof.
  split; try done.
  - split; [apply image_ok_blank|done|done|]. intros b Hb. change (freeblock blank) with 46 in Hb. apply sect_blank; lia.
  - intros i Hi. cbn [length] in Hi. destruct (IBLOCK_range i) as [_ Hb]; [lia|]. unfold dinode_at.
    rewrite sect_blank by (change FSSIZE with 2000; lia). pose proof (dinode_off_range i).
    cbn [dinode_decode di_type]. unfold get16, zeroes. rewrite drop_replicate, take_replicate.
    replace (2 `min` (Z.to_nat BSIZE - Z.to_nat (dinode_off i)))%nat with 2%nat
      by (change (Z.to_nat BSIZE) with 1024%nat; lia). done.
  - intros b Hb. apply sect_blank; change FSSIZE with 2000; lia.
Qed.

(** ** The files *)

(** A named file: its name and contents. *)
Notation named := (list Z * list Z)%type.

Definition entries (fl : list named) : list Z :=
  dot_entry 1 (str ".") ++ dot_entry 1 (str "..") ++
  concat (imap (fun i (f : named) => file_entry (Z.of_nat i + 2) (fst f)) fl).

(** The root directory and the files in it. *)
Definition tree (fl : list named) : list file :=
  (T_DIR, entries fl) :: map (fun f : named => (T_FILE, snd f)) fl.

Lemma length_tree fl : length (tree fl) = S (length fl).
Proof. simpl. by rewrite length_map. Qed.

Lemma length_file_entry i n : (length n <= 14)%nat -> length (file_entry i n) = 16%nat.
Proof.
  intros H. unfold file_entry, dirent_encode, strncpy_list. cbn [de_inum de_name].
  rewrite !length_app, length_le_encode, length_take, length_replicate. change (Z.to_nat DIRSIZ) with 14%nat. lia.
Qed.

Lemma entries_snoc fl f : entries (fl ++ [f]) = entries fl ++ file_entry (Z.of_nat (length fl) + 2) (fst f).
Proof.
  unfold entries. rewrite imap_app, concat_app. cbn [imap concat]. rewrite app_nil_r, !app_assoc.
  unfold compose. by rewrite Nat.add_0_r.
Qed.

Lemma length_entries fl :
  Forall (fun f : named => (length (fst f) <= 14)%nat) fl -> length (entries fl) = (16 * (2 + length fl))%nat.
Proof.
  induction fl as [|f fl IH] using rev_ind; [done|]. intros [H1 H2]%Forall_app. inversion_clear H2.
  rewrite entries_snoc, !length_app, IH, length_file_entry by done. cbn [length]. lia.
Qed.

Lemma file_cost_mono t d d' : (length d <= length d')%nat -> file_cost (t, d) <= file_cost (t, d').
Proof. intros H. unfold file_cost. apply cost_mono, nblk_mono. simpl. lia. Qed.

Lemma append_all_ok chunks : forall s own gs k t data,
  fs_rep s own gs -> gs !! k = Some (t, data) ->
  Z.of_nat (length data + length (concat chunks)) <= MAXFILE * BSIZE ->
  nmeta + total (<[k := (t, data ++ concat chunks)]> gs) <= FSSIZE ->
  exists s' own', append_all (Z.of_nat k + 1) chunks s = Ret tt s' /\
    fs_rep s' own' (<[k := (t, data ++ concat chunks)]> gs).
Proof.
  induction chunks as [|p chunks IH]; intros s own gs k t data Hs Hk Hmax Hroom; cbn [concat append_all] in *.
  - exists s, own. rewrite app_nil_r, list_insert_id by done. done.
  - rewrite length_app in Hmax. pose proof (lookup_lt_Some _ _ _ Hk) as Hlt.
    assert (total (<[k := (t, data ++ p)]> gs) <= total (<[k := (t, data ++ p ++ concat chunks)]> gs)) as Hle.
    { rewrite !(total_insert _ _ _ _ Hk). pose proof (file_cost_mono t (data ++ p) (data ++ p ++ concat chunks)).
      rewrite !length_app in H. lia. }
    destruct (iappend_ok s own gs k t data p) as (s1 & own1 & Hrun & Hs1); [done|done|lia|lia|].
    rewrite (bind_Ret _ _ _ _ _ Hrun).
    destruct (IH s1 own1 (<[k := (t, data ++ p)]> gs) k t (data ++ p)) as (s2 & own2 & Hrun2 & Hs2);
      [done|by apply list_lookup_insert_eq|rewrite length_app; lia|by rewrite list_insert_insert_eq, <- app_assoc|].
    exists s2, own2. by rewrite list_insert_insert_eq, <- app_assoc in Hs2.
Qed.

Section Main.
Context (opens : list Z -> bool) (host : list Z -> option (list (list Z))).

Definition name_of (arg : list Z) : list Z := skip_underscore (base_name arg).
Definition contents (arg : list Z) : list Z := match host arg with Some chunks => concat chunks | None => [] end.
Definition named_of (arg : list Z) : named := (name_of arg, contents arg).

(** The arguments that [main] accepts: the file is there, its name fits and it
    is not too large. *)
Record arg_ok (arg : list Z) : Prop := {
  ar_slash : existsb (Z.eqb 47) (base_name arg) = false;
  ar_open : is_Some (host arg);
  ar_name : (length (name_of arg) <= 14)%nat;
  ar_size : Z.of_nat (length (contents arg)) <= MAXFILE * BSIZE;
}.

Lemma tree_snoc fl f :
  tree (fl ++ [f]) = (T_DIR, entries (fl ++ [f])) :: map (fun f : named => (T_FILE, snd f)) fl ++ [(T_FILE, snd f)].
Proof using Type. unfold tree. by rewrite map_app. Qed.

Lemma add_file_ok s own fl arg :
  fs_rep s own (tree fl) -> Forall (fun f : named => (length (fst f) <= 14)%nat) fl -> arg_ok arg ->
  Z.of_nat (length fl) + 2 < ninode_slots ->
  nmeta + total (tree (fl ++ [named_of arg])) <= FSSIZE ->
  exists s' own', add_file host 1 arg s = Ret tt s' /\ fs_rep s' own' (tree (fl ++ [named_of arg])).
Proof using Type.
  intros Hs Hfl [Hslash [chunks Hhost] Hname Hsize] Hslot Hroom. rewrite tree_snoc in Hroom |- *.
  assert (contents arg = concat chunks) as Hc by (unfold contents; by rewrite Hhost). rewrite Hc in Hsize.
  unfold named_of in *. cbn [fst snd] in *. rewrite Hc in *. rewrite entries_snoc in *. cbn [fst] in *.
  set (e := file_entry _ _) in *. set (rest := map _ fl) in *.
  assert (length rest = length fl) as Hrl by apply length_map.
  unfold add_file. rewrite Hslash, Hhost. fold (name_of arg).
  rewrite (proj2 (Z.leb_le _ _)) by (change DIRSIZ with 14; lia). cbn [negb].
  destruct (ialloc_ok s own (tree fl) T_FILE) as (s1 & Hrun1 & Hs1); [done|rewrite length_tree; lia|done|].
  rewrite (bind_Ret _ _ _ _ _ Hrun1). rewrite length_tree.
  replace (Z.of_nat (S (length fl)) + 1) with (Z.of_nat (length fl) + 2) by lia. fold e.
  assert (length e = 16%nat) as He by by apply length_file_entry. pose proof (length_entries fl Hfl) as Hel.
  change (tree fl ++ [(T_FILE, [])]) with ((T_DIR, entries fl) :: rest ++ [(T_FILE, [])]) in Hs1.
  rewrite total_cons, total_app in Hroom. pose proof (file_cost_nonneg (T_FILE, concat chunks)).
  change ninode_slots with 208 in *. change MAXFILE with 268 in *. change BSIZE with 1024 in *.
  destruct (iappend_ok s1 own _ 0 T_DIR (entries fl) e Hs1 eq_refl) as (s2 & own2 & Hrun2 & Hs2).
  { change MAXFILE with 268. change BSIZE with 1024. lia. }
  { change (<[0%nat := ?g]> (?h :: ?l)) with (g :: l). rewrite total_cons, total_app.
    change (total [(T_FILE, [])]) with 0. rewrite total_cons in Hroom. change (total []) with 0 in Hroom. lia. }
  change (Z.of_nat 0 + 1) with 1 in Hrun2. rewrite (bind_Ret _ _ _ _ _ Hrun2).
  change (<[0%nat := ?g]> (?h :: ?l)) with (g :: l) in Hs2.
  set (gs := (T_DIR, entries fl ++ e) :: rest ++ [(T_FILE, [])]) in *.
  assert (gs !! S (length fl) = Some (T_FILE, [])) as Hk by (unfold gs; simpl; by rewrite <- Hrl, list_lookup_middle).
  assert (<[S (length fl) := (T_FILE, concat chunks)]> gs =
    (T_DIR, entries fl ++ e) :: rest ++ [(T_FILE, concat chunks)]) as Hins.
  { unfold gs. simpl. f_equal. rewrite <- Hrl, insert_app_r_alt, Nat.sub_diag by lia. done. }
  destruct (append_all_ok chunks s2 own2 gs (S (length fl)) T_FILE [] Hs2 Hk) as (s3 & own3 & Hrun3 & Hs3).
  { change MAXFILE with 268. change BSIZE with 1024. simpl. lia. }
  { cbn [app]. rewrite Hins, total_cons, total_app. lia. }
  exists s3, own3. cbn [app] in Hs3. rewrite Hins in Hs3. split; [|done].
  rewrite <- Hrun3. f_equal. lia.
Qed.

Lemma total_tree_prefix fl fl' : 
  Forall (fun f : named => (length (fst f) <= 14)%nat) (fl ++ fl') -> total (tree fl) <= total (tree (fl ++ fl')).
Proof using Type.
  intros H. pose proof (proj1 (proj1 (Forall_app _ _ _) H)) as Hfl. unfold tree. rewrite map_app, !total_cons, total_app.
  pose proof (total_nonneg (map (fun f : named => (T_FILE, snd f)) fl')).
  pose proof (file_cost_mono T_DIR (entries fl) (entries (fl ++ fl'))) as Hm.
  rewrite !length_entries in Hm by done. rewrite length_app in Hm. lia.
Qed.

Lemma add_files_ok args : forall s own fl,
  fs_rep s own (tree fl) -> Forall (fun f : named => (length (fst f) <= 14)%nat) fl -> Forall arg_ok args ->
  Z.of_nat (length fl + length args) + 1 < ninode_slots ->
  nmeta + total (tree (fl ++ map named_of args)) <= FSSIZE ->
  exists s' own', add_files host 1 args s = Ret tt s' /\ fs_rep s' own' (tree (fl ++ map named_of args)).
Proof using Type.
  induction args as [|arg args IH]; intros s own fl Hs Hfl Hargs Hslot Hroom; cbn [map add_files].
  - exists s, own. by rewrite app_nil_r.
  - inversion_clear Hargs as [|? ? Harg Hrest]. cbn [map length] in *.
    replace (fl ++ named_of arg :: map named_of args) with ((fl ++ [named_of arg]) ++ map named_of args) in *
      by (by rewrite <- app_assoc).
    assert (Forall (fun f : named => (length (fst f) <= 14)%nat) (fl ++ [named_of arg])) as Hfl1
      by (apply Forall_app; split; [done|]; constructor; [apply Harg|done]).
    assert (Forall (fun f : named => (length (fst f) <= 14)%nat) ((fl ++ [named_of arg]) ++ map named_of args)) as Hall.
    { apply Forall_app. split; [done|]. apply Forall_map. eapply Forall_impl; [done|]. intros a [_ _ Ha _]. exact Ha. }
    pose proof (total_tree_prefix _ _ Hall).
    destruct (add_file_ok s own fl arg) as (s1 & own1 & Hrun & Hs1); [done|done|done|lia|lia|].
    rewrite (bind_Ret _ _ _ _ _ Hrun). apply (IH s1 own1); [done|done|done| |done].
    rewrite length_app. cbn [length]. lia.
Qed.

(** ** The last steps *)

(** The root inode with its size rounded up, and the bitmap. *)
Definition root_size (n : Z) : Z := (n / BSIZE + 1) * BSIZE.
Definition root_fixed (s : mkst) : dinode := set_size (root_size (dinode_at s 1).(di_size)) (dinode_at s 1).
Definition finish (s : mkst) : mkst :=
  put 45 (set_bits (Z.to_nat s.(freeblock)) zeroes) (put_dinode 1 (root_fixed s) s).

Lemma root_at s own fl : fs_rep s own (tree fl) ->
  exists a, dinode_at s 1 = mkdinode T_DIR 0 0 1 (Z.of_nat (length (entries fl))) a /\
    let nb := nblk (Z.of_nat (length (entries fl))) in frep (sect s) own 1 a nb (NDIRECT <? nb) (entries fl).
Proof using Type. intros Hs. exact (fs_file _ _ _ Hs 0 _ eq_refl). Qed.

Lemma root_fixed_ok s own fl :
  fs_rep s own (tree fl) -> Z.of_nat (length (entries fl)) < 2 ^ 31 ->
  dinode_ok (root_fixed s) /\ 0 <= root_size (dinode_at s 1).(di_size) < 2 ^ 32.
Proof using Type.
  intros Hs Hlen. destruct (root_at s own fl Hs) as (a & Ha & Hf). unfold root_fixed. rewrite Ha. cbn [di_size].
  set (L := Z.of_nat (length (entries fl))) in *. assert (0 <= L) by lia.
  assert (0 <= root_size L < 2 ^ 32) as Hr.
  { unfold root_size. change BSIZE with 1024. pose proof (Z.div_mod L 1024 ltac:(lia)).
    pose proof (Z.mod_pos_bound L 1024 ltac:(lia)). pose proof (Z.div_pos L 1024). lia. }
  split; [|done]. apply dinode_ok_file; [done|done|apply Hf|]. eapply frep_addrs; [apply Hs|done].
Qed.

(** The root directory with its first two entries. *)
Lemma root_run s : 
  s = mkMkst [] 1 nmeta ->
  exists s' own, fs_rep s' own (tree []) /\ forall B (k : Z -> M mkst B),
    (zero_image (Z.to_nat FSSIZE) 0 ;;
     wsect 1 (splice zeroes 0 (sb_encode sb)) ;;
     let! rootino := ialloc T_DIR in
     if negb (rootino =? ROOTINO) then panic "rootino == ROOTINO" else
     iappend rootino (dot_entry rootino (str ".")) ;;
     iappend rootino (dot_entry rootino (str "..")) ;;
     k rootino) s = k 1 s'.
Proof using Type.
  intros ->. destruct (ialloc_ok blank ∅ [] T_DIR blank_rep) as (s1 & Hrun1 & Hs1); [done|done|].
  change (Z.of_nat (length []) + 1) with 1 in Hrun1. cbn [app] in Hs1.
  destruct (iappend_ok s1 ∅ _ 0 T_DIR [] (dot_entry 1 (str ".")) Hs1 eq_refl) as (s2 & own2 & Hrun2 & Hs2); [done|done|].
  cbn [app] in Hs2. change (<[0%nat := ?g]> [?h]) with [g] in Hs2.
  destruct (iappend_ok s2 own2 _ 0 T_DIR (dot_entry 1 (str ".")) (dot_entry 1 (str "..")) Hs2 eq_refl)
    as (s3 & own3 & Hrun3 & Hs3); [done|done|].
  change (<[0%nat := ?g]> [?h]) with [g] in Hs3.
  exists s3, own3. split.
  - unfold tree, entries. cbn [map imap concat]. by rewrite app_nil_r.
  - intros B k. rewrite (bind_Ret _ _ _ _ _ (zero_image_eq (Z.to_nat FSSIZE) 0 (mkMkst [] 1 nmeta) eq_refl ltac:(done) ltac:(done))).
    cbn [image freeinode freeblock app].
    rewrite (bind_Ret _ _ _ _ _ (wsect_eq _ 1 (splice zeroes 0 (sb_encode sb)) image_ok_zero ltac:(done))).
    fold blank. rewrite (bind_Ret _ _ _ _ _ Hrun1). change (negb (1 =? ROOTINO)) with false. cbv iota.
    change (Z.of_nat 0 + 1) with 1 in *.
    rewrite (bind_Ret _ _ _ _ _ Hrun2). by rewrite (bind_Ret _ _ _ _ _ Hrun3).
Qed.

Lemma mkfs_main_run prog img args :
  opens img = true -> Forall arg_ok args -> Z.of_nat (length args) + 1 < NINODES ->
  nmeta + total (tree (map named_of args)) <= FSSIZE ->
  exists s own, fs_rep s own (tree (map named_of args)) /\
    mkfs_main opens host (prog :: img :: args) mk_start = Ret tt (finish s).
Proof using Type.
  intros Hopen Hargs Hslot Hroom. change NINODES with 200 in Hslot.
  destruct (root_run _ eq_refl) as (s1 & own1 & Hs1 & Hrun1).
  destruct (add_files_ok args s1 own1 [] Hs1) as (s & own & Hrun & Hs);
    [done|done|change ninode_slots with 208; simpl; lia|done|].
  cbn [app] in Hs. set (fl := map named_of args) in *. exists s, own. split; [done|].
  assert (Forall (fun f : named => (length (fst f) <= 14)%nat) fl) as Hfl.
  { apply Forall_map. eapply Forall_impl; [done|]. intros a [_ _ Ha _]. exact Ha. }
  assert (length fl = length args) as Hlf by apply length_map.
  assert (Z.of_nat (length (entries fl)) < 2 ^ 31) as Hlen by (rewrite length_entries, Hlf by done; lia).
  destruct (root_fixed_ok s own fl Hs Hlen) as [Hd Hr]. pose proof (al_im _ _ (fs_alloc _ _ _ Hs)) as Him.
  destruct (root_at s own fl Hs) as (a & Ha & _). pose proof (al_free _ _ (fs_alloc _ _ _ Hs)) as Hfree.
  change nmeta with 46 in Hfree. change FSSIZE with 2000 in Hfree.
  unfold mkfs_main. rewrite Hopen. cbn [negb].
  rewrite (bind_Ret (modify _) _ mk_start tt (mkMkst [] 1 nmeta) eq_refl). rewrite Hrun1.
  rewrite (bind_Ret _ _ _ _ _ Hrun). rewrite (bind_Ret _ _ _ _ _ (rinode_eq s 1 Him ltac:(done))). cbv zeta.
  assert (xint (dinode_at s 1).(di_size) = (dinode_at s 1).(di_size)) as -> by (rewrite Ha; apply xint_id; cbn [di_size]; lia).
  fold (root_size (dinode_at s 1).(di_size)). unfold u32 at 1. rewrite Z.mod_small, xint_id by done.
  fold (root_fixed s). rewrite (bind_Ret _ _ _ _ _ (winode_eq s 1 (root_fixed s) Him ltac:(done))).
  unfold get, bind at 1. cbn [obind]. change (freeblock (put_dinode 1 (root_fixed s) s)) with s.(freeblock).
  unfold balloc. rewrite i32_id by lia. rewrite (proj2 (Z.ltb_lt _ BPB)) by (change BPB with 8192; lia). cbn [negb].
  apply wsect_eq; [|done]. by apply image_ok_put_dinode.
Qed.

End Main.
