(* ===== verification/MkfsProps.v ===== *)
(** * The image builder: the kernel reads what mkfs wrote

    The image is described by what the kernel's own functions make of it: the
    super block that [readsb] decodes, the inodes that [ilock] loads, the bytes
    that [readi] delivers, the entries that [dirlookup] finds and the bits that
    [balloc] tests. *)

From S2P Require Import Prelude Params Mem State Spinlock CString Kalloc Vm Proc ProcSpec Sleeplock.
From S2P Require Import Sleeplock Dll Bio BioSpec BioProps Uart Printf Log Block LogSpec LogProps LogTxn.
From S2P Require Import Fs FsSpec BallocSpec InodeSpec.
From S2P Require Import Mkfs MkfsDisk MkfsFile MkfsAppend MkfsSpec.

(** The inode that [ilock] loads. *)
Definition inode_of (V : Z -> list Z) (i : Z) : inode :=
  load_dinode (dinode_decode (V (IBLOCK i sb)) (dinode_off i)) inhabitant.

(** The entries of the root directory. *)
Definition dirs (fl : list named) : list (Z * list Z) :=
  (1, str ".") :: (1, str "..") :: imap (fun i (f : named) => (Z.of_nat i + 2, fst f)) fl.

(** The image of the files [fl]. *)
Record mkfs_image (V : Z -> list Z) (fl : list named) (fb : Z) : Prop := {
  mi_len : forall b, 0 <= b < FSSIZE -> length (V b) = Z.to_nat BSIZE;
  mi_sb : sb_decode (V 1) = sb;
  mi_log : head_n (V sb.(sb_logstart)) = 0;
  mi_root : let x := inode_of V ROOTINO in
    x.(i_type) = T_DIR /\ x.(i_nlink) = 1 /\ x.(i_size) = root_size (DESIZE * (Z.of_nat (length fl) + 2));
  mi_lookup : forall k i name, dirs fl !! k = Some (i, name) ->
    dir_lookup V (inode_of V ROOTINO) name = Some (Z.of_nat k, i);
  mi_absent : forall name, cname (Z.to_nat DIRSIZ) name ∉ map snd (dirs fl) ->
    dir_lookup V (inode_of V ROOTINO) name = None;
  mi_file : forall k f, fl !! k = Some f -> let x := inode_of V (Z.of_nat k + 2) in
    x.(i_type) = T_FILE /\ x.(i_nlink) = 1 /\ x.(i_size) = Z.of_nat (length (snd f)) /\
    file_bytes V x 0 x.(i_size) = snd f;
  mi_unused : forall i, Z.of_nat (length fl) + 1 < i < NINODES -> (inode_of V i).(i_type) = 0;
  mi_disjoint : forall k k' f f' bn bn', fl !! k = Some f -> fl !! k' = Some f' ->
    0 <= bn < nblk (Z.of_nat (length (snd f))) -> 0 <= bn' < nblk (Z.of_nat (length (snd f'))) ->
    let a := addr_of V (inode_of V (Z.of_nat k + 2)) bn in
    nmeta <= a < fb /\
    (a = addr_of V (inode_of V (Z.of_nat k' + 2)) bn' -> k = k' /\ bn = bn');
  mi_used : forall b, 0 <= b < FSSIZE -> used V sb b = (b <? fb);
  mi_bitmap : bitmap_ok sb V;
}.

(** ** The bitmap *)

Lemma set_bits_snoc n buf : set_bits (S n) buf = mark (Z.of_nat n) (set_bits n buf).
Proof. unfold set_bits. rewrite zrange_snoc, fold_left_app. done. Qed.

Lemma length_set_bits n buf : length (set_bits n buf) = length buf.
Proof.
  induction n as [|n IH]; [done|]. rewrite set_bits_snoc. unfold mark. by rewrite length_insert.
Qed.

Lemma bit_set_zeroes i : 0 <= i < 8192 -> bit_set zeroes i = false.
Proof.
  intros Hi. unfold bit_set, byte_of. rewrite lookup_zeroes; [apply Z.bits_0|].
  assert (i / 8 < 1024) by (apply Z.div_lt_upper_bound; lia). pose proof (Z.div_pos i 8). lia.
Qed.

Lemma bit_set_bits n i : Z.of_nat n <= 8192 -> 0 <= i < 8192 -> bit_set (set_bits n zeroes) i = (i <? Z.of_nat n).
Proof.
  intros Hn Hi. induction n as [|n IH].
  - change (set_bits 0 zeroes) with zeroes. rewrite bit_set_zeroes by done. symmetry. apply Z.ltb_ge. simpl. lia.
  - rewrite set_bits_snoc, bit_set_mark; [|rewrite length_set_bits; change (length zeroes) with 1024%nat; lia|lia].
    destruct (decide (i = Z.of_nat n)) as [->|Hne]; [symmetry; apply Z.ltb_lt; lia|].
    rewrite IH by lia. destruct (Z.ltb_spec i (Z.of_nat n)), (Z.ltb_spec i (Z.of_nat (S n))); try done; lia.
Qed.

(** The bytes of a file. *)
Lemma frep_file_bytes V own i d a nb ind data :
  frep V own i a nb ind data -> d.(di_addrs) = a ->
  file_bytes V (load_dinode d inhabitant) 0 (Z.of_nat (length data)) = data.
Proof.
  intros Hf Ha. apply list_eq. intros j. unfold file_bytes. rewrite Nat2Z.id.
  destruct (decide (j < length data)%nat) as [Hj|Hj].
  - rewrite list_lookup_fmap, lookup_zrange by done. cbn [fmap option_fmap option_map]. unfold file_byte.
    rewrite Z.add_0_l. pose proof (fr_fit _ _ _ _ _ _ _ Hf).
    pose proof (fr_bytes _ _ _ _ _ _ _ Hf (Z.of_nat j) ltac:(lia)) as Hb. rewrite Nat2Z.id in Hb.
    destruct (lookup_lt_is_Some_2 data j Hj) as [c Hc]. rewrite Hc. f_equal.
    rewrite (nth_lookup_Some _ _ _ _ Hc) in Hb. rewrite <- Hb, <- Ha. done.
  - rewrite !lookup_ge_None_2; [done|lia|]. rewrite length_map, length_zrange. lia.
Qed.

(** ** The root directory *)

(** [n] bytes of [data] from [off] on, zeroes after its end. *)
Definition padded (data : list Z) (off : Z) (n : nat) : list Z :=
  map (fun i => nth (Z.to_nat i) data 0) (zrange off n).

Lemma padded_zero data off n : Z.of_nat (length data) <= off -> padded data off n = replicate n 0.
Proof.
  revert off. induction n as [|n IH]; intros off H; [done|]. unfold padded. cbn [zrange map replicate].
  f_equal; [apply nth_overflow; lia|]. apply IH. lia.
Qed.

Lemma padded_app a b off n : padded (a ++ b) (Z.of_nat (length a) + Z.of_nat off) n = padded b (Z.of_nat off) n.
Proof.
  revert off. induction n as [|n IH]; intros off; [done|]. unfold padded in *. cbn [zrange map]. f_equal.
  - rewrite app_nth2 by lia. f_equal. lia.
  - rewrite <- Z.add_assoc. change 1 with (Z.of_nat 1). rewrite <- Nat2Z.inj_add. apply IH.
Qed.

Lemma padded_prefix a b : padded (a ++ b) 0 (length a) = a.
Proof.
  apply list_eq. intros j. unfold padded. destruct (decide (j < length a)%nat) as [Hj|Hj].
  - rewrite list_lookup_fmap, lookup_zrange by done. cbn [fmap option_fmap option_map].
    destruct (lookup_lt_is_Some_2 a j Hj) as [c Hc]. rewrite Hc. f_equal.
    rewrite Z.add_0_l, Nat2Z.id. apply nth_lookup_Some. by apply lookup_app_l_Some.
  - rewrite !lookup_ge_None_2; [done|lia|]. rewrite length_map, length_zrange. lia.
Qed.

(** Entry [k] of a list of entries of 16 bytes. *)
Lemma padded_entries es k :
  Forall (fun e : list Z => length e = 16%nat) es ->
  padded (concat es) (16 * Z.of_nat k) 16 = default (replicate 16 0) (es !! k).
Proof.
  intros H. revert k. induction H as [|e es He Hes IH]; intros k.
  - apply padded_zero. simpl. lia.
  - cbn [concat]. destruct k as [|k].
    + change (16 * Z.of_nat 0) with 0. rewrite <- He. apply padded_prefix.
    + replace (16 * Z.of_nat (S k)) with (Z.of_nat (length e) + Z.of_nat (16 * k)) by (rewrite He; lia).
      rewrite padded_app. replace (Z.of_nat (16 * k)) with (16 * Z.of_nat k) by lia. apply IH.
Qed.

Lemma entries_dirs fl : entries fl = concat (map (fun e => file_entry (fst e) (snd e)) (dirs fl)).
Proof.
  unfold entries, dirs. cbn [map concat fst snd].
  change (file_entry 1 (str ".")) with (dot_entry 1 (str ".")).
  change (file_entry 1 (str "..")) with (dot_entry 1 (str "..")).
  change (map ?g (imap ?h fl)) with (g <$> imap h fl). by rewrite fmap_imap.
Qed.

Lemma dirent_decode_entry i n : 0 <= i < 2 ^ 16 -> (length n <= 14)%nat ->
  dirent_decode (file_entry i n) = mkdirent i (strncpy_list n (Z.to_nat DIRSIZ)).
Proof.
  intros Hi Hn. unfold dirent_decode, file_entry, dirent_encode, get16. cbn [de_inum de_name].
  rewrite (xshort_id i) by lia. change (Z.to_nat 0) with 0%nat. rewrite drop_0.
  rewrite take_app_length' by (by rewrite length_le_encode). rewrite le_decode_small by (simpl; lia).
  rewrite drop_app_length' by (by rewrite length_le_encode). f_equal. apply firstn_all2.
  unfold strncpy_list. rewrite length_app, length_take, length_replicate. change (Z.to_nat DIRSIZ) with 14%nat. lia.
Qed.

(** A name as a directory stores it. *)
Lemma cname_nul n k : cname n (replicate k 0) = [].
Proof. by destruct n, k. Qed.

Lemma cname_strncpy m n : Forall (fun c => c <> 0) n -> (length n <= m)%nat -> cname m (strncpy_list n m) = n.
Proof.
  intros H. revert m. induction H as [|c n Hc Hn IH]; intros m Hl.
  - unfold strncpy_list. rewrite take_nil. apply cname_nul.
  - destruct m as [|m]; [simpl in Hl; lia|]. unfold strncpy_list. cbn [take length Nat.sub app cname].
    rewrite (proj2 (Z.eqb_neq _ _) Hc). f_equal. apply IH. simpl in Hl. lia.
Qed.

Lemma cname_id m n : Forall (fun c => c <> 0) n -> (length n <= m)%nat -> cname m n = n.
Proof.
  intros H. revert m. induction H as [|c n Hc Hn IH]; intros m Hl; [by destruct m|].
  destruct m as [|m]; [simpl in Hl; lia|]. cbn [cname]. rewrite (proj2 (Z.eqb_neq _ _) Hc). f_equal.
  apply IH. simpl in Hl. lia.
Qed.

Lemma find_zrange_Some (f : Z -> bool) k : forall a m,
  a <= k < a + Z.of_nat m -> f k = true -> (forall j, a <= j < k -> f j = false) ->
  List.find f (zrange a m) = Some k.
Proof.
  intros a m. revert a. induction m as [|m IH]; intros a Hk Hf Hn; [lia|]. cbn [zrange List.find].
  destruct (decide (a = k)) as [->|Hne]; [by rewrite Hf|]. rewrite Hn by lia. apply IH; [lia|done|].
  intros j Hj. apply Hn. lia.
Qed.

Lemma find_zrange_None (f : Z -> bool) : forall m a,
  (forall j, a <= j < a + Z.of_nat m -> f j = false) -> List.find f (zrange a m) = None.
Proof.
  induction m as [|m IH]; intros a Hn; [done|]. cbn [zrange List.find]. rewrite Hn by lia. apply IH.
  intros j Hj. apply Hn. lia.
Qed.

(** Looking up in a directory that holds the entries [ds]. *)
Section Lookup.
Context (V : Z -> list Z) (x : inode) (ds : list (Z * list Z)).
Context (Hsize : Z.of_nat (length ds) <= x.(i_size) / DESIZE).
Context (Hds : Forall (fun e : Z * list Z => fst e <> 0 /\ (length (snd e) <= 14)%nat /\ Forall (fun c => c <> 0) (snd e)) ds).
Context (Hent : forall k, 0 <= k < x.(i_size) / DESIZE -> dir_entry V x k =
  match ds !! Z.to_nat k with
  | Some (i, n) => mkdirent i (strncpy_list n (Z.to_nat DIRSIZ))
  | None => mkdirent 0 (replicate 14 0)
  end).

(** Which entries have the name. *)
Lemma entry_hit name k : 0 <= k < x.(i_size) / DESIZE ->
  bool_decide ((dir_entry V x k).(de_inum) <> 0 /\
    cname (Z.to_nat DIRSIZ) name = cname (Z.to_nat DIRSIZ) (dir_entry V x k).(de_name)) =
  bool_decide (snd <$> ds !! Z.to_nat k = Some (cname (Z.to_nat DIRSIZ) name)).
Proof using Hds Hent.
  intros Hk. rewrite (Hent k Hk). apply bool_decide_ext. destruct (ds !! Z.to_nat k) as [[i n]|] eqn:E.
  - destruct (Forall_lookup_1 _ _ _ _ Hds E) as (Hi & Hl & Hn). cbn [fst snd de_inum de_name fmap option_fmap option_map] in *.
    rewrite cname_strncpy by (try done; change (Z.to_nat DIRSIZ) with 14%nat; lia). split; [by intros [_ ->]|].
    by intros [= ->].
  - cbn [de_inum]. split; [by intros [? _]|done].
Qed.

Lemma lookup_entry k i name : NoDup (map snd ds) -> ds !! k = Some (i, name) -> dir_lookup V x name = Some (Z.of_nat k, i).
Proof using Hsize Hds Hent.
  intros Hnd Hk. pose proof (lookup_lt_Some _ _ _ Hk) as Hlt. destruct (Forall_lookup_1 _ _ _ _ Hds Hk) as (_ & Hl & Hn).
  cbn [snd] in *. assert (cname (Z.to_nat DIRSIZ) name = name) as Hc by (apply cname_id; [done|exact Hl]).
  unfold dir_lookup. cbv zeta. erewrite (find_zrange_Some _ (Z.of_nat k)).
  - rewrite Hent, Nat2Z.id, Hk by lia. done.
  - lia.
  - rewrite entry_hit by lia. rewrite Nat2Z.id, Hk, Hc. by apply bool_decide_eq_true_2.
  - intros j Hj. rewrite entry_hit by lia. rewrite Hc. apply bool_decide_eq_false_2. intros E.
    assert (Z.to_nat j = k); [|lia]. eapply (NoDup_lookup (map snd ds)); [done| |].
    + rewrite list_lookup_fmap. exact E.
    + rewrite list_lookup_fmap, Hk. done.
Qed.

Lemma lookup_absent name : cname (Z.to_nat DIRSIZ) name ∉ map snd ds -> dir_lookup V x name = None.
Proof using Hsize Hds Hent.
  intros Hn. unfold dir_lookup. cbv zeta. rewrite find_zrange_None; [done|]. intros j Hj.
  rewrite entry_hit by lia. apply bool_decide_eq_false_2. intros E. apply Hn.
  apply list_elem_of_lookup. exists (Z.to_nat j). rewrite list_lookup_fmap. exact E.
Qed.

End Lookup.

(** ** The finished image *)

Section Finish.
Context (s : mkst) (own : owners) (fl : list named).
Context (Hs : fs_rep s own (tree fl)) (Hlen : Z.of_nat (length (entries fl)) < 2 ^ 31).
Let V : Z -> list Z := sect (finish s).

Lemma finish_im : image_ok s /\ image_ok (put_dinode 1 (root_fixed s) s).
Proof using Hs Hlen.
  pose proof (al_im _ _ (fs_alloc _ _ _ Hs)) as Him. split; [done|].
  destruct (root_fixed_ok s own fl Hs Hlen) as [Hd _]. by apply image_ok_put_dinode.
Qed.

Lemma finish_sect b : 0 <= b -> ~ 32 <= b < 46 -> V b = sect s b.
Proof using Hs Hlen.
  intros H0 Hb. destruct finish_im as [Him Him']. unfold V, finish.
  rewrite sect_put; [|done|done|done]. rewrite decide_False by lia. apply sect_put_dinode; [done|done|done|lia].
Qed.

Lemma finish_bitmap : V 45 = set_bits (Z.to_nat s.(freeblock)) zeroes.
Proof using Hs Hlen.
  destruct finish_im as [Him Him']. unfold V, finish. rewrite sect_put; [|done|done|done]. by rewrite decide_True.
Qed.

Lemma finish_len b : 0 <= b < FSSIZE -> length (V b) = Z.to_nat BSIZE.
Proof using Hs Hlen.
  intros Hb. destruct finish_im as [Him Him']. apply length_sect; [|done]. apply image_ok_put; [done|].
  by rewrite length_set_bits.
Qed.

Lemma finish_dinode i : 0 <= i < ninode_slots ->
  dinode_decode (V (IBLOCK i sb)) (dinode_off i) = if decide (i = 1) then root_fixed s else dinode_at s i.
Proof using Hs Hlen.
  intros Hi. destruct finish_im as [Him Him']. destruct (IBLOCK_range i Hi) as [_ Hb]. unfold V, finish.
  rewrite sect_put; [|done|done|lia]. rewrite decide_False by lia.
  destruct (root_fixed_ok s own fl Hs Hlen) as [Hd _].
  exact (dinode_at_put s 1 (root_fixed s) Him ltac:(done) Hd i Hi).
Qed.

(** The files are kept. *)
Lemma finish_frep i a nb ind data :
  frep (sect s) own i a nb ind data -> frep V own i a nb ind data.
Proof using Hs Hlen.
  intros Hf. eapply frep_frame; [done|done|]. intros b r Ho.
  pose proof (owned_range _ _ _ _ (fs_alloc _ _ _ Hs) Ho). apply finish_sect; lia.
Qed.

Lemma finish_file k f : fl !! k = Some f ->
  exists a, inode_of V (Z.of_nat k + 2) =
      load_dinode (mkdinode T_FILE 0 0 1 (Z.of_nat (length (snd f))) a) inhabitant /\
    let nb := nblk (Z.of_nat (length (snd f))) in frep V own (Z.of_nat k + 2) a nb (NDIRECT <? nb) (snd f).
Proof using Hs Hlen.
  intros Hk. destruct (fs_file _ _ _ Hs (S k) (T_FILE, snd f)) as (a & Ha & Hf).
  { change (map (fun f : named => (T_FILE, snd f)) fl !! k = Some (T_FILE, snd f)). by rewrite list_lookup_fmap, Hk. }
  pose proof (fs_slots _ _ _ Hs) as Hsl. rewrite length_tree in Hsl. pose proof (lookup_lt_Some _ _ _ Hk).
  replace (Z.of_nat (S k) + 1) with (Z.of_nat k + 2) in * by lia. cbn [fst snd] in *.
  exists a. split; [|by apply finish_frep]. unfold inode_of. rewrite finish_dinode by lia.
  rewrite decide_False by lia. by rewrite Ha.
Qed.

Lemma finish_root :
  exists a, inode_of V ROOTINO =
      load_dinode (mkdinode T_DIR 0 0 1 (root_size (Z.of_nat (length (entries fl)))) a) inhabitant /\
    let nb := nblk (Z.of_nat (length (entries fl))) in frep V own 1 a nb (NDIRECT <? nb) (entries fl).
Proof using Hs Hlen.
  destruct (root_at s own fl Hs) as (a & Ha & Hf). exists a. split; [|by apply finish_frep].
  unfold inode_of. rewrite finish_dinode by done. rewrite decide_True by done. unfold root_fixed. by rewrite Ha.
Qed.

Lemma finish_used b : 0 <= b < FSSIZE -> used V sb b = (b <? s.(freeblock)).
Proof using Hs Hlen.
  intros Hb. pose proof (al_free _ _ (fs_alloc _ _ _ Hs)) as Hf. change FSSIZE with 2000 in *. change nmeta with 46 in *.
  unfold used, BBLOCK. change (sb_bmapstart sb) with 45. change BPB with 8192.
  rewrite Z.div_small, Z.mod_small by lia. change (u32 (0 + 45)) with 45. rewrite finish_bitmap.
  rewrite bit_set_bits by lia. by rewrite Z2Nat.id by lia.
Qed.

Lemma finish_bitmap_ok : bitmap_ok sb V.
Proof using Hs Hlen.
  assert (forall b, 0 <= b < FSSIZE -> BBLOCK b sb = 45) as HB.
  { intros b Hb. change FSSIZE with 2000 in Hb. unfold BBLOCK. change (sb_bmapstart sb) with 45. change BPB with 8192.
    by rewrite Z.div_small by lia. }
  split; [done| |]; change (sb_size sb) with FSSIZE; intros b Hb; rewrite HB by done.
  - by apply finish_len.
  - rewrite finish_used by done. apply Z.ltb_lt. pose proof (al_free _ _ (fs_alloc _ _ _ Hs)) as Hf.
    change nmeta with 46 in Hf. lia.
Qed.

(** The bytes of the root directory: a block that the rounding added is a hole, which
    reads as the boot block. *)
Lemma finish_root_byte i : Z.of_nat (length (entries fl)) < 11 * BSIZE ->
  0 <= i < root_size (Z.of_nat (length (entries fl))) ->
  file_byte V (inode_of V ROOTINO) i = nth (Z.to_nat i) (entries fl) 0.
Proof using Hs Hlen.
  intros HL Hi. destruct finish_root as (a & -> & Hf). unfold file_byte. change BSIZE with 1024 in *.
  unfold root_size in Hi. change BSIZE with 1024 in Hi. set (L := Z.of_nat (length (entries fl))) in *.
  destruct (nblk_bounds L ltac:(lia)) as [H0 Hb]. change BSIZE with 1024 in Hb.
  pose proof (Z.div_mod L 1024 ltac:(lia)). pose proof (Z.mod_pos_bound L 1024 ltac:(lia)).
  pose proof (Z.div_mod i 1024 ltac:(lia)). pose proof (Z.mod_pos_bound i 1024 ltac:(lia)).
  destruct (decide (i < nblk L * 1024)) as [Hlt|Hge].
  - exact (fr_bytes _ _ _ _ _ _ _ Hf i ltac:(change BSIZE with 1024; lia)).
  - assert (i / 1024 = nblk L) as -> by lia. unfold addr_of. cbn [load_dinode i_addrs].
    change NDIRECT with 12. rewrite (proj2 (Z.ltb_lt (nblk L) 12)) by lia.
    pose proof (fr_free _ _ _ _ _ _ _ Hf (nblk L)) as Hz. change NDIRECT with 12 in Hz.
    rewrite nth_overflow by lia.
    transitivity (V 0 !!! Z.to_nat (i mod 1024)); [f_equal; f_equal; apply Hz; lia|].
    rewrite finish_sect by lia. rewrite (fs_log _ _ _ Hs) by lia. apply lookup_zeroes. lia.
Qed.

(** When the entries fill their blocks, the rounding adds a block that is not there. *)
Lemma finish_root_hole : Z.of_nat (length (entries fl)) < 11 * BSIZE ->
  Z.of_nat (length (entries fl)) mod BSIZE = 0 ->
  let x := inode_of V ROOTINO in
  x.(i_size) = Z.of_nat (length (entries fl)) + BSIZE /\ addr_of V x (x.(i_size) / BSIZE - 1) = 0.
Proof using Hs Hlen.
  intros HL Hm. destruct finish_root as (a & Hr & Hf). cbv zeta. rewrite Hr.
  change (i_size _) with (root_size (Z.of_nat (length (entries fl)))). unfold root_size.
  set (L := Z.of_nat (length (entries fl))) in *. change BSIZE with 1024 in *.
  pose proof (Z.div_mod L 1024 ltac:(lia)). split; [lia|]. rewrite Z.div_mul, Z.add_simpl_r by lia.
  destruct (nblk_bounds L ltac:(lia)) as [H0 Hb]. change BSIZE with 1024 in Hb.
  assert (L / 1024 = nblk L) as -> by lia. unfold addr_of. change NDIRECT with 12.
  rewrite (proj2 (Z.ltb_lt (nblk L) 12)) by lia.
  apply (fr_free _ _ _ _ _ _ _ Hf (nblk L)); change NDIRECT with 12; lia.
Qed.

Lemma finish_entry k : Z.of_nat (length (entries fl)) < 11 * BSIZE ->
  0 <= k < (inode_of V ROOTINO).(i_size) / DESIZE ->
  dir_entry V (inode_of V ROOTINO) k = dirent_decode (padded (entries fl) (16 * k) 16).
Proof using Hs Hlen.
  intros HL Hk. unfold dir_entry. f_equal. change (Z.to_nat DESIZE) with 16%nat. unfold file_bytes, padded.
  change DESIZE with 16 in *. change (Z.to_nat 16) with 16%nat. apply map_ext_in. intros i Hi.
  apply list_elem_of_In, elem_of_zrange in Hi. apply finish_root_byte; [done|].
  destruct finish_root as (a & Hr & _). rewrite Hr in Hk. cbn [load_dinode i_size] in Hk.
  change (i_size _) with (root_size (Z.of_nat (length (entries fl)))) in Hk.
  pose proof (Z.div_mod (root_size (Z.of_nat (length (entries fl)))) 16 ltac:(lia)).
  pose proof (Z.mod_pos_bound (root_size (Z.of_nat (length (entries fl)))) 16 ltac:(lia)). lia.
Qed.

End Finish.

(** ** The image *)

Section Image.
Context (s : mkst) (own : owners) (fl : list named).
Context (Hs : fs_rep s own (tree fl)) (Hn : Z.of_nat (length fl) + 1 < NINODES).
Context (Hnames : Forall (fun f : named => (length (fst f) <= 14)%nat /\ Forall (fun c => c <> 0) (fst f)) fl).
Let V : Z -> list Z := sect (finish s).

Lemma length_entries_fl : Z.of_nat (length (entries fl)) = 16 * (Z.of_nat (length fl) + 2).
Proof using Hnames.
  rewrite length_entries; [lia|]. eapply Forall_impl; [exact Hnames|]. by intros f [H _].
Qed.

Lemma entries_short : Z.of_nat (length (entries fl)) < 2 ^ 31 /\ Z.of_nat (length (entries fl)) < 11 * BSIZE.
Proof using Hn Hnames. rewrite length_entries_fl. change NINODES with 200 in Hn. change BSIZE with 1024. lia. Qed.

Lemma dirs_ok : Forall (fun e : Z * list Z => (0 < fst e < 2 ^ 16) /\ (length (snd e) <= 14)%nat /\
  Forall (fun c => c <> 0) (snd e)) (dirs fl).
Proof using Hn Hnames.
  unfold dirs. constructor; [split; [simpl; lia|split; [simpl; lia|by repeat constructor]]|].
  constructor; [split; [simpl; lia|split; [simpl; lia|by repeat constructor]]|].
  apply Forall_lookup. intros k e He. apply list_lookup_imap_Some in He as (f & Hf & ->). cbn [fst snd].
  pose proof (lookup_lt_Some _ _ _ Hf). destruct (Forall_lookup_1 _ _ _ _ Hnames Hf) as [H1 H2].
  change NINODES with 200 in Hn. split; [lia|done].
Qed.

(** Reading the root directory. *)
Lemma root_entry k : 0 <= k < (inode_of V ROOTINO).(i_size) / DESIZE ->
  dir_entry V (inode_of V ROOTINO) k =
  match dirs fl !! Z.to_nat k with
  | Some (i, n) => mkdirent i (strncpy_list n (Z.to_nat DIRSIZ))
  | None => mkdirent 0 (replicate 14 0)
  end.
Proof using Hs Hn Hnames.
  intros Hk. destruct entries_short as [H1 H2]. unfold V in *.
  rewrite (finish_entry s own fl Hs H1 k H2 Hk), entries_dirs.
  replace (16 * k) with (16 * Z.of_nat (Z.to_nat k)) by lia. rewrite padded_entries.
  - rewrite list_lookup_fmap. destruct (dirs fl !! Z.to_nat k) as [[i n]|] eqn:E; [|done].
    destruct (Forall_lookup_1 _ _ _ _ dirs_ok E) as (Hi & Hl & _). cbn [fst snd fmap option_fmap option_map] in *.
    apply dirent_decode_entry; [lia|done].
  - apply Forall_map. eapply Forall_impl; [apply dirs_ok|]. intros e (_ & Hl & _). by apply length_file_entry.
Qed.

Lemma root_room : Z.of_nat (length (dirs fl)) <= (inode_of V ROOTINO).(i_size) / DESIZE.
Proof using Hs Hn Hnames.
  destruct entries_short as [H1 H2]. destruct (finish_root s own fl Hs H1) as (a & Hr & _). fold V in Hr. rewrite Hr.
  change (i_size _) with (root_size (Z.of_nat (length (entries fl)))). rewrite length_entries_fl. unfold root_size.
  unfold dirs. cbn [length]. rewrite length_imap. change BSIZE with 1024. change DESIZE with 16.
  set (n := Z.of_nat (length fl)). replace (Z.of_nat (S (S (length fl)))) with (n + 2) by lia.
  pose proof (Z.div_mod (16 * (n + 2)) 1024 ltac:(lia)). pose proof (Z.mod_pos_bound (16 * (n + 2)) 1024 ltac:(lia)).
  apply Z.div_le_lower_bound; lia.
Qed.

Lemma finish_image : NoDup (map snd (dirs fl)) -> mkfs_image V fl s.(freeblock).
Proof using Hs Hn Hnames.
  intros Hnd. destruct entries_short as [H1 H2].
  assert (Forall (fun e : Z * list Z => fst e <> 0 /\ (length (snd e) <= 14)%nat /\ Forall (fun c => c <> 0) (snd e)) (dirs fl))
    as Hds by (eapply Forall_impl; [apply dirs_ok|]; intros e (? & ? & ?); split_and!; [lia|done|done]).
  split.
  - intros b Hb. by apply (finish_len s own fl).
  - unfold V. rewrite (finish_sect s own fl Hs H1) by lia. rewrite (fs_sb _ _ _ Hs). vm_compute. reflexivity.
  - unfold V. change (sb_logstart sb) with 2. rewrite (finish_sect s own fl Hs H1) by lia.
    rewrite (fs_log _ _ _ Hs) by lia. done.
  - destruct (finish_root s own fl Hs H1) as (a & Hr & _). fold V in Hr. rewrite Hr. split_and!; [done|done|].
    change (i_size _) with (root_size (Z.of_nat (length (entries fl)))). by rewrite length_entries_fl.
  - intros k i name Hk. by apply (lookup_entry V _ (dirs fl) root_room Hds root_entry).
  - intros name Ha. by apply (lookup_absent V _ (dirs fl) root_room Hds root_entry).
  - intros k f Hk. destruct (finish_file s own fl Hs H1 k f Hk) as (a & Hx & Hf). fold V in Hx, Hf. cbv zeta.
    rewrite Hx. refine (conj eq_refl (conj eq_refl (conj eq_refl _))). by eapply frep_file_bytes.
  - intros i Hi. unfold inode_of, V. change NINODES with 200 in *.
    rewrite (finish_dinode s own fl Hs H1 i) by (change ninode_slots with 208; lia).
    rewrite decide_False by lia. cbn [load_dinode]. apply (fs_unused _ _ _ Hs i). rewrite length_tree.
    change ninode_slots with 208. lia.
  - intros k k' f f' bn bn' Hk Hk' Hb Hb'. destruct (finish_file s own fl Hs H1 k f Hk) as (a & Hx & Hf).
    destruct (finish_file s own fl Hs H1 k' f' Hk') as (a' & Hx' & Hf'). fold V in Hx, Hf, Hx', Hf'.
    rewrite Hx, Hx'. pose proof (fr_own _ _ _ _ _ _ _ Hf bn Hb) as Ho. pose proof (fr_own _ _ _ _ _ _ _ Hf' bn' Hb') as Ho'.
    split; [exact (al_own _ _ (fs_alloc _ _ _ Hs) _ _ Ho)|]. intros E.
    assert (blk V a bn = blk V a' bn') as E' by exact E. rewrite E', Ho' in Ho. injection Ho. lia.
  - intros b Hb. by apply (finish_used s own fl).
  - by apply (finish_bitmap_ok s own fl).
Qed.

End Image.

Lemma Forall_name_of arg : Forall (fun c => c <> 0) arg -> Forall (fun c => c <> 0) (name_of arg).
Proof.
  intros H. unfold name_of, skip_underscore, base_name.
  assert (Forall (fun c => c <> 0) (if strncmp_list 5 arg (str "user/") =? 0 then drop 5 arg else arg)) as H1
    by (destruct (_ =? 0); [by apply Forall_drop|done]).
  destruct (hd 0 _ =? 95); [by apply Forall_drop|done].
Qed.

(** [C7] mkfs and the kernel agree on the format of the disk. When the image file can be made,
    the files are there, their names without directory and leading underscore are distinct and
    fit, and there are enough inodes and blocks, [main] succeeds whatever the sizes in which the
    host delivers the files, and on the image: the super block decodes to the layout, the log
    is empty, the kernel's lookup finds in the root directory exactly [.], [..] and the files,
    each file has the type, link count, size and bytes of the original, the other inodes are
    free, no block belongs to two files, and the bitmap marks exactly the blocks below the first
    free one, as [balloc] requires. *)
Theorem mkfs_correct opens host prog img args :
  let fl := map (named_of host) args in
  opens img = true -> Forall (arg_ok host) args -> Forall (Forall (fun c => c <> 0)) args ->
  NoDup (map snd (dirs fl)) -> Z.of_nat (length args) + 1 < NINODES ->
  nmeta + total (tree fl) <= FSSIZE ->
  exists s, mkfs_main opens host (prog :: img :: args) mk_start = Ret tt s /\
    s.(freeblock) = nmeta + total (tree fl) /\ mkfs_image (sect s) fl s.(freeblock).
Proof.
  intros fl Hopen Hargs Hnul Hnd Hn Hroom.
  destruct (mkfs_main_run opens host prog img args Hopen Hargs Hn Hroom) as (s & own & Hs & Hrun).
  exists (finish s). split; [done|]. split; [exact (fs_free _ _ _ Hs)|].
  apply (finish_image s own fl Hs); [by unfold fl; rewrite length_map| |done].
  apply Forall_map, Forall_lookup. intros k arg Hk. split.
  - exact (ar_name _ _ (Forall_lookup_1 _ _ _ _ Hargs Hk)).
  - apply Forall_name_of. exact (Forall_lookup_1 _ _ _ _ Hnul Hk).
Qed.

(** Two files, one of them delivered in two pieces. *)
Definition demo_host (arg : list Z) : option (list (list Z)) :=
  if decide (arg = str "README") then Some [str "xv6 is "; str "a re-implementation"]
  else if decide (arg = str "user/_cat") then Some [[127; 69; 76; 70]] else None.

Lemma mkfs_correct_witness :
  let fl := map (named_of demo_host) [str "README"; str "user/_cat"] in
  exists s, mkfs_main (fun _ => true) demo_host [str "mkfs"; str "fs.img"; str "README"; str "user/_cat"] mk_start = Ret tt s /\
    s.(freeblock) = nmeta + total (tree fl) /\ mkfs_image (sect s) fl s.(freeblock).
Proof.
  apply (mkfs_correct (fun _ => true) demo_host (str "mkfs") (str "fs.img") [str "README"; str "user/_cat"]).
  - reflexivity.
  - repeat constructor; try (vm_compute; lia); try (vm_compute; eauto; discriminate).
  - repeat constructor; discriminate.
  - apply (bool_decide_eq_true_1 (NoDup _)). vm_compute. reflexivity.
  - vm_compute. reflexivity.
  - vm_compute. discriminate.
Defined.
