(* ===== verification/Asm.v ===== *)
(** * The assembly files: instructions and their listings

    The instructions that entry.S, kernelvec.S, swtch.S and trampoline.S use,
    on the integer registers, the control registers they name, and memory.
    [exec] runs straight-line code up to the instruction that leaves it. How a
    virtual address is translated, where the linker puts a symbol, and what a
    called C function does to the machine are parameters. *)

From S2P Require Import Prelude Params Mem.

Inductive reg : Type :=
| zero | ra | sp | gp | tp | t0 | t1 | t2 | s0 | s1
| a0 | a1 | a2 | a3 | a4 | a5 | a6 | a7
| s2 | s3 | s4 | s5 | s6 | s7 | s8 | s9 | s10 | s11
| t3 | t4 | t5 | t6.

#[global] Instance reg_eq_dec : EqDecision reg.
Proof. solve_decision. Defined.

Inductive csr : Type := Csscratch | Csatp | Cmhartid.

#[global] Instance csr_eq_dec : EqDecision csr.
Proof. solve_decision. Defined.

Record mach : Type := mkMach {
  m_regs : reg -> Z;
  m_csrs : csr -> Z;
  m_mem : memory;
}.

Definition set_reg (r : reg) (v : Z) (s : mach) : mach :=
  mkMach (fun r' => if decide (r' = r) then (if decide (r = zero) then 0 else u64 v) else s.(m_regs) r')
    s.(m_csrs) s.(m_mem).
Definition set_csr (c : csr) (v : Z) (s : mach) : mach :=
  mkMach s.(m_regs) (fun c' => if decide (c' = c) then v else s.(m_csrs) c') s.(m_mem).
Definition set_mem (m : memory) (s : mach) : mach := mkMach s.(m_regs) s.(m_csrs) m.

Inductive instr : Type :=
| Csrw (c : csr) (r : reg)
| Csrr (r : reg) (c : csr)
| Li (r : reg) (v : Z)
| La (r : reg) (symbol : string)
| Sd (r : reg) (off : Z) (base : reg)
| Ld (r : reg) (off : Z) (base : reg)
| Addi (rd rs : reg) (v : Z)
| Add (rd r1 r2 : reg)
| Mul (rd r1 r2 : reg)
| Sfence_vma
| Call (symbol : string)
| Jr (r : reg)
| Sret.

(** How control leaves the code. *)
Inductive leave : Type :=
| Jump (a : Z)   (* to an address, in the same mode *)
| Return_user    (* [sret] *)
| Page_fault
| End_of_code.

Class Env : Type := {
  symbol : string -> Z;
  translate : bool -> mach -> Z -> option Z;  (* is it a store, the machine, the address *)
  callee : string -> mach -> mach;
}.

Section Exec.
Context {E : Env}.

Fixpoint exec (code : list instr) (s : mach) : leave * mach :=
  match code with
  | [] => (End_of_code, s)
  | i :: code' =>
      match i with
      | Csrw c r => exec code' (set_csr c (s.(m_regs) r) s)
      | Csrr r c => exec code' (set_reg r (s.(m_csrs) c) s)
      | Li r v => exec code' (set_reg r v s)
      | La r x => exec code' (set_reg r (symbol x) s)
      | Sd r off base =>
          match translate true s (u64 (s.(m_regs) base + off)) with
          | Some a => exec code' (set_mem (store64 s.(m_mem) a (s.(m_regs) r)) s)
          | None => (Page_fault, s)
          end
      | Ld r off base =>
          match translate false s (u64 (s.(m_regs) base + off)) with
          | Some a => exec code' (set_reg r (load64 s.(m_mem) a) s)
          | None => (Page_fault, s)
          end
      | Addi rd rs v => exec code' (set_reg rd (s.(m_regs) rs + v) s)
      | Add rd r1 r2 => exec code' (set_reg rd (s.(m_regs) r1 + s.(m_regs) r2) s)
      | Mul rd r1 r2 => exec code' (set_reg rd (s.(m_regs) r1 * s.(m_regs) r2) s)
      | Sfence_vma => exec code' s
      | Call f => exec code' (callee f s)
      | Jr r => (Jump (s.(m_regs) r), s)
      | Sret => (Return_user, s)
      end
  end.

End Exec.

(** ** trampoline.S *)

Definition uservec_code : list instr := [
  Csrw Csscratch a0;
  Li a0 TRAPFRAME;
  (* save the user registers in TRAPFRAME *)
  Sd ra 40 a0; Sd sp 48 a0; Sd gp 56 a0; Sd tp 64 a0; Sd t0 72 a0; Sd t1 80 a0; Sd t2 88 a0;
  Sd s0 96 a0; Sd s1 104 a0; Sd a1 120 a0; Sd a2 128 a0; Sd a3 136 a0; Sd a4 144 a0;
  Sd a5 152 a0; Sd a6 160 a0; Sd a7 168 a0; Sd s2 176 a0; Sd s3 184 a0; Sd s4 192 a0;
  Sd s5 200 a0; Sd s6 208 a0; Sd s7 216 a0; Sd s8 224 a0; Sd s9 232 a0; Sd s10 240 a0;
  Sd s11 248 a0; Sd t3 256 a0; Sd t4 264 a0; Sd t5 272 a0; Sd t6 280 a0;
  (* save the user a0 in p->trapframe->a0 *)
  Csrr t0 Csscratch;
  Sd t0 112 a0;
  Ld sp 8 a0;
  Ld tp 32 a0;
  Ld t0 16 a0;
  Ld t1 0 a0;
  Sfence_vma;
  Csrw Csatp t1;
  Sfence_vma;
  Jr t0 ].

Definition userret_code : list instr := [
  Sfence_vma;
  Csrw Csatp a0;
  Sfence_vma;
  Li a0 TRAPFRAME;
  (* restore all but a0 from TRAPFRAME *)
  Ld ra 40 a0; Ld sp 48 a0; Ld gp 56 a0; Ld tp 64 a0; Ld t0 72 a0; Ld t1 80 a0; Ld t2 88 a0;
  Ld s0 96 a0; Ld s1 104 a0; Ld a1 120 a0; Ld a2 128 a0; Ld a3 136 a0; Ld a4 144 a0;
  Ld a5 152 a0; Ld a6 160 a0; Ld a7 168 a0; Ld s2 176 a0; Ld s3 184 a0; Ld s4 192 a0;
  Ld s5 200 a0; Ld s6 208 a0; Ld s7 216 a0; Ld s8 224 a0; Ld s9 232 a0; Ld s10 240 a0;
  Ld s11 248 a0; Ld t3 256 a0; Ld t4 264 a0; Ld t5 272 a0; Ld t6 280 a0;
  (* restore user a0 *)
  Ld a0 112 a0;
  Sret ].

(** ** swtch.S *)

Definition swtch_code : list instr := [
  Sd ra 0 a0; Sd sp 8 a0; Sd s0 16 a0; Sd s1 24 a0; Sd s2 32 a0; Sd s3 40 a0; Sd s4 48 a0;
  Sd s5 56 a0; Sd s6 64 a0; Sd s7 72 a0; Sd s8 80 a0; Sd s9 88 a0; Sd s10 96 a0; Sd s11 104 a0;
  Ld ra 0 a1; Ld sp 8 a1; Ld s0 16 a1; Ld s1 24 a1; Ld s2 32 a1; Ld s3 40 a1; Ld s4 48 a1;
  Ld s5 56 a1; Ld s6 64 a1; Ld s7 72 a1; Ld s8 80 a1; Ld s9 88 a1; Ld s10 96 a1; Ld s11 104 a1;
  Jr ra ].  (* ret *)

(** ** kernelvec.S *)

Definition kernelvec_code : list instr := [
  Addi sp sp (-256);
  (* save caller-saved registers. *)
  Sd ra 0 sp; Sd sp 8 sp; Sd gp 16 sp; Sd tp 24 sp; Sd t0 32 sp; Sd t1 40 sp; Sd t2 48 sp;
  Sd a0 72 sp; Sd a1 80 sp; Sd a2 88 sp; Sd a3 96 sp; Sd a4 104 sp; Sd a5 112 sp; Sd a6 120 sp;
  Sd a7 128 sp; Sd t3 216 sp; Sd t4 224 sp; Sd t5 232 sp; Sd t6 240 sp;
  (* call the C trap handler in trap.c *)
  Call "kerneltrap";
  (* restore registers; not tp (contains hartid), in case we moved CPUs *)
  Ld ra 0 sp; Ld sp 8 sp; Ld gp 16 sp; Ld t0 32 sp; Ld t1 40 sp; Ld t2 48 sp;
  Ld a0 72 sp; Ld a1 80 sp; Ld a2 88 sp; Ld a3 96 sp; Ld a4 104 sp; Ld a5 112 sp; Ld a6 120 sp;
  Ld a7 128 sp; Ld t3 216 sp; Ld t4 224 sp; Ld t5 232 sp; Ld t6 240 sp;
  Addi sp sp 256;
  (* return to whatever we were doing in the kernel. *)
  Sret ].

(** ** entry.S *)

Definition entry_code : list instr := [
  La sp "stack0";
  Li a0 (1024 * 4);
  Csrr a1 Cmhartid;
  Addi a1 a1 1;
  Mul a0 a0 a1;
  Add sp sp a0;
  Call "start" ].

(** ** The structures that they read and write (proc.h) *)

(** The offset of the saved register in [struct trapframe]. *)
Definition trapframe_off (r : reg) : Z :=
  match r with
  | zero => 0
  | ra => 40 | sp => 48 | gp => 56 | tp => 64 | t0 => 72 | t1 => 80 | t2 => 88 | s0 => 96 | s1 => 104
  | a0 => 112 | a1 => 120 | a2 => 128 | a3 => 136 | a4 => 144 | a5 => 152 | a6 => 160 | a7 => 168
  | s2 => 176 | s3 => 184 | s4 => 192 | s5 => 200 | s6 => 208 | s7 => 216 | s8 => 224 | s9 => 232
  | s10 => 240 | s11 => 248 | t3 => 256 | t4 => 264 | t5 => 272 | t6 => 280
  end.

(** The registers of [struct context], in order. *)
Definition context_regs : list reg := [ra; sp; s0; s1; s2; s3; s4; s5; s6; s7; s8; s9; s10; s11].

(** * The assembly files: saving and restoring registers *)

(** A list of registers with the offsets they are saved at. *)
Notation slots := (list (reg * Z)).

Definition saves (base : reg) (l : slots) : list instr := map (fun x => Sd (fst x) (snd x) base) l.
Definition loads (base : reg) (l : slots) : list instr := map (fun x => Ld (fst x) (snd x) base) l.

(** The memory after the registers were saved at [pa]. *)
Definition save_mem (pa : Z) (regs : reg -> Z) (l : slots) (m : memory) : memory :=
  fold_left (fun m x => store64 m (pa + snd x) (regs (fst x))) l m.

(** The machine after they were restored. *)
Definition load_regs (pa : Z) (l : slots) (s : mach) : mach :=
  fold_left (fun s x => set_reg (fst x) (load64 s.(m_mem) (pa + snd x)) s) l s.

Section Mem.
Context (pa : Z) (regs : reg -> Z).

Lemma save_mem_out l : forall m o,
  Forall (fun x : reg * Z => snd x mod 8 = 0) l -> o mod 8 = 0 -> o ∉ map snd l ->
  load64 (save_mem pa regs l m) (pa + o) = load64 m (pa + o).
Proof using Type.
  induction l as [|[r o'] l IH]; intros m o Hal Ho Hn; [done|]. inversion_clear Hal as [|? ? Ho' Hl]. cbn [snd map] in *.
  apply not_elem_of_cons in Hn as [Hne Hn]. cbn [save_mem fold_left]. fold (save_mem pa regs l).
  change (fold_left _ l ?m) with (save_mem pa regs l m). rewrite IH by done. cbn [fst snd].
  apply load64_store64_ne. pose proof (Z.div_mod o 8 ltac:(lia)). pose proof (Z.div_mod o' 8 ltac:(lia)). lia.
Qed.

Lemma save_mem_in l : forall m r o,
  Forall (fun x : reg * Z => snd x mod 8 = 0) l -> NoDup (map snd l) -> (r, o) ∈ l ->
  load64 (save_mem pa regs l m) (pa + o) = u64 (regs r).
Proof using Type.
  induction l as [|[r' o'] l IH]; intros m r o Hal Hnd Hin; [by apply elem_of_nil in Hin|].
  inversion_clear Hal as [|? ? Ho' Hl]. cbn [snd map] in *. apply NoDup_cons in Hnd as [Hn Hnd].
  cbn [save_mem fold_left fst snd]. change (fold_left _ l ?m) with (save_mem pa regs l m).
  apply elem_of_cons in Hin as [[= -> ->]|Hin]; [|by apply IH].
  rewrite save_mem_out by done. apply load64_store64.
Qed.

Lemma save_mem_changed l lo lim : forall m,
  Forall (fun x : reg * Z => lo <= snd x <= lim) l ->
  changed_in (fun x => pa + lo <= x < pa + lim + 8) m (save_mem pa regs l m).
Proof using Type.
  induction l as [|[r o] l IH]; intros m Hr x Hx; [done|]. inversion_clear Hr as [|? ? Ho Hl]. cbn [snd] in Ho.
  cbn [save_mem fold_left fst snd]. change (fold_left _ l ?m) with (save_mem pa regs l m).
  rewrite (IH _ Hl x Hx). apply load8_store64_out. lia.
Qed.

End Mem.

Lemma save_mem_ext pa regs regs' l : forall m,
  Forall (fun x : reg * Z => regs (fst x) = regs' (fst x)) l -> save_mem pa regs l m = save_mem pa regs' l m.
Proof.
  induction l as [|[r o] l IH]; intros m H; [done|]. inversion_clear H as [|? ? Hr Hl].
  unfold save_mem in *. cbn [fold_left fst snd] in *. rewrite Hr. by apply IH.
Qed.

Lemma set_reg_eq r v s : r <> zero -> (set_reg r v s).(m_regs) r = u64 v.
Proof. intros H. cbn [set_reg m_regs]. by rewrite decide_True, decide_False. Qed.
Lemma set_reg_ne r r' v s : r' <> r -> (set_reg r v s).(m_regs) r' = s.(m_regs) r'.
Proof. intros H. cbn [set_reg m_regs]. by rewrite decide_False. Qed.
Lemma set_csr_eq c v s : (set_csr c v s).(m_csrs) c = v.
Proof. cbn [set_csr m_csrs]. by rewrite decide_True. Qed.

(** ** Single instructions *)

Section Steps.
Context {E : Env}.

Lemma exec_Csrw c r code s : exec (Csrw c r :: code) s = exec code (set_csr c (s.(m_regs) r) s).
Proof using Type. reflexivity. Qed.
Lemma exec_Csrr c r code s : exec (Csrr r c :: code) s = exec code (set_reg r (s.(m_csrs) c) s).
Proof using Type. reflexivity. Qed.
Lemma exec_Li r v code s : exec (Li r v :: code) s = exec code (set_reg r v s).
Proof using Type. reflexivity. Qed.
Lemma exec_Addi rd rs v code s : exec (Addi rd rs v :: code) s = exec code (set_reg rd (s.(m_regs) rs + v) s).
Proof using Type. reflexivity. Qed.
Lemma exec_Call f code s : exec (Call f :: code) s = exec code (callee f s).
Proof using Type. reflexivity. Qed.
Lemma exec_Sfence code s : exec (Sfence_vma :: code) s = exec code s.
Proof using Type. reflexivity. Qed.
Lemma exec_Jr r code s : exec (Jr r :: code) s = (Jump (s.(m_regs) r), s).
Proof using Type. reflexivity. Qed.
Lemma exec_Sret code s : exec (Sret :: code) s = (Return_user, s).
Proof using Type. reflexivity. Qed.

End Steps.

Section Run.
Context {E : Env} (base : reg) (B pa lim : Z).

(** The address [B] of the area is mapped to [pa], whatever is stored there. *)
Context (good : (csr -> Z) -> memory -> Prop).
Context (Htr : forall w s o, good s.(m_csrs) s.(m_mem) -> 0 <= o <= lim -> translate w s (u64 (B + o)) = Some (pa + o)).
Context (Hst : forall c m o v, good c m -> 0 <= o <= lim -> good c (store64 m (pa + o) v)).

Lemma good_save c regs l : forall m,
  good c m -> Forall (fun x : reg * Z => 0 <= snd x <= lim) l -> good c (save_mem pa regs l m).
Proof using Hst.
  induction l as [|[r o] l IH]; intros m Hg Hl; [done|]. inversion_clear Hl as [|? ? Ho Hl'].
  cbn [save_mem fold_left fst snd]. apply IH; [|done]. by apply Hst.
Qed.

Lemma exec_saves l : forall rest s,
  s.(m_regs) base = B -> good s.(m_csrs) s.(m_mem) -> Forall (fun x : reg * Z => 0 <= snd x <= lim) l ->
  exec (saves base l ++ rest) s = exec rest (set_mem (save_mem pa s.(m_regs) l s.(m_mem)) s).
Proof using Htr Hst.
  induction l as [|[r o] l IH]; intros rest s HB Hg Hl; [by destruct s|]. inversion_clear Hl as [|? ? Ho Hl'].
  cbn [saves map app exec fst snd]. rewrite HB, Htr by done. rewrite IH; [done|done| |done]. by apply Hst.
Qed.

Lemma load_regs_mem l : forall s, (load_regs pa l s).(m_mem) = s.(m_mem) /\ (load_regs pa l s).(m_csrs) = s.(m_csrs).
Proof using Type.
  induction l as [|x l IH]; intros s; [done|]. cbn [load_regs fold_left].
  change (fold_left _ l ?s) with (load_regs pa l s). destruct (IH (set_reg (fst x) (load64 s.(m_mem) (pa + snd x)) s)) as [-> ->].
  done.
Qed.

Lemma exec_loads l : forall rest s,
  s.(m_regs) base = B -> good s.(m_csrs) s.(m_mem) -> Forall (fun x : reg * Z => 0 <= snd x <= lim) l ->
  base ∉ map fst l ->
  exec (loads base l ++ rest) s = exec rest (load_regs pa l s).
Proof using Htr.
  induction l as [|[r o] l IH]; intros rest s HB Hg Hl Hn; [done|]. inversion_clear Hl as [|? ? Ho Hl'].
  apply not_elem_of_cons in Hn as [Hne Hn]. cbn [loads map app exec fst snd]. rewrite HB, Htr by done.
  rewrite IH; [done| |done|done|done]. cbn [set_reg m_regs]. by rewrite decide_False.
Qed.

Lemma load_regs_out l : forall s r, r ∉ map fst l -> (load_regs pa l s).(m_regs) r = s.(m_regs) r.
Proof using Type.
  induction l as [|[r' o] l IH]; intros s r Hn; [done|]. apply not_elem_of_cons in Hn as [Hne Hn].
  cbn [load_regs fold_left fst snd]. change (fold_left _ l ?s) with (load_regs pa l s). rewrite IH by done.
  cbn [set_reg m_regs]. by rewrite decide_False.
Qed.

Lemma load_regs_in l : forall s r o, NoDup (map fst l) -> (r, o) ∈ l -> r <> zero ->
  (load_regs pa l s).(m_regs) r = load64 s.(m_mem) (pa + o).
Proof using Type.
  induction l as [|[r' o'] l IH]; intros s r o Hnd Hin Hz; [by apply elem_of_nil in Hin|].
  cbn [map fst] in Hnd. apply NoDup_cons in Hnd as [Hn Hnd]. cbn [load_regs fold_left fst snd].
  change (fold_left _ l ?s) with (load_regs pa l s). apply elem_of_cons in Hin as [[= -> ->]|Hin].
  - rewrite load_regs_out by done. cbn [set_reg m_regs]. rewrite decide_True, decide_False by done.
    unfold u64. apply Z.mod_small, load64_range.
  - by rewrite (IH _ r o).
Qed.

End Run.
