(* ===== verification/Trampoline.v ===== *)
(** * The trampoline (trampoline.S): traps between a process and the kernel

    The code runs in the page at [TRAMPOLINE], which every page table maps. Its
    memory accesses go through the page table in [satp], as the hardware walks
    it: [pte] is the entry of Vm.v's three-level tables. *)

From S2P Require Import Prelude Params Mem State Spinlock CString Kalloc Vm PageTable VmSpec UvmSpec UvmProps UvmFree CopySpec Proc ProcSpec ProcVm.
From S2P Require Import Asm.

(** ** Address translation *)

Definition satp_root (x : Z) : Z := Z.shiftl (Z.land x (2 ^ 44 - 1)) 12.

(** In supervisor mode, Sv39 or no translation. *)
Definition sv39 (store : bool) (s : mach) (va : Z) : option Z :=
  let satp := s.(m_csrs) Csatp in
  if Z.shiftr satp 60 =? 8 then
    let e := pte s.(m_mem) (satp_root satp) (PGROUNDDOWN va) in
    if has e PTE_V && has e (if store then PTE_W else PTE_R) && negb (has e PTE_U)
    then Some (PTE2PA e + va mod PGSIZE) else None
  else Some va.

#[global] Instance trampoline_env : Env := {| symbol _ := 0; translate := sv39; callee _ s := s |}.

(** ** The listings as lists of slots *)

Definition user_slots : slots :=
  map (fun r => (r, trapframe_off r))
    [ra; sp; gp; tp; t0; t1; t2; s0; s1; a1; a2; a3; a4; a5; a6; a7;
     s2; s3; s4; s5; s6; s7; s8; s9; s10; s11; t3; t4; t5; t6].

Lemma uservec_split : uservec_code = [Csrw Csscratch a0; Li a0 TRAPFRAME] ++ saves a0 user_slots ++
  [Csrr t0 Csscratch; Sd t0 112 a0; Ld sp 8 a0; Ld tp 32 a0; Ld t0 16 a0; Ld t1 0 a0;
   Sfence_vma; Csrw Csatp t1; Sfence_vma; Jr t0].
Proof. reflexivity. Qed.

Lemma userret_split : userret_code = [Sfence_vma; Csrw Csatp a0; Sfence_vma; Li a0 TRAPFRAME] ++
  loads a0 user_slots ++ [Ld a0 112 a0; Sret].
Proof. reflexivity. Qed.

Lemma user_slots_aligned : Forall (fun x : reg * Z => snd x mod 8 = 0) user_slots.
Proof. by repeat constructor. Qed.
Lemma user_slots_range : Forall (fun x : reg * Z => 40 <= snd x <= 280) user_slots.
Proof. repeat constructor; simpl; lia. Qed.
Lemma user_slots_offsets : NoDup (map snd user_slots).
Proof. apply (bool_decide_eq_true_1 (NoDup _)). vm_compute. reflexivity. Qed.
Lemma user_slots_regs : NoDup (map fst user_slots).
Proof. apply (bool_decide_eq_true_1 (NoDup _)). vm_compute. reflexivity. Qed.

Lemma user_slots_in r : r <> zero -> r <> a0 -> (r, trapframe_off r) ∈ user_slots.
Proof. intros Hz Ha. apply (bool_decide_eq_true_1 (_ ∈ user_slots)). destruct r; try done; vm_compute; reflexivity. Qed.

Section Trampoline.
Context {I : KernelImage} {L : KernelLayout I}.

(** A page table as the kernel sets it up for a process, with the trapframe page
    [tf] apart from the page tables. *)
Record trap_space (m : memory) (root tf : Z) : Prop := {
  ts_wf : pt_wf m root;
  ts_frame : pte m root TRAPFRAME = leaf_pte tf FRAME_PERM;
  ts_tf : page_ok tf;
  ts_apart : ~ is_table m root tf;
}.

Lemma proc_space_trap s root tf sz l :
  proc_space s root tf sz l -> ~ is_table s.(k_mem) root tf -> trap_space s.(k_mem) root tf.
Proof. intros [Hu _ _ Hf Htf] Hn. split; [apply Hu|done|done|done]. Qed.

Section Space.
Context (m : memory) (root tf : Z) (Hts : trap_space m root tf).

Lemma root_page : page_ok root.
Proof using Hts. apply (wf_page _ _ (ts_wf _ _ _ Hts) []); [apply path_ok_nil|done]. Qed.

Lemma MAKE_SATP_add : MAKE_SATP root = 2 ^ 63 + root / 4096 /\ 0 <= root / 4096 < 2 ^ 44 /\ root = root / 4096 * 4096.
Proof using Hts L.
  destruct (page_ok_pte root root_page) as [Hr Ha]. unfold PGSIZE in Ha.
  pose proof (Z.div_mod root 4096 ltac:(lia)) as Hd.
  assert (0 <= root / 4096 < 2 ^ 44) as Hq by (split; [apply Z.div_pos; lia|apply Z.div_lt_upper_bound; lia]).
  split; [|split; [done|lia]]. unfold MAKE_SATP. rewrite Z.shiftr_div_pow2 by lia. change (2 ^ 12) with 4096.
  change SATP_SV39 with (2 ^ 19 * 2 ^ 44). by rewrite lor_low.
Qed.

Lemma satp_root_of : satp_root (MAKE_SATP root) = root /\ Z.shiftr (MAKE_SATP root) 60 = 8.
Proof using Hts L.
  destruct MAKE_SATP_add as (-> & Hq & Hr). unfold satp_root. change (2 ^ 44 - 1) with (Z.ones 44).
  rewrite Z.land_ones, Z.shiftl_mul_pow2, Z.shiftr_div_pow2 by lia. split.
  - change (2 ^ 63) with (2 ^ 19 * 2 ^ 44). rewrite Z.add_comm, Z.mod_add, Z.mod_small by lia. lia.
  - symmetry. apply (Z.div_unique _ _ _ (root / 4096)); lia.
Qed.

(** The trapframe page holds no page table. *)
Lemma frame_not_tables x : in_page tf x -> ~ in_tables m root x.
Proof using Hts.
  intros Hx (path & p & Hok & Hp & Hpx). pose proof (wf_page _ _ (ts_wf _ _ _ Hts) path p Hok Hp) as Hpg.
  pose proof (ts_tf _ _ _ Hts) as Htf.
  assert (p = tf) as ->; [|by apply (ts_apart _ _ _ Hts); exists path].
  destruct Hpg as [Ha _], Htf as [Hb _]. unfold in_page, PGSIZE in *.
  pose proof (Z.div_mod p 4096 ltac:(lia)). pose proof (Z.div_mod tf 4096 ltac:(lia)). lia.
Qed.

(** The machine is in the address space, and only its trapframe was written. *)
Definition in_space (c : csr -> Z) (m' : memory) : Prop :=
  c Csatp = MAKE_SATP root /\ changed_in (in_page tf) m m'.

Lemma in_space_translate w s o :
  in_space s.(m_csrs) s.(m_mem) -> 0 <= o <= 4088 -> sv39 w s (u64 (TRAPFRAME + o)) = Some (tf + o).
Proof using Hts L.
  intros [Hc Hm] Ho. destruct satp_root_of as [H1 H2]. unfold sv39. rewrite Hc, H1, H2. change (8 =? 8) with true. cbv iota.
  assert (u64 (TRAPFRAME + o) = TRAPFRAME + o) as ->
    by (change TRAPFRAME with (2 ^ 38 - 8192); unfold u64; apply Z.mod_small; lia).
  rewrite PGROUNDDOWN_eq. unfold PGSIZE. change TRAPFRAME with (4096 * 67108862).
  rewrite (Z.mul_comm 4096 67108862), Z.add_comm, Z.div_add, Z.mod_add, Z.div_small, Z.mod_small, Z.add_0_l by lia.
  change (4096 * 67108862) with TRAPFRAME.
  rewrite (pte_frame m s.(m_mem) root).
  2:{ intros x Hx. apply Hm. intros Hp. apply Hx. by apply frame_not_tables. }
  rewrite (ts_frame _ _ _ Hts). destruct (page_ok_pte tf (ts_tf _ _ _ Hts)) as [Hr Ha].
  destruct (leaf_pte_facts tf FRAME_PERM PTE_V) as (Epa & _ & Ev); try done.
  destruct (leaf_pte_facts tf FRAME_PERM PTE_U) as (_ & _ & Eu); try done.
  destruct (leaf_pte_facts tf FRAME_PERM (if w then PTE_W else PTE_R)) as (_ & _ & Ew); try done; [by destruct w|].
  rewrite Epa, Ev, Eu, Ew. destruct w; done.
Qed.

Lemma in_space_store c m' o v : in_space c m' -> 0 <= o <= 4088 -> in_space c (store64 m' (tf + o) v).
Proof using Type.
  intros [Hc Hm] Ho. split; [done|]. intros x Hx. rewrite <- (Hm x Hx). apply load8_store64_out.
  unfold in_page, PGSIZE in Hx. lia.
Qed.

(** ** Entering the kernel *)

(** The memory after [uservec]: the registers of the process are in the trapframe. *)
Definition saved_mem (regs : reg -> Z) : memory :=
  store64 (save_mem tf regs user_slots m) (tf + 112) (regs a0).

Lemma saved_regs regs r : r <> zero -> load64 (saved_mem regs) (tf + trapframe_off r) = u64 (regs r).
Proof using Type.
  intros Hz. unfold saved_mem. destruct (decide (r = a0)) as [->|Ha]; [apply load64_store64|].
  rewrite load64_store64_ne by (destruct r; simpl; try done; lia).
  apply save_mem_in; [apply user_slots_aligned|apply user_slots_offsets|by apply user_slots_in].
Qed.

Lemma saved_kernel regs o : o ∈ [0; 8; 16; 24; 32] -> load64 (saved_mem regs) (tf + o) = load64 m (tf + o).
Proof using Type.
  intros Ho. assert (o mod 8 = 0 /\ 0 <= o <= 32) as [Ha Hr].
  { repeat (apply elem_of_cons in Ho as [->|Ho]; [by split|]). by apply elem_of_nil in Ho. }
  unfold saved_mem. rewrite load64_store64_ne by lia. apply save_mem_out; [apply user_slots_aligned|done|].
  intros Hin. apply list_elem_of_fmap in Hin as (x & -> & Hx).
  pose proof (proj1 (Forall_forall _ _) user_slots_range x Hx) as H40. cbv beta in H40. lia.
Qed.

Lemma saved_changed regs : changed_in (fun x => tf + 40 <= x < tf + 288) m (saved_mem regs).
Proof using Type.
  intros x Hx. unfold saved_mem. rewrite load8_store64_out by lia.
  apply (save_mem_changed tf regs user_slots 40 280); [apply user_slots_range|lia].
Qed.

Lemma exec_Sd r o rest s : s.(m_regs) a0 = TRAPFRAME -> in_space s.(m_csrs) s.(m_mem) -> 0 <= o <= 4088 ->
  exec (Sd r o a0 :: rest) s = exec rest (set_mem (store64 s.(m_mem) (tf + o) (s.(m_regs) r)) s).
Proof using Hts L.
  intros HB Hg Ho. cbn [exec]. rewrite HB. change (@translate trampoline_env) with sv39.
  by rewrite in_space_translate.
Qed.

Lemma exec_Ld r o rest s : s.(m_regs) a0 = TRAPFRAME -> in_space s.(m_csrs) s.(m_mem) -> 0 <= o <= 4088 ->
  exec (Ld r o a0 :: rest) s = exec rest (set_reg r (load64 s.(m_mem) (tf + o)) s).
Proof using Hts L.
  intros HB Hg Ho. cbn [exec]. rewrite HB. change (@translate trampoline_env) with sv39.
  by rewrite in_space_translate.
Qed.

Lemma u64_load64 m' a : u64 (load64 m' a) = load64 m' a.
Proof using Type. unfold u64. apply Z.mod_small, load64_range. Qed.

Lemma uservec_run s :
  s.(m_csrs) Csatp = MAKE_SATP root -> s.(m_mem) = m ->
  (forall r, 0 <= s.(m_regs) r < 2 ^ 64) ->
  exists s', exec uservec_code s = (Jump (load64 m (tf + 16)), s') /\
    s'.(m_mem) = saved_mem s.(m_regs) /\
    s'.(m_regs) sp = load64 m (tf + 8) /\
    s'.(m_regs) tp = load64 m (tf + 32) /\
    s'.(m_csrs) Csatp = load64 m (tf + 0).
Proof using Hts L.
  intros Hc Hm Hr. rewrite uservec_split. cbn [app]. rewrite exec_Csrw, exec_Li.
  set (s1 := set_reg a0 TRAPFRAME (set_csr Csscratch (s.(m_regs) a0) s)).
  assert (in_space s1.(m_csrs) s1.(m_mem)) as Hg by (split; [exact Hc|intros x _; by rewrite <- Hm]).
  assert (s1.(m_regs) a0 = TRAPFRAME) as HB by reflexivity.
  assert (Forall (fun x : reg * Z => 0 <= snd x <= 4088) user_slots) as Hsl
    by (eapply Forall_impl; [apply user_slots_range|]; simpl; intros; lia).
  rewrite (exec_saves (E := trampoline_env) a0 TRAPFRAME tf 4088 in_space in_space_translate in_space_store user_slots _ s1 HB Hg Hsl).
  assert (save_mem tf (m_regs s1) user_slots (m_mem s1) = save_mem tf (m_regs s) user_slots m) as ->
    by (rewrite <- Hm; apply save_mem_ext; by repeat constructor).
  set (m1 := save_mem tf (m_regs s) user_slots m).
  assert (in_space s1.(m_csrs) m1) as Hg1.
  { apply (good_save tf 4088 in_space in_space_store); [|done]. split; [exact Hc|by intros x _]. }
  rewrite exec_Csrr. set (s2 := set_reg t0 _ (set_mem m1 s1)).
  rewrite (exec_Sd t0 112 _ s2 eq_refl Hg1 ltac:(lia)).
  assert (store64 s2.(m_mem) (tf + 112) (s2.(m_regs) t0) = saved_mem s.(m_regs)) as ->.
  { unfold saved_mem. cbn [s2 set_reg m_regs m_mem set_mem]. f_equal. rewrite decide_True, decide_False by done.
    unfold u64. apply Z.mod_small, Hr. }
  set (M := saved_mem s.(m_regs)).
  assert (in_space s1.(m_csrs) M) as HgM
    by exact (in_space_store s1.(m_csrs) m1 112 (s.(m_regs) a0) Hg1 ltac:(lia)).
  rewrite (exec_Ld sp 8 _ (set_mem M s2) eq_refl HgM ltac:(lia)).
  set (s3 := set_reg sp _ _).
  rewrite (exec_Ld tp 32 _ s3 eq_refl HgM ltac:(lia)). set (s4 := set_reg tp _ s3).
  rewrite (exec_Ld t0 16 _ s4 eq_refl HgM ltac:(lia)). set (s5 := set_reg t0 _ s4).
  rewrite (exec_Ld t1 0 _ s5 eq_refl HgM ltac:(lia)). rewrite exec_Sfence, exec_Csrw, exec_Sfence, exec_Jr.
  assert (forall o, o ∈ [0; 8; 16; 24; 32] -> u64 (load64 M (tf + o)) = load64 m (tf + o)) as HM
    by (intros o Ho; unfold M; by rewrite u64_load64, saved_kernel).
  set (s6 := set_reg t1 _ s5). exists (set_csr Csatp (s6.(m_regs) t1) s6).
  assert (s6.(m_regs) t0 = u64 (load64 M (tf + 16))) as E0 by (unfold s6, s5; rewrite set_reg_ne, set_reg_eq; done).
  assert (s6.(m_regs) t1 = u64 (load64 M (tf + 0))) as E1 by (unfold s6; rewrite set_reg_eq; done).
  assert (s6.(m_regs) sp = u64 (load64 M (tf + 8))) as E2 by (unfold s6, s5, s4, s3; rewrite 3!set_reg_ne, set_reg_eq; done).
  assert (s6.(m_regs) tp = u64 (load64 M (tf + 32))) as E3 by (unfold s6, s5, s4; rewrite 2!set_reg_ne, set_reg_eq; done).
  rewrite set_csr_eq. change (m_regs (set_csr Csatp ?v s6)) with (m_regs s6).
  rewrite E0, E1, E2, E3, (HM 16), (HM 0), (HM 8), (HM 32) by set_solver.
  exact (conj eq_refl (conj eq_refl (conj eq_refl (conj eq_refl eq_refl)))).
Qed.

(** ** Returning to the process *)

Lemma userret_run s :
  s.(m_regs) a0 = MAKE_SATP root -> s.(m_regs) zero = 0 -> s.(m_mem) = m ->
  exists s', exec userret_code s = (Return_user, s') /\
    s'.(m_mem) = m /\ s'.(m_csrs) Csatp = MAKE_SATP root /\ s'.(m_regs) zero = 0 /\
    forall r, r <> zero -> s'.(m_regs) r = load64 m (tf + trapframe_off r).
Proof using Hts L.
  intros Ha Hz Hm. rewrite userret_split. cbn [app].
  rewrite exec_Sfence, exec_Csrw, exec_Sfence, exec_Li. rewrite Ha.
  set (s1 := set_reg a0 TRAPFRAME (set_csr Csatp (MAKE_SATP root) s)).
  assert (in_space s1.(m_csrs) s1.(m_mem)) as Hg by (split; [reflexivity|intros x _; by rewrite <- Hm]).
  assert (s1.(m_regs) a0 = TRAPFRAME) as HB by reflexivity.
  assert (Forall (fun x : reg * Z => 0 <= snd x <= 4088) user_slots) as Hsl
    by (eapply Forall_impl; [apply user_slots_range|]; simpl; intros; lia).
  assert (a0 ∉ map fst user_slots /\ zero ∉ map fst user_slots) as [Hna Hnz]
    by (split; apply (bool_decide_eq_true_1 (_ ∉ _)); vm_compute; reflexivity).
  rewrite (exec_loads (E := trampoline_env) a0 TRAPFRAME tf 4088 in_space in_space_translate user_slots _ s1 HB Hg Hsl Hna).
  destruct (load_regs_mem tf user_slots s1) as [Em Ec]. pose proof (load_regs_out tf user_slots s1 a0 Hna) as Ea.
  set (s2 := load_regs tf user_slots s1) in *. rewrite HB in Ea.
  assert (m_mem s1 = m) as Em1 by exact Hm. rewrite Em1 in Em.
  assert (in_space s2.(m_csrs) s2.(m_mem)) as Hg2 by (rewrite Em, Ec; split; [reflexivity|by intros x _]).
  rewrite (exec_Ld a0 112 _ s2 Ea Hg2 ltac:(lia)), exec_Sret. eexists. split; [reflexivity|].
  cbn [set_reg m_mem m_csrs m_regs]. rewrite Em. refine (conj eq_refl (conj _ (conj _ _))).
  - rewrite Ec. reflexivity.
  - rewrite decide_False by done. unfold s2. rewrite load_regs_out by done. exact Hz.
  - intros r Hr. destruct (decide (r = a0)) as [->|Hne].
    + rewrite decide_False by done. apply u64_load64.
    + unfold s2. rewrite (load_regs_in tf user_slots s1 r (trapframe_off r) user_slots_regs (user_slots_in r Hr Hne) Hr).
      by rewrite Em1.
Qed.

(** Writing the trapframe keeps the address space. *)
Lemma trap_space_changed m' : changed_in (in_page tf) m m' -> trap_space m' root tf.
Proof using Hts.
  intros Hm. assert (changed_in (fun x => ~ in_tables m root x) m m') as Hc.
  { intros x Hx. apply Hm. intros Hp. apply Hx. by apply frame_not_tables. }
  destruct Hts as [H1 H2 H3 H4]. split; [by apply (pt_wf_frame m)|by rewrite (pte_frame m)|done|].
  intros (path & Hok & Hp). apply H4. exists path. split; [done|]. by rewrite <- (table_frame m m' root path Hc Hok).
Qed.

End Space.

(** [C8] A trap from a process and the return to it. [uservec], entered with the page table of
    the process, stores every register at its place in the trapframe and nothing outside
    that part of it, and jumps to the function in [kernel_trap] with the stack pointer, the
    hart id and the page table that the kernel left in the trapframe. [userret], called later
    with the page table of the process, as long as the trapframe is mapped, leaves memory alone and
    gives every register the value of its field: the registers whose fields the kernel did not
    change, all but [a0] after a system call, are as they were at the trap. *)
Theorem trap_roundtrip m root tf s :
  trap_space m root tf -> s.(m_csrs) Csatp = MAKE_SATP root -> s.(m_mem) = m ->
  s.(m_regs) zero = 0 -> (forall r, 0 <= s.(m_regs) r < 2 ^ 64) ->
  exists s1, exec uservec_code s = (Jump (load64 m (tf + TF_kernel_trap)), s1) /\
    (s1.(m_regs) sp = load64 m (tf + TF_kernel_sp) /\ s1.(m_regs) tp = load64 m (tf + TF_kernel_hartid) /\
     s1.(m_csrs) Csatp = load64 m (tf + TF_kernel_satp)) /\
    trap_space s1.(m_mem) root tf /\ changed_in (fun x => tf + 40 <= x < tf + TF_size) m s1.(m_mem) /\
    (forall r, r <> zero -> load64 s1.(m_mem) (tf + trapframe_off r) = s.(m_regs) r) /\
    forall s2 root2, trap_space s2.(m_mem) root2 tf -> s2.(m_regs) a0 = MAKE_SATP root2 -> s2.(m_regs) zero = 0 ->
      exists s3, exec userret_code s2 = (Return_user, s3) /\ s3.(m_mem) = s2.(m_mem) /\
        s3.(m_csrs) Csatp = MAKE_SATP root2 /\
        (forall r, r <> zero -> s3.(m_regs) r = load64 s2.(m_mem) (tf + trapframe_off r)) /\
        (forall r, load64 s2.(m_mem) (tf + trapframe_off r) = load64 s1.(m_mem) (tf + trapframe_off r) ->
          s3.(m_regs) r = s.(m_regs) r).
Proof.
  intros Hts Hc Hm Hz Hr. destruct (uservec_run m root tf Hts s Hc Hm Hr) as (s1 & Hrun & Em & Esp & Etp & Ec).
  assert (forall r, r <> zero -> load64 s1.(m_mem) (tf + trapframe_off r) = s.(m_regs) r) as Hsv.
  { intros r Hne. rewrite Em, saved_regs by done. unfold u64. apply Z.mod_small, Hr. }
  pose proof (saved_changed m tf s.(m_regs)) as Hch. rewrite <- Em in Hch.
  exists s1. split; [exact Hrun|]. split; [done|]. split.
  { apply (trap_space_changed m root tf Hts). intros x Hx. apply Hch. unfold in_page, PGSIZE in Hx. lia. }
  split; [exact Hch|]. split; [exact Hsv|]. intros s2 root2 Hts2 Ha Hz2.
  destruct (userret_run s2.(m_mem) root2 tf Hts2 s2 Ha Hz2 eq_refl) as (s3 & Hrun3 & Em3 & Ec3 & Ez3 & Er3).
  exists s3. split; [exact Hrun3|]. split; [done|]. split; [done|]. split; [done|].
  intros r Heq. destruct (decide (r = zero)) as [->|Hne]; [by rewrite Ez3, Hz|]. by rewrite Er3, Heq, Hsv.
Qed.

End Trampoline.
