(* ===== verification/TrapSpec.v ===== *)
(** * From the kernel to a process and back (trap.c and trampoline.S)

    [usertrapret] prepares the trapframe, [userret] enters the process, and the
    next trap enters the kernel through [uservec]. *)

From S2P Require Import Prelude Params Mem State Spinlock CString Kalloc Vm PageTable VmSpec UvmSpec UvmProps UvmFree CopySpec Proc ProcSpec ProcVm.
From S2P Require Import Sleeplock Uart Printf Console Virtio Bio Log Fs File Exec Syscall Trap ProcLife VmDemo ForkSpec.
From S2P Require Import Asm Trampoline.

Section Trap.
Context {I : KernelImage} {L : KernelLayout I}.

(** The trapframe after [usertrapret]. *)
Definition trap_ready (s : kstate) (q : proc) : memory :=
  let tf := q.(p_trapframe) in
  store64 (store64 (store64 (store64 s.(k_mem) (tf + TF_kernel_satp) s.(k_hart).(satp))
    (tf + TF_kernel_sp) (q.(p_kstack) + PGSIZE)) (tf + TF_kernel_trap) usertrap_addr)
    (tf + TF_kernel_hartid) s.(k_hart).(hartid).

Definition user_status (x : Z) : Z :=
  Z.lor (Z.land (Z.land x (Z.lnot SSTATUS_SIE)) (Z.lnot SSTATUS_SPP)) SSTATUS_SPIE.

Lemma user_status_spec x :
  has (user_status x) SSTATUS_SPP = false /\ has (user_status x) SSTATUS_SIE = false /\
  has (user_status x) SSTATUS_SPIE = true.
Proof.
  unfold user_status, has, cbool. rewrite !Z.land_lor_distr_l, <- !Z.land_assoc.
  change (Z.land (Z.lnot SSTATUS_SIE) (Z.land (Z.lnot SSTATUS_SPP) SSTATUS_SPP)) with 0.
  change (Z.land (Z.lnot SSTATUS_SIE) (Z.land (Z.lnot SSTATUS_SPP) SSTATUS_SIE)) with 0.
  rewrite !Z.land_0_r. split_and!; [done|done|].
  destruct (Z.eqb_spec (Z.lor (Z.land x (Z.land (Z.lnot SSTATUS_SIE) (Z.land (Z.lnot SSTATUS_SPP) SSTATUS_SPIE)))
    (Z.land SSTATUS_SPIE SSTATUS_SPIE)) 0) as [E|E]; [|done].
  apply Z.lor_eq_0_iff in E as [_ E]. done.
Qed.

Lemma usertrapret_run s p :
  hart_ok s.(k_hart) -> s.(k_hart).(c_proc) = Some p ->
  let q := proc_at s p in
  exists s', usertrapret s = Ret (TRAMPOLINE + (userret - trampoline), MAKE_SATP q.(p_pagetable)) s' /\
    s'.(k_mem) = trap_ready s q /\
    s'.(k_hart).(sepc) = load64 (trap_ready s q) (q.(p_trapframe) + TF_epc) /\
    s'.(k_hart).(stvec) = TRAMPOLINE + (uservec - trampoline) /\
    has s'.(k_hart).(sstatus) SSTATUS_SPP = false /\ has s'.(k_hart).(sstatus) SSTATUS_SIE = false /\
    has s'.(k_hart).(sstatus) SSTATUS_SPIE = true.
Proof.
  intros Hok Hp q. unfold usertrapret. rewrite (bind_Ret _ _ _ _ _ (curproc_eq s p Hok Hp)).
  eexists. split; [reflexivity|]. refine (conj eq_refl (conj eq_refl (conj eq_refl _))).
  match goal with |- has ?x _ = _ /\ _ => change x with (user_status (sstatus (k_hart (touch s)))) end.
  apply user_status_spec.
Qed.

(** What [usertrapret] leaves in the trapframe. *)
Lemma trap_ready_fields s q :
  let m := trap_ready s q in let tf := q.(p_trapframe) in
  load64 m (tf + TF_kernel_satp) = u64 s.(k_hart).(satp) /\
  load64 m (tf + TF_kernel_sp) = u64 (q.(p_kstack) + PGSIZE) /\
  load64 m (tf + TF_kernel_trap) = u64 usertrap_addr /\
  load64 m (tf + TF_kernel_hartid) = u64 s.(k_hart).(hartid) /\
  (forall o, o = TF_epc \/ 40 <= o -> load64 m (tf + o) = load64 s.(k_mem) (tf + o)) /\
  changed_in (in_page tf) s.(k_mem) m.
Proof.
  cbv zeta. unfold trap_ready. set (tf := p_trapframe q).
  unfold TF_kernel_satp, TF_kernel_sp, TF_kernel_trap, TF_kernel_hartid, TF_epc.
  refine (conj _ (conj _ (conj _ (conj _ (conj _ _))))).
  - rewrite 3!load64_store64_ne by lia. apply load64_store64.
  - rewrite 2!load64_store64_ne by lia. apply load64_store64.
  - rewrite load64_store64_ne by lia. apply load64_store64.
  - apply load64_store64.
  - intros o Ho. rewrite 4!load64_store64_ne by lia. done.
  - intros x Hx. unfold in_page, PGSIZE in Hx. rewrite 4!load8_store64_out by lia. done.
Qed.

(** [C9] From the kernel to a process and back. [usertrapret] clears the supervisor and the
    interrupt-enable bits, sets the exception pc to the saved one and returns the address of
    [userret] and the page table of the process; [userret] called with it enters the process
    with the registers that the trapframe held before; and at the next trap, as long as the process is
    the one that runs and the kernel's fields of the trapframe are as [usertrapret] left them,
    [uservec] continues in [usertrap] on the kernel stack of the process, with the hart id and
    the page table of the kernel, and the registers of the process saved. *)
Theorem trap_cycle s p root tf :
  hart_ok s.(k_hart) -> s.(k_hart).(c_proc) = Some p ->
  (proc_at s p).(p_pagetable) = root -> (proc_at s p).(p_trapframe) = tf -> trap_space s.(k_mem) root tf ->
  exists s', usertrapret s = Ret (TRAMPOLINE + (userret - trampoline), MAKE_SATP root) s' /\
    (s'.(k_hart).(sepc) = load64 s.(k_mem) (tf + TF_epc) /\
     s'.(k_hart).(stvec) = TRAMPOLINE + (uservec - trampoline) /\
     has s'.(k_hart).(sstatus) SSTATUS_SPP = false /\ has s'.(k_hart).(sstatus) SSTATUS_SIE = false) /\
    (forall u, u.(m_mem) = s'.(k_mem) -> u.(m_regs) a0 = MAKE_SATP root -> u.(m_regs) zero = 0 ->
      exists u', exec userret_code u = (Return_user, u') /\
        u'.(m_mem) = s'.(k_mem) /\ u'.(m_csrs) Csatp = MAKE_SATP root /\
        forall r, r <> zero -> u'.(m_regs) r = load64 s.(k_mem) (tf + trapframe_off r)) /\
    (forall v, trap_space v.(m_mem) root tf -> v.(m_csrs) Csatp = MAKE_SATP root ->
      (forall o, 0 <= o < 40 -> load64 v.(m_mem) (tf + o) = load64 s'.(k_mem) (tf + o)) ->
      (forall r, 0 <= v.(m_regs) r < 2 ^ 64) ->
      exists v', exec uservec_code v = (Jump (u64 usertrap_addr), v') /\
        v'.(m_regs) sp = u64 ((proc_at s p).(p_kstack) + PGSIZE) /\
        v'.(m_regs) tp = u64 s.(k_hart).(hartid) /\ v'.(m_csrs) Csatp = u64 s.(k_hart).(satp) /\
        forall r, r <> zero -> load64 v'.(m_mem) (tf + trapframe_off r) = v.(m_regs) r).
Proof.
  intros Hok Hp Hroot Htf Hts. set (q := proc_at s p) in *.
  destruct (usertrapret_run s p Hok Hp) as (s' & Hrun & Em & Eepc & Estv & Espp & Esie & _). fold q in Hrun, Em, Eepc.
  destruct (trap_ready_fields s q) as (F1 & F2 & F3 & F4 & F5 & F6).
  rewrite Htf in *. rewrite Hroot in *. rewrite <- Em in *.
  exists s'. split; [exact Hrun|]. split; [rewrite Eepc, F5 by (by left); done|].
  pose proof (trap_space_changed _ _ _ Hts _ F6) as Hts'. split.
  - intros u Hu Ha Hz. destruct (userret_run _ _ _ Hts' u Ha Hz Hu) as (u' & Hr & Em' & Ec & _ & Eregs).
    exists u'. split; [exact Hr|]. split; [done|]. split; [done|]. intros r Hne. rewrite Eregs by done. apply F5. right.
    destruct r; simpl; try done; lia.
  - intros v Hv Hc Hsame Hr. destruct (uservec_run _ _ _ Hv v Hc eq_refl Hr) as (v' & Hrv & Emv & Esp & Etp & Ecv).
    exists v'. rewrite Hrv, Esp, Etp, Ecv, !Hsame by lia. rewrite <- F1, <- F2, <- F3, <- F4.
    refine (conj eq_refl (conj eq_refl (conj eq_refl (conj eq_refl _)))).
    intros r Hne. rewrite Emv, saved_regs by done. unfold u64. apply Z.mod_small, Hr.
Qed.

End Trap.

#[local] Existing Instance demo_image16.
#[local] Existing Instance demo_layout16.

(** A machine that trapped in the process of Fork's example. *)
Definition demo_mach : mach :=
  mkMach (fun r => if decide (r = zero) then 0 else 100 + trapframe_off r) (fun _ => MAKE_SATP demo_pt) demo_table.(k_mem).

Lemma trap_roundtrip_witness :
  exists s1, exec (E := trampoline_env) uservec_code demo_mach = (Jump (load64 demo_table.(k_mem) (demo_tf + TF_kernel_trap)), s1) /\
    load64 s1.(m_mem) (demo_tf + trapframe_off s5) = 300.
Proof.
  destruct demo_table_ok as (l & Hs & _ & Hn & _).
  assert (trap_space demo_table.(k_mem) demo_pt demo_tf) as Hts.
  { apply (proc_space_trap _ _ _ 0 l Hs). intros Ht. apply Hn. by left. }
  destruct (trap_roundtrip demo_table.(k_mem) demo_pt demo_tf demo_mach Hts eq_refl eq_refl eq_refl)
    as (s1 & H1 & _ & _ & _ & H5 & _).
  { intros r. destruct r; vm_compute; split; (discriminate || reflexivity). }
  exists s1. split; [exact H1|]. rewrite H5 by discriminate. reflexivity.
Defined.

(** The process of the example returns to user mode. *)
Lemma trap_cycle_witness :
  exists s', usertrapret demo_table = Ret (TRAMPOLINE + (userret - trampoline), MAKE_SATP demo_pt) s' /\
    s'.(k_hart).(stvec) = TRAMPOLINE + (uservec - trampoline).
Proof.
  destruct demo_table_ok as (l & Hs & _ & Hn & Hf).
  assert (trap_space demo_table.(k_mem) demo_pt demo_tf) as Hts.
  { apply (proc_space_trap _ _ _ 0 l Hs). intros Ht. apply Hn. by left. }
  destruct (trap_cycle demo_table 0 demo_pt demo_tf) as (s' & H1 & (_ & H2 & _) & _).
  - split; vm_compute; discriminate.
  - vm_compute. reflexivity.
  - vm_compute. reflexivity.
  - vm_compute. reflexivity.
  - exact Hts.
  - exists s'. split; [exact H1|exact H2].
Defined.
