(* ===== verification/SwtchSpec.v ===== *)
(** * Context switches and kernel traps (swtch.S, kernelvec.S, entry.S)

    They run on kernel addresses, which are the keys of the memory of Mem.v. *)

From S2P Require Import Prelude Params Mem Asm.

(** Slots from a list of registers, one word each. *)
Definition words (rs : list reg) : slots := imap (fun i r => (r, 8 * Z.of_nat i)) rs.

(** The offsets at which kernelvec saves the registers below the stack pointer. *)
Definition frame_slots : slots :=
  [(gp, 16); (t0, 32); (t1, 40); (t2, 48); (a0, 72); (a1, 80); (a2, 88); (a3, 96); (a4, 104);
   (a5, 112); (a6, 120); (a7, 128); (t3, 216); (t4, 224); (t5, 232); (t6, 240)].

Section Kernel.
Context (sym : string -> Z) (call : string -> mach -> mach).

#[local] Instance kernel_env : Env := {| symbol := sym; translate _ _ a := Some a; callee := call |}.

(** An area of [n] bytes at [a] that does not wrap around. *)
Definition area (a n : Z) : Prop := 0 <= a /\ a + n <= 2 ^ 64.

Lemma exec_saves_kernel base l lim code s :
  area (s.(m_regs) base) (lim + 8) -> Forall (fun x : reg * Z => 0 <= snd x <= lim) l ->
  exec (saves base l ++ code) s =
  exec code (set_mem (save_mem (s.(m_regs) base) s.(m_regs) l s.(m_mem)) s).
Proof using Type.
  intros [H0 H1] Hl. apply (exec_saves base (s.(m_regs) base) (s.(m_regs) base) lim (fun _ _ => True)); try done.
  intros w s' o _ Ho. cbn. unfold u64. by rewrite Z.mod_small by lia.
Qed.

Lemma exec_loads_kernel base l lim code s :
  area (s.(m_regs) base) (lim + 8) -> Forall (fun x : reg * Z => 0 <= snd x <= lim) l -> base ∉ map fst l ->
  exec (loads base l ++ code) s = exec code (load_regs (s.(m_regs) base) l s).
Proof using Type.
  intros [H0 H1] Hl Hn. apply (exec_loads base (s.(m_regs) base) (s.(m_regs) base) lim (fun _ _ => True)); try done.
  intros w s' o _ Ho. cbn. unfold u64. by rewrite Z.mod_small by lia.
Qed.

(** ** swtch *)

Lemma swtch_split : swtch_code = saves a0 (words context_regs) ++ loads a1 (words context_regs) ++ [Jr ra].
Proof using Type. reflexivity. Qed.

Lemma context_slots : Forall (fun x : reg * Z => 0 <= snd x <= 104) (words context_regs) /\
  Forall (fun x : reg * Z => snd x mod 8 = 0) (words context_regs) /\
  NoDup (map snd (words context_regs)) /\ NoDup (map fst (words context_regs)) /\ zero ∉ map fst (words context_regs) /\
  a0 ∉ map fst (words context_regs) /\ a1 ∉ map fst (words context_regs).
Proof using Type.
  split; [repeat constructor; simpl; lia|]. split; [by repeat constructor|].
  split; [apply (bool_decide_eq_true_1 (NoDup _)); vm_compute; reflexivity|].
  split; [apply (bool_decide_eq_true_1 (NoDup _)); vm_compute; reflexivity|].
  split_and!; apply (bool_decide_eq_true_1 (_ ∉ _)); vm_compute; reflexivity.
Qed.

Lemma context_in i r : context_regs !! i = Some r -> (r, 8 * Z.of_nat i) ∈ words context_regs.
Proof using Type. intros H. apply list_elem_of_lookup. exists i. unfold words. by rewrite list_lookup_imap, H. Qed.

(** [swtch(old, new)] on contexts that do not overlap. *)
Lemma swtch_run s :
  let old := s.(m_regs) a0 in
  let new := s.(m_regs) a1 in
  area old 112 -> area new 112 -> old + 112 <= new \/ new + 112 <= old ->
  (forall r, 0 <= s.(m_regs) r < 2 ^ 64) ->
  exists s', exec swtch_code s = (Jump (load64 s.(m_mem) new), s') /\
    (forall i r, context_regs !! i = Some r ->
      load64 s'.(m_mem) (old + 8 * Z.of_nat i) = s.(m_regs) r /\
      s'.(m_regs) r = load64 s.(m_mem) (new + 8 * Z.of_nat i)) /\
    (forall r, r ∉ context_regs -> s'.(m_regs) r = s.(m_regs) r) /\
    changed_in (fun x => old <= x < old + 112) s.(m_mem) s'.(m_mem).
Proof using Type.
  intros old new Ho Hn Hd Hr. destruct context_slots as (C1 & C2 & C3 & C4 & C5 & C6 & C7).
  pose proof (save_mem_changed old s.(m_regs) (words context_regs) 0 104 s.(m_mem) C1) as Hch.
  set (m1 := save_mem old s.(m_regs) (words context_regs) s.(m_mem)) in *.
  assert (forall o, 0 <= o <= 104 -> load64 m1 (new + o) = load64 s.(m_mem) (new + o)) as Hnew
    by (intros o H; apply load64_ext; intros x Hx; apply Hch; lia).
  set (s1 := load_regs new (words context_regs) (set_mem m1 s)).
  destruct (load_regs_mem new (words context_regs) (set_mem m1 s)) as [Em Ec]. fold s1 in Em, Ec.
  assert (forall i r, context_regs !! i = Some r -> s1.(m_regs) r = load64 s.(m_mem) (new + 8 * Z.of_nat i)) as Hregs.
  { intros i r Hi. pose proof (lookup_lt_Some _ _ _ Hi) as Hlt. change (length context_regs) with 14%nat in Hlt.
    unfold s1. rewrite (load_regs_in new _ _ r (8 * Z.of_nat i) C4 (context_in i r Hi)).
    - apply Hnew. lia.
    - intros ->. apply C5. apply list_elem_of_fmap. exists (zero, 8 * Z.of_nat i). split; [done|by apply context_in]. }
  exists s1. split.
  - rewrite swtch_split, (exec_saves_kernel a0 _ 104) by done. fold old m1.
    rewrite (exec_loads_kernel a1 _ 104) by done. change ((set_mem m1 s).(m_regs) a1) with new. fold s1.
    rewrite exec_Jr. rewrite (Hregs 0%nat ra eq_refl). by rewrite Z.mul_0_r, Z.add_0_r.
  - split; [intros i r Hi; split; [|by apply Hregs]|split].
    + rewrite Em. cbn [set_mem m_mem]. unfold m1.
      rewrite (save_mem_in old s.(m_regs) _ _ r (8 * Z.of_nat i) C2 C3 (context_in i r Hi)).
      unfold u64. apply Z.mod_small, Hr.
    + intros r Hnr. unfold s1. rewrite load_regs_out; [done|]. intros Hin. apply Hnr.
      apply list_elem_of_fmap in Hin as ((r' & o) & -> & Hin). apply list_elem_of_lookup in Hin as (i & Hi).
      unfold words in Hi. apply list_lookup_imap_Some in Hi as (r'' & Hi & [= -> _]). by eapply list_elem_of_lookup_2.
    + rewrite Em. intros x Hx. apply Hch. lia.
Qed.

(** [C32] A process that is switched away from continues where it was: after [swtch(old, new)], a
    [swtch(from, old)] on any hart, with the context at [old] as it was left, returns to the
    caller of the first with the stack pointer and the callee-saved registers it had. *)
Theorem swtch_roundtrip s s2 :
  let old := s.(m_regs) a0 in
  area old 112 -> area (s.(m_regs) a1) 112 ->
  old + 112 <= s.(m_regs) a1 \/ s.(m_regs) a1 + 112 <= old ->
  (forall r, 0 <= s.(m_regs) r < 2 ^ 64) -> (forall r, 0 <= s2.(m_regs) r < 2 ^ 64) ->
  s2.(m_regs) a1 = old -> area (s2.(m_regs) a0) 112 ->
  s2.(m_regs) a0 + 112 <= old \/ old + 112 <= s2.(m_regs) a0 ->
  exists s1, exec swtch_code s = (Jump (load64 s.(m_mem) (s.(m_regs) a1)), s1) /\
    ((forall i, (i < 14)%nat -> load64 s2.(m_mem) (old + 8 * Z.of_nat i) = load64 s1.(m_mem) (old + 8 * Z.of_nat i)) ->
     exists s3, exec swtch_code s2 = (Jump (s.(m_regs) ra), s3) /\
       (forall r, r ∈ context_regs -> s3.(m_regs) r = s.(m_regs) r) /\
       (forall r, r ∉ context_regs -> s3.(m_regs) r = s2.(m_regs) r)).
Proof using Type.
  intros old Ho Hn Hd Hr Hr2 Ha Ho2 Hd2.
  destruct (swtch_run s Ho Hn Hd Hr) as (s1 & Hrun & Hsv & _ & _). exists s1. split; [exact Hrun|]. intros Hsame.
  destruct (swtch_run s2 Ho2) as (s3 & Hrun3 & Hrs & Hother & _); [by rewrite Ha|rewrite Ha; lia|done|].
  rewrite Ha in *.
  assert (forall i r, context_regs !! i = Some r -> load64 s2.(m_mem) (old + 8 * Z.of_nat i) = s.(m_regs) r) as Hctx.
  { intros i r Hi. rewrite Hsame by (exact (lookup_lt_Some _ _ _ Hi)). by apply Hsv. }
  exists s3. split; [|split; [|done]].
  - rewrite Hrun3. do 2 f_equal. rewrite <- (Hctx 0%nat ra eq_refl). f_equal. lia.
  - intros r Hin. apply list_elem_of_lookup in Hin as (i & Hi). destruct (Hrs i r Hi) as [_ ->]. by apply Hctx.
Qed.
(** ** kernelvec *)

Definition callee_saved : list reg := [s0; s1; s2; s3; s4; s5; s6; s7; s8; s9; s10; s11].
Definition save_slots : slots := [(ra, 0); (sp, 8); (gp, 16); (tp, 24)] ++ drop 1 frame_slots.

(** The C function keeps the stack pointer, the callee-saved registers and the
    [n] bytes of the caller's frame at the stack pointer. *)
Record keeps_frame (n : Z) (s s' : mach) : Prop := {
  kf_sp : s'.(m_regs) sp = s.(m_regs) sp;
  kf_zero : s'.(m_regs) zero = s.(m_regs) zero;
  kf_saved : forall r, r ∈ callee_saved -> s'.(m_regs) r = s.(m_regs) r;
  kf_mem : forall x, s.(m_regs) sp <= x < s.(m_regs) sp + n -> load8 s'.(m_mem) x = load8 s.(m_mem) x;
}.

Lemma kernelvec_split : kernelvec_code = Addi sp sp (-256) :: saves sp save_slots ++
  [Call "kerneltrap"; Ld ra 0 sp; Ld sp 8 sp] ++ loads sp frame_slots ++ [Addi sp sp 256; Sret].
Proof using Type. reflexivity. Qed.

Lemma frame_facts : Forall (fun x : reg * Z => 0 <= snd x <= 248) save_slots /\
  Forall (fun x : reg * Z => snd x mod 8 = 0) save_slots /\ NoDup (map snd save_slots) /\
  Forall (fun x : reg * Z => 0 <= snd x <= 248) frame_slots /\ NoDup (map fst frame_slots) /\
  (forall x, x ∈ frame_slots -> x ∈ save_slots).
Proof using Type.
  split; [repeat constructor; simpl; lia|]. split; [by repeat constructor|].
  split; [apply (bool_decide_eq_true_1 (NoDup _)); vm_compute; reflexivity|].
  split; [repeat constructor; simpl; lia|].
  split; [apply (bool_decide_eq_true_1 (NoDup _)); vm_compute; reflexivity|].
  intros x Hx. unfold save_slots, frame_slots in *. cbn [drop app]. set_solver.
Qed.

Lemma exec_Ld_kernel r o base code s : 0 <= s.(m_regs) base + o < 2 ^ 64 ->
  exec (Ld r o base :: code) s = exec code (set_reg r (load64 s.(m_mem) (s.(m_regs) base + o)) s).
Proof using Type. intros H. cbn [exec translate kernel_env]. unfold u64 at 1. by rewrite Z.mod_small. Qed.

Section Kernelvec.
Context (s : mach) (Hsp : 256 <= s.(m_regs) sp) (Hz : s.(m_regs) zero = 0).
Context (Hr : forall r, 0 <= s.(m_regs) r < 2 ^ 64).
Context (Hcall : forall s', keeps_frame 256 s' (call "kerneltrap" s')).

(** The frame, the machine that calls kerneltrap, and the one it returns to. *)
Definition frame_at : Z := s.(m_regs) sp - 256.
Definition entered : mach := set_reg sp frame_at s.
Definition calling : mach := set_mem (save_mem frame_at entered.(m_regs) save_slots s.(m_mem)) entered.
Definition returned : mach := call "kerneltrap" calling.
Definition restored : mach :=
  let m := returned.(m_mem) in
  load_regs frame_at frame_slots
    (set_reg sp (load64 m (frame_at + 8)) (set_reg ra (load64 m (frame_at + 0)) returned)).

Lemma frame_area : area frame_at 256.
Proof using Hsp Hz Hr Hcall. pose proof (Hr sp). unfold area, frame_at. lia. Qed.

Lemma entered_sp : entered.(m_regs) sp = frame_at.
Proof using Hsp Hz Hr Hcall. pose proof frame_area as [H1 H2]. unfold entered. rewrite set_reg_eq by done. apply Z.mod_small. lia. Qed.

Lemma entered_other r : r <> sp -> entered.(m_regs) r = s.(m_regs) r.
Proof using Type. intros H. by apply set_reg_ne. Qed.

(** The frame still holds the registers. *)
Lemma frame_kept r o : (r, o) ∈ save_slots -> load64 returned.(m_mem) (frame_at + o) = entered.(m_regs) r.
Proof using Hsp Hz Hr Hcall.
  intros Hin. destruct frame_facts as (C1 & C2 & C3 & _). destruct (Hcall calling) as [_ _ _ K].
  pose proof (proj1 (Forall_forall _ _) C1 (r, o) Hin) as Ho. cbn [snd] in Ho.
  change (m_regs calling) with (m_regs entered) in K. rewrite entered_sp in K.
  transitivity (load64 calling.(m_mem) (frame_at + o)); [apply load64_ext; intros x Hx; apply K; lia|].
  unfold calling. cbn [set_mem m_mem]. rewrite (save_mem_in _ _ _ _ r o C2 C3 Hin).
  apply Z.mod_small. destruct (decide (r = sp)) as [->|Hne].
  - rewrite entered_sp. pose proof frame_area as [H1 H2]. lia.
  - rewrite entered_other by done. apply Hr.
Qed.

Lemma reloaded_sp : u64 (load64 returned.(m_mem) (frame_at + 8)) = frame_at.
Proof using Hsp Hz Hr Hcall.
  rewrite (frame_kept sp 8) by (unfold save_slots; set_solver). rewrite entered_sp.
  pose proof frame_area as [H1 H2]. apply Z.mod_small. lia.
Qed.

Lemma kernelvec_run : exec kernelvec_code s = (Return_user, set_reg sp (restored.(m_regs) sp + 256) restored).
Proof using Hsp Hz Hr Hcall.
  destruct frame_facts as (C1 & C2 & C3 & C4 & C5 & C6). pose proof frame_area as Hb.
  destruct (Hcall calling) as [K1 _ _ _]. change (m_regs calling) with (m_regs entered) in K1.
  fold returned in K1. rewrite entered_sp in K1.
  rewrite kernelvec_split, exec_Addi. change (s.(m_regs) sp + -256) with frame_at. fold entered.
  rewrite (exec_saves_kernel sp _ 248) by (rewrite ?entered_sp; done). rewrite entered_sp.
  change (m_mem entered) with (m_mem s). fold calling. cbn [app]. rewrite exec_Call.
  change (callee "kerneltrap" calling) with returned.
  destruct Hb as [Hb0 Hb1]. rewrite exec_Ld_kernel by (rewrite K1; lia). rewrite K1.
  set (s4 := set_reg ra _ returned). assert (s4.(m_regs) sp = frame_at) as E4 by exact K1.
  rewrite exec_Ld_kernel by (rewrite E4; lia). rewrite E4. change (m_mem s4) with (m_mem returned).
  set (s5 := set_reg sp _ s4). assert (s5.(m_regs) sp = frame_at) as E5
    by (unfold s5; rewrite set_reg_eq by done; exact reloaded_sp).
  rewrite (exec_loads_kernel sp _ 248).
  - rewrite E5, exec_Addi, exec_Sret. reflexivity.
  - rewrite E5. split; lia.
  - done.
  - apply (bool_decide_eq_true_1 (_ ∉ _)). vm_compute. reflexivity.
Qed.

Lemma restored_reg r : r <> tp -> r <> sp -> restored.(m_regs) r = s.(m_regs) r.
Proof using Hsp Hz Hr Hcall.
  intros Htp Hns. destruct frame_facts as (_ & _ & _ & _ & C5 & C6). destruct (Hcall calling) as [_ K2 K3 _].
  fold returned in K2, K3. change (m_regs calling) with (m_regs entered) in K2, K3.
  destruct (decide (r ∈ map fst frame_slots)) as [Hin|Hout].
  - apply list_elem_of_fmap in Hin as ((r' & o) & -> & Hin). cbn [fst] in *. unfold restored. cbv zeta.
    assert (r' <> zero) as Hnz by (intros ->; revert Hin; apply (bool_decide_eq_true_1 (_ ∉ _)); destruct o; vm_compute; reflexivity).
    rewrite (load_regs_in frame_at frame_slots _ r' o C5 Hin Hnz). cbn [set_reg m_mem].
    rewrite (frame_kept r' o) by (by apply C6). by apply entered_other.
  - unfold restored. cbv zeta. rewrite load_regs_out, set_reg_ne by done. destruct (decide (r = ra)) as [->|Hra].
    + rewrite set_reg_eq, (frame_kept ra 0), entered_other by (done || (unfold save_slots; set_solver)). apply Z.mod_small, Hr.
    + rewrite set_reg_ne by done. destruct (decide (r = zero)) as [->|Hnz]; [by rewrite K2, entered_other|].
      rewrite K3, entered_other; [done|done|]. apply (bool_decide_eq_true_1 (r ∈ callee_saved)).
      destruct r; try done; (vm_compute; reflexivity) || (exfalso; apply Hout; vm_compute; set_solver).
Qed.

End Kernelvec.

(** An interrupt in the kernel is invisible to the interrupted code: if kerneltrap keeps the frame
    and the callee-saved registers, then [kernelvec] returns with every register as it was, but
    [tp], which holds the id of the hart that runs the process now. *)
Theorem kernelvec_transparent s :
  256 <= s.(m_regs) sp -> s.(m_regs) zero = 0 -> (forall r, 0 <= s.(m_regs) r < 2 ^ 64) ->
  (forall s', keeps_frame 256 s' (call "kerneltrap" s')) ->
  exists s', exec kernelvec_code s = (Return_user, s') /\
    s'.(m_mem) = (returned s).(m_mem) /\ s'.(m_regs) tp = (returned s).(m_regs) tp /\
    forall r, r <> tp -> s'.(m_regs) r = s.(m_regs) r.
Proof using Type.
  intros Hsp Hz Hr Hcall. eexists. split; [by apply kernelvec_run|].
  pose proof (load_regs_mem (frame_at s) frame_slots) as Hm.
  split; [exact (proj1 (Hm _))|]. split.
  - rewrite set_reg_ne by done. unfold restored. cbv zeta. rewrite load_regs_out, !set_reg_ne; try done.
    apply (bool_decide_eq_true_1 (_ ∉ _)). vm_compute. reflexivity.
  - intros r Htp. destruct (decide (r = sp)) as [->|Hns]; [|rewrite set_reg_ne by done; by apply restored_reg].
    rewrite set_reg_eq by done. unfold restored at 1. cbv zeta.
    rewrite load_regs_out by (apply (bool_decide_eq_true_1 (_ ∉ _)); vm_compute; reflexivity).
    rewrite set_reg_eq, reloaded_sp by done. unfold frame_at. rewrite Z.sub_add. apply Z.mod_small, Hr.
Qed.

(** ** entry *)

(** Every hart starts on a stack of its own. *)
Lemma entry_stack s h :
  s.(m_csrs) Cmhartid = h -> 0 <= h < NCPU -> 0 <= sym "stack0" -> sym "stack0" + 4096 * NCPU < 2 ^ 64 ->
  exists s', exec entry_code s = (End_of_code, call "start" s') /\ s'.(m_mem) = s.(m_mem) /\
    s'.(m_regs) sp = sym "stack0" + 4096 * (h + 1).
Proof using Type.
  intros Hh Hr H0 H1. change NCPU with 8 in *. eexists. split; [reflexivity|]. split; [reflexivity|].
  transitivity (u64 (u64 (sym "stack0") + u64 (u64 4096 * u64 (u64 (s.(m_csrs) Cmhartid) + 1)))); [reflexivity|].
  rewrite Hh. unfold u64. rewrite (Z.mod_small h), (Z.mod_small (h + 1)), (Z.mod_small 4096), (Z.mod_small (sym _)) by lia.
  rewrite (Z.mod_small (4096 * (h + 1))) by lia. apply Z.mod_small. lia.
Qed.

End Kernel.

(** Two contexts, and the way back. *)
Definition demo_regs (old new : Z) (r : reg) : Z :=
  match r with zero => 0 | a0 => old | a1 => new | _ => 100 + trapframe_off r end.
Definition demo_away : mach := mkMach (demo_regs 4096 8192) (fun _ => 0) ∅.
Definition demo_back (m : memory) : mach := mkMach (demo_regs 12288 4096) (fun _ => 0) m.

Lemma demo_regs_range old new r : 0 <= old < 2 ^ 64 -> 0 <= new < 2 ^ 64 -> 0 <= demo_regs old new r < 2 ^ 64.
Proof. intros Ho Hn. destruct r; simpl; lia. Qed.

Lemma demo_away_reg r : r ∈ context_regs -> demo_away.(m_regs) r = 100 + trapframe_off r.
Proof. intros H. unfold context_regs in H. destruct r; try done; exfalso; revert H; apply (bool_decide_eq_true_1 (_ ∉ _)); vm_compute; reflexivity. Qed.

Lemma swtch_roundtrip_witness :
  exists m s3, exec (E := kernel_env (fun _ => 0) (fun _ s => s)) swtch_code (demo_back m) = (Jump 140, s3) /\
    s3.(m_regs) s11 = 348.
Proof.
  destruct (exec (E := kernel_env (fun _ => 0) (fun _ s => s)) swtch_code demo_away) as [x s1] eqn:Hex.
  destruct (swtch_roundtrip (fun _ => 0) (fun _ s => s) demo_away (demo_back s1.(m_mem))) as (s1' & Hrun & Hback).
  - split; vm_compute; discriminate.
  - split; vm_compute; discriminate.
  - left. vm_compute. discriminate.
  - intros r. exact (demo_regs_range 4096 8192 r ltac:(lia) ltac:(lia)).
  - intros r. exact (demo_regs_range 12288 4096 r ltac:(lia) ltac:(lia)).
  - reflexivity.
  - split; vm_compute; discriminate.
  - right. vm_compute. discriminate.
  - rewrite Hex in Hrun. injection Hrun as _ E. rewrite <- E in Hback.
    destruct Hback as (s3 & H3 & Hr & _); [intros i _; reflexivity|]. clear Hex.
    assert (ra ∈ context_regs /\ s11 ∈ context_regs) as [Hra Hs11]
      by (split; apply (bool_decide_eq_true_1 (_ ∈ context_regs)); vm_compute; reflexivity).
    rewrite (demo_away_reg ra Hra) in H3. exists s1.(m_mem), s3. split; [exact H3|].
    by rewrite (Hr s11 Hs11), (demo_away_reg s11 Hs11).
Defined.
