(* ===== verification/Start.v ===== *)
(** * Machine mode (start.c)

    The registers that [start] and [timerinit] read and write, and [mret]. *)

From S2P Require Import Prelude Params.

Definition MSTATUS_MPP_MASK : Z := Z.shiftl 3 11.
Definition MSTATUS_MPP_S : Z := Z.shiftl 1 11.
Definition MSTATUS_MIE : Z := Z.shiftl 1 3.
Definition SIE_SEIE : Z := Z.shiftl 1 9.
Definition SIE_STIE : Z := Z.shiftl 1 5.
Definition SIE_SSIE : Z := Z.shiftl 1 1.
Definition MIE_STIE : Z := Z.shiftl 1 5.

Inductive mreg : Type :=
| Mstatus | Mepc | Medeleg | Mideleg | Mie | Menvcfg | Mcounteren | Mhartid
| Pmpaddr0 | Pmpcfg0 | Sie | Satp | Stimecmp | Time | Tp.

#[global] Instance mreg_eq_dec : EqDecision mreg.
Proof. solve_decision. Defined.

Definition mstate : Type := mreg -> Z.

Definition r (c : mreg) : M mstate Z := get (fun s => s c).
Definition w (c : mreg) (v : Z) : M mstate unit :=
  modify (fun s c' => if decide (c' = c) then u64 v else s c').

(** The privilege modes. *)
Inductive privilege : Type := User | Supervisor | Machine.

(** [mret]: the mode in the field MPP and the address in mepc; MIE becomes MPIE,
    MPIE 1 and MPP user mode. *)
Definition mret : M mstate (privilege * Z) :=
  let! x := r Mstatus in
  let! pc := r Mepc in
  let mpp := Z.land (Z.shiftr x 11) 3 in
  let mpie := Z.land (Z.shiftr x 7) 1 in
  let x := Z.land x (Z.lnot (Z.lor MSTATUS_MPP_MASK MSTATUS_MIE)) in
  w Mstatus (Z.lor (Z.lor x (Z.shiftl 1 7)) (Z.shiftl mpie 3)) ;;
  ret (if mpp =? 1 then Supervisor else if mpp =? 3 then Machine else User, pc).

(** Ask each hart to generate timer interrupts. *)
Definition timerinit : M mstate unit :=
  (* enable supervisor-mode timer interrupts. *)
  let! mie := r Mie in
  w Mie (Z.lor mie MIE_STIE) ;;
  (* enable the sstc extension (i.e. stimecmp). *)
  let! menvcfg := r Menvcfg in
  w Menvcfg (Z.lor menvcfg (Z.shiftl 1 63)) ;;
  (* allow supervisor to use stimecmp and time. *)
  let! mcounteren := r Mcounteren in
  w Mcounteren (Z.lor mcounteren 2) ;;
  (* ask for the very first timer interrupt. *)
  let! time := r Time in
  w Stimecmp (time + 1000000).

(** [main] is the address of main(). *)
Definition start (main : Z) : M mstate (privilege * Z) :=
  (* set M Previous Privilege mode to Supervisor, for mret. *)
  let! x := r Mstatus in
  let x := Z.land x (Z.lnot MSTATUS_MPP_MASK) in
  let x := Z.lor x MSTATUS_MPP_S in
  w Mstatus x ;;
  (* set M Exception Program Counter to main, for mret. *)
  w Mepc main ;;
  (* disable paging for now. *)
  w Satp 0 ;;
  (* delegate all interrupts and exceptions to supervisor mode. *)
  w Medeleg 0xffff ;;
  w Mideleg 0xffff ;;
  let! sie := r Sie in
  w Sie (Z.lor (Z.lor (Z.lor sie SIE_SEIE) SIE_STIE) SIE_SSIE) ;;
  (* configure Physical Memory Protection to give supervisor mode
     access to all of physical memory. *)
  w Pmpaddr0 0x3fffffffffffff ;;
  w Pmpcfg0 0xf ;;
  (* ask for clock interrupts. *)
  timerinit ;;
  (* keep each CPU's hartid in its tp register, for cpuid(). *)
  let! id := r Mhartid in
  w Tp (i32 id) ;;
  (* switch to supervisor mode and jump to main(). *)
  mret.

(** ** Properties *)

Lemma testbit_set x k : 0 <= k -> Z.testbit (Z.lor x (Z.shiftl 1 k)) k = true.
Proof.
  intros Hk. rewrite Z.lor_spec, Z.shiftl_1_l, Z.pow2_bits_true by done. apply orb_true_r.
Qed.

Lemma i32_of_small x : 0 <= x < 2 ^ 31 -> i32 x = x.
Proof. intros H. unfold i32, signed. rewrite Z.mod_small by lia. case_cmp; lia. Qed.

Lemma testbit_u64 x k : 0 <= k < 64 -> Z.testbit (u64 x) k = Z.testbit x k.
Proof. intros Hk. unfold u64. apply Z.mod_pow2_bits_low. lia. Qed.

(** The previous privilege that [start] sets is supervisor mode, whatever mstatus was. *)
Lemma mpp_supervisor x :
  Z.land (Z.shiftr (u64 (Z.lor (Z.land x (Z.lnot MSTATUS_MPP_MASK)) MSTATUS_MPP_S)) 11) 3 = 1.
Proof.
  apply Z.bits_inj'. intros n Hn. rewrite Z.land_spec, Z.shiftr_spec by lia.
  destruct (decide (n = 0)) as [->|H0]; [|destruct (decide (n = 1)) as [->|H1]].
  - rewrite testbit_u64, Z.lor_spec by lia. change (Z.testbit MSTATUS_MPP_S (0 + 11)) with true. by rewrite orb_true_r.
  - rewrite testbit_u64, Z.lor_spec, Z.land_spec, Z.lnot_spec by lia.
    change (Z.testbit MSTATUS_MPP_MASK (1 + 11)) with true. change (Z.testbit MSTATUS_MPP_S (1 + 11)) with false.
    by rewrite andb_false_r.
  - rewrite (Z.bits_above_log2 3 n), andb_false_r by (simpl; lia).
    by rewrite (Z.bits_above_log2 1 n) by (simpl; lia).
Qed.

(** [start] leaves machine mode for [main] in supervisor mode, with paging off, interrupts and
    exceptions delegated, all of memory open to supervisor mode, supervisor and timer interrupts
    enabled, the timer armed, and the hart id, which fits an int, in [tp]. *)
Theorem start_correct main s :
  0 <= s Mhartid < NCPU ->
  exists s', start main s = Ret (Supervisor, u64 main) s' /\
    s' Satp = 0 /\ s' Medeleg = 0xffff /\ s' Mideleg = 0xffff /\
    s' Pmpaddr0 = 0x3fffffffffffff /\ s' Pmpcfg0 = 0xf /\ s' Tp = s Mhartid /\
    s' Stimecmp = u64 (s Time + 1000000) /\
    Z.testbit (s' Sie) 9 = true /\ Z.testbit (s' Sie) 5 = true /\ Z.testbit (s' Sie) 1 = true /\
    Z.testbit (s' Mie) 5 = true /\ Z.testbit (s' Menvcfg) 63 = true /\ Z.testbit (s' Mcounteren) 1 = true.
Proof.
  intros Hid. change NCPU with 8 in Hid. pose proof (mpp_supervisor (s Mstatus)) as Hmpp.
  set (x := u64 (Z.lor (Z.land (s Mstatus) (Z.lnot MSTATUS_MPP_MASK)) MSTATUS_MPP_S)) in Hmpp.
  unfold start. repeat (erewrite bind_Ret by reflexivity).
  match goal with |- context [mret ?f] => set (s1 := f) end.
  unfold mret. do 3 (erewrite bind_Ret by reflexivity). change (s1 Mstatus) with x. rewrite Hmpp.
  change (1 =? 1) with true. cbv iota. eexists. split; [reflexivity|]. unfold s1. clear Hmpp.
  refine (conj eq_refl (conj eq_refl (conj eq_refl (conj eq_refl (conj eq_refl (conj _ (conj eq_refl _))))))).
  - transitivity (u64 (i32 (s Mhartid))); [reflexivity|]. rewrite i32_of_small by lia. apply Z.mod_small. lia.
  - set (sie := u64 (Z.lor (Z.lor (Z.lor (s Sie) SIE_SEIE) SIE_STIE) SIE_SSIE)).
    assert (Z.testbit sie 9 = true /\ Z.testbit sie 5 = true /\ Z.testbit sie 1 = true) as (H9 & H5 & H1).
    { unfold sie. rewrite !testbit_u64, !Z.lor_spec by lia.
      change (Z.testbit SIE_SEIE 9) with true. change (Z.testbit SIE_STIE 5) with true.
      change (Z.testbit SIE_SSIE 1) with true. by rewrite !orb_true_r. }
    refine (conj H9 (conj H5 (conj H1 (conj _ (conj _ _))))).
    + transitivity (Z.testbit (u64 (Z.lor (s Mie) MIE_STIE)) 5); [reflexivity|].
      rewrite testbit_u64 by lia. by apply testbit_set.
    + transitivity (Z.testbit (u64 (Z.lor (s Menvcfg) (Z.shiftl 1 63))) 63); [reflexivity|].
      rewrite testbit_u64 by lia. by apply testbit_set.
    + transitivity (Z.testbit (u64 (Z.lor (s Mcounteren) 2)) 1); [reflexivity|].
      rewrite testbit_u64 by lia. by apply (testbit_set _ 1).
Qed.
