(* ===== verification/TestProgs.v ===== *)
(** * Test programs: forktest, stressfs and grind

    Programs over the system calls, like those of Utils.v. The state that a
    loop of grind carries is a record; [rand_next] is one of its fields, and a
    child has its own copy. *)

From S2P Require Import Prelude Params User Ulib UPrintf.

(** ** forktest (user/forktest.c) *)

Definition N : nat := 1000.

Definition print (s : list Z) : prog Z := write 1 s.

(** The loop that forks, with [k] iterations left; returns [n]. *)
Fixpoint fork_loop (k : nat) (n : Z) : prog Z :=
  match k with
  | O => uret n
  | S k' =>
      let! pid := fork in
      if pid <? 0 then uret n
      else if pid =? 0 then exit 0
      else fork_loop k' (n + 1)
  end.

(** The loop that waits for [n] children. *)
Fixpoint wait_loop (n : nat) : prog unit :=
  match n with
  | O => uret tt
  | S n' =>
      let! r := wait in
      if r <? 0 then print (str "wait stopped early" ++ [10]) ;; exit 1
      else wait_loop n'
  end.

Definition forktest : prog unit :=
  print (str "fork test" ++ [10]) ;;
  let! n := fork_loop N 0 in
  if n =? Z.of_nat N then
    print (str "fork claimed to work N times!" ++ [10]) ;;
    exit 1
  else
    wait_loop (Z.to_nat n) ;;
    let! r := wait in
    if negb (r =? -1) then
      print (str "wait got too many" ++ [10]) ;;
      exit 1
    else
      print (str "fork test OK" ++ [10]) ;;
      uret tt.

Definition forktest_main : prog Z := forktest ;; exit 0.

(** ** stressfs (user/stressfs.c) *)

(** [for(i = 0; i < 4; i++) if(fork() > 0) break;] returns [i]. *)
Fixpoint stress_fork (k : nat) (i : Z) : prog Z :=
  match k with
  | O => uret i
  | S k' =>
      let! pid := fork in
      if pid >? 0 then uret i else stress_fork k' (i + 1)
  end.

Definition stressfs_main : prog Z :=
  printf (str "stressfs starting" ++ [10]) [] ;;
  let data := replicate 512 97 in
  let! i := stress_fork 4 0 in
  printf (str "write %d" ++ [10]) [UInt i] ;;
  let path := str "stressfs" ++ [48 + i] in
  let! fd := open path (Z.lor O_CREATE O_RDWR) in
  each (seq 0 20) (fun _ => write fd data ;; uret tt) ;;
  close fd ;;
  printf (str "read" ++ [10]) [] ;;
  let! fd := open path 0 in
  each (seq 0 20) (fun _ => read fd 512 ;; uret tt) ;;
  close fd ;;
  wait ;;
  exit 0.

(** ** grind (user/grind.c) *)

(** The new seed; the result is the seed as an int. *)
Definition do_rand (ctx : Z) : Z :=
  let x := ctx mod 0x7ffffffe + 1 in
  let hi := x / 127773 in
  let lo := x mod 127773 in
  let x := 16807 * lo - 2836 * hi in
  let x := if x <? 0 then x + 0x7fffffff else x in
  x - 1.

Record grind : Type := mkGrind {
  g_rand : Z;       (* rand_next *)
  g_fd : Z;
  g_buf : list Z;   (* buf[999] *)
  g_iters : Z;
}.

Definition OCRW : Z := Z.lor O_CREATE O_RDWR.

(** [close(open(path, O_CREATE|O_RDWR))] *)
Definition touch (path : list Z) : prog unit := let! fd := open path OCRW in close fd ;; uret tt.
Definition chdir (path : list Z) : prog Z := sys (Sys_chdir path).
Definition unlink (path : list Z) : prog unit := sys (Sys_unlink path) ;; uret tt.
Definition mkdir (path : list Z) : prog unit := sys (Sys_mkdir path) ;; uret tt.
Definition link (old new : list Z) : prog unit := sys (Sys_link old new) ;; uret tt.
Definition nl (s : string) : list Z := str s ++ [10].

Definition fail (msg : string) : prog unit := printf (nl msg) [] ;; exit 1.
Definition unless (b : bool) (t : prog unit) : prog unit := if b then uret tt else t.

(** [fork], the child's code, the failure, and then the rest of the parent. *)
Definition fork_then (child : prog unit) (parent : Z -> prog unit) : prog unit :=
  let! pid := fork in
  if pid =? 0 then child ;; exit 0
  else if pid <? 0 then fail "grind: fork failed"
  else parent pid.

Definition wait_one (_ : Z) : prog unit := wait ;; uret tt.

(** Case 19: a pipe that four children write and read. *)
Definition grind_pipe : prog unit :=
  let! (r, (fds0, fds1)) := sys Sys_pipe in
  if r <? 0 then fail "grind: pipe failed" else
  fork_then
    (fork ;;
     fork ;;
     (let! n := write fds1 (str "x") in unless (n =? 1) (printf (nl "grind: pipe write failed") [])) ;;
     (let! (n, _) := read fds0 1 in unless (n =? 1) (printf (nl "grind: pipe read failed") [])))
    (fun _ =>
     close fds0 ;;
     close fds1 ;;
     wait ;;
     uret tt).

(** Case 21: there are free inodes, file descriptors and blocks. *)
Definition grind_create : prog unit :=
  unlink (str "c") ;;
  let! fd1 := open (str "c") OCRW in
  unless (negb (fd1 <? 0)) (fail "grind: create c failed") ;;
  (let! n := write fd1 (str "x") in unless (n =? 1) (fail "grind: write c failed")) ;;
  let! (r, st) := sys (Sys_fstat fd1) in
  unless (r =? 0) (fail "grind: fstat failed") ;;
  unless (st.(st_size) =? 1)
    (printf (nl "grind: fstat reports wrong size %d") [UInt (i32 st.(st_size))] ;; exit 1) ;;
  unless (negb (st.(st_ino) >? 200))
    (printf (nl "grind: fstat reports crazy i-number %d") [UInt st.(st_ino)] ;; exit 1) ;;
  close fd1 ;;
  unlink (str "c").

Definition complain (msg : string) (status : Z) : prog unit := fprintf 2 (nl msg) [] ;; exit status.

(** One byte into the buffer, which keeps its byte when nothing was read. *)
Definition read_into (fd : Z) (i : nat) (buf : list Z) : prog (list Z) :=
  let! (_, bs) := read fd 1 in
  uret (match bs with b :: _ => <[i := b]> buf | [] => buf end).

(** Case 22: echo hi | cat *)
Definition grind_exec : prog unit :=
  let! (r, (aa0, aa1)) := sys Sys_pipe in
  unless (negb (r <? 0)) (complain "grind: pipe failed" 1) ;;
  let! (r, (bb0, bb1)) := sys Sys_pipe in
  unless (negb (r <? 0)) (complain "grind: pipe failed" 1) ;;
  let! pid1 := fork in
  if pid1 =? 0 then
    close bb0 ;;
    close bb1 ;;
    close aa0 ;;
    close 1 ;;
    (let! d := sys (Sys_dup aa1) in unless (d =? 1) (complain "grind: dup failed" 1)) ;;
    close aa1 ;;
    sys (Sys_exec (str "grindir/../echo") [str "echo"; str "hi"]) ;;
    complain "grind: echo: not found" 2
  else if pid1 <? 0 then complain "grind: fork failed" 3
  else
  let! pid2 := fork in
  if pid2 =? 0 then
    close aa1 ;;
    close bb0 ;;
    close 0 ;;
    (let! d := sys (Sys_dup aa0) in unless (d =? 0) (complain "grind: dup failed" 4)) ;;
    close aa0 ;;
    close 1 ;;
    (let! d := sys (Sys_dup bb1) in unless (d =? 1) (complain "grind: dup failed" 5)) ;;
    close bb1 ;;
    sys (Sys_exec (str "/cat") [str "cat"]) ;;
    complain "grind: cat: not found" 6
  else if pid2 <? 0 then complain "grind: fork failed" 7
  else
  close aa0 ;;
  close aa1 ;;
  close bb1 ;;
  let! buf := read_into bb0 0 [0; 0; 0; 0] in
  let! buf := read_into bb0 1 buf in
  let! buf := read_into bb0 2 buf in
  close bb0 ;;
  let! (_, st1) := sys Sys_wait_status in
  let! (_, st2) := sys Sys_wait_status in
  unless ((st1 =? 0) && (st2 =? 0) && bool_decide (until_nul buf = nl "hi"))
    (printf (str "grind: exec pipeline failed %d %d " ++ [34] ++ str "%s" ++ [34; 10])
       [UInt st1; UInt st2; UStr (Some (until_nul buf))] ;;
     exit 1).

(** The cases that leave the variables of the loop alone. *)
Definition grind_case (break0 what : Z) : prog unit :=
  if what =? 1 then touch (str "grindir/../a")
  else if what =? 2 then touch (str "grindir/../grindir/../b")
  else if what =? 3 then unlink (str "grindir/../a")
  else if what =? 4 then
    (let! r := chdir (str "grindir") in unless (r =? 0) (fail "grind: chdir grindir failed")) ;;
    unlink (str "../b") ;;
    chdir (str "/") ;;
    uret tt
  else if what =? 9 then
    mkdir (str "grindir/../a") ;;
    touch (str "a/../a/./a") ;;
    unlink (str "a/a")
  else if what =? 10 then
    mkdir (str "/../b") ;;
    touch (str "grindir/../b/b") ;;
    unlink (str "b/b")
  else if what =? 11 then
    unlink (str "b") ;;
    link (str "../grindir/./../a") (str "../b")
  else if what =? 12 then
    unlink (str "../grindir/../a") ;;
    link (str ".././b") (str "/grindir/../a")
  else if what =? 13 then fork_then (uret tt) wait_one
  else if what =? 14 then fork_then (fork ;; fork ;; uret tt) wait_one
  else if what =? 15 then sys (Sys_sbrk 6011) ;; uret tt
  else if what =? 16 then
    let! b := sys (Sys_sbrk 0) in
    unless (negb (b >? break0))
      (let! b := sys (Sys_sbrk 0) in sys (Sys_sbrk (i32 (- (b - break0)))) ;; uret tt)
  else if what =? 17 then
    fork_then (touch (str "a")) (fun pid =>
      (let! r := chdir (str "../grindir/..") in unless (r =? 0) (fail "grind: chdir failed")) ;;
      sys (Sys_kill pid) ;;
      wait ;;
      uret tt)
  else if what =? 18 then
    fork_then (let! me := sys Sys_getpid in sys (Sys_kill me) ;; uret tt) wait_one
  else if what =? 19 then grind_pipe
  else if what =? 20 then
    fork_then
      (unlink (str "a") ;;
       mkdir (str "a") ;;
       chdir (str "a") ;;
       unlink (str "../a") ;;
       open (str "x") OCRW ;;
       unlink (str "x")) wait_one
  else if what =? 21 then grind_create
  else if what =? 22 then grind_exec
  else uret tt.

Definition with_fd (g : grind) (fd : Z) : grind := mkGrind g.(g_rand) fd g.(g_buf) g.(g_iters).

(** The body of the endless loop. *)
Definition go_body (which_child break0 : Z) (g : grind) : prog (grind + Empty_set) :=
  let iters := u64 (g.(g_iters) + 1) in
  (if iters mod 500 =? 0 then write 1 (if which_child =? 0 then str "A" else str "B") ;; uret tt else uret tt) ;;
  let seed := do_rand g.(g_rand) in
  let what := Z.rem (i32 seed) 23 in
  let g := mkGrind seed g.(g_fd) g.(g_buf) iters in
  if what =? 5 then
    close g.(g_fd) ;;
    let! fd := open (str "/grindir/../a") OCRW in
    uret (inl (with_fd g fd))
  else if what =? 6 then
    close g.(g_fd) ;;
    let! fd := open (str "/./grindir/./../b") OCRW in
    uret (inl (with_fd g fd))
  else if what =? 7 then
    write g.(g_fd) g.(g_buf) ;;
    uret (inl g)
  else if what =? 8 then
    let! (_, bs) := read g.(g_fd) 999 in
    uret (inl (mkGrind g.(g_rand) g.(g_fd) (bs ++ drop (length bs) g.(g_buf)) g.(g_iters)))
  else
    grind_case break0 what ;;
    uret (inl g).

Definition go (rand_next which_child : Z) : prog Empty_set :=
  let! break0 := sys (Sys_sbrk 0) in
  mkdir (str "grindir") ;;
  (let! r := chdir (str "grindir") in unless (r =? 0) (fail "grind: chdir grindir failed")) ;;
  chdir (str "/") ;;
  loop (go_body which_child break0) (mkGrind rand_next (-1) (replicate 999 0) 0).

Definition iter (rand_next : Z) : prog unit :=
  unlink (str "a") ;;
  unlink (str "b") ;;
  let! pid1 := fork in
  if pid1 <? 0 then fail "grind: fork failed" else
  if pid1 =? 0 then
    let! x := go (Z.lxor rand_next 31) 0 in match x : Empty_set with end
  else
  let! pid2 := fork in
  if pid2 <? 0 then fail "grind: fork failed" else
  if pid2 =? 0 then
    let! x := go (Z.lxor rand_next 7177) 1 in match x : Empty_set with end
  else
  let! (r, st) := sys Sys_wait_status in
  let st1 := if r <? 0 then -1 else st in
  unless (st1 =? 0)
    (sys (Sys_kill pid1) ;;
     sys (Sys_kill pid2) ;;
     uret tt) ;;
  sys Sys_wait_status ;;
  exit 0.

Definition grind_main : prog Z :=
  loop (fun rand_next : Z =>
    let! pid := fork in
    if pid =? 0 then iter rand_next ;; exit 0
    else
    (if pid >? 0 then wait ;; uret tt else uret tt) ;;
    sys (Sys_sleep 20) ;;
    uret (inl (u64 (rand_next + 1)))) 1.

(** [do_rand] is the generator of Park and Miller: with the seed moved into the range from 1 to
    2^31 - 2 it multiplies by 7^5 modulo 2^31 - 1, the intermediate values fit 32 bits,
    and the result is again in range. *)
Theorem do_rand_correct ctx :
  let x := ctx mod 0x7ffffffe + 1 in
  do_rand ctx = (7 ^ 5 * x) mod (2 ^ 31 - 1) - 1 /\ 0 <= do_rand ctx <= 0x7ffffffd /\
  - 2 ^ 31 <= 16807 * (x mod 127773) - 2836 * (x / 127773) < 2 ^ 31.
Proof.
  intros x. assert (1 <= x <= 0x7ffffffe) as Hx by (unfold x; pose proof (Z.mod_pos_bound ctx 0x7ffffffe ltac:(lia)); lia).
  pose proof (Z.div_mod x 127773 ltac:(lia)) as Hdm. pose proof (Z.mod_pos_bound x 127773 ltac:(lia)) as Hlo.
  set (hi := x / 127773) in *. set (lo := x mod 127773) in *. set (y := 16807 * lo - 2836 * hi).
  assert (0 <= hi <= 16807) as Hhi by lia. assert (7 ^ 5 * x = (2 ^ 31 - 1) * hi + y) as Hy by (unfold y; lia).
  assert (y <> 0) as Hne.
  { intros E. assert ((2 ^ 31 - 1 | x)) as Hd.
    { apply (Znumtheory.Gauss _ (7 ^ 5)); [exists hi; lia|]. apply Znumtheory.Zgcd_1_rel_prime. reflexivity. }
    apply Z.divide_pos_le in Hd; lia. }
  assert ((7 ^ 5 * x) mod (2 ^ 31 - 1) = if y <? 0 then y + 0x7fffffff else y) as Hmod.
  { case_cmp; symmetry; [apply (Z.mod_unique _ _ (hi - 1))|apply (Z.mod_unique _ _ hi)]; unfold y in *; lia. }
  rewrite Hmod. unfold do_rand. fold x. fold hi lo y. split; [done|]. split; [case_cmp; unfold y in *; lia|unfold y; lia].
Qed.
